(* ===== verification/_CoqProject ===== *)
-Q . S2P
Prelude.v
Text.v
Net.v
Float64.v
Fixed.v
Tier.v
Policy.v
Glicko2.v
Optimize.v
Routing.v
Billing.v
Reserve.v
Ledger.v
Asn.v
AntiAbuse.v
Api.v
StandardData.v
Hardware.v
Fingerprint.v
Store.v
Envelope.v
Snapshot.v
Tables.v
Lease.v
Postings.v
Complete.v
Settled.v
Requests.v
Quotes.v
Dispatch.v
DispatchSpec.v
JobOps.v
Identity.v
RegulatedRoutes.v
Admission.v
RegulatedJobs.v
NodeRequests.v
Nodes.v
Models.v
AuthRoutes.v
WebAuth.v
ApiKeys.v
Selection.v
Lifecycle.v
Progress.v
NodesSpec.v
OperatorGrant.v
Quality.v
QualitySpec.v
QualityWitnesses.v
IdentitySpec.v
IdentityRuns.v
Sessions.v
Catalogue.v
Honors.v
HonorsSpec.v
RegulatedSpec.v
Reservations.v
Results.v
Streams.v
StreamSpec.v
Journeys.v
Witnesses.v
RegulatedWitnesses.v
NodesWitnesses.v
HonorsWitnesses.v
IdentityWitnesses.v
StreamWitnesses.v
ReserveOps.v
Files.v
Paths.v
Gguf.v
GgufSpec.v
Safetensors.v
SafetensorsSpec.v
ModelFiles.v
