(* ===== verification/Prelude.v ===== *)
(** * MindOne: a verification library for the coordinator and its accounting

    MindOne lends idle GPUs: consumers submit inference jobs, workers (nodes
    that publish instances of a model) claim and run them, and the coordinator
    keeps the quota that pays for them.  This library models the part of the
    program that decides about money, leases, identities, nodes and files, and
    proves what it promises.  The program is Rust with its state in PostgreSQL; paths below
    are under [src/crates/].

    ** The parts and their files

    mindone-accounting is pure code, one file each:
    - [Fixed] (fixed.rs, lib.rs): micro-quota amounts and the settlement formula;
    - [Billing] (billing.rs): the physical quote and the reservation bound;
    - [Reserve] (reserve.rs), [Ledger] (ledger.rs), [Tier] (tier.rs and
      quality.rs), [Policy] (policy.rs), [Routing] (routing.rs), [Glicko2]
      (glicko2.rs) and [Optimize] (optimize.rs).

    mindone-protocol: [Envelope] and [Requests] (jobs.rs, openai.rs, common.rs)
    hold the messages about jobs and their validation, [NodeRequests] (nodes.rs,
    models.rs) those about nodes and models.

    mindone-coordinator is a set of transactions on the database:
    - [Store] (migrations 0001, 0024, 0027): accounts and ledgers as [Books],
      an INSERT with its triggers and constraints as a fallible function;
      [Tables] has the rows about jobs and [State], the whole database;
    - [Api] (error.rs), [Asn] and [AntiAbuse] (anti_abuse.rs), [StandardData]
      (standard_data.rs), [Fingerprint] (execution_fingerprint.rs);
    - [Snapshot], [Lease], [Postings], [Complete], [ReserveOps] (settlement.rs):
      [complete_job] and [release_reserve], statement by statement;
    - [Quotes], [Admission], [Dispatch], [JobOps] (routes/jobs.rs,
      device_binding.rs, and [cancel_timed_out_job] of openai_gateway.rs):
      [create_job], the candidate query, [claim_job], [renew_job], [get_job],
      [job_fail] and the reaping both [claim_job] and [get_job] begin with;
    - [Results], [Streams] (the rest of routes/jobs.rs): the answer [job_result]
      checks before [complete_job], the log of stream events of an SSE job and
      the pages [get_job_stream] reads; [StreamSpec] has the abstract log, and
      [StreamWitnesses] applies its theorems.

    - [RegulatedRoutes], [RegulatedJobs] (routes/regulated_jobs.rs):
      [prepare_regulated_job], whose candidate query shares the ranking of
      [Dispatch], and [create_regulated_job];
    - [Hardware] (the profile of a node and what it may run), [Nodes], [Models]
      and [Honors] (routes/nodes_models.rs): registering a node, its heartbeats,
      publishing, withdrawing and listing models, the honor board;
    - [Identity] (auth.rs, and [authenticate] and [authenticate_inference] of
      db.rs), [AuthRoutes] (routes/auth_routes.rs), [WebAuth] (web_auth.rs,
      password.rs, email.rs) and [ApiKeys] (routes/api_keys.rs): device logins,
      sessions, mailbox accounts and inference keys, over the tables [IdDb];
      [IdentitySpec] has their invariant and the changes each handler is made
      of, and [IdentityRuns] a world in which the statements of polls and
      password checks interleave with any other calls;
    - [OperatorGrant] (operator_grant.rs): credits outside the HTTP routes, over
      the users, the books and an audit table;
    - [Quality] (quality.rs): trusted evaluation events, the scores of models
      and the ranking of a name's models, over the tables [QualityDb];
      [QualitySpec] has runs of events and publications.

    mindone-engine (validation.rs) accepts model files: [Files] is a reader of
    bytes with its format relations, [Paths] the paths and file names, [Gguf]
    and [Safetensors] the two parsers, [GgufSpec] and [SafetensorsSpec] the
    formats they accept, [ModelFiles] split packages and [validate_model].

    A handler is a function from the database and a [Tx] (the clock, fresh
    identifiers and nonce of its transaction) to its answer and the database it
    commits.  [?] is the bind of [result], and an error that leaves the
    transaction rolls it back; the paths that commit and answer an error return
    both.  [Prelude], [Text], [Net] and [Float64] hold the vocabulary: machine
    integers as [Z] with the checks and saturations written out, strings as
    bytes with the standard library functions the code calls, comparators with
    a verified stable sort, addresses, and binary64 as the Standard Library's
    executable IEEE 754 operations.

    ** What is proved

    - Money: a settlement moves exactly what it deducts and conserves the total
      over accounts and reserve, in the pure formula ([Fixed]) and through the
      ledgers ([Settled]); a job settles once and a repeated submission replays;
      a reservation covers every settlement below its limits ([Billing]); the
      reserve stays solvent, and the database release implements the pure one
      ([ReserveOps]).
    - Jobs: [Lifecycle] has the invariant of the database and [Progress] that
      every handler keeps it and moves a job only forward; [Reservations] is
      the coordinator as a transition system, whose reachable states have each
      account's reservation equal to what its unfinished jobs reserved, and in
      which each job ends after a bounded number of moves; [Journeys] follows a
      job from creation to its result: delivery, idempotence, price, and the
      ends of abandoned and refused jobs.
    - Regulated routes: [RegulatedSpec] has what preparing and redeeming do and
      that both keep the invariant; a route is redeemed once ([Reservations]),
      only on the hardware it was attested for, and keeps its slot and price.
    - Choice: [Routing] and [Selection] (the model served is the best one
      allowed), [DispatchSpec] (the SQL of the candidate query ranks as
      mindone-accounting does, and hands out only what may be served).
    - Nodes: [NodesSpec] has the invariant of the registry and what each handler
      does to it (a node stays on the device that registered it, only a healthy
      heartbeat accepts work, verified uptime follows the clock), [Catalogue]
      that a listed name is asked for as what was listed, or is refused,
      [HonorsSpec] that the boards count what they say.
    - Identities: [Sessions] has the promises about every run from an empty
      database: a device flow opens one session, only to a signature of its key
      over the challenge of its start, for the identity the provider named when
      asked about its device code; a refresh needs a fresh signature and replaces both tokens; a logout
      is final; an API key stays within its session; a mailbox login needs the
      password, the code of the flow and the mailed token.
    - Quality: [QualitySpec] shows that scores and tiers are what the recorded
      events measured, that an event re-ranks the models of its name and no
      other, and that it counts once.
    - Grants: an operator's grant credits its amount once and leaves the rest
      of the books alone ([OperatorGrant]).
    - Evidence: the ledger's encoding is injective and its head commits to the
      whole chain; a stored value opens to what was stored; the assessments of
      anti-abuse and fingerprints are their rules.
    - Streams: appending implements an append-only log ([StreamSpec]), what a
      consumer reads is the log, and a settled stream was complete.
    - Files: each parser accepts exactly the files of its format ([GgufSpec],
      [SafetensorsSpec]), a package passes exactly when it is complete, and a
      report is true of the file that was read ([ModelFiles]).
    - [Witnesses], [RegulatedWitnesses], [NodesWitnesses], [HonorsWitnesses],
      [IdentityWitnesses] and [QualityWitnesses] apply the theorems about jobs,
      routes, nodes, identities, grants and quality events to small concrete
      worlds; the other witnesses are beside their theorems.

    ** Parameters

    Third-party code is an argument: the classes [Crypto] (AES-GCM, HKDF, HMAC,
    SHA-256, base64; [CryptoLaws] states that decryption inverts encryption),
    [Serde] and [JobJson] (serde_json's encoders and parsers, with
    [RegulatedJson] for the regulated requests), [Collation]
    ([lower()] of the database), [JsonAccess] and [ResponseJson] (the JSON text
    of a result and of a response), [HeaderJson] (the events serde_json reads
    from the header of a file), [ProfileJson] (the JSON of a hardware profile),
    [Libm] (the elementary functions of Glicko-2), [Ed25519],
    [Argon2], [Lettre] (which text is a mailbox, and whether a mail was sent),
    [GithubAnswers], the text form of a UUID, [Draws] (the bytes of the random
    generator), and in [Tx] whatever
    a clock or generator yields; no theorem assumes that clocks advance or that
    generators do not repeat, a collision fails the INSERT it meets.  The record
    [Answers] has what the operating system answers to [validate_model].  Where
    collision resistance is needed, the theorem's conclusion names the
    collision instead of assuming there is none.

    ** Bounds

    Recursion is structural or over lists, with three exceptions that carry
    fuel: [solve_volatility] takes the 1000 steps the code allows and answers
    its error after them, the streak of [Honors] stops at a day without calls
    and has one step more than there are days, and the milestones multiply by
    ten at most [MILESTONE_FUEL] times before they pass the width of an [i64];
    [HonorsSpec] proves the last two enough.  The constant
    100 of the two reaping queries is [REAP_LIMIT]: [abandoned_job_concluded]
    asks that at most so many jobs wait, which is what one read concludes.
    [skip_gguf_value] recurses over the levels left of [MAX_ARRAY_DEPTH], the
    code's own limit, and [repeat_read] over the count the file declares.

    ** Not modelled

    - Axum and the reading of configuration: a handler starts with its
      [Principal] and [Config], the login handlers with the Authorization header
      and the decoded body.  The limit on concurrent Argon2 hashes, HTML pages,
      SMTP settings, the signed evidence that [operator_quality] checks and the
      other operator commands, the CLI, the sandbox and the processes,
      installs and downloads of the engine are I/O around third-party programs.
    - The hidden evaluation work that [claim_job], [renew_job] and the others
      branch to first, and the routes of evaluations, attestation, governance
      and quota: [Reservations.elsewhere] admits them as steps that may change
      anything but what the jobs, regulated routes and reservations rely on.
      [node_stats] of routes/nodes_models.rs assembles JSON and is left out.
    - The device keys, users and sessions that the abuse tables of [AntiAbuse]
      join are its own rows, not those of [Identity].
    - Constraints on the format of columns, and the triggers of migrations
      0032 and 0034: they can only make a statement fail, and a failed
      statement rolls back.
    - Concurrency below a transaction: transactions are atomic steps, as the
      row locks the code takes make them; a row skipped by SKIP LOCKED appears
      as a call made before or after.  Lost connections, logging and zeroizing.
    - Among equal jobs of the queue the database may choose any; the model
      takes the smallest identifier. *)
From stdpp Require Export base tactics option list list_numbers gmap strings sorting pretty.
From Stdlib Require Export ZArith Lia.

#[export] Set Default Proof Using "Type".

(** ** Results: Rust's [Result<T, E>] with [?] *)

Inductive result (E A : Type) : Type :=
| Ok (a : A)
| Err (e : E).
Arguments Ok {E A} a.
Arguments Err {E A} e.

#[global] Instance result_ret {E} : MRet (result E) := λ A a, Ok a.
#[global] Instance result_bind {E} : MBind (result E) := λ A B k r,
  match r with Ok a => k a | Err e => Err e end.
#[global] Instance result_fmap {E} : FMap (result E) := λ A B f r,
  match r with Ok a => Ok (f a) | Err e => Err e end.

#[global] Instance result_eq_dec {E A} `{EqDecision E, EqDecision A} :
  EqDecision (result E A).
Proof. solve_decision. Defined.

(** [Option::ok_or], [Result::map_err]. *)
Definition ok_or {E A} (o : option A) (e : E) : result E A :=
  match o with Some a => Ok a | None => Err e end.

Definition map_err {E E' A} (f : E → E') (r : result E A) : result E' A :=
  match r with Ok a => Ok a | Err e => Err (f e) end.

(** A guard clause [if c { return Err(e); }]. *)
Definition bail_if {E} (c : bool) (e : E) : result E () :=
  if c then Err e else Ok tt.

Definition ok_default {E A} (d : A) (r : result E A) : A :=
  match r with Ok a => a | Err _ => d end.

Definition is_ok {E A} (r : result E A) : bool :=
  match r with Ok _ => true | Err _ => false end.

Lemma is_ok_Ok {E A} (d : A) (r : result E A) : is_ok r = true → r = Ok (ok_default d r).
Proof. by destruct r. Qed.

(** A transaction that answered, with the state it left. *)
Lemma answered {E A S} (d : A) (r : result E A * S) :
  is_ok r.1 = true → r = (Ok (ok_default d r.1), r.2).
Proof. destruct r as [[a|e] s]; simpl; [done|discriminate]. Qed.

(** A [for] loop whose body may return early with an error. *)
Fixpoint for_each {E A} (f : A → result E ()) (l : list A) : result E () :=
  match l with
  | [] => Ok tt
  | a :: l' => f a ≫= λ _, for_each f l'
  end.

(** A loop that carries a state and stops at the first error. *)
Fixpoint fold_each {E A S} (f : S → A → result E S) (s : S) (l : list A) : result E S :=
  match l with
  | [] => Ok s
  | a :: l' => f s a ≫= λ s', fold_each f s' l'
  end.

Lemma fold_each_cons {E A S} (f : S → A → result E S) s a l :
  fold_each f s (a :: l) = f s a ≫= λ s', fold_each f s' l.
Proof. done. Qed.

Lemma bind_Ok {E A B} (r : result E A) (k : A → result E B) b :
  r ≫= k = Ok b ↔ ∃ a, r = Ok a ∧ k a = Ok b.
Proof. destruct r; simpl; naive_solver. Qed.

Lemma mapM_Ok {E A B} (f : A → result E B) l k :
  mapM f l = Ok k ↔ Forall2 (λ x y, f x = Ok y) l k.
Proof.
  revert k. induction l as [|x l IH]; intros k; simpl.
  - unfold mret, result_ret. split; [intros [= <-]; constructor|]. by inversion 1.
  - rewrite bind_Ok. split.
    + intros (y & Hy & (ys & Hys%IH & [= <-])%bind_Ok). by constructor.
    + inversion 1 as [|? y ? ys Hy Hys]; subst. exists y. split; [done|]. rewrite bind_Ok.
      exists ys. by rewrite IH.
Qed.

Lemma fmap_Ok {E A B} (r : result E A) (f : A → B) b :
  f <$> r = Ok b ↔ ∃ a, r = Ok a ∧ b = f a.
Proof. destruct r; unfold fmap; simpl; naive_solver. Qed.

Lemma ok_or_Ok {E A} (o : option A) (e : E) a : ok_or o e = Ok a ↔ o = Some a.
Proof. destruct o; simpl; naive_solver. Qed.

Lemma map_err_Ok {E E' A} (f : E → E') (r : result E A) a :
  map_err f r = Ok a ↔ r = Ok a.
Proof. destruct r; simpl; naive_solver. Qed.

Lemma bail_if_Ok {E} (c : bool) (e : E) u : bail_if c e = Ok u ↔ c = false.
Proof. destruct c, u; simpl; naive_solver. Qed.

Lemma for_each_Ok {E A} (f : A → result E ()) l u :
  for_each f l = Ok u ↔ Forall (λ a, f a = Ok tt) l.
Proof.
  destruct u. induction l as [|a l IH]; simpl; [by split|].
  rewrite bind_Ok, Forall_cons, <-IH. split; [intros ([] & ? & ?)|intros []]; eauto.
Qed.

(** An invariant of the body is an invariant of the loop. *)
Lemma fold_each_ind {E A S} (P : S → Prop) (f : S → A → result E S) s l s' :
  (∀ s a s', a ∈ l → P s → f s a = Ok s' → P s') → P s → fold_each f s l = Ok s' → P s'.
Proof.
  revert s. induction l as [|a l IH]; intros s Hstep Hs H; simpl in H.
  - by injection H as <-.
  - apply bind_Ok in H as (s1 & H1 & H). eapply (IH s1); [|eapply Hstep; eauto|done].
    + intros ??? Hin. apply Hstep. by right.
    + by left.
Qed.

(** The loop over a list none of whose steps fails, with what holds of the
    items that are left. *)
Lemma fold_each_total {E A S} (P : S → list A → Prop) (f : S → A → result E S) s l :
  (∀ s a l, P s (a :: l) → ∃ s', f s a = Ok s' ∧ P s' l) → P s l →
  ∃ s', fold_each f s l = Ok s' ∧ P s' [].
Proof.
  intros Hstep. revert s. induction l as [|a l IH]; intros s Hs; simpl; [by exists s|].
  destruct (Hstep _ _ _ Hs) as (s1 & -> & Hs1). simpl. by apply IH.
Qed.

(** ** Filters *)

(** A loop that pushes an answer for each element. *)
Lemma fold_each_collect {E A B} (f : A → result E B) acc l res :
  fold_each (λ bs a, b ← f a; Ok (bs ++ [b])) acc l = Ok res
  ↔ ∃ bs, Forall2 (λ a b, f a = Ok b) l bs ∧ res = acc ++ bs.
Proof.
  revert acc. induction l as [|a l IH]; intros acc; rewrite ?fold_each_cons.
  - split.
    + intros [= <-]. exists []. by rewrite app_nil_r.
    + intros (bs & ->%Forall2_nil_inv_l & ->). by rewrite app_nil_r.
  - rewrite bind_Ok. setoid_rewrite bind_Ok. split.
    + intros (s & (b & Hb & [= <-]) & (bs & Hbs & ->)%IH). exists (b :: bs).
      rewrite <-app_assoc. by split; [constructor|].
    + intros (bs & (b & bs' & Hb & Hbs & ->)%Forall2_cons_inv_l & ->).
      exists (acc ++ [b]). split; [by exists b|]. apply IH. exists bs'. by rewrite <-app_assoc.
Qed.

Lemma elem_of_filter_b {A} (p : A → bool) (l : list A) x :
  x ∈ List.filter p l ↔ x ∈ l ∧ p x = true.
Proof. by rewrite !list_elem_of_In, filter_In. Qed.

Lemma filter_false {A} (p : A → bool) l : (∀ x, x ∈ l → p x = false) → List.filter p l = [].
Proof.
  intros H. induction l as [|x l IH]; [done|]. simpl. rewrite H by by left.
  apply IH. intros y Hy. apply H. by right.
Qed.

Lemma NoDup_fst_filter {A B} (p : A * B → bool) (l : list (A * B)) :
  NoDup l.*1 → NoDup (List.filter p l).*1.
Proof.
  induction l as [|x l IH]; [constructor|]. cbn. intros [Hx Hl]%NoDup_cons.
  destruct (p x); [|by apply IH]. cbn. constructor; [|by apply IH].
  intros (y & Hy & [Hin _]%elem_of_filter_b)%list_elem_of_fmap.
  apply Hx, list_elem_of_fmap. by exists y.
Qed.

(** The first row a query finds. *)
Lemma head_filter_Some {A} (p : A → bool) (l : list A) x :
  head (List.filter p l) = Some x → x ∈ l ∧ p x = true.
Proof. intros (t & E)%head_Some. apply elem_of_filter_b. rewrite E. by left. Qed.

Lemma head_filter_None {A} (p : A → bool) (l : list A) x :
  head (List.filter p l) = None → x ∈ l → p x = false.
Proof.
  intros E%head_None Hx. destruct (p x) eqn:Hp; [|done].
  assert (x ∈ List.filter p l) as Hin by by apply elem_of_filter_b. rewrite E in Hin.
  by apply not_elem_of_nil in Hin.
Qed.

(** ** Counting *)

Definition countb {A} (p : A → bool) (l : list A) : Z := Z.of_nat (length (List.filter p l)).
Definition count_one (b : bool) : Z := if b then 1%Z else 0%Z.

Lemma countb_cons {A} (p : A → bool) x l : countb p (x :: l) = (count_one (p x) + countb p l)%Z.
Proof. unfold countb, count_one. simpl. destruct (p x); simpl; lia. Qed.

Lemma countb_nonneg {A} (p : A → bool) l : (0 ≤ countb p l)%Z.
Proof. unfold countb. lia. Qed.

Lemma countb_perm {A} (p : A → bool) l l' : l ≡ₚ l' → countb p l = countb p l'.
Proof. induction 1; rewrite ?countb_cons; lia. Qed.

Lemma countb_ext {A} (p q : A → bool) l : (∀ x, x ∈ l → p x = q x) → countb p l = countb q l.
Proof.
  induction l as [|x l IH]; intros H; [done|]. rewrite !countb_cons, H by by left.
  rewrite IH; [done|]. intros y Hy. apply H. by right.
Qed.

(** Two disjoint tests count what either accepts. *)
Lemma countb_split {A} (p q r : A → bool) l :
  (∀ x, x ∈ l → r x = p x || q x) → (∀ x, x ∈ l → p x = true → q x = false) →
  countb r l = (countb p l + countb q l)%Z.
Proof.
  induction l as [|x l IH]; intros Hr Hd; [done|].
  rewrite !countb_cons, IH by (intros y Hy; (apply Hr || apply Hd); by right).
  assert (x ∈ x :: l) as Hin by by left. rewrite (Hr x Hin). specialize (Hd x Hin).
  unfold count_one. destruct (p x), (q x); simpl in *; lia || naive_solver.
Qed.

Lemma countb_all {A} (p : A → bool) l :
  (∀ x, x ∈ l → p x = true) → countb p l = Z.of_nat (length l).
Proof.
  induction l as [|x l IH]; intros H; [done|]. rewrite countb_cons, H by by left. rewrite IH; [simpl; lia|].
  intros y Hy. apply H. by right.
Qed.

Lemma countb_none {A} (p : A → bool) l : (∀ x, x ∈ l → p x = false) → countb p l = 0%Z.
Proof.
  induction l as [|x l IH]; intros H; [done|]. rewrite countb_cons, H by by left. rewrite IH; [done|].
  intros y Hy. apply H. by right.
Qed.

Lemma countb_le_length {A} (p : A → bool) l : (countb p l ≤ Z.of_nat (length l))%Z.
Proof. induction l as [|x l IH]; [done|]. rewrite countb_cons. unfold count_one. case_match; simpl; lia. Qed.

Lemma countb_mono {A} (p q : A → bool) l :
  (∀ x, x ∈ l → p x = true → q x = true) → (countb p l ≤ countb q l)%Z.
Proof.
  induction l as [|x l IH]; intros H; [done|]. rewrite !countb_cons.
  assert (countb p l ≤ countb q l)%Z by (apply IH; intros y Hy; apply H; by right).
  assert (x ∈ x :: l) as Hin by by left. specialize (H x Hin). unfold count_one. destruct (p x), (q x); lia || naive_solver.
Qed.

Lemma countb_fmap {A B} (f : A → B) (p : B → bool) l : countb p (f <$> l) = countb (p ∘ f) l.
Proof. induction l as [|x l IH]; [done|]. rewrite fmap_cons, !countb_cons, IH. done. Qed.

Lemma countb_pos {A} (p : A → bool) l x : x ∈ l → p x = true → (0 < countb p l)%Z.
Proof.
  intros Hx Hp. induction Hx as [|y x l _ IH]; rewrite countb_cons.
  - rewrite Hp. simpl. pose proof (countb_nonneg p l). lia.
  - specialize (IH Hp). unfold count_one. case_match; lia.
Qed.

Lemma countb_insert {A} (p : Z * A → bool) (m : gmap Z A) k x :
  m !! k = None →
  countb p (map_to_list (<[k := x]> m)) = (count_one (p (k, x)) + countb p (map_to_list m))%Z.
Proof. intros H. by rewrite (countb_perm _ _ _ (map_to_list_insert m k x H)), countb_cons. Qed.

Lemma countb_replace {A} (p : Z * A → bool) (m : gmap Z A) k x y :
  m !! k = Some x →
  countb p (map_to_list (<[k := y]> m))
  = (countb p (map_to_list m) - count_one (p (k, x)) + count_one (p (k, y)))%Z.
Proof.
  intros H. rewrite <-(insert_delete_eq m k y), countb_insert by apply lookup_delete_eq.
  rewrite <-(insert_delete_id m k x H) at 2. rewrite countb_insert by apply lookup_delete_eq. lia.
Qed.

(** ** Tables that only grow *)

(** Every row of a table is still there, and kept. *)
Definition all_kept {A} (R : A → A → Prop) (t t' : gmap Z A) : Prop :=
  ∀ k a, t !! k = Some a → ∃ a', t' !! k = Some a' ∧ R a a'.

Lemma all_kept_refl {A} (R : A → A → Prop) t : (∀ a, R a a) → all_kept R t t.
Proof. intros H k a Ha. by exists a. Qed.

Lemma all_kept_trans {A} (R : A → A → Prop) `{!Transitive R} t1 t2 t3 :
  all_kept R t1 t2 → all_kept R t2 t3 → all_kept R t1 t3.
Proof.
  intros H1 H2 k a Ha. destruct (H1 k a Ha) as (b & Hb & Hab).
  destruct (H2 k b Hb) as (c & Hc & Hbc). exists c. split; [done|]. by etrans.
Qed.

Lemma all_kept_insert {A} (R : A → A → Prop) t k a :
  (∀ b, R b b) → (∀ b, t !! k = Some b → R b a) → all_kept R t (<[k := a]> t).
Proof.
  intros Hr Hk i b Hb. destruct (decide (i = k)) as [->|Hne].
  - exists a. rewrite lookup_insert_eq. eauto.
  - exists b. by rewrite lookup_insert_ne by done.
Qed.

(** [ok_inv] peels every successful computation in the context. *)
Ltac ok_inv :=
  repeat match goal with
  | H : _ ≫= _ = Ok _ |- _ => apply bind_Ok in H; destruct H as (? & ? & ?)
  | H : _ <$> _ = Ok _ |- _ => apply fmap_Ok in H; destruct H as (? & ? & ?)
  | H : ok_or _ _ = Ok _ |- _ => apply ok_or_Ok in H
  | H : map_err _ _ = Ok _ |- _ => apply map_err_Ok in H
  | H : bail_if _ _ = Ok _ |- _ => apply bail_if_Ok in H
  | H : Ok _ = Ok _ |- _ => injection H as H; try subst
  | H : Err _ = Ok _ |- _ => discriminate H
  | H : Ok _ = Err _ |- _ => discriminate H
  | H : mret _ = Ok _ |- _ => injection H as H; try subst
  | u : () |- _ => destruct u
  end.

(** [case_bool] turns a boolean test on integers of the goal or the context
    into a proposition, on both branches. *)
Ltac case_if :=
  match goal with
  | |- context [if ?b then _ else _] => destruct b eqn:?
  | H : context [if ?b then _ else _] |- _ => destruct b eqn:?
  end.

(** ** Machine integers

    A w-bit integer is the [Z] it denotes; the checked operations of the
    source return [None] when the mathematical result leaves the range. *)

Definition i64_min : Z := -9223372036854775808.
Definition i64_max : Z := 9223372036854775807.
Definition i128_min : Z := -170141183460469231731687303715884105728.
Definition i128_max : Z := 170141183460469231731687303715884105727.
Definition i32_min : Z := -2147483648.
Definition i32_max : Z := 2147483647.
Definition u32_max : Z := 4294967295.
Definition u64_max : Z := 18446744073709551615.
Definition u128_max : Z := 340282366920938463463374607431768211455.

Definition in_range (lo hi z : Z) : bool := (lo <=? z)%Z && (z <=? hi)%Z.
Definition in_i64 : Z → bool := in_range i64_min i64_max.
Definition in_i128 : Z → bool := in_range i128_min i128_max.
Definition in_i32 : Z → bool := in_range i32_min i32_max.
Definition in_u32 : Z → bool := in_range 0 u32_max.
Definition in_u64 : Z → bool := in_range 0 u64_max.

(** [checked p z]: the value when the test accepts it. *)
Definition checked (p : Z → bool) (z : Z) : option Z := if p z then Some z else None.

Definition i64_checked_add (a b : Z) : option Z := checked in_i64 (a + b)%Z.
Definition i128_checked_add (a b : Z) : option Z := checked in_i128 (a + b)%Z.
Definition i128_checked_mul (a b : Z) : option Z := checked in_i128 (a * b)%Z.

(** [i64::try_from], [i32::try_from], [u32::try_from] of a wider integer. *)
Definition i64_try_from : Z → option Z := checked in_i64.
Definition i32_try_from : Z → option Z := checked in_i32.
Definition u32_try_from : Z → option Z := checked in_u32.
Definition u16_try_from : Z → option Z := checked (in_range 0 65535).
Definition u64_try_from : Z → option Z := checked in_u64.

(** Integer division of the source truncates towards zero. *)
Definition div_trunc : Z → Z → Z := Z.quot.

(** [saturating_add] on i32, [saturating_sub] on an unsigned width. *)
Definition i32_saturating_add (a b : Z) : Z := Z.max i32_min (Z.min i32_max (a + b)).
Definition i64_saturating_sub (a b : Z) : Z := Z.max i64_min (Z.min i64_max (a - b)).
Definition unsigned_saturating_sub (a b : Z) : Z := Z.max 0 (a - b).

Lemma in_range_true lo hi z : in_range lo hi z = true ↔ (lo ≤ z ≤ hi)%Z.
Proof. unfold in_range. rewrite andb_true_iff, !Z.leb_le. lia. Qed.

Lemma in_range_false lo hi z : in_range lo hi z = false ↔ (z < lo ∨ hi < z)%Z.
Proof. unfold in_range. rewrite andb_false_iff, !Z.leb_gt. lia. Qed.

Lemma checked_Some p z z' : checked p z = Some z' ↔ p z = true ∧ z' = z.
Proof. unfold checked. destruct (p z); naive_solver. Qed.

Lemma checked_None p z : checked p z = None ↔ p z = false.
Proof. unfold checked. destruct (p z); naive_solver. Qed.

Lemma checked_true p z : p z = true → checked p z = Some z.
Proof. unfold checked. by intros ->. Qed.

(** [zify_int] exposes the ranges hidden behind the checked operations. *)
Ltac unfold_int :=
  unfold i64_checked_add, i128_checked_add, i128_checked_mul, i64_try_from,
    i32_try_from, u32_try_from, in_i64, in_i128, in_i32, in_u32, in_u64,
    i64_min, i64_max, i128_min, i128_max, i32_min, i32_max, u32_max, u64_max,
    u128_max, div_trunc in *.

Ltac int_inv :=
  unfold_int;
  repeat match goal with
  | H : checked _ _ = Some _ |- _ => apply checked_Some in H; destruct H as [? ->]
  | H : checked _ _ = None |- _ => apply checked_None in H
  | H : in_range _ _ _ = true |- _ => apply in_range_true in H
  | H : in_range _ _ _ = false |- _ => apply in_range_false in H
  | H : (_ && _) = true |- _ => apply andb_true_iff in H; destruct H
  | H : (_ || _) = false |- _ => apply orb_false_iff in H; destruct H
  | H : (_ <? _)%Z = true |- _ => apply Z.ltb_lt in H
  | H : (_ <? _)%Z = false |- _ => apply Z.ltb_ge in H
  | H : (_ <=? _)%Z = true |- _ => apply Z.leb_le in H
  | H : (_ <=? _)%Z = false |- _ => apply Z.leb_gt in H
  | H : (_ =? _)%Z = true |- _ => apply Z.eqb_eq in H
  | H : (_ =? _)%Z = false |- _ => apply Z.eqb_neq in H
  end.

(** Ceiling division of non-negative integers by a positive one, as the source
    computes it. *)
Definition ceil_quot (n d : Z) : Z := div_trunc (n + (d - 1)) d.

Lemma ceil_quot_spec n d :
  (0 ≤ n)%Z → (0 < d)%Z →
  (n ≤ d * ceil_quot n d < n + d)%Z.
Proof.
  intros Hn Hd. unfold ceil_quot, div_trunc.
  rewrite Z.quot_div_nonneg by lia.
  pose proof (Z.div_mod (n + (d - 1)) d ltac:(lia)).
  pose proof (Z.mod_pos_bound (n + (d - 1)) d Hd). lia.
Qed.

Lemma ceil_quot_unique n d q :
  (0 ≤ n)%Z → (0 < d)%Z → (n ≤ d * q < n + d)%Z → ceil_quot n d = q.
Proof. intros Hn Hd ?. pose proof (ceil_quot_spec n d Hn Hd). nia. Qed.

Lemma ceil_quot_mono n m d :
  (0 ≤ n ≤ m)%Z → (0 < d)%Z → (ceil_quot n d ≤ ceil_quot m d)%Z.
Proof.
  intros Hn Hd. unfold ceil_quot, div_trunc.
  rewrite !Z.quot_div_nonneg by lia. apply Z.div_le_mono; lia.
Qed.

Lemma ceil_quot_nonneg n d : (0 ≤ n)%Z → (0 < d)%Z → (0 ≤ ceil_quot n d)%Z.
Proof. intros. pose proof (ceil_quot_spec n d). nia. Qed.

Lemma ceil_quot_pos n d : (0 < n)%Z → (0 < d)%Z → (0 < ceil_quot n d)%Z.
Proof. intros. pose proof (ceil_quot_spec n d). nia. Qed.

Lemma ceil_quot_le n d k :
  (0 ≤ n)%Z → (0 < d)%Z → (n ≤ d * k)%Z → (ceil_quot n d ≤ k)%Z.
Proof. intros ? Hd ?. pose proof (ceil_quot_spec n d). nia. Qed.

Create HintDb mindone.
#[export] Hint Resolve ceil_quot_nonneg ceil_quot_pos ceil_quot_mono : mindone.
