(* ===== verification/Text.v ===== *)
(** * Text and ordering: the Rust string, comparator and sort vocabulary

    A Rust [String] is its UTF-8 byte sequence, here Rocq's [string]
    ([len] is the byte length, [Ord] is the byte-wise order).  [chars] decodes
    it to Unicode scalar values; a [String] always holds valid UTF-8, so the
    value of [chars] on an invalid sequence is of no interest.  Comparators
    are functions to [comparison] with the laws of a total preorder as a
    class; [sort_by] is the stable sort of [slice::sort_by]. *)
From S2P Require Import Prelude.
From Stdlib Require Import Ascii String.

Local Open Scope string_scope.
Local Open Scope Z_scope.

(** ** Strings *)

Definition byte_val (a : ascii) : Z := Z.of_N (N_of_ascii a).

(** [str::len]: the number of bytes. *)
Definition str_len (s : string) : Z := Z.of_nat (String.length s).

(** [str::chars], each scalar value with the bytes it comes from. *)
Fixpoint char_spans (s : string) : list (string * Z) :=
  match s with
  | EmptyString => []
  | String b0 r0 =>
    let v0 := byte_val b0 in
    let one := String b0 EmptyString in
    if v0 <? 128 then (one, v0) :: char_spans r0
    else match r0 with
    | EmptyString => [(one, v0)]
    | String b1 r1 =>
      let two := String b0 (String b1 EmptyString) in
      let v1 := Z.land (byte_val b1) 63 in
      if v0 <? 224 then (two, Z.land v0 31 * 64 + v1) :: char_spans r1
      else match r1 with
      | EmptyString => [(two, v0)]
      | String b2 r2 =>
        let three := String b0 (String b1 (String b2 EmptyString)) in
        let v2 := Z.land (byte_val b2) 63 in
        if v0 <? 240 then
          (three, (Z.land v0 15 * 64 + v1) * 64 + v2) :: char_spans r2
        else match r2 with
        | EmptyString => [(three, v0)]
        | String b3 r3 =>
          let v3 := Z.land (byte_val b3) 63 in
          (String b0 (String b1 (String b2 (String b3 EmptyString))),
           ((Z.land v0 7 * 64 + v1) * 64 + v2) * 64 + v3) :: char_spans r3
        end
      end
    end
  end.

Definition chars (s : string) : list Z := (char_spans s).*2.

(** [char::is_control]: general category Cc. *)
Definition is_control (c : Z) : bool :=
  in_range 0 31 c || in_range 127 159 c.

(** [char::is_whitespace]: the Unicode property White_Space. *)
Definition is_whitespace (c : Z) : bool :=
  in_range 9 13 c || (c =? 32) || (c =? 133) || (c =? 160) || (c =? 5760)
  || in_range 8192 8202 c || (c =? 8232) || (c =? 8233) || (c =? 8239)
  || (c =? 8287) || (c =? 12288).

Definition has_control (s : string) : bool := existsb is_control (chars s).

Fixpoint drop_leading {A} (p : A → bool) (l : list A) : list A :=
  match l with
  | [] => []
  | a :: l' => if p a then drop_leading p l' else l
  end.

(** [str::trim]. *)
Definition trim (s : string) : string :=
  let ws := λ c : string * Z, is_whitespace c.2 in
  String.concat "" (rev (drop_leading ws (rev (drop_leading ws (char_spans s))))).*1.

Definition str_is_empty (s : string) : bool := String.eqb s "".
Definition trim_is_empty (s : string) : bool := str_is_empty (trim s).

(** [u8::is_ascii_digit] and friends. *)
Definition is_ascii_digit (b : Z) : bool := in_range 48 57 b.
Definition is_ascii_uppercase (b : Z) : bool := in_range 65 90 b.
Definition is_ascii_lowercase (b : Z) : bool := in_range 97 122 b.
Definition is_ascii_alphanumeric (b : Z) : bool :=
  is_ascii_digit b || is_ascii_uppercase b || is_ascii_lowercase b.
Definition is_ascii_hexdigit (b : Z) : bool :=
  is_ascii_digit b || in_range 97 102 b || in_range 65 70 b.

Fixpoint all_bytes (p : Z → bool) (s : string) : bool :=
  match s with
  | EmptyString => true
  | String a s' => p (byte_val a) && all_bytes p s'
  end.

(** [str::to_ascii_lowercase]. *)
Fixpoint to_ascii_lowercase (s : string) : string :=
  match s with
  | EmptyString => EmptyString
  | String a s' =>
    let v := byte_val a in
    String (if is_ascii_uppercase v then ascii_of_N (Z.to_N (v + 32)) else a)
      (to_ascii_lowercase s')
  end.

Fixpoint to_ascii_uppercase (s : string) : string :=
  match s with
  | EmptyString => EmptyString
  | String a s' =>
    let v := byte_val a in
    String (if is_ascii_lowercase v then ascii_of_N (Z.to_N (v - 32)) else a)
      (to_ascii_uppercase s')
  end.

(** Decimal [to_string] of an integer. *)
Definition dec (z : Z) : string := pretty z.

(** ** Comparators *)

Class TotalCmp {A} (cmp : A → A → comparison) : Prop := {
  cmp_antisym x y : cmp y x = CompOpp (cmp x y);
  cmp_trans x y z : cmp x y ≠ Gt → cmp y z ≠ Gt → cmp x z ≠ Gt;
}.

Arguments cmp_antisym {A} cmp {_} x y.
Arguments cmp_trans {A} cmp {_} x y z.

(** A comparator whose [Equal] is equality. *)
Class StrictCmp {A} (cmp : A → A → comparison) : Prop := {
  strict_total :: TotalCmp cmp;
  cmp_eq x y : cmp x y = Eq → x = y;
}.

Arguments cmp_eq {A} cmp {_} x y.

Definition cmp_le {A} (cmp : A → A → comparison) (x y : A) : Prop := cmp x y ≠ Gt.

(** [Ordering::then_with], [Ordering::reverse] and comparing by a key. *)
Definition then_with (c1 c2 : comparison) : comparison :=
  match c1 with Eq => c2 | _ => c1 end.
Definition cmp_then {A} (c1 c2 : A → A → comparison) (x y : A) : comparison :=
  then_with (c1 x y) (c2 x y).
Definition cmp_rev {A} (c : A → A → comparison) (x y : A) : comparison := c y x.
Definition cmp_on {A B} (f : A → B) (c : B → B → comparison) (x y : A) : comparison :=
  c (f x) (f y).

(** [Option]'s derived order: [None] below every [Some]. *)
Definition option_cmp {A} (c : A → A → comparison) (x y : option A) : comparison :=
  match x, y with
  | None, None => Eq
  | None, Some _ => Lt
  | Some _, None => Gt
  | Some a, Some b => c a b
  end.

#[global] Typeclasses Opaque cmp_then cmp_rev cmp_on option_cmp.

Fixpoint str_cmp (s t : string) : comparison :=
  match s, t with
  | EmptyString, EmptyString => Eq
  | EmptyString, String _ _ => Lt
  | String _ _, EmptyString => Gt
  | String a s', String b t' =>
    then_with (byte_val a ?= byte_val b) (str_cmp s' t')
  end.

Section total_cmp.
Context {A : Type} (cmp : A → A → comparison) `{!TotalCmp cmp}.

Lemma cmp_refl x : cmp x x = Eq.
Proof using Type*. pose proof (cmp_antisym cmp x x) as H. by destruct (cmp x x). Qed.

Lemma cmp_le_refl x : cmp_le cmp x x.
Proof using Type*. unfold cmp_le. by rewrite cmp_refl. Qed.

Lemma cmp_le_total x y : cmp_le cmp x y ∨ cmp_le cmp y x.
Proof using Type*.
  unfold cmp_le. rewrite (cmp_antisym cmp x y). destruct (cmp x y); simpl; eauto.
Qed.

Lemma cmp_gt_le x y : cmp x y = Gt → cmp_le cmp y x.
Proof using Type*. unfold cmp_le. rewrite (cmp_antisym cmp x y). by intros ->. Qed.

(** Equal elements compare alike with every third one. *)
Lemma cmp_eq_trans x y z : cmp x y = Eq → cmp y z = cmp x z.
Proof using Type*.
  intros H.
  pose proof (cmp_trans cmp x y z) as T1. pose proof (cmp_trans cmp y x z) as T2.
  pose proof (cmp_trans cmp z x y) as T3. pose proof (cmp_trans cmp z y x) as T4.
  pose proof (cmp_antisym cmp x y) as E1. pose proof (cmp_antisym cmp x z) as E2.
  pose proof (cmp_antisym cmp y z) as E3.
  destruct (cmp x y), (cmp y x), (cmp x z), (cmp z x), (cmp y z), (cmp z y);
    simpl in *; try done; naive_solver.
Qed.
End total_cmp.

#[export] Instance Z_cmp_strict : StrictCmp Z.compare.
Proof.
  split; [split|].
  - intros x y. apply Z.compare_antisym.
  - intros x y z. fold (Z.le x y) (Z.le y z) (Z.le x z). lia.
  - intros x y. apply Z.compare_eq.
Qed.

#[global] Typeclasses Opaque str_cmp Z.compare.

#[export] Instance cmp_then_total {A} (c1 c2 : A → A → comparison) :
  TotalCmp c1 → TotalCmp c2 → TotalCmp (cmp_then c1 c2).
Proof.
  intros H1 H2. split.
  - intros x y. unfold cmp_then. rewrite (cmp_antisym c1 x y),
      (cmp_antisym c2 x y). by destruct (c1 x y), (c2 x y).
  - intros x y z. unfold cmp_then.
    pose proof (cmp_trans c2 x y z) as T.
    pose proof (cmp_trans c1 x y z) as T1. pose proof (cmp_trans c1 y z x) as T2.
    pose proof (cmp_trans c1 z x y) as T3. pose proof (cmp_trans c1 z y x) as T4.
    rewrite (cmp_antisym c1 x y), (cmp_antisym c1 y z), (cmp_antisym c1 x z) in *.
    destruct (c1 x y), (c1 y z), (c1 x z); simpl in *; naive_solver.
Qed.

#[export] Instance cmp_rev_total {A} (c : A → A → comparison) :
  TotalCmp c → TotalCmp (cmp_rev c).
Proof.
  intros H. split; unfold cmp_rev.
  - intros x y. apply (cmp_antisym c).
  - intros x y z H1 H2. by apply (cmp_trans c z y x).
Qed.

#[export] Instance cmp_on_total {A B} (f : A → B) (c : B → B → comparison) :
  TotalCmp c → TotalCmp (cmp_on f c).
Proof.
  intros H. split; unfold cmp_on.
  - intros x y. apply (cmp_antisym c).
  - intros x y z. apply (cmp_trans c).
Qed.

#[export] Instance option_cmp_total {A} (c : A → A → comparison) :
  TotalCmp c → TotalCmp (option_cmp c).
Proof.
  intros H. split.
  - intros [x|] [y|]; simpl; try done. apply (cmp_antisym c).
  - intros [x|] [y|] [z|]; simpl; try done. apply (cmp_trans c).
Qed.

Lemma byte_val_inj a b : byte_val a = byte_val b → a = b.
Proof.
  unfold byte_val. intros H%N2Z.inj.
  by rewrite <-(ascii_N_embedding a), <-(ascii_N_embedding b), H.
Qed.

#[export] Instance str_cmp_strict : StrictCmp str_cmp.
Proof.
  assert (∀ x y, str_cmp y x = CompOpp (str_cmp x y)) as Hanti.
  { induction x as [|a x IH]; intros [|b y]; simpl; try done.
    rewrite (Z.compare_antisym (byte_val a)), IH.
    by destruct (byte_val a ?= byte_val b). }
  split; [split|].
  - done.
  - induction x as [|a x IH]; intros [|b y] [|d z]; simpl; try done.
    unfold then_with.
    destruct (Z.compare_spec (byte_val a) (byte_val b)),
      (Z.compare_spec (byte_val b) (byte_val d)),
      (Z.compare_spec (byte_val a) (byte_val d)); try done; try lia.
    apply IH.
  - induction x as [|a x IH]; intros [|b y]; simpl; try done.
    unfold then_with.
    destruct (byte_val a ?= byte_val b) eqn:E; try done.
    apply Z.compare_eq, byte_val_inj in E as ->. intros ->%IH. done.
Qed.

(** ** The stable sort *)

Section sort_by.
Context {A : Type} (cmp : A → A → comparison).

(** [x] goes before the first element it does not exceed. *)
Fixpoint insert_by (x : A) (l : list A) : list A :=
  match l with
  | [] => [x]
  | y :: l' => match cmp x y with Gt => y :: insert_by x l' | _ => x :: l end
  end.

Definition sort_by (l : list A) : list A := foldr insert_by [] l.

Lemma insert_by_perm x l : insert_by x l ≡ₚ x :: l.
Proof.
  induction l as [|y l IH]; simpl; [done|].
  destruct (cmp x y); try done. rewrite IH. apply Permutation_swap.
Qed.

Lemma sort_by_perm l : sort_by l ≡ₚ l.
Proof. induction l as [|x l IH]; simpl; [done|]. by rewrite insert_by_perm, IH. Qed.

Lemma elem_of_sort_by x l : x ∈ sort_by l ↔ x ∈ l.
Proof. by rewrite sort_by_perm. Qed.

(** Inserting keeps the relative order of the elements it compares equal to. *)
Lemma insert_by_stable (p : A → bool) x l :
  (∀ y, y ∈ l → p x = true → p y = true → cmp x y = Eq) →
  List.filter p (insert_by x l) = List.filter p (x :: l).
Proof.
  induction l as [|y l IH]; intros Hp; simpl; [done|].
  destruct (cmp x y) eqn:E; try done. simpl.
  rewrite IH by (intros; apply Hp; set_solver). simpl.
  destruct (p x) eqn:Ex, (p y) eqn:Ey; try done.
  rewrite (Hp y) in E by set_solver. done.
Qed.

(** Stability: on a class of mutually equal elements the sort is the identity. *)
Lemma sort_by_stable (p : A → bool) l :
  (∀ x y, p x = true → p y = true → cmp x y = Eq) →
  List.filter p (sort_by l) = List.filter p l.
Proof.
  intros Hp. induction l as [|x l IH]; simpl; [done|].
  rewrite insert_by_stable by auto. simpl. by rewrite IH.
Qed.

Context `{!TotalCmp cmp}.

Lemma insert_by_sorted x l :
  StronglySorted (cmp_le cmp) l → StronglySorted (cmp_le cmp) (insert_by x l).
Proof using Type*.
  induction 1 as [|y l Hl IH Hy]; simpl; [by repeat constructor|].
  destruct (cmp x y) eqn:E.
  1,2: constructor; [by constructor|]; constructor; [unfold cmp_le; by rewrite E|];
    eapply Forall_impl; [exact Hy|]; intros z; apply (cmp_trans cmp x y z); by rewrite E.
  constructor; [done|]. apply Forall_forall. intros z Hz.
  rewrite insert_by_perm in Hz. apply elem_of_cons in Hz as [->|Hz].
  - by apply cmp_gt_le.
  - by eapply Forall_forall in Hy.
Qed.

Lemma sort_by_sorted l : StronglySorted (cmp_le cmp) (sort_by l).
Proof using Type*. induction l; simpl; [constructor|by apply insert_by_sorted]. Qed.

(** The head of a sorted list is a minimum. *)
Lemma sort_by_head x l l' :
  sort_by l = x :: l' → x ∈ l ∧ ∀ y, y ∈ l → cmp_le cmp x y.
Proof using Type*.
  intros E. split.
  - apply elem_of_sort_by. rewrite E. set_solver.
  - intros y Hy. pose proof (sort_by_sorted l) as Hs. rewrite E in Hs.
    apply StronglySorted_inv in Hs as [_ Hs].
    apply elem_of_sort_by in Hy. rewrite E in Hy.
    apply elem_of_cons in Hy as [->|Hy]; [by apply cmp_le_refl|].
    by eapply Forall_forall in Hs.
Qed.
End sort_by.

Lemma sorted_weaken {A} (R S : A → A → Prop) l :
  (∀ x y, R x y → S x y) → StronglySorted R l → StronglySorted S l.
Proof. intros H. induction 1; constructor; [done|]. eapply Forall_impl; eauto. Qed.

Lemma sorted_lookup {A} (R : A → A → Prop) l i j x y :
  StronglySorted R l → l !! i = Some x → l !! j = Some y → (i < j)%nat → R x y.
Proof.
  intros Hs. revert i j. induction Hs as [|a l Hs IH Hall]; intros i j; [done|].
  destruct i as [|i], j as [|j]; simpl; intros Hx Hy Hij; try lia.
  - injection Hx as ->. rewrite Forall_forall in Hall. apply Hall. by eapply list_elem_of_lookup_2.
  - apply (IH i j); [done..|lia].
Qed.

(** Sorting commutes with a function that keeps the comparisons. *)
Lemma insert_by_fmap {A B} (ca : A → A → comparison) (cb : B → B → comparison) (f : A → B) x l :
  (∀ y, y ∈ l → cb (f x) (f y) = ca x y) →
  insert_by cb (f x) (f <$> l) = f <$> insert_by ca x l.
Proof.
  induction l as [|y l IH]; intros H; [done|]. cbn. rewrite H by (by left).
  destruct (ca x y); try done. cbn. f_equal. apply IH. intros. apply H. by right.
Qed.

Lemma sort_by_fmap {A B} (ca : A → A → comparison) (cb : B → B → comparison) (f : A → B) l :
  (∀ x y, x ∈ l → y ∈ l → cb (f x) (f y) = ca x y) →
  sort_by cb (f <$> l) = f <$> sort_by ca l.
Proof.
  unfold sort_by. induction l as [|x l IH]; intros H; [done|]. cbn.
  assert (∀ a b, a ∈ l → b ∈ l → cb (f a) (f b) = ca a b) as Hl by (intros; apply H; by right).
  etransitivity; [exact (f_equal _ (IH Hl))|]. apply insert_by_fmap.
  intros y Hy. apply H; [by left|]. right.
  by apply (elem_of_sort_by ca y l).
Qed.

Lemma sort_by_nil_inv {A} (cmp : A → A → comparison) l : sort_by cmp l = [] → l = [].
Proof. intros E. apply Permutation_nil. by rewrite <-(sort_by_perm cmp l), E. Qed.

(** Sorting a list of distinct keys gives any permutation of it that is sorted. *)
Lemma sort_by_keys {A} (l t : list (Z * A)) :
  l ≡ₚ t → NoDup t.*1 → StronglySorted (λ x y, x.1 ≤ y.1) t →
  sort_by (cmp_on fst Z.compare) l = t.
Proof.
  intros Hp Hnd Ht.
  assert (∀ x y : Z * A, cmp_le (cmp_on fst Z.compare) x y ↔ x.1 ≤ y.1) as Hle
    by (intros x y; unfold cmp_le, cmp_on; by rewrite Z.compare_le_iff).
  apply (StronglySorted_unique_strong (λ x y, x.1 ≤ y.1)); [|..|by rewrite sort_by_perm].
  - intros x y Hx Hy H1 H2. rewrite sort_by_perm, Hp in Hx.
    apply list_elem_of_lookup in Hx as [i Hi], Hy as [k Hk].
    assert (i = k) as ->; [|congruence].
    apply (proj1 (NoDup_alt _) Hnd i k x.1); rewrite list_lookup_fmap; [by rewrite Hi|].
    rewrite Hk. simpl. f_equal. lia.
  - apply (sorted_weaken (cmp_le (cmp_on fst Z.compare))); [by intros x y ->%Hle|].
    apply sort_by_sorted, _.
  - done.
Qed.

Lemma sort_by_seqZ {A} (f : Z → A) (l : list (Z * A)) m n :
  l ≡ₚ (λ k, (k, f k)) <$> seqZ m n →
  sort_by (cmp_on fst Z.compare) l = (λ k, (k, f k)) <$> seqZ m n.
Proof.
  intros Hp. apply sort_by_keys; [done|..].
  - rewrite <-list_fmap_compose. assert (fst ∘ (λ k, (k, f k)) <$> seqZ m n = seqZ m n) as ->;
      [by apply list_fmap_id|apply NoDup_seqZ].
  - unfold seqZ. rewrite <-list_fmap_compose. generalize 0%nat. clear.
    induction (Z.to_nat n) as [|k IH]; intros i; [constructor|]. cbn. constructor; [apply IH|].
    apply Forall_fmap, Forall_forall. intros j [Hj _]%list_elem_of_In%in_seq. cbn. lia.
Qed.

(** [BTreeSet<String>] iterates in byte order, [BTreeMap] in key order. *)
Definition btree_elements (s : gset string) : list string := sort_by str_cmp (elements s).
Definition btree_entries {A} (m : gmap string A) : list (string * A) :=
  sort_by (cmp_on fst str_cmp) (map_to_list m).

Lemma elem_of_btree_elements x s : x ∈ btree_elements s ↔ x ∈ s.
Proof. unfold btree_elements. by rewrite elem_of_sort_by, elem_of_elements. Qed.

Lemma btree_entries_inj {A} (m1 m2 : gmap string A) :
  btree_entries m1 = btree_entries m2 → m1 = m2.
Proof.
  intros E. apply map_to_list_inj.
  rewrite <-(sort_by_perm (cmp_on fst str_cmp) (map_to_list m1)).
  rewrite <-(sort_by_perm (cmp_on fst str_cmp) (map_to_list m2)).
  unfold btree_entries in E. by rewrite E.
Qed.

(** ** Length-prefixed fields

    The decimal length, a colon and the bytes: a sequence of such fields has
    one reading. *)
Definition field (value : string) : string :=
  dec (str_len value) +:+ ":" +:+ value.

#[global] Arguments field : simpl never.
#[local] Arguments String.append !_ _ / : simpl nomatch.

Fixpoint no_colon (s : string) : Prop :=
  match s with
  | EmptyString => True
  | String a s' => a ≠ ":"%char ∧ no_colon s'
  end.

Lemma pretty_N_go_no_colon x s : no_colon s → no_colon (pretty_N_go x s).
Proof.
  revert s. induction (N.lt_wf_0 x) as [x _ IH]; intros s Hs.
  assert (x = 0 ∨ 0 < x)%N as [->|?] by lia; [by rewrite pretty_N_go_0|].
  rewrite pretty_N_go_step by done. apply IH; [by apply N.div_lt|].
  simpl. split; [|done]. unfold pretty_N_char. by repeat case_match.
Qed.

Lemma dec_no_colon z : no_colon (dec z).
Proof.
  unfold dec, pretty, pretty_Z. destruct z as [|p|p]; simpl; [done|..].
  - unfold pretty, pretty_positive, pretty, pretty_N. by apply pretty_N_go_no_colon.
  - split; [done|]. unfold pretty, pretty_positive, pretty, pretty_N.
    by apply pretty_N_go_no_colon.
Qed.

#[export] Instance dec_inj : Inj (=) (=) dec.
Proof. apply pretty_Z_inj. Qed.

Lemma append_assoc (a b c : string) : (a +:+ b) +:+ c = a +:+ (b +:+ c).
Proof. induction a as [|x a IH]; simpl; [done|by rewrite IH]. Qed.

Lemma append_nil_r (a : string) : a +:+ "" = a.
Proof. induction a as [|x a IH]; simpl; [done|by rewrite IH]. Qed.

Lemma str_len_append (a b : string) : str_len (a +:+ b) = str_len a + str_len b.
Proof.
  unfold str_len. induction a as [|x a IH]; simpl String.length; [done|].
  simpl String.append. simpl String.length. lia.
Qed.

(** Two colon-terminated prefixes are read back alike. *)
Lemma colon_split_inj a b r1 r2 :
  no_colon a → no_colon b → a +:+ ":" +:+ r1 = b +:+ ":" +:+ r2 → a = b ∧ r1 = r2.
Proof.
  revert b. induction a as [|x a IH]; intros [|y b] Ha Hb; simpl in *; intros E;
    simplify_eq; try naive_solver.
Qed.

Lemma append_same_length_inj (a b r1 r2 : string) :
  String.length a = String.length b → a +:+ r1 = b +:+ r2 → a = b ∧ r1 = r2.
Proof.
  revert b. induction a as [|x a IH]; intros [|y b] Hl; simpl in *; intros E;
    simplify_eq; [done|].
  destruct (IH b) as [-> ->]; naive_solver.
Qed.

Lemma field_inj a b r1 r2 : field a +:+ r1 = field b +:+ r2 → a = b ∧ r1 = r2.
Proof.
  unfold field. rewrite !append_assoc. intros E.
  apply colon_split_inj in E as [El E]; [|apply dec_no_colon..].
  apply (inj dec) in El. unfold str_len in El.
  by apply append_same_length_inj in E; [|lia].
Qed.

Definition fields (l : list string) : string := foldr (λ v r, field v +:+ r) "" l.

Lemma field_not_empty v r : field v +:+ r ≠ "".
Proof.
  unfold field. rewrite !append_assoc. by destruct (dec (str_len v)).
Qed.

Lemma fields_inj l1 l2 : fields l1 = fields l2 → l1 = l2.
Proof.
  revert l2. induction l1 as [|a l1 IH]; intros [|b l2]; simpl; intros E; try done.
  - by destruct (field_not_empty b (fields l2)).
  - by destruct (field_not_empty a (fields l1)).
  - apply field_inj in E as [-> E]. by rewrite (IH _ E).
Qed.

Lemma fields_app l1 l2 : fields (l1 ++ l2) = fields l1 +:+ fields l2.
Proof. induction l1 as [|a l1 IH]; simpl; [done|]. by rewrite IH, append_assoc. Qed.
