(* ===== verification/Net.v ===== *)
(** * Addresses and byte strings: the standard library pieces the network code uses

    [std::net::IpAddr] with its textual parser, [str::parse::<u8>],
    [str::split_once], big-endian byte encodings and [hex::encode]'s lower-case
    hexadecimal. *)
From S2P Require Import Prelude Text.
From Stdlib Require Import Ascii.

Local Open Scope string_scope.
Local Open Scope list_scope.
Local Open Scope Z_scope.

(** ** Bytes *)

Definition byte_of (z : Z) : ascii := ascii_of_N (Z.to_N z).

Fixpoint string_of_bytes (l : list Z) : string :=
  match l with
  | [] => EmptyString
  | b :: l' => String (byte_of b) (string_of_bytes l')
  end.

Fixpoint bytes_of (s : string) : list Z :=
  match s with
  | EmptyString => []
  | String a s' => byte_val a :: bytes_of s'
  end.

(** [to_be_bytes] of an [n]-byte unsigned integer. *)
Fixpoint be_bytes (n : nat) (z : Z) : list Z :=
  match n with
  | O => []
  | S n' => be_bytes n' (z / 256) ++ [z mod 256]
  end.

(** [Uuid::as_bytes]: the 16 bytes of the 128-bit value. *)
Definition uuid_bytes (u : Z) : string := string_of_bytes (be_bytes 16 u).

Definition hex_digit (n : Z) : Z := if n <? 10 then 48 + n else 87 + n.

(** [hex::encode]. *)
Fixpoint hex_encode (s : string) : string :=
  match s with
  | EmptyString => EmptyString
  | String a s' =>
    String (byte_of (hex_digit (byte_val a / 16)))
      (String (byte_of (hex_digit (byte_val a mod 16))) (hex_encode s'))
  end.

(** ** Addresses *)

(** [Ipv4Addr] as the u32, [Ipv6Addr] as the u128 of its octets. *)
Inductive IpAddr : Type := V4 (address : Z) | V6 (address : Z).

#[export] Instance IpAddr_eq_dec : EqDecision IpAddr.
Proof. solve_decision. Defined.

#[export] Program Instance IpAddr_countable : Countable IpAddr :=
  inj_countable' (λ a, match a with V4 x => (true, x) | V6 x => (false, x) end)
    (λ p, if p.1 then V4 p.2 else V6 p.2) _.
Next Obligation. by intros []. Qed.

(** ** The address parser

    A parser consumes a prefix of the bytes or fails; a failing parser leaves
    its input untouched ([read_atomically]). *)
Definition parser (A : Type) : Type := list Z → option (A * list Z).

Definition to_digit (radix b : Z) : option Z :=
  let d :=
    if is_ascii_digit b then Some (b - 48)
    else if is_ascii_lowercase b then Some (b - 87)
    else if is_ascii_uppercase b then Some (b - 55)
    else None in
  d' ← d; if d' <? radix then Some d' else None.

Definition read_given_char (c : Z) : parser () := λ s,
  match s with
  | b :: s' => if b =? c then Some (tt, s') else None
  | [] => None
  end.

(** The digits in front, their value and their number. *)
Fixpoint read_digits (radix acc : Z) (count : nat) (s : list Z) : Z * nat * list Z :=
  match s with
  | [] => (acc, count, s)
  | b :: s' =>
    match to_digit radix b with
    | Some d => read_digits radix (acc * radix + d) (S count) s'
    | None => (acc, count, s)
    end
  end.

(** [read_number] with [max_digits]; one more digit than that is a failure. *)
Definition read_number (radix : Z) (max_digits : nat) (allow_zero_prefix : bool) (limit : Z)
    : parser Z := λ s,
  let '(v, count, rest) := read_digits radix 0 0 s in
  let leading_zero := match s with b :: _ => b =? 48 | [] => false end in
  if (max_digits <? count)%nat || (count =? 0)%nat
     || (negb allow_zero_prefix && leading_zero && (1 <? count)%nat)
     || (limit <? v)
  then None else Some (v, rest).

Definition read_separator {A} (sep : Z) (index : nat) (inner : parser A) : parser A := λ s,
  match index with
  | O => inner s
  | S _ => '(_, s') ← read_given_char sep s; inner s'
  end.

(** Four decimal octets separated by dots, without leading zeros. *)
Definition read_ipv4_addr : parser Z := λ s,
  '(a, s) ← read_number 10 3 false 255 s;
  '(b, s) ← read_separator 46 1 (read_number 10 3 false 255) s;
  '(c, s) ← read_separator 46 2 (read_number 10 3 false 255) s;
  '(d, s) ← read_separator 46 3 (read_number 10 3 false 255) s;
  Some (((a * 256 + b) * 256 + c) * 256 + d, s).

(** [read_groups]: up to [limit] hexadecimal groups, the groups read, whether
    the last two come from an embedded IPv4 address, and the rest.  [i] is the
    index of the next group, [todo] the number still wanted. *)
Fixpoint read_groups (todo i : nat) (s : list Z) : list Z * bool * list Z :=
  match todo with
  | O => ([], false, s)
  | S todo' =>
    match (if (2 <=? todo)%nat then read_separator 58 i read_ipv4_addr s else None) with
    | Some (v4, s') => ([v4 / 65536; v4 mod 65536], true, s')
    | None =>
      match read_separator 58 i (read_number 16 4 true 65535) s with
      | Some (g, s') =>
        let '(gs, v4, rest) := read_groups todo' (S i) s' in (g :: gs, v4, rest)
      | None => ([], false, s)
      end
    end
  end.

Definition groups_value (gs : list Z) : Z := foldl (λ acc g, acc * 65536 + g) 0 gs.

Definition read_ipv6_addr : parser Z := λ s,
  let '(head, head_ipv4, s1) := read_groups 8 0 s in
  if (length head =? 8)%nat then Some (groups_value head, s1)
  else if head_ipv4 then None
  else
    '(_, s2) ← read_given_char 58 s1;
    '(_, s3) ← read_given_char 58 s2;
    let '(tail, _, s4) := read_groups (7 - length head) 0 s3 in
    Some (groups_value (head ++ repeat 0 (8 - length head - length tail) ++ tail), s4).

(** [IpAddr::from_str]: the whole string must be consumed. *)
Definition parse_ip (s : string) : option IpAddr :=
  let b := bytes_of s in
  let r :=
    match read_ipv4_addr b with
    | Some (v, rest) => Some (V4 v, rest)
    | None => '(v, rest) ← read_ipv6_addr b; Some (V6 v, rest)
    end in
  match r with
  | Some (a, []) => Some a
  | _ => None
  end.

(** [str::parse::<u8>]: an optional plus sign and decimal digits, at most 255. *)
Definition parse_u8 (s : string) : option Z :=
  let digits := match bytes_of s with 43 :: d => d | d => d end in
  let '(v, count, rest) := read_digits 10 0 0 digits in
  match rest with
  | [] => if (count =? 0)%nat || (255 <? v) then None else Some v
  | _ => None
  end.

(** [str::split_once] at an ASCII character. *)
Fixpoint split_once (c : ascii) (s : string) : option (string * string) :=
  match s with
  | EmptyString => None
  | String a s' =>
    if Ascii.eqb a c then Some (EmptyString, s')
    else '(l, r) ← split_once c s'; Some (String a l, r)
  end.

Example parse_v4 : parse_ip "203.0.113.9" = Some (V4 3405803785).
Proof. reflexivity. Qed.

Example parse_v6 : parse_ip "2001:db8::1" = Some (V6 42540766411282592856903984951653826561).
Proof. reflexivity. Qed.

Example parse_v6_mapped : parse_ip "::ffff:192.0.2.1" = Some (V6 281473902969345).
Proof. reflexivity. Qed.

Example parse_rejects :
  (parse_ip "010.0.0.1", parse_ip "1.2.3", parse_ip "1::2::3", parse_ip "1.2.3.4 ")
  = (None, None, None, None).
Proof. reflexivity. Qed.

(** ** Lemmas *)

Lemma byte_val_of z : 0 ≤ z < 256 → byte_val (byte_of z) = z.
Proof.
  intros Hz. unfold byte_val, byte_of. rewrite N_ascii_embedding by lia. lia.
Qed.

Lemma string_of_bytes_inj l1 l2 :
  Forall (λ b, 0 ≤ b < 256) l1 → Forall (λ b, 0 ≤ b < 256) l2 →
  string_of_bytes l1 = string_of_bytes l2 → l1 = l2.
Proof.
  intros H1. revert l2. induction H1 as [|a l1 Ha H1 IH]; intros l2 H2; destruct H2 as [|b l2 Hb H2];
    simpl; try done.
  intros [= Hab E]. apply (f_equal byte_val) in Hab. rewrite !byte_val_of in Hab by done.
  subst. f_equal. by apply IH.
Qed.

Lemma length_string_of_bytes l : String.length (string_of_bytes l) = length l.
Proof. induction l as [|b l IH]; simpl; [done|by rewrite IH]. Qed.

Lemma length_be_bytes n z : length (be_bytes n z) = n.
Proof. revert z. induction n as [|n IH]; intros z; simpl; [done|]. rewrite length_app, IH. simpl. lia. Qed.

Lemma be_bytes_range n z : Forall (λ b, 0 ≤ b < 256) (be_bytes n z).
Proof.
  revert z. induction n as [|n IH]; intros z; simpl; [constructor|].
  apply Forall_app_2; [done|]. constructor; [|constructor]. apply Z.mod_pos_bound. lia.
Qed.

Lemma be_bytes_inj n x y :
  0 ≤ x < 256 ^ Z.of_nat n → 0 ≤ y < 256 ^ Z.of_nat n → be_bytes n x = be_bytes n y → x = y.
Proof.
  revert x y. induction n as [|n IH]; intros x y Hx Hy; simpl be_bytes.
  - change (256 ^ Z.of_nat 0) with 1 in *. lia.
  - rewrite Nat2Z.inj_succ, Z.pow_succ_r in Hx, Hy by lia.
    intros [E1 [= E2]]%app_inj_2; [|done].
    apply IH in E1.
    + rewrite (Z.div_mod x 256), (Z.div_mod y 256) by lia. lia.
    + split; [apply Z.div_pos; lia|]. apply Z.div_lt_upper_bound; lia.
    + split; [apply Z.div_pos; lia|]. apply Z.div_lt_upper_bound; lia.
Qed.

Lemma uuid_bytes_inj u v :
  0 ≤ u ≤ u128_max → 0 ≤ v ≤ u128_max → uuid_bytes u = uuid_bytes v → u = v.
Proof.
  unfold u128_max. intros Hu Hv E. apply string_of_bytes_inj in E; [|apply be_bytes_range..].
  apply be_bytes_inj in E; [done|..]; change (256 ^ Z.of_nat 16) with (u128_max + 1);
    unfold u128_max; lia.
Qed.

Lemma length_uuid_bytes u : String.length (uuid_bytes u) = 16%nat.
Proof. unfold uuid_bytes. by rewrite length_string_of_bytes, length_be_bytes. Qed.

(** ** The parser yields addresses of their width *)

Lemma byte_val_range a : 0 ≤ byte_val a < 256.
Proof. unfold byte_val. pose proof (N_ascii_bounded a). lia. Qed.

Lemma to_digit_range radix b d : to_digit radix b = Some d → 0 ≤ d < radix.
Proof.
  unfold to_digit, is_ascii_digit, is_ascii_lowercase, is_ascii_uppercase.
  destruct (in_range 48 57 b) eqn:E1, (in_range 97 122 b) eqn:E2, (in_range 65 90 b) eqn:E3;
    simpl; try case_if; intros; simplify_eq; int_inv; lia.
Qed.

Lemma read_digits_nonneg radix acc c s v n r :
  0 ≤ radix → 0 ≤ acc → read_digits radix acc c s = (v, n, r) → 0 ≤ v.
Proof.
  intros Hr. revert acc c. induction s as [|b s IH]; intros acc c Ha; simpl; [by intros [= <- _ _]|].
  destruct (to_digit radix b) as [d|] eqn:Ed; [|by intros [= <- _ _]].
  apply to_digit_range in Ed. intros E. eapply IH; [|exact E]. nia.
Qed.

Lemma read_number_range radix m z lim s v r :
  0 ≤ radix → read_number radix m z lim s = Some (v, r) → 0 ≤ v ≤ lim.
Proof.
  intros Hr. unfold read_number. destruct (read_digits radix 0 0 s) as [[v' n] r'] eqn:E.
  apply read_digits_nonneg in E; [|lia..]. destruct (_ || _ || _ || _) eqn:Eb; [done|].
  intros [= <- <-]. int_inv. lia.
Qed.

Lemma read_separator_Some {A} sep i (p : parser A) s a r :
  read_separator sep i p s = Some (a, r) → ∃ s', p s' = Some (a, r).
Proof.
  destruct i; simpl; [eauto|]. destruct (read_given_char sep s) as [[[] s']|]; simpl; [eauto|done].
Qed.

Lemma read_ipv4_range s v r : read_ipv4_addr s = Some (v, r) → 0 ≤ v < 2 ^ 32.
Proof.
  unfold read_ipv4_addr. intros H.
  repeat match goal with
  | H : (_ ≫= _) = Some _ |- _ => apply bind_Some in H as ([? ?] & ? & H)
  | H : read_separator _ _ _ _ = Some _ |- _ => apply read_separator_Some in H as [? H]
  | H : read_number _ _ _ _ _ = Some _ |- _ => apply read_number_range in H; [|lia]
  end. simplify_eq. lia.
Qed.

Lemma read_groups_range todo i s gs v4 r :
  read_groups todo i s = (gs, v4, r) →
  (length gs ≤ todo)%nat ∧ Forall (λ g, 0 ≤ g < 65536) gs.
Proof.
  revert i s gs v4 r. induction todo as [|todo IH]; intros i s gs v4 r; cbn [read_groups].
  { intros [= <- _ _]. split; [simpl; lia|constructor]. }
  destruct (if (2 <=? S todo)%nat then read_separator 58 i read_ipv4_addr s else None)
    as [[a s']|] eqn:E4.
  - destruct (Nat.leb_spec 2 (S todo)) as [Ht|]; [|done].
    apply read_separator_Some in E4 as [? E4%read_ipv4_range].
    intros [= <- _ _]. split; [simpl; lia|]. repeat constructor; try (apply Z.mod_pos_bound; lia).
    + apply Z.div_pos; lia.
    + apply Z.div_lt_upper_bound; lia.
  - destruct (read_separator 58 i (read_number 16 4 true 65535) s) as [[g s']|] eqn:Eg.
    + destruct (read_groups todo (S i) s') as [[gs' v4'] r'] eqn:E. intros [= <- _ _].
      apply read_separator_Some in Eg as [? Eg%read_number_range]; [|lia].
      apply IH in E as [? ?]. split; [simpl; lia|]. constructor; [lia|done].
    + intros [= <- _ _]. split; [simpl; lia|constructor].
Qed.

Lemma groups_value_range gs acc :
  0 ≤ acc → Forall (λ g, 0 ≤ g < 65536) gs →
  0 ≤ foldl (λ acc g, acc * 65536 + g) acc gs < (acc + 1) * 65536 ^ Z.of_nat (length gs).
Proof.
  intros Ha Hg. revert acc Ha. induction Hg as [|g gs Hg _ IH]; intros acc Ha.
  - simpl. lia.
  - cbn [foldl length]. rewrite Nat2Z.inj_succ, Z.pow_succ_r by lia.
    destruct (IH (acc * 65536 + g) ltac:(lia)) as [? Hlt]. split; [done|].
    eapply Z.lt_le_trans; [exact Hlt|]. rewrite Z.mul_assoc.
    apply Z.mul_le_mono_nonneg_r; [lia|]. lia.
Qed.

Lemma groups_value_8 gs :
  (length gs ≤ 8)%nat → Forall (λ g, 0 ≤ g < 65536) gs → 0 ≤ groups_value gs < 2 ^ 128.
Proof.
  intros Hl Hg. destruct (groups_value_range gs 0 ltac:(lia) Hg) as [? Hlt]. split; [done|].
  eapply Z.lt_le_trans; [exact Hlt|].
  assert (65536 ^ Z.of_nat (length gs) ≤ 65536 ^ 8); [|lia]. apply Z.pow_le_mono_r; lia.
Qed.

Lemma read_ipv6_range s v r : read_ipv6_addr s = Some (v, r) → 0 ≤ v < 2 ^ 128.
Proof.
  unfold read_ipv6_addr. destruct (read_groups 8 0 s) as [[head v4] s1] eqn:Eh.
  apply read_groups_range in Eh as [Hl Hh].
  destruct (length head =? 8)%nat eqn:E8.
  { intros [= <- _]. by apply groups_value_8. }
  apply Nat.eqb_neq in E8. destruct v4; [done|]. intros H.
  apply bind_Some in H as ([[] s2] & _ & H). apply bind_Some in H as ([[] s3] & _ & H).
  destruct (read_groups (7 - length head) 0 s3) as [[tail v4'] s4] eqn:Et.
  apply read_groups_range in Et as [Htl Ht]. injection H as <- _.
  apply groups_value_8.
  - rewrite !length_app, repeat_length. lia.
  - apply Forall_app_2; [done|]. apply Forall_app_2; [|done].
    apply Forall_forall. intros x Hx%list_elem_of_In%repeat_spec. lia.
Qed.

(** The addresses a u32 or u128 holds. *)
Definition address_wf (a : IpAddr) : Prop :=
  match a with V4 x => 0 ≤ x < 2 ^ 32 | V6 x => 0 ≤ x < 2 ^ 128 end.

Lemma parse_ip_wf s a : parse_ip s = Some a → address_wf a.
Proof.
  unfold parse_ip. destruct (read_ipv4_addr (bytes_of s)) as [[v r]|] eqn:E4.
  - destruct r; [|done]. intros [= <-]. by apply read_ipv4_range in E4.
  - destruct (read_ipv6_addr (bytes_of s)) as [[v r]|] eqn:E6; simpl; [|done].
    destruct r; [|done]. intros [= <-]. by apply read_ipv6_range in E6.
Qed.

Lemma parse_u8_range s v : parse_u8 s = Some v → 0 ≤ v ≤ 255.
Proof.
  unfold parse_u8. set (d := match bytes_of s with 43 :: d => d | d => d end).
  destruct (read_digits 10 0 0 d) as [[v' n] r] eqn:E. apply read_digits_nonneg in E; [|lia..].
  destruct r; [|done]. destruct (_ || _) eqn:Eb; [done|]. intros [= <-]. int_inv. lia.
Qed.

(** The leading bytes of an encoding encode the leading bits. *)
Lemma take_be_bytes m k z : take m (be_bytes (m + k) z) = be_bytes m (z / 256 ^ Z.of_nat k).
Proof.
  revert z. induction k as [|k IH]; intros z.
  - rewrite Nat.add_0_r, Z.div_1_r. apply take_ge. by rewrite length_be_bytes.
  - rewrite Nat.add_succ_r. simpl be_bytes. rewrite take_app_le by (rewrite length_be_bytes; lia).
    rewrite IH, Z.div_div, <-Z.pow_succ_r by lia. by rewrite Nat2Z.inj_succ.
Qed.
