(* ===== verification/Float64.v ===== *)
(** * IEEE 754 binary64: the [f64] of the source

    [f64] is Rocq's executable specification of binary floating point at
    precision 53 and exponent bound 1024, so every operation rounds to nearest
    even as the hardware does.  A decimal literal of the source is the correctly
    rounded quotient of two exact integers.  Comparisons are characterised by an
    order key, which gives the laws the clients use. *)
From S2P Require Import Prelude Text.
From Stdlib Require Export SpecFloat.

Local Open Scope Z_scope.

Abbreviation f64 := spec_float.

#[export] Instance spec_float_eq_dec : EqDecision spec_float.
Proof. solve_decision. Defined.

Definition f64_add : f64 → f64 → f64 := SFadd 53 1024.
Definition f64_sub : f64 → f64 → f64 := SFsub 53 1024.
Definition f64_mul : f64 → f64 → f64 := SFmul 53 1024.
Definition f64_div : f64 → f64 → f64 := SFdiv 53 1024.

(** [z as f64]: round to nearest even. *)
Definition f64_of_Z (z : Z) : f64 := binary_normalize 53 1024 z 0 false.

(** The literal n/d, for n and d below 2^53. *)
Definition f64_lit (n d : Z) : f64 := f64_div (f64_of_Z n) (f64_of_Z d).

Definition f64_zero : f64 := S754_zero false.
Definition f64_one : f64 := f64_of_Z 1.

Definition is_finite (x : f64) : bool :=
  match x with S754_zero _ | S754_finite _ _ _ => true | _ => false end.

Definition f64_lt (x y : f64) : bool := SFltb x y.
Definition f64_le (x y : f64) : bool := SFleb x y.
Definition f64_gt (x y : f64) : bool := SFltb y x.
Definition f64_ge (x y : f64) : bool := SFleb y x.

(** [-x], [x.abs()], [x.sqrt()], [x.recip()], [f64::EPSILON]. *)
Definition f64_neg : f64 → f64 := SFopp.
Definition f64_abs : f64 → f64 := SFabs.
Definition f64_sqrt : f64 → f64 := SFsqrt 53 1024.
Definition f64_recip (x : f64) : f64 := f64_div f64_one x.
Definition f64_epsilon : f64 := binary_normalize 53 1024 1 (-52) false.

(** Sign, signed significand and exponent of a finite value. *)
Definition finite_parts (x : f64) : option (bool * Z * Z) :=
  match x with
  | S754_zero s => Some (s, 0, 0)
  | S754_finite s m e => Some (s, if s then Z.neg m else Z.pos m, e)
  | _ => None
  end.

(** [x.mul_add(y, z)]: the exact [x * y + z], rounded once. *)
Definition f64_mul_add (x y z : f64) : f64 :=
  match finite_parts x, finite_parts y with
  | Some (sx, mx, ex), Some (sy, my, ey) =>
    match finite_parts z with
    | Some (sz, mz, ez) =>
      let e := Z.min (ex + ey) ez in
      let m := Z.shiftl (mx * my) (ex + ey - e) + Z.shiftl mz (ez - e) in
      if m =? 0 then
        S754_zero (if (mx * my =? 0) && (mz =? 0) && Bool.eqb (xorb sx sy) sz then sz else false)
      else binary_normalize 53 1024 m e false
    | None => z
    end
  | _, _ => f64_add (f64_mul x y) z
  end.

(** [x.clamp(lo, hi)]. *)
Definition f64_clamp (lo hi x : f64) : f64 :=
  if f64_lt x lo then lo else if f64_gt x hi then hi else x.

(** [(lo..=hi).contains(&x)]. *)
Definition f64_in (lo hi x : f64) : bool := f64_le lo x && f64_le x hi.

(** ** The order *)

Definition lex3 : Z * Z * Z → Z * Z * Z → comparison :=
  cmp_then (cmp_on (λ k, k.1.1) Z.compare)
    (cmp_then (cmp_on (λ k, k.1.2) Z.compare) (cmp_on (λ k, k.2) Z.compare)).

#[export] Instance lex3_strict : StrictCmp lex3.
Proof.
  split; [unfold lex3; apply _|].
  intros [[a b] c] [[a' b'] c']. unfold lex3, cmp_then, cmp_on, then_with. simpl.
  destruct (Z.compare_spec a a') as [->| |]; try done.
  destruct (Z.compare_spec b b') as [->| |]; try done.
  destruct (Z.compare_spec c c') as [->| |]; done.
Qed.

(** Numeric order of the values other than NaN. *)
Definition order_key (x : f64) : Z * Z * Z :=
  match x with
  | S754_infinity true => (-2, 0, 0)
  | S754_finite true m e => (-1, -e, Z.neg m)
  | S754_zero _ => (0, 0, 0)
  | S754_finite false m e => (1, e, Z.pos m)
  | S754_infinity false => (2, 0, 0)
  | S754_nan => (3, 0, 0)
  end.

(** [f64::total_cmp]: below the numeric order, -0 before +0 and NaN last (the
    specification has one NaN, the positive quiet one). *)
Definition total_key (x : f64) : Z * Z * Z :=
  match x with
  | S754_zero true => (0, -1, 0)
  | _ => order_key x
  end.

Definition total_cmp : f64 → f64 → comparison := cmp_on total_key lex3.

#[export] Instance total_cmp_strict : StrictCmp total_cmp.
Proof.
  split; [unfold total_cmp; apply _|].
  intros x y E. apply (cmp_eq lex3) in E.
  destruct x as [[]|[]| |[] ? ?], y as [[]|[]| |[] ? ?]; simpl in E;
    try done; injection E as E1 E2; f_equal; lia.
Qed.

Lemma SFcompare_key x y :
  x ≠ S754_nan → y ≠ S754_nan → SFcompare x y = Some (lex3 (order_key x) (order_key y)).
Proof.
  intros Hx Hy.
  destruct x as [[]|[]| |[] m e], y as [[]|[]| |[] m' e']; try done;
    unfold lex3, cmp_then, cmp_on, then_with; simpl.
  - f_equal. rewrite Z.compare_opp, (Z.compare_antisym e e').
    destruct (e ?= e'); simpl; try done.
  - f_equal. by destruct (e ?= e').
Qed.

Lemma SFcompare_nan x y : x = S754_nan ∨ y = S754_nan → SFcompare x y = None.
Proof. intros [->| ->]; [done|]. by destruct x as [[]|[]| |[] m e]. Qed.

Definition f64_ordered (x : f64) : Prop := x ≠ S754_nan.

Lemma f64_le_spec x y :
  f64_le x y = true ↔
    f64_ordered x ∧ f64_ordered y ∧ cmp_le lex3 (order_key x) (order_key y).
Proof.
  unfold f64_le, SFleb, f64_ordered, cmp_le.
  destruct (decide (x = S754_nan)) as [|Hx].
  { rewrite SFcompare_nan by auto. naive_solver. }
  destruct (decide (y = S754_nan)) as [|Hy].
  { rewrite SFcompare_nan by auto. naive_solver. }
  rewrite SFcompare_key by done. destruct (lex3 _ _); naive_solver.
Qed.

Lemma f64_lt_spec x y :
  f64_lt x y = true ↔
    f64_ordered x ∧ f64_ordered y ∧ lex3 (order_key x) (order_key y) = Lt.
Proof.
  unfold f64_lt, SFltb, f64_ordered.
  destruct (decide (x = S754_nan)) as [|Hx].
  { rewrite SFcompare_nan by auto. naive_solver. }
  destruct (decide (y = S754_nan)) as [|Hy].
  { rewrite SFcompare_nan by auto. naive_solver. }
  rewrite SFcompare_key by done. destruct (lex3 _ _); naive_solver.
Qed.

Lemma f64_le_trans x y z : f64_le x y = true → f64_le y z = true → f64_le x z = true.
Proof.
  rewrite !f64_le_spec. intros (?&?&H1) (?&?&H2). split_and!; try done.
  exact (cmp_trans lex3 _ _ _ H1 H2).
Qed.

Lemma f64_lt_le x y : f64_lt x y = true → f64_le x y = true.
Proof. rewrite f64_lt_spec, f64_le_spec. unfold cmp_le. intros (?&?&->). done. Qed.

(** Irreflexivity in the form the case analyses need. *)
Lemma f64_lt_not_le x y : f64_lt x y = true → f64_le y x = false.
Proof.
  rewrite f64_lt_spec. intros (?&?&H). apply not_true_iff_false.
  rewrite f64_le_spec. intros (_&_&H'). apply H'.
  by rewrite (cmp_antisym lex3 (order_key x)), H.
Qed.

Lemma f64_not_le_lt x y :
  f64_ordered x → f64_ordered y → f64_le y x = false → f64_lt x y = true.
Proof.
  intros Hx Hy. rewrite <-not_true_iff_false, f64_le_spec, f64_lt_spec.
  unfold cmp_le. rewrite (cmp_antisym lex3 (order_key x) (order_key y)).
  destruct (lex3 (order_key x) (order_key y)); naive_solver.
Qed.

Lemma f64_not_lt_le x y :
  f64_ordered x → f64_ordered y → f64_lt y x = false → f64_le x y = true.
Proof.
  intros Hx Hy H. destruct (f64_le x y) eqn:E; [done|].
  apply f64_not_le_lt in E; [congruence|done..].
Qed.

Lemma f64_lt_le_trans x y z : f64_lt x y = true → f64_le y z = true → f64_lt x z = true.
Proof.
  intros H1 H2. destruct (f64_lt x z) eqn:E; [done|].
  assert (f64_ordered x ∧ f64_ordered z) as [Hx Hz].
  { apply f64_lt_spec in H1. apply f64_le_spec in H2. naive_solver. }
  apply f64_not_lt_le in E; [|done..].
  pose proof (f64_le_trans _ _ _ H2 E). pose proof (f64_lt_not_le _ _ H1). congruence.
Qed.

Lemma f64_le_lt_trans x y z : f64_le x y = true → f64_lt y z = true → f64_lt x z = true.
Proof.
  intros H1 H2. destruct (f64_lt x z) eqn:E; [done|].
  assert (f64_ordered x ∧ f64_ordered z) as [Hx Hz].
  { apply f64_lt_spec in H2. apply f64_le_spec in H1. naive_solver. }
  apply f64_not_lt_le in E; [|done..].
  pose proof (f64_le_trans _ _ _ E H1). pose proof (f64_lt_not_le _ _ H2). congruence.
Qed.

Lemma f64_le_ordered x y : f64_le x y = true → f64_ordered x ∧ f64_ordered y.
Proof. rewrite f64_le_spec. naive_solver. Qed.

Lemma is_finite_ordered x : is_finite x = true → f64_ordered x.
Proof. by intros ? ->. Qed.

Lemma f64_le_refl x : f64_ordered x → f64_le x x = true.
Proof. intros. apply f64_le_spec. split_and!; try done. apply cmp_le_refl, _. Qed.

#[export] Hint Resolve f64_lt_le is_finite_ordered : mindone.
