(* ===== verification/Fixed.v ===== *)
(** * Fixed-point money: crates/mindone-accounting/src/fixed.rs (errors: lib.rs)

    [MicroQuota] amounts, the tier and trust multipliers and the settlement
    formula.  All arithmetic is done on [Z] through the checked i64/i128
    operations of the prelude, in the order of the source. *)
From S2P Require Import Prelude Text.

Local Open Scope string_scope.
Local Open Scope Z_scope.

(** ** Errors and data *)

Inductive AccountingError : Type :=
| NegativeAmount (field : string)
| Overflow (operation : string)
| InsufficientBalance (required available : Z)
| InvalidLedger (message : string)
| InvalidScore (message : string)
| InvalidRouting (message : string)
| NoEligibleModel
| NoEligibleNode
| InvalidTierPolicy (message : string)
| InvalidGlicko2 (message : string)
| InvalidPolicy (message : string)
| InvalidReserveRelease (message : string)
| InvalidBilling (message : string).

#[export] Instance AccountingError_eq_dec : EqDecision AccountingError.
Proof. solve_decision. Defined.

Abbreviation Result := (result AccountingError).

Definition MICROQUOTA_PER_QUOTA : Z := 1000000.
Definition MULTIPLIER_SCALE : Z := 1000.

(** The tuple struct [MicroQuota(i64)]. *)
Record MicroQuota : Type := mkMicroQuota { as_i64 : Z }.

#[export] Instance MicroQuota_eq_dec : EqDecision MicroQuota.
Proof. solve_decision. Defined.

Inductive PerformanceTier : Type := High | Medium | Low.
Inductive TrustClass : Type := Enhanced | Standard | Unverified.

#[export] Instance PerformanceTier_eq_dec : EqDecision PerformanceTier.
Proof. solve_decision. Defined.
#[export] Instance TrustClass_eq_dec : EqDecision TrustClass.
Proof. solve_decision. Defined.

Record Settlement : Type := mkSettlement {
  base_cost : MicroQuota;
  user_deduction : MicroQuota;
  node_spendable_quota : MicroQuota;
  node_contribution_points : MicroQuota;
  reserve_inflow : MicroQuota;
  performance_tier : PerformanceTier;
  trust_class : TrustClass;
}.

(** ** Operations *)

Module MicroQuota.
Definition new (value : Z) : Result MicroQuota :=
  if value <? 0 then Err (NegativeAmount "microquota")
  else Ok (mkMicroQuota value).

Definition zero : MicroQuota := mkMicroQuota 0.

Definition checked_add (self other : MicroQuota) : Result MicroQuota :=
  value ← ok_or (i64_checked_add (as_i64 self) (as_i64 other))
    (Overflow "microquota 加法");
  new value.

Definition checked_sub (self other : MicroQuota) : Result MicroQuota :=
  if as_i64 self <? as_i64 other then
    Err (InsufficientBalance (as_i64 other) (as_i64 self))
  else new (as_i64 self - as_i64 other).

(** The type invariant: a non-negative i64. *)
Definition wf (m : MicroQuota) : Prop := 0 ≤ as_i64 m ≤ i64_max.
End MicroQuota.

Module PerformanceTier.
Definition multiplier_milli (self : PerformanceTier) : Z :=
  match self with High => 1500 | Medium => 1000 | Low => 700 end.
End PerformanceTier.

Module TrustClass.
Definition multiplier_milli (self : TrustClass) : Z :=
  match self with Enhanced => 1100 | Standard => 1000 | Unverified => 500 end.
End TrustClass.

Definition mul_ratio_ceil (value numerator denominator : Z) (operation : string)
    : Result Z :=
  product ← ok_or (i128_checked_mul value numerator) (Overflow operation);
  adjusted ← ok_or (i128_checked_add product (denominator - 1)) (Overflow operation);
  ok_or (i64_try_from (div_trunc adjusted denominator)) (Overflow operation).

Definition mul_two_ratios_floor (value first_milli second_milli : Z)
    (operation : string) : Result Z :=
  product ← ok_or
    (i128_checked_mul value first_milli ≫= λ current, i128_checked_mul current second_milli)
    (Overflow operation);
  let denominator := MULTIPLIER_SCALE * MULTIPLIER_SCALE in
  ok_or (i64_try_from (div_trunc product denominator)) (Overflow operation).

Module Settlement.
Definition calculate (base_cost : MicroQuota) (performance_tier : PerformanceTier)
    (trust_class : TrustClass) : Result Settlement :=
  deducted ← mul_ratio_ceil (as_i64 base_cost)
    (PerformanceTier.multiplier_milli performance_tier) MULTIPLIER_SCALE "用户扣费";
  user_deduction ← MicroQuota.new deducted;
  spendable ← mul_two_ratios_floor (as_i64 user_deduction) 800
    (TrustClass.multiplier_milli trust_class) "节点可用额度";
  node_spendable_quota ← MicroQuota.new spendable;
  points ← mul_two_ratios_floor (as_i64 user_deduction) 1200
    (TrustClass.multiplier_milli trust_class) "节点贡献值";
  node_contribution_points ← MicroQuota.new points;
  reserve_inflow ← MicroQuota.checked_sub user_deduction node_spendable_quota;
  mret (mkSettlement base_cost user_deduction node_spendable_quota
    node_contribution_points reserve_inflow performance_tier trust_class).
End Settlement.

(** ** Specification: the settlement formula over unbounded integers *)

Definition deduction_spec (t : PerformanceTier) (base : Z) : Z :=
  ceil_quot (base * PerformanceTier.multiplier_milli t) 1000.
Definition spendable_spec (c : TrustClass) (deduction : Z) : Z :=
  deduction * 800 * TrustClass.multiplier_milli c / 1000000.
Definition contribution_spec (c : TrustClass) (deduction : Z) : Z :=
  deduction * 1200 * TrustClass.multiplier_milli c / 1000000.

(** ** Lemmas on the checked arithmetic *)

Lemma micro_new_Ok z m : MicroQuota.new z = Ok m ↔ 0 ≤ z ∧ m = mkMicroQuota z.
Proof.
  unfold MicroQuota.new. destruct (Z.ltb_spec z 0); split; try (intros; ok_inv); naive_solver lia.
Qed.

Lemma micro_new_nonneg z : 0 ≤ z → MicroQuota.new z = Ok (mkMicroQuota z).
Proof. intros. by apply micro_new_Ok. Qed.

Lemma micro_checked_add_Ok a b m :
  MicroQuota.checked_add a b = Ok m ↔
  0 ≤ as_i64 a + as_i64 b ∧ in_i64 (as_i64 a + as_i64 b) = true
  ∧ m = mkMicroQuota (as_i64 a + as_i64 b).
Proof.
  unfold MicroQuota.checked_add. rewrite bind_Ok. setoid_rewrite ok_or_Ok.
  unfold i64_checked_add. setoid_rewrite checked_Some. setoid_rewrite micro_new_Ok.
  naive_solver.
Qed.

Lemma micro_checked_add_eq a b :
  0 ≤ a + b → in_i64 (a + b) = true →
  MicroQuota.checked_add (mkMicroQuota a) (mkMicroQuota b) = Ok (mkMicroQuota (a + b)).
Proof. intros. by apply micro_checked_add_Ok. Qed.

Lemma micro_checked_sub_Ok a b m :
  MicroQuota.checked_sub a b = Ok m ↔
  as_i64 b ≤ as_i64 a ∧ m = mkMicroQuota (as_i64 a - as_i64 b).
Proof.
  unfold MicroQuota.checked_sub.
  destruct (Z.ltb_spec (as_i64 a) (as_i64 b)).
  - split; intros; [ok_inv|lia].
  - rewrite micro_new_Ok. split; intros []; split; auto; lia.
Qed.

Lemma micro_checked_add_wf a b m :
  MicroQuota.checked_add a b = Ok m → MicroQuota.wf m.
Proof.
  rewrite micro_checked_add_Ok. intros (? & Hr & ->). unfold MicroQuota.wf; simpl.
  int_inv. lia.
Qed.

Lemma micro_checked_sub_wf a b m :
  MicroQuota.wf a → MicroQuota.wf b → MicroQuota.checked_sub a b = Ok m → MicroQuota.wf m.
Proof. rewrite micro_checked_sub_Ok. unfold MicroQuota.wf. intros ?? [? ->]; simpl. lia. Qed.

Lemma div_trunc_floor n d : 0 ≤ n → 0 < d → div_trunc n d = n / d.
Proof. intros. apply Z.quot_div_nonneg; lia. Qed.

Lemma mul_ratio_ceil_spec v n d op :
  0 ≤ v ≤ i64_max → 0 ≤ n ≤ 2000 → 0 < d ≤ 2000 →
  mul_ratio_ceil v n d op =
    if ceil_quot (v * n) d <=? i64_max then Ok (ceil_quot (v * n) d) else Err (Overflow op).
Proof.
  intros Hv Hn Hd. unfold mul_ratio_ceil, i128_checked_mul, i128_checked_add, i64_try_from.
  assert (0 ≤ v * n ≤ i64_max * 2000) by (unfold i64_max in *; nia).
  rewrite checked_true by (int_inv; apply in_range_true; lia). simpl.
  rewrite checked_true by (int_inv; apply in_range_true; lia). simpl.
  fold (ceil_quot (v * n) d).
  pose proof (ceil_quot_nonneg (v * n) d).
  unfold checked, in_i64, in_range. unfold i64_min in *.
  rewrite (proj2 (Z.leb_le _ _)) by lia. simpl. by destruct (_ <=? _).
Qed.

Lemma mul_two_ratios_floor_spec v a b op :
  0 ≤ v ≤ i64_max → 0 ≤ a ≤ 2000 → 0 ≤ b ≤ 2000 →
  mul_two_ratios_floor v a b op =
    if v * a * b / 1000000 <=? i64_max then Ok (v * a * b / 1000000) else Err (Overflow op).
Proof.
  intros Hv Ha Hb. unfold mul_two_ratios_floor, i128_checked_mul, i64_try_from.
  assert (0 ≤ v * a ≤ i64_max * 2000) by (unfold i64_max in *; nia).
  assert (0 ≤ v * a * b ≤ i64_max * 2000 * 2000) by (unfold i64_max in *; nia).
  rewrite checked_true by (int_inv; apply in_range_true; lia). simpl.
  rewrite checked_true by (int_inv; apply in_range_true; lia). simpl.
  change (MULTIPLIER_SCALE * MULTIPLIER_SCALE) with 1000000.
  rewrite div_trunc_floor by lia.
  pose proof (Z.div_pos (v * a * b) 1000000).
  unfold checked, in_i64, in_range. unfold i64_min in *.
  rewrite (proj2 (Z.leb_le _ _)) by lia. simpl. by destruct (_ <=? _).
Qed.

Lemma tier_multiplier_range t : 700 ≤ PerformanceTier.multiplier_milli t ≤ 1500.
Proof. destruct t; simpl; lia. Qed.
Lemma trust_multiplier_range c : 500 ≤ TrustClass.multiplier_milli c ≤ 1100.
Proof. destruct c; simpl; lia. Qed.

Lemma deduction_nonneg t b : 0 ≤ b → 0 ≤ deduction_spec t b.
Proof. intros. apply ceil_quot_nonneg; [|lia]. pose proof (tier_multiplier_range t). nia. Qed.

(** The deduction is at most 1.5 times the base, rounded up. *)
Lemma deduction_le_high t b : 0 ≤ b → deduction_spec t b ≤ deduction_spec High b.
Proof.
  intros. apply ceil_quot_mono; [|lia]. pose proof (tier_multiplier_range t).
  simpl. nia.
Qed.

Lemma deduction_mono t b b' : 0 ≤ b ≤ b' → deduction_spec t b ≤ deduction_spec t b'.
Proof.
  intros. apply ceil_quot_mono; [|lia]. pose proof (tier_multiplier_range t). nia.
Qed.

(** The node keeps at most 88% of the deduction, so the reserve keeps 12%. *)
Lemma spendable_le c d : 0 ≤ d → 25 * spendable_spec c d ≤ 22 * d.
Proof.
  intros. unfold spendable_spec. pose proof (trust_multiplier_range c).
  pose proof (Z.mul_div_le (d * 800 * TrustClass.multiplier_milli c) 1000000). nia.
Qed.

Lemma spendable_nonneg c d : 0 ≤ d → 0 ≤ spendable_spec c d.
Proof. intros. apply Z.div_pos; [|lia]. pose proof (trust_multiplier_range c). nia. Qed.
Lemma contribution_nonneg c d : 0 ≤ d → 0 ≤ contribution_spec c d.
Proof. intros. apply Z.div_pos; [|lia]. pose proof (trust_multiplier_range c). nia. Qed.

#[export] Hint Resolve deduction_nonneg spendable_nonneg contribution_nonneg : mindone.

(** The whole calculation in closed form, on a non-negative i64 base. *)
Lemma calculate_closed base t c :
  0 ≤ base ≤ i64_max →
  let d := deduction_spec t base in
  Settlement.calculate (mkMicroQuota base) t c =
    if negb (d <=? i64_max) then Err (Overflow "用户扣费")
    else if negb (contribution_spec c d <=? i64_max) then Err (Overflow "节点贡献值")
    else Ok (mkSettlement (mkMicroQuota base) (mkMicroQuota d)
      (mkMicroQuota (spendable_spec c d)) (mkMicroQuota (contribution_spec c d))
      (mkMicroQuota (d - spendable_spec c d)) t c).
Proof.
  intros Hb d. unfold Settlement.calculate. simpl as_i64.
  pose proof (tier_multiplier_range t). pose proof (trust_multiplier_range c).
  unfold MULTIPLIER_SCALE.
  rewrite mul_ratio_ceil_spec by lia. fold (deduction_spec t base). fold d.
  pose proof (deduction_nonneg t base ltac:(lia)) as Hd. fold d in Hd.
  destruct (Z.leb_spec d i64_max); simpl; [|done].
  rewrite micro_new_nonneg by done. simpl.
  rewrite (mul_two_ratios_floor_spec d 800) by lia. fold (spendable_spec c d).
  pose proof (spendable_le c d Hd). pose proof (spendable_nonneg c d Hd).
  rewrite (proj2 (Z.leb_le _ _)) by lia. simpl.
  rewrite micro_new_nonneg by done. simpl.
  rewrite (mul_two_ratios_floor_spec d 1200) by lia. fold (contribution_spec c d).
  destruct (Z.leb_spec (contribution_spec c d) i64_max); simpl; [|done].
  rewrite micro_new_nonneg by (by apply contribution_nonneg). simpl.
  unfold MicroQuota.checked_sub; simpl.
  rewrite (proj2 (Z.ltb_ge _ _)) by lia.
  by rewrite micro_new_nonneg by lia.
Qed.

Lemma calculate_Ok base t c s :
  0 ≤ base ≤ i64_max → Settlement.calculate (mkMicroQuota base) t c = Ok s →
  let d := deduction_spec t base in
  d ≤ i64_max ∧ contribution_spec c d ≤ i64_max ∧
  s = mkSettlement (mkMicroQuota base) (mkMicroQuota d)
    (mkMicroQuota (spendable_spec c d)) (mkMicroQuota (contribution_spec c d))
    (mkMicroQuota (d - spendable_spec c d)) t c.
Proof.
  intros Hb. rewrite calculate_closed by done. simpl.
  destruct (Z.leb_spec (deduction_spec t base) i64_max); simpl; [|done].
  destruct (Z.leb_spec (contribution_spec c (deduction_spec t base)) i64_max); simpl; [|done].
  intros [= <-]. done.
Qed.

(** A base cost that can be settled at the most expensive combination can be
    settled at every other. *)
Lemma calculate_high_enhanced_total base s0 :
  0 ≤ base ≤ i64_max →
  Settlement.calculate (mkMicroQuota base) High Enhanced = Ok s0 →
  ∀ t c, ∃ s, Settlement.calculate (mkMicroQuota base) t c = Ok s
    ∧ as_i64 (user_deduction s) ≤ as_i64 (user_deduction s0).
Proof.
  intros Hb H0 t c. apply calculate_Ok in H0 as (Hd0 & Hc0 & ->); [|done]. simpl.
  pose proof (deduction_le_high t base ltac:(lia)).
  pose proof (deduction_nonneg t base ltac:(lia)).
  assert (contribution_spec c (deduction_spec t base)
    ≤ contribution_spec Enhanced (deduction_spec High base)).
  { unfold contribution_spec. apply Z.div_le_mono; [lia|].
    pose proof (trust_multiplier_range c). simpl TrustClass.multiplier_milli. nia. }
  rewrite calculate_closed by done. cbv zeta.
  rewrite (proj2 (Z.leb_le (deduction_spec t base) i64_max)) by lia.
  rewrite (proj2 (Z.leb_le (contribution_spec c (deduction_spec t base)) i64_max)) by lia.
  eexists; split; [done|]. done.
Qed.

Lemma settlement_conserves_aux base t c s :
  0 ≤ base ≤ i64_max → Settlement.calculate (mkMicroQuota base) t c = Ok s →
  let paid := as_i64 (user_deduction s) in
  let node := as_i64 (node_spendable_quota s) in
  paid = node + as_i64 (reserve_inflow s)
  ∧ 3 * paid ≤ 25 * as_i64 (reserve_inflow s)
  ∧ base * PerformanceTier.multiplier_milli t ≤ 1000 * paid
      < base * PerformanceTier.multiplier_milli t + 1000
  ∧ 1000000 * node ≤ paid * 800 * TrustClass.multiplier_milli c < 1000000 * (node + 1).
Proof.
  intros Hb H. apply calculate_Ok in H as (Hd & Hc & ->); [|done]. simpl.
  set (d := deduction_spec t base) in *.
  pose proof (deduction_nonneg t base ltac:(lia)) as Hd0. fold d in Hd0.
  pose proof (spendable_le c d Hd0). pose proof (tier_multiplier_range t).
  pose proof (ceil_quot_spec (base * PerformanceTier.multiplier_milli t) 1000
    ltac:(nia) ltac:(lia)) as Hcq. fold (deduction_spec t base) in Hcq. fold d in Hcq.
  pose proof (Z.mul_div_le (d * 800 * TrustClass.multiplier_milli c) 1000000 ltac:(lia)) as L1.
  pose proof (Z.mul_succ_div_gt (d * 800 * TrustClass.multiplier_milli c) 1000000 ltac:(lia)) as U1.
  fold (spendable_spec c d) in L1, U1. repeat split; lia.
Qed.

(** A base cost of at least three microquota leaves every party a non-zero
    amount, whatever the tier and the trust class: the ledger, which refuses
    zero amounts, accepts the entries of the settlement. *)
Lemma settlement_credits_positive base t c s :
  3 ≤ base ≤ i64_max →
  Settlement.calculate (mkMicroQuota base) t c = Ok s →
  0 < as_i64 (user_deduction s) ∧ 0 < as_i64 (node_spendable_quota s)
  ∧ 0 < as_i64 (reserve_inflow s).
Proof.
  intros Hb H.
  destruct (settlement_conserves_aux base t c s ltac:(lia) H) as (H1 & H2 & H3 & H4).
  pose proof (tier_multiplier_range t). pose proof (trust_multiplier_range c).
  assert (3 ≤ as_i64 (user_deduction s)) by nia.
  repeat split; [lia| |lia]. nia.
Qed.

(** ** Properties *)

(** C37: Settlement conserves money. What the user pays is exactly what the node
    receives plus what the reserve receives, every amount is a non-negative i64,
    the reserve always keeps at least 12% of the payment, and the rounding is in
    its favour: the deduction is the ceiling of base * tier and the two credits are floors. *)
Theorem settlement_conserves (base : Z) (t : PerformanceTier) (c : TrustClass) (s : Settlement) :
  0 ≤ base ≤ i64_max →
  Settlement.calculate (mkMicroQuota base) t c = Ok s →
  let paid := as_i64 (user_deduction s) in
  let node := as_i64 (node_spendable_quota s) in
  let points := as_i64 (node_contribution_points s) in
  let reserve := as_i64 (reserve_inflow s) in
  paid = node + reserve
  ∧ 3 * paid ≤ 25 * reserve
  ∧ MicroQuota.wf (user_deduction s) ∧ MicroQuota.wf (node_spendable_quota s)
  ∧ MicroQuota.wf (node_contribution_points s) ∧ MicroQuota.wf (reserve_inflow s)
  ∧ base * PerformanceTier.multiplier_milli t ≤ 1000 * paid
      < base * PerformanceTier.multiplier_milli t + 1000
  ∧ 1000000 * node ≤ paid * 800 * TrustClass.multiplier_milli c < 1000000 * (node + 1)
  ∧ 1000000 * points ≤ paid * 1200 * TrustClass.multiplier_milli c < 1000000 * (points + 1).
Proof.
  intros Hb H paid node points reserve.
  destruct (settlement_conserves_aux base t c s Hb H) as (H1 & H2 & H3 & H4).
  apply calculate_Ok in H as (Hd & Hc & ->); [|done].
  set (d := deduction_spec t base) in *. simpl in *.
  pose proof (deduction_nonneg t base ltac:(lia)) as Hd0. fold d in Hd0.
  pose proof (spendable_nonneg c d Hd0). pose proof (contribution_nonneg c d Hd0).
  pose proof (Z.mul_div_le (d * 1200 * TrustClass.multiplier_milli c) 1000000 ltac:(lia)) as L2.
  pose proof (Z.mul_succ_div_gt (d * 1200 * TrustClass.multiplier_milli c) 1000000 ltac:(lia)) as U2.
  fold (contribution_spec c d) in L2, U2.
  unfold paid, node, points, reserve, MicroQuota.wf; simpl. repeat split; lia.
Qed.

Lemma settlement_conserves_witness :
  Settlement.calculate (mkMicroQuota 1) High Enhanced
    = Ok (mkSettlement (mkMicroQuota 1) (mkMicroQuota 2) (mkMicroQuota 1)
        (mkMicroQuota 2) (mkMicroQuota 1) High Enhanced)
  ∧ 2 = 1 + 1 ∧ 3 * 2 ≤ 25 * 1.
Proof.
  assert (Settlement.calculate (mkMicroQuota 1) High Enhanced
    = Ok (mkSettlement (mkMicroQuota 1) (mkMicroQuota 2) (mkMicroQuota 1)
        (mkMicroQuota 2) (mkMicroQuota 1) High Enhanced)) as H by reflexivity.
  split; [exact H|].
  destruct (settlement_conserves 1 High Enhanced _ ltac:(unfold i64_max; lia) H)
    as (H1 & H2 & _).
  split; [exact H1|exact H2].
Defined.

(** Settlement fails only by overflow of the i64 result, and exactly then:
    on a non-negative base it succeeds if and only if the deduction and the
    contribution points fit an i64. *)
Theorem settlement_total_or_overflow (base : Z) (t : PerformanceTier) (c : TrustClass) :
  0 ≤ base ≤ i64_max →
  (is_ok (Settlement.calculate (mkMicroQuota base) t c) = true ↔
     deduction_spec t base ≤ i64_max
     ∧ contribution_spec c (deduction_spec t base) ≤ i64_max)
  ∧ (∀ e, Settlement.calculate (mkMicroQuota base) t c = Err e →
       e = Overflow "用户扣费" ∨ e = Overflow "节点贡献值").
Proof.
  intros Hb. rewrite calculate_closed by done. simpl.
  destruct (Z.leb_spec (deduction_spec t base) i64_max); simpl.
  2: split; [split; [done|lia]|naive_solver].
  destruct (Z.leb_spec (contribution_spec c (deduction_spec t base)) i64_max); simpl.
  2: split; [split; [done|lia]|naive_solver].
  split; [done|naive_solver].
Qed.

Lemma settlement_total_or_overflow_witness :
  is_ok (Settlement.calculate (mkMicroQuota i64_max) High Standard) = false.
Proof.
  destruct (is_ok (Settlement.calculate (mkMicroQuota i64_max) High Standard)) eqn:E; [|reflexivity].
  destruct (settlement_total_or_overflow i64_max High Standard
    ltac:(unfold i64_max; lia)) as [[H _] _].
  destruct (H E) as [H1 _]. exfalso. revert H1. vm_compute. intros H1. by apply H1.
Defined.
