(* ===== verification/Tier.v ===== *)
(** * Performance tiers: crates/mindone-accounting/src/tier.rs and quality.rs

    Tier classification with cold start, hysteresis and relative assistance,
    and the fusion of benchmark and rating scores. *)
From S2P Require Import Prelude Text Float64 Fixed.

Local Open Scope string_scope.
Local Open Scope Z_scope.

(** ** quality.rs *)

Record QualityFusion : Type := mkQualityFusion { beta : f64; fused : f64 }.

(** The error's [Display] text, which [TierPolicy::validate] embeds. *)
Definition error_to_string (e : AccountingError) : string :=
  match e with
  | InvalidScore m => "评分参数无效：" +:+ m
  | _ => ""
  end.

Definition validate_unit_interval (value : f64) (name : string) : Result () :=
  bail_if (negb (is_finite value) || negb (f64_in f64_zero f64_one value))
    (InvalidScore (name +:+ " 必须是 0 到 1 之间的有限数")).

Definition fused_quality (benchmark_normalized glicko_normalized : f64)
    (valid_samples cold_start_k : Z) : Result QualityFusion :=
  _ ← validate_unit_interval benchmark_normalized "benchmark_normalized";
  _ ← validate_unit_interval glicko_normalized "glicko_normalized";
  _ ← bail_if (cold_start_k =? 0) (InvalidScore "cold_start_k 必须大于零");
  let samples := f64_of_Z valid_samples in
  let beta := f64_div samples (f64_add samples (f64_of_Z cold_start_k)) in
  let fused := f64_add (f64_mul (f64_sub f64_one beta) benchmark_normalized)
                 (f64_mul beta glicko_normalized) in
  Ok (mkQualityFusion beta fused).

(** ** tier.rs *)

Record TierPolicy : Type := mkTierPolicy {
  minimum_samples : Z;
  high_enter : f64;
  high_exit : f64;
  low_enter : f64;
  low_exit : f64;
  relative_margin : f64;
  high_percentile : f64;
  low_percentile : f64;
}.

(** [TierPolicy::default]. *)
Definition tier_policy_default : TierPolicy :=
  mkTierPolicy 20 (f64_lit 80 100) (f64_lit 72 100) (f64_lit 35 100) (f64_lit 42 100)
    (f64_lit 3 100) (f64_lit 80 100) (f64_lit 20 100).

Record TierResult : Type := mkTierResult {
  tier : PerformanceTier;
  cold_start : bool;
  relative_assist_applied : bool;
}.

Definition tier_validate (self : TierPolicy) : Result () :=
  _ ← for_each (λ vn : f64 * string,
        map_err (λ error, InvalidTierPolicy (error_to_string error))
          (validate_unit_interval vn.1 vn.2))
      [(high_enter self, "high_enter"); (high_exit self, "high_exit");
       (low_enter self, "low_enter"); (low_exit self, "low_exit");
       (high_percentile self, "high_percentile"); (low_percentile self, "low_percentile")];
  _ ← bail_if (minimum_samples self =? 0) (InvalidTierPolicy "minimum_samples 必须大于零");
  _ ← bail_if (negb (is_finite (relative_margin self)) || f64_lt (relative_margin self) f64_zero)
    (InvalidTierPolicy "relative_margin 必须是非负有限数");
  _ ← bail_if (negb (f64_lt (low_enter self) (low_exit self)
      && f64_lt (low_exit self) (high_exit self)
      && f64_lt (high_exit self) (high_enter self)))
    (InvalidTierPolicy "Tier 门槛必须满足 low_enter < low_exit < high_exit < high_enter");
  _ ← bail_if (f64_gt (f64_add (low_enter self) (relative_margin self)) (low_exit self)
      || f64_lt (f64_sub (high_enter self) (relative_margin self)) (high_exit self))
    (InvalidTierPolicy "相对排名辅助区间不得穿过升降级滞回区间");
  bail_if (f64_ge (low_percentile self) (high_percentile self))
    (InvalidTierPolicy "低位 percentile 必须小于高位 percentile").

(** The match of [classify] on the current tier, past the cold start. *)
Definition classify_step (self : TierPolicy) (current : PerformanceTier)
    (absolute_score percentile : f64) : PerformanceTier * bool :=
  let high_relative_assist :=
    f64_ge absolute_score (f64_sub (high_enter self) (relative_margin self))
    && f64_ge percentile (high_percentile self) in
  let low_relative_assist :=
    f64_le absolute_score (f64_add (low_enter self) (relative_margin self))
    && f64_le percentile (low_percentile self) in
  match current with
  | High => if f64_ge absolute_score (high_exit self) then (High, false) else (Medium, false)
  | Low => if f64_le absolute_score (low_exit self) then (Low, false) else (Medium, false)
  | Medium =>
    if f64_ge absolute_score (high_enter self) then (High, false)
    else if high_relative_assist then (High, true)
    else if f64_le absolute_score (low_enter self) then (Low, false)
    else if low_relative_assist then (Low, true)
    else (Medium, false)
  end.

Definition classify (self : TierPolicy) (current : PerformanceTier)
    (absolute_score percentile : f64) (valid_samples : Z) : Result TierResult :=
  _ ← tier_validate self;
  _ ← validate_unit_interval absolute_score "absolute_score";
  _ ← validate_unit_interval percentile "percentile";
  if valid_samples <? minimum_samples self then Ok (mkTierResult Medium true false)
  else
    let '(tier, relative_assist_applied) :=
      classify_step self current absolute_score percentile in
    Ok (mkTierResult tier false relative_assist_applied).

(** ** Lemmas *)

Lemma validate_unit_interval_Ok v n u :
  validate_unit_interval v n = Ok u ↔
    is_finite v = true ∧ f64_le f64_zero v = true ∧ f64_le v f64_one = true.
Proof.
  unfold validate_unit_interval. rewrite bail_if_Ok, orb_false_iff, !negb_false_iff.
  unfold f64_in. by rewrite andb_true_iff.
Qed.

(** What a validated policy guarantees, in order form: the four thresholds are
    strictly increasing and the assisted bands stop at the exits. *)
Lemma tier_validate_Ok p :
  tier_validate p = Ok tt →
  f64_lt (low_enter p) (low_exit p) = true ∧ f64_lt (low_exit p) (high_exit p) = true
  ∧ f64_lt (high_exit p) (high_enter p) = true
  ∧ f64_lt (low_exit p) (f64_add (low_enter p) (relative_margin p)) = false
  ∧ f64_lt (f64_sub (high_enter p) (relative_margin p)) (high_exit p) = false
  ∧ f64_ge (low_percentile p) (high_percentile p) = false
  ∧ minimum_samples p ≠ 0.
Proof.
  unfold tier_validate. intros H. ok_inv.
  repeat match goal with
  | H : negb _ = false |- _ => apply negb_false_iff in H
  | H : _ && _ = true |- _ => apply andb_true_iff in H as [? ?]
  | H : _ || _ = false |- _ => apply orb_false_iff in H as [? ?]
  end. split_and!; try done. by apply Z.eqb_neq.
Qed.

Section validated.
Context (p : TierPolicy) (Hp : tier_validate p = Ok tt).
Context (s q : f64).

Lemma thresholds_ordered :
  f64_lt (low_enter p) (high_exit p) = true ∧ f64_lt (low_exit p) (high_enter p) = true
  ∧ f64_lt (low_enter p) (high_enter p) = true.
Proof using Hp.
  apply tier_validate_Ok in Hp as (H1 & H2 & H3 & _).
  assert (f64_lt (low_enter p) (high_exit p) = true)
    by (eapply f64_lt_le_trans; eauto with mindone).
  assert (f64_lt (low_exit p) (high_enter p) = true)
    by (eapply f64_lt_le_trans; eauto with mindone).
  split_and!; [done..|]. eapply f64_lt_le_trans; eauto with mindone.
Qed.

(** Promotion, assisted or not, needs a score at or above the high exit. *)
Lemma promoted_above_exit :
  f64_ge s (high_enter p) = true ∨ f64_ge s (f64_sub (high_enter p) (relative_margin p)) = true →
  f64_ge s (high_exit p) = true.
Proof using Hp.
  apply tier_validate_Ok in Hp as (_ & _ & H3 & _ & H5 & _). unfold f64_ge.
  intros [H|H]; refine (f64_le_trans _ _ _ _ H); [by apply f64_lt_le|].
  pose proof (f64_le_ordered _ _ H) as [? _].
  apply f64_not_lt_le; [|done|done]. apply f64_lt_spec in H3. naive_solver.
Qed.

Lemma demoted_below_exit :
  f64_le s (low_enter p) = true ∨ f64_le s (f64_add (low_enter p) (relative_margin p)) = true →
  f64_le s (low_exit p) = true.
Proof using Hp.
  apply tier_validate_Ok in Hp as (H1 & _ & _ & H4 & _).
  intros [H|H]; refine (f64_le_trans _ _ _ H _); [by apply f64_lt_le|].
  pose proof (f64_le_ordered _ _ H) as [_ ?].
  apply f64_not_lt_le; [done| |done]. apply f64_lt_spec in H1. naive_solver.
Qed.

(** No score is both at or above the high exit and at or below the low exit. *)
Lemma exits_disjoint :
  f64_ge s (high_exit p) = true → f64_le s (low_exit p) = true → False.
Proof using Hp.
  unfold f64_ge. intros H1 H2. apply tier_validate_Ok in Hp as (_ & H3 & _).
  pose proof (f64_le_trans _ _ _ H1 H2) as H. apply f64_lt_not_le in H3. congruence.
Qed.

Lemma classify_step_range c t b :
  classify_step p c s q = (t, b) →
  (t = High → f64_ge s (high_exit p) = true)
  ∧ (t = Low → f64_le s (low_exit p) = true)
  ∧ (c = High → t ≠ Low) ∧ (c = Low → t ≠ High).
Proof using Hp.
  pose proof promoted_above_exit. pose proof demoted_below_exit.
  unfold classify_step. destruct c; repeat case_match; intros [= <- <-];
    split_and!; intros; try done; auto;
    match goal with H : _ && _ = true |- _ => apply andb_true_iff in H as [? ?] end; auto.
Qed.

(** Starting from Medium the result is a fixed point. *)
Lemma classify_step_medium_stable t b :
  classify_step p Medium s q = (t, b) → (classify_step p t s q).1 = t.
Proof using Hp.
  intros H. pose proof (classify_step_range Medium t b H) as (H1 & H2 & _).
  destruct t.
  - unfold classify_step. by rewrite H1.
  - by rewrite H.
  - unfold classify_step. by rewrite H2.
Qed.
End validated.

(** ** Properties *)

(** Hysteresis without oscillation. Under a validated policy, for a fixed
    score and percentile, a node is only ever High with a score at or above the
    high exit and only ever Low with a score at or below the low exit, no step
    jumps between High and Low, and re-evaluating settles: after two steps the
    tier no longer changes. *)
Theorem tier_hysteresis (p : TierPolicy) (s q : f64) (n : Z) (c : PerformanceTier)
    (r1 r2 r3 : TierResult) :
  minimum_samples p ≤ n →
  classify p c s q n = Ok r1 → classify p (tier r1) s q n = Ok r2 →
  classify p (tier r2) s q n = Ok r3 →
  (tier r1 = High → f64_ge s (high_exit p) = true)
  ∧ (tier r1 = Low → f64_le s (low_exit p) = true)
  ∧ ¬ (c = High ∧ tier r1 = Low) ∧ ¬ (c = Low ∧ tier r1 = High)
  ∧ tier r3 = tier r2 ∧ (c = Medium → tier r2 = tier r1).
Proof.
  intros Hn H1 H2 H3. apply Z.ltb_ge in Hn.
  assert (∀ c r, classify p c s q n = Ok r →
    tier_validate p = Ok tt ∧ classify_step p c s q = (tier r, relative_assist_applied r)) as Hinv.
  { clear -Hn. unfold classify. intros c r H.
    apply bind_Ok in H as ([] & ? & H). apply bind_Ok in H as (? & _ & H).
    apply bind_Ok in H as (? & _ & H). rewrite Hn in H.
    destruct (classify_step p c s q). ok_inv. done. }
  apply Hinv in H1 as [Hp H1]. apply Hinv in H2 as [_ H2]. apply Hinv in H3 as [_ H3].
  pose proof (classify_step_range p Hp s q _ _ _ H1) as (R1 & R2 & R3 & R4).
  assert (c = Medium → tier r2 = tier r1) as Hm.
  { intros ->. apply classify_step_medium_stable in H1; [|done]. by rewrite H2 in H1. }
  split_and!; try done; [naive_solver..|].
  destruct (tier r1) eqn:E1.
  - unfold classify_step in H2. rewrite R1 in H2 by done. injection H2 as E2 _.
    rewrite <-E2 in H3. unfold classify_step in H3. rewrite R1 in H3 by done.
    injection H3 as <- _. done.
  - apply classify_step_medium_stable in H2; [|done]. by rewrite H3 in H2.
  - unfold classify_step in H2. rewrite R2 in H2 by done. injection H2 as E2 _.
    rewrite <-E2 in H3. unfold classify_step in H3. rewrite R2 in H3 by done.
    injection H3 as <- _. done.
Qed.

Lemma tier_hysteresis_witness :
  let s := f64_lit 30 100 in let q := f64_lit 10 100 in
  classify tier_policy_default High s q 100 = Ok (mkTierResult Medium false false)
  ∧ f64_le s (low_exit tier_policy_default) = true.
Proof.
  intros s q. split; [vm_compute; reflexivity|].
  destruct (tier_hysteresis tier_policy_default s q 100 Medium
    (mkTierResult Low false false) (mkTierResult Low false false)
    (mkTierResult Low false false)) as (_ & H & _);
    [vm_compute; congruence|vm_compute; reflexivity..|].
  exact (H eq_refl).
Defined.

(** The relative rank only assists. A promotion or demotion marked as
    assisted happens only from Medium, only inside the margin next to the
    absolute gate that was not reached, only with the percentile beyond its
    bound; and with fewer samples than the policy's minimum every node is
    Medium, cold and unassisted whatever its scores. *)
Theorem tier_relative_assist_bounded (p : TierPolicy) (s q : f64) (n : Z)
    (c : PerformanceTier) (r : TierResult) :
  classify p c s q n = Ok r →
  (n < minimum_samples p → r = mkTierResult Medium true false)
  ∧ (relative_assist_applied r = true →
      minimum_samples p ≤ n ∧ c = Medium
      ∧ ((tier r = High ∧ f64_ge s (high_enter p) = false
          ∧ f64_ge s (f64_sub (high_enter p) (relative_margin p)) = true
          ∧ f64_ge q (high_percentile p) = true)
        ∨ (tier r = Low ∧ f64_le s (low_enter p) = false
          ∧ f64_le s (f64_add (low_enter p) (relative_margin p)) = true
          ∧ f64_le q (low_percentile p) = true))).
Proof.
  unfold classify. intros H. ok_inv.
  destruct (Z.ltb_spec n (minimum_samples p)); [ok_inv; split; [done|]; done|].
  split; [lia|]. destruct (classify_step p c s q) as [t b] eqn:E. ok_inv. simpl.
  intros ->. split; [done|]. unfold classify_step in E.
  destruct c; repeat case_match; try done; injection E as <-;
    match goal with H : _ && _ = true |- _ => apply andb_true_iff in H as [? ?] end;
    naive_solver.
Qed.

Lemma tier_relative_assist_bounded_witness :
  classify tier_policy_default Medium (f64_lit 78 100) (f64_lit 85 100) 100
    = Ok (mkTierResult High false true)
  ∧ f64_ge (f64_lit 78 100) (high_enter tier_policy_default) = false.
Proof.
  assert (classify tier_policy_default Medium (f64_lit 78 100) (f64_lit 85 100) 100
    = Ok (mkTierResult High false true)) as E by (vm_compute; reflexivity).
  split; [exact E|].
  destruct (tier_relative_assist_bounded _ _ _ _ _ _ E) as [_ H].
  destruct (H eq_refl) as (_ & _ & [(_ & H1 & _)|(H1 & _)]); [exact H1|discriminate H1].
Defined.
