(* ===== verification/Policy.v ===== *)
(** * Node policy: crates/mindone-accounting/src/policy.rs

    What a contributing node accepts: tag rejection, concurrency, GPU
    temperature with hysteresis and the VRAM reserve.  A [BTreeSet<String>] is a
    finite set of strings; its iteration order is the byte order. *)
From S2P Require Import Prelude Text Float64 Fixed.

Local Open Scope string_scope.
Local Open Scope Z_scope.

Record NodePolicy : Type := mkNodePolicy {
  reject_tags : gset string;
  max_concurrent : Z;
  gpu_temp_limit_c : option Z;
  vram_reserve_mib : Z;
  resume_temp_hysteresis_c : Z;
}.

(** [NodePolicy::default]. *)
Definition node_policy_default : NodePolicy := mkNodePolicy ∅ 1 None 0 5.

Record NodeRuntime : Type := mkNodeRuntime {
  task_tags : gset string;
  current_concurrent : Z;
  gpu_temp_c : option f64;
  available_vram_mib : option Z;
  paused_for_temperature : bool;
}.

Inductive ResourceMetric : Type := GpuTemperature | AvailableVram.

Inductive PolicyRejection : Type :=
| RejectedTag (tag : string)
| MaximumConcurrency (current maximum : Z)
| InsufficientVram (available_mib reserved_mib : Z)
| MetricUnavailable (metric : ResourceMetric)
| InvalidMetric (metric : ResourceMetric).

Inductive PolicyDecision : Type :=
| Accept (resumed_from_temperature : bool)
| PauseTemperature (current_c : f64) (limit_c : Z)
| Reject (reason : PolicyRejection).

Definition bad_tag (tag : string) : bool :=
  trim_is_empty tag || (128 <? str_len tag) || has_control tag.

Definition policy_validate (self : NodePolicy) : Result () :=
  _ ← bail_if (max_concurrent self =? 0) (InvalidPolicy "max_concurrent 必须大于零");
  _ ← bail_if (match gpu_temp_limit_c self with
               | Some limit => (limit =? 0) || (limit <=? resume_temp_hysteresis_c self)
               | None => false end)
    (InvalidPolicy "GPU 温度上限必须大于零且高于恢复滞回值");
  bail_if (existsb bad_tag (btree_elements (reject_tags self)))
    (InvalidPolicy "拒绝标签为空或无效").

Definition normalize_tag (tag : string) : string := to_ascii_lowercase (trim tag).

Definition normalize_tags (tags : gset string) : gset string := set_map normalize_tag tags.

(** [NodePolicy::normalized]. *)
Definition normalized (self : NodePolicy) : NodePolicy :=
  mkNodePolicy (normalize_tags (reject_tags self)) (max_concurrent self)
    (gpu_temp_limit_c self) (vram_reserve_mib self) (resume_temp_hysteresis_c self).

(** The VRAM check and the acceptance that end [evaluate_policy]. *)
Definition check_vram (policy : NodePolicy) (runtime : NodeRuntime)
    (resumed_from_temperature : bool) : PolicyDecision :=
  if 0 <? vram_reserve_mib policy then
    match available_vram_mib runtime with
    | None => Reject (MetricUnavailable AvailableVram)
    | Some available =>
      if available <? vram_reserve_mib policy then
        Reject (InsufficientVram available (vram_reserve_mib policy))
      else Accept resumed_from_temperature
    end
  else Accept resumed_from_temperature.

Definition resume_below (policy : NodePolicy) (limit : Z) : f64 :=
  f64_of_Z (unsigned_saturating_sub limit (resume_temp_hysteresis_c policy)).

Definition must_pause (policy : NodePolicy) (paused : bool) (limit : Z) (temperature : f64)
    : bool :=
  if paused then f64_gt temperature (resume_below policy limit)
  else f64_ge temperature (f64_of_Z limit).

Definition evaluate_policy (policy : NodePolicy) (runtime : NodeRuntime)
    : Result PolicyDecision :=
  _ ← policy_validate policy;
  let normalized_reject_tags := normalize_tags (reject_tags policy) in
  let normalized_task_tags := normalize_tags (task_tags runtime) in
  Ok (match head (btree_elements (normalized_reject_tags ∩ normalized_task_tags)) with
  | Some tag => Reject (RejectedTag tag)
  | None =>
    if max_concurrent policy <=? current_concurrent runtime then
      Reject (MaximumConcurrency (current_concurrent runtime) (max_concurrent policy))
    else match gpu_temp_limit_c policy with
    | None => check_vram policy runtime false
    | Some limit =>
      match gpu_temp_c runtime with
      | None => Reject (MetricUnavailable GpuTemperature)
      | Some temperature =>
        if negb (is_finite temperature) || f64_lt temperature f64_zero then
          Reject (InvalidMetric GpuTemperature)
        else if must_pause policy (paused_for_temperature runtime) limit temperature then
          PauseTemperature temperature limit
        else check_vram policy runtime (paused_for_temperature runtime)
      end
    end
  end).

(** ** Specification: when a node may take a task *)

Definition tags_clear (p : NodePolicy) (r : NodeRuntime) : Prop :=
  ∀ a b, a ∈ reject_tags p → b ∈ task_tags r → normalize_tag a ≠ normalize_tag b.

Definition temperature_clear (p : NodePolicy) (r : NodeRuntime) : Prop :=
  ∀ limit, gpu_temp_limit_c p = Some limit →
    ∃ t, gpu_temp_c r = Some t ∧ is_finite t = true ∧ f64_lt t f64_zero = false
      ∧ must_pause p (paused_for_temperature r) limit t = false.

Definition vram_clear (p : NodePolicy) (r : NodeRuntime) : Prop :=
  0 < vram_reserve_mib p →
    ∃ a, available_vram_mib r = Some a ∧ vram_reserve_mib p ≤ a.

Lemma head_btree_None s : head (btree_elements s) = None ↔ s = ∅.
Proof.
  unfold btree_elements. destruct (sort_by str_cmp (elements s)) as [|x l] eqn:E; simpl.
  - split; [|done]. intros _. apply sort_by_nil_inv, elements_empty_inv in E. set_solver.
  - split; [done|]. intros ->. rewrite elements_empty in E. done.
Qed.

Lemma head_btree_Some s x :
  head (btree_elements s) = Some x → x ∈ s ∧ ∀ y, y ∈ s → cmp_le str_cmp x y.
Proof.
  unfold btree_elements. destruct (sort_by str_cmp (elements s)) as [|z l] eqn:E; [done|].
  intros [= ->]. apply sort_by_head in E as [E1 E2]; [|apply _].
  rewrite elem_of_elements in E1. split; [done|]. intros y Hy. apply E2.
  by apply elem_of_elements.
Qed.

Lemma tags_clear_head p r :
  tags_clear p r ↔
    head (btree_elements (normalize_tags (reject_tags p) ∩ normalize_tags (task_tags r))) = None.
Proof.
  rewrite head_btree_None. unfold tags_clear, normalize_tags. split.
  - intros H. apply set_eq. intros x. split; [|set_solver].
    rewrite elem_of_intersection, !elem_of_map. intros [(a & -> & ?) (b & Hb & ?)].
    by destruct (H a b).
  - intros E a b Ha Hb Hab.
    assert (normalize_tag a ∈ (∅ : gset string)); [|set_solver].
    rewrite <-E, elem_of_intersection, !elem_of_map. split; [eauto|]. exists b. auto.
Qed.

Lemma check_vram_Accept p r b b' :
  check_vram p r b = Accept b' ↔ vram_clear p r ∧ b' = b.
Proof.
  unfold check_vram, vram_clear.
  destruct (Z.ltb_spec 0 (vram_reserve_mib p)); [|naive_solver lia].
  destruct (available_vram_mib r) as [a|]; [|naive_solver].
  destruct (Z.ltb_spec a (vram_reserve_mib p)); naive_solver lia.
Qed.

(** ** Properties *)

(** A node accepts a task exactly when nothing in its policy objects. With a
    valid policy, acceptance is equivalent to: no normalised task tag is
    rejected, fewer than the maximum tasks run, every configured limit has a
    valid metric within it (temperature under hysteresis, free VRAM at least the
    reserve); a missing or invalid metric of a configured limit never accepts.
    The resumed flag is set exactly when a temperature-paused node comes back. *)
Theorem policy_accepts_iff (p : NodePolicy) (r : NodeRuntime) (b : bool) :
  evaluate_policy p r = Ok (Accept b) ↔
    policy_validate p = Ok tt ∧ tags_clear p r
    ∧ current_concurrent r < max_concurrent p
    ∧ temperature_clear p r ∧ vram_clear p r
    ∧ b = bool_decide (is_Some (gpu_temp_limit_c p)) && paused_for_temperature r.
Proof.
  unfold evaluate_policy. rewrite tags_clear_head, bind_Ok. cbv zeta.
  destruct (policy_validate p) as [[]|e]; [|naive_solver].
  destruct (head _) as [t|]; [naive_solver|].
  destruct (Z.leb_spec (max_concurrent p) (current_concurrent r)); [naive_solver lia|].
  unfold temperature_clear. destruct (gpu_temp_limit_c p) as [limit|] eqn:El.
  2: { simpl. split.
    - intros ([] & _ & [= Hv]). apply check_vram_Accept in Hv as [? ->].
      naive_solver.
    - intros (_ & _ & _ & _ & Hv & ->). exists tt. split; [done|]. f_equal.
      by apply check_vram_Accept. }
  simpl. destruct (gpu_temp_c r) as [temp|]; [|split; [naive_solver|]].
  2: { intros (_ & _ & _ & Ht & _). by destruct (Ht limit eq_refl) as (? & ? & _). }
  destruct (is_finite temp) eqn:Ef; simpl.
  2: { split; [naive_solver|]. intros (_ & _ & _ & Ht & _).
       destruct (Ht limit eq_refl) as (? & [= <-] & ? & _). congruence. }
  destruct (f64_lt temp f64_zero) eqn:Eneg.
  { split; [naive_solver|]. intros (_ & _ & _ & Ht & _).
    destruct (Ht limit eq_refl) as (? & [= <-] & _ & ? & _). congruence. }
  destruct (must_pause p (paused_for_temperature r) limit temp) eqn:Ep.
  { split; [naive_solver|]. intros (_ & _ & _ & Ht & _).
    destruct (Ht limit eq_refl) as (? & [= <-] & _ & _ & ?). congruence. }
  split.
  - intros ([] & _ & [= Hv]). apply check_vram_Accept in Hv as [? ->]. naive_solver.
  - intros (_ & _ & _ & _ & Hv & ->). exists tt. split; [done|]. f_equal.
    by apply check_vram_Accept.
Qed.

(** The rejected tag a node reports is deterministic: it is a normalised tag
    common to the policy and the task, and the least such tag in byte order. *)
Theorem rejected_tag_least (p : NodePolicy) (r : NodeRuntime) (tag : string) :
  evaluate_policy p r = Ok (Reject (RejectedTag tag)) →
  (∃ a b, a ∈ reject_tags p ∧ b ∈ task_tags r ∧ tag = normalize_tag a ∧ tag = normalize_tag b)
  ∧ ∀ a b, a ∈ reject_tags p → b ∈ task_tags r → normalize_tag a = normalize_tag b →
      cmp_le str_cmp tag (normalize_tag a).
Proof.
  unfold evaluate_policy. intros H. ok_inv. revert H0.
  destruct (head _) as [t|] eqn:Eh.
  2: { unfold check_vram. repeat case_match; try done. }
  intros [= ->]. apply head_btree_Some in Eh as [Hin Hmin].
  unfold normalize_tags in *. rewrite elem_of_intersection, !elem_of_map in Hin.
  destruct Hin as [(a & Ea & Ha) (b & Eb & Hb)]. split; [naive_solver|].
  intros a' b' Ha' Hb' Eab. apply Hmin.
  rewrite elem_of_intersection, !elem_of_map. naive_solver.
Qed.

Definition sample_policy : NodePolicy :=
  mkNodePolicy {["private"; "regulated"]} 2 (Some 80) 0 5.
Definition sample_runtime : NodeRuntime :=
  mkNodeRuntime {["REGULATED"; "private"]} 0 (Some (f64_of_Z 60)) (Some 8192) false.

Lemma rejected_tag_least_witness :
  evaluate_policy sample_policy sample_runtime = Ok (Reject (RejectedTag "private"))
  ∧ ∃ a b, a ∈ reject_tags sample_policy ∧ b ∈ task_tags sample_runtime
      ∧ "private" = normalize_tag a ∧ "private" = normalize_tag b.
Proof.
  assert (evaluate_policy sample_policy sample_runtime = Ok (Reject (RejectedTag "private")))
    as E by (vm_compute; reflexivity).
  split; [exact E|]. destruct (rejected_tag_least _ _ _ E) as [H _]. exact H.
Defined.

(** Temperature hysteresis. With a limit and the rest of the policy clear, a
    node whose temperature lies strictly between the resume point and the limit
    keeps its state: running stays running, paused stays paused. At or above
    the limit it pauses from either state, and at or below the resume point it
    runs from either state. *)
Theorem temperature_hysteresis (p : NodePolicy) (r : NodeRuntime) (limit : Z) (t : f64) :
  policy_validate p = Ok tt → tags_clear p r → current_concurrent r < max_concurrent p →
  gpu_temp_limit_c p = Some limit → gpu_temp_c r = Some t → vram_clear p r →
  is_finite t = true → f64_lt t f64_zero = false →
  f64_lt (resume_below p limit) (f64_of_Z limit) = true →
  (f64_lt (resume_below p limit) t = true → f64_lt t (f64_of_Z limit) = true →
     evaluate_policy p r =
       Ok (if paused_for_temperature r then PauseTemperature t limit else Accept false))
  ∧ (f64_le (f64_of_Z limit) t = true → evaluate_policy p r = Ok (PauseTemperature t limit))
  ∧ (f64_le t (resume_below p limit) = true →
       evaluate_policy p r = Ok (Accept (paused_for_temperature r))).
Proof.
  intros Hv Ht Hc Hl Hg Hm Hf Hn Hr. apply tags_clear_head in Ht. apply Z.leb_gt in Hc.
  assert (∀ b, check_vram p r b = Accept b) as Ha by (intros; by apply check_vram_Accept).
  unfold evaluate_policy, must_pause, f64_gt, f64_ge.
  rewrite Hv, Ht, Hc, Hl, Hg, Hf, Hn. simpl. unfold f64_lt, f64_le in *.
  split_and!.
  - intros H1 H2. rewrite H1. apply (f64_lt_not_le t) in H2. unfold f64_le in H2.
    rewrite H2. destruct (paused_for_temperature r); [done|]. by rewrite Ha.
  - intros H. rewrite H. pose proof (f64_lt_le_trans _ _ _ Hr H) as H'. unfold f64_lt in H'.
    rewrite H'. by destruct (paused_for_temperature r).
  - intros H. pose proof (f64_le_lt_trans _ _ _ H Hr) as H1.
    apply f64_lt_not_le in H1. unfold f64_le in H1. rewrite H1.
    assert (SFltb (resume_below p limit) t = false) as ->.
    { destruct (SFltb (resume_below p limit) t) eqn:E; [|done].
      pose proof (f64_lt_not_le _ _ E) as E'. unfold f64_le in E'. congruence. }
    by destruct (paused_for_temperature r); rewrite Ha.
Qed.

Lemma temperature_hysteresis_witness :
  evaluate_policy (mkNodePolicy ∅ 1 (Some 80) 0 5)
    (mkNodeRuntime ∅ 0 (Some (f64_of_Z 76)) None true)
  = Ok (PauseTemperature (f64_of_Z 76) 80).
Proof.
  destruct (temperature_hysteresis (mkNodePolicy ∅ 1 (Some 80) 0 5)
    (mkNodeRuntime ∅ 0 (Some (f64_of_Z 76)) None true) 80 (f64_of_Z 76)) as [H _];
    [vm_compute; reflexivity|intros a b Ha; vm_compute in Ha; set_solver|
     vm_compute; reflexivity|reflexivity|reflexivity|
     intros H; vm_compute in H; discriminate H|vm_compute; reflexivity..|].
  apply H; vm_compute; reflexivity.
Defined.
