(* ===== verification/Glicko2.v ===== *)
(** * Glicko-2 ratings: crates/mindone-accounting/src/glicko2.rs

    One rating period of Glicko-2 on binary64.  The precision of [exp], [ln],
    [hypot] and [powi] is left open by the language, so they are parameters;
    every other operation is the correctly rounded one.  Both searches of the
    volatility solver are bounded by the code, and recursion is over what is
    left of that bound. *)
From S2P Require Import Prelude Text Fixed Float64.

Local Open Scope string_scope.
Local Open Scope list_scope.
Local Open Scope Z_scope.

Class Libm : Type := {
  exp : f64 → f64;
  ln : f64 → f64;
  hypot : f64 → f64 → f64;
  powi : f64 → Z → f64;
}.

Definition GLICKO2_SCALE : f64 := f64_lit 1737178 10000.
Definition DEFAULT_RATING : f64 := f64_of_Z 1500.
Definition PI : f64 := f64_lit 884279719003555 281474976710656.
Definition PI_SQUARED : f64 := f64_mul PI PI.
Definition MAX_VOLATILITY_ITERATIONS : nat := 1000.

Record Glicko2Rating : Type := mkRating { rating : f64; deviation : f64; volatility : f64 }.
Definition rating_default : Glicko2Rating := mkRating DEFAULT_RATING (f64_of_Z 350) (f64_lit 6 100).

Inductive Glicko2Score : Type := Loss | Draw | Win.
Definition score_value (self : Glicko2Score) : f64 :=
  match self with Loss => f64_zero | Draw => f64_lit 1 2 | Win => f64_one end.
Definition millionths (self : Glicko2Score) : Z :=
  match self with Loss => 0 | Draw => 500000 | Win => 1000000 end.

Record Glicko2Observation : Type := mkObservation {
  opponent_rating : f64;
  opponent_deviation : f64;
  score : Glicko2Score;
}.

Record Glicko2Config : Type := mkGlickoConfig { tau : f64; convergence_tolerance : f64 }.
Definition glicko_config_default : Glicko2Config :=
  mkGlickoConfig (f64_lit 5 10) (f64_lit 1 1000000).

(** ** Validation *)

Definition validate_public_rating (value : f64) (field : string) : Result () :=
  bail_if (negb (is_finite value) || negb (f64_in f64_zero (f64_of_Z 4000) value))
    (InvalidGlicko2 (field +:+ " 必须是 0 到 4000 之间的有限数")).

Definition validate_deviation (value : f64) (field : string) : Result () :=
  bail_if (negb (is_finite value) || negb (f64_in (f64_lit 1 1000000) (f64_of_Z 350) value))
    (InvalidGlicko2 (field +:+ " 必须是 0.000001 到 350 之间的有限数")).

Definition validate_rating (r : Glicko2Rating) : Result () :=
  _ ← validate_public_rating (rating r) "rating";
  _ ← validate_deviation (deviation r) "deviation";
  bail_if (negb (is_finite (volatility r)) || negb (f64_in (f64_lit 1 1000000) f64_one (volatility r)))
    (InvalidGlicko2 "volatility 必须在 0.000001 到 1 之间").

Definition validate_config (config : Glicko2Config) : Result () :=
  _ ← bail_if (negb (is_finite (tau config))
      || negb (f64_in (f64_lit 1 10) (f64_of_Z 2) (tau config)))
    (InvalidGlicko2 "tau 必须在 0.1 到 2 之间");
  bail_if (negb (is_finite (convergence_tolerance config))
      || negb (f64_in (f64_lit 1 1000000000) (f64_lit 1 1000) (convergence_tolerance config)))
    (InvalidGlicko2 "convergence_tolerance 必须在 1e-9 到 1e-3 之间").

(** ** The volatility solver *)

Section solver.
Context `{L : Libm}.

Definition rating_impact (opponent_phi : f64) : f64 :=
  f64_recip (f64_sqrt (f64_add f64_one
    (f64_div (f64_mul (f64_mul (f64_of_Z 3) opponent_phi) opponent_phi) PI_SQUARED))).

Definition expected_score (mu opponent_mu impact : f64) : f64 :=
  f64_recip (f64_add f64_one (exp (f64_mul (f64_neg impact) (f64_sub mu opponent_mu)))).

Definition volatility_objective (x improvement_squared phi_squared variance alpha tau : f64) : f64 :=
  let exponential := exp x in
  let denominator := f64_add (f64_add phi_squared variance) exponential in
  let likelihood_term :=
    f64_div (f64_mul exponential
               (f64_sub (f64_sub (f64_sub improvement_squared phi_squared) variance) exponential))
      (f64_mul (f64_mul (f64_of_Z 2) denominator) denominator) in
  let tau_squared := powi tau 2 in
  f64_sub likelihood_term (f64_div (f64_sub x alpha) tau_squared).

(** The lower end of the bracket: the first step below [alpha] at which the
    objective is not negative. *)
Fixpoint bracket (fuel : nat) (objective : f64 → f64) (alpha tau : f64) (step : Z) : Result f64 :=
  match fuel with
  | O => Err (InvalidGlicko2 "波动率求解未收敛")
  | S fuel =>
    let candidate := f64_mul_add (f64_of_Z step) (f64_neg tau) alpha in
    if f64_ge (objective candidate) f64_zero then Ok candidate
    else
      step ← ok_or (checked in_u32 (step + 1)) (InvalidGlicko2 "波动率求解步数溢出");
      bracket fuel objective alpha tau step
  end.

(** The secant search on the bracket. *)
Fixpoint secant (fuel : nat) (objective : f64 → f64) (tolerance : f64)
    (lower upper lower_value upper_value : f64) : Result f64 :=
  match fuel with
  | O => Err (InvalidGlicko2 "波动率求解未收敛")
  | S fuel =>
    if f64_le (f64_abs (f64_sub upper lower)) tolerance then
      let result := exp (f64_div lower (f64_of_Z 2)) in
      if is_finite result && f64_gt result f64_zero then Ok result
      else Err (InvalidGlicko2 "波动率结果无效")
    else
      let denominator := f64_sub upper_value lower_value in
      _ ← bail_if (negb (is_finite denominator) || f64_lt (f64_abs denominator) f64_epsilon)
        (InvalidGlicko2 "波动率求解出现退化区间");
      let candidate := f64_add lower
        (f64_div (f64_mul (f64_sub lower upper) lower_value) denominator) in
      let candidate_value := objective candidate in
      let '(lower, lower_value) :=
        if f64_le (f64_mul candidate_value upper_value) f64_zero then (upper, upper_value)
        else (lower, f64_div lower_value (f64_of_Z 2)) in
      secant fuel objective tolerance lower candidate lower_value candidate_value
  end.

Definition solve_volatility (phi volatility variance improvement : f64) (config : Glicko2Config)
    : Result f64 :=
  let alpha := ln (f64_mul volatility volatility) in
  let phi_squared := f64_mul phi phi in
  let improvement_squared := f64_mul improvement improvement in
  let objective := λ x,
    volatility_objective x improvement_squared phi_squared variance alpha (tau config) in
  let lower := alpha in
  upper ←
    (if f64_gt improvement_squared (f64_add phi_squared variance)
     then Ok (ln (f64_sub (f64_sub improvement_squared phi_squared) variance))
     else bracket MAX_VOLATILITY_ITERATIONS objective alpha (tau config) 1);
  secant MAX_VOLATILITY_ITERATIONS objective (convergence_tolerance config) lower upper
    (objective lower) (objective upper).

(** ** One rating period *)

Definition observe (mu : f64) (sums : f64 * f64) (observation : Glicko2Observation) : f64 * f64 :=
  let opponent_mu := f64_div (f64_sub (opponent_rating observation) DEFAULT_RATING) GLICKO2_SCALE in
  let opponent_phi := f64_div (opponent_deviation observation) GLICKO2_SCALE in
  let impact := rating_impact opponent_phi in
  let expected := expected_score mu opponent_mu impact in
  (f64_mul_add (f64_mul (f64_mul impact impact) expected) (f64_sub f64_one expected) sums.1,
   f64_mul_add impact (f64_sub (score_value (score observation)) expected) sums.2).

Definition update_glicko2 (current : Glicko2Rating) (observations : list Glicko2Observation)
    (config : Glicko2Config) : Result Glicko2Rating :=
  _ ← validate_rating current;
  _ ← validate_config config;
  _ ← bail_if (Nat.eqb (length observations) 0)
    (InvalidGlicko2 "每个评分周期至少需要一个有效盲测结果");
  _ ← bail_if (10000 <? Z.of_nat (length observations))
    (InvalidGlicko2 "单个评分周期最多接受 10000 个结果");
  _ ← for_each (λ o,
        _ ← validate_public_rating (opponent_rating o) "opponent_rating";
        validate_deviation (opponent_deviation o) "opponent_deviation") observations;
  let mu := f64_div (f64_sub (rating current) DEFAULT_RATING) GLICKO2_SCALE in
  let phi := f64_div (deviation current) GLICKO2_SCALE in
  let '(information_sum, outcome_sum) := foldl (observe mu) (f64_zero, f64_zero) observations in
  _ ← bail_if (negb (is_finite information_sum) || f64_le information_sum f64_zero
      || negb (is_finite outcome_sum)) (InvalidGlicko2 "评分周期的信息量无效");
  let variance := f64_recip information_sum in
  let improvement := f64_mul variance outcome_sum in
  new_volatility ← solve_volatility phi (volatility current) variance improvement config;
  let pre_rating_deviation := hypot phi new_volatility in
  let inverse_pre_deviation := f64_recip pre_rating_deviation in
  let new_phi := f64_recip (f64_sqrt
    (f64_mul_add inverse_pre_deviation inverse_pre_deviation (f64_recip variance))) in
  let new_mu := f64_mul_add (f64_mul new_phi new_phi) outcome_sum mu in
  let updated := mkRating (f64_mul_add new_mu GLICKO2_SCALE DEFAULT_RATING)
    (f64_mul new_phi GLICKO2_SCALE) new_volatility in
  _ ← validate_rating updated;
  Ok updated.
End solver.

Definition normalize_glicko2_rating (rating : f64) : Result f64 :=
  _ ← validate_public_rating rating "rating";
  Ok (f64_clamp f64_zero f64_one (f64_div (f64_sub rating (f64_of_Z 1000)) (f64_of_Z 1000))).

(** ** What an update promises *)

(** A rating within its documented bounds. *)
Definition rating_ok (r : Glicko2Rating) : Prop :=
  (is_finite (rating r) = true ∧ f64_in f64_zero (f64_of_Z 4000) (rating r) = true)
  ∧ (is_finite (deviation r) = true ∧ f64_in (f64_lit 1 1000000) (f64_of_Z 350) (deviation r) = true)
  ∧ is_finite (volatility r) = true ∧ f64_in (f64_lit 1 1000000) f64_one (volatility r) = true.

Lemma two_checks {E} (a b : bool) (e : E) u :
  bail_if (negb a || negb b) e = Ok u ↔ a = true ∧ b = true.
Proof. by rewrite bail_if_Ok, orb_false_iff, !negb_false_iff. Qed.

Lemma validate_rating_Ok r u : validate_rating r = Ok u ↔ rating_ok r.
Proof.
  unfold validate_rating, rating_ok, validate_public_rating, validate_deviation. split.
  - intros ([] & H1%two_checks & ([] & H2%two_checks & H3%two_checks)%bind_Ok)%bind_Ok. done.
  - intros (H1 & H2 & H3). apply bind_Ok. exists tt. rewrite two_checks. split; [done|].
    apply bind_Ok. exists tt. rewrite !two_checks. by destruct u.
Qed.

Section promises.
Context `{L : Libm}.

Lemma secant_Ok fuel objective tolerance lower upper lv uv v :
  secant fuel objective tolerance lower upper lv uv = Ok v →
  ∃ l u, f64_le (f64_abs (f64_sub u l)) tolerance = true ∧ v = exp (f64_div l (f64_of_Z 2))
    ∧ is_finite v = true ∧ f64_gt v f64_zero = true.
Proof.
  revert lower upper lv uv. induction fuel as [|fuel IH]; intros lower upper lv uv; [done|].
  cbn [secant]. destruct (f64_le (f64_abs (f64_sub upper lower)) tolerance) eqn:Ht.
  - destruct (_ && _) eqn:E; [|done]. intros [= <-]. apply andb_true_iff in E as [? ?]. by exists lower, upper.
  - intros ([] & _ & H)%bind_Ok. revert H. by destruct (f64_le (f64_mul _ uv) _); apply IH.
Qed.

(** The bracket it starts from: the first step at which the objective is not
    negative. *)
Lemma bracket_Ok fuel objective alpha t step v :
  bracket fuel objective alpha t step = Ok v →
  ∃ k : nat, (k < fuel)%nat ∧ v = f64_mul_add (f64_of_Z (step + Z.of_nat k)) (f64_neg t) alpha
    ∧ f64_ge (objective v) f64_zero = true
    ∧ ∀ i : nat, (i < k)%nat →
        f64_ge (objective (f64_mul_add (f64_of_Z (step + Z.of_nat i)) (f64_neg t) alpha)) f64_zero = false.
Proof.
  revert step. induction fuel as [|fuel IH]; intros step; [done|]. cbn [bracket].
  destruct (f64_ge (objective (f64_mul_add (f64_of_Z step) _ _)) _) eqn:E.
  - intros [= <-]. exists 0%nat. rewrite Z.add_0_r. split_and!; [lia|done|done|lia].
  - intros (s & [_ ->]%ok_or_Ok%checked_Some & H)%bind_Ok.
    destruct (IH _ H) as (k & Hk & -> & Hge & Hall). exists (S k).
    replace (step + Z.of_nat (S k)) with (step + 1 + Z.of_nat k) by lia.
    split_and!; [lia|done|done|]. intros [|i] Hi; [by rewrite Z.add_0_r|].
    replace (step + Z.of_nat (S i)) with (step + 1 + Z.of_nat i) by lia. apply Hall. lia.
Qed.

(** a rating period ends within the documented bounds. When the update
    answers a rating, the rating it started from, its parameters and its one to
    ten thousand observations were within their bounds, and so is the answer;
    its volatility is the exponential of the half of a point that the solver
    enclosed within the tolerance, in at most a thousand steps of each search. *)
Theorem rating_stays_in_bounds current observations config r :
  update_glicko2 current observations config = Ok r →
  rating_ok current ∧ validate_config config = Ok tt
  ∧ 1 ≤ Z.of_nat (length observations) ≤ 10000
  ∧ rating_ok r
  ∧ ∃ l u, f64_le (f64_abs (f64_sub u l)) (convergence_tolerance config) = true
      ∧ volatility r = exp (f64_div l (f64_of_Z 2)).
Proof.
  intros H. apply bind_Ok in H as ([] & Hc & H). apply validate_rating_Ok in Hc.
  apply bind_Ok in H as ([] & Hconf & H). apply bind_Ok in H as ([] & Hne%bail_if_Ok & H).
  apply Nat.eqb_neq in Hne. apply bind_Ok in H as ([] & Hmax%bail_if_Ok & H).
  apply Z.ltb_ge in Hmax. apply bind_Ok in H as ([] & _ & H). revert H.
  cbv zeta. destruct (foldl (observe _) _ _) as [info outcome]. intros H. apply bind_Ok in H as ([] & _ & H).
  apply bind_Ok in H as (v & Hv & H). apply bind_Ok in H as ([] & Hu & [= <-]).
  apply validate_rating_Ok in Hu. apply bind_Ok in Hv as (upper & _ & Hv).
  apply secant_Ok in Hv as (l & u & Ht & E & _ & _).
  split; [done|]. split; [done|]. split; [lia|]. split; [done|]. by exists l, u.
Qed.
End promises.

(** Concrete elementary functions: every exponential is the default volatility. *)
Local Instance flat_libm : Libm := {
  exp _ := f64_lit 6 100;
  ln _ := f64_of_Z (-3);
  hypot x y := f64_add x y;
  powi x _ := f64_mul x x;
}.

Definition sample_loss : Glicko2Observation := mkObservation (f64_of_Z 1500) (f64_of_Z 30) Loss.
Definition sample_rating : Glicko2Rating := mkRating (f64_of_Z 1500) (f64_of_Z 50) (f64_lit 6 100).
Definition sample_update : Result Glicko2Rating :=
  update_glicko2 sample_rating [sample_loss] glicko_config_default.

Lemma rating_stays_in_bounds_witness :
  ∃ r, sample_update = Ok r ∧ rating_ok r.
Proof.
  assert (sample_update = Ok (ok_default rating_default sample_update)) as E
    by (apply is_ok_Ok; vm_cast_no_check (eq_refl true)).
  generalize dependent (ok_default rating_default sample_update). intros r E.
  exists r. split; [exact E|].
  unfold sample_update in E.
  destruct (rating_stays_in_bounds _ _ _ _ E) as (_ & _ & _ & H & _).
  exact H.
Defined.

(** The quality interval at its ends and its middle. *)
Lemma normalized_ends :
  normalize_glicko2_rating (f64_of_Z 1000) = Ok f64_zero
  ∧ normalize_glicko2_rating (f64_of_Z 2000) = Ok f64_one
  ∧ normalize_glicko2_rating (f64_of_Z 1500) = Ok (f64_lit 1 2)
  ∧ normalize_glicko2_rating (f64_of_Z 400) = Ok f64_zero
  ∧ normalize_glicko2_rating (f64_of_Z 4000) = Ok f64_one.
Proof. by vm_compute. Qed.
