(* ===== verification/Optimize.v ===== *)
(** * Optimisation advice: crates/mindone-accounting/src/optimize.rs

    The checks of a node's measurements against its targets, and the ordered
    list of advice with its printed evidence.  Evidence is a [BTreeMap] from
    names to texts; a number prints with four decimals, correctly rounded. *)
From S2P Require Import Prelude Text Fixed Float64.

Local Open Scope string_scope.
Local Open Scope list_scope.
Local Open Scope Z_scope.

Record OptimizationMetrics : Type := mkOptimizationMetrics {
  measured_tps : f64;
  measured_ttft_ms : f64;
  error_rate : f64;
  current_tier : PerformanceTier;
  target_tps : f64;
  maximum_ttft_ms : f64;
  maximum_error_rate : f64;
  valid_samples : Z;
  minimum_samples : Z;
}.

Module AdvicePriority.
Inductive AdvicePriority : Type := High | Medium | Low.
Definition rank (p : AdvicePriority) : Z := match p with High => 0 | Medium => 1 | Low => 2 end.
(** The derived order: by position. *)
Definition cmp : AdvicePriority → AdvicePriority → comparison := cmp_on rank Z.compare.
End AdvicePriority.

Record OptimizationAdvice : Type := mkAdvice {
  code : string;
  priority : AdvicePriority.AdvicePriority;
  message : string;
  evidence : gmap string string;
}.

(** ** Numbers with four decimals *)

(** The quotient of two integers, to nearest even. *)
Definition div_half_even (n d : Z) : Z :=
  let q := n / d in
  match (2 * (n mod d)) ?= d with
  | Lt => q
  | Gt => q + 1
  | Eq => if Z.even q then q else q + 1
  end.

(** [significand * 2^exponent] in ten-thousandths. *)
Definition ten_thousandths (significand exponent : Z) : Z :=
  if 0 <=? exponent then Z.shiftl (significand * 10000) exponent
  else div_half_even (significand * 10000) (2 ^ (- exponent)).

Definition pad4 (n : Z) : string :=
  (if n <? 10 then "000" else if n <? 100 then "00" else if n <? 1000 then "0" else "") +:+ dec n.

Definition format_decimal (value : f64) : string :=
  match value with
  | S754_nan => "NaN"
  | S754_infinity s => (if s then "-" else "") +:+ "inf"
  | S754_zero s => (if s then "-" else "") +:+ "0.0000"
  | S754_finite s m e =>
    let n := ten_thousandths (Z.pos m) e in
    (if s then "-" else "") +:+ dec (n / 10000) +:+ "." +:+ pad4 (n mod 10000)
  end.

Definition tier_name (tier : PerformanceTier) : string :=
  match tier with Fixed.High => "high" | Fixed.Medium => "medium" | Fixed.Low => "low" end.

(** ** The checks *)

Definition validate_metrics (metrics : OptimizationMetrics) : Result () :=
  _ ← for_each (λ '(value, name),
        bail_if (negb (is_finite value) || f64_lt value f64_zero)
          (InvalidScore (name +:+ " 必须是非负有限数")))
      [(measured_tps metrics, "measured_tps");
       (measured_ttft_ms metrics, "measured_ttft_ms");
       (error_rate metrics, "error_rate");
       (target_tps metrics, "target_tps");
       (maximum_ttft_ms metrics, "maximum_ttft_ms");
       (maximum_error_rate metrics, "maximum_error_rate")];
  _ ← bail_if (f64_le (target_tps metrics) f64_zero || f64_le (maximum_ttft_ms metrics) f64_zero)
    (InvalidScore "target_tps 与 maximum_ttft_ms 必须大于零");
  _ ← bail_if (minimum_samples metrics =? 0) (InvalidScore "minimum_samples 必须大于零");
  bail_if (f64_gt (error_rate metrics) f64_one || f64_gt (maximum_error_rate metrics) f64_one)
    (InvalidScore "错误率必须在 0 到 1 之间").

(** ** The advice *)

Definition reduce_error_rate (metrics : OptimizationMetrics) : OptimizationAdvice :=
  mkAdvice "reduce_error_rate" AdvicePriority.High
    "近期错误率超过门槛；先检查引擎日志、模型内存需求与并发上限，再增加流量。"
    {[ "measured_error_rate" := format_decimal (error_rate metrics);
       "maximum_error_rate" := format_decimal (maximum_error_rate metrics) ]}.

Definition reduce_ttft (metrics : OptimizationMetrics) : OptimizationAdvice :=
  mkAdvice "reduce_ttft" AdvicePriority.Medium
    "首 Token TTFT 实测值超过目标；可降低最大并发、缩短上下文或选择更合适的量化模型。"
    {[ "measured_ttft_ms" := format_decimal (measured_ttft_ms metrics);
       "maximum_ttft_ms" := format_decimal (maximum_ttft_ms metrics) ]}.

Definition improve_tps (metrics : OptimizationMetrics) : OptimizationAdvice :=
  let improvement :=
    f64_div (f64_sub (target_tps metrics) (measured_tps metrics)) (target_tps metrics) in
  mkAdvice "improve_tps" AdvicePriority.Medium
    "当前 TPS 低于目标；请按证据中的确定差距检查 GPU offload、线程数和量化版本。"
    {[ "measured_tps" := format_decimal (measured_tps metrics);
       "target_tps" := format_decimal (target_tps metrics);
       "relative_gap" := format_decimal improvement ]}.

Definition recover_tier : OptimizationAdvice :=
  mkAdvice "recover_tier" AdvicePriority.Low
    "当前为低级表现；达到绝对性能和稳定性门槛后，表现倍率可由 0.7 提升至 1.0。"
    {[ "current_tier" := "low" ]}.

Definition collect_samples (metrics : OptimizationMetrics) : OptimizationAdvice :=
  mkAdvice "collect_samples" AdvicePriority.Low
    "有效样本不足，当前 Tier 结论尚不稳定；请保持配置并继续完成真实请求。"
    {[ "valid_samples" := dec (valid_samples metrics);
       "minimum_samples" := dec (minimum_samples metrics) ]}.

Definition performance_stable (metrics : OptimizationMetrics) : OptimizationAdvice :=
  mkAdvice "performance_stable" AdvicePriority.Low
    "TPS、首 Token TTFT 实测值与错误率均在当前目标内，建议保持配置并继续积累有效样本。"
    {[ "current_tier" := tier_name (current_tier metrics) ]}.

Definition advice_cmp : OptimizationAdvice → OptimizationAdvice → comparison :=
  cmp_then (cmp_on priority AdvicePriority.cmp) (cmp_on code str_cmp).

Definition push_if (condition : bool) (item : OptimizationAdvice)
    (advice : list OptimizationAdvice) : list OptimizationAdvice :=
  if condition then advice ++ [item] else advice.

Definition optimize (metrics : OptimizationMetrics) : Result (list OptimizationAdvice) :=
  _ ← validate_metrics metrics;
  let advice := push_if (f64_gt (error_rate metrics) (maximum_error_rate metrics))
    (reduce_error_rate metrics) [] in
  let advice := push_if (f64_gt (measured_ttft_ms metrics) (maximum_ttft_ms metrics))
    (reduce_ttft metrics) advice in
  let advice := push_if (f64_lt (measured_tps metrics) (target_tps metrics))
    (improve_tps metrics) advice in
  let advice := push_if (bool_decide (current_tier metrics = Low)) recover_tier advice in
  let advice := push_if (valid_samples metrics <? minimum_samples metrics)
    (collect_samples metrics) advice in
  let advice := push_if (Nat.eqb (length advice) 0) (performance_stable metrics) advice in
  Ok (sort_by advice_cmp advice).

(** ** What the advice promises *)

#[export] Instance priority_cmp_total : TotalCmp AdvicePriority.cmp.
Proof. unfold AdvicePriority.cmp. apply _. Qed.
#[export] Instance advice_cmp_total : TotalCmp advice_cmp.
Proof. unfold advice_cmp. apply _. Qed.

(** The rounding leaves at most half of a unit, and an exact half goes to the
    even neighbour. *)
Lemma div_half_even_nearest n d :
  0 < d → let q := div_half_even n d in
  2 * Z.abs (q * d - n) ≤ d ∧ (2 * Z.abs (q * d - n) = d → Z.even q = true).
Proof.
  intros Hd. unfold div_half_even. pose proof (Z.div_mod n d). pose proof (Z.mod_pos_bound n d Hd).
  destruct (Z.compare_spec (2 * (n mod d)) d) as [E|E|E]; [destruct (Z.even (n / d)) eqn:Hev|..];
    split; try (intros; done || lia); try nia.
  intros _. rewrite Z.even_add, Hev. done.
Qed.

(** Which advice a node's measurements call for. *)
Definition called_for (metrics : OptimizationMetrics) (item : OptimizationAdvice) : Prop :=
  (item = reduce_error_rate metrics ∧ f64_gt (error_rate metrics) (maximum_error_rate metrics) = true)
  ∨ (item = reduce_ttft metrics ∧ f64_gt (measured_ttft_ms metrics) (maximum_ttft_ms metrics) = true)
  ∨ (item = improve_tps metrics ∧ f64_lt (measured_tps metrics) (target_tps metrics) = true)
  ∨ (item = recover_tier ∧ current_tier metrics = Low)
  ∨ (item = collect_samples metrics ∧ valid_samples metrics < minimum_samples metrics).

Lemma elem_of_push_if b x y l : y ∈ push_if b x l ↔ y ∈ l ∨ (y = x ∧ b = true).
Proof. unfold push_if. destruct b; rewrite ?elem_of_app, ?list_elem_of_singleton; naive_solver. Qed.

(** The advice is exactly what the measurements call for. A list answered
    for a node holds each advice whose condition its measurements meet, and the
    single word that performance is stable when they meet none; it is never
    empty, goes from the highest priority down and by code within a priority,
    and every item carries evidence. *)
Theorem advice_is_called_for metrics l :
  optimize metrics = Ok l →
  (∀ item, item ∈ l ↔
     called_for metrics item
     ∨ (item = performance_stable metrics ∧ ∀ other, ¬ called_for metrics other))
  ∧ l ≠ [] ∧ StronglySorted (cmp_le advice_cmp) l
  ∧ ∀ item, item ∈ l → evidence item ≠ ∅.
Proof.
  unfold optimize. intros ([] & _ & [= <-])%bind_Ok. cbv zeta.
  set (advice := push_if (_ <? _) _ _).
  assert (∀ item, item ∈ advice ↔ called_for metrics item) as Hin.
  { intros item. unfold advice, called_for. rewrite !elem_of_push_if, elem_of_nil, bool_decide_eq_true, Z.ltb_lt.
    tauto. }
  clearbody advice.
  assert (∀ item, item ∈ push_if (Nat.eqb (length advice) 0) (performance_stable metrics) advice ↔
     called_for metrics item
     ∨ (item = performance_stable metrics ∧ ∀ other, ¬ called_for metrics other)) as Hall.
  { intros item. rewrite elem_of_push_if, Hin, Nat.eqb_eq, length_zero_iff_nil.
    assert (advice = [] ↔ ∀ other, ¬ called_for metrics other) as ->; [|tauto].
    setoid_rewrite <-Hin. split; [by intros -> ? ?%elem_of_nil|].
    destruct advice as [|x advice]; [done|]. intros H. by destruct (H x); left. }
  split; [intros item; by rewrite elem_of_sort_by|]. split; [|split].
  - intros E%sort_by_nil_inv. destruct advice; done.
  - apply sort_by_sorted, _.
  - intros item Hitem. rewrite elem_of_sort_by, Hall in Hitem.
    destruct Hitem as [[[-> _]|[[-> _]|[[-> _]|[[-> _]|[-> _]]]]]|[-> _]]; simpl; apply insert_non_empty.
Qed.

(** The measurements of a slow node with too many errors, and of a stable one. *)
Definition slow_node : OptimizationMetrics :=
  mkOptimizationMetrics (f64_of_Z 8) (f64_of_Z 1500) (f64_lit 10 100) Low
    (f64_of_Z 10) (f64_of_Z 1000) (f64_lit 5 100) 100 20.
Definition stable_node : OptimizationMetrics :=
  mkOptimizationMetrics (f64_of_Z 20) (f64_of_Z 100) f64_zero High
    (f64_of_Z 10) (f64_of_Z 1000) (f64_lit 5 100) 100 20.

Lemma advice_is_called_for_witness :
  optimize slow_node
    = Ok [reduce_error_rate slow_node; improve_tps slow_node; reduce_ttft slow_node; recover_tier]
  ∧ called_for slow_node recover_tier.
Proof.
  assert (optimize slow_node
    = Ok [reduce_error_rate slow_node; improve_tps slow_node; reduce_ttft slow_node; recover_tier])
    as E by (vm_compute; reflexivity).
  split; [exact E|].
  destruct (advice_is_called_for slow_node _ E) as (H & _).
  destruct (proj1 (H recover_tier)) as [Hc|[Hc _]]; [by do 3 right; left|exact Hc|discriminate Hc].
Defined.

Lemma stable_advice : optimize stable_node = Ok [performance_stable stable_node].
Proof. by vm_compute. Qed.

(** Four decimals, an exact half going to the even neighbour. *)
Lemma decimals :
  format_decimal (f64_lit 1 32) = "0.0312" ∧ format_decimal (f64_lit 3 32) = "0.0938"
  ∧ format_decimal (f64_of_Z 1500) = "1500.0000" ∧ format_decimal (f64_lit 2 10) = "0.2000"
  ∧ format_decimal (f64_neg f64_zero) = "-0.0000" ∧ format_decimal (f64_lit 99999 100000) = "1.0000".
Proof. by vm_compute. Qed.
