(* ===== verification/Routing.v ===== *)
(** * Routing: crates/mindone-accounting/src/routing.rs

    Two-phase model and node routing on binary64 scores, and the
    contribution-first ordering of a congested cohort on integers. *)
From S2P Require Import Prelude Text Float64 Fixed Tier.

Local Open Scope string_scope.
Local Open Scope list_scope.
Local Open Scope Z_scope.

(** ** Data *)

Record ModelCandidate : Type := mkModelCandidate {
  model_candidate_id : string;
  quality : f64;
  intent_match : f64;
  normalized_cost : f64;
  available : bool;
  context_length : Z;
}.

Record ModelWeights : Type := mkModelWeights {
  mw_quality : f64; mw_intent_match : f64; mw_cost : f64;
}.

Definition model_weights_default : ModelWeights :=
  mkModelWeights (f64_lit 5 10) (f64_lit 3 10) (f64_lit 2 10).

Record ModelRequirements : Type := mkModelRequirements {
  minimum_context_length : Z;
  model_weights : ModelWeights;
}.

Definition model_requirements_default : ModelRequirements :=
  mkModelRequirements 1 model_weights_default.

Record NodeCandidate : Type := mkNodeCandidate {
  node_candidate_id : string;
  model_id : string;
  trust : f64;
  health : f64;
  coordinator_rtt_ms : option Z;
  capacity : f64;
  node_current_concurrent : Z;
  node_max_concurrent : Z;
  recent_error_rate : f64;
  policy_allowed : bool;
  circuit_open : bool;
}.

Record NodeWeights : Type := mkNodeWeights {
  nw_trust : f64; nw_health : f64; nw_latency : f64; nw_capacity : f64;
  nw_available_load : f64; nw_reliability : f64;
}.

Definition node_weights_default : NodeWeights :=
  mkNodeWeights (f64_lit 25 100) (f64_lit 20 100) (f64_lit 15 100) (f64_lit 15 100)
    (f64_lit 15 100) (f64_lit 10 100).

Record NodeRequirements : Type := mkNodeRequirements {
  minimum_trust : f64;
  minimum_health : f64;
  node_weights : NodeWeights;
}.

Definition node_requirements_default : NodeRequirements :=
  mkNodeRequirements f64_zero f64_zero node_weights_default.

Definition ROUTING_SCORE_SCALE : Z := 1000000.
Definition MAX_ROUTABLE_COORDINATOR_RTT_MS : Z := 1000.
Definition CONTRIBUTION_ROUTING_MIN_COHORT : Z := 5.
Definition CONTRIBUTION_ROUTING_PERCENTILE_SCALE : Z := 1000000.
Definition CONTRIBUTION_ROUTING_NEAR_BEST_NUMERATOR : Z := 98.
Definition CONTRIBUTION_ROUTING_NEAR_BEST_DENOMINATOR : Z := 100.

Definition normalized_coordinator_rtt_score (coordinator_rtt_ms : option Z) : option Z :=
  match coordinator_rtt_ms with
  | None => Some 0
  | Some rtt_ms =>
    if (1 <=? rtt_ms) && (rtt_ms <=? MAX_ROUTABLE_COORDINATOR_RTT_MS)
    then Some (ROUTING_SCORE_SCALE - rtt_ms * 1000)
    else None
  end.

Record ScoredCandidate : Type := mkScored { scored_id : string; score : f64 }.

Record RoutingDecision : Type := mkRoutingDecision {
  decided_model : ScoredCandidate; decided_node : ScoredCandidate;
}.

Record ContributionRoutingCandidate : Type := mkContributionCandidate {
  candidate_id : string;
  base_score : Z;
  contribution_micro : Z;
}.

Record ContributionRoutingRankedCandidate : Type := mkRanked {
  ranked_id : string;
  ranked_base_score : Z;
  ranked_contribution_micro : Z;
  contribution_percentile_ppm : option Z;
}.

(** ** Validation *)

Definition validate_identifier (value label : string) : Result () :=
  bail_if (trim_is_empty value || (255 <? str_len value) || has_control value)
    (InvalidRouting (label +:+ " 为空或无效")).

(** [iter().sum::<f64>()] starts from -0.0. *)
Definition f64_sum (l : list f64) : f64 := foldl f64_add (S754_zero true) l.

Definition validate_weights (weights : list f64) : Result f64 :=
  _ ← bail_if (existsb (λ weight, negb (is_finite weight) || f64_lt weight f64_zero) weights)
    (InvalidRouting "路由权重必须是非负有限数");
  let sum := f64_sum weights in
  _ ← bail_if (f64_le sum f64_zero || negb (is_finite sum))
    (InvalidRouting "路由权重之和必须大于零");
  Ok sum.

Definition validate_model_weights (weights : ModelWeights) : Result f64 :=
  validate_weights [mw_quality weights; mw_intent_match weights; mw_cost weights].

Definition validate_node_weights (weights : NodeWeights) : Result f64 :=
  validate_weights [nw_trust weights; nw_health weights; nw_latency weights;
    nw_capacity weights; nw_available_load weights; nw_reliability weights].

(** ** Scoring and ranking *)

Definition scored_cmp : ScoredCandidate → ScoredCandidate → comparison :=
  cmp_then (cmp_rev (cmp_on score total_cmp)) (cmp_on scored_id str_cmp).

Definition sort_scored (scored : list ScoredCandidate) : list ScoredCandidate :=
  sort_by scored_cmp scored.

(** The score of one model, past validation. *)
Definition model_score (weights : ModelWeights) (weight_sum : f64) (c : ModelCandidate) : f64 :=
  f64_div
    (f64_sub (f64_add (f64_mul (mw_quality weights) (quality c))
                (f64_mul (mw_intent_match weights) (intent_match c)))
       (f64_mul (mw_cost weights) (normalized_cost c)))
    weight_sum.

(** The loop body of [rank_models]: [None] is the [continue]. *)
Definition score_model (requirements : ModelRequirements) (weight_sum : f64)
    (candidate : ModelCandidate) : Result (option ScoredCandidate) :=
  _ ← validate_identifier (model_candidate_id candidate) "模型 ID";
  _ ← validate_unit_interval (quality candidate) "quality";
  _ ← validate_unit_interval (intent_match candidate) "intent_match";
  _ ← validate_unit_interval (normalized_cost candidate) "normalized_cost";
  if negb (available candidate)
     || (context_length candidate <? minimum_context_length requirements)
  then Ok None
  else Ok (Some (mkScored (model_candidate_id candidate)
         (model_score (model_weights requirements) weight_sum candidate))).

(** A loop that pushes the [Some] results and returns the first error. *)
Fixpoint collect_some {A B} (f : A → Result (option B)) (l : list A) : Result (list B) :=
  match l with
  | [] => Ok []
  | a :: l' =>
    r ← f a;
    rest ← collect_some f l';
    Ok (match r with Some b => b :: rest | None => rest end)
  end.

Definition rank_models (candidates : list ModelCandidate) (requirements : ModelRequirements)
    : Result (list ScoredCandidate) :=
  weight_sum ← validate_model_weights (model_weights requirements);
  scored ← collect_some (score_model requirements weight_sum) candidates;
  Ok (sort_scored scored).

Definition node_filtered (requirements : NodeRequirements) (c : NodeCandidate) : bool :=
  negb (policy_allowed c) || circuit_open c || (node_max_concurrent c =? 0)
  || (node_max_concurrent c <=? node_current_concurrent c)
  || f64_lt (trust c) (minimum_trust requirements)
  || f64_lt (health c) (minimum_health requirements).

Definition node_score (weights : NodeWeights) (weight_sum : f64) (latency_score : Z)
    (c : NodeCandidate) : f64 :=
  let latency := f64_div (f64_of_Z latency_score) (f64_of_Z ROUTING_SCORE_SCALE) in
  let available_load := f64_sub f64_one
    (f64_div (f64_of_Z (node_current_concurrent c)) (f64_of_Z (node_max_concurrent c))) in
  let reliability := f64_sub f64_one (recent_error_rate c) in
  let s := f64_mul (nw_trust weights) (trust c) in
  let s := f64_add s (f64_mul (nw_health weights) (health c)) in
  let s := f64_add s (f64_mul (nw_latency weights) latency) in
  let s := f64_add s (f64_mul (nw_capacity weights) (capacity c)) in
  let s := f64_add s (f64_mul (nw_available_load weights) available_load) in
  let s := f64_add s (f64_mul (nw_reliability weights) reliability) in
  f64_div s weight_sum.

Definition score_node (requirements : NodeRequirements) (weight_sum : f64)
    (candidate : NodeCandidate) : Result (option ScoredCandidate) :=
  _ ← validate_identifier (node_candidate_id candidate) "节点 ID";
  _ ← validate_unit_interval (trust candidate) "trust";
  _ ← validate_unit_interval (health candidate) "health";
  _ ← validate_unit_interval (capacity candidate) "capacity";
  _ ← validate_unit_interval (recent_error_rate candidate) "recent_error_rate";
  if node_filtered requirements candidate then Ok None
  else match normalized_coordinator_rtt_score (coordinator_rtt_ms candidate) with
  | None => Ok None
  | Some latency_score =>
    Ok (Some (mkScored (node_candidate_id candidate)
      (node_score (node_weights requirements) weight_sum latency_score candidate)))
  end.

Definition rank_nodes (candidates : list NodeCandidate) (wanted_model : string)
    (requirements : NodeRequirements) : Result (list ScoredCandidate) :=
  _ ← validate_identifier wanted_model "模型 ID";
  _ ← validate_unit_interval (minimum_trust requirements) "minimum_trust";
  _ ← validate_unit_interval (minimum_health requirements) "minimum_health";
  weight_sum ← validate_node_weights (node_weights requirements);
  scored ← collect_some (score_node requirements weight_sum)
    (List.filter (λ node, String.eqb (model_id node) wanted_model) candidates);
  Ok (sort_scored scored).

(** The loop of [route] over the ranked models. *)
Fixpoint route_models (nodes : list NodeCandidate) (node_requirements : NodeRequirements)
    (ranked_models : list ScoredCandidate) : Result RoutingDecision :=
  match ranked_models with
  | [] => Err NoEligibleNode
  | model :: rest =>
    ranked_nodes ← rank_nodes nodes (scored_id model) node_requirements;
    match ranked_nodes with
    | node :: _ => Ok (mkRoutingDecision model node)
    | [] => route_models nodes node_requirements rest
    end
  end.

Definition route (models : list ModelCandidate) (nodes : list NodeCandidate)
    (model_requirements : ModelRequirements) (node_requirements : NodeRequirements)
    : Result RoutingDecision :=
  ranked_models ← rank_models models model_requirements;
  match ranked_models with
  | [] => Err NoEligibleModel
  | _ => route_models nodes node_requirements ranked_models
  end.

(** ** Contribution routing *)

(** The validation loop, with the identifiers seen so far. *)
Fixpoint validate_contribution_candidates (identifiers : gset string)
    (candidates : list ContributionRoutingCandidate) : Result () :=
  match candidates with
  | [] => Ok tt
  | candidate :: rest =>
    _ ← validate_identifier (candidate_id candidate) "贡献路由候选 ID";
    _ ← bail_if (bool_decide (candidate_id candidate ∈ identifiers))
      (InvalidRouting "贡献路由候选 ID 必须唯一");
    _ ← bail_if (base_score candidate <? 0) (InvalidRouting "贡献路由基础分必须是非负整数");
    _ ← bail_if (contribution_micro candidate <? 0)
      (InvalidRouting "贡献路由贡献值必须是非负整数");
    validate_contribution_candidates ({[candidate_id candidate]} ∪ identifiers) rest
  end.

Definition contribution_frequencies (candidates : list ContributionRoutingCandidate)
    : gmap Z Z :=
  foldl (λ frequencies c,
    <[contribution_micro c := default 0 (frequencies !! contribution_micro c) + 1]> frequencies)
    ∅ candidates.

Definition midrank_percentile (cohort_size lower tied : Z) : Z :=
  let numerator := (2 * lower + tied - 1) * CONTRIBUTION_ROUTING_PERCENTILE_SCALE in
  let denominator := 2 * (cohort_size - 1) in
  default CONTRIBUTION_ROUTING_PERCENTILE_SCALE (u32_try_from (div_trunc numerator denominator)).

Fixpoint midrank_loop (cohort_size lower : Z) (frequencies : list (Z * Z)) : list (Z * Z) :=
  match frequencies with
  | [] => []
  | (contribution, tied) :: rest =>
    (contribution, midrank_percentile cohort_size lower tied)
      :: midrank_loop cohort_size (lower + tied) rest
  end.

Definition sorted_frequencies (candidates : list ContributionRoutingCandidate) : list (Z * Z) :=
  sort_by (cmp_on fst Z.compare) (map_to_list (contribution_frequencies candidates)).

Definition contribution_midrank_percentiles (candidates : list ContributionRoutingCandidate)
    : gmap Z Z :=
  list_to_map (midrank_loop (Z.of_nat (length candidates)) 0 (sorted_frequencies candidates)).

Definition max_base_score (candidates : list ContributionRoutingCandidate) : Z :=
  match base_score <$> candidates with
  | [] => 0
  | x :: l => foldl Z.max x l
  end.

Definition contribution_enabled (candidates : list ContributionRoutingCandidate)
    (ready_demand server_free_slots : Z) : bool :=
  (CONTRIBUTION_ROUTING_MIN_COHORT <=? Z.of_nat (length candidates))
  && (server_free_slots <? ready_demand).

Definition within_near_best (best_score : Z) (c : ContributionRoutingCandidate) : bool :=
  best_score * CONTRIBUTION_ROUTING_NEAR_BEST_NUMERATOR
    <=? base_score c * CONTRIBUTION_ROUTING_NEAR_BEST_DENOMINATOR.

Definition rank_candidate (enabled : bool) (best_score : Z) (percentiles : gmap Z Z)
    (c : ContributionRoutingCandidate) : ContributionRoutingRankedCandidate :=
  mkRanked (candidate_id c) (base_score c) (contribution_micro c)
    (if enabled && within_near_best best_score c
     then percentiles !! contribution_micro c else None).

Definition ranked_cmp
    : ContributionRoutingRankedCandidate → ContributionRoutingRankedCandidate → comparison :=
  cmp_then (cmp_rev (cmp_on contribution_percentile_ppm (option_cmp Z.compare)))
    (cmp_then (cmp_rev (cmp_on ranked_base_score Z.compare)) (cmp_on ranked_id str_cmp)).

Definition rank_contribution_candidates (candidates : list ContributionRoutingCandidate)
    (ready_demand server_free_slots : Z) : Result (list ContributionRoutingRankedCandidate) :=
  _ ← validate_contribution_candidates ∅ candidates;
  let enabled := contribution_enabled candidates ready_demand server_free_slots in
  let best_score := max_base_score candidates in
  let percentiles :=
    if enabled then contribution_midrank_percentiles candidates else ∅ in
  Ok (sort_by ranked_cmp (rank_candidate enabled best_score percentiles <$> candidates)).

(** ** Lemmas: the collecting loop and the two rankings *)

Lemma collect_some_elem {A B} (f : A → Result (option B)) l r b :
  collect_some f l = Ok r → b ∈ r ↔ ∃ a, a ∈ l ∧ f a = Ok (Some b).
Proof.
  revert r. induction l as [|a l IH]; intros r; simpl.
  - intros [= <-]. set_solver.
  - intros H. apply bind_Ok in H as (o & Ho & H). apply bind_Ok in H as (r' & Hr & H).
    injection H as <-. specialize (IH _ Hr). destruct o as [b'|].
    + rewrite elem_of_cons, IH. split.
      * intros [->|(x & ? & ?)]; [exists a|exists x]; set_solver.
      * intros (x & Hx & Hf). apply elem_of_cons in Hx as [->|Hx]; [|eauto].
        left. congruence.
    + rewrite IH. split.
      * intros (x & ? & ?). exists x. set_solver.
      * intros (x & Hx & Hf). apply elem_of_cons in Hx as [->|Hx]; [congruence|eauto].
Qed.

#[export] Instance scored_cmp_total : TotalCmp scored_cmp.
Proof. unfold scored_cmp. apply _. Qed.

#[export] Instance ranked_cmp_total : TotalCmp ranked_cmp.
Proof. unfold ranked_cmp. apply _. Qed.

(** A model that survives the hard filters. *)
Definition model_eligible (req : ModelRequirements) (m : ModelCandidate) : Prop :=
  available m = true ∧ minimum_context_length req ≤ context_length m.

(** A node that survives the hard filters: allowed, circuit closed, a free
    slot, trusted and healthy enough, and a round trip that is unknown or
    within 1..=1000 ms. *)
Definition node_eligible (req : NodeRequirements) (n : NodeCandidate) : Prop :=
  policy_allowed n = true ∧ circuit_open n = false
  ∧ node_max_concurrent n ≠ 0 ∧ node_current_concurrent n < node_max_concurrent n
  ∧ f64_lt (trust n) (minimum_trust req) = false
  ∧ f64_lt (health n) (minimum_health req) = false
  ∧ ∀ rtt, coordinator_rtt_ms n = Some rtt → 1 ≤ rtt ≤ 1000.

Lemma score_model_Some req w m s :
  score_model req w m = Ok (Some s) →
  model_eligible req m ∧ scored_id s = model_candidate_id m.
Proof.
  unfold score_model, model_eligible. intros H. ok_inv.
  destruct (available m); [|done]. simpl in *.
  destruct (Z.ltb_spec (context_length m) (minimum_context_length req)); [done|].
  ok_inv. done.
Qed.

Lemma rtt_score_Some rtt s :
  normalized_coordinator_rtt_score rtt = Some s →
  0 ≤ s < 1000000 ∧ (rtt = None → s = 0)
  ∧ ∀ r, rtt = Some r → 1 ≤ r ≤ 1000 ∧ s = 1000000 - 1000 * r.
Proof.
  unfold normalized_coordinator_rtt_score, MAX_ROUTABLE_COORDINATOR_RTT_MS, ROUTING_SCORE_SCALE.
  destruct rtt as [r|]; [|intros [= <-]; naive_solver lia].
  destruct (_ && _) eqn:E; [|done]. int_inv. intros [= <-].
  split; [lia|]. split; [done|]. intros ? [= <-]. lia.
Qed.

Lemma score_node_Some req w n s :
  score_node req w n = Ok (Some s) →
  node_eligible req n ∧ scored_id s = node_candidate_id n.
Proof.
  unfold score_node, node_eligible. intros H. ok_inv.
  destruct (node_filtered req n) eqn:Ef; [done|].
  destruct (normalized_coordinator_rtt_score _) as [l|] eqn:El; [|done]. ok_inv.
  unfold node_filtered in Ef. int_inv.
  match goal with H : negb _ = false |- _ => apply negb_false_iff in H end. apply rtt_score_Some in El as (_ & _ & Hr).
  split; [|done]. split_and!; try done. intros r Er. by apply Hr.
Qed.

Lemma rank_models_elem models req r s :
  rank_models models req = Ok r → s ∈ r →
  ∃ m, m ∈ models ∧ model_eligible req m ∧ scored_id s = model_candidate_id m.
Proof.
  unfold rank_models, sort_scored. intros H Hs. ok_inv.
  rewrite elem_of_sort_by in Hs. eapply collect_some_elem in Hs as (m & ? & ?%score_model_Some); [|done].
  eauto.
Qed.

Lemma rank_nodes_elem nodes id req r s :
  rank_nodes nodes id req = Ok r → s ∈ r →
  ∃ n, n ∈ nodes ∧ model_id n = id ∧ node_eligible req n ∧ scored_id s = node_candidate_id n.
Proof.
  unfold rank_nodes, sort_scored. intros H Hs. ok_inv.
  rewrite elem_of_sort_by in Hs. eapply collect_some_elem in Hs as (m & Hm & Hsc); [|done].
  apply score_node_Some in Hsc as []. apply list_elem_of_In, filter_In in Hm as [Hm Hid].
  apply String.eqb_eq in Hid. exists m. split_and!; try done. by apply list_elem_of_In.
Qed.

Lemma rank_models_sorted models req r :
  rank_models models req = Ok r → StronglySorted (cmp_le scored_cmp) r.
Proof. unfold rank_models. intros H. ok_inv. apply sort_by_sorted, _. Qed.

Lemma rank_nodes_sorted nodes id req r :
  rank_nodes nodes id req = Ok r → StronglySorted (cmp_le scored_cmp) r.
Proof. unfold rank_nodes. intros H. ok_inv. apply sort_by_sorted, _. Qed.

Lemma route_models_Ok nodes req rm d :
  route_models nodes req rm = Ok d →
  ∃ before after rn, rm = before ++ decided_model d :: after
    ∧ Forall (λ m, rank_nodes nodes (scored_id m) req = Ok []) before
    ∧ rank_nodes nodes (scored_id (decided_model d)) req = Ok (decided_node d :: rn).
Proof.
  induction rm as [|m rm IH]; simpl; [done|]. intros H.
  apply bind_Ok in H as (rn & Hr & H). destruct rn as [|n rn].
  - destruct (IH H) as (b & a & rn' & -> & ? & ?). exists (m :: b), a, rn'. auto.
  - injection H as <-. exists [], rm, rn. auto.
Qed.

(** The validation errors are never the two "nothing eligible" errors. *)
Definition validation_error (e : AccountingError) : Prop :=
  e ≠ NoEligibleNode ∧ e ≠ NoEligibleModel.

Lemma bind_Err {E A B} (r : result E A) (k : A → result E B) e :
  r ≫= k = Err e ↔ r = Err e ∨ ∃ a, r = Ok a ∧ k a = Err e.
Proof. destruct r; simpl; naive_solver. Qed.

Lemma collect_some_Err {A B} (f : A → Result (option B)) l e :
  collect_some f l = Err e → ∃ a, a ∈ l ∧ f a = Err e.
Proof.
  induction l as [|a l IH]; simpl; [done|].
  rewrite bind_Err. intros [H|(o & _ & H)]; [exists a; set_solver|].
  apply bind_Err in H as [H|(r & _ & ?)]; [|done].
  destruct (IH H) as (x & ? & ?). exists x. set_solver.
Qed.

Ltac validation_tac :=
  repeat match goal with
  | H : _ ≫= _ = Err _ |- _ => apply bind_Err in H as [H|(? & ? & H)]
  | H : validate_identifier _ _ = Err _ |- _ => unfold validate_identifier in H
  | H : validate_unit_interval _ _ = Err _ |- _ => unfold validate_unit_interval in H
  | H : bail_if ?b _ = Err _ |- _ => destruct b; simpl in H; [injection H as <-|discriminate H]
  | H : Ok _ = Err _ |- _ => discriminate H
  end; try (split; discriminate).

Lemma score_node_Err req w n e : score_node req w n = Err e → validation_error e.
Proof.
  unfold score_node. intros H. validation_tac.
  destruct (node_filtered req n); [done|]. by destruct (normalized_coordinator_rtt_score _).
Qed.

Lemma rank_nodes_Err nodes id req e : rank_nodes nodes id req = Err e → validation_error e.
Proof.
  unfold rank_nodes, validate_node_weights, validate_weights. intros H. validation_tac.
  apply collect_some_Err in H as (n & _ & H). by eapply score_node_Err.
Qed.

Lemma route_models_NoEligible nodes req rm :
  route_models nodes req rm = Err NoEligibleNode ↔
  Forall (λ m, rank_nodes nodes (scored_id m) req = Ok []) rm.
Proof.
  induction rm as [|m rm IH]; simpl; [done|].
  rewrite Forall_cons, <-IH.
  destruct (rank_nodes nodes (scored_id m) req) as [[|n rn]|e] eqn:E; simpl; [naive_solver..|].
  apply rank_nodes_Err in E as [? _]. naive_solver.
Qed.

(** ** Lemmas: frequencies and midranks *)

Definition count_if (P : Z → bool) (cs : list ContributionRoutingCandidate) : Z :=
  Z.of_nat (length (List.filter (λ c, P (contribution_micro c)) cs)).

Definition sum_if (P : Z → bool) (l : list (Z * Z)) : Z :=
  foldr (λ kv acc, if P kv.1 then kv.2 + acc else acc) 0 l.

Lemma sum_if_perm P l l' : l ≡ₚ l' → sum_if P l = sum_if P l'.
Proof.
  induction 1 as [|x l l' _ IH|x y l|l1 l2 l3 _ IH1 _ IH2]; simpl; [done|..|congruence].
  - by rewrite IH.
  - destruct (P x.1), (P y.1); lia.
Qed.

Lemma sum_if_insert P (m : gmap Z Z) k v :
  sum_if P (map_to_list (<[k := v]> m))
    = sum_if P (map_to_list m) + (if P k then v - default 0 (m !! k) else 0).
Proof.
  destruct (m !! k) as [x|] eqn:E; simpl.
  - rewrite <-(insert_delete_eq m k v).
    rewrite (sum_if_perm P _ _ (map_to_list_insert (delete k m) k v (lookup_delete_eq m k))).
    rewrite <-(sum_if_perm P _ _ (map_to_list_delete m k x E)). simpl. destruct (P k); lia.
  - rewrite (sum_if_perm P _ _ (map_to_list_insert m k v E)). simpl. destruct (P k); lia.
Qed.

Lemma frequencies_snoc cs c :
  contribution_frequencies (cs ++ [c]) =
    <[contribution_micro c := default 0 (contribution_frequencies cs !! contribution_micro c) + 1]>
      (contribution_frequencies cs).
Proof. unfold contribution_frequencies. by rewrite foldl_app. Qed.

Lemma count_if_snoc P cs c :
  count_if P (cs ++ [c]) = count_if P cs + (if P (contribution_micro c) then 1 else 0).
Proof.
  unfold count_if. rewrite List.filter_app, length_app. simpl.
  destruct (P (contribution_micro c)); simpl; lia.
Qed.

Lemma frequencies_sum P cs :
  sum_if P (map_to_list (contribution_frequencies cs)) = count_if P cs.
Proof.
  induction cs as [|c cs IH] using rev_ind; [done|].
  rewrite frequencies_snoc, sum_if_insert, count_if_snoc, IH.
  destruct (P (contribution_micro c)); lia.
Qed.

Lemma frequencies_lookup cs k :
  contribution_frequencies cs !! k =
    if 0 <? count_if (Z.eqb k) cs then Some (count_if (Z.eqb k) cs) else None.
Proof.
  induction cs as [|c cs IH] using rev_ind; [done|].
  rewrite frequencies_snoc, count_if_snoc.
  assert (0 ≤ count_if (Z.eqb k) cs) by (unfold count_if; lia).
  destruct (Z.eqb_spec k (contribution_micro c)) as [<-|Hne].
  - rewrite lookup_insert_eq, IH.
    rewrite (proj2 (Z.ltb_lt 0 (count_if (Z.eqb k) cs + 1))) by lia.
    destruct (Z.ltb_spec 0 (count_if (Z.eqb k) cs)); simpl; f_equal; lia.
  - rewrite lookup_insert_ne by done. by rewrite Z.add_0_r.
Qed.

Lemma midrank_loop_keys n lower l : (midrank_loop n lower l).*1 = l.*1.
Proof.
  revert lower. induction l as [|[k t] l IH]; intros lower; simpl; [done|]. by rewrite IH.
Qed.

(** In a list sorted by distinct keys the loop's running total is the weight of
    the smaller keys. *)
Lemma midrank_loop_elem n lower l k t :
  StronglySorted (cmp_le (cmp_on fst Z.compare)) l → NoDup l.*1 → (k, t) ∈ l →
  (k, midrank_percentile n (lower + sum_if (λ k', k' <? k) l) t) ∈ midrank_loop n lower l.
Proof.
  revert lower. induction l as [|[k0 t0] l IH]; intros lower Hs Hd Hin; [set_solver|].
  apply StronglySorted_inv in Hs as [Hs Hall]. simpl in Hd. apply NoDup_cons in Hd as [Hn Hd].
  assert (∀ k' t', (k', t') ∈ l → k0 < k') as Hlt.
  { intros k' t' Hin'. rewrite Forall_forall in Hall. specialize (Hall _ Hin').
    unfold cmp_le, cmp_on in Hall. simpl in Hall. fold (Z.le k0 k') in Hall.
    assert (k' ≠ k0) by (intros ->; apply Hn; apply list_elem_of_fmap; by exists (k0, t')). lia. }
  simpl. apply elem_of_cons in Hin as [[= -> ->]|Hin].
  - rewrite Z.ltb_irrefl.
    assert (sum_if (λ k', k' <? k0) l = 0) as ->.
    { clear -Hlt. induction l as [|[k' t'] l IH]; simpl; [done|].
      rewrite (proj2 (Z.ltb_ge k' k0)).
      - apply IH. intros. apply (Hlt k'0 t'0). set_solver.
      - specialize (Hlt k' t' ltac:(set_solver)). lia. }
    rewrite Z.add_0_r. set_solver.
  - apply elem_of_cons. right.
    rewrite (proj2 (Z.ltb_lt k0 k)) by (by eapply Hlt).
    specialize (IH (lower + t0) Hs Hd Hin).
    by replace (lower + (t0 + sum_if (λ k', k' <? k) l))
      with (lower + t0 + sum_if (λ k', k' <? k) l) by lia.
Qed.

(** The percentile of a contribution held by someone in the cohort. *)
Lemma midrank_percentiles_lookup cs k :
  0 < count_if (Z.eqb k) cs →
  contribution_midrank_percentiles cs !! k =
    Some (midrank_percentile (Z.of_nat (length cs)) (count_if (λ k', k' <? k) cs)
            (count_if (Z.eqb k) cs)).
Proof.
  intros Hk. unfold contribution_midrank_percentiles, sorted_frequencies.
  set (l := sort_by (cmp_on fst Z.compare) (map_to_list (contribution_frequencies cs))).
  assert (l ≡ₚ map_to_list (contribution_frequencies cs)) as Hperm by apply sort_by_perm.
  assert (NoDup l.*1) as Hd.
  { rewrite Hperm. apply NoDup_fst_map_to_list. }
  apply elem_of_list_to_map_1; [by rewrite midrank_loop_keys|].
  rewrite <-frequencies_sum, <-(sum_if_perm _ _ _ Hperm).
  change (sum_if (λ k', k' <? k) l) with (0 + sum_if (λ k', k' <? k) l).
  apply midrank_loop_elem; [apply sort_by_sorted, _|done|].
  rewrite Hperm. apply elem_of_map_to_list. rewrite frequencies_lookup.
  by rewrite (proj2 (Z.ltb_lt _ _) Hk).
Qed.

Lemma count_if_disjoint cs k :
  count_if (λ k', k' <? k) cs + count_if (Z.eqb k) cs ≤ Z.of_nat (length cs).
Proof.
  unfold count_if. induction cs as [|c cs IH]; simpl; [lia|].
  destruct (Z.ltb_spec (contribution_micro c) k), (Z.eqb_spec k (contribution_micro c));
    simpl length; lia.
Qed.

Lemma midrank_percentile_exact n below tied :
  5 ≤ n → 0 ≤ below → 1 ≤ tied → below + tied ≤ n →
  midrank_percentile n below tied = (2 * below + tied - 1) * 1000000 / (2 * (n - 1))
  ∧ 0 ≤ midrank_percentile n below tied ≤ 1000000.
Proof.
  intros Hn Hb Ht Hle. unfold midrank_percentile, CONTRIBUTION_ROUTING_PERCENTILE_SCALE.
  rewrite div_trunc_floor by lia.
  set (x := (2 * below + tied - 1) * 1000000 / (2 * (n - 1))).
  assert (0 ≤ x ≤ 1000000) as Hx.
  { split; [apply Z.div_pos; lia|]. apply Z.div_le_upper_bound; lia. }
  unfold u32_try_from, checked, in_u32, u32_max.
  rewrite (proj2 (in_range_true _ _ _)) by lia. done.
Qed.

Lemma count_if_elem cs c :
  c ∈ cs → 0 < count_if (Z.eqb (contribution_micro c)) cs.
Proof.
  unfold count_if. induction cs as [|d cs IH]; [set_solver|].
  intros [->|H]%elem_of_cons; simpl.
  - rewrite Z.eqb_refl. simpl. lia.
  - specialize (IH H). destruct (_ =? _); simpl length; lia.
Qed.

(** ** Lemmas: exactness of the collecting loop *)

#[export] Instance model_eligible_dec req m : Decision (model_eligible req m).
Proof. unfold model_eligible. apply _. Defined.

#[export] Instance node_eligible_dec req n : Decision (node_eligible req n).
Proof.
  unfold node_eligible. repeat apply and_dec; try apply _.
  destruct (coordinator_rtt_ms n) as [r|]; [|left; discriminate].
  destruct (decide (1 ≤ r ≤ 1000)) as [Hr|Hr]; [left|right].
  - intros ? [= <-]. exact Hr.
  - intros H. exact (Hr (H r eq_refl)).
Defined.

Lemma collect_some_filter {A B C} (f : A → Result (option B)) (P : A → Prop)
    `{∀ a, Decision (P a)} (g : B → C) (h : A → C) l r :
  (∀ a b, f a = Ok (Some b) → P a ∧ g b = h a) →
  (∀ a, f a = Ok None → ¬ P a) →
  collect_some f l = Ok r → g <$> r = h <$> filter P l.
Proof.
  intros HS HN. revert r. induction l as [|a l IH]; intros r; simpl.
  - by intros [= <-].
  - intros Hc. apply bind_Ok in Hc as (o & Ho & Hc). apply bind_Ok in Hc as (r' & Hr & Hc).
    injection Hc as <-. specialize (IH _ Hr). destruct o as [b|].
    + destruct (HS _ _ Ho) as [HP Hg]. rewrite filter_cons_True by done. simpl. by f_equal.
    + rewrite filter_cons_False by (by apply HN). done.
Qed.

Lemma score_model_None req w m : score_model req w m = Ok None → ¬ model_eligible req m.
Proof.
  unfold score_model, model_eligible. intros H [Ha Hc]. ok_inv.
  rewrite Ha in *. simpl in *.
  destruct (Z.ltb_spec (context_length m) (minimum_context_length req)); [lia|done].
Qed.

Lemma rtt_score_None rtt :
  normalized_coordinator_rtt_score rtt = None → ∃ r, rtt = Some r ∧ ¬ (1 ≤ r ≤ 1000).
Proof.
  unfold normalized_coordinator_rtt_score, MAX_ROUTABLE_COORDINATOR_RTT_MS.
  destruct rtt as [r|]; [|done]. destruct (_ && _) eqn:E; [done|]. intros _.
  exists r. split; [done|]. intros ?. rewrite andb_false_iff, !Z.leb_gt in E. lia.
Qed.

Lemma score_node_None req w n : score_node req w n = Ok None → ¬ node_eligible req n.
Proof.
  unfold score_node, node_eligible. intros H (Hp & Hc & Hm & Hl & Ht & Hh & Hr). ok_inv.
  unfold node_filtered in *. rewrite Hp, Hc, Ht, Hh in *.
  rewrite (proj2 (Z.eqb_neq _ _) Hm), (proj2 (Z.leb_gt _ _) Hl) in *. simpl in *.
  destruct (normalized_coordinator_rtt_score _) as [s|] eqn:El; [done|].
  apply rtt_score_None in El as (r & Er & Hn). exact (Hn (Hr r Er)).
Qed.

(** A validated weight vector sums to a finite positive number. *)
Lemma validate_weights_Ok ws w :
  validate_weights ws = Ok w →
  w = f64_sum ws ∧ is_finite w = true ∧ f64_le w f64_zero = false
  ∧ Forall (λ x, is_finite x = true ∧ f64_lt x f64_zero = false) ws.
Proof.
  unfold validate_weights. intros H. ok_inv. int_inv.
  repeat match goal with H : negb _ = false |- _ => apply negb_false_iff in H end.
  split_and!; try done. apply Forall_forall. intros x Hx.
  match goal with H : existsb _ _ = false |- _ =>
    rewrite <-not_true_iff_false, existsb_exists in H; rename H into Hex end.
  destruct (is_finite x) eqn:Ef, (f64_lt x f64_zero) eqn:El; try done; exfalso; apply Hex;
    exists x; rewrite <-list_elem_of_In, Ef, El; done.
Qed.

(** ** Theorems: two-phase routing *)

(** The ranking of models is exact: it lists the identifiers of precisely the
    available models with enough context, each once per candidate, in
    descending score order with ties broken by identifier; the weights it
    divides by are finite, non-negative and sum to a positive number. *)
Theorem rank_models_exact models req r :
  rank_models models req = Ok r →
  scored_id <$> r ≡ₚ model_candidate_id <$> filter (model_eligible req) models
  ∧ StronglySorted (cmp_le scored_cmp) r
  ∧ ∃ w, validate_model_weights (model_weights req) = Ok w
      ∧ f64_le w f64_zero = false
      ∧ ∀ s, s ∈ r → ∃ m, m ∈ models
          ∧ s = mkScored (model_candidate_id m) (model_score (model_weights req) w m).
Proof.
  intros H. split_and!; [|by eapply rank_models_sorted|]; unfold rank_models, sort_scored in H;
    apply bind_Ok in H as (w & Hw & H); apply bind_Ok in H as (sc & Hsc & [= <-]).
  - rewrite sort_by_perm. erewrite (collect_some_filter _ (model_eligible req)); [done|..|exact Hsc].
    + apply score_model_Some.
    + apply score_model_None.
  - exists w. split; [done|]. split; [by destruct (validate_weights_Ok _ _ Hw) as (_ & _ & ? & _)|].
    intros s Hs. rewrite elem_of_sort_by in Hs.
    apply (collect_some_elem _ _ _ _ Hsc) in Hs as (m & Hm & Hf). exists m. split; [done|].
    unfold score_model in Hf. ok_inv. destruct (_ || _); ok_inv; done.
Qed.

(** The ranking of nodes for one model is exact: it lists precisely the
    nodes that serve that model, are allowed, closed-circuit, below capacity,
    trusted and healthy enough and reachable within the round-trip bound (or
    of unknown latency), in descending score order with ties broken by
    identifier. *)
Theorem rank_nodes_exact nodes id req r :
  rank_nodes nodes id req = Ok r →
  scored_id <$> r ≡ₚ
    node_candidate_id <$> filter (λ n, model_id n = id ∧ node_eligible req n) nodes
  ∧ StronglySorted (cmp_le scored_cmp) r.
Proof.
  intros H. split; [|by eapply rank_nodes_sorted]. unfold rank_nodes, sort_scored in H.
  do 3 apply bind_Ok in H as ([] & _ & H). apply bind_Ok in H as (w & Hw & H).
  apply bind_Ok in H as (sc & Hsc & [= <-]). rewrite sort_by_perm.
  erewrite (collect_some_filter _ (node_eligible req)); [| |apply score_node_None|exact Hsc];
    [|apply score_node_Some].
  replace (filter (node_eligible req) (List.filter (λ node, String.eqb (model_id node) id) nodes))
    with (filter (λ n, model_id n = id ∧ node_eligible req n) nodes); [done|].
  clear. induction nodes as [|n nodes IH]; [done|]. simpl.
  destruct (String.eqb_spec (model_id n) id) as [E|E].
  - destruct (decide (node_eligible req n)) as [Hn|Hn].
    + rewrite !filter_cons_True by done. by rewrite IH.
    + rewrite !filter_cons_False by tauto. done.
  - rewrite filter_cons_False by tauto. done.
Qed.

(** A routing decision is sound and best: the chosen model and node survive
    the hard filters, the node serves the model, the node is first in its
    ranking, and every model that would rank strictly ahead of the chosen one
    has no eligible node. *)
Theorem route_selects_best models nodes mreq nreq d :
  route models nodes mreq nreq = Ok d →
  (∃ m n, m ∈ models ∧ model_eligible mreq m
     ∧ scored_id (decided_model d) = model_candidate_id m
     ∧ n ∈ nodes ∧ node_eligible nreq n ∧ model_id n = model_candidate_id m
     ∧ scored_id (decided_node d) = node_candidate_id n)
  ∧ (∃ ranked, rank_models models mreq = Ok ranked ∧ decided_model d ∈ ranked
      ∧ ∀ s, s ∈ ranked → scored_cmp s (decided_model d) = Lt →
          ∀ n, n ∈ nodes → model_id n = scored_id s → ¬ node_eligible nreq n)
  ∧ ∃ ranked, rank_nodes nodes (scored_id (decided_model d)) nreq = Ok ranked
      ∧ decided_node d ∈ ranked ∧ ∀ s, s ∈ ranked → cmp_le scored_cmp (decided_node d) s.
Proof.
  unfold route. intros H. apply bind_Ok in H as (rm & Hrm & H).
  assert (route_models nodes nreq rm = Ok d) as Hd by (by destruct rm). clear H.
  apply route_models_Ok in Hd as (before & after & rn & E & Hbefore & Hrn).
  assert (decided_model d ∈ rm) as Hin by (rewrite E; set_solver).
  destruct (rank_models_elem _ _ _ _ Hrm Hin) as (m & Hm & Hel & Hid).
  destruct (rank_nodes_elem _ _ _ _ (decided_node d) Hrn ltac:(set_solver))
    as (n & Hn & Hnm & Hnel & Hnid).
  split_and!.
  - exists m, n. split_and!; try done; try (apply Hel || apply Hnel). congruence.
  - exists rm. split_and!; [done..|]. intros s Hs Hlt n' Hn' Hmid Hnel'.
    assert (s ∈ before) as Hsb.
    { rewrite E in Hs. apply elem_of_app in Hs as [|Hs]; [done|exfalso].
      apply rank_models_sorted in Hrm. rewrite E in Hrm.
      apply StronglySorted_app in Hrm as (_ & _ & Hs2).
      apply elem_of_cons in Hs as [->|Hs].
      + by rewrite (cmp_refl scored_cmp) in Hlt.
      + apply StronglySorted_inv in Hs2 as [_ Hall]. rewrite Forall_forall in Hall.
        specialize (Hall _ Hs). unfold cmp_le in Hall. rewrite (cmp_antisym scored_cmp) in Hall.
        by rewrite Hlt in Hall. }
    rewrite Forall_forall in Hbefore. specialize (Hbefore _ Hsb).
    unfold rank_nodes, sort_scored in Hbefore. ok_inv.
    match goal with H : sort_by _ _ = [] |- _ => apply sort_by_nil_inv in H as -> end.
    match goal with H : collect_some _ _ = Ok [] |- _ =>
      apply (collect_some_filter _ (node_eligible nreq) scored_id node_candidate_id) in H as Hf end;
      [|apply score_node_Some|apply score_node_None].
    symmetry in Hf. apply fmap_nil_inv in Hf. eapply filter_nil_not_elem_of; [exact Hf|exact Hnel'|].
    apply list_elem_of_In, filter_In. split; [by apply list_elem_of_In|]. by apply String.eqb_eq.
  - exists (decided_node d :: rn). split_and!; [done|set_solver|].
    intros s [->|Hs]%elem_of_cons; [apply cmp_le_refl, _|].
    apply rank_nodes_sorted, StronglySorted_inv in Hrn as [_ Hall].
    rewrite Forall_forall in Hall. by apply Hall.
Qed.

Lemma rank_models_Err models req e : rank_models models req = Err e → validation_error e.
Proof.
  unfold rank_models, validate_model_weights, validate_weights. intros H. validation_tac.
  apply collect_some_Err in H as (m & _ & H). unfold score_model in H. validation_tac.
  by destruct (negb (available m) || (context_length m <? minimum_context_length req)).
Qed.

(** The two "nothing eligible" errors are precise: [NoEligibleModel] exactly
    when the ranking of models is empty, [NoEligibleNode] exactly when models
    rank but none of them has a ranked node; a malformed candidate or weight
    is never reported as either. *)
Theorem route_errors models nodes mreq nreq :
  (route models nodes mreq nreq = Err NoEligibleModel ↔ rank_models models mreq = Ok [])
  ∧ (route models nodes mreq nreq = Err NoEligibleNode ↔
      ∃ ranked, rank_models models mreq = Ok ranked ∧ ranked ≠ []
        ∧ ∀ s, s ∈ ranked → rank_nodes nodes (scored_id s) nreq = Ok []).
Proof.
  unfold route. destruct (rank_models models mreq) as [[|s rm]|e] eqn:E.
  - split; [done|]. split; [done|]. intros (? & [= <-] & ? & _). done.
  - change (Ok (s :: rm) ≫= _) with (route_models nodes nreq (s :: rm)). split.
    + split; [|done]. intros H. exfalso. clear E.
      assert (∀ l, route_models nodes nreq l ≠ Err NoEligibleModel) as Hl; [|by apply (Hl _ H)].
      clear. intros l. induction l as [|m l IH]; simpl; [done|].
      destruct (rank_nodes _ _ _) as [[|n rn]|e] eqn:En; simpl; [done..|].
      apply rank_nodes_Err in En as [_ ?]. congruence.
    + rewrite route_models_NoEligible, Forall_forall. split; [|by intros (? & [= <-] & _ & ?)].
      intros. exists (s :: rm). done.
  - simpl. apply rank_models_Err in E as []. split; [naive_solver|]. split; [naive_solver|].
    by intros (? & ? & _).
Qed.

(** ** Theorems: contribution routing *)

Lemma count_if_lt_mono cs k1 k2 :
  k1 < k2 →
  count_if (λ k', k' <? k1) cs + count_if (Z.eqb k1) cs ≤ count_if (λ k', k' <? k2) cs.
Proof.
  intros Hk. unfold count_if. induction cs as [|c cs IH]; simpl; [lia|].
  destruct (Z.ltb_spec (contribution_micro c) k1), (Z.eqb_spec k1 (contribution_micro c)),
    (Z.ltb_spec (contribution_micro c) k2); simpl length; lia.
Qed.

Lemma count_if_nonneg P cs : 0 ≤ count_if P cs.
Proof. unfold count_if. lia. Qed.

(** The percentile of a candidate of the cohort, in closed form. *)
Definition midrank_spec (cs : list ContributionRoutingCandidate) (k : Z) : Z :=
  (2 * count_if (λ k', k' <? k) cs + count_if (Z.eqb k) cs - 1) * 1000000
    / (2 * (Z.of_nat (length cs) - 1)).

Lemma percentile_is_spec cs c :
  5 ≤ Z.of_nat (length cs) → c ∈ cs →
  contribution_midrank_percentiles cs !! contribution_micro c
    = Some (midrank_spec cs (contribution_micro c))
  ∧ 0 ≤ midrank_spec cs (contribution_micro c) ≤ 1000000.
Proof.
  intros Hn Hc. apply count_if_elem in Hc as Hpos.
  rewrite midrank_percentiles_lookup by done.
  pose proof (count_if_disjoint cs (contribution_micro c)).
  destruct (midrank_percentile_exact (Z.of_nat (length cs))
    (count_if (λ k', k' <? contribution_micro c) cs)
    (count_if (Z.eqb (contribution_micro c)) cs)) as [E Hr]; [lia|apply count_if_nonneg|lia|lia|].
  rewrite E in Hr |- *. done.
Qed.

Lemma midrank_spec_mono cs c1 c2 :
  5 ≤ Z.of_nat (length cs) → c1 ∈ cs → c2 ∈ cs →
  contribution_micro c1 < contribution_micro c2 →
  midrank_spec cs (contribution_micro c1) ≤ midrank_spec cs (contribution_micro c2)
  ∧ (Z.of_nat (length cs) ≤ 1000001 →
      midrank_spec cs (contribution_micro c1) < midrank_spec cs (contribution_micro c2)).
Proof.
  intros Hn H1%count_if_elem H2%count_if_elem Hk.
  pose proof (count_if_lt_mono cs _ _ Hk). unfold midrank_spec.
  set (b1 := count_if (λ k', k' <? contribution_micro c1) cs) in *.
  set (b2 := count_if (λ k', k' <? contribution_micro c2) cs) in *.
  set (t1 := count_if (Z.eqb (contribution_micro c1)) cs) in *.
  set (t2 := count_if (Z.eqb (contribution_micro c2)) cs) in *.
  split; [apply Z.div_le_mono; lia|]. intros Hle.
  set (d := 2 * (Z.of_nat (length cs) - 1)) in *.
  assert ((2 * b1 + t1 - 1) * 1000000 / d + 1 ≤ (2 * b2 + t2 - 1) * 1000000 / d); [|lia].
  rewrite <-Z.div_add by lia. rewrite Z.mul_1_l. apply Z.div_le_mono; lia.
Qed.

(** The contribution percentile of every cohort member is the midrank
    floor((2*below + tied - 1) * 10^6 / (2*(n-1))), lies in 0..=10^6, is equal
    for equal contributions and monotone in the contribution, strictly so for
    cohorts of at most 1,000,001 members. *)
Theorem contribution_percentile_midrank cs c1 c2 :
  CONTRIBUTION_ROUTING_MIN_COHORT ≤ Z.of_nat (length cs) → c1 ∈ cs → c2 ∈ cs →
  contribution_micro c1 < contribution_micro c2 →
  ∃ p1 p2, contribution_midrank_percentiles cs !! contribution_micro c1 = Some p1
    ∧ contribution_midrank_percentiles cs !! contribution_micro c2 = Some p2
    ∧ p1 = midrank_spec cs (contribution_micro c1)
    ∧ 0 ≤ p1 ≤ p2 ∧ p2 ≤ CONTRIBUTION_ROUTING_PERCENTILE_SCALE
    ∧ (Z.of_nat (length cs) ≤ 1000001 → p1 < p2).
Proof.
  unfold CONTRIBUTION_ROUTING_MIN_COHORT, CONTRIBUTION_ROUTING_PERCENTILE_SCALE.
  intros Hn H1 H2 Hk.
  destruct (percentile_is_spec cs c1 Hn H1) as [E1 ?], (percentile_is_spec cs c2 Hn H2) as [E2 ?].
  destruct (midrank_spec_mono cs c1 c2 Hn H1 H2 Hk).
  exists (midrank_spec cs (contribution_micro c1)), (midrank_spec cs (contribution_micro c2)).
  split_and!; try done; lia.
Qed.

Lemma rank_contribution_Ok cs demand slots r :
  rank_contribution_candidates cs demand slots = Ok r →
  validate_contribution_candidates ∅ cs = Ok tt
  ∧ r = sort_by ranked_cmp
      (rank_candidate (contribution_enabled cs demand slots) (max_base_score cs)
         (if contribution_enabled cs demand slots
          then contribution_midrank_percentiles cs else ∅) <$> cs).
Proof. unfold rank_contribution_candidates. intros H. apply bind_Ok in H as ([] & ? & [= <-]). done. Qed.

Lemma validate_contribution_NoDup seen cs :
  validate_contribution_candidates seen cs = Ok tt →
  NoDup (candidate_id <$> cs)
  ∧ (∀ c, c ∈ cs → candidate_id c ∉ seen ∧ 0 ≤ base_score c ∧ 0 ≤ contribution_micro c).
Proof.
  revert seen. induction cs as [|c cs IH]; intros seen; simpl.
  - split; [apply NoDup_nil_2|set_solver].
  - intros H. ok_inv.
    match goal with H : bool_decide _ = false |- _ => apply bool_decide_eq_false in H end.
    match goal with H : validate_contribution_candidates _ _ = Ok _ |- _ => apply IH in H as [Hd Hr] end.
    int_inv. split.
    + apply NoDup_cons. split; [|done]. intros (c' & E & Hc')%list_elem_of_fmap.
      apply Hr in Hc' as [Hc' _]. set_solver.
    + intros c' [->|Hc']%elem_of_cons; [done|]. apply Hr in Hc' as (? & ? & ?). set_solver.
Qed.

Lemma ranked_elem cs demand slots r x :
  rank_contribution_candidates cs demand slots = Ok r → x ∈ r →
  ∃ c, c ∈ cs ∧ ranked_id x = candidate_id c ∧ ranked_base_score x = base_score c
    ∧ ranked_contribution_micro x = contribution_micro c
    ∧ contribution_percentile_ppm x =
        if contribution_enabled cs demand slots && within_near_best (max_base_score cs) c
        then Some (midrank_spec cs (contribution_micro c)) else None.
Proof.
  intros [_ ->]%rank_contribution_Ok (c & -> & Hc)%elem_of_sort_by%list_elem_of_fmap.
  exists c. split_and!; try done. simpl.
  destruct (contribution_enabled cs demand slots) eqn:E; simpl; [|done].
  destruct (within_near_best _ c); [|done]. unfold contribution_enabled in E.
  apply andb_true_iff in E as [E%Z.leb_le _]. by apply percentile_is_spec.
Qed.

(** Contribution routing never adds, drops or rescores a candidate: the
    ranking is a permutation of the (unique) input identifiers with their base
    scores and contributions, sorted by the ranking order, and without
    congestion or with a small cohort no percentile is assigned. *)
Theorem contribution_ranking_permutes cs demand slots r :
  rank_contribution_candidates cs demand slots = Ok r →
  (λ x, (ranked_id x, ranked_base_score x, ranked_contribution_micro x)) <$> r
    ≡ₚ (λ c, (candidate_id c, base_score c, contribution_micro c)) <$> cs
  ∧ NoDup (ranked_id <$> r) ∧ StronglySorted (cmp_le ranked_cmp) r
  ∧ (demand ≤ slots ∨ Z.of_nat (length cs) < 5 →
      ∀ x, x ∈ r → contribution_percentile_ppm x = None).
Proof.
  intros H. pose proof H as [Hv ->]%rank_contribution_Ok.
  apply validate_contribution_NoDup in Hv as [Hd _]. split_and!.
  - rewrite sort_by_perm, <-list_fmap_compose. done.
  - rewrite sort_by_perm, <-list_fmap_compose. done.
  - apply sort_by_sorted, _.
  - intros Hoff x Hx. apply (ranked_elem _ _ _ _ _ H) in Hx as (c & _ & _ & _ & _ & ->).
    replace (contribution_enabled cs demand slots) with false; [done|].
    symmetry. unfold contribution_enabled, CONTRIBUTION_ROUTING_MIN_COHORT.
    apply andb_false_iff. rewrite Z.leb_gt, Z.ltb_ge. lia.
Qed.

(** Under congestion contribution comes first, but only among comparable
    candidates: whoever is within 98% of the best base score precedes everyone
    who is not, and of two such candidates the larger contributor precedes. *)
Theorem contribution_first_among_near_best cs demand slots r i j x y :
  rank_contribution_candidates cs demand slots = Ok r →
  contribution_enabled cs demand slots = true →
  Z.of_nat (length cs) ≤ 1000001 →
  r !! i = Some x → r !! j = Some y →
  max_base_score cs * 98 ≤ ranked_base_score x * 100 →
  ranked_base_score y * 100 < max_base_score cs * 98
    ∨ ranked_contribution_micro y < ranked_contribution_micro x →
  (i < j)%nat.
Proof.
  intros H He Hlen Hx Hy Hnx Hy'.
  destruct (ranked_elem _ _ _ _ x H) as (c & Hc & _ & Ebc & Ekc & Ec);
    [by eapply list_elem_of_lookup_2|].
  destruct (ranked_elem _ _ _ _ y H) as (e & Hin & _ & Ebe & Eke & Ee);
    [by eapply list_elem_of_lookup_2|].
  rewrite He in Ec, Ee. unfold within_near_best, CONTRIBUTION_ROUTING_NEAR_BEST_NUMERATOR,
    CONTRIBUTION_ROUTING_NEAR_BEST_DENOMINATOR in Ec, Ee.
  rewrite (proj2 (Z.leb_le _ _)) in Ec by lia. simpl in Ec, Ee.
  assert (ranked_cmp x y = Lt) as Hlt.
  { unfold ranked_cmp, cmp_then, cmp_rev, cmp_on. rewrite Ec, Ee.
    destruct (Z.leb_spec (max_base_score cs * 98) (base_score e * 100)) as [Hl|Hl]; [|done].
    simpl. rewrite (proj2 (Z.compare_lt_iff _ _)); [done|].
    unfold contribution_enabled in He. apply andb_true_iff in He as [He%Z.leb_le _].
    apply midrank_spec_mono; [exact He|done..| lia |done]. }
  apply rank_contribution_Ok in H as [_ ->].
  destruct (decide (i < j)%nat) as [|Hij]; [done|exfalso].
  destruct (decide (i = j)) as [->|Hne].
  { simplify_eq. by rewrite (cmp_refl ranked_cmp) in Hlt. }
  assert (cmp_le ranked_cmp y x) as Hle.
  { eapply (sorted_lookup _ _ j i); [apply sort_by_sorted, _|done..|lia]. }
  unfold cmp_le in Hle. rewrite (cmp_antisym ranked_cmp), Hlt in Hle. done.
Qed.

(** ** Witnesses *)

Definition sample_models : list ModelCandidate :=
  [mkModelCandidate "m-small" (f64_lit 6 10) (f64_lit 5 10) (f64_lit 1 10) true 4096;
   mkModelCandidate "m-large" (f64_lit 9 10) (f64_lit 8 10) (f64_lit 4 10) true 8192;
   mkModelCandidate "m-off" f64_one f64_one f64_zero false 8192].

Definition sample_node (id model : string) (rtt : option Z) (running : Z) : NodeCandidate :=
  mkNodeCandidate id model (f64_lit 8 10) (f64_lit 9 10) rtt (f64_lit 5 10) running 4
    f64_zero true false.

Definition sample_nodes : list NodeCandidate :=
  [sample_node "n-busy" "m-large" (Some 20) 4; sample_node "n-far" "m-large" (Some 1001) 0;
   sample_node "n-b" "m-small" None 0; sample_node "n-a" "m-small" (Some 30) 1].

Definition sample_cohort : list ContributionRoutingCandidate :=
  [mkContributionCandidate "a" 1000 5; mkContributionCandidate "b" 990 9;
   mkContributionCandidate "c" 985 9; mkContributionCandidate "d" 500 1000;
   mkContributionCandidate "e" 1000 0].

(** What [rank_nodes] and [route] return on the sample. *)
Definition sample_ranking : list ContributionRoutingRankedCandidate :=
  match rank_contribution_candidates sample_cohort 3 1 with Ok r => r | Err _ => [] end.

Example sample_ranking_ids : ranked_id <$> sample_ranking = ["b"; "c"; "a"; "e"; "d"].
Proof. vm_compute. reflexivity. Qed.

Definition sample_decision : RoutingDecision :=
  match route sample_models sample_nodes model_requirements_default node_requirements_default with
  | Ok d => d
  | Err _ => mkRoutingDecision (mkScored "" f64_zero) (mkScored "" f64_zero)
  end.

Example sample_decision_ids :
  (scored_id (decided_model sample_decision), scored_id (decided_node sample_decision))
  = ("m-small", "n-a").
Proof. vm_compute. reflexivity. Qed.

Definition ranked_or_nil (r : Result (list ScoredCandidate)) : list ScoredCandidate :=
  match r with Ok l => l | Err _ => [] end.

Lemma rank_models_exact_witness :
  ∃ r, rank_models sample_models model_requirements_default = Ok r ∧ length r = 2%nat
    ∧ StronglySorted (cmp_le scored_cmp) r.
Proof.
  exists (ranked_or_nil (rank_models sample_models model_requirements_default)).
  split; [vm_compute; reflexivity|]. split; [vm_compute; reflexivity|].
  refine (proj1 (proj2 (rank_models_exact sample_models model_requirements_default _ _))).
  vm_compute. reflexivity.
Defined.

Lemma rank_nodes_exact_witness :
  ∃ r, rank_nodes sample_nodes "m-small" node_requirements_default = Ok r
    ∧ scored_id <$> r = ["n-a"; "n-b"] ∧ StronglySorted (cmp_le scored_cmp) r.
Proof.
  exists (ranked_or_nil (rank_nodes sample_nodes "m-small" node_requirements_default)).
  split; [vm_compute; reflexivity|]. split; [vm_compute; reflexivity|].
  refine (proj2 (rank_nodes_exact sample_nodes "m-small" node_requirements_default _ _)).
  vm_compute. reflexivity.
Defined.

Lemma route_selects_best_witness :
  route sample_models sample_nodes model_requirements_default node_requirements_default
    = Ok sample_decision
  ∧ ∃ m n, m ∈ sample_models ∧ model_eligible model_requirements_default m
     ∧ scored_id (decided_model sample_decision) = model_candidate_id m
     ∧ n ∈ sample_nodes ∧ node_eligible node_requirements_default n
     ∧ model_id n = model_candidate_id m
     ∧ scored_id (decided_node sample_decision) = node_candidate_id n.
Proof.
  split; [vm_compute; reflexivity|].
  refine (proj1 (route_selects_best sample_models sample_nodes model_requirements_default
    node_requirements_default sample_decision _)).
  vm_compute. reflexivity.
Defined.

Lemma contribution_percentile_midrank_witness :
  ∃ p1 p2, contribution_midrank_percentiles sample_cohort !! 5 = Some p1
    ∧ contribution_midrank_percentiles sample_cohort !! 9 = Some p2 ∧ 0 ≤ p1 ≤ p2.
Proof.
  destruct (contribution_percentile_midrank sample_cohort (mkContributionCandidate "a" 1000 5)
    (mkContributionCandidate "b" 990 9)) as (p1 & p2 & H1 & H2 & _ & H3 & _).
  - vm_compute. discriminate.
  - apply elem_of_cons. left. reflexivity.
  - apply elem_of_cons. right. apply elem_of_cons. left. reflexivity.
  - vm_compute. reflexivity.
  - exists p1, p2. exact (conj H1 (conj H2 H3)).
Defined.

Lemma contribution_ranking_permutes_witness :
  rank_contribution_candidates sample_cohort 3 1 = Ok sample_ranking
  ∧ NoDup (ranked_id <$> sample_ranking).
Proof.
  split; [vm_compute; reflexivity|].
  refine (proj1 (proj2 (contribution_ranking_permutes sample_cohort 3 1 sample_ranking _))).
  vm_compute. reflexivity.
Defined.

Lemma contribution_first_among_near_best_witness :
  rank_contribution_candidates sample_cohort 3 1 = Ok sample_ranking ∧ (0 < 2)%nat.
Proof.
  split; [vm_compute; reflexivity|].
  refine (contribution_first_among_near_best sample_cohort 3 1 sample_ranking 0 2
    (mkRanked "b" 990 9 (Some 625000)) (mkRanked "a" 1000 5 (Some 250000)) _ _ _ _ _ _ _).
  - vm_compute. reflexivity.
  - vm_compute. reflexivity.
  - vm_compute. discriminate.
  - vm_compute. reflexivity.
  - vm_compute. reflexivity.
  - vm_compute. discriminate.
  - right. vm_compute. reflexivity.
Defined.
