(* ===== verification/Billing.v ===== *)
(** * Physical billing: crates/mindone-accounting/src/billing.rs

    The server-reference upper-bound contract: profile validation, the
    three-component quote and the reservation a job creation takes. *)
From S2P Require Import Prelude Text Fixed.

Local Open Scope string_scope.
Local Open Scope Z_scope.

(** ** Constants and data *)

Definition SERVER_REFERENCE_UPPER_BOUND_V1 : string := "server_reference_upper_bound_v1".
Definition TOKENS_PER_RATE_UNIT : Z := 1000.
Definition MICROSECONDS_PER_SECOND : Z := 1000000.
Definition MIB_PER_GIB : Z := 1024.
Definition MIB_MICROSECONDS_PER_GIB_SECOND : Z := MIB_PER_GIB * MICROSECONDS_PER_SECOND.

Record ServerReferenceBillingProfile : Type := mkProfile {
  maximum_input_tokens : Z;
  maximum_output_tokens : Z;
  fixed_gpu_time_us : Z;
  gpu_time_us_per_1k_tokens : Z;
  reference_vram_mib : Z;
  token_rate_micro_per_1k : Z;
  gpu_rate_micro_per_second : Z;
  vram_rate_micro_per_gib_second : Z;
}.

Record PhysicalBillingQuote : Type := mkQuote {
  billable_tokens : Z;
  reference_gpu_time_us : Z;
  reference_vram_mib_microseconds : Z;
  token_cost : MicroQuota;
  gpu_cost : MicroQuota;
  vram_cost : MicroQuota;
  quote_base_cost : MicroQuota;
}.

(** ** Checked helpers *)

Definition require_nonnegative (value : Z) (field : string) : Result () :=
  if value <? 0 then Err (NegativeAmount field) else Ok tt.

Definition require_positive (value : Z) (field : string) : Result () :=
  _ ← require_nonnegative value field;
  if value =? 0 then Err (InvalidBilling (field +:+ " 必须大于零")) else Ok tt.

Definition checked_add_i64 (left right : Z) (operation : string) : Result Z :=
  sum ← ok_or (i128_checked_add left right) (Overflow operation);
  ok_or (i64_try_from sum) (Overflow operation).

Definition checked_mul_i64 (left right : Z) (operation : string) : Result Z :=
  product ← ok_or (i128_checked_mul left right) (Overflow operation);
  ok_or (i64_try_from product) (Overflow operation).

Definition ceil_mul_div (left right denominator : Z) (operation : string) : Result Z :=
  _ ← require_nonnegative left "billing_multiplicand";
  _ ← require_nonnegative right "billing_multiplier";
  product ← ok_or (i128_checked_mul left right) (Overflow operation);
  adjusted ← ok_or (i128_checked_add product (denominator - 1)) (Overflow operation);
  ok_or (i64_try_from (div_trunc adjusted denominator)) (Overflow operation).

(** ** Operations *)

(** [ServerReferenceBillingProfile::validate]. *)
Definition validate (self : ServerReferenceBillingProfile) : Result () :=
  _ ← require_nonnegative (maximum_input_tokens self) "maximum_input_tokens";
  _ ← require_positive (maximum_output_tokens self) "maximum_output_tokens";
  _ ← require_nonnegative (fixed_gpu_time_us self) "fixed_gpu_time_us";
  _ ← require_positive (gpu_time_us_per_1k_tokens self) "gpu_time_us_per_1k_tokens";
  _ ← require_positive (reference_vram_mib self) "reference_vram_mib";
  _ ← require_positive (token_rate_micro_per_1k self) "token_rate_micro_per_1k";
  _ ← require_positive (gpu_rate_micro_per_second self) "gpu_rate_micro_per_second";
  _ ← require_positive (vram_rate_micro_per_gib_second self) "vram_rate_micro_per_gib_second";
  maximum_billable_tokens ← checked_add_i64 (maximum_input_tokens self)
    (maximum_output_tokens self) "profile token 上界";
  maximum_variable_gpu_time_us ← ceil_mul_div maximum_billable_tokens
    (gpu_time_us_per_1k_tokens self) TOKENS_PER_RATE_UNIT "profile GPU 时间上界";
  maximum_gpu_time_us ← checked_add_i64 (fixed_gpu_time_us self)
    maximum_variable_gpu_time_us "profile GPU 时间上界求和";
  maximum_vram_integral ← checked_mul_i64 maximum_gpu_time_us
    (reference_vram_mib self) "profile 显存积分上界";
  token_amount ← ceil_mul_div maximum_billable_tokens (token_rate_micro_per_1k self)
    TOKENS_PER_RATE_UNIT "profile token 成本上界";
  maximum_token_cost ← MicroQuota.new token_amount;
  gpu_amount ← ceil_mul_div maximum_gpu_time_us (gpu_rate_micro_per_second self)
    MICROSECONDS_PER_SECOND "profile GPU 成本上界";
  maximum_gpu_cost ← MicroQuota.new gpu_amount;
  vram_amount ← ceil_mul_div maximum_vram_integral (vram_rate_micro_per_gib_second self)
    MIB_MICROSECONDS_PER_GIB_SECOND "profile 显存成本上界";
  maximum_vram_cost ← MicroQuota.new vram_amount;
  partial ← MicroQuota.checked_add maximum_token_cost maximum_gpu_cost;
  maximum_base_cost ← MicroQuota.checked_add partial maximum_vram_cost;
  _ ← Settlement.calculate maximum_base_cost High Enhanced;
  Ok tt.

Definition quote_server_reference_upper_bound (profile : ServerReferenceBillingProfile)
    (billable_tokens : Z) : Result PhysicalBillingQuote :=
  _ ← validate profile;
  _ ← require_positive billable_tokens "billable_tokens";
  maximum_billable_tokens ← checked_add_i64 (maximum_input_tokens profile)
    (maximum_output_tokens profile) "profile token 上界";
  _ ← bail_if (maximum_billable_tokens <? billable_tokens)
    (InvalidBilling "billable_tokens 超过 profile 授权上界");
  variable_gpu_time_us ← ceil_mul_div billable_tokens
    (gpu_time_us_per_1k_tokens profile) TOKENS_PER_RATE_UNIT "参考 GPU 时间";
  reference_gpu_time_us ← checked_add_i64 (fixed_gpu_time_us profile)
    variable_gpu_time_us "参考 GPU 时间求和";
  reference_vram_mib_microseconds ← checked_mul_i64 reference_gpu_time_us
    (reference_vram_mib profile) "参考显存积分";
  token_amount ← ceil_mul_div billable_tokens (token_rate_micro_per_1k profile)
    TOKENS_PER_RATE_UNIT "token 计费";
  token_cost ← MicroQuota.new token_amount;
  gpu_amount ← ceil_mul_div reference_gpu_time_us (gpu_rate_micro_per_second profile)
    MICROSECONDS_PER_SECOND "GPU 时间计费";
  gpu_cost ← MicroQuota.new gpu_amount;
  vram_amount ← ceil_mul_div reference_vram_mib_microseconds
    (vram_rate_micro_per_gib_second profile)
    MIB_MICROSECONDS_PER_GIB_SECOND "显存积分计费";
  vram_cost ← MicroQuota.new vram_amount;
  partial ← MicroQuota.checked_add token_cost gpu_cost;
  base_cost ← MicroQuota.checked_add partial vram_cost;
  mret (mkQuote billable_tokens reference_gpu_time_us reference_vram_mib_microseconds
    token_cost gpu_cost vram_cost base_cost).

Definition maximum_reservation_quote (profile : ServerReferenceBillingProfile)
    (authorized_input_tokens authorized_max_output_tokens : Z) : Result PhysicalBillingQuote :=
  _ ← require_nonnegative authorized_input_tokens "authorized_input_tokens";
  _ ← require_positive authorized_max_output_tokens "authorized_max_output_tokens";
  _ ← bail_if ((maximum_input_tokens profile <? authorized_input_tokens)
      || (maximum_output_tokens profile <? authorized_max_output_tokens))
    (InvalidBilling "授权 token 超过 profile 上界");
  billable_tokens ← checked_add_i64 authorized_input_tokens
    authorized_max_output_tokens "准备金 token 上界";
  quote_server_reference_upper_bound profile billable_tokens.

Definition maximum_reservation_micro (profile : ServerReferenceBillingProfile)
    (authorized_input_tokens authorized_max_output_tokens : Z) : Result MicroQuota :=
  quote ← maximum_reservation_quote profile authorized_input_tokens
    authorized_max_output_tokens;
  settlement ← Settlement.calculate (quote_base_cost quote) High Enhanced;
  mret (user_deduction settlement).

(** ** Specification: the pricing formula over unbounded integers

    G(n) = fixed + ceil(n * gpu_us_per_1k / 1000), V(n) = G(n) * vram, and each
    money component rounded up on its own before they are added. *)
Section formula.
Context (p : ServerReferenceBillingProfile).

Definition gpu_time_spec (n : Z) : Z :=
  fixed_gpu_time_us p + ceil_quot (n * gpu_time_us_per_1k_tokens p) 1000.
Definition vram_spec (n : Z) : Z := gpu_time_spec n * reference_vram_mib p.
Definition token_cost_spec (n : Z) : Z :=
  ceil_quot (n * token_rate_micro_per_1k p) 1000.
Definition gpu_cost_spec (n : Z) : Z :=
  ceil_quot (gpu_time_spec n * gpu_rate_micro_per_second p) 1000000.
Definition vram_cost_spec (n : Z) : Z :=
  ceil_quot (vram_spec n * vram_rate_micro_per_gib_second p) 1024000000.
Definition base_cost_spec (n : Z) : Z :=
  token_cost_spec n + gpu_cost_spec n + vram_cost_spec n.
Definition quote_spec (n : Z) : PhysicalBillingQuote :=
  mkQuote n (gpu_time_spec n) (vram_spec n) (mkMicroQuota (token_cost_spec n))
    (mkMicroQuota (gpu_cost_spec n)) (mkMicroQuota (vram_cost_spec n))
    (mkMicroQuota (base_cost_spec n)).

(** The type of the eight fields: they are i64. *)
Definition profile_i64 : Prop :=
  Forall (λ z, in_i64 z = true)
    [maximum_input_tokens p; maximum_output_tokens p; fixed_gpu_time_us p;
     gpu_time_us_per_1k_tokens p; reference_vram_mib p; token_rate_micro_per_1k p;
     gpu_rate_micro_per_second p; vram_rate_micro_per_gib_second p].

(** The sign conditions of [validate]. *)
Definition profile_signs : Prop :=
  0 ≤ maximum_input_tokens p ∧ 0 < maximum_output_tokens p
  ∧ 0 ≤ fixed_gpu_time_us p ∧ 0 < gpu_time_us_per_1k_tokens p
  ∧ 0 < reference_vram_mib p ∧ 0 < token_rate_micro_per_1k p
  ∧ 0 < gpu_rate_micro_per_second p ∧ 0 < vram_rate_micro_per_gib_second p.

(** Everything the quote of [n] tokens stores fits an i64. *)
Definition quote_fits (n : Z) : Prop :=
  ceil_quot (n * gpu_time_us_per_1k_tokens p) 1000 ≤ i64_max
  ∧ gpu_time_spec n ≤ i64_max ∧ vram_spec n ≤ i64_max
  ∧ token_cost_spec n ≤ i64_max ∧ gpu_cost_spec n ≤ i64_max
  ∧ vram_cost_spec n ≤ i64_max
  ∧ token_cost_spec n + gpu_cost_spec n ≤ i64_max ∧ base_cost_spec n ≤ i64_max.

Definition profile_maximum : Z := maximum_input_tokens p + maximum_output_tokens p.
End formula.

(** ** Lemmas on the helpers *)

Lemma require_nonnegative_Ok v f u : require_nonnegative v f = Ok u ↔ 0 ≤ v.
Proof. unfold require_nonnegative. destruct u, (Z.ltb_spec v 0); naive_solver lia. Qed.

Lemma require_positive_Ok v f u : require_positive v f = Ok u ↔ 0 < v.
Proof.
  unfold require_positive. rewrite bind_Ok. setoid_rewrite require_nonnegative_Ok.
  destruct u, (Z.eqb_spec v 0); split; try (intros (? & ? & ?); done || lia).
  - lia.
  - intros. exists tt. split; [lia|done].
Qed.

Lemma checked_add_i64_Ok a b op z :
  in_i64 a = true → in_i64 b = true →
  checked_add_i64 a b op = Ok z ↔ in_i64 (a + b) = true ∧ z = a + b.
Proof.
  intros. unfold checked_add_i64, i128_checked_add, i64_try_from.
  rewrite checked_true by (int_inv; apply in_range_true; lia). simpl.
  by rewrite ok_or_Ok, checked_Some.
Qed.

Lemma checked_mul_i64_Ok a b op z :
  in_i64 a = true → in_i64 b = true →
  checked_mul_i64 a b op = Ok z ↔ in_i64 (a * b) = true ∧ z = a * b.
Proof.
  intros. unfold checked_mul_i64, i128_checked_mul, i64_try_from.
  rewrite checked_true by (int_inv; apply in_range_true; nia). simpl.
  by rewrite ok_or_Ok, checked_Some.
Qed.

Lemma ceil_mul_div_Ok a b d op z :
  in_i64 a = true → in_i64 b = true → 0 < d ≤ 1024000000 →
  ceil_mul_div a b d op = Ok z ↔
    0 ≤ a ∧ 0 ≤ b ∧ ceil_quot (a * b) d ≤ i64_max ∧ z = ceil_quot (a * b) d.
Proof.
  intros Ha Hb Hd. unfold ceil_mul_div. rewrite bind_Ok.
  setoid_rewrite require_nonnegative_Ok. setoid_rewrite bind_Ok.
  setoid_rewrite require_nonnegative_Ok.
  assert (0 ≤ a → 0 ≤ b →
    ((product ← ok_or (i128_checked_mul a b) (Overflow op);
      adjusted ← ok_or (i128_checked_add product (d - 1)) (Overflow op);
      ok_or (i64_try_from (div_trunc adjusted d)) (Overflow op)) = Ok z ↔
     ceil_quot (a * b) d ≤ i64_max ∧ z = ceil_quot (a * b) d)) as Hcore.
  { intros. unfold i128_checked_mul, i128_checked_add, i64_try_from.
    pose proof (ceil_quot_nonneg (a * b) d).
    rewrite checked_true by (int_inv; apply in_range_true; nia). simpl.
    rewrite checked_true by (int_inv; apply in_range_true; nia). simpl.
    fold (ceil_quot (a * b) d). rewrite ok_or_Ok, checked_Some.
    unfold in_i64. rewrite in_range_true. unfold i64_min. intuition lia. }
  split.
  - intros (_ & ? & _ & ? & H). apply Hcore in H as []; auto.
  - intros (? & ? & ? & ?). exists tt. split; [done|]. exists tt. split; [done|].
    by apply Hcore.
Qed.

Lemma ceil_quot_in_i64 n d :
  0 ≤ n → 0 < d → ceil_quot n d ≤ i64_max → in_i64 (ceil_quot n d) = true.
Proof.
  intros. pose proof (ceil_quot_nonneg n d). unfold in_i64. rewrite in_range_true.
  unfold i64_min. lia.
Qed.

Lemma profile_i64_fields p :
  profile_i64 p →
  in_i64 (maximum_input_tokens p) = true ∧ in_i64 (maximum_output_tokens p) = true
  ∧ in_i64 (fixed_gpu_time_us p) = true ∧ in_i64 (gpu_time_us_per_1k_tokens p) = true
  ∧ in_i64 (reference_vram_mib p) = true ∧ in_i64 (token_rate_micro_per_1k p) = true
  ∧ in_i64 (gpu_rate_micro_per_second p) = true
  ∧ in_i64 (vram_rate_micro_per_gib_second p) = true.
Proof. unfold profile_i64. rewrite !Forall_cons. naive_solver. Qed.

Lemma i64_nonneg_bound z : in_i64 z = true → z ≤ i64_max.
Proof. unfold in_i64. rewrite in_range_true. lia. Qed.
Lemma in_i64_nonneg z : 0 ≤ z ≤ i64_max → in_i64 z = true.
Proof. unfold in_i64. rewrite in_range_true. unfold i64_min. lia. Qed.

(** ** The pricing pipeline

    [validate] and the quote run the same sequence of checked steps, under
    different operation names; the lemmas are stated once. *)
Definition price (p : ServerReferenceBillingProfile) (n : Z)
    (o1 o2 o3 o4 o5 o6 : string) : Result PhysicalBillingQuote :=
  v ← ceil_mul_div n (gpu_time_us_per_1k_tokens p) TOKENS_PER_RATE_UNIT o1;
  g ← checked_add_i64 (fixed_gpu_time_us p) v o2;
  m ← checked_mul_i64 g (reference_vram_mib p) o3;
  ta ← ceil_mul_div n (token_rate_micro_per_1k p) TOKENS_PER_RATE_UNIT o4;
  tc ← MicroQuota.new ta;
  ga ← ceil_mul_div g (gpu_rate_micro_per_second p) MICROSECONDS_PER_SECOND o5;
  gc ← MicroQuota.new ga;
  va ← ceil_mul_div m (vram_rate_micro_per_gib_second p) MIB_MICROSECONDS_PER_GIB_SECOND o6;
  vc ← MicroQuota.new va;
  partial ← MicroQuota.checked_add tc gc;
  base ← MicroQuota.checked_add partial vc;
  mret (mkQuote n g m tc gc vc base).

Ltac split_binds :=
  repeat match goal with
  | |- context [?r ≫= _] =>
      lazymatch r with
      | _ ≫= _ => fail
      | Ok _ => fail
      | Err _ => fail
      | _ => destruct r; simpl; [|done]
      end
  end.

Lemma validate_price p :
  validate p =
    (_ ← require_nonnegative (maximum_input_tokens p) "maximum_input_tokens";
     _ ← require_positive (maximum_output_tokens p) "maximum_output_tokens";
     _ ← require_nonnegative (fixed_gpu_time_us p) "fixed_gpu_time_us";
     _ ← require_positive (gpu_time_us_per_1k_tokens p) "gpu_time_us_per_1k_tokens";
     _ ← require_positive (reference_vram_mib p) "reference_vram_mib";
     _ ← require_positive (token_rate_micro_per_1k p) "token_rate_micro_per_1k";
     _ ← require_positive (gpu_rate_micro_per_second p) "gpu_rate_micro_per_second";
     _ ← require_positive (vram_rate_micro_per_gib_second p) "vram_rate_micro_per_gib_second";
     n ← checked_add_i64 (maximum_input_tokens p) (maximum_output_tokens p)
       "profile token 上界";
     q ← price p n "profile GPU 时间上界" "profile GPU 时间上界求和" "profile 显存积分上界"
       "profile token 成本上界" "profile GPU 成本上界" "profile 显存成本上界";
     _ ← Settlement.calculate (quote_base_cost q) High Enhanced;
     Ok tt).
Proof. unfold validate, price. split_binds. done. Qed.

Lemma quote_price p n :
  quote_server_reference_upper_bound p n =
    (_ ← validate p;
     _ ← require_positive n "billable_tokens";
     m ← checked_add_i64 (maximum_input_tokens p) (maximum_output_tokens p)
       "profile token 上界";
     _ ← bail_if (m <? n) (InvalidBilling "billable_tokens 超过 profile 授权上界");
     price p n "参考 GPU 时间" "参考 GPU 时间求和" "参考显存积分" "token 计费"
       "GPU 时间计费" "显存积分计费").
Proof. reflexivity. Qed.

Section price.
Context (p : ServerReferenceBillingProfile).
Context (Hp : profile_i64 p) (Hs : profile_signs p).

Lemma gpu_time_nonneg n : 0 ≤ n → 0 ≤ gpu_time_spec p n.
Proof using Hs.
  intros. destruct Hs as (? & ? & ? & ? & ?). unfold gpu_time_spec.
  pose proof (ceil_quot_nonneg (n * gpu_time_us_per_1k_tokens p) 1000). nia.
Qed.

Lemma gpu_time_pos n : 0 < n → 0 < gpu_time_spec p n.
Proof using Hs.
  intros. destruct Hs as (? & ? & ? & ? & ?). unfold gpu_time_spec.
  pose proof (ceil_quot_pos (n * gpu_time_us_per_1k_tokens p) 1000). nia.
Qed.

Lemma vram_pos n : 0 < n → 0 < vram_spec p n.
Proof using Hs.
  intros H. apply gpu_time_pos in H. destruct Hs as (? & ? & ? & ? & ? & ?).
  unfold vram_spec. nia.
Qed.

Lemma component_costs_pos n : 0 < n →
  0 < token_cost_spec p n ∧ 0 < gpu_cost_spec p n ∧ 0 < vram_cost_spec p n.
Proof using Hs.
  intros H. pose proof (gpu_time_pos n H). pose proof (vram_pos n H).
  destruct Hs as (? & ? & ? & ? & ? & ? & ? & ?).
  repeat split; apply ceil_quot_pos; try lia; nia.
Qed.

(** Three rounded-up components: no quote costs less than three microquota. *)
Lemma base_cost_at_least_3 n : 0 < n → 3 ≤ base_cost_spec p n.
Proof using Hs. intros H%component_costs_pos. unfold base_cost_spec. lia. Qed.

Lemma gpu_time_mono n m : 0 ≤ n ≤ m → gpu_time_spec p n ≤ gpu_time_spec p m.
Proof using Hs.
  intros. destruct Hs as (? & ? & ? & ? & ?). unfold gpu_time_spec.
  pose proof (ceil_quot_mono (n * gpu_time_us_per_1k_tokens p)
    (m * gpu_time_us_per_1k_tokens p) 1000). nia.
Qed.

Lemma vram_mono n m : 0 ≤ n ≤ m → vram_spec p n ≤ vram_spec p m.
Proof using Hs.
  intros H. pose proof (gpu_time_mono n m H). destruct Hs as (? & ? & ? & ? & ? & ?).
  unfold vram_spec. nia.
Qed.

Lemma component_costs_mono n m : 0 ≤ n ≤ m →
  token_cost_spec p n ≤ token_cost_spec p m ∧ gpu_cost_spec p n ≤ gpu_cost_spec p m
  ∧ vram_cost_spec p n ≤ vram_cost_spec p m.
Proof using Hs.
  intros H. pose proof (gpu_time_mono n m H). pose proof (vram_mono n m H).
  pose proof (gpu_time_nonneg n ltac:(lia)).
  assert (0 ≤ vram_spec p n) by (unfold vram_spec; destruct Hs as (?&?&?&?&?&?); nia).
  destruct Hs as (? & ? & ? & ? & ? & ? & ? & ?).
  repeat split; apply ceil_quot_mono; try lia; nia.
Qed.

Lemma base_cost_mono n m : 0 ≤ n ≤ m → base_cost_spec p n ≤ base_cost_spec p m.
Proof using Hs. intros H%component_costs_mono. unfold base_cost_spec. lia. Qed.

(** What fits at the profile maximum fits below it. *)
Lemma quote_fits_mono n m : 0 < n ≤ m → quote_fits p m → quote_fits p n.
Proof using Hs.
  intros H Hm. pose proof (gpu_time_mono n m ltac:(lia)).
  pose proof (vram_mono n m ltac:(lia)).
  pose proof (component_costs_mono n m ltac:(lia)) as (? & ? & ?).
  pose proof (base_cost_mono n m ltac:(lia)).
  unfold gpu_time_spec in *. unfold quote_fits, gpu_time_spec in *. repeat split; lia.
Qed.

Hint Resolve i64_nonneg_bound in_i64_nonneg : core.

(** The intermediate values of a quote that fits, as i64. *)
Lemma price_ranges n : 0 < n → quote_fits p n →
  in_i64 (ceil_quot (n * gpu_time_us_per_1k_tokens p) 1000) = true
  ∧ in_i64 (gpu_time_spec p n) = true ∧ in_i64 (vram_spec p n) = true
  ∧ in_i64 (token_cost_spec p n + gpu_cost_spec p n) = true
  ∧ in_i64 (base_cost_spec p n) = true.
Proof using Hs.
  intros Hn (F1&F2&F3&F4&F5&F6&F7&F8).
  pose proof (gpu_time_pos n Hn). pose proof (vram_pos n Hn).
  pose proof (component_costs_pos n Hn) as (?&?&?).
  pose proof (base_cost_at_least_3 n Hn).
  destruct Hs as (?&?&?&?&?).
  pose proof (ceil_quot_nonneg (n * gpu_time_us_per_1k_tokens p) 1000 ltac:(nia) ltac:(lia)).
  repeat split; apply in_i64_nonneg; lia.
Qed.

Lemma price_sound n o1 o2 o3 o4 o5 o6 q :
  in_i64 n = true → 0 < n →
  price p n o1 o2 o3 o4 o5 o6 = Ok q → quote_fits p n ∧ q = quote_spec p n.
Proof using Hp Hs.
  intros Hn Hpos Hq. destruct (profile_i64_fields p Hp) as (I1&I2&I3&I4&I5&I6&I7&I8).
  pose proof (gpu_time_pos n Hpos). pose proof (vram_pos n Hpos).
  unfold price, TOKENS_PER_RATE_UNIT in Hq.
  change MIB_MICROSECONDS_PER_GIB_SECOND with 1024000000 in Hq.
  change MICROSECONDS_PER_SECOND with 1000000 in Hq.
  apply bind_Ok in Hq as (v & Hv & Hq).
  apply ceil_mul_div_Ok in Hv as (_ & _ & F1 & ->); [|done|done|lia].
  apply bind_Ok in Hq as (g & Hg & Hq).
  apply checked_add_i64_Ok in Hg as (F2 & ->); [|done|].
  2: { apply ceil_quot_in_i64; [destruct Hs as (?&?&?&?&?); nia|lia|done]. }
  fold (gpu_time_spec p n) in Hq, F2.
  apply bind_Ok in Hq as (m & Hm & Hq).
  apply checked_mul_i64_Ok in Hm as (F3 & ->); [|done..].
  fold (vram_spec p n) in Hq, F3.
  apply bind_Ok in Hq as (ta & Hta & Hq).
  apply ceil_mul_div_Ok in Hta as (_ & _ & F4 & ->); [|done|done|lia].
  apply bind_Ok in Hq as (tc & [_ ->]%micro_new_Ok & Hq).
  apply bind_Ok in Hq as (ga & Hga & Hq).
  apply ceil_mul_div_Ok in Hga as (_ & _ & F5 & ->); [|done|done|lia].
  apply bind_Ok in Hq as (gc & [_ ->]%micro_new_Ok & Hq).
  apply bind_Ok in Hq as (va & Hva & Hq).
  apply ceil_mul_div_Ok in Hva as (_ & _ & F6 & ->); [|done|done|lia].
  apply bind_Ok in Hq as (vc & [_ ->]%micro_new_Ok & Hq).
  apply bind_Ok in Hq as (pa & (_ & F7 & ->)%micro_checked_add_Ok & Hq).
  apply bind_Ok in Hq as (ba & (_ & F8 & ->)%micro_checked_add_Ok & Hq).
  ok_inv. unfold quote_fits. split; [|done].
  repeat split; eauto using i64_nonneg_bound.
Qed.

Lemma price_complete n o1 o2 o3 o4 o5 o6 :
  in_i64 n = true → 0 < n → quote_fits p n →
  price p n o1 o2 o3 o4 o5 o6 = Ok (quote_spec p n).
Proof using Hp Hs.
  intros Hn Hpos Hf. destruct (profile_i64_fields p Hp) as (I1&I2&I3&I4&I5&I6&I7&I8).
  destruct (price_ranges n Hpos Hf) as (R1 & R2 & R3 & R4 & R5).
  pose proof (gpu_time_pos n Hpos). pose proof (vram_pos n Hpos).
  pose proof (component_costs_pos n Hpos) as (?&?&?).
  pose proof (base_cost_at_least_3 n Hpos).
  destruct Hf as (F1&F2&F3&F4&F5&F6&F7&F8). destruct Hs as (S1&S2&S3&S4&S5&S6&S7&S8).
  unfold price, TOKENS_PER_RATE_UNIT.
  change MIB_MICROSECONDS_PER_GIB_SECOND with 1024000000.
  change MICROSECONDS_PER_SECOND with 1000000.
  rewrite (proj2 (ceil_mul_div_Ok n _ 1000 o1 _ Hn I4 ltac:(lia))) by (repeat split; try done; lia).
  simpl.
  rewrite (proj2 (checked_add_i64_Ok _ _ o2 _ I3 R1)) by (split; [|reflexivity]; apply R2).
  simpl. fold (gpu_time_spec p n).
  rewrite (proj2 (checked_mul_i64_Ok _ _ o3 _ R2 I5)) by (split; [|reflexivity]; apply R3).
  simpl. fold (vram_spec p n).
  rewrite (proj2 (ceil_mul_div_Ok n _ 1000 o4 _ Hn I6 ltac:(lia)))
    by (repeat split; try done; lia).
  simpl. fold (token_cost_spec p n). rewrite micro_new_nonneg by lia. simpl.
  rewrite (proj2 (ceil_mul_div_Ok _ _ 1000000 o5 _ R2 I7 ltac:(lia)))
    by (repeat split; try done; lia).
  simpl. fold (gpu_cost_spec p n). rewrite micro_new_nonneg by lia. simpl.
  rewrite (proj2 (ceil_mul_div_Ok _ _ 1024000000 o6 _ R3 I8 ltac:(lia)))
    by (repeat split; try done; lia).
  simpl. fold (vram_cost_spec p n). rewrite micro_new_nonneg by lia. simpl.
  rewrite micro_checked_add_eq by (done || lia). simpl.
  rewrite micro_checked_add_eq by (done || lia). done.
Qed.
End price.

Lemma validate_Ok p : profile_i64 p →
  validate p = Ok tt ↔
    profile_signs p ∧ profile_maximum p ≤ i64_max ∧ quote_fits p (profile_maximum p)
    ∧ is_ok (Settlement.calculate (mkMicroQuota (base_cost_spec p (profile_maximum p)))
        High Enhanced) = true.
Proof.
  intros Hp. destruct (profile_i64_fields p Hp) as (I1&I2&_).
  rewrite validate_price. unfold profile_maximum. split.
  - intros H. repeat (apply bind_Ok in H as (? & ?%require_nonnegative_Ok & H) ||
      apply bind_Ok in H as (? & ?%require_positive_Ok & H)).
    apply bind_Ok in H as (n & Hn & H).
    apply checked_add_i64_Ok in Hn as (Hn & ->); [|done..].
    apply bind_Ok in H as (q & Hq & H).
    assert (profile_signs p) as Hs by (repeat split; done).
    apply price_sound in Hq as (Hf & ->); [|done..|lia].
    apply bind_Ok in H as (s & Hc & _). simpl in Hc.
    repeat split; try done; [by apply i64_nonneg_bound|apply Hf..|]. by rewrite Hc.
  - intros (Hs & Hm & Hf & Hc). pose proof Hs as (S1&S2&S3&S4&S5&S6&S7&S8).
    rewrite !(proj2 (require_nonnegative_Ok _ _ tt)) by done. simpl.
    rewrite !(proj2 (require_positive_Ok _ _ tt)) by done. simpl.
    assert (in_i64 (maximum_input_tokens p + maximum_output_tokens p) = true)
      by (apply in_i64_nonneg; lia).
    rewrite (proj2 (checked_add_i64_Ok _ _ _ _ I1 I2) (conj H eq_refl)). simpl.
    rewrite price_complete by (done || lia). simpl.
    destruct (Settlement.calculate _ _ _); done.
Qed.

Lemma quote_Ok p n q : profile_i64 p → in_i64 n = true →
  quote_server_reference_upper_bound p n = Ok q ↔
    validate p = Ok tt ∧ 1 ≤ n ≤ profile_maximum p ∧ q = quote_spec p n.
Proof.
  intros Hp Hn. destruct (profile_i64_fields p Hp) as (I1&I2&_).
  rewrite quote_price. split.
  - intros H. apply bind_Ok in H as ([] & Hv & H).
    apply bind_Ok in H as (? & ?%require_positive_Ok & H).
    apply bind_Ok in H as (m & Hm & H). apply checked_add_i64_Ok in Hm as (Hm & ->); [|done..].
    apply bind_Ok in H as (? & Hb%bail_if_Ok & H). apply Z.ltb_ge in Hb.
    pose proof (proj1 (validate_Ok p Hp) Hv) as (Hs & _).
    apply price_sound in H as (_ & ->); [|done..]. unfold profile_maximum. split; [done|]. split; [lia|done].
  - intros (Hv & Hr & ->). rewrite Hv. simpl.
    apply validate_Ok in Hv as (Hs & Hm & Hf & _); [|done]. unfold profile_maximum in *.
    rewrite (proj2 (require_positive_Ok n _ tt)) by lia. simpl.
    pose proof Hs as (S1&S2&_).
    assert (in_i64 (maximum_input_tokens p + maximum_output_tokens p) = true)
      by (apply in_i64_nonneg; lia).
    rewrite (proj2 (checked_add_i64_Ok _ _ _ _ I1 I2) (conj H eq_refl)). simpl.
    rewrite (proj2 (bail_if_Ok _ _ tt)) by (apply Z.ltb_ge; lia). simpl.
    apply price_complete; try done; [lia|].
    by apply (quote_fits_mono p Hs n (maximum_input_tokens p + maximum_output_tokens p)); [lia|].
Qed.

(** Under a validated profile the settlement of every quote succeeds. *)
Lemma validated_settles p n t c :
  profile_i64 p → validate p = Ok tt → 1 ≤ n ≤ profile_maximum p →
  3 ≤ base_cost_spec p n ≤ i64_max
  ∧ is_ok (Settlement.calculate (mkMicroQuota (base_cost_spec p n)) t c) = true.
Proof.
  intros Hp Hv Hn. apply validate_Ok in Hv as (Hs & Hm & Hf & Hc); [|done].
  pose proof (base_cost_at_least_3 p Hs n ltac:(lia)).
  pose proof (base_cost_mono p Hs n (profile_maximum p) ltac:(lia)).
  assert (base_cost_spec p (profile_maximum p) ≤ i64_max) by (apply Hf).
  split; [lia|].
  rewrite calculate_closed in Hc by lia. cbv zeta in Hc.
  destruct (Z.leb_spec (deduction_spec High (base_cost_spec p (profile_maximum p))) i64_max);
    [|done].
  destruct (Z.leb_spec (contribution_spec Enhanced
    (deduction_spec High (base_cost_spec p (profile_maximum p)))) i64_max); [|done].
  pose proof (deduction_mono t (base_cost_spec p n) (base_cost_spec p (profile_maximum p))
    ltac:(lia)).
  pose proof (deduction_le_high t (base_cost_spec p (profile_maximum p)) ltac:(lia)).
  pose proof (deduction_nonneg t (base_cost_spec p n) ltac:(lia)).
  set (d := deduction_spec t (base_cost_spec p n)) in *.
  assert (contribution_spec c d ≤ contribution_spec Enhanced
    (deduction_spec High (base_cost_spec p (profile_maximum p)))).
  { unfold contribution_spec. apply Z.div_le_mono; [lia|].
    pose proof (trust_multiplier_range c). simpl TrustClass.multiplier_milli. nia. }
  rewrite calculate_closed by lia. cbv zeta. fold d.
  rewrite (proj2 (Z.leb_le d i64_max)) by lia.
  rewrite (proj2 (Z.leb_le (contribution_spec c d) i64_max)) by lia. done.
Qed.

(** ** Properties *)

(** A profile used by the witnesses: the one of the source's unit tests. *)
Definition sample_profile : ServerReferenceBillingProfile :=
  mkProfile 4096 1024 100000 2000000 8192 1000000 2000 3000.

(** The quote is exactly the published formula, and it is total on what the
    profile authorises: on i64 inputs it succeeds if and only if the profile
    validates and 1 <= tokens <= input maximum + output maximum, and then each
    stored component is the independently rounded-up value. A profile that
    validates can therefore never fail a later quote by overflow. *)
Theorem quote_is_formula (p : ServerReferenceBillingProfile) (n : Z) (q : PhysicalBillingQuote) :
  profile_i64 p → in_i64 n = true →
  quote_server_reference_upper_bound p n = Ok q ↔
    validate p = Ok tt
    ∧ 1 ≤ n ≤ maximum_input_tokens p + maximum_output_tokens p
    ∧ q = quote_spec p n.
Proof. apply quote_Ok. Qed.

Lemma quote_is_formula_witness :
  quote_server_reference_upper_bound sample_profile 1500
    = Ok (mkQuote 1500 3100000 25395200000 (mkMicroQuota 1500000) (mkMicroQuota 6200)
        (mkMicroQuota 74400) (mkMicroQuota 1580600)).
Proof.
  apply (quote_is_formula sample_profile 1500).
  - repeat constructor.
  - reflexivity.
  - split; [reflexivity|]. split; [cbn; lia|reflexivity].
Defined.

(** C38: A reservation always covers its settlement. For a validated profile and
    authorised token bounds within it, the reservation succeeds; the frozen
    quote settles without error at every tier and trust class, never for more
    than the reservation, and leaves the consumer, the node and the reserve a
    strictly positive ledger amount. *)
Theorem reservation_covers_settlement (p : ServerReferenceBillingProfile) (i o : Z) :
  profile_i64 p → validate p = Ok tt →
  0 ≤ i ≤ maximum_input_tokens p → 1 ≤ o ≤ maximum_output_tokens p →
  ∃ r q, maximum_reservation_micro p i o = Ok r
    ∧ maximum_reservation_quote p i o = Ok q
    ∧ ∀ t c, ∃ s, Settlement.calculate (quote_base_cost q) t c = Ok s
        ∧ 0 < as_i64 (user_deduction s) ≤ as_i64 r
        ∧ 0 < as_i64 (node_spendable_quota s) ∧ 0 < as_i64 (reserve_inflow s).
Proof.
  intros Hp Hv Hi Ho. pose proof (profile_i64_fields p Hp) as (I1&I2&_).
  assert (in_i64 i = true ∧ in_i64 o = true ∧ in_i64 (i + o) = true) as (Ii & Io & Iio).
  { apply i64_nonneg_bound in I1, I2. apply validate_Ok in Hv as (_ & Hm & _); [|done].
    unfold profile_maximum in Hm. repeat split; apply in_i64_nonneg; lia. }
  assert (1 ≤ i + o ≤ profile_maximum p) as Hn by (unfold profile_maximum; lia).
  assert (maximum_reservation_quote p i o = Ok (quote_spec p (i + o))) as Hq.
  { unfold maximum_reservation_quote.
    rewrite (proj2 (require_nonnegative_Ok i _ tt)) by lia. simpl.
    rewrite (proj2 (require_positive_Ok o _ tt)) by lia. simpl.
    rewrite (proj2 (bail_if_Ok _ _ tt)) by (apply orb_false_iff; rewrite !Z.ltb_ge; lia). simpl.
    rewrite (proj2 (checked_add_i64_Ok _ _ _ _ Ii Io) (conj Iio eq_refl)). simpl.
    by apply quote_Ok. }
  destruct (validated_settles p (i + o) High Enhanced Hp Hv Hn) as [Hb Hok].
  destruct (Settlement.calculate (mkMicroQuota (base_cost_spec p (i + o))) High Enhanced)
    as [s0|] eqn:Hs0; [|done].
  exists (user_deduction s0), (quote_spec p (i + o)). split; [|split; [done|]].
  { unfold maximum_reservation_micro. rewrite Hq. simpl. by rewrite Hs0. }
  intros t c. destruct (calculate_high_enhanced_total (base_cost_spec p (i + o)) s0 ltac:(lia) Hs0 t c) as (s & Hs & Hle).
  destruct (settlement_credits_positive (base_cost_spec p (i + o)) t c s ltac:(lia) Hs) as (? & ? & ?).
  exists s. split; [exact Hs|]. split; [split; [done|lia]|done].
Qed.

Lemma reservation_covers_settlement_witness :
  ∃ r q, maximum_reservation_micro sample_profile 800 200 = Ok r
    ∧ maximum_reservation_quote sample_profile 800 200 = Ok q
    ∧ ∀ t c, ∃ s, Settlement.calculate (quote_base_cost q) t c = Ok s
        ∧ 0 < as_i64 (user_deduction s) ≤ as_i64 r
        ∧ 0 < as_i64 (node_spendable_quota s) ∧ 0 < as_i64 (reserve_inflow s).
Proof.
  apply (reservation_covers_settlement sample_profile 800 200).
  - repeat constructor.
  - reflexivity.
  - cbn; lia.
  - cbn; lia.
Defined.

(** Authorising more tokens never costs less: both the base cost of a quote
    and the reservation are monotone in the authorised tokens. *)
Theorem reservation_monotone (p : ServerReferenceBillingProfile) (i o i' o' : Z) (r r' : MicroQuota) :
  profile_i64 p → i ≤ i' → o ≤ o' →
  in_i64 i = true → in_i64 i' = true → in_i64 o = true → in_i64 o' = true →
  maximum_reservation_micro p i o = Ok r → maximum_reservation_micro p i' o' = Ok r' →
  as_i64 r ≤ as_i64 r'.
Proof.
  intros Hp Hii Hoo I1 I2 I3 I4 H H'.
  assert (∀ a b x, in_i64 a = true → in_i64 b = true → maximum_reservation_micro p a b = Ok x →
    profile_signs p ∧ 0 < a + b ∧ 0 ≤ base_cost_spec p (a + b) ≤ i64_max
    ∧ as_i64 x = deduction_spec High (base_cost_spec p (a + b))) as Hinv.
  { clear -Hp. intros a b x Ia Ib H. unfold maximum_reservation_micro in H.
    apply bind_Ok in H as (q & Hq & H). unfold maximum_reservation_quote in Hq.
    apply bind_Ok in Hq as (? & ?%require_nonnegative_Ok & Hq).
    apply bind_Ok in Hq as (? & ?%require_positive_Ok & Hq).
    apply bind_Ok in Hq as (? & _ & Hq).
    apply bind_Ok in Hq as (n & Hn & Hq). apply checked_add_i64_Ok in Hn as (Hn & ->); [|done..].
    apply quote_Ok in Hq as (Hv & Hr & ->); [|done..].
    destruct (validated_settles p (a + b) High Enhanced Hp Hv Hr) as [Hb _].
    apply bind_Ok in H as (s & Hs & H). simpl in Hs. ok_inv.
    apply calculate_Ok in Hs as (_ & _ & ->); [|lia].
    apply validate_Ok in Hv as (? & _); [|done]. simpl. repeat split; try apply H; lia. }
  apply Hinv in H as (Hs & ? & ? & ->); [|done..].
  apply Hinv in H' as (_ & ? & ? & ->); [|done..].
  apply deduction_mono. split; [lia|]. apply base_cost_mono; [done|lia].
Qed.

Lemma reservation_monotone_witness :
  as_i64 (mkMicroQuota 1581900) ≤ as_i64 (mkMicroQuota 1583478).
Proof.
  apply (reservation_monotone sample_profile 800 200 801 200);
    [repeat constructor|lia|lia|reflexivity..|reflexivity|].
  vm_compute. reflexivity.
Defined.
