(* ===== verification/Reserve.v ===== *)
(** * Network reserve: crates/mindone-accounting/src/reserve.rs *)
From S2P Require Import Prelude Text Fixed.

Local Open Scope string_scope.
Local Open Scope Z_scope.

Inductive ReservePurpose : Type :=
| ResultValidation | FailedRetry | BandwidthSubsidy | PeakGuarantee.

#[export] Instance ReservePurpose_eq_dec : EqDecision ReservePurpose.
Proof. solve_decision. Defined.

(** [Uuid] is its 128-bit value, [OffsetDateTime] its instant in nanoseconds. *)
Record ReserveRelease : Type := mkReserveRelease {
  release_id : Z;
  purpose : ReservePurpose;
  release_amount : MicroQuota;
  reference_id : string;
  release_created_at : Z;
  balance_before : MicroQuota;
  balance_after : MicroQuota;
}.

Record ReserveState : Type := mkReserveState {
  balance : MicroQuota;
  total_inflow : MicroQuota;
  total_outflow : MicroQuota;
}.

(** [ReserveState::default]. *)
Definition reserve_default : ReserveState :=
  mkReserveState MicroQuota.zero MicroQuota.zero MicroQuota.zero.

(** The methods take [&mut self]: they return the state they leave behind with
    their result, on the error paths too. *)
Definition add_inflow (self : ReserveState) (amount : MicroQuota)
    : Result () * ReserveState :=
  if decide (amount = MicroQuota.zero) then
    (Err (InvalidReserveRelease "准备金流入不得为零"), self)
  else match MicroQuota.checked_add (balance self) amount with
  | Err e => (Err e, self)
  | Ok b =>
    let self := mkReserveState b (total_inflow self) (total_outflow self) in
    match MicroQuota.checked_add (total_inflow self) amount with
    | Err e => (Err e, self)
    | Ok t => (Ok tt, mkReserveState b t (total_outflow self))
    end
  end.

Definition valid_audit_reference (reference_id : string) : bool :=
  negb (trim_is_empty reference_id || (255 <? str_len reference_id)
    || has_control reference_id).

Definition release (self : ReserveState) (id : Z) (purpose : ReservePurpose)
    (amount : MicroQuota) (reference_id : string) (created_at : Z)
    : Result ReserveRelease * ReserveState :=
  if decide (amount = MicroQuota.zero) then
    (Err (InvalidReserveRelease "准备金释放金额不得为零"), self)
  else if negb (valid_audit_reference reference_id) then
    (Err (InvalidReserveRelease "准备金释放必须包含有效审计引用"), self)
  else
    let balance_before := balance self in
    match MicroQuota.checked_sub (balance self) amount with
    | Err e => (Err e, self)
    | Ok balance_after =>
      match MicroQuota.checked_add (total_outflow self) amount with
      | Err e => (Err e, self)
      | Ok total_outflow =>
        (Ok (mkReserveRelease id purpose amount reference_id created_at
               balance_before balance_after),
         mkReserveState balance_after (total_inflow self) total_outflow)
      end
    end.

(** ** Invariant and abstract specification

    The reserve is an account: its balance is what came in less what went out,
    so it can never release what it does not hold. *)
Definition reserve_wf (s : ReserveState) : Prop :=
  MicroQuota.wf (balance s) ∧ MicroQuota.wf (total_inflow s) ∧ MicroQuota.wf (total_outflow s)
  ∧ as_i64 (balance s) + as_i64 (total_outflow s) = as_i64 (total_inflow s).

Inductive reserve_op : Type :=
| OpInflow (amount : MicroQuota)
| OpRelease (id : Z) (purpose : ReservePurpose) (amount : MicroQuota)
    (reference : string) (created_at : Z).

Definition reserve_step (s : ReserveState) (op : reserve_op) : ReserveState :=
  match op with
  | OpInflow a => (add_inflow s a).2
  | OpRelease id p a r t => (release s id p a r t).2
  end.

Definition op_amount (op : reserve_op) : MicroQuota :=
  match op with OpInflow a => a | OpRelease _ _ a _ _ => a end.

Lemma add_inflow_spec s a r s' :
  reserve_wf s → MicroQuota.wf a → add_inflow s a = (r, s') →
  (r = Ok tt ∧ 0 < as_i64 a
   ∧ s' = mkReserveState (mkMicroQuota (as_i64 (balance s) + as_i64 a))
            (mkMicroQuota (as_i64 (total_inflow s) + as_i64 a)) (total_outflow s)
   ∧ reserve_wf s')
  ∨ (∃ e, r = Err e) ∧ (s' = s ∨ as_i64 (total_inflow s) + as_i64 a > i64_max).
Proof.
  intros (Hb & Hi & Ho & Heq) Ha. unfold add_inflow.
  destruct (decide (a = MicroQuota.zero)) as [->|Hne]; [intros [= <- <-]; right; eauto|].
  assert (0 < as_i64 a).
  { unfold MicroQuota.wf in Ha. destruct (decide (as_i64 a = 0)) as [E|]; [|lia].
    destruct Hne. destruct a; simpl in *. by subst. }
  destruct (MicroQuota.checked_add (balance s) a) as [b|e] eqn:Eb.
  2: { intros [= <- <-]. right. eauto. }
  apply micro_checked_add_Ok in Eb as (_ & Rb & ->). simpl.
  destruct (MicroQuota.checked_add (total_inflow s) a) as [t|e] eqn:Et.
  - apply micro_checked_add_Ok in Et as (_ & Rt & ->). intros [= <- <-]. left.
    unfold reserve_wf, MicroQuota.wf in *; simpl. int_inv. repeat split; lia.
  - intros [= <- <-]. right. split; [by eauto|]. right.
    destruct (Z.le_gt_cases (as_i64 (total_inflow s) + as_i64 a) i64_max) as [Hle|]; [|lia].
    destruct (total_inflow s) as [x], a as [y]; simpl in *.
    rewrite micro_checked_add_eq in Et; [done|..];
      unfold MicroQuota.wf in *; simpl in *; [lia|].
    unfold in_i64. apply in_range_true. unfold i64_min. lia.
Qed.

Lemma release_spec s id p a ref t r s' :
  reserve_wf s → MicroQuota.wf a → release s id p a ref t = (r, s') →
  (∃ rel, r = Ok rel ∧ 0 < as_i64 a ≤ as_i64 (balance s)
    ∧ valid_audit_reference ref = true
    ∧ rel = mkReserveRelease id p a ref t (balance s)
              (mkMicroQuota (as_i64 (balance s) - as_i64 a))
    ∧ s' = mkReserveState (mkMicroQuota (as_i64 (balance s) - as_i64 a)) (total_inflow s)
             (mkMicroQuota (as_i64 (total_outflow s) + as_i64 a))
    ∧ reserve_wf s')
  ∨ (∃ e, r = Err e) ∧ s' = s
    ∧ (as_i64 a = 0 ∨ valid_audit_reference ref = false ∨ as_i64 (balance s) < as_i64 a).
Proof.
  intros (Hb & Hi & Ho & Heq) Ha. unfold release.
  destruct (decide (a = MicroQuota.zero)) as [->|Hne].
  { intros [= <- <-]. right. split; [by eauto|]. auto. }
  assert (0 < as_i64 a).
  { unfold MicroQuota.wf in Ha. destruct (decide (as_i64 a = 0)) as [E|]; [|lia].
    destruct Hne. destruct a; simpl in *. by subst. }
  destruct (valid_audit_reference ref) eqn:Eref; simpl.
  2: { intros [= <- <-]. right. split; [by eauto|]. auto. }
  unfold MicroQuota.checked_sub.
  destruct (Z.ltb_spec (as_i64 (balance s)) (as_i64 a)).
  { intros [= <- <-]. right. split; [by eauto|]. auto. }
  rewrite micro_new_nonneg by lia.
  destruct (total_outflow s) as [x] eqn:Ex, a as [y]; simpl in *.
  unfold MicroQuota.wf in *; simpl in *.
  rewrite micro_checked_add_eq; [|lia|unfold in_i64; apply in_range_true; unfold i64_min; lia].
  intros [= <- <-]. left. eexists. split; [done|].
  unfold reserve_wf, MicroQuota.wf; simpl. repeat split; lia.
Qed.

(** ** Properties *)

(** The reserve never pays out money it does not hold. Over any sequence of
    inflows and releases from the empty reserve whose inflows together stay
    within i64, whether each operation succeeds or fails, the balance equals
    total inflow minus total outflow, all three are non-negative i64, and a
    release succeeds exactly when its amount is positive and covered by the
    balance and its audit reference is valid. *)
Theorem reserve_solvent (ops : list reserve_op) :
  Forall (λ op, MicroQuota.wf (op_amount op)) ops →
  foldr (λ op z, as_i64 (op_amount op) + z) 0 ops ≤ i64_max →
  let s := foldl reserve_step reserve_default ops in
  reserve_wf s
  ∧ ∀ id p a ref t, MicroQuota.wf a →
      is_ok (release s id p a ref t).1 = true ↔
        0 < as_i64 a ≤ as_i64 (balance s) ∧ valid_audit_reference ref = true.
Proof.
  intros Hops Hsum s.
  assert (reserve_wf s) as Hwf.
  { assert (∀ s0, reserve_wf s0 →
      as_i64 (total_inflow s0) + foldr (λ op z, as_i64 (op_amount op) + z) 0 ops ≤ i64_max →
      reserve_wf (foldl reserve_step s0 ops)) as Hgen.
    2: { apply Hgen; [|simpl; lia]. unfold reserve_wf, MicroQuota.wf, i64_max; simpl; lia. }
    clear Hsum s. induction Hops as [|op ops Hop Hops IH]; intros s0 Hs0 Hle; [done|].
    simpl in *.
    assert (0 ≤ foldr (λ op z, as_i64 (op_amount op) + z) 0 ops) as Hnn.
    { clear -Hops. induction Hops as [|o l Ho _ IH]; simpl; [lia|].
      unfold MicroQuota.wf in Ho. lia. }
    unfold MicroQuota.wf in Hop. destruct op as [a|id p a ref t]; simpl in *.
    - destruct (add_inflow s0 a) as [r s1] eqn:E. simpl.
      apply add_inflow_spec in E as [(_ & _ & -> & Hs1)|[_ [->|?]]]; try done; [..|lia].
      + apply IH; [done|]. simpl. lia.
      + apply IH; [done|lia].
    - destruct (release s0 id p a ref t) as [r s1] eqn:E. simpl.
      apply release_spec in E as [(? & _ & _ & _ & _ & -> & Hs1)|(_ & -> & _)]; try done.
      + apply IH; [done|]. simpl. lia.
      + apply IH; [done|lia]. }
  split; [done|]. intros id p a ref t Ha.
  destruct (release s id p a ref t) as [r s1] eqn:E. simpl.
  apply release_spec in E as [(? & -> & ? & ? & _)|([e ->] & _ & H)]; [naive_solver|..|done|done].
  unfold MicroQuota.wf in Ha. split; [done|]. intros [? Hr]. rewrite Hr in H. naive_solver lia.
Qed.

Lemma reserve_solvent_witness :
  reserve_wf (foldl reserve_step reserve_default
    [OpInflow (mkMicroQuota 1000); OpRelease 1 FailedRetry (mkMicroQuota 400) "job-attempt-2" 0;
     OpRelease 2 PeakGuarantee (mkMicroQuota 700) "peak-1" 0])
  ∧ foldl reserve_step reserve_default
    [OpInflow (mkMicroQuota 1000); OpRelease 1 FailedRetry (mkMicroQuota 400) "job-attempt-2" 0;
     OpRelease 2 PeakGuarantee (mkMicroQuota 700) "peak-1" 0]
    = mkReserveState (mkMicroQuota 600) (mkMicroQuota 1000) (mkMicroQuota 400).
Proof.
  split; [|reflexivity].
  apply reserve_solvent; [repeat constructor|]; vm_compute; congruence.
Defined.

(** [add_inflow] is not atomic on its error path: when the balance can take
    the inflow but the running total cannot, it returns the overflow error and
    leaves the inflow booked in the balance only, so the account no longer
    balances. *)
Theorem add_inflow_torn s a :
  reserve_wf s → MicroQuota.wf a → 0 < as_i64 a →
  as_i64 (balance s) + as_i64 a ≤ i64_max →
  i64_max < as_i64 (total_inflow s) + as_i64 a →
  ∃ e s', add_inflow s a = (Err e, s')
    ∧ as_i64 (balance s') = as_i64 (balance s) + as_i64 a
    ∧ total_inflow s' = total_inflow s ∧ total_outflow s' = total_outflow s
    ∧ ¬ reserve_wf s'.
Proof.
  intros (Hb & Hi & Ho & Heq) Ha Hpos Hfit Hover. unfold add_inflow.
  destruct (decide (a = MicroQuota.zero)) as [->|_]; [simpl in Hpos; lia|].
  destruct s as [[b] [i] [o]], a as [x]; unfold MicroQuota.wf in *; simpl in *.
  rewrite micro_checked_add_eq; [simpl|lia|unfold in_i64; apply in_range_true; unfold i64_min; lia].
  destruct (MicroQuota.checked_add (mkMicroQuota i) (mkMicroQuota x)) as [t|e] eqn:Et.
  { apply micro_checked_add_Ok in Et as (_ & Rt & _). simpl in Rt. int_inv. lia. }
  eexists e, _. split; [done|]. simpl. split_and!; try done.
  unfold reserve_wf; simpl. lia.
Qed.

Lemma add_inflow_torn_witness :
  ∃ s e s', s = foldl reserve_step reserve_default
      [OpInflow (mkMicroQuota i64_max); OpRelease 1 FailedRetry (mkMicroQuota i64_max) "retry-1" 0]
    ∧ add_inflow s (mkMicroQuota 1) = (Err e, s') ∧ ¬ reserve_wf s'.
Proof.
  destruct (add_inflow_torn
    (mkReserveState (mkMicroQuota 0) (mkMicroQuota i64_max) (mkMicroQuota i64_max))
    (mkMicroQuota 1)) as (e & s' & E & _ & _ & _ & H).
  - unfold reserve_wf, MicroQuota.wf, i64_max; simpl; lia.
  - unfold MicroQuota.wf, i64_max; simpl; lia.
  - simpl; lia.
  - unfold i64_max; simpl; lia.
  - unfold i64_max; simpl; lia.
  - eexists _, e, s'. split; [vm_compute; reflexivity|]. exact (conj E H).
Defined.
