(* ===== verification/Ledger.v ===== *)
(** * Hash-chained ledger: crates/mindone-accounting/src/ledger.rs

    Append-only ledger entries, their canonical length-prefixed encoding, the
    hash over it and chain validation.  SHA-256 ([sha2], [hex]) and the
    hyphenated form of a [Uuid] ([uuid]) are library code: the section takes
    them as parameters. *)
From S2P Require Import Prelude Text Fixed.

Local Open Scope string_scope.
Local Open Scope Z_scope.

Definition GENESIS_HASH : string :=
  "0000000000000000000000000000000000000000000000000000000000000000".
Definition LEDGER_HASH_VERSION : Z := 2.
Definition LEDGER_HASH_DOMAIN : string := "mindone-ledger".
Definition POSTGRES_EPOCH_UNIX_SECONDS : Z := 946684800.

Inductive LedgerKind : Type :=
| ConsumerDeduction
| NodeQuotaCredit
| ContributionCredit
| ReserveInflow
| KReserveRelease
| BootstrapGrant
| OperatorGrant.

#[export] Instance LedgerKind_eq_dec : EqDecision LedgerKind.
Proof. solve_decision. Defined.

Definition expects_debit (self : LedgerKind) : bool :=
  match self with ConsumerDeduction | KReserveRelease => true | _ => false end.

Definition scope (self : LedgerKind) : string :=
  match self with
  | ConsumerDeduction | NodeQuotaCredit | BootstrapGrant | OperatorGrant => "quota"
  | ContributionCredit => "contribution"
  | ReserveInflow | KReserveRelease => "reserve"
  end.

Definition entry_type (self : LedgerKind) (metadata : gmap string string) : Result string :=
  let fixed := match self with
    | ConsumerDeduction => Some "consumer_deduction"
    | NodeQuotaCredit => Some "node_reward"
    | ContributionCredit => Some "node_contribution"
    | ReserveInflow => Some "settlement_inflow"
    | BootstrapGrant => Some "bootstrap_grant"
    | OperatorGrant => Some "operator_grant"
    | KReserveRelease => None
    end in
  match fixed with
  | Some fixed => Ok fixed
  | None =>
    ok_or (purpose ← metadata !! "purpose";
           if existsb (String.eqb purpose)
                ["verification"; "retry"; "bandwidth"; "peak_capacity"]
           then Some purpose else None)
      (InvalidLedger "准备金释放账本缺少有效的 metadata.purpose")
  end.

(** The derived [Debug] name of a kind, used in one message. *)
Definition kind_debug (self : LedgerKind) : string :=
  match self with
  | ConsumerDeduction => "ConsumerDeduction"
  | NodeQuotaCredit => "NodeQuotaCredit"
  | ContributionCredit => "ContributionCredit"
  | ReserveInflow => "ReserveInflow"
  | KReserveRelease => "ReserveRelease"
  | BootstrapGrant => "BootstrapGrant"
  | OperatorGrant => "OperatorGrant"
  end.

(** [created_at] is the instant in nanoseconds since the Unix epoch. *)
Record LedgerEntry : Type := mkLedgerEntry {
  hash_version : Z;
  entry_id : Z;
  account_id : Z;
  request_id : option Z;
  idempotency_key : string;
  kind : LedgerKind;
  amount_micro : Z;
  balance_before_micro : Z;
  balance_after_micro : Z;
  created_at : Z;
  previous_hash : string;
  metadata : gmap string string;
  entry_hash : string;
}.

Definition is_sha256 (value : string) : bool :=
  (str_len value =? 64)
  && all_bytes (λ byte, is_ascii_digit byte || in_range 97 102 byte) value.

Definition append_canonical_field (output value : string) : string :=
  output +:+ field value.

Definition bad_metadata_entry (kv : string * string) : bool :=
  str_is_empty kv.1 || (128 <? str_len kv.1) || has_control kv.1
  || (2048 <? str_len kv.2) || has_control kv.2.

Definition validate_fields (self : LedgerEntry) : Result () :=
  _ ← bail_if (negb (hash_version self =? LEDGER_HASH_VERSION))
    (InvalidLedger ("不支持的账本哈希版本：" +:+ dec (hash_version self)));
  _ ← bail_if (negb (is_sha256 (previous_hash self)))
    (InvalidLedger "previous_hash 必须是 64 位小写 SHA-256");
  _ ← bail_if ((amount_micro self =? 0) && negb (bool_decide (kind self = ContributionCredit)))
    (InvalidLedger "账本金额不得为零");
  _ ← bail_if (trim_is_empty (idempotency_key self)
      || (255 <? str_len (idempotency_key self)) || has_control (idempotency_key self))
    (InvalidLedger "idempotency_key 为空或无效");
  _ ← bail_if (negb (Bool.eqb (expects_debit (kind self)) (amount_micro self <? 0)))
    (InvalidLedger ("账本类型 " +:+ kind_debug (kind self) +:+ " 的借贷方向错误"));
  _ ← bail_if ((balance_before_micro self <? 0) || (balance_after_micro self <? 0))
    (InvalidLedger "账本前后余额不得为负");
  expected_after ← ok_or (i64_checked_add (balance_before_micro self) (amount_micro self))
    (Overflow "账本余额计算");
  _ ← bail_if (negb (expected_after =? balance_after_micro self))
    (InvalidLedger "余额变化与账本金额不一致");
  bail_if (existsb bad_metadata_entry (btree_entries (metadata self)))
    (InvalidLedger "metadata 键值为空或超过长度限制").

(** Microseconds as PostgreSQL stores them: the distance from 2000-01-01,
    truncated towards zero, brought back to the Unix epoch. *)
Definition created_at_unix_micros (created_at : Z) : Result Z :=
  let postgres_epoch_unix_nanos := POSTGRES_EPOCH_UNIX_SECONDS * 1000000000 in
  ok_or (i64_try_from (div_trunc (created_at - postgres_epoch_unix_nanos) 1000
                       + POSTGRES_EPOCH_UNIX_SECONDS * 1000000))
    (InvalidLedger "账本时间戳超出范围").

Section ledger.
Context (uuid_to_string : Z → string) (sha256_hex : string → string).

Definition canonical_bytes (self : LedgerEntry) (micros : Z) (entry_type : string) : string :=
  let bytes := append_canonical_field "" LEDGER_HASH_DOMAIN in
  let bytes := append_canonical_field bytes (dec (hash_version self)) in
  let bytes := append_canonical_field bytes (scope (kind self)) in
  let bytes := append_canonical_field bytes (uuid_to_string (entry_id self)) in
  let bytes := append_canonical_field bytes (uuid_to_string (account_id self)) in
  let bytes := append_canonical_field bytes
    (default "" (uuid_to_string <$> request_id self)) in
  let bytes := append_canonical_field bytes (idempotency_key self) in
  let bytes := append_canonical_field bytes entry_type in
  let bytes := append_canonical_field bytes (dec (amount_micro self)) in
  let bytes := append_canonical_field bytes (dec (balance_before_micro self)) in
  let bytes := append_canonical_field bytes (dec (balance_after_micro self)) in
  let bytes := append_canonical_field bytes (dec micros) in
  let bytes := append_canonical_field bytes (previous_hash self) in
  let bytes := append_canonical_field bytes (dec (Z.of_nat (size (metadata self)))) in
  foldl (λ bytes kv, append_canonical_field (append_canonical_field bytes kv.1) kv.2)
    bytes (btree_entries (metadata self)).

Definition recompute_hash (self : LedgerEntry) : Result string :=
  _ ← bail_if (negb (hash_version self =? LEDGER_HASH_VERSION))
    (InvalidLedger ("不支持的账本哈希版本：" +:+ dec (hash_version self)));
  micros ← created_at_unix_micros (created_at self);
  entry_type ← entry_type (kind self) (metadata self);
  Ok (sha256_hex (canonical_bytes self micros entry_type)).

Definition set_hash (self : LedgerEntry) (hash : string) : LedgerEntry :=
  mkLedgerEntry (hash_version self) (entry_id self) (account_id self) (request_id self)
    (idempotency_key self) (kind self) (amount_micro self) (balance_before_micro self)
    (balance_after_micro self) (created_at self) (previous_hash self) (metadata self) hash.

(** [LedgerEntry::new]. *)
Definition ledger_new (id account_id : Z) (request_id : option Z) (idempotency_key : string)
    (kind : LedgerKind) (amount before after created_at : Z) (previous_hash : string)
    (metadata : gmap string string) : Result LedgerEntry :=
  let entry := mkLedgerEntry LEDGER_HASH_VERSION id account_id request_id idempotency_key
    kind amount before after created_at previous_hash metadata "" in
  _ ← validate_fields entry;
  hash ← recompute_hash entry;
  Ok (set_hash entry hash).

Definition ledger_validate (self : LedgerEntry) : Result () :=
  _ ← validate_fields self;
  expected ← recompute_hash self;
  bail_if (negb (String.eqb (entry_hash self) expected))
    (InvalidLedger "记录哈希与规范化内容不一致").

(** The loop of [validate_chain], with its two loop variables. *)
Fixpoint validate_chain_from (expected_previous : string) (previous_timestamp : option Z)
    (entries : list LedgerEntry) : Result () :=
  match entries with
  | [] => Ok tt
  | entry :: rest =>
    _ ← ledger_validate entry;
    _ ← bail_if (negb (String.eqb (previous_hash entry) expected_previous))
      (InvalidLedger ("记录 " +:+ uuid_to_string (entry_id entry) +:+ " 未连接到前一条哈希"));
    _ ← bail_if (match previous_timestamp with
                 | Some timestamp => created_at entry <? timestamp
                 | None => false end)
      (InvalidLedger "账本时间戳顺序倒退");
    validate_chain_from (entry_hash entry) (Some (created_at entry)) rest
  end.

Definition validate_chain (entries : list LedgerEntry) : Result () :=
  validate_chain_from GENESIS_HASH None entries.

(** ** Specification of a valid entry and of a valid chain *)

Definition micros_of (e : LedgerEntry) : Z :=
  div_trunc (created_at e - POSTGRES_EPOCH_UNIX_SECONDS * 1000000000) 1000
  + POSTGRES_EPOCH_UNIX_SECONDS * 1000000.

(** Equal in everything the hash covers: all but the sub-microsecond part of
    the timestamp. *)
Definition same_content (e1 e2 : LedgerEntry) : Prop :=
  hash_version e1 = hash_version e2 ∧ entry_id e1 = entry_id e2
  ∧ account_id e1 = account_id e2 ∧ request_id e1 = request_id e2
  ∧ idempotency_key e1 = idempotency_key e2 ∧ kind e1 = kind e2
  ∧ amount_micro e1 = amount_micro e2 ∧ balance_before_micro e1 = balance_before_micro e2
  ∧ balance_after_micro e1 = balance_after_micro e2 ∧ micros_of e1 = micros_of e2
  ∧ previous_hash e1 = previous_hash e2 ∧ metadata e1 = metadata e2.

Definition chain_head (entries : list LedgerEntry) : string :=
  from_option entry_hash GENESIS_HASH (last entries).

Definition sha256_collision : Prop :=
  ∃ b1 b2, b1 ≠ b2 ∧ sha256_hex b1 = sha256_hex b2.
Definition genesis_preimage : Prop := ∃ b, sha256_hex b = GENESIS_HASH.

(** The canonical encoding as one list of fields. *)
Definition canonical_fields (e : LedgerEntry) (micros : Z) (ty : string) : list string :=
  [LEDGER_HASH_DOMAIN; dec (hash_version e); scope (kind e); uuid_to_string (entry_id e);
   uuid_to_string (account_id e); default "" (uuid_to_string <$> request_id e);
   idempotency_key e; ty; dec (amount_micro e); dec (balance_before_micro e);
   dec (balance_after_micro e); dec micros; previous_hash e;
   dec (Z.of_nat (size (metadata e)))]
  ++ List.concat ((λ kv, [kv.1; kv.2]) <$> btree_entries (metadata e)).

Lemma foldl_canonical l out :
  foldl (λ bytes kv, append_canonical_field (append_canonical_field bytes kv.1) kv.2) out l
    = out +:+ fields (List.concat ((λ kv : string * string, [kv.1; kv.2]) <$> l)).
Proof.
  revert out. induction l as [|[k v] l IH]; intros out.
  - simpl. by rewrite append_nil_r.
  - cbn [foldl]. rewrite IH. unfold append_canonical_field. simpl.
    by rewrite !append_assoc.
Qed.

Lemma canonical_bytes_fields e m ty :
  canonical_bytes e m ty = fields (canonical_fields e m ty).
Proof.
  unfold canonical_bytes, canonical_fields. rewrite foldl_canonical.
  unfold append_canonical_field. rewrite fields_app. cbn [fields foldr].
  rewrite !append_assoc. done.
Qed.

Lemma concat_pairs_inj (l1 l2 : list (string * string)) :
  List.concat ((λ kv, [kv.1; kv.2]) <$> l1) = List.concat ((λ kv, [kv.1; kv.2]) <$> l2) → l1 = l2.
Proof.
  revert l2. induction l1 as [|[k v] l1 IH]; intros [|[k' v'] l2]; simpl; intros E;
    simplify_eq; [done|]. f_equal. by apply IH.
Qed.

(** ** Lemmas *)

Lemma entry_type_kind k1 k2 m ty :
  entry_type k1 m = Ok ty → entry_type k2 m = Ok ty → k1 = k2.
Proof.
  assert (∀ m ty, entry_type KReserveRelease m = Ok ty →
    ty ∈ ["verification"; "retry"; "bandwidth"; "peak_capacity"]) as Hrel.
  { clear. intros m ty H. unfold entry_type in H. apply ok_or_Ok in H.
    apply bind_Some in H as (p & _ & H). destruct (existsb _ _) eqn:E; [|done].
    injection H as ->. apply existsb_exists in E as (x & Hx & ->%String.eqb_eq).
    by apply list_elem_of_In. }
  assert (∀ k m ty, k ≠ KReserveRelease → entry_type k m = Ok ty →
    ty ∉ ["verification"; "retry"; "bandwidth"; "peak_capacity"]) as Hfix.
  { clear. intros k m ty Hk H. destruct k; try done; unfold entry_type in H; simpl in H;
      injection H as <-; rewrite !elem_of_cons; intros [H|[H|[H|[H|H]]]];
      try done; by apply elem_of_nil in H. }
  intros H1 H2.
  destruct (decide (k1 = KReserveRelease)) as [->|N1],
    (decide (k2 = KReserveRelease)) as [->|N2]; [done|..].
  - apply Hrel in H1. by apply Hfix in H2.
  - apply Hrel in H2. by apply Hfix in H1.
  - destruct k1, k2; try done; unfold entry_type in *; simpl in *; congruence.
Qed.

Lemma recompute_hash_Ok e h :
  recompute_hash e = Ok h ↔
    hash_version e = LEDGER_HASH_VERSION ∧ in_i64 (micros_of e) = true
    ∧ ∃ ty, entry_type (kind e) (metadata e) = Ok ty
      ∧ h = sha256_hex (canonical_bytes e (micros_of e) ty).
Proof.
  unfold recompute_hash, created_at_unix_micros. fold (micros_of e). split.
  - intros H. ok_inv. apply negb_false_iff, Z.eqb_eq in H.
    unfold i64_try_from in H0. apply checked_Some in H0 as [? ->]. eauto 10.
  - intros (Hv & Hm & ty & Hty & ->). rewrite Hv. simpl.
    unfold i64_try_from. rewrite checked_true by done. simpl. by rewrite Hty.
Qed.

Lemma ledger_validate_Ok e :
  ledger_validate e = Ok tt ↔
    validate_fields e = Ok tt ∧ recompute_hash e = Ok (entry_hash e).
Proof.
  unfold ledger_validate. split.
  - intros H. ok_inv. apply negb_false_iff, String.eqb_eq in H1. by subst.
  - intros [-> ->]. simpl. by rewrite String.eqb_refl.
Qed.

Lemma validate_fields_hash e h : validate_fields (set_hash e h) = validate_fields e.
Proof. done. Qed.

Lemma recompute_hash_hash e h : recompute_hash (set_hash e h) = recompute_hash e.
Proof. done. Qed.

Lemma validate_fields_Ok e :
  validate_fields e = Ok tt →
  hash_version e = LEDGER_HASH_VERSION ∧ is_sha256 (previous_hash e) = true
  ∧ (amount_micro e = 0 → kind e = ContributionCredit)
  ∧ expects_debit (kind e) = (amount_micro e <? 0)
  ∧ 0 ≤ balance_before_micro e ∧ 0 ≤ balance_after_micro e
  ∧ balance_after_micro e = balance_before_micro e + amount_micro e
  ∧ balance_after_micro e ≤ i64_max.
Proof.
  unfold validate_fields. intros H. ok_inv.
  repeat match goal with
  | H : negb _ = false |- _ => apply negb_false_iff in H
  | H : Bool.eqb _ _ = true |- _ => apply Bool.eqb_prop in H
  | H : _ && _ = false |- _ => apply andb_false_iff in H
  | H : bool_decide _ = true |- _ => apply bool_decide_eq_true in H
  end. int_inv. subst.
  repeat split; try done; try lia.
  intros E. match goal with H : _ ∨ _ |- _ => destruct H as [H|H] end.
  - apply Z.eqb_neq in H1. lia.
  - apply negb_false_iff, bool_decide_eq_true in H1. done.
Qed.

Lemma validate_chain_from_snoc p t l e :
  validate_chain_from p t (l ++ [e]) = Ok tt ↔
    validate_chain_from p t l = Ok tt ∧ ledger_validate e = Ok tt
    ∧ previous_hash e = from_option entry_hash p (last l)
    ∧ (∀ t', from_option (Some ∘ created_at) t (last l) = Some t' → t' ≤ created_at e).
Proof.
  revert p t. induction l as [|a l IH]; intros p t.
  - simpl. split.
    + intros H. ok_inv. apply negb_false_iff, String.eqb_eq in H0.
      repeat split; try done. intros t' ->. by apply Z.ltb_ge.
    + intros (_ & -> & -> & Ht). simpl. rewrite String.eqb_refl. simpl.
      destruct t as [t|]; [|done]. simpl. specialize (Ht t eq_refl).
      apply Z.ltb_ge in Ht. by rewrite Ht.
  - cbn [app validate_chain_from].
    assert (∀ (f : LedgerEntry → string) d, from_option f d (last (a :: l))
      = from_option f (f a) (last l)) as E1.
    { intros. rewrite last_cons. by destruct (last l). }
    assert (from_option (Some ∘ created_at) t (last (a :: l))
      = from_option (Some ∘ created_at) (Some (created_at a)) (last l)) as E2.
    { rewrite last_cons. by destruct (last l). }
    rewrite E1, E2. split.
    + intros H. ok_inv. apply IH in H2 as (? & ? & ? & ?).
      rewrite H. simpl. unfold bail_if. rewrite H0, H1. done.
    + intros (H & ?). ok_inv. rewrite H. simpl. unfold bail_if. rewrite H1, H2. simpl.
      by apply IH.
Qed.

Lemma validate_chain_snoc l e :
  validate_chain (l ++ [e]) = Ok tt ↔
    validate_chain l = Ok tt ∧ ledger_validate e = Ok tt
    ∧ previous_hash e = chain_head l
    ∧ (∀ e', last l = Some e' → created_at e' ≤ created_at e).
Proof.
  unfold validate_chain, chain_head. rewrite validate_chain_from_snoc.
  destruct (last l) as [e'|]; simpl; naive_solver.
Qed.

Lemma chain_head_snoc l e : chain_head (l ++ [e]) = entry_hash e.
Proof. unfold chain_head. by rewrite last_snoc. Qed.

(** ** The canonical encoding is injective *)

Section uuid_laws.
Context (uuid_inj : ∀ a b, uuid_to_string a = uuid_to_string b → a = b).
Context (uuid_nonempty : ∀ a, uuid_to_string a ≠ "").

Lemma request_id_inj (r1 r2 : option Z) :
  default "" (uuid_to_string <$> r1) = default "" (uuid_to_string <$> r2) → r1 = r2.
Proof using uuid_inj uuid_nonempty.
  destruct r1 as [a|], r2 as [b|]; simpl; intros E; try done.
  - by rewrite (uuid_inj _ _ E).
  - by destruct (uuid_nonempty a).
  - by destruct (uuid_nonempty b).
Qed.

Lemma canonical_bytes_inj e1 e2 ty1 ty2 :
  entry_type (kind e1) (metadata e1) = Ok ty1 →
  entry_type (kind e2) (metadata e2) = Ok ty2 →
  canonical_bytes e1 (micros_of e1) ty1 = canonical_bytes e2 (micros_of e2) ty2 →
  same_content e1 e2.
Proof using uuid_inj uuid_nonempty.
  intros T1 T2. rewrite !canonical_bytes_fields. intros E%fields_inj.
  unfold canonical_fields in E. simpl in E. injection E as
    Ev _ Ei Ea Er Ek Ety Eam Eb Ea' Em Ep _ Emeta.
  apply concat_pairs_inj, btree_entries_inj in Emeta.
  unfold same_content. rewrite <-Emeta, <-Ety in T2.
  repeat split; try done; try (by apply (inj dec)); try (by apply uuid_inj).
  - by apply request_id_inj.
  - by apply (entry_type_kind _ _ (metadata e1) ty1).
Qed.

(** Two entries with the same hash: same content, or a collision. *)
Lemma recompute_hash_inj e1 e2 h :
  recompute_hash e1 = Ok h → recompute_hash e2 = Ok h →
  same_content e1 e2 ∨ sha256_collision.
Proof using uuid_inj uuid_nonempty.
  rewrite !recompute_hash_Ok. intros (_ & _ & ty1 & T1 & ->) (_ & _ & ty2 & T2 & E).
  destruct (decide (canonical_bytes e1 (micros_of e1) ty1
    = canonical_bytes e2 (micros_of e2) ty2)) as [Eb|Hne].
  - left. by apply (canonical_bytes_inj e1 e2 ty1 ty2).
  - right. by eexists _, _.
Qed.

Lemma chain_same_head l1 l2 :
  validate_chain l1 = Ok tt → validate_chain l2 = Ok tt →
  chain_head l1 = chain_head l2 →
  Forall2 (λ e1 e2, same_content e1 e2 ∧ entry_hash e1 = entry_hash e2) l1 l2
  ∨ sha256_collision ∨ genesis_preimage.
Proof using uuid_inj uuid_nonempty.
  assert (∀ l e, validate_chain (l ++ [e]) = Ok tt → entry_hash e = GENESIS_HASH →
    genesis_preimage) as Hgen.
  { intros l e (_ & Hv & _)%validate_chain_snoc Eg.
    apply ledger_validate_Ok in Hv as [_ Hr].
    apply recompute_hash_Ok in Hr as (_ & _ & ty & _ & E). rewrite Eg in E.
    by eexists. }
  revert l2. induction l1 as [|e1 l1 IH] using rev_ind; intros l2 H1 H2 Eh.
  - destruct l2 as [|e2 l2 _] using rev_ind; [left; constructor|].
    rewrite chain_head_snoc in Eh. right; right. by eapply Hgen.
  - rewrite chain_head_snoc in Eh.
    destruct l2 as [|e2 l2 _] using rev_ind; [right; right; by eapply Hgen|].
    rewrite chain_head_snoc in Eh.
    apply validate_chain_snoc in H1 as (H1 & V1 & P1 & _).
    apply validate_chain_snoc in H2 as (H2 & V2 & P2 & _).
    apply ledger_validate_Ok in V1 as [_ R1]. apply ledger_validate_Ok in V2 as [_ R2].
    rewrite <-Eh in R2.
    destruct (recompute_hash_inj e1 e2 _ R1 R2) as [Hs|]; [|by auto].
    assert (chain_head l1 = chain_head l2) as Ehh.
    { rewrite <-P1, <-P2. apply Hs. }
    destruct (IH l2 H1 H2 Ehh) as [HF|]; [|by auto].
    left. apply Forall2_app; [done|]. by apply Forall2_cons; split.
Qed.
End uuid_laws.
End ledger.

(** ** Properties *)

(** An entry that [LedgerEntry::new] creates passes validation, and it is a
    correct posting: the balance after is the balance before plus the signed
    amount, both balances are non-negative i64, debits are exactly the two debit
    kinds, and only a contribution entry may have amount zero. *)
Theorem ledger_new_valid (uuid_to_string : Z → string) (sha256_hex : string → string)
    (id account : Z) (request : option Z) (key : string) (k : LedgerKind)
    (amount before after created : Z) (prev : string) (meta : gmap string string)
    (e : LedgerEntry) :
  ledger_new uuid_to_string sha256_hex id account request key k amount before after created
    prev meta = Ok e →
  ledger_validate uuid_to_string sha256_hex e = Ok tt
  ∧ balance_after_micro e = balance_before_micro e + amount_micro e
  ∧ 0 ≤ balance_before_micro e ∧ 0 ≤ balance_after_micro e ≤ i64_max
  ∧ (amount_micro e < 0 ↔ k = ConsumerDeduction ∨ k = KReserveRelease)
  ∧ (amount_micro e = 0 → k = ContributionCredit)
  ∧ amount_micro e = amount ∧ balance_before_micro e = before ∧ previous_hash e = prev.
Proof.
  unfold ledger_new. intros H. apply bind_Ok in H as ([] & Hv & H).
  apply bind_Ok in H as (h & Hh & H). ok_inv.
  pose proof (validate_fields_Ok _ Hv) as (_ & _ & Hz & Hd & Hb & Ha & Heq & Hm). simpl in *.
  repeat split; try done; try lia.
  - apply ledger_validate_Ok. by split.
  - intros Hn. apply Z.ltb_lt in Hn. rewrite Hn in Hd. destruct k; naive_solver.
  - intros Hk. apply Z.ltb_lt. rewrite <-Hd. by destruct Hk as [->| ->].
Qed.

(** Parameters of the witnesses: an injective stand-in for the identifier
    format and a constant digest of the right shape. *)
Definition sample_uuid (u : Z) : string := "u" +:+ dec u.
Definition sample_digest (b : string) : string :=
  "aaaaaaaaaaaaaaaaaaaaaaaaaaaaaaaaaaaaaaaaaaaaaaaaaaaaaaaaaaaaaaaa".
Definition sample_entry (id before amount : Z) (prev : string) : LedgerEntry :=
  mkLedgerEntry LEDGER_HASH_VERSION id 100 (Some 200) "entry-0" NodeQuotaCredit amount before
    (before + amount) 1784282400000000000 prev ∅ (sample_digest "").

Lemma ledger_new_valid_witness :
  ledger_validate sample_uuid sample_digest (sample_entry 1 0 5 GENESIS_HASH) = Ok tt
  ∧ balance_after_micro (sample_entry 1 0 5 GENESIS_HASH) = 5.
Proof.
  assert (ledger_new sample_uuid sample_digest 1 100 (Some 200) "entry-0" NodeQuotaCredit
    5 0 5 1784282400000000000 GENESIS_HASH ∅ = Ok (sample_entry 1 0 5 GENESIS_HASH)) as H
    by (vm_compute; reflexivity).
  destruct (ledger_new_valid _ _ _ _ _ _ _ _ _ _ _ _ _ _ H) as (H1 & H2 & _).
  split; [exact H1|exact H2].
Defined.

(** The canonical encoding has one reading. If two entries feed the same
    bytes to the hash then they agree on every field the ledger stores: version,
    ids, request, idempotency key, kind, amount, balances, microsecond
    timestamp, previous hash and the whole metadata map. *)
Theorem canonical_encoding_injective (uuid_to_string : Z → string) (e1 e2 : LedgerEntry)
    (ty1 ty2 : string) :
  (∀ a b, uuid_to_string a = uuid_to_string b → a = b) →
  (∀ a, uuid_to_string a ≠ "") →
  entry_type (kind e1) (metadata e1) = Ok ty1 →
  entry_type (kind e2) (metadata e2) = Ok ty2 →
  canonical_bytes uuid_to_string e1 (micros_of e1) ty1
    = canonical_bytes uuid_to_string e2 (micros_of e2) ty2 →
  same_content e1 e2.
Proof. intros Hi Hn. by apply canonical_bytes_inj. Qed.

Lemma sample_uuid_inj a b : sample_uuid a = sample_uuid b → a = b.
Proof. unfold sample_uuid. intros H. injection H as H. by apply (inj dec). Qed.

Lemma sample_uuid_nonempty a : sample_uuid a ≠ "".
Proof. done. Qed.

Lemma canonical_encoding_injective_witness :
  same_content (sample_entry 1 0 5 GENESIS_HASH)
    (set_hash (sample_entry 1 0 5 GENESIS_HASH) "other").
Proof.
  apply (canonical_encoding_injective sample_uuid _ _ "node_reward" "node_reward").
  - exact sample_uuid_inj.
  - exact sample_uuid_nonempty.
  - reflexivity.
  - reflexivity.
  - reflexivity.
Defined.

(** C40: The head hash commits to the whole history. Two chains that both
    validate and end in the same hash hold, entry by entry, the same content,
    unless SHA-256 has a collision or a preimage of the all-zero genesis value. *)
Theorem chain_head_commits (uuid_to_string : Z → string) (sha256_hex : string → string)
    (l1 l2 : list LedgerEntry) :
  (∀ a b, uuid_to_string a = uuid_to_string b → a = b) →
  (∀ a, uuid_to_string a ≠ "") →
  validate_chain uuid_to_string sha256_hex l1 = Ok tt →
  validate_chain uuid_to_string sha256_hex l2 = Ok tt →
  chain_head l1 = chain_head l2 →
  Forall2 (λ e1 e2, same_content e1 e2 ∧ entry_hash e1 = entry_hash e2) l1 l2
  ∨ sha256_collision sha256_hex ∨ genesis_preimage sha256_hex.
Proof. intros Hi Hn. by apply chain_same_head. Qed.

Lemma chain_head_commits_witness :
  let e := sample_entry 1 0 5 GENESIS_HASH in
  Forall2 (λ e1 e2, same_content e1 e2 ∧ entry_hash e1 = entry_hash e2) [e] [e]
  ∨ sha256_collision sample_digest ∨ genesis_preimage sample_digest.
Proof.
  apply (chain_head_commits sample_uuid sample_digest).
  - exact sample_uuid_inj.
  - exact sample_uuid_nonempty.
  - vm_compute; reflexivity.
  - vm_compute; reflexivity.
  - reflexivity.
Defined.

(** Chain validation is incremental: appending an entry to a valid chain
    keeps it valid exactly when the entry itself validates, links to the current
    head (genesis for the empty chain) and is not earlier than the last entry. *)
Theorem chain_append_valid (uuid_to_string : Z → string) (sha256_hex : string → string)
    (l : list LedgerEntry) (e : LedgerEntry) :
  validate_chain uuid_to_string sha256_hex (l ++ [e]) = Ok tt ↔
    validate_chain uuid_to_string sha256_hex l = Ok tt
    ∧ ledger_validate uuid_to_string sha256_hex e = Ok tt
    ∧ previous_hash e = chain_head l
    ∧ (∀ e', last l = Some e' → created_at e' ≤ created_at e).
Proof. apply validate_chain_snoc. Qed.
