(* ===== verification/Asn.v ===== *)
(** * Controlled ASN map: crates/mindone-coordinator/src/anti_abuse.rs

    The startup-loaded prefix table and its lookup.  [serde_json] is third
    party: the document it yields is the argument of [from_json]. *)
From S2P Require Import Prelude Text Net.
From Stdlib Require Import Ascii.

Local Open Scope string_scope.
Local Open Scope list_scope.
Local Open Scope Z_scope.

(** ** Data *)

Definition MAX_ASN_MAP_ENTRIES : Z := 100000.

Record AsnMapEntry : Type := mkAsnMapEntry { cidr : string; entry_asn : Z }.

Record AsnMapDocument : Type := mkAsnMapDocument {
  document_version : Z;
  document_entries : list AsnMapEntry;
}.

Inductive AsnPrefix : Type :=
| PrefixV4 (network prefix_len asn : Z)
| PrefixV6 (network prefix_len asn : Z).

(** [AsnMapError], without the payload of the JSON error. *)
Inductive AsnMapError : Type :=
| InvalidJson
| UnsupportedVersion (version : Z)
| InvalidEntryCount
| InvalidAsn
| InvalidCidr (value : string)
| NonCanonicalCidr (value : string)
| DuplicatePrefix (cidr : string).

(** ** Operations *)

Definition v4_mask (prefix : Z) : Z :=
  if prefix =? 0 then 0 else Z.land (Z.shiftl u32_max (32 - prefix)) u32_max.

Definition v6_mask (prefix : Z) : Z :=
  if prefix =? 0 then 0 else Z.land (Z.shiftl u128_max (128 - prefix)) u128_max.

Definition from_cidr (value : string) (asn : Z) : result AsnMapError AsnPrefix :=
  '(address, prefix) ← ok_or (split_once "/"%char value) (InvalidCidr value);
  address ← ok_or (parse_ip address) (InvalidCidr value);
  prefix ← ok_or (parse_u8 prefix) (InvalidCidr value);
  match address with
  | V4 address =>
    if prefix <=? 32 then
      _ ← bail_if (negb (Z.land address (v4_mask prefix) =? address)) (NonCanonicalCidr value);
      Ok (PrefixV4 address prefix asn)
    else Err (InvalidCidr value)
  | V6 address =>
    if prefix <=? 128 then
      _ ← bail_if (negb (Z.land address (v6_mask prefix) =? address)) (NonCanonicalCidr value);
      Ok (PrefixV6 address prefix asn)
    else Err (InvalidCidr value)
  end.

Definition prefix_len (self : AsnPrefix) : Z :=
  match self with PrefixV4 _ l _ | PrefixV6 _ l _ => l end.

Definition asn (self : AsnPrefix) : Z :=
  match self with PrefixV4 _ _ a | PrefixV6 _ _ a => a end.

Definition identity (self : AsnPrefix) : Z * Z * Z :=
  match self with
  | PrefixV4 network l _ => (4, network, l)
  | PrefixV6 network l _ => (6, network, l)
  end.

Definition contains (self : AsnPrefix) (address : IpAddr) : bool :=
  match self, address with
  | PrefixV4 network l _, V4 address => Z.land address (v4_mask l) =? network
  | PrefixV6 network l _, V6 address => Z.land address (v6_mask l) =? network
  | _, _ => false
  end.

(** The loop of [from_json] over the document's entries. *)
Fixpoint load_entries (seen : gset (Z * Z * Z)) (entries : list AsnMapEntry)
    : result AsnMapError (list AsnPrefix) :=
  match entries with
  | [] => Ok []
  | entry :: rest =>
    _ ← bail_if ((entry_asn entry =? 0) || (entry_asn entry =? u32_max)) InvalidAsn;
    prefix ← from_cidr (cidr entry) (entry_asn entry);
    _ ← bail_if (bool_decide (identity prefix ∈ seen)) (DuplicatePrefix (cidr entry));
    prefixes ← load_entries ({[identity prefix]} ∪ seen) rest;
    Ok (prefix :: prefixes)
  end.

Definition longest_first : AsnPrefix → AsnPrefix → comparison :=
  cmp_rev (cmp_on prefix_len Z.compare).

Definition from_json (serde_json : string → option AsnMapDocument) (bytes : string)
    : result AsnMapError (list AsnPrefix) :=
  document ← ok_or (serde_json bytes) InvalidJson;
  _ ← bail_if (negb (document_version document =? 1))
    (UnsupportedVersion (document_version document));
  _ ← bail_if (match document_entries document with [] => true | _ => false end
      || (MAX_ASN_MAP_ENTRIES <? Z.of_nat (length (document_entries document))))
    InvalidEntryCount;
  entries ← load_entries ∅ (document_entries document);
  Ok (sort_by longest_first entries).

(** [ControlledAsnResolver::lookup] of the loaded map: the first match. *)
Fixpoint asn_lookup (entries : list AsnPrefix) (address : IpAddr) : option Z :=
  match entries with
  | [] => None
  | entry :: rest => if contains entry address then Some (asn entry) else asn_lookup rest address
  end.

(** ** Masks are shifts *)

Lemma mask_bits width p n :
  0 ≤ p ≤ width → 0 ≤ n →
  Z.testbit (Z.land (Z.shiftl (2 ^ width - 1) (width - p)) (2 ^ width - 1)) n
    = bool_decide (width - p ≤ n < width).
Proof.
  intros Hp Hn. replace (2 ^ width - 1) with (Z.ones width) by (rewrite Z.ones_equiv; lia).
  rewrite Z.land_spec, Z.shiftl_spec, !Z.testbit_ones by lia.
  case_bool_decide; repeat match goal with |- context [?a <=? ?b] => destruct (Z.leb_spec a b)
    | |- context [?a <? ?b] => destruct (Z.ltb_spec a b) end; simpl; lia.
Qed.

(** Two [width]-bit addresses agree under the mask of [p] bits exactly when
    their leading [p] bits do. *)
Lemma mask_eq_shift width p m a b :
  0 < width → 0 ≤ p ≤ width → 0 ≤ a < 2 ^ width → 0 ≤ b < 2 ^ width →
  (∀ n, 0 ≤ n → Z.testbit m n = bool_decide (width - p ≤ n < width)) →
  Z.land a m = Z.land b m ↔ Z.shiftr a (width - p) = Z.shiftr b (width - p).
Proof.
  intros Hw Hp Ha Hb Hm.
  assert (∀ x, 0 ≤ x < 2 ^ width → ∀ n, width ≤ n → Z.testbit x n = false) as Hhigh.
  { intros x Hx n Hn. rewrite <-(Z.mod_small x (2 ^ width)) by lia.
    apply Z.mod_pow2_bits_high. lia. }
  split; intros E; apply Z.bits_inj'; intros n Hn.
  - rewrite !Z.shiftr_spec by lia.
    destruct (Z.lt_ge_cases (n + (width - p)) width) as [Hlt|Hge]; [|by rewrite !Hhigh by lia].
    apply (f_equal (λ x, Z.testbit x (n + (width - p)))) in E.
    rewrite !Z.land_spec, Hm, bool_decide_true, !andb_true_r in E by lia. done.
  - rewrite !Z.land_spec, Hm by lia. case_bool_decide as Hr; [|by rewrite !andb_false_r].
    rewrite !andb_true_r. apply (f_equal (λ x, Z.testbit x (n - (width - p)))) in E.
    rewrite !Z.shiftr_spec in E by lia. by replace (n - (width - p) + (width - p)) with n in E by lia.
Qed.

Lemma v4_mask_bits p n :
  0 ≤ p ≤ 32 → 0 ≤ n → Z.testbit (v4_mask p) n = bool_decide (32 - p ≤ n < 32).
Proof.
  intros Hp Hn. unfold v4_mask. destruct (Z.eqb_spec p 0) as [->|].
  - rewrite Z.testbit_0_l. by rewrite bool_decide_false by lia.
  - by apply (mask_bits 32).
Qed.

Lemma v6_mask_bits p n :
  0 ≤ p ≤ 128 → 0 ≤ n → Z.testbit (v6_mask p) n = bool_decide (128 - p ≤ n < 128).
Proof.
  intros Hp Hn. unfold v6_mask. destruct (Z.eqb_spec p 0) as [->|].
  - rewrite Z.testbit_0_l. by rewrite bool_decide_false by lia.
  - by apply (mask_bits 128).
Qed.

(** A loaded prefix: its length fits the family and its network is canonical. *)
Definition prefix_wf (e : AsnPrefix) : Prop :=
  match e with
  | PrefixV4 n l _ => 0 ≤ l ≤ 32 ∧ 0 ≤ n < 2 ^ 32 ∧ Z.land n (v4_mask l) = n
  | PrefixV6 n l _ => 0 ≤ l ≤ 128 ∧ 0 ≤ n < 2 ^ 128 ∧ Z.land n (v6_mask l) = n
  end.

(** The mathematical reading of a prefix: same family, same leading bits. *)
Definition covers (e : AsnPrefix) (a : IpAddr) : Prop :=
  match e, a with
  | PrefixV4 n l _, V4 x => Z.shiftr x (32 - l) = Z.shiftr n (32 - l)
  | PrefixV6 n l _, V6 x => Z.shiftr x (128 - l) = Z.shiftr n (128 - l)
  | _, _ => False
  end.

Lemma contains_covers e a :
  prefix_wf e → address_wf a → contains e a = true ↔ covers e a.
Proof.
  destruct e as [n l x|n l x], a as [a|a]; simpl; intros (Hl & Hn & Hc) Ha; try done.
  - rewrite Z.eqb_eq, <-(mask_eq_shift 32 l (v4_mask l)); try lia.
    intros. by apply v4_mask_bits.
  - rewrite Z.eqb_eq, <-(mask_eq_shift 128 l (v6_mask l)); try lia.
    intros. by apply v6_mask_bits.
Qed.

(** Two prefixes of one length that cover the same address are the same. *)
Lemma covers_identity e1 e2 a :
  contains e1 a = true → contains e2 a = true → prefix_len e1 = prefix_len e2 →
  identity e1 = identity e2.
Proof.
  destruct e1, e2, a; simpl; rewrite ?Z.eqb_eq; try done; intros <- <- ->; done.
Qed.

(** ** Loaded tables *)

Lemma from_cidr_wf value n e : from_cidr value n = Ok e → prefix_wf e ∧ asn e = n.
Proof.
  unfold from_cidr. intros H. apply bind_Ok in H as ([addr p] & _ & H).
  apply bind_Ok in H as (a & Ha%ok_or_Ok%parse_ip_wf & H).
  apply bind_Ok in H as (l & Hl%ok_or_Ok%parse_u8_range & H).
  destruct a as [a|a], (Z.leb_spec l 32), (Z.leb_spec l 128); try done; ok_inv;
    match goal with H : negb _ = false |- _ => apply negb_false_iff, Z.eqb_eq in H end;
    simpl in *; split_and!; try done; lia.
Qed.

(** What [load_entries] guarantees of a table. *)
Lemma load_entries_Ok seen es r :
  load_entries seen es = Ok r →
  Forall prefix_wf r ∧ Forall (λ e, 1 ≤ asn e ∨ asn e < 0) r
  ∧ NoDup (identity <$> r) ∧ (∀ e, e ∈ r → identity e ∉ seen)
  ∧ asn <$> r = entry_asn <$> es.
Proof.
  revert seen r. induction es as [|x es IH]; intros seen r; simpl.
  { intros [= <-]. split_and!; try constructor. set_solver. }
  intros H. apply bind_Ok in H as ([] & Hx%bail_if_Ok & H). apply bind_Ok in H as (p & Hp & H).
  apply bind_Ok in H as ([] & Hd%bail_if_Ok%bool_decide_eq_false & H).
  apply bind_Ok in H as (ps & Hps & [= <-]).
  apply from_cidr_wf in Hp as [Hwf Ha]. apply IH in Hps as (H1 & H2 & H3 & H4 & H5). int_inv.
  split_and!.
  - by constructor.
  - constructor; [lia|done].
  - simpl. apply NoDup_cons. split; [|done]. intros (e & E & He)%list_elem_of_fmap.
    specialize (H4 _ He). rewrite <-E in H4. set_solver.
  - intros e [->|He]%elem_of_cons; [done|]. specialize (H4 _ He). set_solver.
  - rewrite fmap_cons, Ha. by f_equal.
Qed.

#[export] Instance longest_first_total : TotalCmp longest_first.
Proof. unfold longest_first. apply _. Qed.

Lemma asn_lookup_Some entries a n :
  asn_lookup entries a = Some n ↔
  ∃ before e after, entries = before ++ e :: after ∧ contains e a = true ∧ asn e = n
    ∧ Forall (λ e', contains e' a = false) before.
Proof.
  induction entries as [|e entries IH]; simpl.
  { split; [done|]. by intros ([|] & ? & ? & ? & _). }
  destruct (contains e a) eqn:Ec.
  - split.
    + intros [= <-]. exists [], e, entries. auto.
    + intros (b & x & r & E & Hx & <- & Hb). destruct b as [|y b]; simplify_eq/=; [done|].
      apply Forall_cons in Hb as [? _]. congruence.
  - rewrite IH. split.
    + intros (b & x & r & -> & ? & ? & ?). exists (e :: b), x, r. auto.
    + intros (b & x & r & E & Hx & ? & Hb). destruct b as [|y b]; simplify_eq/=; [congruence|].
      apply Forall_cons in Hb as [_ Hb]. eauto 10.
Qed.

Lemma asn_lookup_None entries a :
  asn_lookup entries a = None ↔ Forall (λ e, contains e a = false) entries.
Proof.
  induction entries as [|e entries IH]; simpl; [done|].
  rewrite Forall_cons. destruct (contains e a); naive_solver.
Qed.

(** The invariant of a loaded table. *)
Definition table_ok (l : list AsnPrefix) : Prop :=
  Forall prefix_wf l ∧ NoDup (identity <$> l) ∧ StronglySorted (cmp_le longest_first) l.

Lemma from_json_table serde_json bytes l : from_json serde_json bytes = Ok l → table_ok l.
Proof.
  unfold from_json, table_ok. intros H. apply bind_Ok in H as (doc & _ & H).
  do 2 apply bind_Ok in H as ([] & _ & H). apply bind_Ok in H as (es & Hes & [= <-]).
  apply load_entries_Ok in Hes as (Hwf & _ & Hnd & _ & _).
  split_and!; [by rewrite sort_by_perm..|]. apply sort_by_sorted, _.
Qed.

Lemma table_contains l a e :
  table_ok l → address_wf a → e ∈ l → contains e a = true ↔ covers e a.
Proof.
  intros (Hwf & _) Ha He. apply contains_covers; [|done].
  rewrite Forall_forall in Hwf. by apply Hwf.
Qed.

(** The first match of a table is its longest match. *)
Lemma first_match_longest b e r a e' :
  table_ok (b ++ e :: r) → contains e a = true → Forall (λ x, contains x a = false) b →
  e' ∈ b ++ e :: r → contains e' a = true → e' = e ∨ prefix_len e' < prefix_len e.
Proof.
  intros (_ & Hnd & Hsort) Hc Hb He' Hc'.
  apply elem_of_app in He' as [He'|[->|He']%elem_of_cons]; [|by left|right].
  { rewrite Forall_forall in Hb. specialize (Hb _ He'). simpl in Hb. congruence. }
  apply StronglySorted_app in Hsort as (_ & _ & Hs). apply StronglySorted_inv in Hs as [_ Hall].
  rewrite Forall_forall in Hall. specialize (Hall _ He').
  unfold cmp_le, longest_first, cmp_rev, cmp_on in Hall.
  fold (Z.le (prefix_len e') (prefix_len e)) in Hall.
  destruct (decide (prefix_len e' = prefix_len e)) as [Heq|]; [|lia]. exfalso.
  pose proof (covers_identity e' e a Hc' Hc Heq) as Hid.
  rewrite fmap_app, fmap_cons in Hnd. apply NoDup_app in Hnd as (_ & _ & Hnd).
  apply NoDup_cons in Hnd as [Hnd _]. apply Hnd. rewrite <-Hid. by apply list_elem_of_fmap_2.
Qed.

(** ** Properties *)

(** ASN lookup is longest-prefix match. In a table loaded from any document,
    an address resolves to an ASN exactly when some entry of that ASN covers
    it (same family and same leading bits) and every other covering entry is
    strictly shorter; it resolves to nothing exactly when no entry covers it. *)
Theorem asn_lookup_longest_prefix serde_json bytes entries a :
  from_json serde_json bytes = Ok entries → address_wf a →
  (∀ n, asn_lookup entries a = Some n ↔
     ∃ e, e ∈ entries ∧ covers e a ∧ asn e = n
       ∧ ∀ e', e' ∈ entries → covers e' a → e' = e ∨ prefix_len e' < prefix_len e)
  ∧ (asn_lookup entries a = None ↔ ∀ e, e ∈ entries → ¬ covers e a).
Proof.
  intros Hok%from_json_table Ha.
  assert (∀ e, e ∈ entries → contains e a = true ↔ covers e a) as Hcov
    by (intros; by eapply table_contains).
  assert (asn_lookup entries a = None ↔ ∀ e, e ∈ entries → ¬ covers e a) as HNone.
  { rewrite asn_lookup_None, Forall_forall. setoid_rewrite <-not_true_iff_false.
    split; intros Hno e He; specialize (Hno e He); by rewrite Hcov in *. }
  split; [|done]. intros n. split.
  - intros (b & e & r & -> & Hc & <- & Hb)%asn_lookup_Some. exists e.
    assert (e ∈ b ++ e :: r) as He by set_solver.
    split_and!; [done|by apply Hcov|done|]. intros e' He' Hc'%Hcov; [|done].
    by eapply first_match_longest.
  - intros (e & He & Hc & <- & Hmax). destruct (asn_lookup entries a) as [n|] eqn:El.
    2: { exfalso. by apply (proj1 HNone eq_refl e He). }
    apply asn_lookup_Some in El as (b & e' & r & -> & Hc' & <- & Hb).
    assert (e' ∈ b ++ e' :: r) as He' by set_solver.
    destruct (Hmax e' He' (proj1 (Hcov e' He') Hc')) as [->|?]; [done|].
    destruct (first_match_longest b e' r a e) as [->|?]; try done; [by apply Hcov|lia].
Qed.

Definition sample_asn_document : AsnMapDocument :=
  mkAsnMapDocument 1
    [mkAsnMapEntry "203.0.0.0/16" 64501; mkAsnMapEntry "203.0.113.0/24" 64500;
     mkAsnMapEntry "2001:db8::/32" 64502].

Definition sample_asn_table : list AsnPrefix :=
  match from_json (λ _, Some sample_asn_document) "" with Ok l => l | Err _ => [] end.

Lemma asn_lookup_longest_prefix_witness :
  ∃ e, e ∈ sample_asn_table ∧ covers e (V4 3405803785) ∧ asn e = 64500.
Proof.
  destruct (proj1 (proj1 (asn_lookup_longest_prefix (λ _, Some sample_asn_document) ""
    sample_asn_table (V4 3405803785) ltac:(vm_compute; reflexivity)
    ltac:(vm_compute; split; [discriminate|reflexivity])) 64500)) as (e & He & Hc & Ha & _).
  - vm_compute. reflexivity.
  - exists e. exact (conj He (conj Hc Ha)).
Defined.
