(* ===== verification/AntiAbuse.v ===== *)
(** * Anti-abuse: crates/mindone-coordinator/src/anti_abuse.rs

    The deterministic decision, the minimised network signal, and the
    transactional operations over the abuse tables of migrations 0011 and 0013
    ([Db]).  HMAC-SHA-256 and SHA-256 are third party: [hmac key message] and
    [sha256 message] yield raw digests.  Every statement of a transaction that
    fails drops the transaction, so an error carries no state; lost
    connections are not modelled. *)
From S2P Require Import Prelude Text Net Asn.
From Stdlib Require Import Ascii.

Local Open Scope string_scope.
Local Open Scope list_scope.
Local Open Scope Z_scope.

(** ** Data *)

Definition DEVICE_BLOCK_USERS : Z := 3.
Definition IP_PREFIX_SHARED_USERS : Z := 3.
Definition IP_PREFIX_LARGE_SHARED_USERS : Z := 5.
Definition ASN_SHARED_USERS : Z := 10.
Definition ASN_LARGE_SHARED_USERS : Z := 25.
Definition RECIPROCAL_BLOCK_REQUESTS : Z := 10.

Inductive AntiAbuseError : Type :=
| InvalidInput (message : string)
| MissingDeviceBinding
| IdempotencyConflict
| Database.

Inductive NetworkSignalSource : Type := DirectPeer | TrustedCloudflare.

Definition source_as_str (self : NetworkSignalSource) : string :=
  match self with DirectPeer => "direct_peer" | TrustedCloudflare => "trusted_cloudflare" end.

Record TrustedNetworkSignal : Type := mkSignal {
  ip_prefix_hash : string;
  asn_hash : option string;
  source : NetworkSignalSource;
}.

Inductive AntiAbuseDisposition : Type := Allow | Block.

#[export] Instance AntiAbuseDisposition_eq_dec : EqDecision AntiAbuseDisposition.
Proof. solve_decision. Defined.

Definition disposition_as_str (self : AntiAbuseDisposition) : string :=
  match self with Allow => "allow" | Block => "block" end.

Record AntiAbuseDecision : Type := mkDecision {
  disposition : AntiAbuseDisposition;
  risk_score_ppm : Z;
  contribution_weight_ppm : Z;
  reason_codes : list string;
}.

Record RiskCounts : Type := mkRiskCounts {
  device_user_count : option Z;
  ip_user_count : option Z;
  asn_user_count : option Z;
  reciprocal_edge_requests : Z;
  require_network_signal : bool;
}.

Inductive TrafficClass : Type := Normal | Verification.

#[export] Instance TrafficClass_eq_dec : EqDecision TrafficClass.
Proof. solve_decision. Defined.

(** ** The deterministic decision

    The accumulators of [deterministic_decision]: score, number of independent
    categories and reasons. *)
Record RiskState : Type := mkRisk {
  risk : Z;
  categories : Z;
  reasons : list string;
}.

Definition is_some_and (o : option Z) (p : Z → bool) : bool :=
  match o with Some x => p x | None => false end.

Definition is_none {A} (o : option A) : bool :=
  match o with Some _ => false | None => true end.

(** [saturating_add(points).min(1_000_000)] *)
Definition add_risk (score points : Z) : Z := Z.min (i32_saturating_add score points) 1000000.

Definition u8_saturating_add (a b : Z) : Z := Z.min 255 (a + b).

Definition device_risk (c : RiskCounts) (s : RiskState) : RiskState :=
  if is_none (device_user_count c) then
    mkRisk 1000000 (categories s) (reasons s ++ ["missing_device_signal"])
  else if is_some_and (device_user_count c) (λ n, DEVICE_BLOCK_USERS <=? n) then
    mkRisk 1000000 (categories s) (reasons s ++ ["device_sybil_cluster"])
  else if is_some_and (device_user_count c) (λ n, n =? 2) then
    mkRisk (i32_saturating_add (risk s) 350000) (u8_saturating_add (categories s) 1)
      (reasons s ++ ["shared_device"])
  else s.

Definition ip_risk (c : RiskCounts) (s : RiskState) : RiskState :=
  if require_network_signal c && is_none (ip_user_count c) then
    mkRisk 1000000 (categories s) (reasons s ++ ["missing_network_signal"])
  else if is_some_and (ip_user_count c) (λ n, IP_PREFIX_LARGE_SHARED_USERS <=? n) then
    mkRisk (add_risk (risk s) 400000) (u8_saturating_add (categories s) 1)
      (reasons s ++ ["large_shared_ip_prefix"])
  else if is_some_and (ip_user_count c) (λ n, IP_PREFIX_SHARED_USERS <=? n) then
    mkRisk (add_risk (risk s) 250000) (u8_saturating_add (categories s) 1)
      (reasons s ++ ["shared_ip_prefix"])
  else s.

Definition asn_risk (c : RiskCounts) (s : RiskState) : RiskState :=
  if is_none (asn_user_count c) then
    mkRisk (risk s) (categories s) (reasons s ++ ["asn_signal_unavailable"])
  else if is_some_and (asn_user_count c) (λ n, ASN_LARGE_SHARED_USERS <=? n) then
    mkRisk (add_risk (risk s) 200000) (categories s) (reasons s ++ ["large_shared_asn"])
  else if is_some_and (asn_user_count c) (λ n, ASN_SHARED_USERS <=? n) then
    mkRisk (add_risk (risk s) 100000) (categories s) (reasons s ++ ["shared_asn_cluster"])
  else s.

Definition reciprocal_risk (c : RiskCounts) (s : RiskState) : RiskState :=
  if RECIPROCAL_BLOCK_REQUESTS <=? reciprocal_edge_requests c then
    mkRisk 1000000 (categories s) (reasons s ++ ["reciprocal_call_loop"])
  else if 5 <=? reciprocal_edge_requests c then
    mkRisk (add_risk (risk s) 350000) (u8_saturating_add (categories s) 1)
      (reasons s ++ ["emerging_reciprocal_loop"])
  else s.

Definition hard_block (c : RiskCounts) : bool :=
  is_none (device_user_count c)
  || is_some_and (device_user_count c) (λ n, DEVICE_BLOCK_USERS <=? n)
  || (require_network_signal c && is_none (ip_user_count c))
  || (RECIPROCAL_BLOCK_REQUESTS <=? reciprocal_edge_requests c).

Definition risk_state (c : RiskCounts) : RiskState :=
  reciprocal_risk c (asn_risk c (ip_risk c (device_risk c (mkRisk 0 0 [])))).

Definition deterministic_decision (counts : RiskCounts) : AntiAbuseDecision :=
  let s := risk_state counts in
  let corroborated_block := (2 <=? categories s) && (700000 <=? risk s) in
  let disposition := if hard_block counts || corroborated_block then Block else Allow in
  let contribution_weight_ppm :=
    match disposition with
    | Block => 0
    | Allow => if 250000 <=? risk s then 500000 else 1000000
    end in
  mkDecision disposition (risk s) contribution_weight_ppm (reasons s).

(** ** Signals, keys and hashes *)

Definition nul : string := String zero EmptyString.

(** [headers.get("cf-connecting-ip")?.to_str().ok()] is the argument. *)
Definition parse_cloudflare_address (header : option string) : option IpAddr :=
  value ← header;
  if (64 <? str_len value) || negb (String.eqb (trim value) value) then None
  else parse_ip value.

Definition minimized_ip_prefix (address : IpAddr) : string :=
  match address with
  | V4 a => string_of_bytes (4 :: 24 :: take 3 (be_bytes 4 a))
  | V6 a => string_of_bytes (6 :: 56 :: take 7 (be_bytes 16 a))
  end.

Definition byte_in (allowed : string) (b : Z) : bool :=
  existsb (Z.eqb b) (bytes_of allowed).

Definition validate_assessment_key (value : string) : result AntiAbuseError () :=
  bail_if (str_is_empty value || (128 <? str_len value)
      || negb (all_bytes (λ b, is_ascii_alphanumeric b || byte_in "-_.:" b) value))
    (InvalidInput "assessment_key 只允许 1 到 128 字节的 ASCII 字母、数字及 -_.:").

Definition count_i32 (value : Z) : result AntiAbuseError Z :=
  ok_or (i32_try_from value) (InvalidInput "反滥用聚类计数超出范围").

(** [constant_time_equal] on the bytes of two strings. *)
Definition constant_time_equal (left right : string) : bool :=
  if negb (str_len left =? str_len right) then false
  else foldl (λ difference (p : Z * Z), Z.lor difference (Z.lxor p.1 p.2)) 0
         (zip (bytes_of left) (bytes_of right)) =? 0.

Section signals.
Context (hmac : string → string → string) (sha256 : string → string).

Definition keyed_hash (pepper domain value : string) : result AntiAbuseError string :=
  _ ← bail_if (str_len pepper <? 32) (InvalidInput "反滥用哈希 pepper 至少需要 32 字节");
  Ok (hex_encode (hmac pepper (domain +:+ value))).

(** The bytes hashed by [assessment_request_hash]. *)
Definition assessment_bytes (user_id session_id : Z) (assessment_key : string)
    (network : option TrustedNetworkSignal) (require_network_signal : bool) : string :=
  uuid_bytes user_id +:+ uuid_bytes session_id +:+ assessment_key
    +:+ string_of_bytes [if require_network_signal then 1 else 0]
    +:+ match network with
        | Some n => ip_prefix_hash n +:+ default "" (asn_hash n) +:+ source_as_str (source n)
        | None => ""
        end.

Definition assessment_request_hash (pepper : string) (user_id session_id : Z)
    (assessment_key : string) (network : option TrustedNetworkSignal)
    (require_network_signal : bool) : result AntiAbuseError string :=
  keyed_hash pepper ("mindone:abuse:assessment:v1" +:+ nul)
    (assessment_bytes user_id session_id assessment_key network require_network_signal).

(** [TrustedNetworkSignal::from_connection]: the peer address, the Cloudflare
    header, the resolver's lookup and the trusted proxies. *)
Definition from_connection (peer : option IpAddr) (header : option string) (pepper : string)
    (lookup : IpAddr → option Z) (trusted_proxy_ips : gset IpAddr)
    : result AntiAbuseError (option TrustedNetworkSignal) :=
  match peer with
  | None => Ok None
  | Some peer =>
    let origin :=
      if bool_decide (peer ∈ trusted_proxy_ips) then
        address ← parse_cloudflare_address header; Some (address, TrustedCloudflare)
      else Some (peer, DirectPeer) in
    match origin with
    | None => Ok None
    | Some (address, source) =>
      ip_prefix_hash ← keyed_hash pepper ("mindone:abuse:ip-prefix:v1" +:+ nul)
        (minimized_ip_prefix address);
      asn_hash ← match lookup address with
        | None => Ok None
        | Some asn =>
          Some <$> keyed_hash pepper ("mindone:abuse:asn:v1" +:+ nul)
            (string_of_bytes (be_bytes 4 asn))
        end;
      Ok (Some (mkSignal ip_prefix_hash asn_hash source))
    end
  end.

Definition job_assessment_key (user_id : Z) (job_idempotency_key : string)
    : result AntiAbuseError string :=
  _ ← bail_if (trim_is_empty job_idempotency_key || (200 <? str_len job_idempotency_key))
    (InvalidInput "任务幂等键必须为 1 到 200 字节");
  Ok ("job:" +:+ hex_encode (sha256 ("mindone:abuse:job-assessment:v1" +:+ nul
    +:+ uuid_bytes user_id
    +:+ string_of_bytes (be_bytes 8 (str_len job_idempotency_key))
    +:+ job_idempotency_key))).
End signals.

(** ** The abuse tables *)

Record SessionRow : Type := mkSession {
  session_user : Z;
  session_device_key : option Z;
  session_revoked : bool;
}.

Record DeviceKeyRow : Type := mkDeviceKey {
  key_user : Z;
  fingerprint : string;
  key_revoked : bool;
}.

(** [abuse_network_observations]; times are microseconds. *)
Record ObservationRow : Type := mkObservation {
  observation_id : Z;
  observation_user : Z;
  observation_session : Z;
  observation_device_hash : string;
  observation_ip_prefix_hash : string;
  observation_asn_hash : option string;
  observation_source : string;
  observed_at : Z;
}.

(** [abuse_call_edges], keyed by consumer and node owner. *)
Record EdgeRow : Type := mkEdge {
  normal_requests : Z;
  verification_requests : Z;
}.

(** [abuse_decisions], keyed by user and assessment key. *)
Record DecisionRow : Type := mkDecisionRow {
  row_id : Z;
  row_request_hash : string;
  row_session : Z;
  row_observation : option Z;
  row_decision : string;
  row_risk_score_ppm : Z;
  row_contribution_weight_ppm : Z;
  row_reason_codes : list string;
  row_counts : RiskCounts;
}.

Record Db : Type := mkDb {
  sessions : gmap Z SessionRow;
  device_keys : gmap Z DeviceKeyRow;
  observations : list ObservationRow;
  edges : gmap (Z * Z) EdgeRow;
  decisions : gmap (Z * string) DecisionRow;
}.

Definition with_observations (db : Db) (o : list ObservationRow) : Db :=
  mkDb (sessions db) (device_keys db) o (edges db) (decisions db).
Definition with_edges (db : Db) (e : gmap (Z * Z) EdgeRow) : Db :=
  mkDb (sessions db) (device_keys db) (observations db) e (decisions db).
Definition with_decisions (db : Db) (d : gmap (Z * string) DecisionRow) : Db :=
  mkDb (sessions db) (device_keys db) (observations db) (edges db) d.

(** [COUNT(DISTINCT user_id)]. *)
Definition count_distinct (users : list Z) : Z := Z.of_nat (size (list_to_set users : gset Z)).

(** The session's unrevoked device key, if the session is the user's and live. *)
Definition device_fingerprint (db : Db) (session_id user_id : Z) : option string :=
  s ← sessions db !! session_id;
  if (session_user s =? user_id) && negb (session_revoked s) then
    key_id ← session_device_key s;
    dk ← device_keys db !! key_id;
    if key_revoked dk then None else Some (fingerprint dk)
  else None.

Definition device_users (db : Db) (print : string) : Z :=
  count_distinct (key_user <$>
    List.filter (λ k, String.eqb (fingerprint k) print) (map_to_list (device_keys db)).*2).

(** Microseconds in 24 hours. *)
Definition DAY_MICROS : Z := 86400000000.

Definition recent_users (db : Db) (now : Z) (p : ObservationRow → bool) : Z :=
  count_distinct (observation_user <$>
    List.filter (λ o, p o && (now - DAY_MICROS <? observed_at o)) (observations db)).

Definition edge_total (e : EdgeRow) : Z := normal_requests e + verification_requests e.

(** The join of an outbound edge with its reciprocal. *)
Definition reciprocal_pair (db : Db) (consumer node : Z) : option (Z * Z) :=
  outbound ← edges db !! (consumer, node);
  reciprocal ← edges db !! (node, consumer);
  Some (edge_total outbound, edge_total reciprocal).

(** [COALESCE(MAX(LEAST(..)), 0)] over the user's outbound edges. *)
Definition reciprocal_requests (db : Db) (user_id : Z) : Z :=
  let least :=
    omap (λ k : Z * Z,
      if k.1 =? user_id then
        '(o, r) ← reciprocal_pair db k.1 k.2; Some (Z.min o r)
      else None)
      (map_to_list (edges db)).*1 in
  match least with
  | [] => 0
  | x :: l => foldl Z.max x l
  end.

Definition load_existing_decision (db : Db) (user_id : Z) (assessment_key : string)
    : result AntiAbuseError (option (string * AntiAbuseDecision)) :=
  match decisions db !! (user_id, assessment_key) with
  | None => Ok None
  | Some row =>
    disposition ←
      (if String.eqb (row_decision row) "allow" then Ok Allow
       else if String.eqb (row_decision row) "block" then Ok Block
       else Err (InvalidInput "数据库包含未知反滥用决定"));
    Ok (Some (row_request_hash row,
      mkDecision disposition (row_risk_score_ppm row) (row_contribution_weight_ppm row)
        (row_reason_codes row)))
  end.

(** What the server supplies to a transaction: its clock and two fresh UUIDs. *)
Record Fresh : Type := mkFresh { now : Z; fresh_observation : Z; fresh_decision : Z }.

Section transactions.
Context (hmac : string → string → string).

(** The observation row of [assess_before_create_in_transaction]. *)
Definition new_observation (fresh : Fresh) (user_id session_id : Z) (device_hash : string)
    (network : TrustedNetworkSignal) : ObservationRow :=
  mkObservation (fresh_observation fresh) user_id session_id device_hash
    (ip_prefix_hash network) (asn_hash network) (source_as_str (source network)) (now fresh).

(** The queries between the observation and the decision. *)
Definition risk_counts (db : Db) (fresh : Fresh) (user_id : Z) (print : string)
    (network : option TrustedNetworkSignal) (require_network_signal : bool)
    : result AntiAbuseError RiskCounts :=
  let ip_user_count :=
    (λ n, recent_users db (now fresh)
       (λ o, String.eqb (observation_ip_prefix_hash o) (ip_prefix_hash n))) <$> network in
  let asn_user_count :=
    (λ h, recent_users db (now fresh)
       (λ o, bool_decide (observation_asn_hash o = Some h))) <$> (network ≫= asn_hash) in
  device ← count_i32 (device_users db print);
  ip ← match ip_user_count with None => Ok None | Some c => Some <$> count_i32 c end;
  asn ← match asn_user_count with None => Ok None | Some c => Some <$> count_i32 c end;
  Ok (mkRiskCounts (Some device) ip asn (reciprocal_requests db user_id)
    require_network_signal).

Definition assess_before_create_in_transaction (db : Db) (fresh : Fresh) (pepper : string)
    (user_id session_id : Z) (assessment_key : string)
    (network : option TrustedNetworkSignal) (require_network_signal : bool)
    : result AntiAbuseError (AntiAbuseDecision * Db) :=
  _ ← validate_assessment_key assessment_key;
  request_hash ← assessment_request_hash hmac pepper user_id session_id assessment_key network
    require_network_signal;
  existing ← load_existing_decision db user_id assessment_key;
  match existing with
  | Some (existing_hash, existing) =>
    if constant_time_equal existing_hash request_hash then Ok (existing, db)
    else Err IdempotencyConflict
  | None =>
    print ← ok_or (device_fingerprint db session_id user_id) MissingDeviceBinding;
    device_hash ← keyed_hash hmac pepper ("mindone:abuse:device:v1" +:+ nul) print;
    let db :=
      match network with
      | Some n =>
        with_observations db (new_observation fresh user_id session_id device_hash n
          :: observations db)
      | None => db
      end in
    counts ← risk_counts db fresh user_id print network require_network_signal;
    let decision := deterministic_decision counts in
    (* UNIQUE (request_hash) *)
    _ ← bail_if (existsb (λ row, String.eqb (row_request_hash row) request_hash)
        (map_to_list (decisions db)).*2) Database;
    let row := mkDecisionRow (fresh_decision fresh) request_hash session_id
      ((λ _, fresh_observation fresh) <$> network)
      (disposition_as_str (disposition decision)) (risk_score_ppm decision)
      (contribution_weight_ppm decision) (reason_codes decision) counts in
    Ok (decision, with_decisions db (<[(user_id, assessment_key) := row]> (decisions db)))
  end.

(** [begin], the transaction and [commit]: an error rolls back. *)
Definition assess_before_create (db : Db) (fresh : Fresh) (pepper : string)
    (user_id session_id : Z) (assessment_key : string)
    (network : option TrustedNetworkSignal) (require_network_signal : bool)
    : result AntiAbuseError AntiAbuseDecision * Db :=
  match assess_before_create_in_transaction db fresh pepper user_id session_id assessment_key
      network require_network_signal with
  | Ok (decision, db') => (Ok decision, db')
  | Err e => (Err e, db)
  end.
End transactions.

(** [settlement_contribution_weight]. *)
Definition settlement_contribution_weight (db : Db) (consumer_user_id node_user_id : Z)
    (traffic_class : TrafficClass) : Z :=
  if consumer_user_id =? node_user_id then 0
  else if bool_decide (traffic_class = Verification) then 100000
  else match reciprocal_pair db consumer_user_id node_user_id with
  | Some (outbound, inbound) =>
    if RECIPROCAL_BLOCK_REQUESTS <=? Z.min outbound inbound then 100000 else 1000000
  | None => 1000000
  end.

(** [record_settled_edge]: the upsert of one settled request. *)
Definition record_settled_edge (db : Db) (consumer_user_id node_user_id : Z)
    (traffic_class : TrafficClass) : Db :=
  let '(normal_increment, verification_increment) :=
    match traffic_class with Normal => (1, 0) | Verification => (0, 1) end in
  let row :=
    match edges db !! (consumer_user_id, node_user_id) with
    | None => mkEdge normal_increment verification_increment
    | Some e => mkEdge (normal_requests e + normal_increment)
                  (verification_requests e + verification_increment)
    end in
  with_edges db (<[(consumer_user_id, node_user_id) := row]> (edges db)).

(** ** Specification of the decision *)

Definition points_if (b : bool) (n : Z) : Z := if b then n else 0.

(** The weak, individually harmless signals. *)
Definition shared_device (c : RiskCounts) : bool :=
  is_some_and (device_user_count c) (λ n, n =? 2).
Definition shared_ip (c : RiskCounts) : bool :=
  is_some_and (ip_user_count c) (λ n, IP_PREFIX_SHARED_USERS <=? n).
Definition emerging_loop (c : RiskCounts) : bool := 5 <=? reciprocal_edge_requests c.

Definition weak_signals (c : RiskCounts) : Z :=
  points_if (shared_device c) 1 + points_if (shared_ip c) 1 + points_if (emerging_loop c) 1.

Definition ip_points (c : RiskCounts) : Z :=
  if is_some_and (ip_user_count c) (λ n, 5 <=? n) then 400000
  else points_if (shared_ip c) 250000.

Definition asn_points (c : RiskCounts) : Z :=
  if is_some_and (asn_user_count c) (λ n, 25 <=? n) then 200000
  else points_if (is_some_and (asn_user_count c) (λ n, 10 <=? n)) 100000.

Definition weak_points (c : RiskCounts) : Z :=
  points_if (shared_device c) 350000 + ip_points c + asn_points c
  + points_if (emerging_loop c) 350000.

(** The parts of [hard_block]. *)
Definition hard_device (c : RiskCounts) : bool :=
  is_none (device_user_count c) || is_some_and (device_user_count c) (λ n, DEVICE_BLOCK_USERS <=? n).
Definition hard_network (c : RiskCounts) : bool :=
  require_network_signal c && is_none (ip_user_count c).
Definition hard_loop (c : RiskCounts) : bool :=
  RECIPROCAL_BLOCK_REQUESTS <=? reciprocal_edge_requests c.

Lemma hard_block_parts c : hard_block c = hard_device c || hard_network c || hard_loop c.
Proof. unfold hard_block, hard_device, hard_network, hard_loop. by destruct (is_none _), (_ && _). Qed.

Lemma add_risk_eq s n : 0 ≤ s ≤ 1000000 → 0 ≤ n ≤ 1000000 → add_risk s n = Z.min 1000000 (s + n).
Proof. unfold add_risk, i32_saturating_add, i32_min, i32_max. lia. Qed.

Lemma u8_inc n : 0 ≤ n < 255 → u8_saturating_add n 1 = n + 1.
Proof. unfold u8_saturating_add. lia. Qed.

Lemma device_risk_spec c :
  let s := device_risk c (mkRisk 0 0 []) in
  risk s = (if hard_device c then 1000000 else points_if (shared_device c) 350000)
  ∧ categories s = if hard_device c then 0 else points_if (shared_device c) 1.
Proof.
  unfold device_risk, hard_device, shared_device.
  destruct (is_none _), (is_some_and _ _), (is_some_and _ _); done.
Qed.

Lemma ip_risk_spec c s :
  0 ≤ risk s ≤ 1000000 → 0 ≤ categories s < 255 →
  risk (ip_risk c s) =
    (if hard_network c then 1000000 else Z.min 1000000 (risk s + ip_points c))
  ∧ categories (ip_risk c s) =
      categories s + (if hard_network c then 0 else points_if (shared_ip c) 1).
Proof.
  intros Hr Hc. unfold ip_risk, hard_network, ip_points, shared_ip, IP_PREFIX_SHARED_USERS,
    IP_PREFIX_LARGE_SHARED_USERS.
  destruct (require_network_signal c && is_none (ip_user_count c)) eqn:E; simpl; [lia|].
  destruct (ip_user_count c) as [n|]; simpl; [|lia].
  destruct (Z.leb_spec 5 n), (Z.leb_spec 3 n); simpl; rewrite ?add_risk_eq, ?u8_inc by lia; lia.
Qed.

Lemma asn_risk_spec c s :
  0 ≤ risk s ≤ 1000000 →
  risk (asn_risk c s) = Z.min 1000000 (risk s + asn_points c)
  ∧ categories (asn_risk c s) = categories s.
Proof.
  intros Hr. unfold asn_risk, asn_points, ASN_SHARED_USERS, ASN_LARGE_SHARED_USERS.
  destruct (asn_user_count c) as [n|]; simpl; [|lia].
  destruct (Z.leb_spec 25 n), (Z.leb_spec 10 n); simpl; rewrite ?add_risk_eq by lia; lia.
Qed.

Lemma reciprocal_risk_spec c s :
  0 ≤ risk s ≤ 1000000 → 0 ≤ categories s < 255 →
  risk (reciprocal_risk c s) =
    (if hard_loop c then 1000000
     else Z.min 1000000 (risk s + points_if (emerging_loop c) 350000))
  ∧ categories (reciprocal_risk c s) =
      categories s + (if hard_loop c then 0 else points_if (emerging_loop c) 1).
Proof.
  intros Hr Hc. unfold reciprocal_risk, hard_loop, emerging_loop, RECIPROCAL_BLOCK_REQUESTS.
  destruct (Z.leb_spec 10 (reciprocal_edge_requests c)); simpl; [lia|].
  destruct (Z.leb_spec 5 (reciprocal_edge_requests c)); simpl;
    rewrite ?add_risk_eq, ?u8_inc by lia; lia.
Qed.

Lemma points_if_range b n : 0 ≤ n → 0 ≤ points_if b n ≤ n.
Proof. destruct b; simpl; lia. Qed.

Lemma weak_points_range c : 0 ≤ ip_points c ≤ 400000 ∧ 0 ≤ asn_points c ≤ 200000.
Proof.
  unfold ip_points, asn_points, points_if. repeat case_match; lia.
Qed.

Lemma risk_state_spec c :
  risk (risk_state c) = (if hard_block c then 1000000 else Z.min 1000000 (weak_points c))
  ∧ (hard_block c = false → categories (risk_state c) = weak_signals c).
Proof.
  unfold risk_state. rewrite hard_block_parts.
  destruct (device_risk_spec c) as [R1 C1].
  set (s1 := device_risk c (mkRisk 0 0 [])) in *. clearbody s1.
  pose proof (weak_points_range c) as [Hi Ha].
  pose proof (points_if_range (shared_device c) 350000 ltac:(lia)). pose proof (points_if_range (shared_device c) 1 ltac:(lia)).
  pose proof (points_if_range (shared_ip c) 1 ltac:(lia)). pose proof (points_if_range (emerging_loop c) 350000 ltac:(lia)).
  pose proof (points_if_range (emerging_loop c) 1 ltac:(lia)).
  destruct (ip_risk_spec c s1) as [R2 C2]; [destruct (hard_device c); lia..|].
  set (s2 := ip_risk c s1) in *. clearbody s2.
  destruct (asn_risk_spec c s2) as [R3 C3]; [destruct (hard_network c), (hard_device c); lia|].
  set (s3 := asn_risk c s2) in *. clearbody s3.
  destruct (reciprocal_risk_spec c s3) as [R4 C4];
    [destruct (hard_network c), (hard_device c); lia..|].
  unfold weak_points, weak_signals.
  destruct (hard_device c), (hard_network c), (hard_loop c); simpl; split; try done; lia.
Qed.

(** ** Properties of the decision *)

(** The decision is exactly its published rule. A request is blocked when a
    hard signal is present (no device, three or more users on the device, a
    required network signal missing, ten reciprocal requests) or when at least
    two weak signals other than the ASN corroborate each other with 700,000
    points; the score is 1,000,000 on a hard signal and otherwise the sum of the
    weak points capped there; a blocked request earns no contribution, a
    risky one half, any other the whole. In particular an ASN by itself never
    blocks, and the score never leaves 0..=1,000,000. *)
Theorem decision_rule c :
  let d := deterministic_decision c in
  risk_score_ppm d = (if hard_block c then 1000000 else Z.min 1000000 (weak_points c))
  ∧ 0 ≤ risk_score_ppm d ≤ 1000000
  ∧ (disposition d = Block ↔
       hard_block c = true ∨ 2 ≤ weak_signals c ∧ 700000 ≤ weak_points c)
  ∧ contribution_weight_ppm d =
      (if decide (disposition d = Block) then 0
       else if 250000 <=? weak_points c then 500000 else 1000000)
  ∧ (hard_block c = false → shared_device c = false → shared_ip c = false →
       emerging_loop c = false → disposition d = Allow).
Proof.
  destruct (risk_state_spec c) as [R C]. pose proof (weak_points_range c) as [Hi Ha].
  assert (0 ≤ weak_points c) as Hw.
  { unfold weak_points, points_if. repeat case_match; lia. }
  unfold deterministic_decision. cbn [risk_score_ppm disposition contribution_weight_ppm].
  rewrite R. destruct (hard_block c); cbn [orb].
  { split_and!; try done; try lia. split; auto. }
  rewrite C by done.
  assert ((2 <=? weak_signals c) && (700000 <=? Z.min 1000000 (weak_points c)) = true
    ↔ 2 ≤ weak_signals c ∧ 700000 ≤ weak_points c) as Hcor.
  { rewrite andb_true_iff, !Z.leb_le. lia. }
  assert ((250000 <=? Z.min 1000000 (weak_points c)) = (250000 <=? weak_points c)) as ->.
  { apply eq_bool_prop_intro. rewrite !Is_true_true, !Z.leb_le. lia. }
  destruct (_ && _); split_and!; try done; try lia.
  - split; [|done]. intros _. right. by apply Hcor.
  - intros _ E1 E2 E3. unfold weak_signals in Hcor. rewrite E1, E2, E3 in Hcor. simpl in Hcor. lia.
  - split; [done|]. intros [?|H]; [done|]. by apply Hcor in H.
Qed.

(** One observation is at least as suspicious as another: every count that was
    measured is still measured and no smaller. *)
Definition count_le (a b : option Z) : Prop :=
  match a, b with Some x, Some y => x ≤ y | None, None => True | _, _ => False end.

Definition counts_le (c c' : RiskCounts) : Prop :=
  count_le (device_user_count c) (device_user_count c')
  ∧ count_le (ip_user_count c) (ip_user_count c')
  ∧ count_le (asn_user_count c) (asn_user_count c')
  ∧ reciprocal_edge_requests c ≤ reciprocal_edge_requests c'
  ∧ require_network_signal c = require_network_signal c'.

Lemma threshold_mono a b k1 k2 p1 p2 :
  count_le a b → k2 ≤ k1 → 0 ≤ p2 ≤ p1 →
  (if is_some_and a (λ n, k1 <=? n) then p1 else points_if (is_some_and a (λ n, k2 <=? n)) p2)
  ≤ (if is_some_and b (λ n, k1 <=? n) then p1 else points_if (is_some_and b (λ n, k2 <=? n)) p2).
Proof.
  destruct a as [x|], b as [y|]; simpl; try done. intros.
  destruct (Z.leb_spec k1 x), (Z.leb_spec k1 y), (Z.leb_spec k2 x), (Z.leb_spec k2 y); simpl; lia.
Qed.

Lemma weak_device_mono a b p :
  count_le a b → is_some_and b (λ n, 3 <=? n) = false → 0 ≤ p →
  points_if (is_some_and a (λ n, n =? 2)) p ≤ points_if (is_some_and b (λ n, n =? 2)) p.
Proof.
  destruct a as [x|], b as [y|]; simpl; try done. rewrite Z.leb_gt. intros.
  destruct (Z.eqb_spec x 2), (Z.eqb_spec y 2); simpl; lia.
Qed.

Lemma loop_mono r r' p :
  r ≤ r' → 0 ≤ p → points_if (5 <=? r) p ≤ points_if (5 <=? r') p.
Proof. intros. destruct (Z.leb_spec 5 r), (Z.leb_spec 5 r'); simpl; lia. Qed.

Lemma hard_mono c c' : counts_le c c' → hard_block c' = false → hard_block c = false.
Proof.
  intros (Hd & Hi & Ha & Hr & Hn). unfold hard_block, DEVICE_BLOCK_USERS, RECIPROCAL_BLOCK_REQUESTS.
  rewrite Hn, !orb_false_iff, !Z.leb_gt. intros [[[H1 H2] H3] H4]. split_and!; [..|lia].
  - by destruct (device_user_count c), (device_user_count c').
  - destruct (device_user_count c), (device_user_count c'); simpl in *; try done.
    rewrite Z.leb_gt in *. lia.
  - by destruct (ip_user_count c), (ip_user_count c').
Qed.

(** Outside hard blocks every summand of the score grows with the counts. *)
Lemma weak_mono c c' :
  counts_le c c' → hard_block c' = false →
  weak_points c ≤ weak_points c' ∧ weak_signals c ≤ weak_signals c'.
Proof.
  intros (Hd & Hi & Ha & Hr & Hn) Hh. rewrite hard_block_parts, !orb_false_iff in Hh.
  destruct Hh as [[[_ Hdev]%orb_false_iff _] _].
  unfold weak_points, weak_signals, ip_points, asn_points, shared_device, shared_ip, emerging_loop,
    IP_PREFIX_SHARED_USERS, DEVICE_BLOCK_USERS in *.
  pose proof (threshold_mono _ _ 5 3 400000 250000 Hi ltac:(lia) ltac:(lia)).
  pose proof (threshold_mono _ _ 25 10 200000 100000 Ha ltac:(lia) ltac:(lia)).
  pose proof (threshold_mono _ _ 3 3 1 1 Hi ltac:(lia) ltac:(lia)) as H3.
  pose proof (weak_device_mono _ _ 350000 Hd Hdev ltac:(lia)).
  pose proof (weak_device_mono _ _ 1 Hd Hdev ltac:(lia)).
  pose proof (loop_mono _ _ 350000 Hr ltac:(lia)). pose proof (loop_mono _ _ 1 Hr ltac:(lia)).
  assert (∀ b : bool, (if b then 1 else points_if b 1) = points_if b 1) as E by by intros [].
  rewrite !E in H3. lia.
Qed.

(** The decision is monotone in the evidence: raising any measured count
    never lowers the risk score, never raises the contribution weight and
    never turns a blocked request into an allowed one. *)
Theorem decision_monotone c c' :
  counts_le c c' →
  let d := deterministic_decision c in
  let d' := deterministic_decision c' in
  risk_score_ppm d ≤ risk_score_ppm d'
  ∧ contribution_weight_ppm d' ≤ contribution_weight_ppm d
  ∧ (disposition d = Block → disposition d' = Block).
Proof.
  intros Hle. cbv zeta. pose proof (hard_mono c c' Hle) as Hh. pose proof (weak_mono c c' Hle) as Hw.
  destruct (decision_rule c) as (R & B & D & W & _).
  destruct (decision_rule c') as (R' & B' & D' & W' & _).
  rewrite W, W'. destruct (hard_block c') eqn:E'.
  - rewrite decide_True by (apply D'; auto). split_and!; [lia| |].
    + repeat case_match; lia.
    + intros _. apply D'. auto.
  - rewrite Hh in * by done. destruct (Hw eq_refl) as [Hp Hs].
    assert (disposition (deterministic_decision c) = Block →
      disposition (deterministic_decision c') = Block) as HB.
    { rewrite D, D'. intros [?|[? ?]]; [done|right; lia]. }
    split_and!; [lia| |done].
    destruct (decide (disposition (deterministic_decision c) = Block)) as [e|];
      [rewrite decide_True by auto; lia|].
    destruct (decide _); [repeat case_match; lia|].
    destruct (Z.leb_spec 250000 (weak_points c)), (Z.leb_spec 250000 (weak_points c')); lia.
Qed.

Lemma decision_monotone_witness :
  let c := mkRiskCounts (Some 2) (Some 4) (Some 12) 0 true in
  let c' := mkRiskCounts (Some 2) (Some 6) (Some 30) 5 true in
  counts_le c c'
  ∧ risk_score_ppm (deterministic_decision c) ≤ risk_score_ppm (deterministic_decision c')
  ∧ deterministic_decision c = mkDecision Block 700000 0
      ["shared_device"; "shared_ip_prefix"; "shared_asn_cluster"].
Proof.
  assert (counts_le (mkRiskCounts (Some 2) (Some 4) (Some 12) 0 true)
    (mkRiskCounts (Some 2) (Some 6) (Some 30) 5 true)) as H.
  { unfold counts_le; simpl. lia. }
  split; [exact H|]. split; [|reflexivity].
  exact (proj1 (decision_monotone _ _ H)).
Defined.

(** ** Lemmas on hashes and keys *)

Lemma zip_lor_zero (l1 l2 : list Z) acc :
  length l1 = length l2 →
  foldl (λ d (p : Z * Z), Z.lor d (Z.lxor p.1 p.2)) acc (zip l1 l2) = 0 ↔ acc = 0 ∧ l1 = l2.
Proof.
  revert l2 acc. induction l1 as [|a l1 IH]; intros [|b l2] acc Hl; simplify_eq/=; [naive_solver|].
  rewrite IH by lia. rewrite Z.lor_eq_0_iff, Z.lxor_eq_0_iff. naive_solver.
Qed.

Lemma bytes_of_inj s t : bytes_of s = bytes_of t → s = t.
Proof.
  revert t. induction s as [|a s IH]; intros [|b t]; simpl; try done.
  intros [= E ?]. apply byte_val_inj in E as ->. f_equal. by apply IH.
Qed.

Lemma length_bytes_of s : length (bytes_of s) = String.length s.
Proof. induction s as [|a s IH]; simpl; [done|by rewrite IH]. Qed.

(** The constant-time comparison accumulates differences over every byte yet
    decides exactly equality. *)
Theorem constant_time_equal_correct s t : constant_time_equal s t = true ↔ s = t.
Proof.
  unfold constant_time_equal, str_len. destruct (Z.eqb_spec (Z.of_nat (String.length s))
    (Z.of_nat (String.length t))) as [E|E]; simpl.
  - rewrite Z.eqb_eq, zip_lor_zero by (rewrite !length_bytes_of; lia).
    split; [intros [_ ?]; by apply bytes_of_inj|by intros ->].
  - split; [done|]. by intros ->.
Qed.

Lemma hex_digit_inj a b : 0 ≤ a < 16 → 0 ≤ b < 16 → hex_digit a = hex_digit b → a = b.
Proof. unfold hex_digit. intros. destruct (Z.ltb_spec a 10), (Z.ltb_spec b 10); lia. Qed.

Lemma hex_digit_range a : 0 ≤ a < 16 → 0 ≤ hex_digit a < 256.
Proof. unfold hex_digit. destruct (Z.ltb_spec a 10); lia. Qed.

Lemma hex_encode_inj s t : hex_encode s = hex_encode t → s = t.
Proof.
  revert t. induction s as [|a s IH]; intros [|b t]; simpl; try done.
  intros [= E1 E2 E]. pose proof (byte_val_range a). pose proof (byte_val_range b).
  assert (0 ≤ byte_val a / 16 < 16 ∧ 0 ≤ byte_val b / 16 < 16) as [? ?].
  { split; (split; [apply Z.div_pos; lia|apply Z.div_lt_upper_bound; lia]). }
  pose proof (Z.mod_pos_bound (byte_val a) 16 ltac:(lia)).
  pose proof (Z.mod_pos_bound (byte_val b) 16 ltac:(lia)).
  apply (f_equal byte_val) in E1, E2. rewrite !byte_val_of in E1, E2 by (apply hex_digit_range; lia).
  apply hex_digit_inj in E1, E2; [|done..].
  rewrite (IH _ E). f_equal. apply byte_val_inj.
  rewrite (Z.div_mod (byte_val a) 16), (Z.div_mod (byte_val b) 16) by lia. lia.
Qed.

Lemma length_hex_encode s : String.length (hex_encode s) = (2 * String.length s)%nat.
Proof. induction s as [|a s IH]; simpl; [done|]. rewrite IH. lia. Qed.

(** A prefix over an alphabet ends at the first byte outside it. *)
Lemma alphabet_split_inj (p : Z → bool) k k' x y r r' :
  all_bytes p k = true → all_bytes p k' = true → p (byte_val x) = false → p (byte_val y) = false →
  (k +:+ String x r)%string = (k' +:+ String y r')%string → k = k' ∧ x = y ∧ r = r'.
Proof.
  intros Hk Hk' Hx Hy. revert k' Hk'. induction k as [|a k IH]; intros [|b k'] Hk'; simpl in *.
  - intros [= -> ->]. done.
  - intros [= -> _]. apply andb_true_iff in Hk' as [? _]. congruence.
  - intros [= <- _]. apply andb_true_iff in Hk as [? _]. congruence.
  - intros [= -> E]. apply andb_true_iff in Hk as [_ Hk], Hk' as [_ Hk'].
    destruct (IH Hk k' Hk' E) as (-> & -> & ->). done.
Qed.

(** The hashes of a signal are 64 hexadecimal digits. *)
Definition signal_wf (n : TrustedNetworkSignal) : Prop :=
  String.length (ip_prefix_hash n) = 64%nat
  ∧ ∀ h, asn_hash n = Some h → String.length h = 64%nat.

Lemma keyed_hash_Ok hmac pepper domain v h :
  keyed_hash hmac pepper domain v = Ok h →
  32 ≤ str_len pepper ∧ h = hex_encode (hmac pepper (domain +:+ v)).
Proof. unfold keyed_hash. intros H. ok_inv. int_inv. done. Qed.

Lemma from_connection_wf hmac peer header pepper lookup proxies n :
  (∀ k m, String.length (hmac k m) = 32%nat) →
  from_connection hmac peer header pepper lookup proxies = Ok (Some n) → signal_wf n.
Proof.
  intros Hlen. unfold from_connection. destruct peer as [peer|]; [|done].
  destruct (if bool_decide _ then _ else _) as [[a src]|]; [|done]. intros H.
  apply bind_Ok in H as (ip & [_ Hip]%keyed_hash_Ok & H). apply bind_Ok in H as (asn & Hasn & H).
  injection H as <-. split; simpl.
  - by rewrite Hip, length_hex_encode, Hlen.
  - intros h ->. destruct (lookup a) as [x|]; [|done].
    apply fmap_Ok in Hasn as (h' & [_ Hh]%keyed_hash_Ok & [= ->]).
    by rewrite Hh, length_hex_encode, Hlen.
Qed.

Definition network_bytes (network : option TrustedNetworkSignal) : string :=
  match network with
  | Some n => ip_prefix_hash n +:+ default "" (asn_hash n) +:+ source_as_str (source n)
  | None => ""
  end.

Lemma length_append (a b : string) :
  String.length (a +:+ b) = (String.length a + String.length b)%nat.
Proof. induction a as [|x a IH]; simpl; [done|by rewrite IH]. Qed.

Lemma network_bytes_inj n n' :
  (∀ x, n = Some x → signal_wf x) → (∀ x, n' = Some x → signal_wf x) →
  network_bytes n = network_bytes n' → n = n'.
Proof.
  intros Hn Hn' E. pose proof (f_equal String.length E) as L.
  destruct n as [[ip asn src]|], n' as [[ip' asn' src']|]; simpl in *; try done.
  - destruct (Hn _ eq_refl) as [Li La], (Hn' _ eq_refl) as [Li' La']; simpl in *.
    apply append_same_length_inj in E as [-> E]; [|congruence].
    assert (∀ h, asn = Some h → String.length h = 64%nat) as Ha by done.
    assert (∀ h, asn' = Some h → String.length h = 64%nat) as Ha' by done.
    rewrite !length_append in L. clear La La' Hn Hn'.
    destruct asn as [a|], asn' as [a'|]; simpl in *.
    + pose proof (Ha _ eq_refl). pose proof (Ha' _ eq_refl).
      apply append_same_length_inj in E as [-> E]; [|congruence]. by destruct src, src'.
    + pose proof (Ha _ eq_refl). destruct src, src'; simpl in *; lia.
    + pose proof (Ha' _ eq_refl). destruct src, src'; simpl in *; lia.
    + by destruct src, src'.
  - destruct (Hn _ eq_refl) as [Li _]; simpl in *. rewrite length_append in L. lia.
  - destruct (Hn' _ eq_refl) as [Li _]; simpl in *. rewrite length_append in L. lia.
Qed.

Lemma validate_assessment_key_Ok k u :
  validate_assessment_key k = Ok u →
  all_bytes (λ b, is_ascii_alphanumeric b || byte_in "-_.:" b) k = true.
Proof.
  unfold validate_assessment_key. intros H. ok_inv. int_inv.
  by match goal with H : negb _ = false |- _ => apply negb_false_iff in H end.
Qed.

Lemma assessment_bytes_inj u u' s s' k k' n n' q q' :
  0 ≤ u ≤ u128_max → 0 ≤ u' ≤ u128_max → 0 ≤ s ≤ u128_max → 0 ≤ s' ≤ u128_max →
  validate_assessment_key k = Ok tt → validate_assessment_key k' = Ok tt →
  (∀ x, n = Some x → signal_wf x) → (∀ x, n' = Some x → signal_wf x) →
  assessment_bytes u s k n q = assessment_bytes u' s' k' n' q' →
  u = u' ∧ s = s' ∧ k = k' ∧ n = n' ∧ q = q'.
Proof.
  intros Hu Hu' Hs Hs' Hk%validate_assessment_key_Ok Hk'%validate_assessment_key_Ok Hn Hn'.
  unfold assessment_bytes. fold (network_bytes n) (network_bytes n'). intros E.
  apply append_same_length_inj in E as [Eu E]; [|by rewrite !length_uuid_bytes].
  apply append_same_length_inj in E as [Es E]; [|by rewrite !length_uuid_bytes].
  apply uuid_bytes_inj in Eu, Es; [|done..]. simpl in E.
  apply (alphabet_split_inj _ _ _ _ _ _ _ Hk Hk') in E as (-> & Eq & E); [|by destruct q|by destruct q'].
  apply network_bytes_inj in E as ->; [|done..]. by destruct q, q'.
Qed.

(** ** The stored decision *)

Definition hmac_collision (hmac : string → string → string) : Prop :=
  ∃ k a b, a ≠ b ∧ hmac k a = hmac k b.

Lemma append_inj_r (a b c : string) : (a +:+ b)%string = (a +:+ c)%string → b = c.
Proof. induction a as [|x a IH]; simpl; [done|]. intros [= E]. by apply IH. Qed.

Lemma load_existing_stored db u k h d id s o c :
  decisions db !! (u, k) = Some (mkDecisionRow id h s o (disposition_as_str (disposition d))
    (risk_score_ppm d) (contribution_weight_ppm d) (reason_codes d) c) →
  load_existing_decision db u k = Ok (Some (h, d)).
Proof. unfold load_existing_decision. intros ->. simpl. by destruct d as [[] ? ? ?]. Qed.

(** After a successful assessment the row of its key holds its request hash and
    its decision, whether it was written now or found. *)
Lemma assess_stored hmac db fresh pepper u s k n q d db' :
  assess_before_create_in_transaction hmac db fresh pepper u s k n q = Ok (d, db') →
  validate_assessment_key k = Ok tt
  ∧ ∃ h, assessment_request_hash hmac pepper u s k n q = Ok h
      ∧ load_existing_decision db' u k = Ok (Some (h, d)).
Proof.
  unfold assess_before_create_in_transaction. intros H.
  apply bind_Ok in H as ([] & Hk & H). split; [done|].
  apply bind_Ok in H as (h & Hh & H). exists h. split; [done|].
  apply bind_Ok in H as ([[h' d']|] & Hl & H).
  - destruct (constant_time_equal h' h) eqn:E; [|done].
    apply constant_time_equal_correct in E as ->. injection H as <- <-. done.
  - apply bind_Ok in H as (print & _ & H). apply bind_Ok in H as (dh & _ & H).
    apply bind_Ok in H as (c & _ & H). apply bind_Ok in H as ([] & _ & H).
    injection H as <- <-. eapply load_existing_stored. simpl. apply lookup_insert_eq.
Qed.

Lemma load_existing_same db db' u k :
  decisions db !! (u, k) = decisions db' !! (u, k) →
  load_existing_decision db u k = load_existing_decision db' u k.
Proof. unfold load_existing_decision. by intros ->. Qed.

(** Assessing a key that is already decided reads the decision back. *)
Lemma assess_existing hmac db fresh pepper u s k n q h d :
  validate_assessment_key k = Ok tt → load_existing_decision db u k = Ok (Some (h, d)) →
  assess_before_create_in_transaction hmac db fresh pepper u s k n q =
    (request_hash ← assessment_request_hash hmac pepper u s k n q;
     if String.eqb h request_hash then Ok (d, db) else Err IdempotencyConflict).
Proof.
  intros Hk Hl. unfold assess_before_create_in_transaction. rewrite Hk. simpl.
  destruct (assessment_request_hash _ _ _ _ _ _ _) as [h'|e]; simpl; [|done].
  rewrite Hl. simpl. destruct (String.eqb_spec h h') as [->|Hne].
  - by rewrite (proj2 (constant_time_equal_correct h' h') eq_refl).
  - destruct (constant_time_equal h h') eqn:E; [|done].
    by apply constant_time_equal_correct in E.
Qed.

Lemma request_hash_commits hmac pepper u s s' k n n' q q' h :
  0 ≤ u ≤ u128_max → 0 ≤ s ≤ u128_max → 0 ≤ s' ≤ u128_max →
  validate_assessment_key k = Ok tt →
  (∀ x, n = Some x → signal_wf x) → (∀ x, n' = Some x → signal_wf x) →
  assessment_request_hash hmac pepper u s k n q = Ok h →
  assessment_request_hash hmac pepper u s' k n' q' = Ok h →
  s' = s ∧ n' = n ∧ q' = q ∨ hmac_collision hmac.
Proof.
  intros Hu Hs Hs' Hk Hn Hn' [_ E]%keyed_hash_Ok [_ E']%keyed_hash_Ok.
  rewrite E in E'. apply hex_encode_inj in E'.
  destruct (String.eqb_spec (assessment_bytes u s k n q) (assessment_bytes u s' k n' q')) as [Eb|Hne].
  - left. apply assessment_bytes_inj in Eb as (_ & -> & _ & -> & ->); done.
  - right. eexists _, _, _. split; [|exact E']. intros Eb. by apply append_inj_r in Eb.
Qed.

(** An assessment is idempotent and its key is bound to its request. Once an
    assessment of (user, key) has returned a decision, and as long as its
    append-only row is there, repeating the request in any later state of the
    tables, whatever the clock, the new rows and the counts then say, returns
    the same decision and writes nothing; and any assessment of the same key
    that succeeds is that same request (same session, same network signal,
    same requirement), up to a collision of the keyed hash. *)
Theorem assess_idempotent hmac db fresh pepper u s k n q d db1 :
  assess_before_create_in_transaction hmac db fresh pepper u s k n q = Ok (d, db1) →
  0 ≤ u ≤ u128_max → 0 ≤ s ≤ u128_max → (∀ x, n = Some x → signal_wf x) →
  ∀ db2 fresh', decisions db2 !! (u, k) = decisions db1 !! (u, k) →
    assess_before_create_in_transaction hmac db2 fresh' pepper u s k n q = Ok (d, db2)
    ∧ ∀ s' n' q' d' db3,
        0 ≤ s' ≤ u128_max → (∀ x, n' = Some x → signal_wf x) →
        assess_before_create_in_transaction hmac db2 fresh' pepper u s' k n' q' = Ok (d', db3) →
        d' = d ∧ db3 = db2 ∧ (s' = s ∧ n' = n ∧ q' = q ∨ hmac_collision hmac).
Proof.
  intros (Hk & h & Hh & Hl)%assess_stored Hu Hs Hn db2 fresh' Erow.
  rewrite <-(load_existing_same _ _ _ _ Erow) in Hl. split.
  - erewrite assess_existing by done. rewrite Hh. simpl. by rewrite String.eqb_refl.
  - intros s' n' q' d' db3 Hs' Hn' H. erewrite assess_existing in H by done.
    apply bind_Ok in H as (h' & Hh' & H). destruct (String.eqb_spec h h') as [<-|]; [|done].
    injection H as <- <-. split; [done|]. split; [done|].
    by apply (request_hash_commits hmac pepper u s s' k n n' q q' h).
Qed.

(** ** The call graph *)

Definition total (db : Db) (a b : Z) : Z := default 0 (edge_total <$> edges db !! (a, b)).

Definition settled (l : list (Z * Z * TrafficClass)) (a b : Z) : Z :=
  Z.of_nat (length (List.filter (λ e, (e.1.1 =? a) && (e.1.2 =? b)) l)).

Definition record_all (db : Db) (l : list (Z * Z * TrafficClass)) : Db :=
  foldl (λ db e, record_settled_edge db e.1.1 e.1.2 e.2) db l.

Lemma record_total db a b t x y :
  total (record_settled_edge db a b t) x y
    = total db x y + (if (a =? x) && (b =? y) then 1 else 0).
Proof.
  unfold total, record_settled_edge.
  set (inc := match t with Normal => (1, 0) | Verification => (0, 1) end).
  assert (inc.1 + inc.2 = 1) as Hinc by by destruct t. destruct inc as [ni vi]. simpl in *.
  destruct (Z.eqb_spec a x) as [->|]; simpl.
  - destruct (Z.eqb_spec b y) as [->|].
    + rewrite lookup_insert_eq. simpl.
      destruct (edges db !! (x, y)) as [e|]; unfold edge_total; simpl; lia.
    + rewrite lookup_insert_ne by naive_solver. lia.
  - rewrite lookup_insert_ne by naive_solver. lia.
Qed.

Lemma record_all_total l db x y : total (record_all db l) x y = total db x y + settled l x y.
Proof.
  revert db. induction l as [|[[a b] t] l IH]; intros db; simpl; [unfold settled; simpl; lia|].
  rewrite IH, record_total. unfold settled. simpl.
  destruct ((a =? x) && (b =? y)); simpl length; lia.
Qed.

Lemma reciprocal_pair_totals db a b n :
  0 < n → (∃ o r, reciprocal_pair db a b = Some (o, r) ∧ n ≤ Z.min o r)
    ↔ n ≤ Z.min (total db a b) (total db b a).
Proof.
  intros Hn. unfold reciprocal_pair, total.
  destruct (edges db !! (a, b)) as [e|], (edges db !! (b, a)) as [e'|]; simpl.
  1: { split; [by intros (o & r & [= <- <-] & ?)|]. intros ?. eauto. }
  all: split; [by intros (o & r & ? & ?)|lia].
Qed.

Lemma foldl_max_spec (l : list Z) x n : n ≤ foldl Z.max x l ↔ n ≤ x ∨ ∃ y, y ∈ l ∧ n ≤ y.
Proof.
  revert x. induction l as [|y l IH]; intros x; simpl.
  - split; [by left|]. intros [|(y & Hy & _)]; [done|set_solver].
  - rewrite IH. rewrite Z.max_le_iff. setoid_rewrite elem_of_cons. naive_solver.
Qed.

Lemma reciprocal_requests_spec db u n :
  0 < n → n ≤ reciprocal_requests db u ↔ ∃ v, n ≤ Z.min (total db u v) (total db v u).
Proof.
  intros Hn. unfold reciprocal_requests.
  set (f := λ k : Z * Z, if k.1 =? u then
    '(o, r) ← reciprocal_pair db k.1 k.2; Some (Z.min o r) else None).
  assert ((∃ y, y ∈ omap f (map_to_list (edges db)).*1 ∧ n ≤ y)
    ↔ ∃ v, n ≤ Z.min (total db u v) (total db v u)) as <-.
  { setoid_rewrite <-(reciprocal_pair_totals db u _ n Hn). split.
    - intros (y & (k & _ & Hf)%list_elem_of_omap & Hy). unfold f in Hf.
      destruct (Z.eqb_spec k.1 u) as [E|]; [|done].
      apply bind_Some in Hf as ([o r] & Hp & [= <-]). rewrite E in Hp. eauto.
    - intros (v & o & r & Hp & Hle). exists (Z.min o r). split; [|done].
      apply list_elem_of_omap. exists (u, v). split.
      + unfold reciprocal_pair in Hp. apply bind_Some in Hp as (e & He & _).
        apply list_elem_of_fmap. exists ((u, v), e). split; [done|]. by apply elem_of_map_to_list.
      + unfold f. simpl. rewrite Z.eqb_refl. by rewrite Hp. }
  destruct (omap f _) as [|x l].
  - split; [lia|]. intros (y & Hy & _). set_solver.
  - rewrite foldl_max_spec. setoid_rewrite elem_of_cons. naive_solver.
Qed.

Lemma count_i32_Ok v x : count_i32 v = Ok x → x = v.
Proof. unfold count_i32, i32_try_from. intros H. ok_inv. by int_inv. Qed.

(** A loop of mutual calls is recognised from the settled requests alone.
    After any sequence of settled requests on an empty graph, a normal request
    between distinct users earns a tenth of its contribution exactly when both
    directions have at least ten requests, self-dealing earns none; and once
    such a loop exists, every new assessment of either user is blocked,
    whatever its device and network. *)
Theorem reciprocal_loop_detected hmac db l a b :
  edges db = ∅ → a ≠ b →
  let db' := record_all db l in
  settlement_contribution_weight db' a a Normal = 0
  ∧ (settlement_contribution_weight db' a b Normal =
       if 10 <=? Z.min (settled l a b) (settled l b a) then 100000 else 1000000)
  ∧ (10 ≤ Z.min (settled l a b) (settled l b a) →
     ∀ fresh pepper s k n q d db2, decisions db' !! (a, k) = None →
       assess_before_create_in_transaction hmac db' fresh pepper a s k n q = Ok (d, db2) →
       disposition d = Block ∧ contribution_weight_ppm d = 0).
Proof.
  intros He Hab db'.
  assert (∀ x y, total db' x y = settled l x y) as Ht.
  { intros x y. unfold db'. rewrite record_all_total. unfold total. by rewrite He, lookup_empty. }
  split_and!.
  - unfold settlement_contribution_weight. by rewrite Z.eqb_refl.
  - unfold settlement_contribution_weight, RECIPROCAL_BLOCK_REQUESTS.
    rewrite (proj2 (Z.eqb_neq a b)), bool_decide_false by done.
    pose proof (reciprocal_pair_totals db' a b 10 ltac:(lia)) as Hp. rewrite !Ht in Hp.
    destruct (Z.leb_spec 10 (Z.min (settled l a b) (settled l b a))) as [Hle|Hlt].
    + apply Hp in Hle as (o & r & -> & Hle). by rewrite (proj2 (Z.leb_le _ _) Hle).
    + destruct (reciprocal_pair db' a b) as [[o r]|] eqn:E; [|done].
      destruct (Z.leb_spec 10 (Z.min o r)); [|done]. exfalso.
      assert (10 ≤ Z.min (settled l a b) (settled l b a)); [|lia]. apply Hp. eauto.
  - intros Hloop fresh pepper s k n q d db2 Hnone H.
    assert (10 ≤ reciprocal_requests db' a) as Hr.
    { apply reciprocal_requests_spec; [lia|]. exists b. by rewrite !Ht. }
    unfold assess_before_create_in_transaction in H.
    apply bind_Ok in H as ([] & _ & H). apply bind_Ok in H as (h & _ & H).
    unfold load_existing_decision in H. rewrite Hnone in H. simpl in H.
    apply bind_Ok in H as (print & _ & H). apply bind_Ok in H as (dh & _ & H).
    apply bind_Ok in H as (c & Hc & H). apply bind_Ok in H as ([] & _ & [= <- _]).
    destruct (decision_rule c) as (_ & _ & D & W & _). rewrite W.
    assert (hard_block c = true) as Hh.
    { unfold risk_counts in Hc. apply bind_Ok in Hc as (x1 & _ & Hc).
      apply bind_Ok in Hc as (x2 & _ & Hc). apply bind_Ok in Hc as (x3 & _ & [= <-]).
      unfold hard_block, RECIPROCAL_BLOCK_REQUESTS; simpl.
      apply orb_true_iff. right. apply Z.leb_le. by destruct n. }
    assert (disposition (deterministic_decision c) = Block) as HB by (apply D; auto).
    by rewrite decide_True.
Qed.

(** ** The minimised network signal *)

(** Same /24 of IPv4 or same /56 of IPv6. *)
Definition same_network (a b : IpAddr) : Prop :=
  match a, b with
  | V4 x, V4 y => Z.shiftr x 8 = Z.shiftr y 8
  | V6 x, V6 y => Z.shiftr x 72 = Z.shiftr y 72
  | _, _ => False
  end.

Lemma take_be_bytes_shift m k x y :
  0 ≤ x < 256 ^ Z.of_nat (m + k) → 0 ≤ y < 256 ^ Z.of_nat (m + k) →
  take m (be_bytes (m + k) x) = take m (be_bytes (m + k) y)
    ↔ Z.shiftr x (8 * Z.of_nat k) = Z.shiftr y (8 * Z.of_nat k).
Proof.
  intros Hx Hy. rewrite !take_be_bytes, !Z.shiftr_div_pow2 by lia.
  replace (2 ^ (8 * Z.of_nat k)) with (256 ^ Z.of_nat k) by (by rewrite Z.pow_mul_r by lia).
  split; [|by intros ->]. rewrite Nat2Z.inj_add, Z.pow_add_r in Hx, Hy by lia.
  apply be_bytes_inj; (split; [apply Z.div_pos; lia|apply Z.div_lt_upper_bound; lia]).
Qed.

Lemma minimized_ip_prefix_same a b :
  address_wf a → address_wf b → minimized_ip_prefix a = minimized_ip_prefix b ↔ same_network a b.
Proof.
  intros Ha Hb.
  assert (∀ c d l l', Forall (λ x, 0 ≤ x < 256) l → Forall (λ x, 0 ≤ x < 256) l' →
    0 ≤ c < 256 → 0 ≤ d < 256 →
    string_of_bytes (c :: d :: l) = string_of_bytes (c :: d :: l') ↔ l = l') as Hbytes.
  { intros c d l l' Hl Hl' Hc Hd. split; [|by intros ->].
    intros E. apply string_of_bytes_inj in E; [by simplify_eq|by apply Forall_cons_2, Forall_cons_2..]. }
  unfold minimized_ip_prefix. destruct a as [x|x], b as [y|y]; try (split; [discriminate|done]).
  - rewrite Hbytes by (apply Forall_take, be_bytes_range || lia). by apply (take_be_bytes_shift 3 1).
  - rewrite Hbytes by (apply Forall_take, be_bytes_range || lia). by apply (take_be_bytes_shift 7 9).
Qed.

(** The network signal is minimised and cannot be forged by a header. For
    peers that are not trusted proxies the forwarding header is ignored and the
    signal is marked as direct; two of them get the same prefix hash when they
    share an IPv4 /24 or an IPv6 /56, and otherwise only by a collision of the
    keyed hash. *)
Theorem network_signal_minimized hmac pepper lookup proxies p1 p2 h1 h2 n1 n2 :
  p1 ∉ proxies → p2 ∉ proxies → address_wf p1 → address_wf p2 →
  from_connection hmac (Some p1) h1 pepper lookup proxies = Ok (Some n1) →
  from_connection hmac (Some p2) h2 pepper lookup proxies = Ok (Some n2) →
  source n1 = DirectPeer
  ∧ from_connection hmac (Some p1) None pepper lookup proxies = Ok (Some n1)
  ∧ (same_network p1 p2 → ip_prefix_hash n1 = ip_prefix_hash n2)
  ∧ (ip_prefix_hash n1 = ip_prefix_hash n2 → same_network p1 p2 ∨ hmac_collision hmac).
Proof.
  intros H1 H2 W1 W2. unfold from_connection. rewrite !bool_decide_false by done. intros E1 E2.
  split_and!; [..|done| |].
  all: apply bind_Ok in E1 as (i1 & [_ Hi1]%keyed_hash_Ok & E1); apply bind_Ok in E1 as (? & _ & [= <-]).
  - done.
  - apply bind_Ok in E2 as (i2 & [_ Hi2]%keyed_hash_Ok & E2); apply bind_Ok in E2 as (? & _ & [= <-]).
    simpl. rewrite <-minimized_ip_prefix_same by done. congruence.
  - apply bind_Ok in E2 as (i2 & [_ Hi2]%keyed_hash_Ok & E2); apply bind_Ok in E2 as (? & _ & [= <-]).
    simpl. rewrite Hi1, Hi2. intros E%hex_encode_inj. rewrite <-minimized_ip_prefix_same by done.
    destruct (String.eqb_spec (minimized_ip_prefix p1) (minimized_ip_prefix p2)) as [|Hne]; [by left|].
    right. eexists _, _, _. split; [|exact E]. intros Eb. by apply append_inj_r in Eb.
Qed.

(** ** Witnesses *)

(** A 32-byte digest that depends on the whole message. *)
Definition sample_hmac (key message : string) : string :=
  string_of_bytes (be_bytes 32
    (foldl (λ a b, (a * 31 + b) mod 65536) 7 (bytes_of (key +:+ message)))).

Definition sample_pepper : string := "0123456789abcdef0123456789abcdef".

Definition sample_db : Db :=
  mkDb (<[1 := mkSession 7 (Some 70) false]> ∅) (<[70 := mkDeviceKey 7 "device-a" false]> ∅) [] ∅ ∅.

Definition sample_signal : TrustedNetworkSignal :=
  match from_connection sample_hmac (Some (V4 3405803785)) None sample_pepper (λ _, Some 64500) ∅ with
  | Ok (Some n) => n
  | _ => mkSignal "" None DirectPeer
  end.

Definition sample_assess (db : Db) (fresh : Fresh) :=
  assess_before_create_in_transaction sample_hmac db fresh sample_pepper 7 1 "job:1"
    (Some sample_signal) true.

Definition sample_assessed : AntiAbuseDecision * Db :=
  ok_default (mkDecision Block 0 0 [], sample_db) (sample_assess sample_db (mkFresh 1000 100 200)).

Example sample_allowed : disposition sample_assessed.1 = Allow.
Proof. vm_compute. reflexivity. Qed.

Lemma network_signal_minimized_witness :
  ∃ n1 n2,
    from_connection sample_hmac (Some (V4 3405803785)) (Some "10.0.0.1") sample_pepper
      (λ _, Some 64500) ∅ = Ok (Some n1)
    ∧ from_connection sample_hmac (Some (V4 3405803786)) None sample_pepper
      (λ _, Some 64500) ∅ = Ok (Some n2)
    ∧ ip_prefix_hash n1 = ip_prefix_hash n2.
Proof.
  assert (∃ n2, from_connection sample_hmac (Some (V4 3405803786)) None sample_pepper
    (λ _, Some 64500) ∅ = Ok (Some n2)) as [n2 H2] by (eexists; vm_compute; reflexivity).
  exists sample_signal, n2. split; [vm_compute; reflexivity|]. split; [exact H2|].
  refine (proj1 (proj2 (proj2 (network_signal_minimized sample_hmac sample_pepper
    (λ _, Some 64500) ∅ (V4 3405803785) (V4 3405803786) (Some "10.0.0.1") None sample_signal n2
    _ _ _ _ _ H2))) _).
  - apply not_elem_of_empty.
  - apply not_elem_of_empty.
  - vm_compute. split; [discriminate|reflexivity].
  - vm_compute. split; [discriminate|reflexivity].
  - vm_compute. reflexivity.
  - vm_compute. reflexivity.
Defined.

Lemma assess_idempotent_witness :
  sample_assess sample_db (mkFresh 1000 100 200) = Ok sample_assessed
  ∧ sample_assess sample_assessed.2 (mkFresh 999999999999 101 201)
      = Ok (sample_assessed.1, sample_assessed.2).
Proof.
  split; [vm_compute; reflexivity|].
  refine (proj1 (assess_idempotent sample_hmac sample_db (mkFresh 1000 100 200) sample_pepper 7 1
    "job:1" (Some sample_signal) true sample_assessed.1 sample_assessed.2 _ _ _ _
    sample_assessed.2 (mkFresh 999999999999 101 201) eq_refl)).
  - vm_compute. reflexivity.
  - vm_compute. split; discriminate.
  - vm_compute. split; discriminate.
  - intros x Hx. injection Hx as <-. split; [vm_compute; reflexivity|].
    intros h Hh. vm_compute in Hh. injection Hh as <-. vm_compute. reflexivity.
Defined.

Definition sample_loop : list (Z * Z * TrafficClass) :=
  repeat (7, 8, Normal) 10 ++ repeat (8, 7, Normal) 11.

Lemma reciprocal_loop_detected_witness :
  settlement_contribution_weight (record_all sample_db sample_loop) 7 8 Normal = 100000
  ∧ ∀ d db2, assess_before_create_in_transaction sample_hmac (record_all sample_db sample_loop)
        (mkFresh 1000 100 200) sample_pepper 7 1 "job:1" (Some sample_signal) true = Ok (d, db2) →
      disposition d = Block.
Proof.
  destruct (reciprocal_loop_detected sample_hmac sample_db sample_loop 7 8 eq_refl ltac:(discriminate))
    as (_ & H1 & H2).
  split; [rewrite H1; vm_compute; reflexivity|].
  intros d db2 H. refine (proj1 (H2 _ _ _ _ _ _ _ _ _ _ H)); vm_compute; (reflexivity || discriminate).
Defined.
