(* ===== verification/Api.v ===== *)
(** * API errors: crates/mindone-coordinator/src/error.rs

    An [ApiError] is its HTTP status, exit code, type and message; a failing
    database statement becomes [internal]. *)
From S2P Require Import Prelude Text.

Local Open Scope string_scope.
Local Open Scope Z_scope.

Record ApiError : Type := mkApiError {
  status_code : Z;
  code : Z;
  error_type : string;
  message : string;
}.

#[export] Instance ApiError_eq_dec : EqDecision ApiError.
Proof. solve_decision. Defined.

Definition bad_request (error_type message : string) : ApiError :=
  mkApiError 400 1 error_type message.
Definition authentication (message : string) : ApiError :=
  mkApiError 401 10 "authentication_failed" message.
Definition forbidden (message : string) : ApiError := mkApiError 403 10 "forbidden" message.
Definition anti_abuse_blocked : ApiError :=
  mkApiError 403 10 "anti_abuse_blocked" "请求未通过网络完整性检查".
Definition not_found (resource : string) : ApiError :=
  mkApiError 404 1 "not_found" ("未找到" +:+ resource).
Definition conflict (error_type message : string) : ApiError :=
  mkApiError 409 1 error_type message.
Definition insufficient_quota : ApiError :=
  mkApiError 402 40 "insufficient_quota" "可用额度不足".
Definition policy_rejected (message : string) : ApiError :=
  mkApiError 403 50 "node_policy_rejected" message.
Definition unavailable (error_type message : string) : ApiError :=
  mkApiError 503 1 error_type message.
Definition gateway_timeout (message : string) : ApiError :=
  mkApiError 504 1 "inference_timeout" message.
Definition attestation_failed (message : string) : ApiError :=
  mkApiError 422 30 "attestation_failed" message.
Definition attestation_unavailable (message : string) : ApiError :=
  mkApiError 503 30 "attestation_failed" message.
Definition internal : ApiError := mkApiError 500 1 "internal_error" "协调服务器内部错误".

Abbreviation ApiResult := (result ApiError).

(** [ok_or_else(ApiError::internal)] and the conversion of a database error. *)
Definition or_internal {A} (o : option A) : ApiResult A := ok_or o internal.
Definition require_internal (b : bool) : ApiResult () := bail_if (negb b) internal.

Lemma or_internal_Ok {A} (o : option A) a : or_internal o = Ok a ↔ o = Some a.
Proof. apply ok_or_Ok. Qed.

Lemma require_internal_Ok b u : require_internal b = Ok u ↔ b = true.
Proof. unfold require_internal. by rewrite bail_if_Ok, negb_false_iff. Qed.
