(* ===== verification/StandardData.v ===== *)
(** * Standard data at rest: crates/mindone-coordinator/src/standard_data.rs

    The versioned AEAD envelope of the database columns.  AES-256-GCM, HKDF,
    HMAC, SHA-256 and URL-safe base64 are third party: the class [Crypto]
    carries them with the laws the code relies on. *)
From S2P Require Import Prelude Text Net AntiAbuse.
From Stdlib Require Import Ascii.

Local Open Scope string_scope.
Local Open Scope list_scope.
Local Open Scope Z_scope.

Definition ENVELOPE_PREFIX : string := "mindone-standard-aead-v1:".
Definition FINGERPRINT_PREFIX : string := "mindone-standard-hmac-v1:".
Definition STORAGE_VERSION : Z := 1.
Definition NONCE_LENGTH : Z := 12.
Definition TAG_LENGTH : Z := 16.
Definition MAX_STORED_VALUE_BYTES : Z := 1300000.
Definition ENCRYPTION_KEY_INFO : string := "MindOne Standard AEAD encryption key v1".
Definition FINGERPRINT_KEY_INFO : string := "MindOne Standard fingerprint HMAC key v1".
Definition COMMITMENT_KEY_INFO : string := "MindOne Standard key commitment key v1".

(** [StandardDataError] carries nothing. *)
Abbreviation Protected := (result ()).

Inductive StorageDirection : Type :=
| Payload
| Result
| StreamEvent (attempt_number sequence_number : Z).

(** The third-party operations.  [seal] returns the ciphertext with its tag. *)
Class Crypto : Type := {
  hkdf : string → string → string → string;
  hmac_sha256 : string → string → string;
  sha256 : string → string;
  seal : string → string → string → string → string;
  open : string → string → string → string → option string;
  base64_encode : string → string;
  base64_decode : string → option string;
}.

(** Their documented behaviour: decoding inverts encoding, opening inverts
    sealing under the same key, nonce and associated data, sealing adds the
    tag, base64 expands by at most 4/3 plus a partial group. *)
Class CryptoLaws (C : Crypto) : Prop := {
  base64_roundtrip s : base64_decode (base64_encode s) = Some s;
  base64_length s : 3 * str_len (base64_encode s) ≤ 4 * str_len s + 6;
  base64_nonempty s : s ≠ "" → base64_encode s ≠ "";
  open_seal k n a p : open k n a (seal k n a p) = Some p;
  seal_length k n a p : str_len (seal k n a p) = str_len p + TAG_LENGTH;
}.

Fixpoint strip_prefix (p s : string) : option string :=
  match p, s with
  | EmptyString, _ => Some s
  | String a p', String b s' => if Ascii.eqb a b then strip_prefix p' s' else None
  | String _ _, EmptyString => None
  end.

(** The first [n] bytes of a string and the rest. *)
Fixpoint split_bytes (n : nat) (s : string) : string * string :=
  match n, s with
  | S n', String a s' => let '(l, r) := split_bytes n' s' in (String a l, r)
  | _, _ => (EmptyString, s)
  end.

#[global] Arguments split_bytes : simpl never.

(** [i32::to_be_bytes]: two's complement. *)
Definition i32_be_bytes (z : Z) : string := string_of_bytes (be_bytes 4 (z mod 2 ^ 32)).

Definition aad (job_id : Z) (direction : StorageDirection) : string :=
  "MindOne Standard database AEAD v1" +:+ nul +:+ uuid_bytes job_id +:+ nul
  +:+ match direction with
      | Payload => "payload"
      | Result => "result"
      | StreamEvent attempt_number sequence_number =>
        "stream-event" +:+ nul +:+ i32_be_bytes attempt_number +:+ i32_be_bytes sequence_number
      end.

Definition valid_lower_hex (value : string) (expected_length : Z) : bool :=
  (str_len value =? expected_length)
  && all_bytes (λ b, is_ascii_digit b || in_range 97 102 b) value.

Section protected.
Context `{C : Crypto}.

Definition derive_subkey (master_key purpose : string) : string :=
  hkdf "MindOne Standard data at-rest HKDF salt v1" master_key purpose.

(** [nonce_bytes] is what [SystemRandom] filled in. *)
Definition encrypt_for_storage (key : string) (nonce_bytes : string) (job_id : Z)
    (direction : StorageDirection) (plaintext : string) : Protected string :=
  _ ← bail_if (str_is_empty plaintext || (MAX_STORED_VALUE_BYTES <? str_len plaintext)) ();
  let encryption_key := derive_subkey key ENCRYPTION_KEY_INFO in
  let sealed := seal encryption_key nonce_bytes (aad job_id direction) plaintext in
  Ok (ENVELOPE_PREFIX +:+ base64_encode (nonce_bytes +:+ sealed)).

Definition decrypt_from_storage (key : string) (job_id : Z) (direction : StorageDirection)
    (envelope : string) : Protected string :=
  encoded ← ok_or (strip_prefix ENVELOPE_PREFIX envelope) ();
  _ ← bail_if (str_is_empty encoded || (MAX_STORED_VALUE_BYTES * 2 <? str_len encoded)) ();
  sealed ← ok_or (base64_decode encoded) ();
  _ ← bail_if (str_len sealed <=? NONCE_LENGTH + TAG_LENGTH) ();
  let '(nonce_bytes, sealed) := split_bytes (Z.to_nat NONCE_LENGTH) sealed in
  ok_or (open (derive_subkey key ENCRYPTION_KEY_INFO) nonce_bytes (aad job_id direction) sealed) ().

Definition fingerprint_from_legacy_digest (key legacy_digest : string) : Protected string :=
  _ ← bail_if (negb (str_len legacy_digest =? 32)) ();
  let fingerprint_key := derive_subkey key FINGERPRINT_KEY_INFO in
  let tag := hmac_sha256 fingerprint_key
    ("MindOne Standard request fingerprint storage v1" +:+ nul +:+ legacy_digest) in
  Ok (FINGERPRINT_PREFIX +:+ hex_encode tag).

Definition request_fingerprint (key serialized_request : string) : Protected string :=
  fingerprint_from_legacy_digest key
    (sha256 ("MindOne Standard create idempotency fingerprint v1" +:+ nul +:+ serialized_request)).

Definition key_commitment (master_key : string) : string :=
  hmac_sha256 (derive_subkey master_key COMMITMENT_KEY_INFO)
    "MindOne Standard database key commitment v1".
End protected.

(** ** Lemmas *)

Lemma strip_prefix_Some p s r : strip_prefix p s = Some r → s = p +:+ r.
Proof.
  revert s. induction p as [|a p IH]; intros s; simpl; [by intros [= ->]|].
  destruct s as [|b s]; [done|]. destruct (Ascii.eqb_spec a b) as [->|]; [|done].
  by intros ->%IH.
Qed.

Lemma strip_prefix_append p s : strip_prefix p (p +:+ s) = Some s.
Proof. induction p as [|a p IH]; simpl; [done|]. by rewrite Ascii.eqb_refl. Qed.

Lemma split_bytes_append n s t : String.length s = n → split_bytes n (s +:+ t) = (s, t).
Proof.
  revert s. induction n as [|n IH]; intros s Hs.
  - destruct s; [by destruct t|done].
  - destruct s as [|a s]; [done|]. injection Hs as Hs.
    assert (split_bytes (S n) (String a s +:+ t)
      = let '(l, r) := split_bytes n (s +:+ t) in (String a l, r)) as -> by reflexivity.
    by rewrite (IH s Hs).
Qed.

Lemma i32_be_bytes_inj x y :
  in_i32 x = true → in_i32 y = true → i32_be_bytes x = i32_be_bytes y → x = y.
Proof.
  unfold in_i32, i32_min, i32_max. rewrite !in_range_true. intros Hx Hy E.
  apply string_of_bytes_inj, be_bytes_inj in E; [|(apply Z.mod_pos_bound; lia)..|apply be_bytes_range|apply be_bytes_range].
  rewrite (Z.div_mod x (2 ^ 32)), (Z.div_mod y (2 ^ 32)) by lia. rewrite E.
  assert (x / 2 ^ 32 = y / 2 ^ 32); [|lia].
  pose proof (Z.div_mod x (2 ^ 32) ltac:(lia)). pose proof (Z.div_mod y (2 ^ 32) ltac:(lia)).
  pose proof (Z.mod_pos_bound x (2 ^ 32) ltac:(lia)). lia.
Qed.

Definition direction_wf (d : StorageDirection) : Prop :=
  match d with StreamEvent a s => in_i32 a = true ∧ in_i32 s = true | _ => True end.

Lemma length_i32_be_bytes x : String.length (i32_be_bytes x) = 4%nat.
Proof. unfold i32_be_bytes. by rewrite length_string_of_bytes, length_be_bytes. Qed.

(** The associated data identifies the job, the column and the stream event. *)
Lemma aad_inj j j' d d' :
  0 ≤ j ≤ u128_max → 0 ≤ j' ≤ u128_max → direction_wf d → direction_wf d' →
  aad j d = aad j' d' → j = j' ∧ d = d'.
Proof.
  intros Hj Hj' Hd Hd' E. unfold aad in E. rewrite <-!append_assoc in E.
  rewrite !append_assoc in E. apply append_inj_r in E. apply append_inj_r in E.
  apply append_same_length_inj in E as [Eu E]; [|by rewrite !length_uuid_bytes].
  apply uuid_bytes_inj in Eu as ->; [|done..]. split; [done|]. apply append_inj_r in E.
  destruct d as [| |a s], d' as [| |a' s']; try done.
  apply append_inj_r, append_inj_r in E.
  apply append_same_length_inj in E as [Ea Es]; [|by rewrite !length_i32_be_bytes].
  destruct Hd, Hd'. apply i32_be_bytes_inj in Ea, Es; congruence.
Qed.

(** A ciphertext that opens under associated data it was not sealed with. *)
Definition aead_forgery `{C : Crypto} : Prop :=
  ∃ k n a a' p, a ≠ a' ∧ open k n a' (seal k n a p) ≠ None.

Lemma str_is_empty_spec s : str_is_empty s = true ↔ s = "".
Proof. unfold str_is_empty. apply String.eqb_eq. Qed.

Lemma str_len_pos s : s ≠ "" → 0 < str_len s.
Proof. unfold str_len. destruct s; [done|]. simpl String.length. lia. Qed.

(** Opening what [encrypt_for_storage] wrote, for any job and direction. *)
Lemma decrypt_encrypted `{C : Crypto, !CryptoLaws C} key nonce j d p env j' d' :
  str_len nonce = NONCE_LENGTH → encrypt_for_storage key nonce j d p = Ok env →
  decrypt_from_storage key j' d' env =
    ok_or (open (derive_subkey key ENCRYPTION_KEY_INFO) nonce (aad j' d')
      (seal (derive_subkey key ENCRYPTION_KEY_INFO) nonce (aad j d) p)) ().
Proof.
  intros Hn H. unfold encrypt_for_storage in H. apply bind_Ok in H as ([] & Hp%bail_if_Ok & [= <-]).
  apply orb_false_iff in Hp as [Hne%not_true_iff_false Hle%Z.ltb_ge].
  rewrite str_is_empty_spec in Hne. apply str_len_pos in Hne.
  set (k := derive_subkey key ENCRYPTION_KEY_INFO).
  pose proof (seal_length k nonce (aad j d) p) as Hs. set (c := seal k nonce (aad j d) p) in *.
  unfold NONCE_LENGTH, TAG_LENGTH, MAX_STORED_VALUE_BYTES in *.
  assert (str_len (nonce +:+ c) = 12 + str_len c) as Hl by (rewrite str_len_append; lia).
  pose proof (base64_length (nonce +:+ c)) as Hb.
  unfold decrypt_from_storage. rewrite strip_prefix_append. simpl.
  destruct (str_is_empty (base64_encode (nonce +:+ c))) eqn:E.
  { apply str_is_empty_spec in E. exfalso. revert E. apply base64_nonempty. intros E.
    rewrite E in Hl. change (str_len "") with 0 in Hl. lia. }
  unfold MAX_STORED_VALUE_BYTES, NONCE_LENGTH, TAG_LENGTH.
  rewrite (proj2 (Z.ltb_ge _ _)) by lia. simpl. rewrite base64_roundtrip. simpl.
  rewrite (proj2 (Z.leb_gt _ _)) by lia. simpl.
  rewrite split_bytes_append by (unfold str_len in Hn; lia). done.
Qed.

(** A stored Standard value reads back as itself and only in its place.
    Encryption succeeds exactly on values of 1 to 1,300,000 bytes; what it
    wrote decrypts under the same key, job and column to the same bytes, and
    decrypting it for any other job, column or stream event fails unless the
    AEAD is forged. *)
Theorem storage_roundtrip `{C : Crypto} (L : CryptoLaws C) key nonce j d p :
  str_len nonce = NONCE_LENGTH → 0 ≤ j ≤ u128_max → direction_wf d →
  (is_ok (encrypt_for_storage key nonce j d p) = true ↔
     1 ≤ str_len p ≤ MAX_STORED_VALUE_BYTES)
  ∧ ∀ env, encrypt_for_storage key nonce j d p = Ok env →
      decrypt_from_storage key j d env = Ok p
      ∧ ∀ j' d' p', 0 ≤ j' ≤ u128_max → direction_wf d' →
          decrypt_from_storage key j' d' env = Ok p' →
          j' = j ∧ d' = d ∧ p' = p ∨ aead_forgery.
Proof.
  intros Hn Hj Hd. split.
  - unfold encrypt_for_storage.
    destruct (str_is_empty p) eqn:E; simpl.
    + apply str_is_empty_spec in E as ->. split; [done|]. change (str_len "") with 0. lia.
    + apply not_true_iff_false in E. rewrite str_is_empty_spec in E. apply str_len_pos in E.
      destruct (Z.ltb_spec MAX_STORED_VALUE_BYTES (str_len p)); simpl; split; try done; lia.
  - intros env H. split.
    + rewrite (decrypt_encrypted key nonce j d p env j d) by done. by rewrite open_seal.
    + intros j' d' p' Hj' Hd'. rewrite (decrypt_encrypted key nonce j d p env j' d') by done.
      intros E%ok_or_Ok.
      destruct (String.eqb_spec (aad j d) (aad j' d')) as [Ea|Ha].
      * left. rewrite <-Ea, open_seal in E. apply aad_inj in Ea as [-> ->]; [|done..].
        by simplify_eq.
      * right. unfold aead_forgery. eexists _, _, _, _, _. split; [exact Ha|]. by rewrite E.
Qed.

(** A toy AEAD whose 16-byte tag is a checksum of key, nonce and data. *)
Definition sample_tag (k n a p : string) : string :=
  string_of_bytes (be_bytes 16
    (foldl (λ h b, (h * 263 + b + 1) mod 2 ^ 128) 11 (bytes_of (k +:+ n +:+ a +:+ p)))).

#[export] Instance sample_crypto : Crypto := {
  hkdf salt key info := sample_hmac (salt +:+ key) info;
  hmac_sha256 := sample_hmac;
  sha256 := sample_hmac "";
  seal k n a p := sample_tag k n a p +:+ p;
  open k n a c :=
    let '(t, p) := split_bytes 16 c in
    if String.eqb t (sample_tag k n a p) then Some p else None;
  base64_encode s := s;
  base64_decode s := Some s;
}.

#[export] Instance sample_crypto_laws : CryptoLaws sample_crypto.
Proof.
  split; cbn [base64_decode base64_encode open seal sample_crypto]; intros.
  - done.
  - unfold str_len. lia.
  - done.
  - rewrite split_bytes_append; [by rewrite String.eqb_refl|].
    unfold sample_tag. by rewrite length_string_of_bytes, length_be_bytes.
  - rewrite str_len_append. unfold sample_tag, str_len, TAG_LENGTH.
    rewrite length_string_of_bytes, length_be_bytes. lia.
Qed.

Lemma storage_roundtrip_witness :
  ∃ env, encrypt_for_storage sample_pepper "nonce-nonce-" 5 Result "answer" = Ok env
    ∧ decrypt_from_storage sample_pepper 5 Result env = Ok "answer".
Proof.
  eexists. split; [vm_compute; reflexivity|].
  refine (proj1 (proj2 (storage_roundtrip sample_crypto_laws sample_pepper "nonce-nonce-" 5 Result
    "answer" _ _ _) _ _)).
  - vm_compute. reflexivity.
  - vm_compute. split; discriminate.
  - exact I.
  - vm_compute. reflexivity.
Defined.
