(* ===== verification/Hardware.v ===== *)
(** * Hardware of a node: crates/mindone-protocol/src/nodes.rs

    What a worker says about its machine when it registers. *)
From S2P Require Import Prelude.

Local Open Scope Z_scope.

Inductive SandboxMechanism : Type :=
| Namespaces | SeccompBpf | Landlock | AppArmor | Seatbelt | AppSandbox | JobObjects
| AppContainer | HyperV.

#[export] Instance SandboxMechanism_eq_dec : EqDecision SandboxMechanism.
Proof. solve_decision. Defined.

Record GpuProfile : Type := mkGpu {
  gpu_name : string;
  gpu_vendor : option string;
  vram_total_mib : option Z;
  compute_capability : option string;
}.

(** [profile_extra] has the unknown members, each with the text of its JSON value. *)
Record HardwareProfile : Type := mkHardwareProfile {
  operating_system : string;
  operating_system_version : string;
  architecture : string;
  cpu_model : string;
  cpu_logical_cores : Z;
  ram_total_mib : Z;
  gpus : list GpuProfile;
  cuda_available : bool;
  metal_available : bool;
  sandbox_mechanisms : list SandboxMechanism;
  profile_extra : gmap string string;
}.
