(* ===== verification/Fingerprint.v ===== *)
(** * Execution fingerprints: crates/mindone-coordinator/src/execution_fingerprint.rs

    The latency and memory risk assessment of a finished job and the two
    append-only tables of migration 0019 it writes.  [serde_json] is third
    party: the class [Serde] carries the encoders and the parser of the stored
    hardware profile, and SHA-256 comes from [Crypto]. *)
From S2P Require Import Prelude Text Net AntiAbuse Api StandardData Hardware.
From Stdlib Require Import Ascii.

Local Open Scope string_scope.
Local Open Scope list_scope.
Local Open Scope Z_scope.

(** ** Data *)

Definition ASSESSMENT_VERSION : string := "latency-vram-fingerprint-v1".
Definition HISTORICAL_MIN_SAMPLES : Z := 10.
Definition HISTORICAL_OUTLIER_FACTOR : Z := 16.

Inductive ExecutionTelemetryVerdict : Type :=
| InsufficientEvidence | NoAnomalyObserved | WarningVerdict | CriticalVerdict.

#[export] Instance ExecutionTelemetryVerdict_eq_dec : EqDecision ExecutionTelemetryVerdict.
Proof. solve_decision. Defined.

Record JobExecutionTelemetry : Type := mkTelemetry {
  ttft_ms : option Z;
  tps_milli : option Z;
  peak_vram_mib : option Z;
  vram_sample_count : Z;
}.

(** The column [hardware_profile] is JSON text. *)
Record FingerprintContext : Type := mkContext {
  context_job_id : Z;
  context_node_id : Z;
  context_model_id : Z;
  context_model_instance_id : option Z;
  context_attempt_number : Z;
  context_result_idempotency_key : string;
  context_confidentiality : string;
  context_trust_level : string;
  model_size_bytes : Z;
  context_hardware_profile : string;
}.

Record FingerprintOutcome : Type := mkFingerprintOutcome {
  outcome_verdict : ExecutionTelemetryVerdict;
  outcome_alert_count : Z;
  outcome_evidence_kind : string;
}.

Inductive Severity : Type := Warning | Critical.

#[export] Instance Severity_eq_dec : EqDecision Severity.
Proof. solve_decision. Defined.

Definition severity_as_str (self : Severity) : string :=
  match self with Warning => "warning" | Critical => "critical" end.

(** The flat JSON objects of [observed] and [expected]. *)
Inductive JsonScalar : Type := JInt (z : Z) | JText (s : string).

Record Alert : Type := mkAlert {
  severity : Severity;
  alert_code : string;
  explanation : string;
  observed : list (string * JsonScalar);
  expected : list (string * JsonScalar);
}.

Record HistoricalBaseline : Type := mkBaseline {
  sample_count : Z;
  ttft_median_ms : option Z;
  tps_median_milli : option Z;
}.

Record Assessment : Type := mkAssessment {
  declared_total : option Z;
  model_soft_min_peak_mib : Z;
  model_critical_min_peak_mib : Z;
  incomplete : bool;
  alerts : list Alert;
}.

Class Serde : Type := {
  parse_profile : string → option HardwareProfile;
  encode_cohort : HardwareProfile → list (string * option string * option Z * option string) → string;
  encode_telemetry : JobExecutionTelemetry → option string;
  uuid_to_string : Z → string;
}.

(** ** Assessment *)

Definition ceil_div_positive (value divisor : Z) : ApiResult Z :=
  _ ← bail_if ((value <=? 0) || (divisor <=? 0)) internal;
  sum ← or_internal (i64_checked_add value (divisor - 1));
  Ok (div_trunc sum divisor).

Definition ratio_outlier (observed baseline : Z) : bool :=
  if (observed <=? 0) || (baseline <=? 0) then false
  else (baseline * HISTORICAL_OUTLIER_FACTOR <? observed)
       || (observed * HISTORICAL_OUTLIER_FACTOR <? baseline).

Definition alert_if (b : bool) (a : Alert) : list Alert := if b then [a] else [].

Definition ttft_alert (observed median samples : Z) : Alert :=
  mkAlert Warning "ttft_historical_outlier"
    "本次 TTFT 与同模型、同硬件声明 cohort 的服务端历史中位数相差超过 16 倍"
    [("ttft_ms", JInt observed)]
    [("historical_median_ms", JInt median); ("factor", JInt HISTORICAL_OUTLIER_FACTOR);
     ("samples", JInt samples)].

Definition tps_alert (observed median samples : Z) : Alert :=
  mkAlert Warning "tps_historical_outlier"
    "本次 TPS 与同模型、同硬件声明 cohort 的服务端历史中位数相差超过 16 倍"
    [("tps_milli", JInt observed)]
    [("historical_median_milli", JInt median); ("factor", JInt HISTORICAL_OUTLIER_FACTOR);
     ("samples", JInt samples)].

Definition compare_latency_history (telemetry : JobExecutionTelemetry)
    (history : HistoricalBaseline) : list Alert :=
  match ttft_ms telemetry, ttft_median_ms history with
  | Some observed, Some median =>
    alert_if (ratio_outlier observed median) (ttft_alert observed median (sample_count history))
  | _, _ => []
  end
  ++ match tps_milli telemetry, tps_median_milli history with
  | Some observed, Some median =>
    alert_if (ratio_outlier observed median) (tps_alert observed median (sample_count history))
  | _, _ => []
  end.

Definition over_total_alert (peak total : Z) : Alert :=
  mkAlert Critical "peak_exceeds_declared_total" "任务峰值显存超过节点注册时声明的总显存"
    [("peak_vram_mib", JInt peak)] [("maximum_peak_vram_mib", JInt total)].

Definition severe_alert (peak size minimum : Z) : Alert :=
  mkAlert Critical "model_vram_severe_mismatch"
    "任务峰值显存低于模型文件规模的保守 1/128 严重偏差线"
    [("peak_vram_mib", JInt peak); ("model_size_bytes", JInt size)]
    [("minimum_peak_vram_mib", JInt minimum); ("ratio", JText "model_size_mib/128")].

Definition weak_alert (peak size minimum : Z) : Alert :=
  mkAlert Warning "model_vram_weak_mismatch"
    "任务峰值显存低于模型文件规模的保守 1/16 弱偏差线"
    [("peak_vram_mib", JInt peak); ("model_size_bytes", JInt size)]
    [("minimum_peak_vram_mib", JInt minimum); ("ratio", JText "model_size_mib/16")].

Definition capacity_alert (size total : Z) : Alert :=
  mkAlert Critical "model_declared_capacity_severe_mismatch"
    "发布模型文件规模超过节点声明总显存的 16 倍，形成严重容量异常"
    [("model_size_bytes", JInt size); ("declared_vram_total_mib", JInt total)]
    [("maximum_model_to_declared_vram_ratio", JInt 16)].

(** The alerts on the reported peak. *)
Definition peak_alerts (peak : Z) (total : option Z) (size soft critical : Z) : list Alert :=
  match total with
  | Some total => alert_if (total <? peak) (over_total_alert peak total)
  | None => []
  end
  ++ (if peak <? critical then [severe_alert peak size critical]
      else alert_if (peak <? soft) (weak_alert peak size soft)).

Section serde.
Context `{SE : Serde, C : Crypto}.

(** The sum of the declared GPU memories, [None] when none is declared. *)
Fixpoint sum_vram (gpus : list GpuProfile) (total : Z) (seen : bool) : ApiResult (Z * bool) :=
  match gpus with
  | [] => Ok (total, seen)
  | gpu :: rest =>
    match vram_total_mib gpu with
    | Some vram =>
      total ← or_internal (checked in_u64 (total + vram));
      sum_vram rest total true
    | None => sum_vram rest total seen
    end
  end.

Definition declared_vram_total_mib (profile : string) : ApiResult (option Z) :=
  profile ← or_internal (parse_profile profile);
  '(total, seen) ← sum_vram (gpus profile) 0 false;
  if (seen : bool) then Some <$> or_internal (i64_try_from total) else Ok None.

(** The derived order of the GPU tuples. *)
Definition gpu_cmp : (string * option string * option Z * option string)
    → (string * option string * option Z * option string) → comparison :=
  cmp_then (cmp_on (λ g, g.1.1.1) str_cmp)
    (cmp_then (cmp_on (λ g, g.1.1.2) (option_cmp str_cmp))
      (cmp_then (cmp_on (λ g, g.1.2) (option_cmp Z.compare))
        (cmp_on (λ g, g.2) (option_cmp str_cmp)))).

Definition hardware_cohort_key (profile : string) : ApiResult string :=
  profile ← or_internal (parse_profile profile);
  let gpus := sort_by gpu_cmp
    ((λ g, (gpu_name g, gpu_vendor g, vram_total_mib g, compute_capability g)) <$> gpus profile) in
  Ok (hex_encode (sha256 ("MindOne self-reported hardware cohort v1" +:+ nul
    +:+ encode_cohort profile gpus))).

Definition telemetry_fingerprint (context : FingerprintContext)
    (telemetry : JobExecutionTelemetry) : ApiResult string :=
  encoded ← or_internal (encode_telemetry telemetry);
  Ok (hex_encode (sha256 ("MindOne job execution telemetry v1" +:+ nul
    +:+ uuid_bytes (context_job_id context) +:+ uuid_bytes (context_node_id context)
    +:+ uuid_bytes (context_model_id context)
    +:+ match context_model_instance_id context with Some i => uuid_bytes i | None => "" end
    +:+ i32_be_bytes (context_attempt_number context)
    +:+ context_result_idempotency_key context +:+ encoded))).

Definition assess (context : FingerprintContext) (telemetry : JobExecutionTelemetry)
    (history : HistoricalBaseline) : ApiResult Assessment :=
  let size := model_size_bytes context in
  _ ← bail_if (size <=? 0) internal;
  model_size_mib ← ceil_div_positive size 1048576;
  soft ← Z.max 32 <$> ceil_div_positive model_size_mib 16;
  critical ← Z.max 8 <$> ceil_div_positive model_size_mib 128;
  total ← declared_vram_total_mib (context_hardware_profile context);
  let incomplete := is_none (ttft_ms telemetry) || is_none (tps_milli telemetry)
    || is_none (peak_vram_mib telemetry) in
  let peak_part :=
    match peak_vram_mib telemetry with
    | Some peak => peak_alerts peak total size soft critical
    | None => []
    end in
  capacity_part ← match total with
    | Some total =>
      capacity ← or_internal (i128_checked_mul total 1048576 ≫= λ v, i128_checked_mul v 16);
      Ok (alert_if (capacity <? size) (capacity_alert size total))
    | None => Ok []
    end;
  let history_part :=
    if HISTORICAL_MIN_SAMPLES <=? sample_count history
    then compare_latency_history telemetry history else [] in
  Ok (mkAssessment total soft critical incomplete (peak_part ++ capacity_part ++ history_part)).
End serde.

Definition evidence_kind (context : FingerprintContext) : string :=
  if String.eqb (context_confidentiality context) "standard"
     || negb (String.eqb (context_trust_level context) "enhanced")
  then "standard_self_reported_risk_signal" else "enhanced_node_reported_risk_signal".

Definition verdict (alerts : list Alert) (incomplete : bool) : ExecutionTelemetryVerdict :=
  if existsb (λ a, bool_decide (severity a = Critical)) alerts then CriticalVerdict
  else match alerts with
  | _ :: _ => WarningVerdict
  | [] => if incomplete then InsufficientEvidence else NoAnomalyObserved
  end.

Definition verdict_key (v : ExecutionTelemetryVerdict) : string :=
  match v with
  | InsufficientEvidence => "insufficient_evidence"
  | NoAnomalyObserved => "no_anomaly_observed"
  | WarningVerdict => "warning"
  | CriticalVerdict => "critical"
  end.

(** ** The tables *)

(** [job_execution_telemetry], keyed by its unique job. *)
Record TelemetryRow : Type := mkTelemetryRow {
  telemetry_id : Z;
  telemetry_context : FingerprintContext;
  telemetry_evidence_kind : string;
  telemetry_values : JobExecutionTelemetry;
  telemetry_assessment : Assessment;
  telemetry_history : HistoricalBaseline;
  telemetry_cohort : string;
  telemetry_verdict : string;
  telemetry_version : string;
  telemetry_fingerprint_column : string;
}.

(** [execution_anomaly_ledger]. *)
Record AnomalyRow : Type := mkAnomaly {
  anomaly_id : Z;
  anomaly_telemetry : Z;
  anomaly_job : Z;
  anomaly_node : Z;
  anomaly_alert : Alert;
  anomaly_key : string;
}.

Record TelemetryDb : Type := mkTelemetryDb {
  telemetry_rows : gmap Z TelemetryRow;
  anomalies : list AnomalyRow;
}.

(** [percentile_disc(0.5)]: the first value whose rank reaches half. *)
Definition percentile_disc_half (l : list Z) : option Z :=
  sort_by Z.compare l !! Nat.div (length l - 1) 2.

Definition historical_baseline (db : TelemetryDb) (model_id : Z) (cohort : string)
    : HistoricalBaseline :=
  let rows := List.filter
    (λ r, (context_model_id (telemetry_context r) =? model_id)
          && String.eqb (telemetry_cohort r) cohort)
    (map_to_list (telemetry_rows db)).*2 in
  let values := telemetry_values <$> rows in
  mkBaseline
    (Z.of_nat (length (List.filter
      (λ v, negb (is_none (ttft_ms v)) && negb (is_none (tps_milli v))) values)))
    (percentile_disc_half (omap ttft_ms values))
    (percentile_disc_half (omap tps_milli values)).

Section tables.
Context `{SE : Serde, C : Crypto}.

(** The inserts of the alerts; the anomaly key is UNIQUE. *)
Fixpoint insert_alerts (context : FingerprintContext) (telemetry_id : Z) (fresh : nat → Z)
    (i : nat) (alerts : list Alert) (rows : list AnomalyRow) : ApiResult (list AnomalyRow) :=
  match alerts with
  | [] => Ok rows
  | alert :: rest =>
    let key := "job:" +:+ uuid_to_string (context_job_id context)
      +:+ ":execution-fingerprint:" +:+ alert_code alert in
    _ ← bail_if (existsb (λ r, String.eqb (anomaly_key r) key) rows) internal;
    insert_alerts context telemetry_id fresh (S i) rest
      (mkAnomaly (fresh i) telemetry_id (context_job_id context) (context_node_id context)
         alert key :: rows)
  end.

(** [fresh] supplies the UUIDs the statement generates. *)
Definition append_execution_fingerprint (db : TelemetryDb) (fresh : nat → Z)
    (context : FingerprintContext) (telemetry : JobExecutionTelemetry) (fingerprint : string)
    : ApiResult (FingerprintOutcome * TelemetryDb) :=
  cohort ← hardware_cohort_key (context_hardware_profile context);
  let history := historical_baseline db (context_model_id context) cohort in
  assessment ← assess context telemetry history;
  let kind := evidence_kind context in
  let v := verdict (alerts assessment) (incomplete assessment) in
  _ ← or_internal (i32_try_from (vram_sample_count telemetry));
  _ ← bail_if (bool_decide (is_Some (telemetry_rows db !! context_job_id context))) internal;
  let row := mkTelemetryRow (fresh 0%nat) context kind telemetry assessment history cohort
    (verdict_key v) ASSESSMENT_VERSION fingerprint in
  rows ← insert_alerts context (fresh 0%nat) fresh 1 (alerts assessment) (anomalies db);
  alert_count ← or_internal (u32_try_from (Z.of_nat (length (alerts assessment))));
  Ok (mkFingerprintOutcome v alert_count kind,
      mkTelemetryDb (<[context_job_id context := row]> (telemetry_rows db)) rows).
End tables.

(** ** Specification of the assessment *)

(** Ceiling division on mathematical integers. *)
Definition ceil_spec (n d : Z) : Z := ceil_quot n d.

Definition size_mib (context : FingerprintContext) : Z := ceil_spec (model_size_bytes context) 1048576.
Definition soft_spec (context : FingerprintContext) : Z := Z.max 32 (ceil_spec (size_mib context) 16).
Definition critical_spec (context : FingerprintContext) : Z := Z.max 8 (ceil_spec (size_mib context) 128).

Lemma ceil_div_positive_Ok v d r :
  ceil_div_positive v d = Ok r → 0 < v ∧ 0 < d ∧ r = ceil_spec v d ∧ 0 < r.
Proof.
  unfold ceil_div_positive. intros H. apply bind_Ok in H as ([] & Hb%bail_if_Ok & H).
  apply bind_Ok in H as (s & Hs%or_internal_Ok & [= <-]). apply orb_false_iff in Hb as [Hv Hd].
  unfold ceil_spec. pose proof (ceil_quot_pos v d). int_inv. split_and!; try lia; [done|].
  unfold ceil_quot in *. apply H; lia.
Qed.

(** The conditions behind the critical and the warning alerts. *)
Definition over_total (t : JobExecutionTelemetry) (a : Assessment) : Prop :=
  ∃ peak total, peak_vram_mib t = Some peak ∧ declared_total a = Some total ∧ total < peak.
Definition far_below_model (c : FingerprintContext) (t : JobExecutionTelemetry) : Prop :=
  ∃ peak, peak_vram_mib t = Some peak ∧ peak < critical_spec c.
Definition below_model (c : FingerprintContext) (t : JobExecutionTelemetry) : Prop :=
  ∃ peak, peak_vram_mib t = Some peak ∧ critical_spec c ≤ peak < soft_spec c.
Definition impossible_capacity (c : FingerprintContext) (a : Assessment) : Prop :=
  ∃ total, declared_total a = Some total ∧ total * 1048576 * 16 < model_size_bytes c.
Definition latency_outlier (t : JobExecutionTelemetry) (h : HistoricalBaseline) : Prop :=
  10 ≤ sample_count h
  ∧ ((∃ o m, ttft_ms t = Some o ∧ ttft_median_ms h = Some m ∧ ratio_outlier o m = true)
     ∨ ∃ o m, tps_milli t = Some o ∧ tps_median_milli h = Some m ∧ ratio_outlier o m = true).

Lemma assess_Ok `{SE : Serde} c t h a :
  assess c t h = Ok a →
  model_soft_min_peak_mib a = soft_spec c ∧ model_critical_min_peak_mib a = critical_spec c
  ∧ declared_vram_total_mib (context_hardware_profile c) = Ok (declared_total a)
  ∧ incomplete a = is_none (ttft_ms t) || is_none (tps_milli t) || is_none (peak_vram_mib t)
  ∧ alerts a =
      match peak_vram_mib t with
      | Some peak => peak_alerts peak (declared_total a) (model_size_bytes c) (soft_spec c) (critical_spec c)
      | None => []
      end
      ++ match declared_total a with
         | Some total => alert_if (total * 1048576 * 16 <? model_size_bytes c)
             (capacity_alert (model_size_bytes c) total)
         | None => []
         end
      ++ (if 10 <=? sample_count h then compare_latency_history t h else []).
Proof.
  unfold assess. intros H. apply bind_Ok in H as ([] & _ & H).
  apply bind_Ok in H as (mib & Hmib%ceil_div_positive_Ok & H).
  apply bind_Ok in H as (soft & Hsoft & H). apply fmap_Ok in Hsoft as (s & Hs%ceil_div_positive_Ok & ->).
  apply bind_Ok in H as (crit & Hcrit & H). apply fmap_Ok in Hcrit as (k & Hk%ceil_div_positive_Ok & ->).
  apply bind_Ok in H as (total & Htotal & H). apply bind_Ok in H as (cap & Hcap & [= <-]). simpl.
  destruct Hmib as (_ & _ & -> & _), Hs as (_ & _ & -> & _), Hk as (_ & _ & -> & _).
  split_and!; try done. f_equal. f_equal. destruct total as [total|]; [|by simplify_eq].
  apply bind_Ok in Hcap as (capacity & Hc%or_internal_Ok & [= <-]).
  apply bind_Some in Hc as (v & Hv & Hc). by int_inv.
Qed.

Lemma existsb_alert_if p b a : existsb p (alert_if b a) = b && p a.
Proof. destruct b; simpl; [by rewrite orb_false_r|done]. Qed.

Lemma alert_if_nil b a : alert_if b a = [] ↔ b = false.
Proof. by destruct b. Qed.

(** Which alerts of a list are critical, and when a list is empty. *)
Lemma peak_alerts_critical peak total size soft crit :
  existsb (λ a, bool_decide (severity a = Critical)) (peak_alerts peak total size soft crit) = true
  ↔ (∃ t, total = Some t ∧ t < peak) ∨ peak < crit.
Proof.
  unfold peak_alerts. rewrite existsb_app, orb_true_iff.
  assert (existsb (λ a, bool_decide (severity a = Critical))
    (if peak <? crit then [severe_alert peak size crit]
     else alert_if (peak <? soft) (weak_alert peak size soft)) = true ↔ peak < crit) as ->.
  { destruct (Z.ltb_spec peak crit); simpl; [done|].
    rewrite existsb_alert_if, andb_comm. simpl. split; [done|lia]. }
  destruct total as [t|]; [|naive_solver].
  rewrite existsb_alert_if. simpl. rewrite andb_true_r, Z.ltb_lt. naive_solver.
Qed.

Lemma peak_alerts_nil peak total size soft crit :
  crit ≤ soft →
  peak_alerts peak total size soft crit = [] ↔ (∀ t, total = Some t → peak ≤ t) ∧ soft ≤ peak.
Proof.
  intros Hle. unfold peak_alerts. rewrite app_nil.
  assert ((if peak <? crit then [severe_alert peak size crit]
     else alert_if (peak <? soft) (weak_alert peak size soft)) = [] ↔ soft ≤ peak) as ->.
  { destruct (Z.ltb_spec peak crit); [split; [done|lia]|]. by rewrite alert_if_nil, Z.ltb_ge. }
  destruct total as [t|]; [|naive_solver].
  rewrite alert_if_nil, Z.ltb_ge. naive_solver.
Qed.

Lemma latency_not_critical t h :
  existsb (λ a, bool_decide (severity a = Critical)) (compare_latency_history t h) = false.
Proof.
  unfold compare_latency_history. rewrite existsb_app.
  destruct (ttft_ms t), (ttft_median_ms h), (tps_milli t), (tps_median_milli h);
    rewrite ?existsb_alert_if; simpl; rewrite ?andb_false_r; done.
Qed.

Lemma latency_nil t h :
  (if 10 <=? sample_count h then compare_latency_history t h else []) = [] ↔ ¬ latency_outlier t h.
Proof.
  unfold latency_outlier. destruct (Z.leb_spec 10 (sample_count h)); [|split; [lia|done]].
  unfold compare_latency_history. rewrite app_nil.
  destruct (ttft_ms t) as [o|], (ttft_median_ms h) as [m|], (tps_milli t) as [o'|],
    (tps_median_milli h) as [m'|]; rewrite ?alert_if_nil, <-?not_true_iff_false;
    split; intros; try naive_solver.
Qed.

Lemma soft_ge_critical c : 0 < model_size_bytes c → critical_spec c ≤ soft_spec c.
Proof.
  intros Hs. unfold soft_spec, critical_spec, ceil_spec.
  assert (0 < size_mib c) as Hm by (unfold size_mib, ceil_spec; apply ceil_quot_pos; lia).
  pose proof (ceil_quot_spec (size_mib c) 16 ltac:(lia) ltac:(lia)).
  pose proof (ceil_quot_spec (size_mib c) 128 ltac:(lia) ltac:(lia)). lia.
Qed.

Definition critical_condition (c : FingerprintContext) (t : JobExecutionTelemetry)
    (a : Assessment) : Prop :=
  over_total t a ∨ far_below_model c t ∨ impossible_capacity c a.
Definition warning_condition (c : FingerprintContext) (t : JobExecutionTelemetry)
    (h : HistoricalBaseline) : Prop :=
  below_model c t ∨ latency_outlier t h.

Lemma pair_test_dec (x y : option Z) (p : Z → Z → bool) :
  Decision (∃ o m, x = Some o ∧ y = Some m ∧ p o m = true).
Proof.
  destruct x as [o|]; [|right; intros (o & m & E & _); discriminate].
  destruct y as [m|]; [|right; intros (o' & m & _ & E & _); discriminate].
  destruct (p o m) eqn:E; [left; eauto|right; intros (o' & m' & [= <-] & [= <-] & E'); congruence].
Qed.

Lemma warning_condition_dec c t h : Decision (warning_condition c t h).
Proof.
  unfold warning_condition, below_model, latency_outlier.
  apply or_dec; [|apply and_dec; [exact (Z_le_dec _ _)|apply or_dec; apply pair_test_dec]].
  destruct (peak_vram_mib t) as [peak|]; [|right; intros (p & E & _); discriminate].
  destruct (decide (critical_spec c ≤ peak < soft_spec c)); [left; eauto|right].
  by intros (? & [= <-] & ?).
Qed.

Lemma assess_size_pos `{SE : Serde} c t h a : assess c t h = Ok a → 0 < model_size_bytes c.
Proof. unfold assess. intros H. apply bind_Ok in H as ([] & Hb%bail_if_Ok%Z.leb_gt & _). done. Qed.

Lemma assess_critical `{SE : Serde} c t h a :
  assess c t h = Ok a →
  existsb (λ a, bool_decide (severity a = Critical)) (alerts a) = true ↔ critical_condition c t a.
Proof.
  intros (_ & _ & _ & _ & ->)%assess_Ok. rewrite !existsb_app, !orb_true_iff.
  assert (existsb (λ a0, bool_decide (severity a0 = Critical))
    (if 10 <=? sample_count h then compare_latency_history t h else []) = false) as ->.
  { destruct (10 <=? sample_count h); [apply latency_not_critical|done]. }
  unfold critical_condition, over_total, far_below_model, impossible_capacity.
  assert (existsb (λ a0, bool_decide (severity a0 = Critical))
    match peak_vram_mib t with
    | Some peak => peak_alerts peak (declared_total a) (model_size_bytes c) (soft_spec c) (critical_spec c)
    | None => []
    end = true ↔ (∃ peak total, peak_vram_mib t = Some peak ∧ declared_total a = Some total ∧ total < peak)
      ∨ (∃ peak, peak_vram_mib t = Some peak ∧ peak < critical_spec c)) as ->.
  { destruct (peak_vram_mib t) as [peak|]; [rewrite peak_alerts_critical|]; simpl; naive_solver. }
  assert (existsb (λ a0, bool_decide (severity a0 = Critical))
    match declared_total a with
    | Some total => alert_if (total * 1048576 * 16 <? model_size_bytes c)
        (capacity_alert (model_size_bytes c) total)
    | None => []
    end = true ↔ ∃ total, declared_total a = Some total ∧ total * 1048576 * 16 < model_size_bytes c) as ->.
  { destruct (declared_total a) as [total|]; [rewrite existsb_alert_if|]; simpl; [|naive_solver].
    rewrite andb_true_r, Z.ltb_lt. naive_solver. }
  naive_solver.
Qed.

Lemma assess_quiet `{SE : Serde} c t h a :
  assess c t h = Ok a →
  alerts a = [] ↔ ¬ critical_condition c t a ∧ ¬ warning_condition c t h.
Proof.
  intros H. pose proof (soft_ge_critical c (assess_size_pos c t h a H)) as Hsoft.
  apply assess_Ok in H as (_ & _ & _ & _ & ->). rewrite !app_nil, latency_nil.
  unfold critical_condition, warning_condition, over_total, far_below_model, below_model,
    impossible_capacity.
  assert (match declared_total a with
    | Some total => alert_if (total * 1048576 * 16 <? model_size_bytes c)
        (capacity_alert (model_size_bytes c) total)
    | None => []
    end = [] ↔ ¬ ∃ total, declared_total a = Some total ∧ total * 1048576 * 16 < model_size_bytes c) as ->.
  { destruct (declared_total a) as [total|]; [rewrite alert_if_nil, Z.ltb_ge|naive_solver].
    split; [intros ? (? & [= <-] & ?); lia|intros Hn; apply Z.nlt_ge; naive_solver]. }
  destruct (peak_vram_mib t) as [peak|]; [rewrite peak_alerts_nil by done|naive_solver].
  split.
  - intros ([Ht Hp] & ? & ?). split; [|naive_solver lia].
    intros [(? & total & [= <-] & E & ?)|[(? & [= <-] & ?)|?]]; [|lia|done].
    specialize (Ht _ E). lia.
  - intros (Hc & Hw). split_and!; try tauto.
    + intros total E. apply Z.nlt_ge. intros ?. apply Hc. left. eauto.
    + apply Z.nlt_ge. intros ?. destruct (Z.lt_ge_cases peak (critical_spec c)); [|naive_solver].
      apply Hc. right. left. eauto.
Qed.

(** The verdict on a job is exactly the documented reading of its numbers:
    critical when the peak exceeds the declared memory, lies under 1/128 of the
    model (at least 8 MiB), or the model exceeds sixteen times the declared
    memory; a warning when otherwise the peak lies under 1/16 of the model (at
    least 32 MiB) or a latency is more than sixteen times off the median of at
    least ten samples; else insufficient evidence when an observation is
    missing, and no anomaly when none is. *)
Theorem verdict_rule `{SE : Serde} c t h a :
  assess c t h = Ok a →
  let v := verdict (alerts a) (incomplete a) in
  let missing := ttft_ms t = None ∨ tps_milli t = None ∨ peak_vram_mib t = None in
  (v = CriticalVerdict ↔ critical_condition c t a)
  ∧ (v = WarningVerdict ↔ ¬ critical_condition c t a ∧ warning_condition c t h)
  ∧ (v = InsufficientEvidence ↔
       ¬ critical_condition c t a ∧ ¬ warning_condition c t h ∧ missing)
  ∧ (v = NoAnomalyObserved ↔
       ¬ critical_condition c t a ∧ ¬ warning_condition c t h ∧ ¬ missing).
Proof.
  intros H. cbv zeta. pose proof (assess_critical c t h a H) as HC.
  pose proof (assess_quiet c t h a H) as HQ. apply assess_Ok in H as (_ & _ & _ & HI & _).
  assert (incomplete a = true ↔ ttft_ms t = None ∨ tps_milli t = None ∨ peak_vram_mib t = None) as HM.
  { rewrite HI. destruct (ttft_ms t), (tps_milli t), (peak_vram_mib t); simpl; naive_solver. }
  unfold verdict. destruct (existsb _ _) eqn:E.
  { assert (critical_condition c t a) by by apply HC. naive_solver. }
  assert (¬ critical_condition c t a) as Hnc by (rewrite <-HC; done). clear HC.
  destruct (alerts a) as [|x l].
  - assert (¬ warning_condition c t h) by (apply HQ; done).
    destruct (incomplete a); [assert (ttft_ms t = None ∨ tps_milli t = None ∨ peak_vram_mib t = None)
      by by apply HM|assert (¬ (ttft_ms t = None ∨ tps_milli t = None ∨ peak_vram_mib t = None))
      by by rewrite <-HM]; naive_solver.
  - assert (¬ ¬ warning_condition c t h) as Hw.
    { intros Hn. by assert (x :: l = []) by (apply HQ; done). }
    assert (warning_condition c t h) as Hw'; [|naive_solver].
    by destruct (warning_condition_dec c t h).
Qed.

(** ** Witness *)

#[export] Instance sample_serde : Serde := {
  parse_profile s :=
    Some (mkHardwareProfile "linux" "6.8" "x86_64" "cpu" 16 65536
      [mkGpu "gpu" None (if String.eqb s "" then None else Some 24576) None] true false [] ∅);
  encode_cohort p l := operating_system p +:+ dec (Z.of_nat (length l));
  encode_telemetry t :=
    Some (fields [dec (default 0 (ttft_ms t)); dec (default 0 (tps_milli t));
      dec (default 0 (peak_vram_mib t)); dec (vram_sample_count t)]);
  uuid_to_string u := "u" +:+ dec u;
}.

Definition sample_context : FingerprintContext :=
  mkContext 5 6 3 (Some 4) 1 "result-1" "standard" "standard" 4294967296 "gpu-profile".

Definition sample_telemetry : JobExecutionTelemetry :=
  mkTelemetry (Some 250) (Some 30000) (Some 40) 12.

Lemma verdict_rule_witness :
  ∃ a, assess sample_context sample_telemetry (mkBaseline 0 None None) = Ok a
    ∧ verdict (alerts a) (incomplete a) = WarningVerdict
    ∧ ¬ critical_condition sample_context sample_telemetry a.
Proof.
  eexists. split; [vm_compute; reflexivity|]. split; [vm_compute; reflexivity|].
  refine (proj1 (proj1 (proj1 (proj2 (verdict_rule sample_context sample_telemetry
    (mkBaseline 0 None None) _ _))) _)).
  - vm_compute. reflexivity.
  - vm_compute. reflexivity.
Defined.
