(* ===== verification/Store.v ===== *)
(** * Account and ledger tables: migrations 0001, 0024 and 0027

    The balances of the service live in [quota_accounts] and
    [reserve_accounts]; three append-only ledgers advance them through their
    BEFORE INSERT triggers.  [Books] is the state of these tables, the inserts
    carry the triggers and the CHECK and UNIQUE constraints, and a violated one
    fails the statement.  The canonical hash trigger of 0027 recomputes the
    hash of [LedgerEntry]; every row inserted here comes from it. *)
From S2P Require Import Prelude Text Fixed Ledger Api.

Local Open Scope string_scope.
Local Open Scope list_scope.
Local Open Scope Z_scope.

(** ** The tables *)

Record QuotaAccount : Type := mkAccount {
  spendable_micro : Z;
  reserved_micro : Z;
  contribution_micro : Z;
  quota_ledger_head_hash : string;
  quota_ledger_entry_count : Z;
  contribution_ledger_head_hash : string;
  contribution_ledger_entry_count : Z;
}.

(** A row of [reserve_ledger]: the entry and its [audit_reference]. *)
Record ReserveRow : Type := mkReserveRow {
  reserve_entry : LedgerEntry;
  audit_reference : option string;
}.

(** The ledgers are newest first. *)
Record Books : Type := mkBooks {
  accounts : gmap Z QuotaAccount;
  quota_ledger : list LedgerEntry;
  contribution_ledger : list LedgerEntry;
  reserve_balance_micro : Z;
  reserve_ledger_head_hash : string;
  reserve_ledger_entry_count : Z;
  reserve_ledger : list ReserveRow;
}.

(** The CHECK constraints of [quota_accounts]. *)
Definition account_check (a : QuotaAccount) : bool :=
  (0 <=? spendable_micro a) && (0 <=? reserved_micro a) && (0 <=? contribution_micro a)
  && (reserved_micro a <=? spendable_micro a).

(** The account of a new user: the defaults, at the genesis of both ledgers. *)
Definition new_account : QuotaAccount := mkAccount 0 0 0 GENESIS_HASH 0 GENESIS_HASH 0.

Definition set_account (b : Books) (u : Z) (a : QuotaAccount) : Books :=
  mkBooks (<[u := a]> (accounts b)) (quota_ledger b) (contribution_ledger b)
    (reserve_balance_micro b) (reserve_ledger_head_hash b) (reserve_ledger_entry_count b)
    (reserve_ledger b).

(** [UPDATE quota_accounts SET reserved_micro = reserved_micro + delta WHERE user_id
    = u AND guard], with the constraints checked; [None] when no row matches. *)
Definition update_reserved (b : Books) (u : Z) (delta : Z) (guard : QuotaAccount → bool)
    : ApiResult Books :=
  match accounts b !! u with
  | Some a =>
    _ ← require_internal (guard a);
    let a' := mkAccount (spendable_micro a) (reserved_micro a + delta) (contribution_micro a)
      (quota_ledger_head_hash a) (quota_ledger_entry_count a)
      (contribution_ledger_head_hash a) (contribution_ledger_entry_count a) in
    _ ← require_internal (account_check a');
    Ok (set_account b u a')
  | None => Err internal
  end.

(** ** The ledger triggers *)

Definition rows_of (u : Z) (l : list LedgerEntry) : list LedgerEntry :=
  List.filter (λ e, account_id e =? u) l.

(** [mindone_advance_*_ledger_head]: the row extends the authoritative state. *)
Definition extends_head (rows : list LedgerEntry) (head : string) (count balance : Z)
    (e : LedgerEntry) : bool :=
  (if count =? 0 then String.eqb head GENESIS_HASH && (balance =? 0)
   else match List.find (λ r, String.eqb (entry_hash r) head) rows with
        | Some h => balance_after_micro h =? balance
        | None => false
        end)
  && negb (String.eqb (entry_hash e) GENESIS_HASH) && String.eqb (previous_hash e) head
  && (balance_before_micro e =? balance)
  && (balance_after_micro e =? balance_before_micro e + amount_micro e).

(** The CHECK, UNIQUE and PRIMARY KEY constraints of a ledger row; [chain] holds the rows of
    the same chain, which may have one successor per hash. *)
Definition row_check (all chain : list LedgerEntry) (e : LedgerEntry) : bool :=
  (0 <=? balance_before_micro e) && (0 <=? balance_after_micro e)
  && negb (existsb (λ r, String.eqb (idempotency_key r) (idempotency_key e)
                         || String.eqb (entry_hash r) (entry_hash e)
                         || (entry_id r =? entry_id e)) all)
  && negb (existsb (λ r, String.eqb (previous_hash r) (previous_hash e)) chain).

(** [INSERT INTO quota_ledger]. *)
Definition insert_quota (b : Books) (e : LedgerEntry) : ApiResult Books :=
  let u := account_id e in
  a ← or_internal (accounts b !! u);
  _ ← require_internal (extends_head (rows_of u (quota_ledger b)) (quota_ledger_head_hash a)
    (quota_ledger_entry_count a) (spendable_micro a) e);
  _ ← require_internal (row_check (quota_ledger b) (rows_of u (quota_ledger b)) e);
  let a' := mkAccount (balance_after_micro e) (reserved_micro a) (contribution_micro a)
    (entry_hash e) (quota_ledger_entry_count a + 1)
    (contribution_ledger_head_hash a) (contribution_ledger_entry_count a) in
  _ ← require_internal (account_check a');
  Ok (mkBooks (<[u := a']> (accounts b)) (e :: quota_ledger b) (contribution_ledger b)
    (reserve_balance_micro b) (reserve_ledger_head_hash b) (reserve_ledger_entry_count b)
    (reserve_ledger b)).

(** [INSERT INTO contribution_ledger]; its delta may not be negative. *)
Definition insert_contribution (b : Books) (e : LedgerEntry) : ApiResult Books :=
  let u := account_id e in
  a ← or_internal (accounts b !! u);
  _ ← require_internal (extends_head (rows_of u (contribution_ledger b))
    (contribution_ledger_head_hash a) (contribution_ledger_entry_count a)
    (contribution_micro a) e);
  _ ← require_internal (0 <=? amount_micro e);
  _ ← require_internal (row_check (contribution_ledger b) (rows_of u (contribution_ledger b)) e);
  let a' := mkAccount (spendable_micro a) (reserved_micro a) (balance_after_micro e)
    (quota_ledger_head_hash a) (quota_ledger_entry_count a)
    (entry_hash e) (contribution_ledger_entry_count a + 1) in
  _ ← require_internal (account_check a');
  Ok (mkBooks (<[u := a']> (accounts b)) (quota_ledger b) (e :: contribution_ledger b)
    (reserve_balance_micro b) (reserve_ledger_head_hash b) (reserve_ledger_entry_count b)
    (reserve_ledger b)).

(** [INSERT INTO reserve_ledger]; an outflow carries an audit reference. *)
Definition insert_reserve (b : Books) (e : LedgerEntry) (reference : option string)
    : ApiResult Books :=
  let rows := reserve_entry <$> reserve_ledger b in
  _ ← require_internal (extends_head rows (reserve_ledger_head_hash b)
    (reserve_ledger_entry_count b) (reserve_balance_micro b) e);
  _ ← require_internal (row_check rows rows e);
  _ ← require_internal ((0 <=? amount_micro e)
    || match reference with Some r => negb (trim_is_empty r) | None => false end);
  Ok (mkBooks (accounts b) (quota_ledger b) (contribution_ledger b)
    (balance_after_micro e) (entry_hash e) (reserve_ledger_entry_count b + 1)
    (mkReserveRow e reference :: reserve_ledger b)).

(** ** The invariant *)

(** The rows of one chain, newest first, with its head, length and balance. *)
Inductive chain_ok : list LedgerEntry → string → Z → Z → Prop :=
| chain_genesis : chain_ok [] GENESIS_HASH 0 0
| chain_extend rows head n bal e :
    chain_ok rows head n bal →
    previous_hash e = head → balance_before_micro e = bal →
    balance_after_micro e = bal + amount_micro e → 0 ≤ bal + amount_micro e →
    chain_ok (e :: rows) (entry_hash e) (n + 1) (balance_after_micro e).

Definition sum_amounts (l : list LedgerEntry) : Z := foldr (λ e z, amount_micro e + z) 0 l.

Definition account_ok (b : Books) (u : Z) (a : QuotaAccount) : Prop :=
  chain_ok (rows_of u (quota_ledger b)) (quota_ledger_head_hash a)
    (quota_ledger_entry_count a) (spendable_micro a)
  ∧ chain_ok (rows_of u (contribution_ledger b)) (contribution_ledger_head_hash a)
    (contribution_ledger_entry_count a) (contribution_micro a)
  ∧ 0 ≤ reserved_micro a ≤ spendable_micro a ∧ 0 ≤ contribution_micro a.

(** Every balance is the sum of its ledger, every chain hangs together, and
    what is reserved is covered. *)
Definition books_ok (b : Books) : Prop :=
  (∀ u a, accounts b !! u = Some a → account_ok b u a)
  ∧ (∀ e, e ∈ quota_ledger b → is_Some (accounts b !! account_id e))
  ∧ (∀ e, e ∈ contribution_ledger b → is_Some (accounts b !! account_id e))
  ∧ chain_ok (reserve_entry <$> reserve_ledger b) (reserve_ledger_head_hash b)
      (reserve_ledger_entry_count b) (reserve_balance_micro b).

Lemma chain_ok_sum rows head n bal :
  chain_ok rows head n bal → bal = sum_amounts rows ∧ n = Z.of_nat (length rows) ∧ 0 ≤ bal.
Proof.
  induction 1 as [|rows head n bal e H (IH1 & IH2 & IH3) Hp Hb Ha Hpos]; [done|].
  cbn [sum_amounts foldr length]. fold (sum_amounts rows). lia.
Qed.

Lemma extends_head_ok rows head n bal e :
  chain_ok rows head n bal → extends_head rows head n bal e = true → 0 <= balance_after_micro e →
  chain_ok (e :: rows) (entry_hash e) (n + 1) (balance_after_micro e).
Proof.
  intros Hc He Hpos. unfold extends_head in He. rewrite !andb_true_iff in He.
  destruct He as ((((_ & _) & Hp) & Hb) & Ha).
  apply String.eqb_eq in Hp. apply Z.eqb_eq in Hb, Ha.
  apply (chain_extend rows head n bal); [done..| |]; lia.
Qed.

Lemma rows_of_cons u e l :
  rows_of u (e :: l) = if account_id e =? u then e :: rows_of u l else rows_of u l.
Proof. done. Qed.

(** What a successful statement did. *)
Lemma update_reserved_Ok b u delta guard b' :
  update_reserved b u delta guard = Ok b' →
  ∃ a, accounts b !! u = Some a ∧ guard a = true
    ∧ 0 ≤ reserved_micro a + delta ≤ spendable_micro a
    ∧ b' = set_account b u (mkAccount (spendable_micro a) (reserved_micro a + delta)
        (contribution_micro a) (quota_ledger_head_hash a) (quota_ledger_entry_count a)
        (contribution_ledger_head_hash a) (contribution_ledger_entry_count a)).
Proof.
  unfold update_reserved. intros H. destruct (accounts b !! u) as [a|]; [|done].
  apply bind_Ok in H as ([] & Hg%require_internal_Ok & H).
  apply bind_Ok in H as ([] & Hc%require_internal_Ok & [= <-]).
  unfold account_check in Hc. simpl in Hc. int_inv. exists a. split_and!; try done.
Qed.

Lemma insert_quota_Ok b e b' :
  insert_quota b e = Ok b' →
  ∃ a, accounts b !! account_id e = Some a
    ∧ extends_head (rows_of (account_id e) (quota_ledger b)) (quota_ledger_head_hash a)
        (quota_ledger_entry_count a) (spendable_micro a) e = true
    ∧ 0 ≤ reserved_micro a ≤ balance_after_micro e
    ∧ balance_before_micro e = spendable_micro a
    ∧ balance_after_micro e = spendable_micro a + amount_micro e
    ∧ (∀ r, r ∈ quota_ledger b → idempotency_key r ≠ idempotency_key e)
    ∧ b' = mkBooks (<[account_id e := mkAccount (balance_after_micro e) (reserved_micro a)
          (contribution_micro a) (entry_hash e) (quota_ledger_entry_count a + 1)
          (contribution_ledger_head_hash a) (contribution_ledger_entry_count a)]> (accounts b))
        (e :: quota_ledger b) (contribution_ledger b) (reserve_balance_micro b)
        (reserve_ledger_head_hash b) (reserve_ledger_entry_count b) (reserve_ledger b).
Proof.
  unfold insert_quota. intros H. apply bind_Ok in H as (a & Ha%or_internal_Ok & H).
  apply bind_Ok in H as ([] & He%require_internal_Ok & H).
  apply bind_Ok in H as ([] & Hr%require_internal_Ok & H).
  apply bind_Ok in H as ([] & Hc%require_internal_Ok & [= <-]).
  exists a. split; [done|]. split; [done|].
  unfold extends_head in He. rewrite !andb_true_iff in He. destruct He as ((_ & Hb) & Haf).
  apply Z.eqb_eq in Hb, Haf. unfold account_check in Hc. simpl in Hc. int_inv.
  split; [lia|]. split; [done|]. split; [lia|]. split; [|done].
  intros r Hin Heq. unfold row_check in Hr. rewrite !andb_true_iff, !negb_true_iff in Hr.
  destruct Hr as ((_ & Hu) & _). rewrite <-not_true_iff_false, existsb_exists in Hu.
  apply Hu. exists r. rewrite <-list_elem_of_In, Heq, String.eqb_refl. done.
Qed.

Lemma insert_contribution_Ok b e b' :
  insert_contribution b e = Ok b' →
  ∃ a, accounts b !! account_id e = Some a
    ∧ extends_head (rows_of (account_id e) (contribution_ledger b))
        (contribution_ledger_head_hash a) (contribution_ledger_entry_count a)
        (contribution_micro a) e = true
    ∧ 0 ≤ balance_after_micro e ∧ 0 ≤ amount_micro e
    ∧ balance_after_micro e = contribution_micro a + amount_micro e
    ∧ b' = mkBooks (<[account_id e := mkAccount (spendable_micro a) (reserved_micro a)
          (balance_after_micro e) (quota_ledger_head_hash a) (quota_ledger_entry_count a)
          (entry_hash e) (contribution_ledger_entry_count a + 1)]> (accounts b))
        (quota_ledger b) (e :: contribution_ledger b) (reserve_balance_micro b)
        (reserve_ledger_head_hash b) (reserve_ledger_entry_count b) (reserve_ledger b).
Proof.
  unfold insert_contribution. intros H. apply bind_Ok in H as (a & Ha%or_internal_Ok & H).
  apply bind_Ok in H as ([] & He%require_internal_Ok & H).
  apply bind_Ok in H as ([] & Hd%require_internal_Ok & H).
  apply bind_Ok in H as ([] & Hr%require_internal_Ok & H).
  apply bind_Ok in H as ([] & Hc%require_internal_Ok & [= <-]).
  exists a. split; [done|]. split; [done|].
  unfold extends_head in He. rewrite !andb_true_iff in He. destruct He as ((_ & Hb) & Haf).
  apply Z.eqb_eq in Hb, Haf. unfold account_check in Hc. simpl in Hc. int_inv.
  split_and!; try done; lia.
Qed.

Lemma insert_reserve_Ok b e ref b' :
  insert_reserve b e ref = Ok b' →
  extends_head (reserve_entry <$> reserve_ledger b) (reserve_ledger_head_hash b)
    (reserve_ledger_entry_count b) (reserve_balance_micro b) e = true
  ∧ 0 ≤ balance_after_micro e
  ∧ balance_after_micro e = reserve_balance_micro b + amount_micro e
  ∧ b' = mkBooks (accounts b) (quota_ledger b) (contribution_ledger b)
      (balance_after_micro e) (entry_hash e) (reserve_ledger_entry_count b + 1)
      (mkReserveRow e ref :: reserve_ledger b).
Proof.
  unfold insert_reserve. intros H. apply bind_Ok in H as ([] & He%require_internal_Ok & H).
  apply bind_Ok in H as ([] & Hr%require_internal_Ok & H).
  apply bind_Ok in H as ([] & _ & [= <-]). split; [done|].
  unfold extends_head in He. rewrite !andb_true_iff in He. destruct He as ((_ & Hb) & Haf).
  apply Z.eqb_eq in Hb, Haf. unfold row_check in Hr. int_inv. split_and!; try done; lia.
Qed.

(** ** Every statement preserves the invariant *)

Lemma update_reserved_ok b u delta guard b' :
  books_ok b → update_reserved b u delta guard = Ok b' → books_ok b'.
Proof.
  intros (Ha & Hq & Hc & Hr) (a & Eu & _ & Hres & ->)%update_reserved_Ok.
  unfold books_ok, set_account; simpl. split_and!; [|intros e He|intros e He|done].
  - intros v a'. rewrite lookup_insert_Some. intros [[<- <-]|[_ Hv]]; [|by apply Ha].
    destruct (Ha _ _ Eu) as (? & ? & ? & ?). unfold account_ok; simpl. split_and!; try done; lia.
  - rewrite lookup_insert_is_Some. destruct (decide (u = account_id e)); [by left|right; auto].
  - rewrite lookup_insert_is_Some. destruct (decide (u = account_id e)); [by left|right; auto].
Qed.

Lemma insert_quota_ok b e b' : books_ok b → insert_quota b e = Ok b' → books_ok b'.
Proof.
  intros (Ha & Hq & Hc & Hr) (a & Eu & He & Hres & Hbe & Hpos & _ & ->)%insert_quota_Ok.
  unfold books_ok; simpl. split_and!; [|intros e' He'|intros e' He'|done].
  - intros v a'. rewrite lookup_insert_Some. intros [[<- <-]|[Hne Hv]].
    + destruct (Ha _ _ Eu) as (? & ? & ? & ?). unfold account_ok; simpl.
      rewrite Z.eqb_refl. split_and!; try done; try lia. apply (extends_head_ok _ _ _ _ _ H He). lia.
    + unfold account_ok; simpl. rewrite (proj2 (Z.eqb_neq _ _)) by done. by apply Ha.
  - rewrite lookup_insert_is_Some. destruct (decide (account_id e = account_id e')); [by left|].
    right. split; [done|]. apply Hq. by apply elem_of_cons in He' as [->|].
  - rewrite lookup_insert_is_Some. destruct (decide (account_id e = account_id e')); [by left|right; auto].
Qed.

Lemma insert_contribution_ok b e b' : books_ok b → insert_contribution b e = Ok b' → books_ok b'.
Proof.
  intros (Ha & Hq & Hc & Hr) (a & Eu & He & Hpos & Hd & Haf & ->)%insert_contribution_Ok.
  unfold books_ok; simpl. split_and!; [|intros e' He'|intros e' He'|done].
  - intros v a'. rewrite lookup_insert_Some. intros [[<- <-]|[Hne Hv]].
    + destruct (Ha _ _ Eu) as (? & ? & ? & ?). unfold account_ok; simpl.
      rewrite Z.eqb_refl. split_and!; try done; try lia. by apply (extends_head_ok _ _ _ _ _ H0 He).
    + unfold account_ok; simpl. rewrite (proj2 (Z.eqb_neq _ _)) by done. by apply Ha.
  - rewrite lookup_insert_is_Some. destruct (decide (account_id e = account_id e')); [by left|right; auto].
  - rewrite lookup_insert_is_Some. destruct (decide (account_id e = account_id e')); [by left|].
    right. split; [done|]. apply Hc. by apply elem_of_cons in He' as [->|].
Qed.

Lemma insert_reserve_ok b e ref b' : books_ok b → insert_reserve b e ref = Ok b' → books_ok b'.
Proof.
  intros (Ha & Hq & Hc & Hr) (He & Hpos & Haf & ->)%insert_reserve_Ok.
  unfold books_ok; simpl. split_and!; try done. by apply (extends_head_ok _ _ _ _ _ Hr He).
Qed.
