(* ===== verification/Envelope.v ===== *)
(** * Regulated envelopes: crates/mindone-protocol/src/jobs.rs and common.rs *)
From S2P Require Import Prelude Text Net StandardData.
From Stdlib Require Import Ascii.

Local Open Scope string_scope.
Local Open Scope list_scope.
Local Open Scope Z_scope.

Definition REGULATED_ENVELOPE_VERSION : Z := 1.
Definition REGULATED_ALGORITHM : string := "x25519-hkdf-sha256-chacha20poly1305".

Record ProtocolValidationError : Type := mkValidationError { field : string; error_message : string }.

(** Its [Display]. *)
Definition validation_error_to_string (e : ProtocolValidationError) : string :=
  "字段 " +:+ field e +:+ " 无效：" +:+ error_message e.

Inductive EnvelopeDirection : Type := RequestDirection | ResultDirection.

#[export] Instance EnvelopeDirection_eq_dec : EqDecision EnvelopeDirection.
Proof. solve_decision. Defined.

Record RegulatedEnvelope : Type := mkEnvelope {
  envelope_version : Z;
  algorithm : string;
  direction : EnvelopeDirection;
  route_id : Z;
  report_id : Z;
  envelope_model_instance_id : Z;
  sender_public_key : string;
  envelope_nonce : string;
  ciphertext : string;
}.

Definition is_ascii_whitespace (b : Z) : bool :=
  (b =? 32) || (b =? 9) || (b =? 10) || (b =? 12) || (b =? 13).

Definition envelope_lower_hex (field_name value : string) (decoded_len : Z)
    : result ProtocolValidationError () :=
  bail_if (negb (str_len value =? decoded_len * 2)
      || negb (all_bytes (λ b, is_ascii_digit b || in_range 97 102 b) value))
    (mkValidationError field_name ("必须是 " +:+ dec decoded_len +:+ " 字节的小写十六进制")).

Section decode.
Context `{C : Crypto}.

Definition decode_base64url (field_name value : string) (minimum maximum : Z)
    : result ProtocolValidationError string :=
  _ ← bail_if (str_is_empty value
      || (div_trunc (maximum * 4) 3 + 4 <? str_len value)
      || negb (all_bytes (λ b, negb (is_ascii_whitespace b || (b =? 61))) value))
    (mkValidationError field_name "必须是无 padding 的 URL-safe base64");
  decoded ← ok_or (base64_decode value) (mkValidationError field_name "URL-safe base64 编码无效");
  _ ← bail_if (negb ((minimum <=? str_len decoded) && (str_len decoded <=? maximum)))
    (mkValidationError field_name "解码后长度超出协议范围");
  Ok decoded.

(** [<RegulatedEnvelope as Validate>::validate]. *)
Definition envelope_validate (self : RegulatedEnvelope) : result ProtocolValidationError () :=
  _ ← bail_if (negb (envelope_version self =? REGULATED_ENVELOPE_VERSION))
    (mkValidationError "version" "Regulated envelope 版本不受支持");
  _ ← bail_if (negb (String.eqb (algorithm self) REGULATED_ALGORITHM))
    (mkValidationError "algorithm" "Regulated envelope 算法不受支持");
  _ ← envelope_lower_hex "sender_public_key" (sender_public_key self) 32;
  _ ← bail_if (all_bytes (λ b, b =? 48) (sender_public_key self))
    (mkValidationError "sender_public_key" "X25519 公钥不能是全零值");
  nonce ← decode_base64url "nonce" (envelope_nonce self) 12 12;
  _ ← bail_if (all_bytes (λ b, b =? 0) nonce)
    (mkValidationError "nonce" "AEAD nonce 不能是全零值");
  text ← decode_base64url "ciphertext" (ciphertext self) 17 900000;
  bail_if (str_len text <? 17)
    (mkValidationError "ciphertext" "Regulated ciphertext 缺少 AEAD tag 或明文").
End decode.
