(* ===== verification/Snapshot.v ===== *)
(** * Frozen billing snapshots: crates/mindone-coordinator/src/settlement.rs

    What a job may cost is frozen in its row when it is created; settlement
    reads it back, checks it against the contract formula and bills it. *)
From S2P Require Import Prelude Text Fixed Billing Net StandardData Api.

Local Open Scope string_scope.
Local Open Scope Z_scope.

Record JobBillingSnapshot : Type := mkSnapshot {
  contract_version : string;
  profile_id : Z;
  profile_version : Z;
  profile_fingerprint : string;
  model_weights_hash : string;
  reference_hardware_class : string;
  profile_evidence_hash : string;
  profile_valid_from : Z;
  profile_valid_until : Z;
  profile_max_input_tokens : Z;
  profile_max_output_tokens : Z;
  snapshot_fixed_gpu_time_us : Z;
  snapshot_gpu_time_us_per_1k_tokens : Z;
  snapshot_reference_vram_mib : Z;
  snapshot_token_rate_micro_per_1k : Z;
  snapshot_gpu_rate_micro_per_second : Z;
  snapshot_vram_rate_micro_per_gib_second : Z;
  authorized_input_tokens : Z;
  authorized_max_output_tokens : Z;
  snapshot_billable_tokens : Z;
  snapshot_reference_gpu_time_us : Z;
  snapshot_reference_vram_mib_microseconds : Z;
  token_cost_micro : Z;
  gpu_cost_micro : Z;
  vram_cost_micro : Z;
  base_cost_micro : Z;
}.

(** The nullable [billing_*] columns of a job row. *)
Record BillingColumns : Type := mkBillingColumns {
  billing_contract_version : option string;
  billing_profile_id : option Z;
  billing_profile_version : option Z;
  billing_profile_fingerprint : option string;
  billing_model_weights_hash : option string;
  billing_reference_hardware_class : option string;
  billing_profile_evidence_hash : option string;
  billing_profile_valid_from : option Z;
  billing_profile_valid_until : option Z;
  billing_profile_max_input_tokens : option Z;
  billing_profile_max_output_tokens : option Z;
  billing_fixed_gpu_time_us : option Z;
  billing_gpu_time_us_per_1k_tokens : option Z;
  billing_reference_vram_mib : option Z;
  billing_token_rate_micro_per_1k : option Z;
  billing_gpu_rate_micro_per_second : option Z;
  billing_vram_rate_micro_per_gib_second : option Z;
  billing_authorized_input_tokens : option Z;
  billing_authorized_max_output_tokens : option Z;
  billing_billable_tokens : option Z;
  billing_reference_gpu_time_us : option Z;
  billing_reference_vram_mib_microseconds : option Z;
  billing_token_cost_micro : option Z;
  billing_gpu_cost_micro : option Z;
  billing_vram_cost_micro : option Z;
  billing_base_cost_micro : option Z;
}.

(** Every accounting error is an internal error of the API. *)
Definition map_accounting_error (_ : AccountingError) : ApiError := internal.

Definition checked_i64 (value : Z) : ApiResult Z := or_internal (i64_try_from value).

Definition ceil_div (numerator denominator : Z) : ApiResult Z :=
  _ ← bail_if ((numerator <? 0) || (denominator <=? 0)) internal;
  value ← or_internal (i128_checked_add numerator (denominator - 1));
  Ok (div_trunc value denominator).

(** The profile rebuilt from the frozen parameters. *)
Definition frozen_profile (self : JobBillingSnapshot) : ServerReferenceBillingProfile :=
  mkProfile (profile_max_input_tokens self) (profile_max_output_tokens self)
    (snapshot_fixed_gpu_time_us self) (snapshot_gpu_time_us_per_1k_tokens self)
    (snapshot_reference_vram_mib self) (snapshot_token_rate_micro_per_1k self)
    (snapshot_gpu_rate_micro_per_second self) (snapshot_vram_rate_micro_per_gib_second self).

Definition validate_frozen_quote (self : JobBillingSnapshot) : ApiResult () :=
  quote ← map_err map_accounting_error
    (maximum_reservation_quote (frozen_profile self) (authorized_input_tokens self)
      (authorized_max_output_tokens self));
  bail_if (negb (billable_tokens quote =? snapshot_billable_tokens self)
    || negb (reference_gpu_time_us quote =? snapshot_reference_gpu_time_us self)
    || negb (reference_vram_mib_microseconds quote =? snapshot_reference_vram_mib_microseconds self)
    || negb (as_i64 (token_cost quote) =? token_cost_micro self)
    || negb (as_i64 (gpu_cost quote) =? gpu_cost_micro self)
    || negb (as_i64 (vram_cost quote) =? vram_cost_micro self)
    || negb (as_i64 (quote_base_cost quote) =? base_cost_micro self)) internal.

(** [JobBillingSnapshot::from_job_row]: the billing columns and the two limits
    of the job's own protocol fields. *)
Definition from_job_row (row : BillingColumns) (estimated_input_tokens max_output_tokens : Z)
    : ApiResult JobBillingSnapshot :=
  let unavailable := conflict "billing_contract_unavailable"
    "任务没有冻结可结算的服务器参考上界计费合同" in
  version ← ok_or (billing_contract_version row) unavailable;
  _ ← bail_if (negb (String.eqb version SERVER_REFERENCE_UPPER_BOUND_V1)) unavailable;
  id ← or_internal (billing_profile_id row);
  profile_version ← or_internal (billing_profile_version row);
  fingerprint ← or_internal (billing_profile_fingerprint row);
  weights_hash ← or_internal (billing_model_weights_hash row);
  hardware_class ← or_internal (billing_reference_hardware_class row);
  evidence_hash ← or_internal (billing_profile_evidence_hash row);
  valid_from ← or_internal (billing_profile_valid_from row);
  valid_until ← or_internal (billing_profile_valid_until row);
  max_input ← or_internal (billing_profile_max_input_tokens row);
  max_output ← or_internal (billing_profile_max_output_tokens row);
  fixed_time ← or_internal (billing_fixed_gpu_time_us row);
  time_per_1k ← or_internal (billing_gpu_time_us_per_1k_tokens row);
  vram ← or_internal (billing_reference_vram_mib row);
  token_rate ← or_internal (billing_token_rate_micro_per_1k row);
  gpu_rate ← or_internal (billing_gpu_rate_micro_per_second row);
  vram_rate ← or_internal (billing_vram_rate_micro_per_gib_second row);
  input ← or_internal (billing_authorized_input_tokens row);
  output ← or_internal (billing_authorized_max_output_tokens row);
  tokens ← or_internal (billing_billable_tokens row);
  gpu_time ← or_internal (billing_reference_gpu_time_us row);
  vram_time ← or_internal (billing_reference_vram_mib_microseconds row);
  token_cost ← or_internal (billing_token_cost_micro row);
  gpu_cost ← or_internal (billing_gpu_cost_micro row);
  vram_cost ← or_internal (billing_vram_cost_micro row);
  base_cost ← or_internal (billing_base_cost_micro row);
  let snapshot := mkSnapshot version id profile_version fingerprint weights_hash hardware_class
    evidence_hash valid_from valid_until max_input max_output fixed_time time_per_1k vram
    token_rate gpu_rate vram_rate input output tokens gpu_time vram_time token_cost gpu_cost
    vram_cost base_cost in
  _ ← bail_if (negb (authorized_input_tokens snapshot =? estimated_input_tokens)
      || negb (authorized_max_output_tokens snapshot =? max_output_tokens)) internal;
  _ ← validate_frozen_quote snapshot;
  Ok snapshot.

(** [canonical_hash]; the JSON encoder is third party. *)
Definition canonical_hash `{C : Crypto} (encode_snapshot : JobBillingSnapshot → option string)
    (self : JobBillingSnapshot) : ApiResult string :=
  canonical ← or_internal (encode_snapshot self);
  Ok (hex_encode (sha256 canonical)).

Definition frozen_base_for_authorized_usage (billing : JobBillingSnapshot)
    (actual_input_tokens actual_output_tokens : Z) : ApiResult Z :=
  _ ← bail_if ((authorized_input_tokens billing <? actual_input_tokens)
      || (authorized_max_output_tokens billing <? actual_output_tokens))
    (bad_request "usage_exceeds_authorized_limit" "节点上报的 Token 使用量超过任务授权上限");
  Ok (base_cost_micro billing).

(** The reservation of the retired per-token price, kept by the service. *)
Definition legacy_reservation_micro (estimated_input_tokens max_output_tokens
    base_cost_per_1k_micro : Z) : ApiResult Z :=
  _ ← bail_if ((estimated_input_tokens <? 0) || (max_output_tokens <=? 0)
      || (base_cost_per_1k_micro <=? 0))
    (bad_request "invalid_usage_limits" "Token 上限或模型计价无效");
  let tokens := estimated_input_tokens + max_output_tokens in
  base ← ceil_div (tokens * base_cost_per_1k_micro) 1000 ≫= checked_i64;
  base ← map_err map_accounting_error (MicroQuota.new base);
  settlement ← map_err map_accounting_error (Settlement.calculate base High Enhanced);
  Ok (as_i64 (user_deduction settlement)).

(** ** What a snapshot read from a job row guarantees *)

Lemma from_job_row_Ok row i o s :
  from_job_row row i o = Ok s →
  validate_frozen_quote s = Ok tt
  ∧ authorized_input_tokens s = i ∧ authorized_max_output_tokens s = o
  ∧ billing_base_cost_micro row = Some (base_cost_micro s).
Proof.
  unfold from_job_row. intros H.
  apply bind_Ok in H as (v & _ & H). apply bind_Ok in H as ([] & _ & H).
  do 24 apply bind_Ok in H as (? & _ & H). apply bind_Ok in H as (base & Hbase%or_internal_Ok & H).
  apply bind_Ok in H as ([] & Hb%bail_if_Ok & H). apply bind_Ok in H as ([] & Hq & [= <-]).
  simpl in *. apply orb_false_iff in Hb as [H1%negb_false_iff%Z.eqb_eq H2%negb_false_iff%Z.eqb_eq].
  done.
Qed.

(** A quote's base cost is a sum the checked addition accepted. *)
Lemma reservation_quote_range p i o q :
  maximum_reservation_quote p i o = Ok q → 0 ≤ as_i64 (quote_base_cost q) ≤ i64_max.
Proof.
  unfold maximum_reservation_quote. intros H. apply bind_Ok in H as ([] & _ & H).
  apply bind_Ok in H as ([] & _ & H). apply bind_Ok in H as ([] & _ & H).
  apply bind_Ok in H as (n & _ & H). rewrite quote_price in H.
  apply bind_Ok in H as ([] & _ & H). apply bind_Ok in H as ([] & _ & H).
  apply bind_Ok in H as (m & _ & H). apply bind_Ok in H as ([] & _ & H). unfold price in H.
  do 10 apply bind_Ok in H as (? & _ & H).
  apply bind_Ok in H as (base & Hb%micro_checked_add_wf & [= <-]). exact Hb.
Qed.

Lemma validate_frozen_quote_Ok s :
  validate_frozen_quote s = Ok tt →
  ∃ q, maximum_reservation_quote (frozen_profile s) (authorized_input_tokens s)
         (authorized_max_output_tokens s) = Ok q
    ∧ base_cost_micro s = as_i64 (quote_base_cost q)
    ∧ snapshot_billable_tokens s = billable_tokens q.
Proof.
  unfold validate_frozen_quote. intros H. apply bind_Ok in H as (q & Hq%map_err_Ok & H).
  apply bail_if_Ok in H. rewrite !orb_false_iff, !negb_false_iff, !Z.eqb_eq in H. exists q. naive_solver.
Qed.

Lemma snapshot_base_range row i o s :
  from_job_row row i o = Ok s → 0 ≤ base_cost_micro s ≤ i64_max.
Proof.
  intros ((q & Hq & -> & _)%validate_frozen_quote_Ok & _)%from_job_row_Ok.
  by apply reservation_quote_range in Hq.
Qed.

(** The quote behind a reservation, on the token bounds it authorises. *)
Lemma reservation_quote_Ok p i o q :
  profile_i64 p → in_i64 i = true → in_i64 o = true →
  maximum_reservation_quote p i o = Ok q →
  validate p = Ok tt ∧ 0 ≤ i ≤ maximum_input_tokens p ∧ 1 ≤ o ≤ maximum_output_tokens p
  ∧ q = quote_spec p (i + o).
Proof.
  intros Hp Hi Ho H. unfold maximum_reservation_quote in H.
  apply bind_Ok in H as ([] & H1%require_nonnegative_Ok & H).
  apply bind_Ok in H as ([] & H2%require_positive_Ok & H).
  apply bind_Ok in H as ([] & Hb%bail_if_Ok & H).
  apply orb_false_iff in Hb as [Hb1%Z.ltb_ge Hb2%Z.ltb_ge].
  apply bind_Ok in H as (n & Hn & H). apply checked_add_i64_Ok in Hn as (Hn & ->); [|done..].
  apply quote_Ok in H as (Hv & _ & ->); [|done..]. split_and!; try done; lia.
Qed.

(** A job row whose frozen billing columns are accepted can always be
    settled, at the frozen price. For columns of the database's i64 type the
    base cost read back is exactly the contract formula on the authorised
    tokens, whatever usage is reported within the authorisation; at every tier
    and trust class the settlement succeeds, credits every party, and never
    deducts more than the reservation of the same profile and tokens. *)
Theorem frozen_snapshot_settles row i o s :
  from_job_row row i o = Ok s → profile_i64 (frozen_profile s) → in_i64 i = true → in_i64 o = true →
  base_cost_micro s = base_cost_spec (frozen_profile s) (i + o)
  ∧ (∀ actual_input actual_output, actual_input ≤ i → actual_output ≤ o →
       frozen_base_for_authorized_usage s actual_input actual_output = Ok (base_cost_micro s))
  ∧ ∃ r, maximum_reservation_micro (frozen_profile s) i o = Ok r
    ∧ ∀ t c, ∃ x, Settlement.calculate (mkMicroQuota (base_cost_micro s)) t c = Ok x
        ∧ 0 < as_i64 (user_deduction x) ≤ as_i64 r
        ∧ 0 < as_i64 (node_spendable_quota x) ∧ 0 < as_i64 (reserve_inflow x).
Proof.
  intros H Hp Hi Ho.
  apply from_job_row_Ok in H as ((q & Hq & Hbase & _)%validate_frozen_quote_Ok & Ei & Eo & _).
  rewrite Ei, Eo in Hq.
  destruct (reservation_quote_Ok _ _ _ _ Hp Hi Ho Hq) as (Hv & Hri & Hro & ->).
  cbn [quote_base_cost quote_spec as_i64] in Hbase. split; [done|]. split.
  { intros ai ao Hai Hao. unfold frozen_base_for_authorized_usage. rewrite Ei, Eo.
    by rewrite (proj2 (Z.ltb_ge _ _) Hai), (proj2 (Z.ltb_ge _ _) Hao). }
  assert (1 ≤ i + o ≤ profile_maximum (frozen_profile s)) as Hn by (unfold profile_maximum; lia).
  destruct (validated_settles (frozen_profile s) (i + o) High Enhanced Hp Hv Hn) as [Hb Hok].
  destruct (Settlement.calculate (mkMicroQuota (base_cost_spec (frozen_profile s) (i + o))) High
    Enhanced) as [s0|] eqn:Hs0; [|done].
  exists (user_deduction s0). split.
  { unfold maximum_reservation_micro. rewrite Hq. simpl. by rewrite Hs0. }
  intros t c. rewrite Hbase.
  destruct (calculate_high_enhanced_total (base_cost_spec (frozen_profile s) (i + o)) s0 ltac:(lia) Hs0 t c) as (x & Hx & Hle).
  destruct (settlement_credits_positive (base_cost_spec (frozen_profile s) (i + o)) t c x ltac:(lia) Hx) as (? & ? & ?).
  exists x. split_and!; (done || lia).
Qed.

(** The snapshot of the source's unit test. *)
Definition sample_row : BillingColumns :=
  mkBillingColumns (Some SERVER_REFERENCE_UPPER_BOUND_V1) (Some 1) (Some 1) (Some "f") (Some "w")
    (Some "nvidia-l4") (Some "e") (Some 0) (Some 86400000000) (Some 4096) (Some 1024)
    (Some 100000) (Some 2000000) (Some 8192) (Some 1000000) (Some 2000) (Some 3000) (Some 40)
    (Some 10) (Some 50) (Some 200000) (Some 1638400000) (Some 50000) (Some 400) (Some 4800)
    (Some 55200).

Lemma frozen_snapshot_settles_witness :
  ∃ s, from_job_row sample_row 40 10 = Ok s ∧ base_cost_micro s = 55200
    ∧ frozen_base_for_authorized_usage s 1 1 = Ok 55200.
Proof.
  eexists. split; [vm_compute; reflexivity|]. split; [reflexivity|].
  refine (proj1 (proj2 (frozen_snapshot_settles sample_row 40 10 _ _ _ _ _)) 1 1 _ _).
  - vm_compute. reflexivity.
  - repeat constructor.
  - reflexivity.
  - reflexivity.
  - lia.
  - lia.
Defined.
