(* ===== verification/Tables.v ===== *)
(** * Job tables: migrations 0001, 0007 to 0010, 0014, 0017, 0022, 0023, 0029, 0030, 0032 and 0038

    The rows the job routes and the settlement transaction read and write,
    with the columns they use.  A nullable column is an option; instants are microseconds; the
    bookkeeping column [updated_at] is left out.  [State] is the database. *)
From S2P Require Import Prelude Text Fixed Billing Ledger AntiAbuse Hardware Fingerprint Store Snapshot.

Local Open Scope string_scope.
Local Open Scope list_scope.
Local Open Scope Z_scope.

(** The CHECK constraint of [jobs.status]. *)
Inductive JobStatus : Type := Queued | Leased | Retry | Succeeded | Failed | Cancelled.

#[export] Instance JobStatus_eq_dec : EqDecision JobStatus.
Proof. solve_decision. Defined.

Inductive AttemptStatus : Type :=
| AttemptLeased | AttemptSucceeded | AttemptFailed | AttemptExpired.

#[export] Instance AttemptStatus_eq_dec : EqDecision AttemptStatus.
Proof. solve_decision. Defined.

Inductive InstanceStatus : Type := Published | Draining | Unpublished.

#[export] Instance InstanceStatus_eq_dec : EqDecision InstanceStatus.
Proof. solve_decision. Defined.

(** What the registration and the heartbeats of a node leave in its row. *)
Record NodeStanding : Type := mkStanding {
  pause_reason : option string;
  verified_uptime_seconds : Z;
  verified_heartbeat_count : Z;
  last_verified_heartbeat_at : option Z;
  node_created_at : Z;
}.

Record NodeRow : Type := mkNode {
  node_owner : Z;
  device_key_id : option Z;
  node_status : string;
  last_seen_at : option Z;
  trust_level : string;
  trust_expires_at : option Z;
  node_attestation_report : option Z;
  hardware_profile : string;
  node_alias : string;
  standing : NodeStanding;
}.

Record ModelRow : Type := mkModel {
  model_name : string;
  weights_hash : string;
  size_bytes : Z;
  tier : string;
  enabled : bool;
  base_cost_per_1k_micro : Z;
  model_context_length : Z;
  benchmark_normalized : Z;
  glicko_normalized : Z;
  evaluation_samples : Z;
  model_owner : Z;
  model_format : string;
}.

Record InstanceRow : Type := mkInstance {
  instance_model : Z;
  instance_node : Z;
  instance_status : InstanceStatus;
  unpublished_at : option Z;
  instance_tags : list string;
  instance_alias : string;
  published_at : Z;
}.

(** What a verified report shows to the consumers of its node. *)
Record EvidenceColumns : Type := mkEvidence {
  challenge_id : option Z;
  evidence_kind : option string;
  evidence_base64 : option string;
  evidence_sha256 : option string;
  report_data : option string;
  tee_measurement : option string;
  policy_hash : string;
  runtime_hash : string;
  issued_at : Z;
  verified_at : option Z;
}.

Record ReportRow : Type := mkReport {
  report_node : Z;
  report_instance : option Z;
  report_model_hash : option string;
  report_status : string;
  key_origin : string;
  expires_at : Z;
  collateral_current : bool;
  collateral_expires_at : option Z;
  signature_verified : bool;
  certificate_chain_verified : bool;
  tcb_current : bool;
  ephemeral_public_key : option string;
  report_provider : string;
  report_evidence : EvidenceColumns;
}.

(** The local policy of a node and its newest metrics sample. *)
Record PolicyRow : Type := mkPolicyRow {
  policy_reject_tags : list string;
  policy_max_concurrent : Z;
  policy_gpu_temp_limit_c : option Z;
  policy_vram_reserve_mib : Z;
}.

Record MetricsRow : Type := mkMetrics {
  tps_milli : Z;
  metrics_current_concurrent : Z;
  metrics_gpu_temp_c : option Z;
  vram_used_mib : option Z;
  vram_total_mib : option Z;
  error_rate_ppm : Z;
  metrics_coordinator_rtt_ms : option Z;
  metrics_ttft_ms : Z;
  measured_at : Z;
}.

(** A row of [heartbeats]. *)
Record HeartbeatRow : Type := mkHeartbeat {
  heartbeat_node : Z;
  heartbeat_status : string;
  heartbeat_accepting : bool;
  received_at : Z;
}.

(** A billing profile: the contract parameters a model may be billed with. *)
Record ProfileRow : Type := mkProfileRow {
  row_profile_id : Z;
  row_contract_version : string;
  row_profile_version : Z;
  row_profile_fingerprint : string;
  row_profile_model : Z;
  row_model_weights_hash : string;
  row_reference_hardware_class : string;
  row_evidence_hash : string;
  row_valid_from : Z;
  row_valid_until : Z;
  row_profile : ServerReferenceBillingProfile;
}.

(** The CHECK constraint of [regulated_routes.status]. *)
Inductive RouteStatus : Type := Prepared | Consumed | RouteExpired.

#[export] Instance RouteStatus_eq_dec : EqDecision RouteStatus.
Proof. solve_decision. Defined.

(** A row of [regulated_routes]: a consumer's hold on a slot of an attested node. *)
Record RouteRow : Type := mkRoute {
  route_user : Z;
  route_idempotency : string;
  prepare_request_fingerprint : option string;
  create_request_fingerprint : option string;
  route_model : Z;
  route_instance : Z;
  route_node : Z;
  route_report : Z;
  route_tags : list string;
  route_input_tokens : Z;
  route_max_output_tokens : Z;
  route_priority : Z;
  route_status : RouteStatus;
  prepared_at : Z;
  route_expires_at : Z;
  consumed_at : option Z;
  route_job : option Z;
  route_billing : BillingColumns;
}.

Definition route_prepared (r : RouteRow) : bool := bool_decide (route_status r = Prepared).

(** The tables the node, model and attestation routes maintain, and the prepared
    routes; [challenge_nonces] is the nonce of [attestation_challenges]. *)
Record Fleet : Type := mkFleet {
  policies : gmap Z PolicyRow;
  metrics : gmap Z MetricsRow;
  profiles : list ProfileRow;
  regulated_routes : gmap Z RouteRow;
  challenge_nonces : gmap Z string;
  heartbeats : list HeartbeatRow;
}.

(** A hidden evaluation challenge, as far as the lease of its worker goes. *)
Record ChallengeRow : Type := mkChallenge {
  challenge_node : Z;
  challenge_instance : Z;
  challenge_leased : bool;
  challenge_lease_expires_at : Z;
}.

(** The columns of a job that its creation fixes. *)
Record Submission : Type := mkSubmission {
  encrypted_payload : string;
  payload_encoding : string;
  job_tags : list string;
  priority : Z;
  max_attempts : Z;
  created_at : Z;
  standard_request_fingerprint : option string;
  standard_payload_storage_version : option Z;
  speed_class : string;
}.

Record JobRow : Type := mkJob {
  user_id : Z;
  model_id : Z;
  model_instance_id : option Z;
  job_idempotency : string;
  status : JobStatus;
  confidentiality_mode : string;
  regulated_route_id : option Z;
  regulated_node_id : option Z;
  attestation_report_id : option Z;
  estimated_input_tokens : Z;
  max_output_tokens : Z;
  reserved_cost_micro : Z;
  billing : BillingColumns;
  leased_to_node_id : option Z;
  lease_expires_at : option Z;
  attempt_count : Z;
  result_ciphertext : option string;
  result_idempotency_key : option string;
  actual_input_tokens : option Z;
  actual_output_tokens : option Z;
  result_telemetry_fingerprint : option string;
  standard_result_storage_version : option Z;
  completed_at : option Z;
  submission : Submission;
  available_at : Z;
}.

Record AttemptRow : Type := mkAttempt {
  attempt_node : Z;
  claim_device_binding_version : option Z;
  claim_device_key_id : option Z;
  attempt_status : AttemptStatus;
  finished_at : option Z;
  error_class : option string;
  attempt_error_message : option string;
  retryable_requested : option bool;
  attempt_result_key : option string;
  lease_started_at : Z;
  attempt_lease_expires_at : Z;
}.

(** A receipt; [receipt_snapshot] stands for its 26 [billing_*] columns. *)
Record ReceiptRow : Type := mkReceipt {
  receipt_id : Z;
  consumer_user_id : Z;
  node_user_id : Z;
  receipt_model_name : string;
  receipt_tier : string;
  receipt_trust_level : string;
  receipt_base_cost_micro : Z;
  receipt_user_deduction_micro : Z;
  receipt_node_quota_micro : Z;
  receipt_contribution_micro : Z;
  receipt_contribution_weight_ppm : Z;
  receipt_reserve_micro : Z;
  receipt_settlement_hash : string;
  receipt_created_at : Z;
  receipt_snapshot : JobBillingSnapshot;
}.

(** [receipts] is keyed by its unique job, [job_attempts] by job and attempt
    number; [quarantined] holds the quarantined instances of
    [model_instance_canary_state], [challenges] is
    [model_evaluation_challenges]. *)
Record State : Type := mkState {
  books : Books;
  abuse : AntiAbuse.Db;
  telemetry : TelemetryDb;
  nodes : gmap Z NodeRow;
  models : gmap Z ModelRow;
  instances : gmap Z InstanceRow;
  reports : gmap Z ReportRow;
  quarantined : gset Z;
  challenges : gmap Z ChallengeRow;
  fleet : Fleet;
  jobs : gmap Z JobRow;
  attempts : gmap (Z * Z) AttemptRow;
  receipts : gmap Z ReceiptRow;
}.

(** [now() - interval '90 seconds'] in microseconds. *)
Definition LIVENESS_MICROS : Z := 90000000.

(** A SQL test on a nullable column. *)
Definition sql_is {A} (o : option A) (p : A → bool) : bool :=
  match o with Some a => p a | None => false end.

(** ** Updates *)

Definition with_books (st : State) (b : Books) : State :=
  mkState b (abuse st) (telemetry st) (nodes st) (models st) (instances st) (reports st)
    (quarantined st) (challenges st) (fleet st) (jobs st) (attempts st) (receipts st).
Definition with_abuse (st : State) (a : AntiAbuse.Db) : State :=
  mkState (books st) a (telemetry st) (nodes st) (models st) (instances st) (reports st)
    (quarantined st) (challenges st) (fleet st) (jobs st) (attempts st) (receipts st).
Definition with_telemetry (st : State) (t : TelemetryDb) : State :=
  mkState (books st) (abuse st) t (nodes st) (models st) (instances st) (reports st)
    (quarantined st) (challenges st) (fleet st) (jobs st) (attempts st) (receipts st).
Definition with_nodes (st : State) (n : gmap Z NodeRow) : State :=
  mkState (books st) (abuse st) (telemetry st) n (models st) (instances st) (reports st)
    (quarantined st) (challenges st) (fleet st) (jobs st) (attempts st) (receipts st).
Definition with_models (st : State) (m : gmap Z ModelRow) : State :=
  mkState (books st) (abuse st) (telemetry st) (nodes st) m (instances st) (reports st)
    (quarantined st) (challenges st) (fleet st) (jobs st) (attempts st) (receipts st).
Definition with_instances (st : State) (i : gmap Z InstanceRow) : State :=
  mkState (books st) (abuse st) (telemetry st) (nodes st) (models st) i (reports st)
    (quarantined st) (challenges st) (fleet st) (jobs st) (attempts st) (receipts st).
Definition with_fleet (st : State) (f : Fleet) : State :=
  mkState (books st) (abuse st) (telemetry st) (nodes st) (models st) (instances st) (reports st)
    (quarantined st) (challenges st) f (jobs st) (attempts st) (receipts st).
Definition with_routes (st : State) (rs : gmap Z RouteRow) : State :=
  with_fleet st (mkFleet (policies (fleet st)) (metrics (fleet st)) (profiles (fleet st)) rs
    (challenge_nonces (fleet st)) (heartbeats (fleet st))).
Definition with_jobs (st : State) (j : gmap Z JobRow) : State :=
  mkState (books st) (abuse st) (telemetry st) (nodes st) (models st) (instances st) (reports st)
    (quarantined st) (challenges st) (fleet st) j (attempts st) (receipts st).
Definition with_attempts (st : State) (a : gmap (Z * Z) AttemptRow) : State :=
  mkState (books st) (abuse st) (telemetry st) (nodes st) (models st) (instances st) (reports st)
    (quarantined st) (challenges st) (fleet st) (jobs st) a (receipts st).
Definition with_receipts (st : State) (r : gmap Z ReceiptRow) : State :=
  mkState (books st) (abuse st) (telemetry st) (nodes st) (models st) (instances st) (reports st)
    (quarantined st) (challenges st) (fleet st) (jobs st) (attempts st) r.

(** The life of a route. *)
Definition route_ended (r : RouteRow) (s : RouteStatus) (now : Z) (job : option Z)
    (fingerprint : option string) : RouteRow :=
  mkRoute (route_user r) (route_idempotency r) (prepare_request_fingerprint r) fingerprint
    (route_model r) (route_instance r) (route_node r) (route_report r) (route_tags r)
    (route_input_tokens r) (route_max_output_tokens r) (route_priority r) s (prepared_at r)
    (route_expires_at r) (Some now) job (route_billing r).

Definition job_failed (j : JobRow) (now : Z) : JobRow :=
  mkJob (user_id j) (model_id j) (model_instance_id j) (job_idempotency j) Failed
    (confidentiality_mode j) (regulated_route_id j) (regulated_node_id j)
    (attestation_report_id j) (estimated_input_tokens j) (max_output_tokens j)
    (reserved_cost_micro j) (billing j) (leased_to_node_id j) (lease_expires_at j)
    (attempt_count j) (result_ciphertext j) (result_idempotency_key j) (actual_input_tokens j)
    (actual_output_tokens j) (result_telemetry_fingerprint j)
    (standard_result_storage_version j) (Some now) (submission j) (available_at j).

(** [UPDATE jobs SET status = 'succeeded', ...] of [complete_job]. *)
Definition job_succeeded (j : JobRow) (ciphertext key : string) (input output : Z)
    (fingerprint : string) (storage_version : option Z) (now : Z) : JobRow :=
  mkJob (user_id j) (model_id j) (model_instance_id j) (job_idempotency j) Succeeded
    (confidentiality_mode j) (regulated_route_id j) (regulated_node_id j)
    (attestation_report_id j) (estimated_input_tokens j) (max_output_tokens j)
    (reserved_cost_micro j) (billing j) (leased_to_node_id j) (lease_expires_at j)
    (attempt_count j) (Some ciphertext) (Some key) (Some input) (Some output)
    (Some fingerprint) storage_version (Some now) (submission j) (available_at j).

(** The lease columns of a job, as claiming, renewing, retrying and cancelling
    set them; the status goes with them. *)
Definition job_lease (j : JobRow) (s : JobStatus) (node instance expires : option Z)
    (attempt : Z) (completed : option Z) (available : Z) : JobRow :=
  mkJob (user_id j) (model_id j) instance (job_idempotency j) s
    (confidentiality_mode j) (regulated_route_id j) (regulated_node_id j)
    (attestation_report_id j) (estimated_input_tokens j) (max_output_tokens j)
    (reserved_cost_micro j) (billing j) node expires attempt (result_ciphertext j)
    (result_idempotency_key j) (actual_input_tokens j) (actual_output_tokens j)
    (result_telemetry_fingerprint j) (standard_result_storage_version j) completed
    (submission j) available.

Definition job_leased (j : JobRow) (node instance expires attempt : Z) : JobRow :=
  job_lease j Leased (Some node) (Some instance) (Some expires) attempt (completed_at j)
    (available_at j).
Definition job_renewed (j : JobRow) (expires : Z) : JobRow :=
  job_lease j (status j) (leased_to_node_id j) (model_instance_id j) (Some expires)
    (attempt_count j) (completed_at j) (available_at j).
Definition job_retried (j : JobRow) (available : Z) : JobRow :=
  job_lease j Retry None
    (if String.eqb (confidentiality_mode j) "regulated" then model_instance_id j else None)
    None (attempt_count j) (completed_at j) available.
Definition job_cancelled (j : JobRow) (now : Z) : JobRow :=
  job_lease j Cancelled (leased_to_node_id j) (model_instance_id j) None (attempt_count j)
    (Some now) (available_at j).

(** The outcome columns of an attempt. *)
Definition attempt_outcome (a : AttemptRow) (s : AttemptStatus) (finished : option Z)
    (class message : option string) (retryable : option bool) (key : option string) : AttemptRow :=
  mkAttempt (attempt_node a) (claim_device_binding_version a) (claim_device_key_id a)
    s finished class message retryable key (lease_started_at a) (attempt_lease_expires_at a).

Definition attempt_failed (a : AttemptRow) (class message : string) (now : Z) : AttemptRow :=
  attempt_outcome a AttemptFailed (Some now) (Some class) (Some message) (Some false)
    (attempt_result_key a).

Definition attempt_succeeded (a : AttemptRow) (key : string) (now : Z) : AttemptRow :=
  attempt_outcome a AttemptSucceeded (Some now) (error_class a) (attempt_error_message a)
    (retryable_requested a) (Some key).

Definition instance_unpublished (i : InstanceRow) (now : Z) : InstanceRow :=
  mkInstance (instance_model i) (instance_node i) Unpublished (Some now) (instance_tags i)
    (instance_alias i) (published_at i).
