(* ===== verification/Lease.v ===== *)
(** * Regulated leases: crates/mindone-coordinator/src/settlement.rs

    The checks that keep a regulated lease bound to its attested hardware, the
    termination of a lease that lost it, and the draining of an instance whose
    last job left.  SQL conditions are three-valued in the source; the
    comparison of a NULL fails here as [COALESCE(..., FALSE)] makes it fail. *)
From S2P Require Import Prelude Text Fixed Ledger StandardData Hardware Fingerprint Store Envelope Api Snapshot Tables.

Local Open Scope string_scope.
Local Open Scope list_scope.
Local Open Scope Z_scope.

(** [instance_canary_quarantined] of routes/evaluations.rs. *)
Definition instance_canary_quarantined (st : State) (instance : Z) : bool :=
  bool_decide (instance ∈ quarantined st).

(** The boolean of the SELECT, on the joined rows. *)
Definition binding_holds (st : State) (now node_id : Z) (j : JobRow) (n : NodeRow) (mi_id : Z)
    (mi : InstanceRow) (m : ModelRow) (ar_id : Z) (ar : ReportRow) : bool :=
  String.eqb (confidentiality_mode j) "regulated"
  && bool_decide (status j = Leased)
  && sql_is (leased_to_node_id j) (λ i, i =? node_id)
  && sql_is (regulated_node_id j) (λ i, i =? node_id)
  && existsb (String.eqb (node_status n)) ["online"; "paused"; "draining"]
  && sql_is (last_seen_at n) (λ t, now - LIVENESS_MICROS <? t)
  && String.eqb (trust_level n) "enhanced"
  && sql_is (trust_expires_at n) (λ t, now <? t)
  && sql_is (node_attestation_report n) (λ r, r =? ar_id)
  && (instance_node mi =? node_id)
  && (instance_model mi =? model_id j)
  && bool_decide (instance_status mi = Published ∨ instance_status mi = Draining)
  && negb (bool_decide (mi_id ∈ quarantined st))
  && enabled m
  && (report_node ar =? node_id)
  && sql_is (report_instance ar) (λ i, i =? mi_id)
  && sql_is (report_model_hash ar) (λ h, String.eqb h (weights_hash m))
  && String.eqb (report_status ar) "verified"
  && String.eqb (key_origin ar) "tee_runtime"
  && (now <? expires_at ar)
  && collateral_current ar
  && sql_is (collateral_expires_at ar) (λ t, now <? t)
  && signature_verified ar
  && certificate_chain_verified ar
  && tcb_current ar.

(** [regulated_lease_binding_valid]: the inner joins yield no row when one of
    the bound rows is missing. *)
Definition regulated_lease_binding_valid (st : State) (now job_id node_id : Z) : bool :=
  default false (
    j ← jobs st !! job_id;
    bound_node ← regulated_node_id j;
    n ← nodes st !! bound_node;
    mi_id ← model_instance_id j;
    mi ← instances st !! mi_id;
    m ← models st !! model_id j;
    ar_id ← attestation_report_id j;
    ar ← reports st !! ar_id;
    Some (binding_holds st now node_id j n mi_id mi m ar_id ar
          && negb (instance_canary_quarantined st mi_id))).

(** A leased job of the instance. *)
Definition instance_leased (st : State) (instance : Z) : bool :=
  existsb (λ p, bool_decide (model_instance_id p.2 = Some instance)
                && bool_decide (status p.2 = Leased)) (map_to_list (jobs st)).

(** A leased hidden challenge of the instance. *)
Definition challenge_held (st : State) (instance : Z) : bool :=
  existsb (λ p, (challenge_instance p.2 =? instance) && challenge_leased p.2)
    (map_to_list (challenges st)).

(** [finalize_draining_instance]: unpublish a draining instance without work. *)
Definition finalize_draining_instance (st : State) (now : Z) (instance : option Z) : State :=
  match instance with
  | None => st
  | Some i =>
    match instances st !! i with
    | Some row =>
      if bool_decide (instance_status row = Draining) && negb (instance_leased st i)
         && negb (challenge_held st i)
      then with_instances st (<[i := instance_unpublished row now]> (instances st))
      else st
    | None => st
    end
  end.

(** [fail_regulated_lease_attestation]. *)
Definition fail_regulated_lease_attestation (st : State) (now job_id : Z) (message : string)
    : ApiResult State :=
  j ← ok_or (jobs st !! job_id) (not_found "任务");
  _ ← bail_if (negb (String.eqb (confidentiality_mode j) "regulated")
      || negb (bool_decide (status j = Leased))) internal;
  let reservation := reserved_cost_micro j in
  b ← update_reserved (books st) (user_id j) (- reservation)
    (λ a, reservation <=? reserved_micro a);
  attempt ← or_internal (attempts st !! (job_id, attempt_count j));
  _ ← require_internal (bool_decide (attempt_status attempt = AttemptLeased));
  let st := with_books st b in
  let st := with_attempts st
    (<[(job_id, attempt_count j) := attempt_failed attempt "attestation" message now]>
       (attempts st)) in
  let st := with_jobs st (<[job_id := job_failed j now]> (jobs st)) in
  Ok (finalize_draining_instance st now (model_instance_id j)).

(** [validate_regulated_result_binding]; [parse_envelope] is the strict JSON
    parser of the wire type, [tee_public_key] the bound report's key. *)
Definition validate_regulated_result_binding `{C : Crypto}
    (parse_envelope : string → option RegulatedEnvelope)
    (j : JobRow) (tee_public_key : option string) (result_text : string) : ApiResult () :=
  envelope ← ok_or (parse_envelope result_text)
    (attestation_failed "TEE 返回的结果不是严格 Regulated envelope");
  _ ← map_err (λ e, attestation_failed (validation_error_to_string e))
    (envelope_validate envelope);
  bail_if (negb (bool_decide (direction envelope = ResultDirection))
      || negb (bool_decide (Some (route_id envelope) = regulated_route_id j))
      || negb (bool_decide (Some (report_id envelope) = attestation_report_id j))
      || negb (bool_decide (Some (envelope_model_instance_id envelope) = model_instance_id j))
      || negb (bool_decide (Some (sender_public_key envelope) = tee_public_key)))
    (attestation_failed "TEE 结果 envelope 与任务 route/report/model/public-key 绑定不一致").
