(* ===== verification/Postings.v ===== *)
(** * Settlement postings: crates/mindone-coordinator/src/settlement.rs

    The ledger appends of a settlement and the movement of money they cause.
    A statement's fresh identifiers and clock readings come from [Tx]. *)
From S2P Require Import Prelude Text Fixed Ledger Net StandardData Hardware Fingerprint Store Api Snapshot.

Local Open Scope string_scope.
Local Open Scope list_scope.
Local Open Scope Z_scope.

(** One transaction: its [now()], the results of its calls to [Uuid::now_v7]
    and [OffsetDateTime::now_utc], and the nonce it draws. *)
Record Tx : Type := mkTx {
  tx_now : Z;
  now_v7 : nat → Z;
  now_utc : nat → Z;
  tx_nonce : string;
}.

(** The account of the reserve's ledger rows, [Uuid::from_u128(1)]. *)
Definition RESERVE_ACCOUNT : Z := 1.

Definition lock_accounts (b : Books) (first second : Z) : ApiResult () :=
  let ids := if first =? second then [first] else [first; second] in
  let rows := List.filter (λ u, bool_decide (is_Some (accounts b !! u))) ids in
  bail_if (negb (Nat.eqb (length rows) (length ids))) internal.

Definition account_spendable (b : Books) (user_id : Z) : ApiResult Z :=
  or_internal (spendable_micro <$> accounts b !! user_id).

(** What [complete_job] is about to book. *)
Record Amounts : Type := mkAmounts {
  base_amount : Z;
  user_deduction_micro : Z;
  node_quota_micro : Z;
  contribution_amount : Z;
  weight_ppm : Z;
  reserve_micro : Z;
}.

Record PostingHashes : Type := mkHashes {
  consumer_hash : string;
  node_quota_hash : string;
  contribution_hash : string;
  reserve_hash : string;
}.

Section postings.
Context `{SE : Serde, C : Crypto}.

Definition sha256_hex (value : string) : string := hex_encode (sha256 value).

Definition append_quota (b : Books) (id created_at : Z) (user_id job_id : Z)
    (entry_type : string) (delta before after : Z) (idempotency_key : string)
    : ApiResult (string * Books) :=
  prev_hash ← or_internal (quota_ledger_head_hash <$> accounts b !! user_id);
  kind ← if String.eqb entry_type "consumer_deduction" then Ok ConsumerDeduction
         else if String.eqb entry_type "node_reward" then Ok NodeQuotaCredit
         else Err internal;
  ledger ← map_err map_accounting_error
    (ledger_new uuid_to_string sha256_hex id user_id (Some job_id) idempotency_key kind
       delta before after created_at prev_hash ∅);
  b ← insert_quota b ledger;
  Ok (entry_hash ledger, b).

Definition append_contribution (b : Books) (id created_at : Z) (user_id job_id : Z)
    (delta before after : Z) (idempotency_key : string) : ApiResult (string * Books) :=
  prev_hash ← or_internal (contribution_ledger_head_hash <$> accounts b !! user_id);
  ledger ← map_err map_accounting_error
    (ledger_new uuid_to_string sha256_hex id user_id (Some job_id) idempotency_key
       ContributionCredit delta before after created_at prev_hash ∅);
  b ← insert_contribution b ledger;
  Ok (entry_hash ledger, b).

Definition append_reserve (b : Books) (id created_at : Z) (job_id : Z)
    (delta before after : Z) (idempotency_key : string) : ApiResult (string * Books) :=
  ledger ← map_err map_accounting_error
    (ledger_new uuid_to_string sha256_hex id RESERVE_ACCOUNT (Some job_id) idempotency_key
       ReserveInflow delta before after created_at (reserve_ledger_head_hash b) ∅);
  b ← insert_reserve b ledger None;
  Ok (entry_hash ledger, b).

Definition job_key (job_id : Z) (suffix : string) : string :=
  "job:" +:+ uuid_to_string job_id +:+ suffix.

(** The four postings of [complete_job] with the release of the reservation. *)
Definition post_settlement (b : Books) (tx : Tx) (job_id consumer_user_id node_user_id : Z)
    (reserved_cost_micro : Z) (a : Amounts) : ApiResult (PostingHashes * Books) :=
  consumer_before ← account_spendable b consumer_user_id;
  _ ← bail_if (consumer_before <? user_deduction_micro a) insufficient_quota;
  let consumer_after := consumer_before - user_deduction_micro a in
  b ← update_reserved b consumer_user_id (- reserved_cost_micro)
    (λ account, reserved_cost_micro <=? reserved_micro account);
  '(consumer_hash, b) ← append_quota b (now_v7 tx 0%nat) (now_utc tx 0%nat) consumer_user_id job_id
    "consumer_deduction" (- user_deduction_micro a) consumer_before consumer_after
    (job_key job_id ":consumer");
  node_before ← account_spendable b node_user_id;
  node_after ← or_internal (i64_checked_add node_before (node_quota_micro a));
  '(node_quota_hash, b) ← append_quota b (now_v7 tx 1%nat) (now_utc tx 1%nat) node_user_id job_id
    "node_reward" (node_quota_micro a) node_before node_after (job_key job_id ":node-quota");
  contribution_before ← or_internal (contribution_micro <$> accounts b !! node_user_id);
  contribution_after ← or_internal (i64_checked_add contribution_before (contribution_amount a));
  '(contribution_hash, b) ← append_contribution b (now_v7 tx 2%nat) (now_utc tx 2%nat) node_user_id
    job_id (contribution_amount a) contribution_before contribution_after
    (job_key job_id ":contribution");
  let reserve_before := reserve_balance_micro b in
  reserve_after ← or_internal (i64_checked_add reserve_before (reserve_micro a));
  '(reserve_hash, b) ← append_reserve b (now_v7 tx 3%nat) (now_utc tx 3%nat) job_id
    (reserve_micro a) reserve_before reserve_after (job_key job_id ":reserve");
  Ok (mkHashes consumer_hash node_quota_hash contribution_hash reserve_hash, b).
End postings.

(** ** The movement of money *)

Definition balance_of (f : QuotaAccount → Z) (b : Books) (u : Z) : Z :=
  default 0 (f <$> accounts b !! u).
Abbreviation spendable_of := (balance_of spendable_micro).
Abbreviation reserved_of := (balance_of reserved_micro).
Abbreviation contribution_of := (balance_of contribution_micro).

(** All spendable money, the users' and the reserve's. *)
Definition money (b : Books) : Z :=
  map_fold (λ _ a z, spendable_micro a + z) 0 (accounts b) + reserve_balance_micro b.

(** A change of one user's balance. *)
Definition to_user (u d v : Z) : Z := if v =? u then d else 0.

(** [moved b b' ds dr dc dz dm]: the transition changes the balances of every
    user by [ds], [dr] and [dc], the reserve by [dz] and the total by [dm], adds
    no account and keeps the invariant. *)
Definition moved (b b' : Books) (ds dr dc : Z → Z) (dz dm : Z) : Prop :=
  (∀ u, spendable_of b' u = spendable_of b u + ds u
        ∧ reserved_of b' u = reserved_of b u + dr u
        ∧ contribution_of b' u = contribution_of b u + dc u
        ∧ (is_Some (accounts b' !! u) ↔ is_Some (accounts b !! u)))
  ∧ reserve_balance_micro b' = reserve_balance_micro b + dz
  ∧ money b' = money b + dm
  ∧ (books_ok b → books_ok b').

Lemma moved_trans b1 b2 b3 ds1 dr1 dc1 dz1 dm1 ds2 dr2 dc2 dz2 dm2 :
  moved b1 b2 ds1 dr1 dc1 dz1 dm1 → moved b2 b3 ds2 dr2 dc2 dz2 dm2 →
  moved b1 b3 (λ u, ds1 u + ds2 u) (λ u, dr1 u + dr2 u) (λ u, dc1 u + dc2 u)
    (dz1 + dz2) (dm1 + dm2).
Proof.
  intros (Hu1 & Hz1 & Hm1 & Hok1) (Hu2 & Hz2 & Hm2 & Hok2).
  split_and!; [|lia|lia|auto].
  intros u. destruct (Hu1 u) as (?&?&?&?), (Hu2 u) as (?&?&?&Hd). rewrite Hd.
  split_and!; try lia. done.
Qed.

Lemma sum_replace (m : gmap Z QuotaAccount) u a a' :
  m !! u = Some a →
  map_fold (λ _ a z, spendable_micro a + z) 0 (<[u := a']> m)
    = map_fold (λ _ a z, spendable_micro a + z) 0 m - spendable_micro a + spendable_micro a'.
Proof.
  intros Hu. rewrite <-insert_delete_eq.
  rewrite map_fold_insert_L by (apply lookup_delete_eq || (intros; lia)).
  rewrite (map_fold_delete_L _ _ u a m) by (done || (intros; lia)). lia.
Qed.

(** Replacing one account moves that account's balances. *)
Lemma moved_account b u a a' b' ds dr dc dm :
  accounts b !! u = Some a → accounts b' = <[u := a']> (accounts b) →
  reserve_balance_micro b' = reserve_balance_micro b →
  (∀ v, ds v = to_user u (spendable_micro a' - spendable_micro a) v) →
  (∀ v, dr v = to_user u (reserved_micro a' - reserved_micro a) v) →
  (∀ v, dc v = to_user u (contribution_micro a' - contribution_micro a) v) →
  dm = spendable_micro a' - spendable_micro a → (books_ok b → books_ok b') →
  moved b b' ds dr dc 0 dm.
Proof.
  intros Hu Ha Hz Hs Hr Hc -> Hok. split_and!; [|lia| |done].
  - intros v. rewrite Hs, Hr, Hc. unfold balance_of, to_user. rewrite Ha.
    destruct (Z.eqb_spec v u) as [->|Hne].
    + rewrite lookup_insert_eq, Hu. simpl. split_and!; [lia..|]. by split.
    + rewrite lookup_insert_ne by done. split_and!; [lia..|done].
  - unfold money. rewrite Ha, (sum_replace _ u a a' Hu), Hz. lia.
Qed.

Ltac solve_delta := intros; unfold to_user; simpl; try case_if; lia.

Lemma ledger_new_entry uuid digest id acc req key k amount before after t prev md e :
  ledger_new uuid digest id acc req key k amount before after t prev md = Ok e →
  entry_id e = id ∧ account_id e = acc ∧ request_id e = req ∧ idempotency_key e = key
  ∧ kind e = k ∧ amount_micro e = amount ∧ balance_before_micro e = before
  ∧ balance_after_micro e = after ∧ previous_hash e = prev ∧ metadata e = md
  ∧ created_at e = t.
Proof.
  unfold ledger_new. intros H. apply bind_Ok in H as ([] & _ & H).
  by apply bind_Ok in H as (h & _ & [= <-]).
Qed.

Lemma update_reserved_moved b u delta guard b' :
  update_reserved b u delta guard = Ok b' →
  moved b b' (λ _, 0) (to_user u delta) (λ _, 0) 0 0
  ∧ ∃ a, accounts b !! u = Some a ∧ guard a = true
  ∧ quota_ledger b' = quota_ledger b ∧ contribution_ledger b' = contribution_ledger b
  ∧ reserve_ledger b' = reserve_ledger b.
Proof.
  intros H. pose proof (λ Hok, update_reserved_ok b u delta guard b' Hok H) as Hok.
  apply update_reserved_Ok in H as (a & Hu & Hg & Hr & ->). split; [|by exists a].
  eapply (moved_account b u a); [exact Hu|reflexivity|reflexivity|solve_delta..|exact Hok].
Qed.

Section effects.
Context `{SE : Serde, C : Crypto}.

Lemma append_quota_moved b id t u j ty delta before after key h b' :
  append_quota b id t u j ty delta before after key = Ok (h, b') →
  moved b b' (to_user u delta) (λ _, 0) (λ _, 0) 0 delta
  ∧ before = spendable_of b u
  ∧ (∀ r, r ∈ quota_ledger b → idempotency_key r ≠ key)
  ∧ (∃ e, quota_ledger b' = e :: quota_ledger b ∧ idempotency_key e = key
      ∧ account_id e = u ∧ amount_micro e = delta ∧ request_id e = Some j ∧ entry_hash e = h)
  ∧ contribution_ledger b' = contribution_ledger b ∧ reserve_ledger b' = reserve_ledger b.
Proof.
  unfold append_quota. intros H. apply bind_Ok in H as (prev & _ & H).
  apply bind_Ok in H as (k & _ & H). apply bind_Ok in H as (e & He%map_err_Ok & H).
  apply bind_Ok in H as (b1 & Hi & [= <- <-]).
  apply ledger_new_entry in He as (_ & Hacc & Hreq & Hkey & _ & Ham & Hbe & _ & _).
  pose proof (λ Hok, insert_quota_ok b e b1 Hok Hi) as Hok.
  apply insert_quota_Ok in Hi as (a & Hu & _ & Hres & Hbef & Haft & Huniq & ->).
  rewrite Hacc in *. split; [|split_and!; try done].
  - eapply (moved_account b u a); [exact Hu|reflexivity|reflexivity|solve_delta..|exact Hok].
  - unfold balance_of. rewrite Hu. simpl. congruence.
  - rewrite <-Hkey. done.
  - by exists e.
Qed.

Lemma append_contribution_moved b id t u j delta before after key h b' :
  append_contribution b id t u j delta before after key = Ok (h, b') →
  moved b b' (λ _, 0) (λ _, 0) (to_user u delta) 0 0 ∧ 0 ≤ delta
  ∧ quota_ledger b' = quota_ledger b ∧ reserve_ledger b' = reserve_ledger b.
Proof.
  unfold append_contribution. intros H. apply bind_Ok in H as (prev & _ & H).
  apply bind_Ok in H as (e & He%map_err_Ok & H).
  apply bind_Ok in H as (b1 & Hi & [= <- <-]).
  apply ledger_new_entry in He as (_ & Hacc & _ & _ & _ & Ham & _ & _ & _).
  pose proof (λ Hok, insert_contribution_ok b e b1 Hok Hi) as Hok.
  apply insert_contribution_Ok in Hi as (a & Hu & _ & _ & Hd & Haft & ->).
  rewrite Hacc in *. split; [|split_and!; [lia|done..]].
  eapply (moved_account b u a); [exact Hu|reflexivity|reflexivity|solve_delta..|exact Hok].
Qed.

Lemma append_reserve_moved b id t j delta before after key h b' :
  append_reserve b id t j delta before after key = Ok (h, b') →
  moved b b' (λ _, 0) (λ _, 0) (λ _, 0) delta delta ∧ quota_ledger b' = quota_ledger b.
Proof.
  unfold append_reserve. intros H. apply bind_Ok in H as (e & He%map_err_Ok & H).
  apply bind_Ok in H as (b1 & Hi & [= <- <-]).
  apply ledger_new_entry in He as (_ & _ & _ & _ & _ & Ham & _ & _ & _).
  pose proof (λ Hok, insert_reserve_ok b e None b1 Hok Hi) as Hok.
  apply insert_reserve_Ok in Hi as (_ & _ & Haft & ->). split; [|done].
  split_and!; [|simpl; lia|unfold money; simpl; lia|done].
  intros v. unfold balance_of; simpl. split_and!; (lia || done).
Qed.

(** The whole settlement: the consumer pays, the node and the reserve receive,
    the reservation is released, and no key was used before. *)
Lemma post_settlement_moved b tx j c n reserved a hs b' :
  post_settlement b tx j c n reserved a = Ok (hs, b') →
  moved b b' (λ u, to_user c (- user_deduction_micro a) u + to_user n (node_quota_micro a) u)
    (to_user c (- reserved)) (to_user n (contribution_amount a)) (reserve_micro a)
    (- user_deduction_micro a + node_quota_micro a + reserve_micro a)
  ∧ user_deduction_micro a ≤ spendable_of b c ∧ reserved ≤ reserved_of b c
  ∧ 0 ≤ contribution_amount a
  ∧ (∀ r, r ∈ quota_ledger b → idempotency_key r ≠ job_key j ":consumer").
Proof.
  unfold post_settlement. intros H.
  apply bind_Ok in H as (cb & Hcb%or_internal_Ok & H). apply bind_Ok in H as ([] & Hd%bail_if_Ok & H).
  apply bind_Ok in H as (b1 & [M1 (acc & Hacc & Hg & Hq1 & _)]%update_reserved_moved & H).
  apply bind_Ok in H as ([h1 b2] & (M2 & _ & Hkey & _)%append_quota_moved & H).
  apply bind_Ok in H as (nb & _ & H). apply bind_Ok in H as (na & _ & H).
  apply bind_Ok in H as ([h2 b3] & (M3 & _)%append_quota_moved & H).
  apply bind_Ok in H as (kb & _ & H). apply bind_Ok in H as (ka & _ & H).
  apply bind_Ok in H as ([h3 b4] & (M4 & Hk & _)%append_contribution_moved & H).
  apply bind_Ok in H as (ra & _ & H).
  apply bind_Ok in H as ([h4 b5] & (M5 & _)%append_reserve_moved & [= _ <-]).
  rewrite Hq1 in Hkey. unfold balance_of. rewrite Hacc in Hcb. rewrite Hacc. simpl.
  injection Hcb as <-. apply Z.leb_le in Hg. apply Z.ltb_ge in Hd.
  split; [|split_and!; (lia || done)].
  destruct (moved_trans _ _ _ _ _ _ _ _ _ _ _ _ _ M1 (moved_trans _ _ _ _ _ _ _ _ _ _ _ _ _ M2
    (moved_trans _ _ _ _ _ _ _ _ _ _ _ _ _ M3 (moved_trans _ _ _ _ _ _ _ _ _ _ _ _ _ M4 M5))))
    as (M & Hz & Hm & Hok).
  split_and!; [|lia|lia|done].
  intros u. destruct (M u) as (?&?&?&?). split_and!; (lia || done).
Qed.
End effects.
