(* ===== verification/Complete.v ===== *)
(** * Settlement of a completed job: crates/mindone-coordinator/src/settlement.rs

    [complete_job] as one transaction on [State].  An error drops the
    transaction; the one error path that commits, the termination of a
    regulated lease, returns the state it committed.  [serde_json] is the
    class [Serde] with [parse_envelope] and [encode_snapshot]. *)
From S2P Require Import Prelude Text Fixed Ledger Net AntiAbuse StandardData Hardware Fingerprint Store Envelope Api Snapshot Tables Lease Postings.

Local Open Scope string_scope.
Local Open Scope list_scope.
Local Open Scope Z_scope.

(** [DEVICE_BINDING_VERSION] of device_binding.rs. *)
Definition DEVICE_BINDING_VERSION : Z := 1.

Record CompleteJob : Type := mkCompleteJob {
  job_id : Z;
  node_id : Z;
  worker_user_id : Z;
  device_key : Z;
  submitted_key : string;
  submitted_result : string;
  submitted_input_tokens : Z;
  submitted_output_tokens : Z;
  execution_telemetry : JobExecutionTelemetry;
}.

(** The amounts of the outcome are one [Amounts]. *)
Record SettlementOutcome : Type := mkOutcome {
  outcome_receipt_id : Z;
  outcome_job_id : Z;
  amounts : Amounts;
  settlement_hash : string;
  outcome_telemetry_verdict : ExecutionTelemetryVerdict;
  telemetry_alert_count : Z;
  telemetry_evidence : string;
  idempotent_replay : bool;
}.

Definition as_replay (o : SettlementOutcome) : SettlementOutcome :=
  mkOutcome (outcome_receipt_id o) (outcome_job_id o) (amounts o) (settlement_hash o)
    (outcome_telemetry_verdict o) (telemetry_alert_count o) (telemetry_evidence o) true.

(** The row of the first SELECT with its joins. *)
Record JobView : Type := mkView {
  job : JobRow;
  node : NodeRow;
  attempt : option AttemptRow;
  model : ModelRow;
  tee_public_key : option string;
}.

Definition load_view (st : State) (id : Z) : ApiResult JobView :=
  ok_or (
    j ← jobs st !! id;
    leased ← leased_to_node_id j;
    n ← nodes st !! leased;
    m ← models st !! model_id j;
    Some (mkView j n (attempts st !! (id, attempt_count j)) m
      (report ← attestation_report_id j; row ← reports st !! report; ephemeral_public_key row)))
    (not_found "任务").

Definition check_usage (command : CompleteJob) : ApiResult () :=
  bail_if ((submitted_input_tokens command <? 0) || (submitted_output_tokens command <? 0)
      || ((submitted_input_tokens command =? 0) && (submitted_output_tokens command =? 0)))
    (bad_request "invalid_usage" "Token 使用量不能为负数或全部为零").

Definition check_owner (command : CompleteJob) (v : JobView) : ApiResult () :=
  _ ← bail_if (negb (bool_decide (leased_to_node_id (job v) = Some (node_id command))))
    (forbidden "任务租约不属于当前节点");
  bail_if (negb (node_owner (node v) =? worker_user_id command)
      || negb (bool_decide (device_key_id (node v) = Some (device_key command)))
      || negb (bool_decide ((attempt v ≫= claim_device_key_id) = Some (device_key command)))
      || negb (bool_decide
           ((attempt v ≫= claim_device_binding_version) = Some DEVICE_BINDING_VERSION)))
    (forbidden "任务租约不属于当前设备").

Definition fingerprint_context (command : CompleteJob) (v : JobView) : FingerprintContext :=
  mkContext (job_id command) (node_id command) (model_id (job v)) (model_instance_id (job v))
    (attempt_count (job v)) (submitted_key command) (confidentiality_mode (job v))
    (trust_level (node v)) (size_bytes (model v)) (hardware_profile (node v)).

Definition parse_telemetry_verdict (value : string) : ApiResult ExecutionTelemetryVerdict :=
  if String.eqb value "insufficient_evidence" then Ok InsufficientEvidence
  else if String.eqb value "no_anomaly_observed" then Ok NoAnomalyObserved
  else if String.eqb value "warning" then Ok WarningVerdict
  else if String.eqb value "critical" then Ok CriticalVerdict
  else Err internal.

(** The anomalies of a telemetry row. *)
Definition anomaly_count (db : TelemetryDb) (id : Z) : Z :=
  Z.of_nat (length (List.filter (λ a, anomaly_telemetry a =? id) (anomalies db))).

Definition load_outcome (st : State) (id : Z) : ApiResult SettlementOutcome :=
  r ← or_internal (receipts st !! id);
  t ← or_internal (telemetry_rows (telemetry st) !! id);
  verdict ← parse_telemetry_verdict (telemetry_verdict t);
  alert_count ← or_internal (u32_try_from (anomaly_count (telemetry st) (telemetry_id t)));
  Ok (mkOutcome (receipt_id r) id
    (mkAmounts (receipt_base_cost_micro r) (receipt_user_deduction_micro r)
      (receipt_node_quota_micro r) (receipt_contribution_micro r)
      (receipt_contribution_weight_ppm r) (receipt_reserve_micro r))
    (receipt_settlement_hash r) verdict alert_count (telemetry_evidence_kind t) false).

Definition performance_tier_of (tier : string) : ApiResult PerformanceTier :=
  if String.eqb tier "high" then Ok High
  else if String.eqb tier "medium" then Ok Medium
  else if String.eqb tier "low" then Ok Low
  else Err internal.

Definition trust_class_of (trust_level : string) : ApiResult TrustClass :=
  if String.eqb trust_level "enhanced" then Ok Enhanced
  else if existsb (String.eqb trust_level) ["standard"; "standard-limited"] then Ok Standard
  else if existsb (String.eqb trust_level) ["unverified"; "experimental"] then Ok Unverified
  else Err internal.

Definition map_anti_abuse_error (_ : AntiAbuseError) : ApiError := internal.

(** The INSERT into [receipts], keyed by its unique job. *)
Definition insert_receipt (st : State) (id : Z) (r : ReceiptRow) : ApiResult State :=
  _ ← require_internal (bool_decide (receipts st !! id = None));
  _ ← require_internal (negb (existsb (λ p, String.eqb (receipt_settlement_hash p.2) (receipt_settlement_hash r))
    (map_to_list (receipts st))));
  _ ← require_internal ((0 <=? receipt_base_cost_micro r) && (0 <=? receipt_user_deduction_micro r)
    && (0 <=? receipt_node_quota_micro r) && (0 <=? receipt_contribution_micro r)
    && (0 <=? receipt_reserve_micro r) && in_range 0 1000000 (receipt_contribution_weight_ppm r));
  Ok (with_receipts st (<[id := r]> (receipts st))).

(** [UPDATE job_attempts]: a result key is unique within its job. *)
Definition update_attempt (st : State) (id number : Z) (key : string) (now : Z)
    : ApiResult State :=
  match attempts st !! (id, number) with
  | None => Ok st
  | Some a =>
    _ ← require_internal (negb (existsb
      (λ p, (p.1.1 =? id) && negb (p.1.2 =? number)
            && bool_decide (attempt_result_key p.2 = Some key)) (map_to_list (attempts st))));
    Ok (with_attempts st (<[(id, number) := attempt_succeeded a key now]> (attempts st)))
  end.

Section complete.
Context `{SE : Serde, C : Crypto}.
Context (parse_envelope : string → option RegulatedEnvelope).
Context (encode_snapshot : JobBillingSnapshot → option string).
Context (standard_data_key : string).

(** The comparison of a stored result with the submitted one. *)
Definition result_matches (command : CompleteJob) (j : JobRow) : ApiResult bool :=
  if String.eqb (confidentiality_mode j) "standard" then
    match result_ciphertext j with
    | Some stored =>
      if bool_decide (standard_result_storage_version j = Some STORAGE_VERSION) then
        plaintext ← map_err (λ _, internal)
          (decrypt_from_storage standard_data_key (job_id command) Result stored);
        Ok (String.eqb plaintext (submitted_result command))
      else Ok false
    | None => Ok false
    end
  else if String.eqb (confidentiality_mode j) "regulated" then
    Ok (bool_decide (result_ciphertext j = Some (submitted_result command)))
  else Err internal.

(** The replay of a job that already succeeded. *)
Definition replay (st : State) (command : CompleteJob) (j : JobRow) (fingerprint : string)
    : ApiResult SettlementOutcome :=
  matches ← result_matches command j;
  _ ← bail_if (negb (bool_decide (result_idempotency_key j = Some (submitted_key command)))
      || negb (matches : bool)
      || negb (bool_decide (actual_input_tokens j = Some (submitted_input_tokens command)))
      || negb (bool_decide (actual_output_tokens j = Some (submitted_output_tokens command)))
      || negb (bool_decide (result_telemetry_fingerprint j = Some fingerprint)))
    (conflict "idempotency_binding_mismatch"
      "结果幂等键已绑定到不同节点、密文、Token 使用量或任务遥测");
  outcome ← load_outcome st (job_id command);
  Ok (as_replay outcome).

(** The weight of the contribution: the decision taken when the job was
    created, capped by the call graph; no decision, no contribution. *)
Definition contribution_weight (st : State) (consumer node_user : Z) (j : JobRow)
    : ApiResult Z :=
  key ← map_err map_anti_abuse_error (job_assessment_key sha256 consumer (job_idempotency j));
  let precreate_weight :=
    match decisions (abuse st) !! (consumer, key) with
    | Some d => if String.eqb (row_decision d) "allow"
                then Some (row_contribution_weight_ppm d) else None
    | None => None
    end in
  let graph_weight := settlement_contribution_weight (abuse st) consumer node_user Normal in
  Ok (Z.min (default 0 precreate_weight) graph_weight).

(** From the tier and the trust level to the amounts. *)
Definition settlement_amounts (st : State) (v : JobView) (base_cost_micro : Z)
    : ApiResult Amounts :=
  performance_tier ← performance_tier_of (tier (model v));
  trust_class ← trust_class_of (trust_level (node v));
  base ← map_err map_accounting_error (MicroQuota.new base_cost_micro);
  calculated ← map_err map_accounting_error
    (Settlement.calculate base performance_tier trust_class);
  weight ← contribution_weight st (user_id (job v)) (node_owner (node v)) (job v);
  product ← or_internal
    (i128_checked_mul (as_i64 (node_contribution_points calculated)) weight);
  contribution ← checked_i64 (div_trunc product 1000000);
  Ok (mkAmounts base_cost_micro (as_i64 (user_deduction calculated))
    (as_i64 (node_spendable_quota calculated)) contribution weight
    (as_i64 (reserve_inflow calculated))).

Definition settlement_digest (tx : Tx) (id : Z) (hs : PostingHashes) (a : Amounts)
    (snapshot_hash : string) : string :=
  sha256_hex ("receipt-v2|" +:+ uuid_to_string (now_v7 tx 4%nat) +:+ "|" +:+ uuid_to_string id
    +:+ "|" +:+ consumer_hash hs +:+ "|" +:+ node_quota_hash hs +:+ "|" +:+ contribution_hash hs
    +:+ "|" +:+ reserve_hash hs +:+ "|" +:+ dec (user_deduction_micro a) +:+ "|"
    +:+ dec (node_quota_micro a) +:+ "|" +:+ dec (contribution_amount a) +:+ "|"
    +:+ dec (weight_ppm a) +:+ "|" +:+ snapshot_hash).

Definition receipt_row (tx : Tx) (v : JobView) (snapshot : JobBillingSnapshot) (a : Amounts)
    (digest : string) : ReceiptRow :=
  mkReceipt (now_v7 tx 4%nat) (user_id (job v)) (node_owner (node v)) (model_name (model v))
    (tier (model v)) (trust_level (node v)) (base_amount a) (user_deduction_micro a)
    (node_quota_micro a) (contribution_amount a) (weight_ppm a) (reserve_micro a) digest (tx_now tx) snapshot.

(** The column value of the result and its storage version. *)
Definition stored_result (tx : Tx) (command : CompleteJob) (j : JobRow)
    : ApiResult (string * option Z) :=
  if String.eqb (confidentiality_mode j) "standard" then
    ciphertext ← map_err (λ _, internal)
      (encrypt_for_storage standard_data_key (tx_nonce tx) (job_id command) Result
         (submitted_result command));
    Ok (ciphertext, Some STORAGE_VERSION)
  else if String.eqb (confidentiality_mode j) "regulated" then
    Ok (submitted_result command, None)
  else Err internal.

(** The part of [complete_job] after the lease checks. *)
Definition settle (st : State) (tx : Tx) (command : CompleteJob) (v : JobView)
    (fingerprint : string) : ApiResult (SettlementOutcome * State) :=
  let j := job v in
  snapshot ← from_job_row (billing j) (estimated_input_tokens j) (max_output_tokens j);
  base_cost_micro ← frozen_base_for_authorized_usage snapshot
    (submitted_input_tokens command) (submitted_output_tokens command);
  let consumer := user_id j in
  let node_user := node_owner (node v) in
  _ ← lock_accounts (books st) consumer node_user;
  a ← settlement_amounts st v base_cost_micro;
  _ ← bail_if (reserved_cost_micro j <? user_deduction_micro a) internal;
  '(hashes, b) ← post_settlement (books st) tx (job_id command) consumer node_user
    (reserved_cost_micro j) a;
  let st := with_books st b in
  snapshot_hash ← canonical_hash encode_snapshot snapshot;
  let digest := settlement_digest tx (job_id command) hashes a snapshot_hash in
  st ← insert_receipt st (job_id command) (receipt_row tx v snapshot a digest);
  '(fingerprint_outcome, t) ← append_execution_fingerprint (telemetry st)
    (λ i, now_v7 tx (5 + i)%nat) (fingerprint_context command v)
    (execution_telemetry command) fingerprint;
  let st := with_telemetry st t in
  '(ciphertext, storage_version) ← stored_result tx command j;
  let st := with_jobs st
    (<[job_id command := job_succeeded j ciphertext (submitted_key command)
         (submitted_input_tokens command) (submitted_output_tokens command) fingerprint
         storage_version (tx_now tx)]> (jobs st)) in
  st ← update_attempt st (job_id command) (attempt_count j) (submitted_key command) (tx_now tx);
  let st := finalize_draining_instance st (tx_now tx) (model_instance_id j) in
  let st := with_abuse st (record_settled_edge (abuse st) consumer node_user Normal) in
  Ok (mkOutcome (now_v7 tx 4%nat) (job_id command) a digest (outcome_verdict fingerprint_outcome)
        (outcome_alert_count fingerprint_outcome) (outcome_evidence_kind fingerprint_outcome) false,
      st).

Definition attestation_lost : ApiError :=
  attestation_failed "Regulated 租约的硬件报告、固定节点或模型绑定已失效；任务已终止且未计费".

(** The transaction: what it answers and the state it commits. *)
Definition complete_tx (st : State) (tx : Tx) (command : CompleteJob)
    : ApiResult (ApiResult SettlementOutcome * State) :=
  v ← load_view st (job_id command);
  _ ← check_owner command v;
  let j := job v in
  fingerprint ← telemetry_fingerprint (fingerprint_context command v) (execution_telemetry command);
  if bool_decide (status j = Succeeded) then
    outcome ← replay st command j fingerprint;
    Ok (Ok outcome, st)
  else
    _ ← bail_if (negb (bool_decide (status j = Leased)))
      (conflict "job_not_leased" "任务当前不处于可提交结果的租约状态");
    if String.eqb (confidentiality_mode j) "regulated"
       && negb (regulated_lease_binding_valid st (tx_now tx) (job_id command) (node_id command))
    then
      st ← fail_regulated_lease_attestation st (tx_now tx) (job_id command)
        "Regulated 租约的硬件报告、固定节点或模型绑定已失效";
      Ok (Err attestation_lost, st)
    else
      _ ← (if String.eqb (confidentiality_mode j) "regulated"
           then validate_regulated_result_binding parse_envelope j (tee_public_key v)
                  (submitted_result command)
           else Ok tt);
      _ ← bail_if (negb (sql_is (lease_expires_at j) (λ t, tx_now tx <? t)))
        (conflict "lease_expired" "任务租约已经过期");
      '(outcome, st) ← settle st tx command v fingerprint;
      Ok (Ok outcome, st).

Definition complete_job (st : State) (tx : Tx) (command : CompleteJob)
    : ApiResult SettlementOutcome * State :=
  match check_usage command ≫= λ _, complete_tx st tx command with
  | Ok (answer, st') => (answer, st')
  | Err e => (Err e, st)
  end.
End complete.
