(* ===== verification/Settled.v ===== *)
(** * What a settlement guarantees

    Theorems about [complete_job]: money, reservation and amounts, replays,
    failures, and sequences of submissions. *)
From S2P Require Import Prelude Text Fixed Ledger Billing Net AntiAbuse StandardData Hardware Fingerprint Store Envelope Api Snapshot Tables Lease Postings Complete.

Local Open Scope string_scope.
Local Open Scope list_scope.
Local Open Scope Z_scope.

(** ** The operations one at a time *)

Lemma finalize_instances st now i :
  ∃ m, finalize_draining_instance st now i = with_instances st m.
Proof.
  unfold finalize_draining_instance.
  assert (∃ m, st = with_instances st m) as H by (exists (instances st); by destruct st).
  destruct i as [i|]; [|done]. destruct (instances st !! i) as [row|]; [|done].
  case_if; [by eexists|done].
Qed.

Lemma load_view_Ok st id v :
  load_view st id = Ok v →
  jobs st !! id = Some (job v)
  ∧ (∃ n, leased_to_node_id (job v) = Some n ∧ nodes st !! n = Some (node v))
  ∧ models st !! model_id (job v) = Some (model v)
  ∧ attempt v = attempts st !! (id, attempt_count (job v)).
Proof.
  unfold load_view. intros H%ok_or_Ok. apply bind_Some in H as (j & Hj & H).
  apply bind_Some in H as (n & Hn & H). apply bind_Some in H as (nr & Hnr & H).
  apply bind_Some in H as (m & Hm & [= <-]). simpl. naive_solver.
Qed.

Lemma update_attempt_Ok st id k key now st' :
  update_attempt st id k key now = Ok st' →
  st' = with_attempts st (alter (λ a, attempt_succeeded a key now) (id, k) (attempts st)).
Proof.
  unfold update_attempt. destruct (attempts st !! (id, k)) as [a|] eqn:E.
  - intros H. apply bind_Ok in H as ([] & _ & [= <-]). f_equal. apply map_eq. intros i.
    destruct (decide (i = (id, k))) as [->|Hne].
    + by rewrite lookup_insert_eq, lookup_alter_eq, E.
    + by rewrite lookup_insert_ne, lookup_alter_ne by done.
  - intros [= <-]. rewrite alter_id by (intros a; by rewrite E). by destruct st.
Qed.

(** The device columns of an attempt stay. *)
Lemma succeeded_device (m : gmap (Z * Z) AttemptRow) p key now i :
  claim_device_key_id <$> alter (λ a, attempt_succeeded a key now) p m !! i
    = claim_device_key_id <$> m !! i
  ∧ claim_device_binding_version <$> alter (λ a, attempt_succeeded a key now) p m !! i
    = claim_device_binding_version <$> m !! i.
Proof.
  destruct (decide (p = i)) as [->|Hne].
  - rewrite lookup_alter_eq. by destruct (m !! i).
  - by rewrite lookup_alter_ne.
Qed.

Lemma insert_receipt_Ok st id r st' :
  insert_receipt st id r = Ok st' →
  receipts st !! id = None ∧ st' = with_receipts st (<[id := r]> (receipts st)).
Proof.
  unfold insert_receipt. intros H. apply bind_Ok in H as ([] & Hn%require_internal_Ok & H).
  apply bind_Ok in H as ([] & _ & H). apply bind_Ok in H as ([] & _ & [= <-]).
  by apply bool_decide_eq_true in Hn.
Qed.

Section settled.
Context `{SE : Serde, C : Crypto}.
Context (parse_envelope : string → option RegulatedEnvelope).
Context (encode_snapshot : JobBillingSnapshot → option string).
Context (key : string).

(** The amounts come from the frozen base cost, the tier, the trust level and
    the abuse tables: conservation and the weighted contribution. *)
Lemma settlement_amounts_Ok st v base a :
  0 ≤ base ≤ i64_max → settlement_amounts st v base = Ok a →
  ∃ t c s, performance_tier_of (tier (model v)) = Ok t ∧ trust_class_of (trust_level (node v)) = Ok c
    ∧ Settlement.calculate (mkMicroQuota base) t c = Ok s
    ∧ base_amount a = base
    ∧ user_deduction_micro a = as_i64 (user_deduction s)
    ∧ node_quota_micro a = as_i64 (node_spendable_quota s)
    ∧ reserve_micro a = as_i64 (reserve_inflow s)
    ∧ user_deduction_micro a = node_quota_micro a + reserve_micro a
    ∧ contribution_amount a
      = div_trunc (as_i64 (node_contribution_points s) * weight_ppm a) 1000000
    ∧ contribution_weight st (user_id (job v)) (node_owner (node v)) (job v) = Ok (weight_ppm a).
Proof.
  intros Hb H. unfold settlement_amounts in H. apply bind_Ok in H as (t & Ht & H).
  apply bind_Ok in H as (c & Hc & H).
  apply bind_Ok in H as (b & [_ ->]%map_err_Ok%micro_new_Ok & H).
  apply bind_Ok in H as (s & Hs%map_err_Ok & H).
  apply bind_Ok in H as (w & Hw & H). apply bind_Ok in H as (p & Hp%or_internal_Ok & H).
  apply checked_Some in Hp as [_ ->].
  apply bind_Ok in H as (k & Hk%or_internal_Ok & [= <-]). apply checked_Some in Hk as [_ ->].
  pose proof (settlement_conserves_aux base t c s Hb Hs) as (Hcons & _). cbv zeta in Hcons.
  exists t, c, s. simpl. split_and!; done.
Qed.

(** Everything a settlement did. *)
Lemma settle_Ok st tx cmd v fp o st' :
  settle encode_snapshot key st tx cmd v fp = Ok (o, st') →
  let j := job v in let id := job_id cmd in
  ∃ s hs t fo ct sv atts insts digest,
    from_job_row (billing j) (estimated_input_tokens j) (max_output_tokens j) = Ok s
    ∧ submitted_input_tokens cmd ≤ estimated_input_tokens j
    ∧ submitted_output_tokens cmd ≤ max_output_tokens j
    ∧ settlement_amounts st v (base_cost_micro s) = Ok (amounts o)
    ∧ user_deduction_micro (amounts o) ≤ reserved_cost_micro j
    ∧ post_settlement (books st) tx id (user_id j) (node_owner (node v)) (reserved_cost_micro j)
        (amounts o) = Ok (hs, books st')
    ∧ receipts st !! id = None
    ∧ append_execution_fingerprint (telemetry st) (λ i, now_v7 tx (5 + i)%nat)
        (fingerprint_context cmd v) (execution_telemetry cmd) fp = Ok (fo, t)
    ∧ stored_result key tx cmd j = Ok (ct, sv)
    ∧ atts = alter (λ a, attempt_succeeded a (submitted_key cmd) (tx_now tx))
        (id, attempt_count j) (attempts st)
    ∧ o = mkOutcome (now_v7 tx 4%nat) id (amounts o) digest (outcome_verdict fo)
            (outcome_alert_count fo) (outcome_evidence_kind fo) false
    ∧ st' = mkState (books st')
        (record_settled_edge (abuse st) (user_id j) (node_owner (node v)) Normal) t (nodes st)
        (models st) insts (reports st) (quarantined st) (challenges st) (fleet st)
        (<[id := job_succeeded j ct (submitted_key cmd) (submitted_input_tokens cmd)
             (submitted_output_tokens cmd) fp sv (tx_now tx)]> (jobs st)) atts
        (<[id := receipt_row tx v s (amounts o) digest]> (receipts st)).
Proof.
  intros H j id. unfold settle in H. fold j id in H. apply bind_Ok in H as (s & Hs & H).
  apply bind_Ok in H as (base & Hbase & H). unfold frozen_base_for_authorized_usage in Hbase.
  apply bind_Ok in Hbase as ([] & Hu%bail_if_Ok & [= <-]).
  pose proof Hs as (_ & Ei & Eo & _)%from_job_row_Ok. rewrite Ei, Eo in Hu.
  apply orb_false_iff in Hu as [Hu1%Z.ltb_ge Hu2%Z.ltb_ge].
  apply bind_Ok in H as ([] & _ & H). apply bind_Ok in H as (a & Ha & H).
  apply bind_Ok in H as ([] & Hr%bail_if_Ok%Z.ltb_ge & H).
  apply bind_Ok in H as ([hs b] & Hp & H). apply bind_Ok in H as (sh & _ & H).
  cbv zeta in H. apply bind_Ok in H as (st1 & [Hrec ->]%insert_receipt_Ok & H).
  apply bind_Ok in H as ([fo t] & Hf & H). apply bind_Ok in H as ([ct sv] & Hct & H).
  apply bind_Ok in H as (st2 & ->%update_attempt_Ok & H).
  match type of H with context [finalize_draining_instance ?x ?n ?i] =>
    destruct (finalize_instances x n i) as [insts Hi]; rewrite Hi in H end.
  injection H as <- <-. simpl. eexists s, hs, t, fo, ct, sv, _, insts, _.
  split_and!; try done.
Qed.

(** The four ways a submission ends. *)
Inductive completion (st : State) (tx : Tx) (cmd : CompleteJob)
    : ApiResult SettlementOutcome → State → Prop :=
| refused e : completion st tx cmd (Err e) st
| replayed v fp o :
    load_view st (job_id cmd) = Ok v → check_owner cmd v = Ok tt →
    telemetry_fingerprint (fingerprint_context cmd v) (execution_telemetry cmd) = Ok fp →
    status (job v) = Succeeded → replay key st cmd (job v) fp = Ok o →
    completion st tx cmd (Ok o) st
| attestation_gone v st' :
    load_view st (job_id cmd) = Ok v → check_owner cmd v = Ok tt →
    status (job v) = Leased → confidentiality_mode (job v) = "regulated" →
    regulated_lease_binding_valid st (tx_now tx) (job_id cmd) (node_id cmd) = false →
    fail_regulated_lease_attestation st (tx_now tx) (job_id cmd)
      "Regulated 租约的硬件报告、固定节点或模型绑定已失效" = Ok st' →
    completion st tx cmd (Err attestation_lost) st'
| settled v fp o st' :
    check_usage cmd = Ok tt →
    load_view st (job_id cmd) = Ok v → check_owner cmd v = Ok tt →
    telemetry_fingerprint (fingerprint_context cmd v) (execution_telemetry cmd) = Ok fp →
    status (job v) = Leased →
    (confidentiality_mode (job v) = "regulated" →
       regulated_lease_binding_valid st (tx_now tx) (job_id cmd) (node_id cmd) = true) →
    sql_is (lease_expires_at (job v)) (λ t, tx_now tx <? t) = true →
    settle encode_snapshot key st tx cmd v fp = Ok (o, st') →
    completion st tx cmd (Ok o) st'.

Lemma complete_job_completion st tx cmd r st' :
  complete_job parse_envelope encode_snapshot key st tx cmd = (r, st') →
  completion st tx cmd r st'.
Proof.
  unfold complete_job. intros H.
  destruct (check_usage cmd ≫= _) as [[answer st1]|e] eqn:E; injection H as <- <-;
    [|apply refused].
  apply bind_Ok in E as ([] & Husage & E). unfold complete_tx in E.
  apply bind_Ok in E as (v & Hv & E). apply bind_Ok in E as ([] & Hown & E).
  apply bind_Ok in E as (fp & Hfp & E). case_bool_decide as Hs.
  { apply bind_Ok in E as (o & Ho & [= <- <-]). by eapply replayed. }
  apply bind_Ok in E as ([] & Hl%bail_if_Ok%negb_false_iff%bool_decide_eq_true & E).
  destruct (String.eqb_spec (confidentiality_mode (job v)) "regulated") as [Hc|Hc].
  - destruct (regulated_lease_binding_valid st (tx_now tx) (job_id cmd) (node_id cmd)) eqn:Hbind;
      simpl in E.
    + apply bind_Ok in E as ([] & _ & E).
      apply bind_Ok in E as ([] & Hexp%bail_if_Ok%negb_false_iff & E).
      apply bind_Ok in E as ([o st2] & Ho & [= <- <-]). by eapply settled.
    + apply bind_Ok in E as (st2 & Hf & [= <- <-]). by eapply attestation_gone.
  - simpl in E. apply bind_Ok in E as ([] & Hexp%bail_if_Ok%negb_false_iff & E).
    apply bind_Ok in E as ([o st2] & Ho & [= <- <-]). by eapply settled.
Qed.

Lemma replay_Ok st cmd j fp o :
  replay key st cmd j fp = Ok o → ∃ o', load_outcome st (job_id cmd) = Ok o' ∧ o = as_replay o'.
Proof.
  unfold replay. intros H. apply bind_Ok in H as (m & _ & H). apply bind_Ok in H as ([] & _ & H).
  apply bind_Ok in H as (o' & Ho & [= <-]). by exists o'.
Qed.

(** A settlement that was not a replay. *)
Lemma settled_inv st tx cmd o st' :
  complete_job parse_envelope encode_snapshot key st tx cmd = (Ok o, st') →
  idempotent_replay o = false →
  ∃ v fp, check_usage cmd = Ok tt ∧ load_view st (job_id cmd) = Ok v ∧ check_owner cmd v = Ok tt
    ∧ telemetry_fingerprint (fingerprint_context cmd v) (execution_telemetry cmd) = Ok fp
    ∧ status (job v) = Leased ∧ settle encode_snapshot key st tx cmd v fp = Ok (o, st').
Proof.
  intros H%complete_job_completion Hr. inversion H; subst.
  - match goal with R : replay _ _ _ _ _ = Ok _ |- _ =>
      apply replay_Ok in R as (o' & _ & ->) end. done.
  - naive_solver.
Qed.

Lemma fail_lease_Ok st now id msg st' :
  fail_regulated_lease_attestation st now id msg = Ok st' →
  ∃ j b a insts, jobs st !! id = Some j ∧ status j = Leased
    ∧ attempts st !! (id, attempt_count j) = Some a
    ∧ update_reserved (books st) (user_id j) (- reserved_cost_micro j)
        (λ a, reserved_cost_micro j <=? reserved_micro a) = Ok b
    ∧ st' = mkState b (abuse st) (telemetry st) (nodes st) (models st) insts (reports st)
        (quarantined st) (challenges st) (fleet st) (<[id := job_failed j now]> (jobs st))
        (<[(id, attempt_count j) := attempt_failed a "attestation" msg now]> (attempts st))
        (receipts st).
Proof.
  unfold fail_regulated_lease_attestation. intros H. apply bind_Ok in H as (j & Hj%ok_or_Ok & H).
  apply bind_Ok in H as ([] & Hc%bail_if_Ok & H). apply orb_false_iff in Hc as [_ Hl].
  apply negb_false_iff, bool_decide_eq_true in Hl. apply bind_Ok in H as (b & Hb & H).
  apply bind_Ok in H as (a & Ha%or_internal_Ok & H). apply bind_Ok in H as ([] & _ & [= <-]).
  match goal with |- context [finalize_draining_instance ?x ?n ?i] =>
    destruct (finalize_instances x n i) as [insts Hi]; rewrite Hi end.
  exists j, b, a. eexists. split_and!; done.
Qed.

(** Without a telemetry row of that identifier no anomaly refers to it; the
    inserts add one anomaly per alert. *)
Lemma insert_alerts_count ctx id fresh i alerts rows rows' :
  insert_alerts ctx id fresh i alerts rows = Ok rows' →
  length (List.filter (λ a, (anomaly_telemetry a =? id)%Z) rows')
    = (length alerts + length (List.filter (λ a, (anomaly_telemetry a =? id)%Z) rows))%nat.
Proof.
  revert i rows. induction alerts as [|a alerts IH]; intros i rows H; simpl in H.
  - by injection H as <-.
  - apply bind_Ok in H as ([] & _ & H). apply IH in H. simpl in H. rewrite Z.eqb_refl in H.
    simpl in *. lia.
Qed.

Lemma append_fingerprint_Ok db fresh ctx tel fp fo t :
  append_execution_fingerprint db fresh ctx tel fp = Ok (fo, t) →
  ∃ row, telemetry_rows t = <[context_job_id ctx := row]> (telemetry_rows db)
    ∧ telemetry_id row = fresh 0%nat ∧ telemetry_verdict row = verdict_key (outcome_verdict fo)
    ∧ telemetry_evidence_kind row = outcome_evidence_kind fo
    ∧ anomaly_count t (fresh 0%nat)
      = outcome_alert_count fo + anomaly_count db (fresh 0%nat)
    ∧ in_u32 (outcome_alert_count fo) = true.
Proof.
  unfold append_execution_fingerprint. intros H. apply bind_Ok in H as (cohort & _ & H).
  apply bind_Ok in H as (a & Ha & H). apply bind_Ok in H as (z & _ & H).
  apply bind_Ok in H as ([] & _ & H). apply bind_Ok in H as (rows & Hr & H).
  apply bind_Ok in H as (n & Hn%or_internal_Ok & [= <- <-]).
  apply checked_Some in Hn as [Hn ->]. apply insert_alerts_count in Hr.
  eexists. simpl. split_and!; try done. unfold anomaly_count. simpl. lia.
Qed.

Lemma parse_verdict_key v : parse_telemetry_verdict (verdict_key v) = Ok v.
Proof. by destruct v. Qed.

Lemma stored_result_matches `{!CryptoLaws C} tx cmd j ct sv j' :
  str_len (tx_nonce tx) = NONCE_LENGTH → stored_result key tx cmd j = Ok (ct, sv) →
  confidentiality_mode j' = confidentiality_mode j → result_ciphertext j' = Some ct →
  standard_result_storage_version j' = sv → result_matches key cmd j' = Ok true.
Proof.
  intros Hn H Hc Hr Hv. unfold stored_result in H. unfold result_matches. rewrite Hc, Hr, Hv.
  destruct (String.eqb (confidentiality_mode j) "standard").
  - apply bind_Ok in H as (env & He%map_err_Ok & [= -> <-]). rewrite bool_decide_true by done.
    rewrite (decrypt_encrypted key (tx_nonce tx) (job_id cmd) Result (submitted_result cmd) ct)
      by done. rewrite open_seal. simpl. by rewrite String.eqb_refl.
  - destruct (String.eqb (confidentiality_mode j) "regulated"); [|done].
    injection H as -> _. by rewrite bool_decide_true.
Qed.

(** A job once settled can be read back. *)
Lemma settle_load_outcome st tx cmd v fp o st' :
  settle encode_snapshot key st tx cmd v fp = Ok (o, st') →
  (∀ r, r ∈ anomalies (telemetry st) → anomaly_telemetry r ≠ now_v7 tx 5%nat) →
  load_outcome st' (job_id cmd) = Ok o.
Proof.
  intros H Hfresh. apply settle_Ok in H
    as (s & hs & t & fo & ct & sv & atts & insts & digest & _ & _ & _ & _ & _ & _ & _ & Hf & _ & _ & Ho & ->).
  apply append_fingerprint_Ok in Hf as (row & Ht & Hid & Hver & Hkind & Hcount & Hn).
  unfold load_outcome. cbn [receipts telemetry]. rewrite lookup_insert_eq. simpl.
  simpl in Ht. rewrite Ht, lookup_insert_eq. simpl. rewrite Hver, parse_verdict_key. simpl.
  simpl in Hid, Hcount. rewrite Hid, Hcount.
  assert (anomaly_count (telemetry st) (now_v7 tx 5%nat) = 0) as ->.
  { unfold anomaly_count. destruct (List.filter _ _) as [|r l] eqn:E; [done|]. exfalso.
    assert (r ∈ List.filter (λ a, anomaly_telemetry a =? now_v7 tx 5%nat) (anomalies (telemetry st)))
      as Hin by (rewrite E; left).
    apply list_elem_of_In, filter_In in Hin as [Hin Heq%Z.eqb_eq].
    by apply (Hfresh r); [apply list_elem_of_In|]. }
  rewrite Z.add_0_r. unfold u32_try_from. rewrite checked_true by done. simpl.
  rewrite Hkind, Ho. simpl. by destruct (amounts o).
Qed.
End settled.

Section replays.
Context `{SE : Serde, C : Crypto}.
Context (parse_envelope : string → option RegulatedEnvelope).
Context (encode_snapshot : JobBillingSnapshot → option string).
Context (key : string).

Lemma result_matches_inv `{!CryptoLaws C} tx cmd j ct sv cmd' j' :
  str_len (tx_nonce tx) = NONCE_LENGTH → stored_result key tx cmd j = Ok (ct, sv) →
  confidentiality_mode j' = confidentiality_mode j → result_ciphertext j' = Some ct →
  job_id cmd' = job_id cmd → result_matches key cmd' j' = Ok true →
  submitted_result cmd' = submitted_result cmd.
Proof.
  intros Hn H Hc Hr Hid M. unfold stored_result in H. unfold result_matches in M.
  rewrite Hc, Hr in M. destruct (String.eqb (confidentiality_mode j) "standard").
  - apply bind_Ok in H as (env & He%map_err_Ok & [= -> <-]). case_bool_decide; [|done].
    rewrite Hid, (decrypt_encrypted key (tx_nonce tx) (job_id cmd) Result (submitted_result cmd) ct)
      in M by done. rewrite open_seal in M. simpl in M. injection M as M%String.eqb_eq. done.
  - destruct (String.eqb (confidentiality_mode j) "regulated"); [|done].
    injection H as -> _. injection M as M%bool_decide_eq_true. congruence.
Qed.

(** The view of a job that [cmd] settled. *)
Lemma settled_view st tx cmd v fp o st' :
  load_view st (job_id cmd) = Ok v → check_owner cmd v = Ok tt →
  settle encode_snapshot key st tx cmd v fp = Ok (o, st') →
  ∃ v' ct sv, load_view st' (job_id cmd) = Ok v' ∧ check_owner cmd v' = Ok tt
    ∧ fingerprint_context cmd v' = fingerprint_context cmd v
    ∧ stored_result key tx cmd (job v) = Ok (ct, sv)
    ∧ job v' = job_succeeded (job v) ct (submitted_key cmd) (submitted_input_tokens cmd)
        (submitted_output_tokens cmd) fp sv (tx_now tx).
Proof.
  intros Hv Hown Hs. apply load_view_Ok in Hv as (Hj & (n & Hn & Hnr) & Hm & Hat).
  apply settle_Ok in Hs
    as (s & hs & t & fo & ct & sv & atts & insts & digest & _ & _ & _ & _ & _ & _ & _ & _ & Hct & Hatts & _ & Est').
  set (j' := job_succeeded (job v) ct (submitted_key cmd) (submitted_input_tokens cmd)
    (submitted_output_tokens cmd) fp sv (tx_now tx)) in *.
  exists (mkView j' (node v) (atts !! (job_id cmd, attempt_count (job v))) (model v)
    (attestation_report_id j' ≫= λ r, reports st !! r ≫= ephemeral_public_key)), ct, sv.
  split_and!; try done.
  - unfold load_view. rewrite Est'. cbn [jobs nodes models attempts reports].
    rewrite lookup_insert_eq. simpl. rewrite Hn. simpl. rewrite Hnr. simpl. rewrite Hm. done.
  - destruct (succeeded_device (attempts st) (job_id cmd, attempt_count (job v))
      (submitted_key cmd) (tx_now tx) (job_id cmd, attempt_count (job v))) as [Hk Hver].
    rewrite <-Hatts, <-Hat in Hk, Hver.
    revert Hown. unfold check_owner. simpl.
    assert (∀ (A : Type) (f : AttemptRow → option A) (x y : option AttemptRow),
      f <$> x = f <$> y → (x ≫= f) = (y ≫= f)) as Hbind.
    { intros A f [?|] [?|]; simpl; congruence. }
    by rewrite (Hbind _ _ _ _ Hk), (Hbind _ _ _ _ Hver).
Qed.

(** A submission for a succeeded job changes nothing. *)
Lemma succeeded_stays st tx cmd r st' j :
  complete_job parse_envelope encode_snapshot key st tx cmd = (r, st') →
  jobs st !! job_id cmd = Some j → status j = Succeeded →
  st' = st ∧ ∀ o, r = Ok o → ∃ fp, replay key st cmd j fp = Ok o.
Proof.
  intros H%complete_job_completion Hj Hs. inversion H as [e|v fp o Hv _ _ _ Hr|v ? Hv _ Hl|v fp o ? _ Hv _ _ Hl]; subst.
  - done.
  - apply load_view_Ok in Hv as (Hj' & _). split; [done|]. intros o' [= <-].
    exists fp. congruence.
  - apply load_view_Ok in Hv as (Hj' & _). congruence.
  - apply load_view_Ok in Hv as (Hj' & _). congruence.
Qed.
End replays.

(** ** Properties *)

Section properties.
Context `{SE : Serde, C : Crypto}.
Context (parse_envelope : string → option RegulatedEnvelope).
Context (encode_snapshot : JobBillingSnapshot → option string).
Context (key : string).

(** C1: a settlement conserves money and books exactly the frozen price. It
    happens only on a leased job, which becomes succeeded; the base cost is the
    frozen column, the deduction is covered by the reservation and by the
    balance, and splits into the node's credit and the reserve's; exactly the
    consumer, the node's owner and the reserve move, by these amounts; the
    whole reservation is released; the total of all money is unchanged and the
    ledgers keep agreeing with the balances. *)
Theorem settlement_conserves_money st tx cmd o st' :
  complete_job parse_envelope encode_snapshot key st tx cmd = (Ok o, st') → idempotent_replay o = false → books_ok (books st) →
  ∃ j n, jobs st !! job_id cmd = Some j ∧ nodes st !! node_id cmd = Some n
  ∧ status j = Leased ∧ status <$> jobs st' !! job_id cmd = Some Succeeded
  ∧ billing_base_cost_micro (billing j) = Some (base_amount (amounts o))
  ∧ let a := amounts o in
    user_deduction_micro a = node_quota_micro a + reserve_micro a
  ∧ user_deduction_micro a ≤ reserved_cost_micro j
  ∧ user_deduction_micro a ≤ spendable_of (books st) (user_id j)
  ∧ (∀ u,
       spendable_of (books st') u = spendable_of (books st) u
         + to_user (user_id j) (- user_deduction_micro a) u
         + to_user (node_owner n) (node_quota_micro a) u
     ∧ reserved_of (books st') u = reserved_of (books st) u
         + to_user (user_id j) (- reserved_cost_micro j) u
     ∧ contribution_of (books st') u = contribution_of (books st) u
         + to_user (node_owner n) (contribution_amount a) u)
  ∧ reserve_balance_micro (books st') = reserve_balance_micro (books st) + reserve_micro a
  ∧ money (books st') = money (books st) ∧ books_ok (books st').
Proof.
  intros H Hr Hok. apply settled_inv in H as (v & fp & _ & Hv & Hown & _ & Hl & Hs); [|done].
  apply load_view_Ok in Hv as (Hj & (nid & Hnid & Hn) & _).
  apply bind_Ok in Hown as ([] & Hb%bail_if_Ok%negb_false_iff%bool_decide_eq_true & _).
  rewrite Hnid in Hb. injection Hb as ->.
  apply settle_Ok in Hs as (s & hs & t & fo & ct & sv & atts & insts & digest & Hsnap & _ & _ & Ha
    & Hle & Hp & _ & _ & _ & _ & _ & Est').
  pose proof (snapshot_base_range _ _ _ _ Hsnap) as Hbase.
  apply settlement_amounts_Ok in Ha as (tr & c & x & _ & _ & _ & Ebase & _ & _ & _ & Hsplit & _); [|done].
  apply post_settlement_moved in Hp as ((Hu & Hz & Hm & Hok') & Hcov & _ & _ & _).
  apply from_job_row_Ok in Hsnap as (_ & _ & _ & Hcol).
  exists (job v), (node v). cbv zeta. split_and!; try done; [|congruence|..].
  - rewrite Est'. simpl. by rewrite lookup_insert_eq.
  - intros u. destruct (Hu u) as (?&?&?&_). split_and!; lia.
  - lia.
  - auto.
Qed.

(** What a job costs is fixed before its result exists. Two submissions for
    the same job that would both settle it in the same state book the same
    amounts, whatever tokens, telemetry, result and key they report and whenever
    they arrive. *)
Theorem settlement_amounts_frozen st tx1 tx2 cmd1 cmd2 o1 o2 st1 st2 :
  job_id cmd1 = job_id cmd2 →
  complete_job parse_envelope encode_snapshot key st tx1 cmd1 = (Ok o1, st1) → complete_job parse_envelope encode_snapshot key st tx2 cmd2 = (Ok o2, st2) →
  idempotent_replay o1 = false → idempotent_replay o2 = false →
  amounts o1 = amounts o2.
Proof.
  intros Hid H1 H2 Hr1 Hr2.
  apply settled_inv in H1 as (v1 & fp1 & _ & Hv1 & _ & _ & _ & Hs1); [|done].
  apply settled_inv in H2 as (v2 & fp2 & _ & Hv2 & _ & _ & _ & Hs2); [|done].
  rewrite Hid, Hv2 in Hv1. injection Hv1 as <-.
  apply settle_Ok in Hs1 as (s1 & ? & ? & ? & ? & ? & ? & ? & ? & Hsnap1 & _ & _ & Ha1 & _).
  apply settle_Ok in Hs2 as (s2 & ? & ? & ? & ? & ? & ? & ? & ? & Hsnap2 & _ & _ & Ha2 & _).
  congruence.
Qed.

(** The contribution of a settlement follows the anti-abuse decision. It is
    the settled points times a weight in parts per million, rounded towards
    zero; a job without an allowed creation decision and a job a user runs on
    an own node earn none; a pair that called each other ten times or more in
    both directions earns at most a tenth. *)
Theorem settlement_contribution_weighted st tx cmd o st' :
  complete_job parse_envelope encode_snapshot key st tx cmd = (Ok o, st') → idempotent_replay o = false →
  ∃ j n points w, jobs st !! job_id cmd = Some j ∧ nodes st !! node_id cmd = Some n
  ∧ 0 ≤ points ∧ contribution_amount (amounts o) = div_trunc (points * w) 1000000
  ∧ 0 ≤ contribution_amount (amounts o) ∧ weight_ppm (amounts o) = w
  ∧ (user_id j = node_owner n → contribution_amount (amounts o) = 0)
  ∧ ((∀ k d, decisions (abuse st) !! (user_id j, k) = Some d → row_decision d ≠ "allow") →
     contribution_amount (amounts o) = 0)
  ∧ (10 ≤ Z.min (total (abuse st) (user_id j) (node_owner n))
            (total (abuse st) (node_owner n) (user_id j)) →
     10 * contribution_amount (amounts o) ≤ points).
Proof.
  intros H Hr. apply settled_inv in H as (v & fp & _ & Hv & Hown & _ & _ & Hs); [|done].
  apply load_view_Ok in Hv as (Hj & (nid & Hnid & Hn) & _).
  apply bind_Ok in Hown as ([] & Hb%bail_if_Ok%negb_false_iff%bool_decide_eq_true & _).
  rewrite Hnid in Hb. injection Hb as ->.
  apply settle_Ok in Hs as (s & hs & t & fo & ct & sv & atts & insts & digest & Hsnap & _ & _ & Ha
    & _ & Hp & _).
  apply snapshot_base_range in Hsnap as Hbase.
  apply settlement_amounts_Ok in Ha as (tr & c & x & _ & _ & Hx & _ & _ & _ & _ & _ & Hk & Hw); [|done].
  apply post_settlement_moved in Hp as (_ & _ & _ & Hpos & _).
  apply calculate_Ok in Hx as (_ & _ & ->); [|done]. cbn [node_contribution_points as_i64] in Hk.
  set (points := contribution_spec c (deduction_spec tr (base_cost_micro s))) in *.
  assert (0 ≤ points) as Hpts.
  { unfold points. apply contribution_nonneg, deduction_nonneg. lia. }
  assert (∀ w, w ≤ 0 → div_trunc (points * w) 1000000 ≤ 0) as Hneg.
  { intros w Hw0. unfold div_trunc. apply Z.quot_le_upper_bound; nia. }
  unfold contribution_weight in Hw. apply bind_Ok in Hw as (ak & _ & [= Hw]).
  exists (job v), (node v), points, (weight_ppm (amounts o)). split_and!; try done.
  - intros E. unfold settlement_contribution_weight in Hw. rewrite E, Z.eqb_refl in Hw.
    pose proof (Hneg (weight_ppm (amounts o)) ltac:(lia)). lia.
  - intros Hno. destruct (decisions (abuse st) !! (user_id (job v), ak)) as [d|] eqn:Ed.
    + rewrite (proj2 (String.eqb_neq _ _) (Hno _ _ Ed)) in Hw. simpl in Hw.
      pose proof (Hneg (weight_ppm (amounts o)) ltac:(lia)). lia.
    + simpl in Hw. pose proof (Hneg (weight_ppm (amounts o)) ltac:(lia)). lia.
  - intros Hloop. apply reciprocal_pair_totals in Hloop as (out & inb & Hpair & Hmin); [|lia].
    assert (settlement_contribution_weight (abuse st) (user_id (job v)) (node_owner (node v)) Normal
      ≤ 100000) as Hg.
    { unfold settlement_contribution_weight, RECIPROCAL_BLOCK_REQUESTS. case_if; [lia|]. simpl.
      rewrite Hpair, (proj2 (Z.leb_le 10 _) Hmin). lia. }
    rewrite Hk. unfold div_trunc.
    destruct (Z.le_gt_cases 0 (weight_ppm (amounts o))).
    + rewrite Z.quot_div_nonneg by nia.
      pose proof (Z.mul_div_le (points * weight_ppm (amounts o)) 1000000 ltac:(lia)). nia.
    + pose proof (Hneg (weight_ppm (amounts o)) ltac:(lia)) as Hd. unfold div_trunc in Hd. lia.
Qed.

(** C39: a settled job answers every retry with the same receipt. After a
    settlement, submitting the same command again, in any later transaction,
    returns the same amounts, receipt, hash and telemetry verdict flagged as a
    replay; any submission for that job leaves the state alone, and one that is
    answered carries the same key, tokens and result. The nonce has the AEAD's
    length and the telemetry row's identifier was not in use. *)
Theorem settlement_replays `{L : !CryptoLaws C} st tx cmd o st' :
  complete_job parse_envelope encode_snapshot key st tx cmd = (Ok o, st') → idempotent_replay o = false →
  str_len (tx_nonce tx) = NONCE_LENGTH →
  (∀ r, r ∈ anomalies (telemetry st) → anomaly_telemetry r ≠ now_v7 tx 5%nat) →
  (∀ tx', complete_job parse_envelope encode_snapshot key st' tx' cmd = (Ok (as_replay o), st'))
  ∧ ∀ tx' cmd' r st'', complete_job parse_envelope encode_snapshot key st' tx' cmd' = (r, st'') → job_id cmd' = job_id cmd →
      st'' = st' ∧ ∀ o', r = Ok o' → o' = as_replay o
        ∧ submitted_key cmd' = submitted_key cmd
        ∧ submitted_result cmd' = submitted_result cmd
        ∧ submitted_input_tokens cmd' = submitted_input_tokens cmd
        ∧ submitted_output_tokens cmd' = submitted_output_tokens cmd.
Proof.
  intros H Hr Hnonce Hfresh.
  apply settled_inv in H as (v & fp & Husage & Hv & Hown & Hfp & _ & Hs); [|done].
  pose proof (settle_load_outcome _ _ _ _ _ _ _ _ _ Hs Hfresh) as Hload.
  destruct (settled_view _ _ _ _ _ _ _ _ _ Hv Hown Hs)
    as (v' & ct & sv & Hv' & Hown' & Hctx & Hct & Hj').
  split.
  - intros tx'. unfold complete_job. rewrite Husage. simpl. unfold complete_tx. rewrite Hv'. simpl.
    rewrite Hown'. simpl. rewrite Hctx, Hfp. simpl. rewrite Hj'. cbn [status job_succeeded].
    rewrite bool_decide_true by done. simpl. unfold replay.
    rewrite (stored_result_matches key tx cmd (job v) ct sv) by done. simpl.
    rewrite !bool_decide_true by done. simpl. by rewrite Hload.
  - intros tx' cmd' r st'' Hc Hid. pose proof Hv' as (Hj & _)%load_view_Ok. rewrite <-Hid in Hj.
    destruct (succeeded_stays _ _ _ _ _ _ _ _ _ Hc Hj) as [-> Hans]; [by rewrite Hj'|].
    split; [done|]. intros o' Ho. destruct (Hans o' Ho) as [fp' R]. unfold replay in R.
    apply bind_Ok in R as (m & Hm & R). apply bind_Ok in R as ([] & Hb%bail_if_Ok & R).
    rewrite Hid, Hload in R. injection R as <-.
    rewrite !orb_false_iff, !negb_false_iff, !bool_decide_eq_true, Hj' in Hb.
    destruct Hb as ((((Hk & ->) & Hi) & Ho2) & _). simpl in Hk, Hi, Ho2. injection Hk as ->.
    injection Hi as ->. injection Ho2 as ->. split_and!; try done.
    apply (result_matches_inv key tx cmd (job v) ct sv cmd' (job v')); try done; by rewrite Hj'.
Qed.

(** A submission that is not answered books nothing. An error leaves the
    state untouched, or it is the one committed failure: a regulated lease whose
    hardware binding no longer holds ends as failed, the consumer gets the whole
    reservation back, and no balance, receipt, telemetry or reserve changes. *)
Theorem failed_submission_books_nothing st tx cmd e st' :
  complete_job parse_envelope encode_snapshot key st tx cmd = (Err e, st') → books_ok (books st) →
  st' = st ∨
  ∃ j, jobs st !! job_id cmd = Some j ∧ e = attestation_lost
  ∧ status j = Leased ∧ confidentiality_mode j = "regulated"
  ∧ regulated_lease_binding_valid st (tx_now tx) (job_id cmd) (node_id cmd) = false
  ∧ jobs st' = <[job_id cmd := job_failed j (tx_now tx)]> (jobs st)
  ∧ (∀ u, spendable_of (books st') u = spendable_of (books st) u
        ∧ contribution_of (books st') u = contribution_of (books st) u
        ∧ reserved_of (books st') u
          = reserved_of (books st) u + to_user (user_id j) (- reserved_cost_micro j) u)
  ∧ reserve_balance_micro (books st') = reserve_balance_micro (books st)
  ∧ quota_ledger (books st') = quota_ledger (books st)
  ∧ receipts st' = receipts st ∧ telemetry st' = telemetry st
  ∧ money (books st') = money (books st) ∧ books_ok (books st').
Proof.
  intros H%complete_job_completion Hok. inversion H as [? | | v ? Hv _ Hl Hc Hb Hf |]; subst; [by left|].
  right. apply load_view_Ok in Hv as (Hj & _).
  apply fail_lease_Ok in Hf as (j & b & a & insts & Hj' & _ & _ & Hu & ->).
  rewrite Hj in Hj'. injection Hj' as <-.
  apply update_reserved_moved in Hu as ((Hmv & Hz & Hm & Hok') & ac & _ & _ & Hq & _).
  exists (job v). simpl. split_and!; try done; [|lia|lia|auto].
  intros u. destruct (Hmv u) as (?&?&?&_). split_and!; lia.
Qed.

(** A sequence of submissions and their answers. *)
Fixpoint run (st : State) (calls : list (Tx * CompleteJob))
    : list (CompleteJob * ApiResult SettlementOutcome) * State :=
  match calls with
  | [] => ([], st)
  | (tx, cmd) :: rest =>
    let '(r, st) := complete_job parse_envelope encode_snapshot key st tx cmd in
    let '(answers, st) := run st rest in
    ((cmd, r) :: answers, st)
  end.

(** The answer is a settlement of the job. *)
Definition settles (id : Z) (answer : CompleteJob * ApiResult SettlementOutcome) : bool :=
  (job_id answer.1 =? id)
  && match answer.2 with Ok o => negb (idempotent_replay o) | Err _ => false end.

Lemma step_jobs st tx cmd r st' id :
  complete_job parse_envelope encode_snapshot key st tx cmd = (r, st') →
  (settles id (cmd, r) = true →
     status <$> jobs st !! id = Some Leased ∧ status <$> jobs st' !! id = Some Succeeded)
  ∧ (status <$> jobs st !! id = Some Succeeded → status <$> jobs st' !! id = Some Succeeded).
Proof.
  intros H. split.
  - unfold settles. simpl. intros [<-%Z.eqb_eq Hr]%andb_true_iff. destruct r as [o|]; [|done].
    apply negb_true_iff in Hr. apply settled_inv in H as (v & fp & _ & Hv & _ & _ & Hl & Hs); [|done].
    apply load_view_Ok in Hv as (-> & _).
    apply settle_Ok in Hs
      as (? & ? & ? & ? & ? & ? & ? & ? & ? & _ & _ & _ & _ & _ & _ & _ & _ & _ & _ & _ & ->).
    simpl. rewrite lookup_insert_eq. simpl. by rewrite Hl.
  - intros Hs. destruct (decide (job_id cmd = id)) as [<-|Hne].
    + destruct (jobs st !! job_id cmd) as [j|] eqn:Hj; [|done]. injection Hs as Hs.
      destruct (succeeded_stays _ _ _ _ _ _ _ _ _ H Hj Hs) as [-> _]. rewrite Hj. simpl. by rewrite Hs.
    + apply complete_job_completion in H. inversion H as [| | v ? _ _ _ _ _ Hf | v fp o ? _ _ _ _ _ _ _ Hf]; subst; try done.
      * apply fail_lease_Ok in Hf as (j & b & a & insts & _ & _ & _ & _ & ->). simpl.
        by rewrite lookup_insert_ne.
      * apply settle_Ok in Hf
          as (? & ? & ? & ? & ? & ? & ? & ? & ? & _ & _ & _ & _ & _ & _ & _ & _ & _ & _ & _ & ->).
        simpl. by rewrite lookup_insert_ne.
Qed.

Lemma step_money st tx cmd r st' :
  complete_job parse_envelope encode_snapshot key st tx cmd = (r, st') → books_ok (books st) →
  money (books st') = money (books st) ∧ books_ok (books st').
Proof.
  intros H%complete_job_completion Hok.
  inversion H as [| | v ? _ _ _ _ _ Hf | v fp o ? _ Hv Hown _ Hl _ _ Hf]; subst; try done.
  - apply fail_lease_Ok in Hf as (j & b & a & insts & _ & _ & _ & Hu & ->). simpl.
    apply update_reserved_moved in Hu as ((_ & _ & Hm & Hok') & _). split; [lia|auto].
  - apply settle_Ok in Hf as (s & hs & t & fo & ct & sv & atts & insts & digest & Hsnap & _ & _ & Ha
      & _ & Hp & _).
    apply snapshot_base_range in Hsnap.
    apply settlement_amounts_Ok in Ha as (? & ? & ? & _ & _ & _ & _ & _ & _ & _ & Hsplit & _); [|done].
    apply post_settlement_moved in Hp as ((_ & _ & Hm & Hok') & _). split; [lia|auto].
Qed.

(** C3: over any sequence of submissions, from any workers and for any jobs,
    each job settles at most once and not at all once it has succeeded, the
    total of all money stays what it was, and the ledgers keep agreeing with
    the balances. *)
Theorem job_settles_once st calls answers st' :
  run st calls = (answers, st') → books_ok (books st) →
  money (books st') = money (books st) ∧ books_ok (books st')
  ∧ ∀ id, (length (List.filter (settles id) answers) ≤ 1)%nat
      ∧ (status <$> jobs st !! id = Some Succeeded → List.filter (settles id) answers = []).
Proof.
  revert st answers st'. induction calls as [|[tx cmd] calls IH]; intros st answers st' H Hok.
  { injection H as <- <-. simpl. split_and!; [done..|]. intros id. split; [lia|done]. }
  simpl in H. destruct (complete_job parse_envelope encode_snapshot key st tx cmd) as [r st1] eqn:Hc.
  destruct (run st1 calls) as [answers1 st2] eqn:Hrun. injection H as <- <-.
  destruct (step_money _ _ _ _ _ Hc Hok) as [Hm1 Hok1].
  destruct (IH _ _ _ Hrun Hok1) as (Hm2 & Hok2 & Hids). split_and!; [lia|done|]. intros id.
  destruct (step_jobs _ _ _ _ _ id Hc) as [Hset Hstay]. destruct (Hids id) as [Hle Hnone].
  simpl. destruct (settles id (cmd, r)) eqn:Es.
  - destruct (Hset eq_refl) as [Hl Hs]. rewrite (Hnone Hs). simpl. split; [lia|]. by rewrite Hl.
  - split; [done|]. auto.
Qed.
End properties.

(** ** Witnesses

    Consumer 1 holds half a quota and has reserved 90,000 microquota for job 5,
    leased by node 6 of user 2. *)
Definition sample_accounts : Books :=
  mkBooks {[1 := new_account; 2 := new_account]} [] [] 0 GENESIS_HASH 0 [].

Definition sample_grant : LedgerEntry :=
  ok_default (sample_entry 0 0 0 "")
    (ledger_new uuid_to_string sha256_hex 100 1 None "grant" BootstrapGrant 500000 0 500000
       946684800000000000 GENESIS_HASH ∅).

Definition sample_granted : Books :=
  ok_default sample_accounts (insert_quota sample_accounts sample_grant).
Definition sample_books : Books :=
  ok_default sample_accounts (update_reserved sample_granted 1 90000 (λ _, true)).

Lemma sample_granted_ok : books_ok sample_granted.
Proof.
  assert (books_ok sample_accounts) as H0.
  { split_and!; [|by intros e He%elem_of_nil..|constructor].
    intros u a. unfold sample_accounts. cbn [accounts].
    rewrite lookup_insert_Some, lookup_singleton_Some.
    intros [[_ <-]|[_ [_ <-]]]; (split_and!; [constructor..|simpl; lia|simpl; lia|simpl; lia]). }
  apply (insert_quota_ok sample_accounts sample_grant); [done|vm_compute; reflexivity].
Qed.

Lemma sample_books_ok : books_ok sample_books.
Proof.
  apply (update_reserved_ok sample_granted 1 90000 (λ _, true));
    [apply sample_granted_ok|vm_compute; reflexivity].
Qed.

Definition sample_tx (n : Z) : Tx :=
  mkTx n (λ i, n + Z.of_nat i) (λ _, 946684800000000000 + n) "nonce-nonce-".

Definition sample_abuse : AntiAbuse.Db :=
  with_decisions sample_db
    {[(1, ok_default "" (job_assessment_key sha256 1 "job-1")) :=
       mkDecisionRow 50 "" 7 None "allow" 0 1000000 [] (mkRiskCounts None None None 0 false)]}.

Definition sample_submission : Submission :=
  mkSubmission "sealed" "base64" [] 0 2 0 (Some "print") (Some STORAGE_VERSION) "standard".

Definition sample_state (confidentiality : string) : State :=
  mkState sample_books sample_abuse (mkTelemetryDb ∅ [])
    {[6 := mkNode 2 (Some 7) "online" (Some 0) "standard" None None "gpu-profile" "n"
       (mkStanding None 0 0 None 0)]}
    {[3 := mkModel "m" "w" 4294967296 "high" true 1000 4096 500000 500000 0 2 "gguf"]}
    {[4 := mkInstance 3 6 Draining None [] "m" 0]} ∅ ∅ ∅ (mkFleet ∅ ∅ [] ∅ ∅ [])
    {[5 := mkJob 1 3 (Some 4) "job-1" Leased confidentiality None None None 40 10 90000 sample_row
            (Some 6) (Some 2000) 1 None None None None None None None sample_submission 0]}
    {[(5, 1) := mkAttempt 6 (Some 1) (Some 7) AttemptLeased None None None None None 0 2000]} ∅.

Definition sample_command (input output : Z) : CompleteJob :=
  mkCompleteJob 5 6 2 7 "result-1" "answer" input output sample_telemetry.

Definition sample_complete : State → Tx → CompleteJob → ApiResult SettlementOutcome * State :=
  complete_job (λ _, None) (λ _, Some "snapshot") sample_pepper.

Definition sample_default : SettlementOutcome :=
  mkOutcome 0 0 (mkAmounts 0 0 0 0 0 0) "" InsufficientEvidence 0 "" true.

(** The first submission, its answer and its state. *)
Definition sample_settled := sample_complete (sample_state "standard") (sample_tx 1000) (sample_command 12 8).
Definition sample_outcome : SettlementOutcome := ok_default sample_default sample_settled.1.

Lemma sample_settled_eq :
  sample_complete (sample_state "standard") (sample_tx 1000) (sample_command 12 8)
    = (Ok sample_outcome, sample_settled.2).
Proof. apply (answered sample_default sample_settled). vm_cast_no_check (eq_refl true). Qed.

Lemma sample_outcome_new : idempotent_replay sample_outcome = false.
Proof. vm_cast_no_check (eq_refl false). Qed.

Example sample_amounts :
  amounts sample_outcome = mkAmounts 55200 82800 66240 99360 1000000 16560.
Proof. vm_cast_no_check (eq_refl (mkAmounts 55200 82800 66240 99360 1000000 16560)). Qed.

(** The same job submitted later with its full usage. *)
Definition sample_later := sample_complete (sample_state "standard") (sample_tx 1500) (sample_command 40 10).
Definition sample_later_outcome : SettlementOutcome := ok_default sample_default sample_later.1.

Lemma sample_later_eq :
  sample_complete (sample_state "standard") (sample_tx 1500) (sample_command 40 10)
    = (Ok sample_later_outcome, sample_later.2).
Proof. apply (answered sample_default sample_later). vm_cast_no_check (eq_refl true). Qed.

Lemma sample_later_new : idempotent_replay sample_later_outcome = false.
Proof. vm_cast_no_check (eq_refl false). Qed.

Lemma settlement_conserves_money_witness :
  ∃ j n, jobs (sample_state "standard") !! 5 = Some j
    ∧ nodes (sample_state "standard") !! 6 = Some n ∧ status j = Leased.
Proof.
  pose proof (settlement_conserves_money (λ _, None) (λ _, Some "snapshot") sample_pepper
    (sample_state "standard") (sample_tx 1000) (sample_command 12 8) sample_outcome
    sample_settled.2 sample_settled_eq sample_outcome_new sample_books_ok)
    as (j & n & Hj & Hn & Hs & _).
  exists j, n. exact (conj Hj (conj Hn Hs)).
Defined.

Lemma settlement_amounts_frozen_witness : amounts sample_later_outcome = amounts sample_outcome.
Proof.
  exact (settlement_amounts_frozen (λ _, None) (λ _, Some "snapshot") sample_pepper
    (sample_state "standard") (sample_tx 1500) (sample_tx 1000) (sample_command 40 10)
    (sample_command 12 8) sample_later_outcome sample_outcome sample_later.2 sample_settled.2
    eq_refl sample_later_eq sample_settled_eq sample_later_new sample_outcome_new).
Defined.

Lemma settlement_contribution_weighted_witness :
  ∃ j n points w, jobs (sample_state "standard") !! 5 = Some j
    ∧ nodes (sample_state "standard") !! 6 = Some n
    ∧ 0 ≤ points ∧ contribution_amount (amounts sample_outcome) = div_trunc (points * w) 1000000.
Proof.
  pose proof (settlement_contribution_weighted (λ _, None) (λ _, Some "snapshot") sample_pepper
    (sample_state "standard") (sample_tx 1000) (sample_command 12 8) sample_outcome
    sample_settled.2 sample_settled_eq sample_outcome_new) as (j & n & p & w & Hj & Hn & Hp & Hc & _).
  exists j, n, p, w. exact (conj Hj (conj Hn (conj Hp Hc))).
Defined.

Lemma settlement_replays_witness :
  sample_complete sample_settled.2 (sample_tx 3000) (sample_command 12 8)
    = (Ok (as_replay sample_outcome), sample_settled.2).
Proof.
  refine (proj1 (settlement_replays (L := sample_crypto_laws) (λ _, None) (λ _, Some "snapshot")
    sample_pepper (sample_state "standard") (sample_tx 1000) (sample_command 12 8) sample_outcome
    sample_settled.2 sample_settled_eq sample_outcome_new _ _) (sample_tx 3000)).
  - vm_compute. reflexivity.
  - intros r Hr. exfalso. exact (not_elem_of_nil r Hr).
Defined.

(** The same job under the regulated mode, whose route and report are missing. *)
Definition sample_lost := sample_complete (sample_state "regulated") (sample_tx 1000) (sample_command 12 8).

Lemma sample_lost_refused : is_ok sample_lost.1 = false.
Proof. vm_cast_no_check (eq_refl false). Qed.

Lemma failed_submission_books_nothing_witness :
  ∃ e st', sample_lost = (Err e, st')
  ∧ (st' = sample_state "regulated"
     ∨ ∃ j, jobs (sample_state "regulated") !! 5 = Some j ∧ status j = Leased
         ∧ reserve_balance_micro (books st') = 0).
Proof.
  pose proof sample_lost_refused as Hr. destruct sample_lost as [[o|e] st'] eqn:E; [discriminate Hr|].
  exists e, st'. split; [reflexivity|].
  destruct (failed_submission_books_nothing (λ _, None) (λ _, Some "snapshot") sample_pepper
    (sample_state "regulated") (sample_tx 1000) (sample_command 12 8) e st' E
    sample_books_ok) as [Hs|(j & Hj & _ & Hl & _ & _ & _ & _ & Hz & _)]; [left; exact Hs|].
  right. exists j. exact (conj Hj (conj Hl Hz)).
Defined.

Lemma job_settles_once_witness :
  let calls := [(sample_tx 1000, sample_command 12 8); (sample_tx 1500, sample_command 12 8);
                (sample_tx 1600, sample_command 40 10)] in
  let '(answers, st') := run (λ _, None) (λ _, Some "snapshot") sample_pepper
    (sample_state "standard") calls in
  money (books st') = 500000 ∧ (length (List.filter (settles 5) answers) ≤ 1)%nat.
Proof.
  cbv zeta. destruct (run _ _ _ _ _) as [answers st'] eqn:E.
  destruct (job_settles_once (λ _, None) (λ _, Some "snapshot") sample_pepper
    (sample_state "standard") _ answers st' E sample_books_ok) as (Hm & _ & Hid).
  split; [|exact (proj1 (Hid 5))]. rewrite Hm. vm_compute. reflexivity.
Defined.
