(* ===== verification/Requests.v ===== *)
(** * Job requests on the wire: crates/mindone-protocol jobs.rs, openai.rs and common.rs

    What a client may ask for: the validation of creation and failure requests,
    the speed suffix of a model name, and the token limits the coordinator reads
    out of a Standard payload.  JSON is third-party code: [JobJson] has the
    parsers and encoders [serde_json] generates for these types. *)
From S2P Require Import Prelude Text Float64 StandardData Envelope.
From Stdlib Require Import Ascii.

Local Open Scope string_scope.
Local Open Scope list_scope.
Local Open Scope Z_scope.

(** [i64] and [u32] fields are the integers they denote. *)
Inductive PayloadEncoding : Type := Base64 | Base64Url | RegulatedAeadV1.
Inductive ConfidentialityMode : Type := Standard | Regulated.
Inductive SpeedClass : Type := Fast | StandardSpeed | Slow.
Inductive JobErrorClass : Type :=
| Engine | Model | Policy | Timeout | ResourceExhausted | NodeDisconnected
| InvalidRequest | Internal | Attestation.

#[export] Instance PayloadEncoding_eq_dec : EqDecision PayloadEncoding.
Proof. solve_decision. Defined.
#[export] Instance JobErrorClass_eq_dec : EqDecision JobErrorClass.
Proof. solve_decision. Defined.

Definition encoding_as_str (self : PayloadEncoding) : string :=
  match self with
  | Base64 => "base64" | Base64Url => "base64url" | RegulatedAeadV1 => "regulated_aead_v1"
  end.

Definition speed_as_str (self : SpeedClass) : string :=
  match self with Fast => "fast" | StandardSpeed => "standard" | Slow => "slow" end.

(** ** Validation *)

Abbreviation Checked := (result ProtocolValidationError).

Definition check_identifier (field_name value : string) (maximum_bytes : Z) : Checked () :=
  bail_if (trim_is_empty value || (maximum_bytes <? str_len value) || has_control value)
    (mkValidationError field_name
      ("必须为 1 到 " +:+ dec maximum_bytes +:+ " 字节且不包含控制字符")).

Definition validate_tags (tags : list string) : Checked () :=
  _ ← bail_if (32 <? Z.of_nat (length tags)) (mkValidationError "tags" "标签数量不得超过 32 个");
  bail_if (existsb (λ tag, str_is_empty tag || (64 <? str_len tag)
                           || negb (all_bytes (λ b, b <? 128) tag)) tags)
    (mkValidationError "tags" "每个标签必须是 1 到 64 字节的 ASCII 字符串").

Definition validate_job_metadata (virtual_model : string) (tags : list string)
    (estimated_input_tokens max_output_tokens : Z) (idempotency_key : string) (priority : Z)
    : Checked () :=
  _ ← check_identifier "virtual_model" virtual_model 128;
  _ ← check_identifier "idempotency_key" idempotency_key 200;
  _ ← validate_tags tags;
  _ ← bail_if ((estimated_input_tokens <? 0) || (max_output_tokens <=? 0))
    (mkValidationError "token_limits" "输入 Token 估算不得为负，最大输出 Token 必须大于零");
  _ ← bail_if (1000000 <? max_output_tokens)
    (mkValidationError "max_output_tokens" "不得超过 1000000");
  bail_if (negb (in_range (-100) 100 priority))
    (mkValidationError "priority" "优先级必须在 -100 到 100 之间").

Record CreateJobRequest : Type := mkCreateJob {
  virtual_model : string;
  request_payload : string;
  request_encoding : PayloadEncoding;
  request_tags : list string;
  request_input_tokens : Z;
  request_max_output_tokens : Z;
  request_idempotency_key : string;
  request_priority : Z;
}.

(** [<CreateJobRequest as Validate>::validate]. *)
Definition create_validate (self : CreateJobRequest) : Checked () :=
  _ ← bail_if (bool_decide (request_encoding self = RegulatedAeadV1))
    (mkValidationError "payload_encoding"
      "Standard 任务不能使用 regulated_aead_v1；请使用 Regulated 任务接口");
  _ ← check_identifier "encrypted_payload" (request_payload self) 900000;
  validate_job_metadata (virtual_model self) (request_tags self) (request_input_tokens self)
    (request_max_output_tokens self) (request_idempotency_key self) (request_priority self).

Record JobFailRequest : Type := mkJobFail {
  fail_node_id : Z;
  fail_idempotency_key : string;
  fail_error_class : JobErrorClass;
  fail_error_message : string;
  retryable : bool;
}.

(** [<JobFailRequest as Validate>::validate]. *)
Definition fail_validate (self : JobFailRequest) : Checked () :=
  _ ← check_identifier "idempotency_key" (fail_idempotency_key self) 200;
  check_identifier "error_message" (fail_error_message self) 1000.

(** ** Speed-qualified model names *)

(** [str::strip_suffix], through the reversed bytes. *)
Definition strip_suffix (suffix s : string) : option string :=
  match decide (String.length suffix ≤ String.length s)%nat with
  | left _ =>
    let n := (String.length s - String.length suffix)%nat in
    if String.eqb (split_bytes n s).2 suffix then Some (split_bytes n s).1 else None
  | right _ => None
  end.

Record SpeedQualifiedModel : Type := mkSpeedModel {
  base_model : string;
  model_speed_class : SpeedClass;
}.

Definition parse_speed_qualified_model (model : string) : Checked SpeedQualifiedModel :=
  let '(base, speed) :=
    match strip_suffix "-fast" model with
    | Some base => (base, Fast)
    | None =>
      match strip_suffix "-slow" model with
      | Some base => (base, Slow)
      | None => (model, StandardSpeed)
      end
    end in
  _ ← bail_if (str_is_empty base)
    (mkValidationError "virtual_model" "速度后缀前必须包含模型名称");
  _ ← check_identifier "virtual_model" base 128;
  Ok (mkSpeedModel base speed).

(** ** OpenAI requests *)

Inductive ChatRole : Type := System | Developer | User | Assistant | Tool.
Record ImageUrl : Type := mkImageUrl { url : string; detail : option string }.
Inductive ContentPart : Type := TextPart (text : string) | ImageUrlPart (image_url : ImageUrl).
Inductive MessageContent : Type := TextContent (text : string) | Parts (parts : list ContentPart).
Record ChatMessage : Type := mkChatMessage {
  role : ChatRole;
  content : MessageContent;
  message_name : option string;
  tool_call_id : option string;
}.
Inductive StopSequences : Type := OneStop (value : string) | ManyStops (values : list string).
Inductive Prompt : Type := OnePrompt (value : string) | ManyPrompts (values : list string).

Record ChatCompletionsRequest : Type := mkChat {
  chat_model : string;
  messages : list ChatMessage;
  chat_stream : bool;
  chat_max_tokens : option Z;
  max_completion_tokens : option Z;
  chat_temperature : option f64;
  chat_top_p : option f64;
  seed : option Z;
  chat_n : option Z;
  chat_stop : option StopSequences;
  chat_user : option string;
}.

Record CompletionsRequest : Type := mkCompletions {
  completions_model : string;
  prompt : Prompt;
  completions_stream : bool;
  completions_max_tokens : option Z;
  completions_temperature : option f64;
  completions_top_p : option f64;
  completions_n : option Z;
  completions_stop : option StopSequences;
  completions_user : option string;
}.

(** [Option::is_some_and], [Option::or]. *)
Definition some_and {A} (o : option A) (p : A → bool) : bool :=
  match o with Some a => p a | None => false end.
Definition option_or {A} (a b : option A) : option A := match a with Some _ => a | None => b end.

Definition validate_sampling (temperature top_p : option f64) (max_tokens n : option Z)
    : Checked () :=
  _ ← bail_if (some_and temperature
      (λ v, negb (is_finite v) || negb (f64_in f64_zero (f64_of_Z 2) v)))
    (mkValidationError "temperature" "必须在 0 到 2 之间");
  _ ← bail_if (some_and top_p (λ v, negb (is_finite v) || negb (f64_in f64_zero f64_one v)))
    (mkValidationError "top_p" "必须在 0 到 1 之间");
  _ ← bail_if (bool_decide (max_tokens = Some 0)) (mkValidationError "max_tokens" "必须大于零");
  bail_if (some_and n (λ v, negb (in_range 1 16 v)))
    (mkValidationError "n" "必须在 1 到 16 之间").

Definition chat_validate (self : ChatCompletionsRequest) : Checked () :=
  _ ← check_identifier "model" (chat_model self) 256;
  _ ← bail_if (Nat.eqb (length (messages self)) 0)
    (mkValidationError "messages" "至少需要一条消息");
  validate_sampling (chat_temperature self) (chat_top_p self)
    (option_or (chat_max_tokens self) (max_completion_tokens self)) (chat_n self).

Definition has_prompt (p : Prompt) : bool :=
  match p with
  | OnePrompt value => negb (str_is_empty value)
  | ManyPrompts values =>
    negb (Nat.eqb (length values) 0) && forallb (λ v, negb (str_is_empty v)) values
  end.

Definition completions_validate (self : CompletionsRequest) : Checked () :=
  _ ← check_identifier "model" (completions_model self) 256;
  _ ← bail_if (negb (has_prompt (prompt self))) (mkValidationError "prompt" "prompt 不能为空");
  validate_sampling (completions_temperature self) (completions_top_p self)
    (completions_max_tokens self) (completions_n self).

(** ** Standard payloads *)

Definition OPENAI_CHAT_COMPLETIONS : string := "/v1/chat/completions".
Definition OPENAI_COMPLETIONS : string := "/v1/completions".
Definition DEFAULT_NETWORK_MAX_OUTPUT_TOKENS : Z := 256.

Record StandardJobPayload (Json : Type) : Type := mkPayload {
  endpoint : string;
  request : Json;
}.
Arguments mkPayload {Json} endpoint request.
Arguments endpoint {Json} _.
Arguments request {Json} _.

Class JobJson : Type := {
  Json : Type;
  as_object_keys : Json → option (list string);
  to_vec : Json → option string;
  parse_payload : string → option (StandardJobPayload Json);
  parse_chat : string → option ChatCompletionsRequest;
  parse_completions : string → option CompletionsRequest;
  encode_create_job : CreateJobRequest → option string;
}.

Record StandardJobLimits : Type := mkLimits {
  limits_model : string;
  limits_minimum_input : Z;
  limits_maximum_output : Z;
  limits_stream : bool;
}.

Definition chat_fields : list string :=
  ["model"; "messages"; "stream"; "max_tokens"; "max_completion_tokens"; "temperature"; "top_p";
   "seed"; "n"; "stop"; "user"].
Definition completions_fields : list string :=
  ["model"; "prompt"; "stream"; "max_tokens"; "temperature"; "top_p"; "n"; "stop"; "user"].

Section payload.
Context `{J : JobJson}.

Definition conservative_input_token_authorization (value : Json) : Checked Z :=
  serialized ← ok_or (to_vec value) (mkValidationError "request" "请求 JSON 无法编码");
  ok_or (i32_try_from (Z.max (str_len serialized + 1024) 1))
    (mkValidationError "estimated_input_tokens" "请求体超过 Token 授权范围").

Definition validate_standard_request_fields (value : Json) (allowed_fields : list string)
    : Checked () :=
  keys ← ok_or (as_object_keys value) (mkValidationError "request" "请求必须是 JSON 对象");
  match List.find (λ key, negb (existsb (String.eqb key) allowed_fields)) keys with
  | Some key => Err (mkValidationError "request" ("请求包含不受支持的字段：" +:+ key))
  | None => Ok tt
  end.

(** Model, stream flag, output tokens per choice and number of choices. *)
Definition chat_limits (value : Json) : Checked (string * bool * Z * Z) :=
  _ ← validate_standard_request_fields value chat_fields;
  serialized ← ok_or (to_vec value) (mkValidationError "request" "聊天请求 JSON 无法编码");
  chat ← ok_or (parse_chat serialized) (mkValidationError "request" "聊天请求 JSON 结构无效");
  _ ← chat_validate chat;
  _ ← bail_if (bool_decide (is_Some (chat_max_tokens chat))
               && bool_decide (is_Some (max_completion_tokens chat)))
    (mkValidationError "max_tokens" "max_tokens 与 max_completion_tokens 不能同时设置");
  Ok (chat_model chat, chat_stream chat,
      default DEFAULT_NETWORK_MAX_OUTPUT_TOKENS
        (option_or (chat_max_tokens chat) (max_completion_tokens chat)),
      default 1 (chat_n chat)).

Definition completions_limits (value : Json) : Checked (string * bool * Z * Z) :=
  _ ← validate_standard_request_fields value completions_fields;
  serialized ← ok_or (to_vec value) (mkValidationError "request" "补全请求 JSON 无法编码");
  completions ← ok_or (parse_completions serialized)
    (mkValidationError "request" "补全请求 JSON 结构无效");
  _ ← completions_validate completions;
  Ok (completions_model completions, completions_stream completions,
      default DEFAULT_NETWORK_MAX_OUTPUT_TOKENS (completions_max_tokens completions),
      default 1 (completions_n completions)).

(** [checked_mul], [try_from] and [filter] of the two factors. *)
Definition authorized_output (per_choice choices : Z) : option Z :=
  product ← checked in_u32 (per_choice * choices);
  value ← i32_try_from product;
  if (0 <? value) && (value <=? 1000000) then Some value else None.

Definition validated_limits (self : StandardJobPayload Json) : Checked StandardJobLimits :=
  '((model, stream, per_choice), choices) ←
    (if String.eqb (endpoint self) OPENAI_CHAT_COMPLETIONS then chat_limits (request self)
     else if String.eqb (endpoint self) OPENAI_COMPLETIONS then completions_limits (request self)
     else Err (mkValidationError "endpoint"
       "只允许 OpenAI chat/completions 或 completions 端点"));
  _ ← check_identifier "model" model 128;
  output ← ok_or (authorized_output per_choice choices)
    (mkValidationError "max_output_tokens" "输出 Token 授权上限无效");
  input ← conservative_input_token_authorization (request self);
  Ok (mkLimits model input output stream).
End payload.
