(* ===== verification/Quotes.v ===== *)
(** * Quotes: the billing snapshots of crates/mindone-coordinator/src/routes/jobs.rs

    What a new job reserves: the current billing profile of its model, quoted
    at the token limits the consumer authorised, and the columns that freeze
    the quote in the job's row. *)
From S2P Require Import Prelude Text Fixed Billing Ledger Net AntiAbuse StandardData Hardware Fingerprint Store Api Snapshot Tables.

Local Open Scope string_scope.
Local Open Scope list_scope.
Local Open Scope Z_scope.

Record BillingProfileSnapshot : Type := mkBillingProfile {
  profile_contract_version : string;
  snapshot_profile_id : Z;
  snapshot_profile_version : Z;
  snapshot_profile_fingerprint : string;
  snapshot_model_weights_hash : string;
  snapshot_hardware_class : string;
  snapshot_evidence_hash : string;
  snapshot_valid_from : Z;
  snapshot_valid_until : Z;
  snapshot_profile : ServerReferenceBillingProfile;
}.

Record BillingSnapshot : Type := mkBilling {
  billing_profile : BillingProfileSnapshot;
  snapshot_authorized_input_tokens : Z;
  snapshot_authorized_max_output_tokens : Z;
  quote : PhysicalBillingQuote;
  reservation_micro : Z;
}.

Definition billing_profile_unavailable : ApiError :=
  unavailable "billing_profile_unavailable"
    "当前模型没有有效且覆盖本次 Token 授权上界的物理计费 profile".

(** [BillingProfileSnapshot::from_row] on a row of [billing_profiles]. *)
Definition from_profile_row (row : ProfileRow) : ApiResult BillingProfileSnapshot :=
  _ ← bail_if (negb (String.eqb (row_contract_version row) SERVER_REFERENCE_UPPER_BOUND_V1))
    billing_profile_unavailable;
  Ok (mkBillingProfile (row_contract_version row) (row_profile_id row) (row_profile_version row)
    (row_profile_fingerprint row) (row_model_weights_hash row) (row_reference_hardware_class row)
    (row_evidence_hash row) (row_valid_from row) (row_valid_until row) (row_profile row)).

(** [BillingSnapshot::calculate]. *)
Definition calculate_billing (profile : BillingProfileSnapshot)
    (authorized_input_tokens authorized_max_output_tokens : Z) : ApiResult BillingSnapshot :=
  quote ← map_err (λ _, billing_profile_unavailable)
    (maximum_reservation_quote (snapshot_profile profile) authorized_input_tokens
       authorized_max_output_tokens);
  reservation ← map_err (λ _, billing_profile_unavailable)
    (maximum_reservation_micro (snapshot_profile profile) authorized_input_tokens
       authorized_max_output_tokens);
  Ok (mkBilling profile authorized_input_tokens authorized_max_output_tokens quote
    (as_i64 reservation)).

(** [WHERE] and [ORDER BY] of the profile query. *)
Definition profile_current (now model : Z) (weights_hash : string) (row : ProfileRow) : bool :=
  String.eqb (row_contract_version row) SERVER_REFERENCE_UPPER_BOUND_V1
  && (row_profile_model row =? model) && String.eqb (row_model_weights_hash row) weights_hash
  && (row_valid_from row <=? now) && (now <? row_valid_until row).

Definition profile_cmp : ProfileRow → ProfileRow → comparison :=
  cmp_then (cmp_rev (cmp_on row_profile_version Z.compare))
    (cmp_then (cmp_rev (cmp_on row_valid_from Z.compare)) (cmp_on row_profile_id Z.compare)).

Definition current_profile (rows : list ProfileRow) (now model : Z) (weights_hash : string)
    : option ProfileRow :=
  head (sort_by profile_cmp (List.filter (profile_current now model weights_hash) rows)).

Definition load_billing_snapshot (rows : list ProfileRow) (now model : Z) (weights_hash : string)
    (authorized_input_tokens authorized_max_output_tokens : Z) : ApiResult BillingSnapshot :=
  row ← ok_or (current_profile rows now model weights_hash) billing_profile_unavailable;
  profile ← from_profile_row row;
  _ ← bail_if (negb (String.eqb (snapshot_model_weights_hash profile) weights_hash))
    billing_profile_unavailable;
  calculate_billing profile authorized_input_tokens authorized_max_output_tokens.

(** The [billing_*] columns of the INSERT into [jobs]. *)
Definition frozen_columns (b : BillingSnapshot) : BillingColumns :=
  let p := billing_profile b in
  let r := snapshot_profile p in
  let q := quote b in
  mkBillingColumns (Some (profile_contract_version p)) (Some (snapshot_profile_id p))
    (Some (snapshot_profile_version p)) (Some (snapshot_profile_fingerprint p))
    (Some (snapshot_model_weights_hash p)) (Some (snapshot_hardware_class p))
    (Some (snapshot_evidence_hash p)) (Some (snapshot_valid_from p)) (Some (snapshot_valid_until p))
    (Some (maximum_input_tokens r)) (Some (maximum_output_tokens r)) (Some (fixed_gpu_time_us r))
    (Some (gpu_time_us_per_1k_tokens r)) (Some (reference_vram_mib r))
    (Some (token_rate_micro_per_1k r)) (Some (gpu_rate_micro_per_second r))
    (Some (vram_rate_micro_per_gib_second r)) (Some (snapshot_authorized_input_tokens b))
    (Some (snapshot_authorized_max_output_tokens b)) (Some (billable_tokens q))
    (Some (reference_gpu_time_us q)) (Some (reference_vram_mib_microseconds q))
    (Some (as_i64 (token_cost q))) (Some (as_i64 (gpu_cost q))) (Some (as_i64 (vram_cost q)))
    (Some (as_i64 (quote_base_cost q))).

(** [BillingProfileSnapshot::from_row] on frozen columns: a NULL in a column
    that must have a value is a decoding error. *)
Definition from_frozen_profile (row : BillingColumns) : ApiResult BillingProfileSnapshot :=
  version ← or_internal (billing_contract_version row);
  _ ← bail_if (negb (String.eqb version SERVER_REFERENCE_UPPER_BOUND_V1))
    billing_profile_unavailable;
  id ← or_internal (billing_profile_id row);
  profile_version ← or_internal (billing_profile_version row);
  fingerprint ← or_internal (billing_profile_fingerprint row);
  weights_hash ← or_internal (billing_model_weights_hash row);
  hardware_class ← or_internal (billing_reference_hardware_class row);
  evidence_hash ← or_internal (billing_profile_evidence_hash row);
  valid_from ← or_internal (billing_profile_valid_from row);
  valid_until ← or_internal (billing_profile_valid_until row);
  max_input ← or_internal (billing_profile_max_input_tokens row);
  max_output ← or_internal (billing_profile_max_output_tokens row);
  fixed_time ← or_internal (billing_fixed_gpu_time_us row);
  time_per_1k ← or_internal (billing_gpu_time_us_per_1k_tokens row);
  vram ← or_internal (billing_reference_vram_mib row);
  token_rate ← or_internal (billing_token_rate_micro_per_1k row);
  gpu_rate ← or_internal (billing_gpu_rate_micro_per_second row);
  vram_rate ← or_internal (billing_vram_rate_micro_per_gib_second row);
  Ok (mkBillingProfile version id profile_version fingerprint weights_hash hardware_class
    evidence_hash valid_from valid_until
    (mkProfile max_input max_output fixed_time time_per_1k vram token_rate gpu_rate vram_rate)).

(** [BillingSnapshot::from_frozen_row]. *)
Definition from_frozen_row (row : BillingColumns) (expected_model_weights_hash : string)
    : ApiResult BillingSnapshot :=
  _ ← bail_if (negb (bool_decide
      (billing_contract_version row = Some SERVER_REFERENCE_UPPER_BOUND_V1)))
    billing_profile_unavailable;
  profile ← from_frozen_profile row;
  _ ← bail_if (negb (String.eqb (snapshot_model_weights_hash profile) expected_model_weights_hash))
    billing_profile_unavailable;
  input ← or_internal (billing_authorized_input_tokens row);
  output ← or_internal (billing_authorized_max_output_tokens row);
  snapshot ← calculate_billing profile input output;
  let q := quote snapshot in
  tokens ← or_internal (billing_billable_tokens row);
  _ ← bail_if (negb (billable_tokens q =? tokens)) billing_profile_unavailable;
  time ← or_internal (billing_reference_gpu_time_us row);
  _ ← bail_if (negb (reference_gpu_time_us q =? time)) billing_profile_unavailable;
  memory ← or_internal (billing_reference_vram_mib_microseconds row);
  _ ← bail_if (negb (reference_vram_mib_microseconds q =? memory)) billing_profile_unavailable;
  token ← or_internal (billing_token_cost_micro row);
  _ ← bail_if (negb (as_i64 (token_cost q) =? token)) billing_profile_unavailable;
  gpu ← or_internal (billing_gpu_cost_micro row);
  _ ← bail_if (negb (as_i64 (gpu_cost q) =? gpu)) billing_profile_unavailable;
  vram ← or_internal (billing_vram_cost_micro row);
  _ ← bail_if (negb (as_i64 (vram_cost q) =? vram)) billing_profile_unavailable;
  base ← or_internal (billing_base_cost_micro row);
  _ ← bail_if (negb (as_i64 (quote_base_cost q) =? base)) billing_profile_unavailable;
  Ok snapshot.

(** ** Freezing and reading back *)

Lemma calculate_billing_Ok p input output b :
  calculate_billing p input output = Ok b →
  billing_profile b = p ∧ snapshot_authorized_input_tokens b = input
  ∧ snapshot_authorized_max_output_tokens b = output
  ∧ maximum_reservation_quote (snapshot_profile p) input output = Ok (quote b)
  ∧ ∃ r, maximum_reservation_micro (snapshot_profile p) input output = Ok r
      ∧ reservation_micro b = as_i64 r.
Proof.
  intros H. apply bind_Ok in H as (q & Hq%map_err_Ok & H).
  apply bind_Ok in H as (r & Hr%map_err_Ok & [= <-]). split_and!; try done. by exists r.
Qed.

Lemma load_billing_Ok rows now model hash input output b :
  load_billing_snapshot rows now model hash input output = Ok b →
  ∃ row, row ∈ rows ∧ profile_current now model hash row = true
    ∧ from_profile_row row = Ok (billing_profile b)
    ∧ (∀ row', row' ∈ rows → profile_current now model hash row' = true →
         cmp_le profile_cmp row row')
    ∧ calculate_billing (billing_profile b) input output = Ok b.
Proof.
  intros H. apply bind_Ok in H as (row & Hrow%ok_or_Ok & H).
  apply bind_Ok in H as (p & Hp & H). apply bind_Ok in H as ([] & _ & H).
  pose proof H as (Hb & _)%calculate_billing_Ok. rewrite Hb.
  unfold current_profile in Hrow. destruct (sort_by _ _) as [|x l] eqn:E; [done|].
  injection Hrow as ->. apply sort_by_head in E as [Hin Hmin]; [|apply _].
  apply list_elem_of_In, filter_In in Hin as [Hin%list_elem_of_In Hc].
  exists row. split_and!; try done. intros row' Hr' Hc'. apply Hmin.
  apply list_elem_of_In, filter_In. split; [by apply list_elem_of_In|done].
Qed.

(** The columns frozen when a job is created read back as the same
    snapshot: the regulated route and the settlement see the profile, limits,
    quote and reservation of the creation. *)
Theorem frozen_quote_reads_back rows now model hash input output b :
  load_billing_snapshot rows now model hash input output = Ok b →
  from_frozen_row (frozen_columns b) hash = Ok b.
Proof.
  intros (row & _ & Hc & Hp & _ & Hb)%load_billing_Ok.
  unfold from_profile_row in Hp. apply bind_Ok in Hp as ([] & Hv%bail_if_Ok & [= Hp]).
  apply negb_false_iff, String.eqb_eq in Hv.
  unfold profile_current in Hc. rewrite !andb_true_iff, !String.eqb_eq in Hc.
  destruct Hc as ((((_ & _) & Hh) & _) & _).
  pose proof Hb as (_ & Hin & Hout & _)%calculate_billing_Ok.
  unfold from_frozen_row, from_frozen_profile, frozen_columns. cbn -[calculate_billing].
  rewrite <-Hp. cbn -[calculate_billing String.eqb]. rewrite Hv, Hh, !String.eqb_refl.
  cbn -[calculate_billing].
  replace (mkBillingProfile _ _ _ _ _ _ _ _ _ _) with (billing_profile b)
    by (rewrite <-Hp, Hv, Hh; by destruct (row_profile row)).
  rewrite Hin, Hout, Hb, bool_decide_true by done. cbn -[calculate_billing].
  by rewrite String.eqb_refl, !Z.eqb_refl.
Qed.

(** Sequenced columns and guards, one hypothesis each. *)
Local Ltac read_columns H :=
  repeat (let x := fresh "x" in let E := fresh "E" in
          apply bind_Ok in H as (x & E & H);
          first [apply or_internal_Ok in E | apply bail_if_Ok, negb_false_iff in E | idtac]).

Lemma from_frozen_profile_columns row p :
  from_frozen_profile row = Ok p →
  (billing_contract_version row, billing_profile_id row, billing_profile_version row,
   billing_profile_fingerprint row, billing_model_weights_hash row,
   billing_reference_hardware_class row, billing_profile_evidence_hash row,
   billing_profile_valid_from row, billing_profile_valid_until row)
  = (Some (profile_contract_version p), Some (snapshot_profile_id p),
     Some (snapshot_profile_version p), Some (snapshot_profile_fingerprint p),
     Some (snapshot_model_weights_hash p), Some (snapshot_hardware_class p),
     Some (snapshot_evidence_hash p), Some (snapshot_valid_from p), Some (snapshot_valid_until p))
  ∧ let r := snapshot_profile p in
    (billing_profile_max_input_tokens row, billing_profile_max_output_tokens row,
     billing_fixed_gpu_time_us row, billing_gpu_time_us_per_1k_tokens row,
     billing_reference_vram_mib row, billing_token_rate_micro_per_1k row,
     billing_gpu_rate_micro_per_second row, billing_vram_rate_micro_per_gib_second row)
    = (Some (maximum_input_tokens r), Some (maximum_output_tokens r), Some (fixed_gpu_time_us r),
       Some (gpu_time_us_per_1k_tokens r), Some (reference_vram_mib r),
       Some (token_rate_micro_per_1k r), Some (gpu_rate_micro_per_second r),
       Some (vram_rate_micro_per_gib_second r)).
Proof.
  unfold from_frozen_profile. intros H.
  read_columns H. injection H as <-. simpl. split; congruence.
Qed.

(** A snapshot is read only from the columns that freeze it. *)
Lemma from_frozen_row_columns row hash b :
  from_frozen_row row hash = Ok b →
  frozen_columns b = row ∧ snapshot_model_weights_hash (billing_profile b) = hash
  ∧ calculate_billing (billing_profile b) (snapshot_authorized_input_tokens b)
      (snapshot_authorized_max_output_tokens b) = Ok b.
Proof.
  unfold from_frozen_row. intros H. read_columns H. injection H as ->.
  match goal with E : from_frozen_profile _ = _ |- _ =>
    apply from_frozen_profile_columns in E as [Hp Hr] end.
  match goal with E : calculate_billing _ _ _ = _ |- _ =>
    pose proof E as (Eb & Ei & Eo & _)%calculate_billing_Ok; rewrite <-Eb, <-Ei, <-Eo in E end.
  repeat match goal with E : (_ =? _) = true |- _ => apply Z.eqb_eq in E end.
  split_and!; [|by apply String.eqb_eq; congruence|done].
  unfold frozen_columns. destruct row. simpl in *. rewrite Eb. injection Hp as -> -> -> -> -> -> -> -> ->.
  injection Hr as -> -> -> -> -> -> -> ->. congruence.
Qed.
