(* ===== verification/Dispatch.v ===== *)
(** * Dispatch: the candidate query of [claim_job], routes/jobs.rs

    Which job a worker that asks for work is given.  The query scores, for
    every ready job, the instances that could serve it, keeps one instance per
    node, and hands the job out only to the node that comes first; the
    contribution ranking of mindone-accounting is reimplemented in SQL there,
    and shown to be the same below.  [lower()] of the database is a parameter. *)
From S2P Require Import Prelude Text Fixed Routing Billing Ledger Net AntiAbuse StandardData Hardware Fingerprint Store Envelope Api Snapshot Tables Lease.

Local Open Scope string_scope.
Local Open Scope list_scope.
Local Open Scope Z_scope.

Definition CONTRIBUTION_ROUTING_WINDOW_DAYS : Z := 30.

Class Collation : Type := { sql_lower : string → string }.

(** [x::bigint] of the quotient of two integers: to nearest, ties away from 0. *)
Definition round_div (a b : Z) : Z := Z.sgn a * ((2 * Z.abs a + b) / (2 * b)).

(** A row of the innermost SELECT. *)
Record RankedRow : Type := mkRankedRow {
  ranked_instance : Z;
  ranked_node : Z;
  routing_score : Z;
  server_free_slots : Z;
  recent_contribution : Z;
  row_active_count : Z;
  row_tps_milli : Z;
}.

Definition trust_points (trust_level : string) : Z :=
  if String.eqb trust_level "enhanced" then 1000000
  else if String.eqb trust_level "standard" then 850000
  else if String.eqb trust_level "standard-limited" then 700000
  else if String.eqb trust_level "experimental" then 400000
  else 300000.

(** [age] is [now() - last_seen_at] in microseconds. *)
Definition score_row (trust_level : string) (age : Z) (p : PolicyRow) (m : option MetricsRow)
    (load : Z) : Z :=
  trust_points trust_level * 25
  + Z.max 0 (1000000 - Z.min 1000000 (round_div age 90)) * 20
  + match m ≫= metrics_coordinator_rtt_ms with
    | None => 0
    | Some rtt => 1000000 - rtt * 1000
    end * 15
  + Z.min (default 0 (tps_milli <$> m)) 100000 * 10 * 15
  + Z.max 0 (1000000
      - div_trunc (load * 1000000) (Z.max (policy_max_concurrent p) 1)) * 15
  + Z.max 0 (1000000 - default 500000 (error_rate_ppm <$> m)) * 10.

Definition free_slots (speed_class : string) (p : PolicyRow) (active : Z) : Z :=
  if String.eqb speed_class "slow" then Z.max (policy_max_concurrent p - active) 0
  else if active =? 0 then 1 else 0.

Section dispatch.
Context `{CL : Collation}.
Context (st : State) (now : Z).

(** The WHERE clause of the jobs that wait for a worker. *)
Definition ready (j : JobRow) : bool :=
  match status j with
  | Queued | Retry => true
  | Leased => sql_is (lease_expires_at j) (λ t, t <=? now)
  | _ => false
  end
  && (available_at j <=? now) && (attempt_count j <? max_attempts (submission j)).

(** A job other than [id] that takes a slot of the node. *)
Definition holds_slot (id node : Z) (p : Z * JobRow) : bool :=
  negb (p.1 =? id)
  && (bool_decide (leased_to_node_id p.2 = Some node) && bool_decide (status p.2 = Leased)
        && sql_is (lease_expires_at p.2) (λ t, now <? t)
      || String.eqb (confidentiality_mode p.2) "regulated"
         && bool_decide (regulated_node_id p.2 = Some node)
         && bool_decide (status p.2 = Queued ∨ status p.2 = Retry)).

Definition active_count (id node : Z) : Z :=
  countb (holds_slot id node) (map_to_list (jobs st))
  + countb (λ p, (route_node p.2 =? node) && route_prepared p.2 && (now <? route_expires_at p.2))
      (map_to_list (regulated_routes (fleet st)))
  + countb (λ p, (challenge_node p.2 =? node) && challenge_leased p.2
                 && (now <? challenge_lease_expires_at p.2)) (map_to_list (challenges st)).

(** The receipts of the last 30 days of jobs the node served. *)
Definition recent_node_contribution (node : Z) : Z :=
  foldr (λ p total,
    if bool_decide ((jobs st !! p.1 ≫= leased_to_node_id) = Some node)
       && (now - CONTRIBUTION_ROUTING_WINDOW_DAYS * DAY_MICROS <=? receipt_created_at p.2)
    then receipt_contribution_micro p.2 + total else total) 0 (map_to_list (receipts st)).

Definition tags_rejected (requested rejected : list string) : bool :=
  existsb (λ a, existsb (λ b, String.eqb (sql_lower a) (sql_lower b)) rejected) requested.

(** EXISTS: the report the regulated job is bound to still vouches for the instance. *)
Definition report_vouches (j : JobRow) (node instance : Z) : bool :=
  default false (
    report ← attestation_report_id j;
    ar ← reports st !! report;
    m ← models st !! model_id j;
    Some ((report_node ar =? node) && bool_decide (report_instance ar = Some instance)
      && bool_decide (report_model_hash ar = Some (weights_hash m))
      && String.eqb (report_status ar) "verified" && String.eqb (key_origin ar) "tee_runtime"
      && (now <? expires_at ar) && sql_is (collateral_expires_at ar) (λ t, now <? t))).

Definition may_serve (j : JobRow) (node instance : Z) : bool :=
  String.eqb (confidentiality_mode j) "standard"
  || String.eqb (confidentiality_mode j) "regulated"
     && bool_decide (model_instance_id j = Some instance)
     && bool_decide (regulated_node_id j = Some node) && report_vouches j node instance.

(** The load a new lease may be added to, by speed class. *)
Definition load_allows (speed_class : string) (p : PolicyRow) (load : Z) : bool :=
  String.eqb speed_class "slow" && (load <? policy_max_concurrent p)
  || existsb (String.eqb speed_class) ["fast"; "standard"] && (load =? 0).

Definition hardware_allows (p : PolicyRow) (m : option MetricsRow) : bool :=
  match policy_gpu_temp_limit_c p with
  | None => true
  | Some limit => sql_is (m ≫= metrics_gpu_temp_c) (λ t, t <? limit)
  end
  && ((policy_vram_reserve_mib p =? 0)
      || match m ≫= vram_used_mib, m ≫= vram_total_mib with
         | Some used, Some total => policy_vram_reserve_mib p <=? total - used
         | _, _ => false
         end).

(** The joins and the WHERE clause of the innermost SELECT. *)
Definition ranked_row (id : Z) (j : JobRow) (i : Z * InstanceRow) : option RankedRow :=
  let node := instance_node i.2 in
  n ← nodes st !! node;
  p ← policies (fleet st) !! node;
  let m := metrics (fleet st) !! node in
  seen ← last_seen_at n;
  let active := active_count id node in
  let load := Z.max active (default 0 (metrics_current_concurrent <$> m)) in
  if (instance_model i.2 =? model_id j) && bool_decide (instance_status i.2 = Published)
     && negb (instance_canary_quarantined st i.1)
     && String.eqb (node_status n) "online" && (now - LIVENESS_MICROS <? seen)
     && match m ≫= metrics_coordinator_rtt_ms with
        | None => true
        | Some rtt => in_range 1 1000 rtt
        end
     && may_serve j node i.1
     && negb (tags_rejected (job_tags (submission j)) (policy_reject_tags p))
     && load_allows (speed_class (submission j)) p load
     && hardware_allows p m
  then Some (mkRankedRow i.1 node (score_row (trust_level n) (now - seen) p m load)
    (free_slots (speed_class (submission j)) p active) (recent_node_contribution node) active
    (default 0 (tps_milli <$> m)))
  else None.

(** [DISTINCT ON (node_id)] of rows in node order. *)
Fixpoint distinct_nodes (last : option Z) (l : list RankedRow) : list RankedRow :=
  match l with
  | [] => []
  | r :: l' =>
    if bool_decide (last = Some (ranked_node r)) then distinct_nodes last l'
    else r :: distinct_nodes (Some (ranked_node r)) l'
  end.

Definition node_cmp : RankedRow → RankedRow → comparison :=
  cmp_then (cmp_on ranked_node Z.compare) (cmp_on ranked_instance Z.compare).

Definition node_cohort (id : Z) (j : JobRow) : list RankedRow :=
  distinct_nodes None
    (sort_by node_cmp (omap (ranked_row id j) (map_to_list (instances st)))).

(** The jobs that compete for the same cohort: same model, mode and tags. *)
Definition lower_tags (tags : list string) : gset string := list_to_set (sql_lower <$> tags).

Definition ready_demand (j : JobRow) : Z :=
  countb (λ p, (model_id p.2 =? model_id j)
      && String.eqb (confidentiality_mode p.2) (confidentiality_mode j)
      && bool_decide (lower_tags (job_tags (submission p.2)) = lower_tags (job_tags (submission j)))
      && ready p.2) (map_to_list (jobs st)).
End dispatch.

(** ** The window functions and the order *)

Definition cohort_size (cohort : list RankedRow) : Z := Z.of_nat (length cohort).
Definition best_routing_score (cohort : list RankedRow) : Z :=
  match routing_score <$> cohort with
  | [] => 0
  | x :: l => foldl Z.max x l
  end.
Definition free_slots_total (cohort : list RankedRow) : Z :=
  foldr (λ r total, server_free_slots r + total) 0 cohort.

(** [FLOOR] of twice the rank below plus the ties, scaled over twice the others; NULL
    for a cohort of one. *)
Definition sql_percentile (cohort : list RankedRow) (r : RankedRow) : option Z :=
  let below := countb (λ x, recent_contribution x <? recent_contribution r) cohort in
  let tied := countb (λ x, recent_contribution x =? recent_contribution r) cohort in
  let denominator := 2 * (cohort_size cohort - 1) in
  if denominator =? 0 then None
  else Some ((2 * below + (tied - 1)) * CONTRIBUTION_ROUTING_PERCENTILE_SCALE / denominator).

Definition contribution_priority (cohort : list RankedRow) (demand : Z) (r : RankedRow)
    : option Z :=
  if (CONTRIBUTION_ROUTING_MIN_COHORT <=? cohort_size cohort)
     && (free_slots_total cohort <? demand)
     && (best_routing_score cohort * CONTRIBUTION_ROUTING_NEAR_BEST_NUMERATOR
           <=? routing_score r * CONTRIBUTION_ROUTING_NEAR_BEST_DENOMINATOR)
  then sql_percentile cohort r else None.

(** [CASE WHEN c THEN x END DESC NULLS LAST]. *)
Definition desc_when {A} (c : bool) (f : A → Z) : A → A → comparison :=
  cmp_rev (cmp_on (λ x, if c then Some (f x) else None) (option_cmp Z.compare)).

Definition prioritized_cmp (speed_class : string) (cohort : list RankedRow) (demand : Z)
    : RankedRow → RankedRow → comparison :=
  cmp_then (desc_when (String.eqb speed_class "fast") row_tps_milli)
    (cmp_then (desc_when (String.eqb speed_class "slow") row_active_count)
      (cmp_then (cmp_rev (cmp_on (contribution_priority cohort demand) (option_cmp Z.compare)))
        (cmp_then (cmp_rev (cmp_on routing_score Z.compare)) node_cmp))).

Definition prioritized `{Collation} (st : State) (now id : Z) (j : JobRow) : list RankedRow :=
  let cohort := node_cohort st now id j in
  sort_by (prioritized_cmp (speed_class (submission j)) cohort (ready_demand st now j)) cohort.

(** [ORDER BY priority DESC, created_at]; ties go by identifier here. *)
Definition queue_cmp : Z * JobRow → Z * JobRow → comparison :=
  cmp_then (cmp_rev (cmp_on (λ p, priority (submission p.2)) Z.compare))
    (cmp_then (cmp_on (λ p, created_at (submission p.2)) Z.compare) (cmp_on fst Z.compare)).

Definition offered `{Collation} (st : State) (now node instance : Z) (p : Z * JobRow) : bool :=
  ready now p.2
  && match models st !! model_id p.2 with Some m => enabled m | None => false end
  && match prioritized st now p.1 p.2 with
     | r :: _ => (ranked_node r =? node) && (ranked_instance r =? instance)
     | [] => false
     end.

(** The job the worker is given, the first of those offered to it. *)
Definition candidate `{Collation} (st : State) (now node instance : Z) : option (Z * JobRow) :=
  head (sort_by queue_cmp (List.filter (offered st now node instance) (map_to_list (jobs st)))).
