(* ===== verification/DispatchSpec.v ===== *)
(** * What [claim_job] hands out

    The SQL ranking of the candidate query is the contribution ranking of
    mindone-accounting, and no job is offered to a worker that may not serve it. *)
From S2P Require Import Prelude Text Fixed Routing Billing Ledger Net AntiAbuse StandardData Hardware Fingerprint Store Envelope Api Snapshot Tables Lease Dispatch.

Local Open Scope string_scope.
Local Open Scope list_scope.
Local Open Scope Z_scope.

(** ** The cohort *)

Lemma distinct_nodes_spec last l :
  StronglySorted (λ x y, ranked_node x ≤ ranked_node y) l →
  (∀ n x, last = Some n → x ∈ l → n ≤ ranked_node x) →
  NoDup (ranked_node <$> distinct_nodes last l)
  ∧ ∀ x, x ∈ distinct_nodes last l → x ∈ l ∧ last ≠ Some (ranked_node x).
Proof.
  revert last. induction l as [|r l IH]; intros last Hs Hlast; simpl.
  { split; [constructor|]. intros x []%elem_of_nil. }
  apply StronglySorted_inv in Hs as [Hs Hr]. rewrite Forall_forall in Hr.
  case_bool_decide as Hd.
  - destruct (IH last Hs) as [Hn Hin]; [intros n x Hl Hx; eapply Hlast; [done|by right]|].
    split; [done|]. intros x [? ?]%Hin. split; [by right|done].
  - destruct (IH (Some (ranked_node r)) Hs) as [Hn Hin]; [intros n x [= <-]; apply Hr|].
    split.
    + constructor; [|done]. intros (x & Hx & [_ Hne]%Hin)%list_elem_of_fmap. by rewrite Hx in Hne.
    + intros x [->|Hx]%elem_of_cons; [by split; [left|]|]. pose proof Hx as [Hin' Hne]%Hin.
      split; [by right|]. intros Hl.
      assert (ranked_node r = ranked_node x) as E; [|congruence].
      apply Z.le_antisymm; [by apply Hr|]. apply (Hlast _ r Hl). by left.
Qed.

Section dispatch.
Context `{CL : Collation}.

Lemma node_cohort_spec st now id j :
  NoDup (ranked_node <$> node_cohort st now id j)
  ∧ ∀ r, r ∈ node_cohort st now id j →
      ∃ i mi, instances st !! i = Some mi ∧ ranked_row st now id j (i, mi) = Some r.
Proof.
  unfold node_cohort.
  set (l := sort_by node_cmp (omap (ranked_row st now id j) (map_to_list (instances st)))).
  destruct (distinct_nodes_spec None l) as [Hn Hin]; [|done|].
  { assert (StronglySorted (cmp_le node_cmp) l) as Hs by apply sort_by_sorted, _.
    revert Hs. apply sorted_weaken. intros x y Hle.
    unfold cmp_le, node_cmp, cmp_then, cmp_on, then_with in Hle.
    destruct (Z.compare_spec (ranked_node x) (ranked_node y)); [lia|lia|done]. }
  split; [done|]. intros r [Hr _]%Hin.
  apply elem_of_sort_by, list_elem_of_omap in Hr as ([i mi] & Hi & Hr).
  apply elem_of_map_to_list in Hi. by exists i, mi.
Qed.

Lemma cohort_node_inj st now id j r r' :
  r ∈ node_cohort st now id j → r' ∈ node_cohort st now id j →
  ranked_node r = ranked_node r' → r = r'.
Proof.
  intros [i Hi]%list_elem_of_lookup_1 [i' Hi']%list_elem_of_lookup_1 E.
  destruct (node_cohort_spec st now id j) as [Hn _].
  assert (i = i') as ->; [|congruence].
  eapply (NoDup_lookup _ _ _ _ Hn); rewrite list_lookup_fmap; [by rewrite Hi|by rewrite Hi', E].
Qed.

(** ** The ranking *)

(** The cohort as [rank_contribution_candidates] takes it. *)
Definition contribution_candidates (name : Z → string) (cohort : list RankedRow)
    : list ContributionRoutingCandidate :=
  (λ r, mkContributionCandidate (name (ranked_node r)) (routing_score r) (recent_contribution r))
    <$> cohort.

Lemma count_candidates name (p : Z → bool) cohort :
  count_if p (contribution_candidates name cohort)
    = countb (λ r, p (recent_contribution r)) cohort.
Proof.
  unfold count_if, countb, contribution_candidates. f_equal.
  induction cohort as [|r l IH]; [done|]. simpl.
  destruct (p (recent_contribution r)); simpl; [f_equal|]; exact IH.
Qed.

Lemma best_score_candidates name cohort :
  max_base_score (contribution_candidates name cohort) = best_routing_score cohort.
Proof.
  unfold max_base_score, best_routing_score, contribution_candidates.
  by rewrite <-list_fmap_compose.
Qed.

Lemma percentile_agrees name cohort r :
  5 ≤ cohort_size cohort → r ∈ cohort →
  contribution_midrank_percentiles (contribution_candidates name cohort)
    !! recent_contribution r = sql_percentile cohort r.
Proof.
  intros Hn Hr. unfold cohort_size in Hn.
  edestruct (percentile_is_spec (contribution_candidates name cohort)
    (mkContributionCandidate (name (ranked_node r)) (routing_score r) (recent_contribution r)))
    as [E _]; [| |cbn [Routing.contribution_micro] in E; rewrite E; clear E].
  - unfold contribution_candidates. by rewrite length_fmap.
  - unfold contribution_candidates. apply list_elem_of_fmap. by exists r.
  - unfold midrank_spec, sql_percentile, CONTRIBUTION_ROUTING_PERCENTILE_SCALE, cohort_size.
    rewrite !count_candidates.
    unfold contribution_candidates. rewrite length_fmap.
    rewrite (proj2 (Z.eqb_neq _ _)) by lia. do 3 f_equal.
    assert (countb (λ r', recent_contribution r =? recent_contribution r') cohort
      = countb (λ x, recent_contribution x =? recent_contribution r) cohort) as ->; [|lia].
    unfold countb. do 2 f_equal. apply List.filter_ext. intros x. apply Z.eqb_sym.
Qed.

Lemma priority_agrees name cohort demand r :
  r ∈ cohort →
  (if contribution_enabled (contribution_candidates name cohort) demand (free_slots_total cohort)
      && within_near_best (best_routing_score cohort)
           (mkContributionCandidate (name (ranked_node r)) (routing_score r) (recent_contribution r))
   then (if contribution_enabled (contribution_candidates name cohort) demand
              (free_slots_total cohort)
         then contribution_midrank_percentiles (contribution_candidates name cohort) else ∅)
        !! recent_contribution r
   else None) = contribution_priority cohort demand r.
Proof.
  intros Hr. unfold contribution_enabled, contribution_priority, within_near_best.
  cbn [base_score]. unfold contribution_candidates at 1. rewrite length_fmap.
  fold (cohort_size cohort).
  destruct (Z.leb_spec CONTRIBUTION_ROUTING_MIN_COHORT (cohort_size cohort)) as [Hn|]; [|done].
  simpl. unfold contribution_candidates at 1. rewrite length_fmap. fold (cohort_size cohort).
  rewrite (proj2 (Z.leb_le _ _) Hn). simpl.
  destruct (free_slots_total cohort <? demand); [|done]. simpl.
  case_if; [|done]. by apply percentile_agrees.
Qed.

(** The text of an identifier sorts as the identifier does, on the cohort. *)
Definition names_ordered (name : Z → string) (cohort : list RankedRow) : Prop :=
  ∀ x y, x ∈ cohort → y ∈ cohort →
    str_cmp (name (ranked_node x)) (name (ranked_node y)) = (ranked_node x ?= ranked_node y).

(** The CHECK constraints of [node_metrics] and [receipts] the scores rest on. *)
Definition scores_checked (st : State) : Prop :=
  (∀ n m, metrics (fleet st) !! n = Some m → 0 ≤ tps_milli m)
  ∧ ∀ id r, receipts st !! id = Some r → 0 ≤ receipt_contribution_micro r.

Lemma recent_contribution_nonneg st now node :
  scores_checked st → 0 ≤ recent_node_contribution st now node.
Proof.
  intros [_ Hr]. unfold recent_node_contribution.
  assert (∀ p, p ∈ map_to_list (receipts st) → 0 ≤ receipt_contribution_micro p.2) as Hl.
  { intros [id r] Hp%elem_of_map_to_list. by eapply Hr. }
  induction (map_to_list (receipts st)) as [|p l IH]; simpl; [done|].
  assert (0 ≤ receipt_contribution_micro p.2) by (apply Hl; by left).
  assert (∀ p', p' ∈ l → 0 ≤ receipt_contribution_micro p'.2) as Hl' by (intros; apply Hl; by right).
  specialize (IH Hl'). case_if; lia.
Qed.

Lemma score_row_nonneg trust age p m active :
  (∀ m', m = Some m' → 0 ≤ tps_milli m') →
  match m ≫= metrics_coordinator_rtt_ms with None => true | Some rtt => in_range 1 1000 rtt end = true →
  0 ≤ score_row trust age p m active.
Proof.
  intros Htps Hrtt. unfold score_row.
  assert (0 ≤ trust_points trust) by (unfold trust_points; repeat case_if; lia).
  assert (0 ≤ match m ≫= metrics_coordinator_rtt_ms with
              | None => 0 | Some rtt => 1000000 - rtt * 1000 end)
    by (destruct (m ≫= metrics_coordinator_rtt_ms); [apply in_range_true in Hrtt|]; lia).
  assert (0 ≤ default 0 (tps_milli <$> m)) by (destruct m; simpl; [by apply Htps|done]).
  lia.
Qed.

Lemma cohort_nonneg st now id j r :
  scores_checked st → r ∈ node_cohort st now id j →
  0 ≤ routing_score r ∧ 0 ≤ recent_contribution r.
Proof.
  intros Hok Hr. destruct (node_cohort_spec st now id j) as [_ Hin].
  apply Hin in Hr as (i & mi & _ & Hrow). unfold ranked_row in Hrow. simpl in Hrow.
  repeat (apply bind_Some in Hrow as (? & ? & Hrow)).
  destruct (_ && _) eqn:Hc in Hrow; [|done]. injection Hrow as <-. simpl.
  rewrite !andb_true_iff in Hc. split; [|by apply recent_contribution_nonneg].
  apply score_row_nonneg; [|tauto]. intros m' Hm. destruct Hok as [Hok _]. by eapply Hok.
Qed.

Lemma candidates_valid name seen cohort :
  (∀ r, r ∈ cohort → 0 ≤ routing_score r ∧ 0 ≤ recent_contribution r
     ∧ name (ranked_node r) ∉ seen
     ∧ validate_identifier (name (ranked_node r)) "贡献路由候选 ID" = Ok tt) →
  NoDup ((name ∘ ranked_node) <$> cohort) →
  validate_contribution_candidates seen (contribution_candidates name cohort) = Ok tt.
Proof.
  revert seen. induction cohort as [|r l IH]; intros seen H Hd; [done|].
  apply NoDup_cons in Hd as [Hr Hd]. destruct (H r) as (? & ? & ? & Hv); [by left|].
  cbn -[validate_identifier]. rewrite Hv. simpl. rewrite bool_decide_false by done. simpl.
  rewrite !(proj2 (Z.ltb_ge _ _)) by done. simpl. apply IH; [|done].
  intros x Hx. destruct (H x) as (? & ? & ? & ?); [by right|]. split_and!; [done..| |done].
  apply not_elem_of_union. split; [|done]. rewrite elem_of_singleton. intros E.
  apply Hr. apply list_elem_of_fmap. by exists x.
Qed.

(** C24: among the nodes that can serve an ordinary job, the order in which the
    claim query prefers them is exactly the ranking that
    [rank_contribution_candidates] computes from their routing scores and
    recent contributions, and that accepts its input; the names of the nodes
    must be valid identifiers that sort as the nodes do. *)
Theorem dispatch_order_is_contribution_ranking name st now id j :
  speed_class (submission j) = "standard" → scores_checked st →
  names_ordered name (node_cohort st now id j) →
  (∀ r, r ∈ node_cohort st now id j →
     validate_identifier (name (ranked_node r)) "贡献路由候选 ID" = Ok tt) →
  ∃ ranked,
    rank_contribution_candidates (contribution_candidates name (node_cohort st now id j))
      (ready_demand st now j) (free_slots_total (node_cohort st now id j)) = Ok ranked
    ∧ (λ r, (name (ranked_node r), routing_score r, recent_contribution r))
        <$> prioritized st now id j
      = (λ x, (ranked_id x, ranked_base_score x, ranked_contribution_micro x)) <$> ranked.
Proof.
  intros Hspeed Hok Hnames Hvalid.
  assert (validate_contribution_candidates ∅
    (contribution_candidates name (node_cohort st now id j)) = Ok tt) as Hv.
  { apply candidates_valid.
    - intros r Hr. destruct (cohort_nonneg st now id j r Hok Hr). split_and!; [done..|set_solver|auto].
    - destruct (node_cohort_spec st now id j) as [Hd _]. rewrite list_fmap_compose.
      apply NoDup_fmap_2_strong; [|done]. intros a b.
      intros (x & -> & Hx)%list_elem_of_fmap (y & -> & Hy)%list_elem_of_fmap E.
      apply Z.compare_eq. rewrite <-(Hnames x y Hx Hy), E. apply (cmp_refl str_cmp). }
  unfold rank_contribution_candidates. rewrite Hv. simpl. eexists. split; [done|].
  rewrite best_score_candidates. unfold prioritized. rewrite Hspeed.
  pose proof (cohort_node_inj st now id j) as Hinj.
  set (cohort := node_cohort st now id j) in *. set (demand := ready_demand st now j).
  set (row := λ r, mkRanked (name (ranked_node r)) (routing_score r) (recent_contribution r)
    (contribution_priority cohort demand r)).
  assert (∀ f, rank_candidate (contribution_enabled (contribution_candidates name cohort) demand
      (free_slots_total cohort)) (best_routing_score cohort) f
      <$> contribution_candidates name cohort
    = (λ r, rank_candidate (contribution_enabled (contribution_candidates name cohort) demand
      (free_slots_total cohort)) (best_routing_score cohort) f
      (mkContributionCandidate (name (ranked_node r)) (routing_score r) (recent_contribution r)))
      <$> cohort) as -> by (intros; unfold contribution_candidates; by rewrite <-list_fmap_compose).
  rewrite (list_fmap_ext _ row cohort); [|intros k r Hr%list_elem_of_lookup_2;
    unfold rank_candidate, row; f_equal; by apply priority_agrees].
  rewrite (sort_by_fmap (prioritized_cmp "standard" cohort demand) ranked_cmp row).
  - by rewrite <-list_fmap_compose.
  - intros x y Hx Hy. unfold ranked_cmp, prioritized_cmp, cmp_then, cmp_rev, cmp_on, desc_when,
      node_cmp. cbn [ranked_id ranked_base_score contribution_percentile_ppm row String.eqb].
    unfold cmp_then, cmp_rev, cmp_on, row. simpl.
    rewrite Hnames by done.
    destruct (option_cmp Z.compare (contribution_priority cohort demand y)
      (contribution_priority cohort demand x)); [|done..].
    destruct (routing_score y ?= routing_score x); [|done..]. simpl.
    destruct (Z.compare_spec (ranked_node x) (ranked_node y)) as [E| |]; [|done..]. simpl.
    rewrite (Hinj x y Hx Hy E). by rewrite Z.compare_refl.
Qed.

(** ** The job that is handed out *)

Lemma candidate_spec st now node instance id j :
  candidate st now node instance = Some (id, j) →
  jobs st !! id = Some j ∧ offered st now node instance (id, j) = true
  ∧ ∀ q, jobs st !! q.1 = Some q.2 → offered st now node instance q = true →
      cmp_le queue_cmp (id, j) q.
Proof.
  unfold candidate. intros H.
  destruct (sort_by queue_cmp _) as [|p l] eqn:E; [done|]. injection H as ->.
  apply sort_by_head in E as [Hp Hmin]; [|apply _].
  apply list_elem_of_In, filter_In in Hp as [Hp%list_elem_of_In Ho].
  apply elem_of_map_to_list in Hp. split_and!; [done..|]. intros [i q] Hq Hoq.
  apply Hmin. apply list_elem_of_In, filter_In. split; [|done].
  apply list_elem_of_In. by apply elem_of_map_to_list.
Qed.

Lemma offered_spec st now node instance id j :
  offered st now node instance (id, j) = true →
  ready now j = true
  ∧ (∃ m, models st !! model_id j = Some m ∧ enabled m = true)
  ∧ ∃ mi r, instances st !! instance = Some mi ∧ instance_node mi = node
      ∧ ranked_row st now id j (instance, mi) = Some r
      ∧ head (prioritized st now id j) = Some r.
Proof.
  unfold offered. cbn [fst snd]. rewrite !andb_true_iff. intros ((Hr & Hm) & Hp). split; [done|].
  destruct (models st !! model_id j) as [m|]; [|done]. split; [by exists m|].
  destruct (prioritized st now id j) as [|r l] eqn:E; [done|].
  apply andb_true_iff in Hp as [Hn%Z.eqb_eq Hi%Z.eqb_eq].
  assert (r ∈ node_cohort st now id j) as Hin
    by (apply (elem_of_sort_by (prioritized_cmp (speed_class (submission j))
          (node_cohort st now id j) (ready_demand st now j)));
        unfold prioritized in E; rewrite E; by left).
  destruct (node_cohort_spec st now id j) as [_ Hc]. apply Hc in Hin as (i & mi & Hmi & Hrow).
  pose proof Hrow as Hrow'. unfold ranked_row in Hrow'. cbn [fst snd] in Hrow'.
  repeat (apply bind_Some in Hrow' as (? & ? & Hrow')).
  destruct (_ && _) in Hrow'; [|done]. injection Hrow' as <-. simpl in *. subst.
  by exists mi; eexists.
Qed.

Lemma load_spec speed p load :
  load_allows speed p load = true →
  (speed = "slow" ∧ load < policy_max_concurrent p) ∨ (speed ≠ "slow" ∧ load = 0).
Proof.
  unfold load_allows. rewrite orb_true_iff, !andb_true_iff. intros [[H%String.eqb_eq H']|[H H']].
  - left. split; [done|lia].
  - right. split; [|lia]. intros ->. simpl in H. done.
Qed.

Lemma active_count_nonneg st now id node : 0 ≤ active_count st now id node.
Proof. unfold active_count, countb. lia. Qed.

(** a worker is only given a job that waits for one and has attempts left,
    by an enabled model, on one of its own published and unquarantined
    instances of that model, while it is online and was seen in the last 90
    seconds; the job has no tag the node rejects; unless its class is slow
    nothing else occupies the node; a regulated job goes only to the node and
    instance it is bound to, under a verified and unexpired report; and no
    other job offered to the worker comes earlier in the queue. *)
Theorem claimed_job_may_be_served st now node instance id j :
  candidate st now node instance = Some (id, j) →
  jobs st !! id = Some j
  ∧ (status j = Queued ∨ status j = Retry
     ∨ status j = Leased ∧ ∃ t, lease_expires_at j = Some t ∧ t ≤ now)
  ∧ available_at j ≤ now ∧ attempt_count j < max_attempts (submission j)
  ∧ (∃ m, models st !! model_id j = Some m ∧ enabled m = true)
  ∧ (∃ mi, instances st !! instance = Some mi ∧ instance_node mi = node
      ∧ instance_model mi = model_id j ∧ instance_status mi = Published
      ∧ instance ∉ quarantined st)
  ∧ (∃ n p seen, nodes st !! node = Some n ∧ policies (fleet st) !! node = Some p
      ∧ node_status n = "online" ∧ last_seen_at n = Some seen ∧ now - LIVENESS_MICROS < seen
      ∧ (∀ a b, a ∈ job_tags (submission j) → b ∈ policy_reject_tags p →
           sql_lower a ≠ sql_lower b)
      ∧ (speed_class (submission j) ≠ "slow" → active_count st now id node = 0)
      ∧ (speed_class (submission j) = "slow" →
           active_count st now id node < policy_max_concurrent p))
  ∧ (confidentiality_mode j ≠ "standard" →
      model_instance_id j = Some instance ∧ regulated_node_id j = Some node
      ∧ report_vouches st now j node instance = true)
  ∧ (∀ q, jobs st !! q.1 = Some q.2 → offered st now node instance q = true →
      cmp_le queue_cmp (id, j) q).
Proof.
  intros (Hj & Ho & Hmin)%candidate_spec. split; [done|].
  apply offered_spec in Ho as (Hready & Hm & mi & r & Hmi & Hnode & Hrow & _).
  unfold ready in Hready. rewrite !andb_true_iff, Z.leb_le, Z.ltb_lt in Hready.
  destruct Hready as [[Hs Hav] Hat].
  unfold ranked_row in Hrow. cbn [fst snd] in Hrow. rewrite Hnode in Hrow.
  apply bind_Some in Hrow as (n & Hn & Hrow). apply bind_Some in Hrow as (p & Hp & Hrow).
  apply bind_Some in Hrow as (seen & Hseen & Hrow). cbv zeta in Hrow.
  destruct (_ && _) eqn:Hc in Hrow; [clear Hrow|done].
  rewrite !andb_true_iff in Hc.
  destruct Hc as (((((((((Hmodel & Hpub) & Hq) & Hon) & Hlive) & _) & Hserve) & Htags) & Hload) & _).
  apply Z.eqb_eq in Hmodel. apply bool_decide_eq_true in Hpub. apply String.eqb_eq in Hon.
  apply Z.ltb_lt in Hlive. unfold instance_canary_quarantined in Hq.
  apply negb_true_iff in Hq, Htags. apply bool_decide_eq_false in Hq.
  split; [|split; [done|split; [done|split; [done|split; [|split; [|split; [|done]]]]]]].
  - destruct (status j); try done; auto. right; right. split; [done|].
    destruct (lease_expires_at j) as [t|]; [|done]. exists t. split; [done|]. by apply Z.leb_le.
  - by exists mi.
  - exists n, p, seen. split_and!; try done.
    + intros a b Ha Hb E. apply not_true_iff_false in Htags. apply Htags.
      apply existsb_exists. exists a. split; [by apply list_elem_of_In|].
      apply existsb_exists. exists b. split; [by apply list_elem_of_In|].
      rewrite E. apply String.eqb_refl.
    + intros Hslow. apply load_spec in Hload as [[? _]|[_ Hl]]; [done|].
      pose proof (active_count_nonneg st now id node). lia.
    + intros Hslow. apply load_spec in Hload as [[_ Hl]|[? _]]; [lia|done].
  - intros Hstd. unfold may_serve in Hserve. apply orb_true_iff in Hserve as [E|Hserve].
    { by apply String.eqb_eq in E. }
    rewrite !andb_true_iff, !bool_decide_eq_true in Hserve. tauto.
Qed.
End dispatch.
