(* ===== verification/JobOps.v ===== *)
(** * Job leases: crates/mindone-coordinator/src/routes/jobs.rs and openai_gateway.rs

    The transactions that move a job between its states: claiming, renewing,
    reporting a failure, reaping what nobody will finish, and cancelling a job
    its gateway client stopped waiting for.  A handler is a function of the
    database that returns its answer and the state it commits; an error rolls
    back.  Its database statements carry the constraints of the tables. *)
From S2P Require Import Prelude Text Float64 Fixed Policy Routing Billing Ledger Net AntiAbuse StandardData Hardware Fingerprint Store Envelope Api Snapshot Tables Lease Postings Complete Requests Dispatch.

From Stdlib Require Import Ascii.

Local Open Scope string_scope.
Local Open Scope list_scope.
Local Open Scope Z_scope.

(** An authenticated caller, and the configuration the routes read. *)
Record Principal : Type := mkPrincipal {
  principal_user_id : Z;
  session_id : Z;
  device_key_id_of : Z;
}.

Record Config : Type := mkConfig {
  standard_data_key : string;
  token_pepper : string;
  lease_duration_secs : Z;
  max_job_retries : Z;
  production : bool;
}.

(** ** Columns and wire values *)

Definition job_error_class_key (error_class : JobErrorClass) : string :=
  match error_class with
  | Engine => "engine"
  | Model => "model"
  | Requests.Policy => "policy"
  | Timeout => "timeout"
  | ResourceExhausted => "resource_exhausted"
  | NodeDisconnected => "node_disconnected"
  | InvalidRequest => "invalid_request"
  | Internal => "internal"
  | Attestation => "attestation"
  end.

Definition error_class_of_key (value : string) : JobErrorClass :=
  if String.eqb value "engine" then Engine
  else if String.eqb value "model" then Model
  else if String.eqb value "policy" then Requests.Policy
  else if existsb (String.eqb value) ["timeout"; "lease_expired"] then Timeout
  else if String.eqb value "resource_exhausted" then ResourceExhausted
  else if String.eqb value "node_disconnected" then NodeDisconnected
  else if String.eqb value "invalid_request" then InvalidRequest
  else if String.eqb value "internal" then Internal
  else if String.eqb value "attestation" then Attestation
  else Internal.

Definition stable_job_error_class (value : option string) : option JobErrorClass :=
  error_class_of_key <$> value.

Definition payload_encoding_from_db (value : string) : ApiResult PayloadEncoding :=
  if String.eqb value "base64" then Ok Base64
  else if String.eqb value "base64url" then Ok Base64Url
  else if String.eqb value "regulated_aead_v1" then Ok RegulatedAeadV1
  else Err internal.

Definition confidentiality_from_db (value : string) : ApiResult ConfidentialityMode :=
  if String.eqb value "standard" then Ok Requests.Standard
  else if String.eqb value "regulated" then Ok Regulated
  else Err internal.

Inductive AttestationProvider : Type := AmdSevSnp | IntelTdx.

Definition attestation_provider_from_db (value : string) : ApiResult AttestationProvider :=
  if String.eqb value "amd_sev_snp" then Ok AmdSevSnp
  else if String.eqb value "intel_tdx" then Ok IntelTdx
  else Err internal.

(** The text of [jobs.status] and its reading. *)
Definition job_status_text (s : JobStatus) : string :=
  match s with
  | Queued => "queued" | Leased => "leased" | Retry => "retry"
  | Succeeded => "succeeded" | Failed => "failed" | Cancelled => "cancelled"
  end.

Definition job_status_from_db (value : string) : ApiResult JobStatus :=
  if String.eqb value "queued" then Ok Queued
  else if String.eqb value "retry" then Ok Retry
  else if String.eqb value "leased" then Ok Leased
  else if String.eqb value "succeeded" then Ok Succeeded
  else if String.eqb value "failed" then Ok Failed
  else if String.eqb value "cancelled" then Ok Cancelled
  else Err internal.

(** ** Device binding: device_binding.rs *)

Definition require_node_device_binding (principal : Principal) (node_user_id : Z)
    (node_device_key_id : option Z) : ApiResult () :=
  bail_if (negb (node_user_id =? principal_user_id principal)
           || negb (bool_decide (node_device_key_id = Some (device_key_id_of principal))))
    (forbidden "当前设备无权操作此节点").

Definition exact_claim_device_binding (principal : Principal) (claimed_user_id : option Z)
    (claimed_device_key_id binding_version : option Z) : bool :=
  bool_decide (claimed_user_id = Some (principal_user_id principal))
  && bool_decide (claimed_device_key_id = Some (device_key_id_of principal))
  && bool_decide (binding_version = Some DEVICE_BINDING_VERSION).

(** ** Time *)

(** [OffsetDateTime::checked_add]: nanoseconds within years -9999 to 9999. *)
Definition datetime_checked_add (t nanos : Z) : option Z :=
  checked (in_range (-377705116800000000000) 253402300799999999999) (t + nanos).

Definition NANOS_PER_SECOND : Z := 1000000000.

(** A [timestamptz] column holds microseconds. *)
Definition to_timestamp (nanos : Z) : Z := nanos / 1000.

Definition expiry (duration_secs now_utc : Z) : ApiResult Z :=
  seconds ← or_internal (i64_try_from duration_secs);
  or_internal (datetime_checked_add now_utc (seconds * NANOS_PER_SECOND)).

(** ** Statements *)

(** [UPDATE jobs SET ... WHERE id = $1]. *)
Definition update_job (st : State) (id : Z) (f : JobRow → JobRow) : State :=
  with_jobs st (alter f id (jobs st)).

(** [UPDATE quota_accounts SET reserved_micro = reserved_micro - $2 WHERE user_id = $1 AND
    reserved_micro >= $2], which must have changed one row. *)
Definition release_reservation (st : State) (user amount : Z) : ApiResult State :=
  b ← update_reserved (books st) user (- amount) (λ a, amount <=? reserved_micro a);
  Ok (with_books st b).

(** The CHECK constraint [job_attempts_claim_device_binding_v1] of migration 0030. *)
Definition attempt_check (a : AttemptRow) : bool :=
  bool_decide (claim_device_binding_version a = Some 1)
  && bool_decide (is_Some (claim_device_key_id a)).

(** Another attempt of the job already has the result key. *)
Definition result_key_taken (st : State) (id number : Z) (key : option string) : bool :=
  bool_decide (is_Some key)
  && existsb (λ p, (p.1.1 =? id) && negb (p.1.2 =? number)
                   && bool_decide (attempt_result_key p.2 = key)) (map_to_list (attempts st)).

(** [UPDATE job_attempts SET ... WHERE job_id = $1 AND attempt_number = $2 AND status =
    'leased'] with the constraints of the row. *)
Definition update_leased_attempt (st : State) (id number : Z) (f : AttemptRow → AttemptRow)
    : ApiResult State :=
  match attempts st !! (id, number) with
  | Some a =>
    if bool_decide (attempt_status a = AttemptLeased) then
      _ ← require_internal (attempt_check (f a)
        && negb (result_key_taken st id number (attempt_result_key (f a))));
      Ok (with_attempts st (<[(id, number) := f a]> (attempts st)))
    else Ok st
  | None => Ok st
  end.

(** [INSERT INTO job_attempts] with its keys, its CHECKs and the foreign key to
    the node's device. *)
Definition insert_attempt (st : State) (id number : Z) (a : AttemptRow) : ApiResult State :=
  _ ← require_internal (bool_decide (attempts st !! (id, number) = None) && (0 <? number)
    && attempt_check a && negb (result_key_taken st id number (attempt_result_key a)));
  n ← or_internal (nodes st !! attempt_node a);
  _ ← require_internal (bool_decide (claim_device_key_id a = device_key_id n));
  Ok (with_attempts st (<[(id, number) := a]> (attempts st))).

(** A transaction: what it answers, or the error that rolls it back. *)
Definition transaction {A} (st : State) (body : ApiResult (ApiResult A * State))
    : ApiResult A * State :=
  match body with Ok (answer, st') => (answer, st') | Err e => (Err e, st) end.

(** ** Reaping *)

(** [ORDER BY user_id, id LIMIT 100]. *)
Definition REAP_LIMIT : nat := 100.
Definition reap_cmp : Z * JobRow → Z * JobRow → comparison :=
  cmp_then (cmp_on (λ p, user_id p.2) Z.compare) (cmp_on fst Z.compare).
Definition reap_select (st : State) (p : Z * JobRow → bool) : list (Z * JobRow) :=
  take REAP_LIMIT (sort_by reap_cmp (List.filter p (map_to_list (jobs st)))).

(** A lease that ran out on the last attempt. *)
Definition terminal_lease (now : Z) (j : JobRow) : bool :=
  bool_decide (status j = Leased) && sql_is (lease_expires_at j) (λ t, t <=? now)
  && (max_attempts (submission j) <=? attempt_count j).

(** The body of the loop. *)
Definition expire_terminal_lease (now : Z) (st : State) (p : Z * JobRow) : ApiResult State :=
  st ← release_reservation st (user_id p.2) (reserved_cost_micro p.2);
  st ← update_leased_attempt st p.1 (attempt_count p.2)
    (λ a, attempt_outcome a AttemptExpired (Some now) (Some "timeout")
       (Some "租约过期且已达到最大尝试次数") (retryable_requested a) (attempt_result_key a));
  let st := update_job st p.1 (λ j, job_failed j now) in
  Ok (finalize_draining_instance st now (model_instance_id p.2)).

(** The last statement: every draining instance without work is unpublished. *)
Definition unpublish_drained (st : State) (now : Z) : State :=
  with_instances st (map_imap (λ i row,
    Some (if bool_decide (instance_status row = Draining) && negb (instance_leased st i)
             && negb (challenge_held st i)
          then instance_unpublished row now else row)) (instances st)).

Definition reap_expired_terminal_leases (st : State) (now : Z) : ApiResult State :=
  st ← fold_each (expire_terminal_lease now) st (reap_select st (λ p, terminal_lease now p.2));
  Ok (unpublish_drained st now).

(** A regulated job that waits for hardware that no longer vouches for it. *)
Definition binding_lost (st : State) (now : Z) (j : JobRow) : bool :=
  default false (
    node ← regulated_node_id j;
    n ← nodes st !! node;
    instance ← model_instance_id j;
    mi ← instances st !! instance;
    report ← attestation_report_id j;
    ar ← reports st !! report;
    Some (String.eqb (confidentiality_mode j) "regulated"
      && bool_decide (status j = Queued ∨ status j = Retry)
      && (negb (String.eqb (node_status n) "online")
          || sql_is (last_seen_at n) (λ t, t <=? now - LIVENESS_MICROS)
          || negb (bool_decide (node_attestation_report n = attestation_report_id j))
          || sql_is (trust_expires_at n) (λ t, t <=? now)
          || negb (bool_decide (instance_status mi = Published))
          || negb (instance_node mi =? node)
          || negb (String.eqb (report_status ar) "verified")
          || negb (String.eqb (key_origin ar) "tee_runtime")
          || (expires_at ar <=? now)
          || sql_is (collateral_expires_at ar) (λ t, t <=? now)))).

Definition i32_saturating_inc (n : Z) : Z := i32_saturating_add n 1.

(** The body of the loop; the INSERT names no device columns. *)
Definition fail_unbound_job (now : Z) (st : State) (p : Z * JobRow) : ApiResult State :=
  node ← or_internal (regulated_node_id p.2);
  let attempt_number := i32_saturating_inc (attempt_count p.2) in
  st ← release_reservation st (user_id p.2) (reserved_cost_micro p.2);
  st ← insert_attempt st p.1 attempt_number
    (mkAttempt node None None AttemptFailed (Some now) (Some "attestation")
       (Some "Regulated route 的硬件报告或固定节点绑定已失效") None None now now);
  let st := update_job st p.1 (λ j, job_lease j Failed (leased_to_node_id j)
    (model_instance_id j) (lease_expires_at j) attempt_number (Some now) (available_at j)) in
  Ok (finalize_draining_instance st now (model_instance_id p.2)).

Definition reap_invalid_regulated_jobs (st : State) (now : Z) : ApiResult State :=
  fold_each (fail_unbound_job now) st (reap_select st (λ p, binding_lost st now p.2)).

(** ** The node's own policy *)

(** The leases the node holds, without the job that is being renewed. *)
Definition active_leases (st : State) (now node : Z) (excluded : option Z) : Z :=
  countb (λ p, bool_decide (leased_to_node_id p.2 = Some node) && bool_decide (status p.2 = Leased)
               && sql_is (lease_expires_at p.2) (λ t, now <? t)
               && negb (bool_decide (excluded = Some p.1))) (map_to_list (jobs st))
  + countb (λ p, (challenge_node p.2 =? node) && challenge_leased p.2
                 && (now <? challenge_lease_expires_at p.2)
                 && negb (bool_decide (excluded = Some p.1))) (map_to_list (challenges st)).

(** The text of a [String] under [Debug]: quotes and backslashes are escaped. *)
Fixpoint debug_escape (s : string) : string :=
  match s with
  | EmptyString => ""
  | String a s' =>
    let v := Z.of_N (N_of_ascii a) in
    if (v =? 34) || (v =? 92)
    then String (ascii_of_N 92) (String a (debug_escape s'))
    else String a (debug_escape s')
  end.
Definition quote_mark : string := String (ascii_of_N 34) EmptyString.
Definition debug_metric (m : ResourceMetric) : string :=
  match m with GpuTemperature => "GpuTemperature" | AvailableVram => "AvailableVram" end.
Definition debug_rejection (r : PolicyRejection) : string :=
  match r with
  | RejectedTag tag => "RejectedTag { tag: " +:+ quote_mark +:+ debug_escape tag +:+ quote_mark +:+ " }"
  | MaximumConcurrency current maximum =>
    "MaximumConcurrency { current: " +:+ dec current +:+ ", maximum: " +:+ dec maximum +:+ " }"
  | InsufficientVram available reserved =>
    "InsufficientVram { available_mib: " +:+ dec available +:+ ", reserved_mib: "
      +:+ dec reserved +:+ " }"
  | MetricUnavailable m => "MetricUnavailable { metric: " +:+ debug_metric m +:+ " }"
  | InvalidMetric m => "InvalidMetric { metric: " +:+ debug_metric m +:+ " }"
  end.

(** [try_from] on an optional column. *)
Definition option_try {A} (f : Z → option A) (o : option Z) : ApiResult (option A) :=
  match o with None => Ok None | Some z => a ← or_internal (f z); Ok (Some a) end.

Definition accounting_policy (p : PolicyRow) : ApiResult NodePolicy :=
  concurrent ← or_internal (u32_try_from (policy_max_concurrent p));
  limit ← option_try u16_try_from (policy_gpu_temp_limit_c p);
  reserve ← or_internal (u64_try_from (policy_vram_reserve_mib p));
  Ok (mkNodePolicy (list_to_set (policy_reject_tags p)) concurrent limit reserve 5).

Definition available_vram (m : MetricsRow) : option Z :=
  used ← vram_used_mib m; total ← vram_total_mib m;
  u64_try_from (i64_saturating_sub total used).

Definition node_runtime (m : option MetricsRow) (task_tags : list string) (active : Z)
    : ApiResult NodeRuntime :=
  concurrent ← or_internal (u32_try_from active);
  Ok (mkNodeRuntime (list_to_set task_tags) concurrent
    (f64_of_Z <$> (m ≫= metrics_gpu_temp_c)) (m ≫= available_vram) false).

Definition enforce_current_policy (st : State) (now node : Z) (policy : PolicyRow)
    (excluded_job_id : option Z) (task_tags : list string) : ApiResult () :=
  let active := active_leases st now node excluded_job_id in
  accounting ← accounting_policy policy;
  runtime ← node_runtime (metrics (fleet st) !! node) task_tags active;
  decision ← map_err (λ _, internal) (evaluate_policy accounting runtime);
  match decision with
  | Accept _ => Ok tt
  | PauseTemperature _ _ => Err (policy_rejected "GPU 温度达到节点阈值")
  | Reject reason => Err (policy_rejected ("节点策略拒绝：" +:+ debug_rejection reason))
  end.

(** The node with its policy, bound to the caller's device. *)
Definition bound_node (st : State) (principal : Principal) (node : Z)
    : ApiResult (NodeRow * PolicyRow) :=
  row ← ok_or (n ← nodes st !! node; p ← policies (fleet st) !! node; Some (n, p))
    (not_found "节点");
  _ ← require_node_device_binding principal (node_owner row.1) (device_key_id row.1);
  Ok row.

(** ** Claiming *)

Record ClaimJobRequest : Type := mkClaim { claim_node_id : Z; claim_instance_id : Z }.

Record ClaimJobResponse : Type := mkClaimResponse {
  claimed_job_id : Z;
  claimed_instance_id : Z;
  claimed_model : string;
  claimed_model_hash : string;
  claimed_payload : string;
  claimed_encoding : PayloadEncoding;
  claimed_tags : list string;
  claimed_input_tokens : Z;
  claimed_max_output_tokens : Z;
  claimed_attempt : Z;
  claimed_lease_expires_at : Z;
  claimed_confidentiality : ConfidentialityMode;
  claimed_route_id : option Z;
  claimed_report_id : option Z;
  claimed_provider : option AttestationProvider;
  claimed_tee_public_key : option string;
}.

Section leases.
Context `{CL : Collation, C : Crypto}.
Context (cfg : Config).

(** The payload the worker receives: a Standard payload leaves the storage
    envelope, a regulated one is opaque. *)
Definition payload_for_worker (id : Z) (j : JobRow) : ApiResult string :=
  let s := submission j in
  if String.eqb (confidentiality_mode j) "standard" then
    _ ← bail_if (negb (bool_decide
        (standard_payload_storage_version s = Some STORAGE_VERSION))) internal;
    map_err (λ _, internal)
      (decrypt_from_storage (standard_data_key cfg) id Payload (encrypted_payload s))
  else Ok (encrypted_payload s).

Definition claim_response (st : State) (id : Z) (j : JobRow) (m : ModelRow)
    (instance attempt expires : Z) (payload : string) : ApiResult ClaimJobResponse :=
  let report := (id ← attestation_report_id j; reports st !! id) in
  encoding ← payload_encoding_from_db (payload_encoding (submission j));
  confidentiality ← confidentiality_from_db (confidentiality_mode j);
  provider ← match report with
    | None => Ok None
    | Some ar => p ← attestation_provider_from_db (report_provider ar); Ok (Some p)
    end;
  Ok (mkClaimResponse id instance (model_name m) (weights_hash m) payload encoding
    (job_tags (submission j)) (estimated_input_tokens j) (max_output_tokens j) attempt expires
    confidentiality (regulated_route_id j) (attestation_report_id j) provider
    (report ≫= ephemeral_public_key)).

(** From the candidate to its lease; [None] when the instance was quarantined
    or stopped publishing in the meantime. *)
Definition lease_candidate (st : State) (tx : Tx) (principal : Principal)
    (request : ClaimJobRequest) (policy : PolicyRow) (id : Z) (j : JobRow)
    : ApiResult (option ClaimJobResponse * State) :=
  let node := claim_node_id request in
  let instance := claim_instance_id request in
  let now := tx_now tx in
  _ ← enforce_current_policy st now node policy None (job_tags (submission j));
  let previous_attempt := attempt_count j in
  st ← (if 0 <? previous_attempt
        then update_leased_attempt st id previous_attempt
          (λ a, attempt_outcome a AttemptExpired (Some now) (error_class a)
             (attempt_error_message a) (retryable_requested a) (attempt_result_key a))
        else Ok st);
  let attempt := i32_saturating_inc previous_attempt in
  lease_expires_at ← expiry (lease_duration_secs cfg) (now_utc tx 0%nat);
  if instance_canary_quarantined st instance then Ok (None, st)
  else match instances st !! instance with
  | None => Ok (None, st)
  | Some mi =>
    if negb (bool_decide (instance_status mi = Published)) then Ok (None, st)
    else
      let expires := to_timestamp lease_expires_at in
      let st := update_job st id (λ j, job_leased j node instance expires attempt) in
      st ← insert_attempt st id attempt
        (mkAttempt node (Some DEVICE_BINDING_VERSION) (Some (device_key_id_of principal))
           AttemptLeased None None None None None now expires);
      payload ← payload_for_worker id j;
      m ← or_internal (models st !! model_id j);
      response ← claim_response st id j m instance attempt lease_expires_at payload;
      Ok (Some response, st)
  end.

(** [claim_job] when no hidden evaluation is drawn; [None] is 204 No Content. *)
Definition claim_job (st : State) (tx : Tx) (principal : Principal) (request : ClaimJobRequest)
    : ApiResult (option ClaimJobResponse) * State :=
  transaction st (
    let now := tx_now tx in
    let node := claim_node_id request in
    '(n, policy) ← bound_node st principal node;
    _ ← bail_if (negb (String.eqb (node_status n) "online"))
      (policy_rejected "节点当前未处于在线接单状态");
    st ← reap_expired_terminal_leases st now;
    st ← reap_invalid_regulated_jobs st now;
    _ ← enforce_current_policy st now node policy None [];
    match candidate st now node (claim_instance_id request) with
    | None => Ok (Ok None, st)
    | Some (id, j) =>
      '(response, st) ← lease_candidate st tx principal request policy id j;
      Ok (Ok response, st)
    end).

(** ** Renewing *)

Definition lease_not_renewable : ApiError :=
  conflict "lease_not_renewable" "任务租约不存在、已过期或不属于当前节点".

(** The leased job with its current attempt. *)
Definition renewable (st : State) (now id node : Z) : option (JobRow * AttemptRow) :=
  j ← jobs st !! id;
  a ← attempts st !! (id, attempt_count j);
  if bool_decide (leased_to_node_id j = Some node) && bool_decide (status j = Leased)
     && sql_is (lease_expires_at j) (λ t, now <? t)
  then Some (j, a) else None.

(** [UPDATE job_attempts SET lease_expires_at = $2 WHERE job_id = $1 AND status =
    'leased'], over all attempts of the job. *)
Definition renew_attempts (st : State) (id expires : Z) : ApiResult State :=
  let renewed (p : (Z * Z) * AttemptRow) :=
    (p.1.1 =? id) && bool_decide (attempt_status p.2 = AttemptLeased) in
  _ ← require_internal (forallb (λ p, negb (renewed p) || attempt_check p.2)
    (map_to_list (attempts st)));
  Ok (with_attempts st (map_imap (λ k a,
    Some (if renewed (k, a)
          then mkAttempt (attempt_node a) (claim_device_binding_version a)
            (claim_device_key_id a) (attempt_status a) (finished_at a) (error_class a)
            (attempt_error_message a) (retryable_requested a) (attempt_result_key a)
            (lease_started_at a) expires
          else a)) (attempts st))).

(** [renew_job] of an ordinary job: the new end of the lease. *)
Definition renew_job (st : State) (tx : Tx) (principal : Principal) (id node : Z)
    : ApiResult Z * State :=
  transaction st (
    let now := tx_now tx in
    '(n, policy) ← bound_node st principal node;
    _ ← bail_if (negb (existsb (String.eqb (node_status n)) ["online"; "paused"; "draining"]))
      (policy_rejected "节点策略当前暂停执行");
    '(j, a) ← ok_or (renewable st now id node) lease_not_renewable;
    _ ← bail_if (negb (exact_claim_device_binding principal (Some (principal_user_id principal))
        (claim_device_key_id a) (claim_device_binding_version a))) lease_not_renewable;
    if String.eqb (confidentiality_mode j) "regulated"
       && negb (regulated_lease_binding_valid st now id node)
    then
      st ← fail_regulated_lease_attestation st now id
        "Regulated 续租时硬件报告、固定节点或模型绑定已失效";
      Ok (Err (attestation_failed
        "Regulated 硬件信任已失效；任务已终止、reservation 已释放且未计费"), st)
    else
      _ ← enforce_current_policy st now node policy (Some id) (job_tags (submission j));
      lease_expires_at ← expiry (lease_duration_secs cfg) (now_utc tx 0%nat);
      let expires := to_timestamp lease_expires_at in
      let st := update_job st id (λ j, job_renewed j expires) in
      st ← renew_attempts st id expires;
      Ok (Ok lease_expires_at, st)).
End leases.

(** ** Reading *)

(** What [get_job] answers, without the bookkeeping columns. *)
Record JobStatusView : Type := mkStatusView {
  view_status : JobStatus;
  view_model_id : Z;
  view_instance_id : option Z;
  view_leased_to : option Z;
  view_attempt_count : Z;
  view_max_attempts : Z;
  view_input_tokens : option Z;
  view_output_tokens : option Z;
  view_result : option string;
  view_error_class : option JobErrorClass;
  view_error_message : option string;
  view_receipt_id : option Z;
}.

(** The attempt with the largest number. *)
Definition latest_attempt (st : State) (id : Z) : option AttemptRow :=
  p ← head (sort_by (cmp_rev (cmp_on (λ p, p.1.2) Z.compare))
    (List.filter (λ p, p.1.1 =? id) (map_to_list (attempts st))));
  Some p.2.

(** The result, for the consumer alone. *)
Definition result_for_consumer `{C : Crypto} (cfg : Config) (id : Z) (j : JobRow)
    : ApiResult (option string) :=
  if String.eqb (confidentiality_mode j) "standard" then
    match result_ciphertext j with
    | Some stored =>
      _ ← bail_if (negb (bool_decide
          (standard_result_storage_version j = Some STORAGE_VERSION))) internal;
      plaintext ← map_err (λ _, internal)
        (decrypt_from_storage (standard_data_key cfg) id StandardData.Result stored);
      Ok (Some plaintext)
    | None => Ok None
    end
  else Ok (result_ciphertext j).

(** [get_job] of an ordinary job. *)
Definition get_job `{C : Crypto} (cfg : Config) (st : State) (tx : Tx) (principal : Principal)
    (id : Z) : ApiResult JobStatusView * State :=
  transaction st (
    st ← reap_expired_terminal_leases st (tx_now tx);
    st ← reap_invalid_regulated_jobs st (tx_now tx);
    j ← ok_or (jobs st !! id) (not_found "任务");
    let consumer := user_id j =? principal_user_id principal in
    let worker := bool_decide ((node ← leased_to_node_id j; node_owner <$> nodes st !! node)
      = Some (principal_user_id principal)) in
    _ ← bail_if (negb consumer && negb worker) (forbidden "无权查看此任务");
    result ← (if consumer then result_for_consumer cfg id j else Ok None);
    let last := latest_attempt st id in
    Ok (Ok (mkStatusView (status j) (model_id j) (model_instance_id j) (leased_to_node_id j)
      (attempt_count j) (max_attempts (submission j)) (actual_input_tokens j)
      (actual_output_tokens j) result (stable_job_error_class (last ≫= error_class))
      (last ≫= attempt_error_message) (receipt_id <$> receipts st !! id)), st)).

(** ** Failing *)

Record JobFailResponse : Type := mkFailResponse {
  failed_job_id : Z;
  accepted : bool;
  fail_idempotent_replay : bool;
}.

(** [verify_node_owner]. *)
Definition verify_node_owner (st : State) (principal : Principal) (node : Z) : ApiResult () :=
  n ← ok_or (nodes st !! node) (not_found "节点");
  require_node_device_binding principal (node_owner n) (device_key_id n).

(** The attempt that already carries the idempotency key, with its node. *)
Definition reported_attempt (st : State) (id : Z) (key : string) : option (AttemptRow * NodeRow) :=
  p ← head (List.filter (λ p, (p.1.1 =? id) && bool_decide (attempt_result_key p.2 = Some key))
    (map_to_list (attempts st)));
  n ← nodes st !! attempt_node p.2;
  Some (p.2, n).

Definition lease_forbidden : ApiError := forbidden "任务租约不属于当前节点".

(** The answer to a repeated report. *)
Definition replay_failure (principal : Principal) (id : Z) (request : JobFailRequest)
    (a : AttemptRow) (n : NodeRow) : ApiResult JobFailResponse :=
  _ ← bail_if (negb (node_owner n =? principal_user_id principal)
      || negb (attempt_node a =? fail_node_id request)
      || negb (exact_claim_device_binding principal (Some (node_owner n))
                 (claim_device_key_id a) (claim_device_binding_version a))) lease_forbidden;
  _ ← bail_if (negb (bool_decide
        (error_class a = Some (job_error_class_key (fail_error_class request))))
      || negb (bool_decide (attempt_error_message a = Some (fail_error_message request)))
      || negb (bool_decide (retryable_requested a = Some (retryable request))))
    (conflict "idempotency_binding_mismatch" "失败报告幂等键已绑定到不同节点或失败内容");
  Ok (mkFailResponse id true true).

(** The job with the node it is leased to and its current attempt. *)
Definition leased_view (st : State) (id : Z) : option (JobRow * NodeRow * Z * AttemptRow) :=
  j ← jobs st !! id;
  node ← leased_to_node_id j;
  n ← nodes st !! node;
  a ← attempts st !! (id, attempt_count j);
  Some (j, n, node, a).

(** [clamp(2 * attempt_count, 1, 60)] seconds. *)
Definition backoff_seconds (attempt : Z) : Z := Z.max 1 (Z.min 60 (attempt * 2)).

(** The end of a failed attempt: another try later, or the end of the job. *)
Definition conclude_failure (st : State) (tx : Tx) (id : Z) (j : JobRow) (will_retry : bool)
    : ApiResult State :=
  if will_retry then
    available ← or_internal (datetime_checked_add (now_utc tx 0%nat)
      (backoff_seconds (attempt_count j) * NANOS_PER_SECOND));
    Ok (update_job st id (λ j, job_retried j (to_timestamp available)))
  else
    st ← release_reservation st (user_id j) (reserved_cost_micro j);
    Ok (update_job st id (λ j, job_failed j (tx_now tx))).

Definition fail_tx (st : State) (tx : Tx) (principal : Principal) (id : Z)
    (request : JobFailRequest) : ApiResult (ApiResult JobFailResponse * State) :=
  let now := tx_now tx in
  match reported_attempt st id (fail_idempotency_key request) with
  | Some (a, n) =>
    response ← replay_failure principal id request a n;
    Ok (Ok response, st)
  | None =>
    '(j, n, node, a) ← ok_or (leased_view st id) (not_found "任务");
    _ ← bail_if (negb (node_owner n =? principal_user_id principal)
        || negb (node =? fail_node_id request)
        || negb (exact_claim_device_binding principal (Some (node_owner n))
                   (claim_device_key_id a) (claim_device_binding_version a))) lease_forbidden;
    _ ← bail_if (negb (bool_decide (status j = Leased)))
      (conflict "job_not_leased" "任务当前不接受失败报告");
    lease ← or_internal (lease_expires_at j);
    _ ← bail_if (lease <=? now) (conflict "lease_expired" "任务租约已经过期");
    let will_retry := retryable request && (attempt_count j <? max_attempts (submission j)) in
    st ← update_leased_attempt st id (attempt_count j)
      (λ a, attempt_outcome a AttemptFailed (Some now)
         (Some (job_error_class_key (fail_error_class request)))
         (Some (fail_error_message request)) (Some (retryable request))
         (Some (fail_idempotency_key request)));
    st ← conclude_failure st tx id j will_retry;
    Ok (Ok (mkFailResponse id true false),
        finalize_draining_instance st now (model_instance_id j))
  end.

(** [job_fail] of an ordinary job. *)
Definition job_fail (st : State) (tx : Tx) (principal : Principal) (id : Z)
    (request : JobFailRequest) : ApiResult JobFailResponse * State :=
  transaction st (
    _ ← map_err (λ e, bad_request "invalid_failure_report"
        ("失败报告字段无效：" +:+ validation_error_to_string e)) (fail_validate request);
    _ ← verify_node_owner st principal (fail_node_id request);
    fail_tx st tx principal id request).

(** ** Cancelling: openai_gateway.rs *)

Definition cancel_timed_out_job (st : State) (tx : Tx) (principal : Principal) (id : Z)
    : ApiResult () * State :=
  transaction st (
    j ← ok_or (j ← jobs st !! id;
      if user_id j =? principal_user_id principal then Some j else None) (not_found "任务");
    match status j with
    | Succeeded | Failed | Cancelled => Ok (Ok tt, st)
    | _ =>
      st ← release_reservation st (user_id j) (reserved_cost_micro j);
      st ← (if bool_decide (status j = Leased)
            then update_leased_attempt st id (attempt_count j)
              (λ a, attempt_outcome a AttemptFailed (Some (tx_now tx)) (Some "timeout")
                 (Some "公网 OpenAI 网关等待超时并取消任务") (retryable_requested a)
                 (attempt_result_key a))
            else Ok st);
      let st := update_job st id (λ j, job_cancelled j (tx_now tx)) in
      Ok (Ok tt, finalize_draining_instance st (tx_now tx) (model_instance_id j))
    end).
