(* ===== verification/Identity.v ===== *)
(** * Identities: the tables of migrations 0001, 0004, 0016, 0017, 0037 and 0039, crates/mindone-coordinator/src/auth.rs and db.rs, crates/mindone-protocol/src/auth.rs

    Users, device keys, device login flows, sessions, mailbox verifications and
    inference API keys, with the token service, the three login providers, the
    signed messages, and the two functions that turn an Authorization header
    into a principal.  Times of columns are microseconds, of the clock
    nanoseconds.  Ed25519 and the random generator are arguments. *)
From S2P Require Import Prelude Text Net Ledger StandardData Store Api Postings JobOps.
From Stdlib Require Import Ascii.

Local Open Scope string_scope.
Local Open Scope list_scope.
Local Open Scope Z_scope.

(** [VerifyingKey::from_bytes] accepts, and [verify_strict] of a signature by a
    key over a message, all on raw bytes. *)
Class Ed25519 : Type := {
  verifying_key : string → bool;
  verify_strict : string → string → string → bool;
}.

(** What [OsRng] fills in, by use. *)
Record Draws : Type := mkDraws {
  flow_challenge_bytes : string;
  provider_secret_bytes : string;
  user_code_bytes : string;
  access_bytes : string;
  refresh_bytes : string;
  refresh_challenge_bytes : string;
  api_key_bytes : string;
  verification_bytes : string;
}.

Inductive AuthProviderKind : Type := Github | Email | LocalDevelopment.

#[export] Instance AuthProviderKind_eq_dec : EqDecision AuthProviderKind.
Proof. solve_decision. Defined.

(** What [Config] says about identities; [verification_uri_of] is the page the
    provider was built with. *)
Record AuthConfig : Type := mkAuthConfig {
  auth_provider : AuthProviderKind;
  pepper : string;
  access_token_ttl : Z;
  refresh_token_ttl : Z;
  dev_username : string;
  dev_initial_quota_micro : Z;
  provider_verification_uri : string;
}.

(** ** The tables *)

Record UserRow : Type := mkUser {
  user_provider : string;
  provider_subject : string;
  username : string;
  email : option string;
  password_hash : option string;
  email_verified_at : option Z;
}.

Record SessionRow : Type := mkSession {
  session_user : Z;
  access_token_hash : string;
  refresh_token_hash : string;
  access_expires_at : Z;
  refresh_expires_at : Z;
  session_created_at : Z;
  session_last_used_at : option Z;
  session_revoked_at : option Z;
  session_device : option Z;
  refresh_challenge : option string;
}.

(** The login parts of [auth_device_flows]; the key columns may be NULL in rows
    from before migration 0016. *)
Record FlowRow : Type := mkFlow {
  flow_provider : string;
  provider_device_code : string;
  flow_user_code : string;
  interval_seconds : Z;
  flow_expires_at : Z;
  flow_status : string;
  flow_user : option Z;
  last_polled_at : option Z;
  completed_at : option Z;
  device_public_key : option string;
  device_key_fingerprint_of : option string;
  device_key_algorithm : option string;
  device_key_challenge : option string;
  email_authorized : option (Z * Z);
}.

Record DeviceKeyRow : Type := mkDeviceKey {
  key_user : Z;
  key_fingerprint : string;
  key_public : string;
  key_algorithm : string;
  key_created_at : Z;
  key_rotated_at : option Z;
  key_revoked_at : option Z;
}.

Record VerificationRow : Type := mkVerification {
  verification_user : Z;
  verification_hash : string;
  verification_expires_at : Z;
  verification_created_at : Z;
  used_at : option Z;
}.

Record ApiKeyRow : Type := mkApiKey {
  api_key_user : Z;
  created_by_session : Z;
  api_key_device : Z;
  api_key_name : string;
  key_prefix : string;
  key_hash : string;
  api_key_created_at : Z;
  api_key_last_used_at : option Z;
  api_key_revoked_at : option Z;
}.

(** [inference_api_key_events]: the key and what happened to it. *)
Record ApiKeyEvent : Type := mkKeyEvent { event_key : Z; event_user : Z; event_type : string }.

Record IdDb : Type := mkIdDb {
  users : gmap Z UserRow;
  sessions : gmap Z SessionRow;
  flows : gmap Z FlowRow;
  device_keys : gmap Z DeviceKeyRow;
  verifications : gmap Z VerificationRow;
  api_keys : gmap Z ApiKeyRow;
  api_key_events : list ApiKeyEvent;
  id_books : Books;
}.

Definition with_users (db : IdDb) (t : gmap Z UserRow) : IdDb :=
  mkIdDb t (sessions db) (flows db) (device_keys db) (verifications db) (api_keys db)
    (api_key_events db) (id_books db).
Definition with_sessions (db : IdDb) (t : gmap Z SessionRow) : IdDb :=
  mkIdDb (users db) t (flows db) (device_keys db) (verifications db) (api_keys db)
    (api_key_events db) (id_books db).
Definition with_flows (db : IdDb) (t : gmap Z FlowRow) : IdDb :=
  mkIdDb (users db) (sessions db) t (device_keys db) (verifications db) (api_keys db)
    (api_key_events db) (id_books db).
Definition with_device_keys (db : IdDb) (t : gmap Z DeviceKeyRow) : IdDb :=
  mkIdDb (users db) (sessions db) (flows db) t (verifications db) (api_keys db)
    (api_key_events db) (id_books db).
Definition with_verifications (db : IdDb) (t : gmap Z VerificationRow) : IdDb :=
  mkIdDb (users db) (sessions db) (flows db) (device_keys db) t (api_keys db)
    (api_key_events db) (id_books db).
Definition with_api_keys (db : IdDb) (t : gmap Z ApiKeyRow) : IdDb :=
  mkIdDb (users db) (sessions db) (flows db) (device_keys db) (verifications db) t
    (api_key_events db) (id_books db).
Definition with_key_events (db : IdDb) (t : list ApiKeyEvent) : IdDb :=
  mkIdDb (users db) (sessions db) (flows db) (device_keys db) (verifications db) (api_keys db)
    t (id_books db).
Definition with_id_books (db : IdDb) (b : Books) : IdDb :=
  mkIdDb (users db) (sessions db) (flows db) (device_keys db) (verifications db) (api_keys db)
    (api_key_events db) b.

(** The row a query with a unique key finds. *)
Definition find_row {A} (p : A → bool) (t : gmap Z A) : option (Z * A) :=
  head (List.filter (λ r, p r.2) (map_to_list t)).

Definition has_row {A} (p : A → bool) (t : gmap Z A) : bool :=
  bool_decide (is_Some (find_row p t)).

(** The transaction of a handler: an error rolls it back. *)
Definition id_transaction {A} (db : IdDb) (body : ApiResult (A * IdDb)) : ApiResult A * IdDb :=
  match body with Ok (a, db') => (Ok a, db') | Err e => (Err e, db) end.

(** ** Encodings *)

(** The value of a hexadecimal digit, the inverse of [hex_digit]. *)
Definition hex_value (b : Z) : Z :=
  if is_ascii_digit b then b - 48 else if in_range 97 102 b then b - 87 else b - 55.

(** [hex::decode] of a string already known to be hexadecimal. *)
Fixpoint hex_decode (s : string) : option string :=
  match s with
  | EmptyString => Some EmptyString
  | String a (String b s') =>
    String (byte_of (16 * hex_value (byte_val a) + hex_value (byte_val b))) <$> hex_decode s'
  | String _ EmptyString => None
  end.

Definition decode_lower_hex (n : Z) (value : string) : option string :=
  if negb (str_len value =? n * 2)
     || negb (all_bytes (λ b, is_ascii_digit b || in_range 97 102 b) value)
  then None else hex_decode value.

Definition hex_encode_upper (s : string) : string := to_ascii_uppercase (hex_encode s).

(** ** Signed messages *)

Definition DEVICE_PUBLIC_KEY_BYTES : Z := 32.
Definition DEVICE_KEY_CHALLENGE_BYTES : Z := 32.
Definition DEVICE_KEY_SIGNATURE_BYTES : Z := 64.
Definition REFRESH_KEY_CHALLENGE_BYTES : Z := 32.

(** [DeviceKeyAlgorithm::Ed25519.as_str()]; the type has no other value. *)
Definition ED25519 : string := "ed25519".

Section crypto.
Context `{C : Crypto, Ed25519}.

Definition device_key_fingerprint (public_key : string) : string := hex_encode (sha256 public_key).

Definition device_key_possession_message (flow_id : Z) (challenge public_key : string) : string :=
  "MindOne device key possession v1" +:+ AntiAbuse.nul
    +:+ uuid_bytes flow_id +:+ challenge +:+ public_key +:+ ED25519.

Definition refresh_key_possession_message (challenge refresh_token public_key : string) : string :=
  "MindOne refresh key possession v1" +:+ AntiAbuse.nul
    +:+ challenge +:+ sha256 refresh_token +:+ public_key +:+ ED25519.

Definition validate_device_public_key (public_key : string) : ApiResult string :=
  bytes ← ok_or (decode_lower_hex DEVICE_PUBLIC_KEY_BYTES public_key)
    (bad_request "invalid_device_public_key" "Ed25519 设备公钥必须是 32 字节规范小写十六进制");
  _ ← bail_if (negb (verifying_key bytes))
    (bad_request "invalid_device_public_key" "Ed25519 设备公钥不是有效曲线点");
  Ok bytes.

Definition verify_device_key_proof (flow_id : Z)
    (public_key fingerprint algorithm challenge signature : string) : ApiResult () :=
  _ ← bail_if (negb (String.eqb algorithm ED25519))
    (authentication "设备登录流程使用了不受支持的密钥算法，请重新发起登录");
  public_key_bytes ← ok_or (decode_lower_hex DEVICE_PUBLIC_KEY_BYTES public_key)
    (authentication "设备登录公钥记录无效，请重新发起登录");
  _ ← bail_if (negb (String.eqb (device_key_fingerprint public_key_bytes) fingerprint))
    (authentication "设备登录公钥与指纹绑定不一致，请重新发起登录");
  challenge ← ok_or (decode_lower_hex DEVICE_KEY_CHALLENGE_BYTES challenge)
    (authentication "设备登录持有证明挑战无效，请重新发起登录");
  signature ← ok_or (decode_lower_hex DEVICE_KEY_SIGNATURE_BYTES signature)
    (authentication "设备密钥持有证明格式无效");
  _ ← bail_if (negb (verifying_key public_key_bytes))
    (authentication "设备登录公钥记录无效，请重新发起登录");
  bail_if (negb (verify_strict public_key_bytes
      (device_key_possession_message flow_id challenge public_key_bytes) signature))
    (authentication "设备密钥持有证明无效").

Definition verify_refresh_key_proof
    (refresh_token public_key fingerprint algorithm challenge signature : string) : ApiResult () :=
  _ ← bail_if (negb (String.eqb algorithm ED25519))
    (authentication "刷新会话绑定了不受支持的设备密钥算法，请重新登录");
  public_key_bytes ← ok_or (decode_lower_hex DEVICE_PUBLIC_KEY_BYTES public_key)
    (authentication "刷新会话的设备公钥记录无效，请重新登录");
  _ ← bail_if (negb (String.eqb (device_key_fingerprint public_key_bytes) fingerprint))
    (authentication "刷新会话的设备公钥与指纹不一致，请重新登录");
  challenge ← ok_or (decode_lower_hex REFRESH_KEY_CHALLENGE_BYTES challenge)
    (authentication "刷新会话缺少有效一次性 challenge，请重新登录");
  signature ← ok_or (decode_lower_hex DEVICE_KEY_SIGNATURE_BYTES signature)
    (authentication "刷新会话的设备私钥持有证明格式无效");
  _ ← bail_if (negb (verifying_key public_key_bytes))
    (authentication "刷新会话的设备公钥记录无效，请重新登录");
  bail_if (negb (verify_strict public_key_bytes
      (refresh_key_possession_message challenge refresh_token public_key_bytes) signature))
    (authentication "刷新会话的设备私钥持有证明无效").

(** ** The token service *)

Definition token_hash (cfg : AuthConfig) (token : string) : string :=
  base64_encode (hmac_sha256 (pepper cfg) token).

Definition random_token (prefix bytes : string) : string := prefix +:+ base64_encode bytes.

Record IssuedTokens : Type := mkIssued {
  access_token : string;
  refresh_token : string;
  issued_access_hash : string;
  issued_refresh_hash : string;
}.

Definition issue (cfg : AuthConfig) (d : Draws) : IssuedTokens :=
  let access := random_token "mna_" (access_bytes d) in
  let refresh := random_token "mnr_" (refresh_bytes d) in
  mkIssued access refresh (token_hash cfg access) (token_hash cfg refresh).

Record IssuedApiKey : Type := mkIssuedKey {
  issued_api_key : string;
  issued_key_hash : string;
  issued_key_prefix : string;
}.

(** The prefix is twelve characters of ASCII. *)
Definition issue_inference_api_key (cfg : AuthConfig) (d : Draws) : IssuedApiKey :=
  let api_key := random_token "mok_" (api_key_bytes d) in
  mkIssuedKey api_key (token_hash cfg api_key) (split_bytes 12 api_key).1.

Definition random_email_user_code (d : Draws) : string := hex_encode_upper (user_code_bytes d).
Definition new_refresh_challenge (d : Draws) : string := hex_encode (refresh_challenge_bytes d).

(** ** The login providers *)

Inductive ProviderError : Type :=
| Configuration (message : string)
| Transport (message : string)
| Protocol (message : string)
| Upstream (status : Z).

Definition map_provider_error (_ : ProviderError) : ApiError :=
  unavailable "auth_provider_unavailable" "认证提供者当前不可用".

Record ProviderStart : Type := mkStart {
  start_device_code : string;
  start_user_code : string;
  start_verification_uri : string;
  start_expires_in : Z;
  start_interval : Z;
}.

Record ProviderIdentity : Type := mkIdentity { subject : string; identity_username : string }.

Inductive ProviderPoll : Type :=
| Pending | SlowDown | Authorized (identity : ProviderIdentity) | Denied | Expired.

(** What GitHub answers, decoded. *)
Record GithubDeviceStartResponse : Type := mkGithubStart {
  github_device_code : string;
  github_user_code : string;
  github_verification_uri : string;
  github_expires_in : Z;
  github_interval : option Z;
}.
Record GithubTokenResponse : Type := mkGithubToken {
  github_access_token : option string;
  github_error : option string;
}.
Record GithubUserResponse : Type := mkGithubUser { github_id : Z; login : string }.
Record GithubAnswers : Type := mkGithub {
  device_code_answer : result ProviderError GithubDeviceStartResponse;
  token_answer : string → result ProviderError GithubTokenResponse;
  user_answer : string → result ProviderError GithubUserResponse;
}.

Definition github_start (github : GithubAnswers) : result ProviderError ProviderStart :=
  body ← device_code_answer github;
  Ok (mkStart (github_device_code body) (github_user_code body) (github_verification_uri body)
        (github_expires_in body) (default 5 (github_interval body))).

Definition github_poll (github : GithubAnswers) (device_code : string)
    : result ProviderError ProviderPoll :=
  token ← token_answer github device_code;
  match github_error token with
  | Some e =>
    if String.eqb e "authorization_pending" then Ok Pending
    else if String.eqb e "slow_down" then Ok SlowDown
    else if String.eqb e "access_denied" then Ok Denied
    else if String.eqb e "expired_token" then Ok Expired
    else Err (Protocol "GitHub 拒绝了设备登录")
  | None =>
    access ← ok_or (github_access_token token) (Protocol "GitHub 未返回访问令牌");
    user ← user_answer github access;
    Ok (Authorized (mkIdentity (dec (github_id user)) (login user)))
  end.

(** A redirect is followed on GitHub's own origin, over TLS, five times. *)
Record Url : Type := mkUrl { scheme : string; host_str : option string; port : option Z }.

#[export] Instance Url_eq_dec : EqDecision Url.
Proof. solve_decision. Defined.

Definition github_redirect_allowed (previous : list Url) (next : Url) : bool :=
  match previous with
  | [] => false
  | first :: _ =>
    (Z.of_nat (length previous) <=? 5) && String.eqb (scheme next) "https"
    && bool_decide (host_str next = Some "github.com" ∨ host_str next = Some "api.github.com")
    && bool_decide (first = next)
  end.

Definition email_start (cfg : AuthConfig) (d : Draws) : ProviderStart :=
  let provider_secret := random_token "mne_" (provider_secret_bytes d) in
  mkStart (token_hash cfg provider_secret) (random_email_user_code d)
    (provider_verification_uri cfg) 300 2.

Definition email_poll (db : IdDb) (now : Z) (device_code : string) : ProviderPoll :=
  match find_row (λ f, String.eqb (flow_provider f) "email"
                       && String.eqb (provider_device_code f) device_code) (flows db) with
  | Some (_, f) =>
    match email_authorized f ≫= λ a, users db !! a.1 with
    | Some u =>
      if String.eqb (flow_status f) "pending" && (now <? flow_expires_at f)
      then Authorized (mkIdentity (provider_subject u) (username u)) else Pending
    | None => Pending
    end
  | None => Pending
  end.

Definition local_start (cfg : AuthConfig) (device_key_fingerprint : string) : ProviderStart :=
  mkStart ("mindone-local-development:" +:+ device_key_fingerprint)
    (to_ascii_uppercase (split_bytes 8 device_key_fingerprint).1)
    (provider_verification_uri cfg) 600 1.

Definition local_poll (cfg : AuthConfig) (device_code : string)
    : result ProviderError ProviderPoll :=
  subject_hash ← ok_or (value ← strip_prefix "mindone-local-development:" device_code;
                        if valid_lower_hex value 64 then Some value else None)
    (Protocol "本地开发设备身份无效");
  Ok (Authorized (mkIdentity ("local-device:" +:+ subject_hash)
        (dev_username cfg +:+ "-" +:+ (split_bytes 8 subject_hash).1))).

(** [DeviceAuthProvider] of the configured kind. *)
Definition provider_name (kind : AuthProviderKind) : string :=
  match kind with
  | Github => "github" | Email => "email" | LocalDevelopment => "local-development"
  end.

Definition provider_start (cfg : AuthConfig) (d : Draws) (github : GithubAnswers)
    (device_key_fingerprint : string) : result ProviderError ProviderStart :=
  match auth_provider cfg with
  | Github => github_start github
  | Email => Ok (email_start cfg d)
  | LocalDevelopment => Ok (local_start cfg device_key_fingerprint)
  end.

Definition provider_poll (cfg : AuthConfig) (db : IdDb) (now : Z) (github : GithubAnswers)
    (device_code : string) : result ProviderError ProviderPoll :=
  match auth_provider cfg with
  | Github => github_poll github device_code
  | Email => Ok (email_poll db now device_code)
  | LocalDevelopment => local_poll cfg device_code
  end.

(** ** Authentication *)

(** The token of the Authorization header, as text. *)
Definition bearer (missing : string) (authorization : option string) : ApiResult string :=
  authorization ← ok_or authorization (authentication missing);
  ok_or (token ← strip_prefix "Bearer " authorization;
         if str_is_empty token then None else Some token)
    (authentication "Authorization 格式无效").

Definition session_used (now : Z) (s : SessionRow) : SessionRow :=
  mkSession (session_user s) (access_token_hash s) (refresh_token_hash s) (access_expires_at s)
    (refresh_expires_at s) (session_created_at s) (Some now) (session_revoked_at s)
    (session_device s) (refresh_challenge s).

(** The device key a session or an API key joins: of its user and not revoked. *)
Definition live_device (db : IdDb) (user device : Z) : option DeviceKeyRow :=
  k ← device_keys db !! device;
  if (key_user k =? user) && bool_decide (key_revoked_at k = None) then Some k else None.

(** The query of [authenticate]. *)
Definition principal_of (db : IdDb) (now : Z) (hash : string) : option (Principal * string) :=
  '(id, s) ← find_row (λ s, String.eqb (access_token_hash s) hash) (sessions db);
  u ← users db !! session_user s;
  device ← session_device s;
  _ ← live_device db (session_user s) device;
  if bool_decide (session_revoked_at s = None) && (now <? access_expires_at s)
  then Some (mkPrincipal (session_user s) id device, username u) else None.

Definition authenticate (cfg : AuthConfig) (db : IdDb) (now : Z) (authorization : option string)
    : ApiResult (Principal * string) * IdDb :=
  match
    token ← bearer "缺少 Bearer 访问令牌" authorization;
    ok_or (principal_of db now (token_hash cfg token)) (authentication "访问令牌已失效或已撤销")
  with
  | Ok p => (Ok p, with_sessions db (alter (session_used now) (session_id p.1) (sessions db)))
  | Err e => (Err e, db)
  end.

Definition api_key_used (now : Z) (k : ApiKeyRow) : ApiKeyRow :=
  mkApiKey (api_key_user k) (created_by_session k) (api_key_device k) (api_key_name k)
    (key_prefix k) (key_hash k) (api_key_created_at k) (Some now) (api_key_revoked_at k).

(** The query of [authenticate_inference], with the key it found. *)
Definition api_principal_of (db : IdDb) (hash : string) : option (Z * (Principal * string)) :=
  '(id, k) ← find_row (λ k, String.eqb (key_hash k) hash) (api_keys db);
  u ← users db !! api_key_user k;
  s ← sessions db !! created_by_session k;
  _ ← live_device db (api_key_user k) (api_key_device k);
  if (session_user s =? api_key_user k) && bool_decide (session_device s = Some (api_key_device k))
     && bool_decide (session_revoked_at s = None) && bool_decide (api_key_revoked_at k = None)
  then Some (id, (mkPrincipal (api_key_user k) (created_by_session k) (api_key_device k), username u))
  else None.

Definition authenticate_inference (cfg : AuthConfig) (db : IdDb) (now : Z)
    (authorization : option string) : ApiResult (Principal * string) * IdDb :=
  match bearer "缺少 Bearer API Key" authorization with
  | Err e => (Err e, db)
  | Ok token =>
    match strip_prefix "mok_" token with
    | None => authenticate cfg db now authorization
    | Some _ =>
      match api_principal_of db (token_hash cfg token) with
      | Some (id, p) => (Ok p, with_api_keys db (alter (api_key_used now) id (api_keys db)))
      | None => (Err (authentication "API Key 已失效、已撤销或设备会话已注销"), db)
      end
    end
  end.
End crypto.
