(* ===== verification/RegulatedRoutes.v ===== *)
(** * Regulated routes: crates/mindone-coordinator/src/routes/regulated_jobs.rs

    Before a consumer encrypts anything it prepares a route: the coordinator
    picks an instance on an attested node, freezes the price and holds a slot of
    the node for two minutes.  Columns are microseconds and the clock of the
    process nanoseconds. *)
From S2P Require Import Prelude Text Float64 Fixed Policy Routing Billing Ledger Net AntiAbuse StandardData Hardware Fingerprint Store Envelope Api Snapshot Tables Lease Postings Complete Requests Quotes Dispatch JobOps.

Local Open Scope string_scope.
Local Open Scope list_scope.
Local Open Scope Z_scope.

(** ** Requests: crates/mindone-protocol/src/jobs.rs *)

Record PrepareRegulatedJobRequest : Type := mkPrepare {
  prepare_virtual_model : string;
  prepare_tags : list string;
  prepare_input_tokens : Z;
  prepare_max_output_tokens : Z;
  prepare_idempotency_key : string;
  prepare_priority : Z;
}.

Definition prepare_validate (self : PrepareRegulatedJobRequest) : Checked () :=
  validate_job_metadata (prepare_virtual_model self) (prepare_tags self)
    (prepare_input_tokens self) (prepare_max_output_tokens self)
    (prepare_idempotency_key self) (prepare_priority self).

Record CreateRegulatedJobRequest : Type := mkCreateRegulated {
  regulated_route : Z;
  envelope : RegulatedEnvelope;
  regulated_idempotency_key : string;
}.

Definition create_regulated_validate `{Crypto} (self : CreateRegulatedJobRequest) : Checked () :=
  _ ← check_identifier "idempotency_key" (regulated_idempotency_key self) 200;
  _ ← envelope_validate (envelope self);
  _ ← bail_if (negb (bool_decide (direction (envelope self) = RequestDirection)))
    (mkValidationError "direction" "提交任务必须使用 request 方向 envelope");
  bail_if (negb (route_id (envelope self) =? regulated_route self))
    (mkValidationError "route_id" "envelope 与 prepared route 不匹配").

(** The serde encoders of the requests. *)
Class RegulatedJson : Type := {
  encode_prepare : PrepareRegulatedJobRequest → option string;
  encode_create_regulated : CreateRegulatedJobRequest → option string;
  encode_envelope : RegulatedEnvelope → option string;
}.

Inductive AttestationEvidenceKind : Type := SnpExtendedReport | TdxQuote.

Record RegulatedRouteAttestation : Type := mkRouteAttestation {
  attested_report_id : Z;
  attested_challenge_id : Z;
  attested_node_id : Z;
  attested_instance_id : Z;
  attested_provider : AttestationProvider;
  attested_evidence_kind : AttestationEvidenceKind;
  attested_evidence : string;
  attested_evidence_sha256 : string;
  attested_nonce : string;
  attested_report_data : string;
  attested_measurement : string;
  attested_policy_hash : string;
  attested_runtime_hash : string;
  attested_weights_hash : string;
  attested_public_key : string;
  attested_issued_at : Z;
  attested_verified_at : Z;
  attested_expires_at : Z;
  attested_collateral_expires_at : Z;
}.

(** The end of the route is in nanoseconds, the instants of the report are columns. *)
Record PrepareRegulatedJobResponse : Type := mkPrepared {
  prepared_route_id : Z;
  prepared_model_id : Z;
  prepared_instance_id : Z;
  prepared_node_id : Z;
  prepared_expires_at : Z;
  prepared_replay : bool;
  prepared_attestation : RegulatedRouteAttestation;
}.

Definition regulated_request_fingerprint `{Crypto} (domain : string) (encoded : option string)
    : ApiResult string :=
  encoded ← or_internal encoded;
  Ok (hex_encode (sha256 ("MindOne regulated idempotency fingerprint v1" +:+ nul +:+ domain
    +:+ nul +:+ encoded))).

Definition PREPARED_ROUTE_TTL : Z := 2 * 60 * NANOS_PER_SECOND.
Definition MIN_REPORT_REMAINING : Z := 30 * NANOS_PER_SECOND.
(** The literal [interval '30 seconds'], and a column on the clock of the process. *)
Definition REPORT_MARGIN_MICROS : Z := 30000000.
Definition nanos (t : Z) : Z := t * 1000.

(** ** The slots of a node *)

Definition eq_ignore_ascii_case (a b : string) : bool :=
  String.eqb (to_ascii_lowercase a) (to_ascii_lowercase b).

(** Leases, waiting regulated jobs, prepared routes and hidden work. *)
Definition reserved_count (st : State) (now node : Z) (excluded_route : option Z) : Z :=
  countb (λ p, bool_decide (status p.2 = Leased) && bool_decide (leased_to_node_id p.2 = Some node)
        && sql_is (lease_expires_at p.2) (λ t, now <? t)
      || String.eqb (confidentiality_mode p.2) "regulated"
         && bool_decide (regulated_node_id p.2 = Some node)
         && bool_decide (status p.2 = Queued ∨ status p.2 = Retry)) (map_to_list (jobs st))
  + countb (λ p, (route_node p.2 =? node) && route_prepared p.2 && (now <? route_expires_at p.2)
                 && negb (bool_decide (excluded_route = Some p.1)))
      (map_to_list (regulated_routes (fleet st)))
  + countb (λ p, (challenge_node p.2 =? node) && challenge_leased p.2
                 && (now <? challenge_lease_expires_at p.2)) (map_to_list (challenges st)).

(** [now_utc] is the clock of the process, [now] that of the database. *)
Definition check_reserved_capacity_and_policy (st : State) (now now_utc node : Z)
    (tags : list string) (excluded_route_id expected_report_id : option Z) : ApiResult bool :=
  '(n, p) ← ok_or (n ← nodes st !! node; p ← policies (fleet st) !! node; Some (n, p))
    (not_found "节点");
  let m := metrics (fleet st) !! node in
  if negb (String.eqb (node_status n) "online") || negb (String.eqb (trust_level n) "enhanced")
     || negb (sql_is (last_seen_at n) (λ t, now_utc - nanos LIVENESS_MICROS <? nanos t))
     || negb (sql_is (trust_expires_at n) (λ t, now_utc + MIN_REPORT_REMAINING <? nanos t))
     || match expected_report_id with
        | Some expected => negb (bool_decide (node_attestation_report n = Some expected))
        | None => false
        end
  then Ok false
  else if existsb (λ tag, existsb (λ value, eq_ignore_ascii_case value tag)
            (policy_reject_tags p)) tags then Ok false
  else if policy_max_concurrent p <=? reserved_count st now node excluded_route_id then Ok false
  else if match policy_gpu_temp_limit_c p with
          | Some limit => negb (sql_is (m ≫= metrics_gpu_temp_c) (λ t, t <? limit))
          | None => false
          end then Ok false
  else if (0 <? policy_vram_reserve_mib p)
          && match m ≫= vram_used_mib, m ≫= vram_total_mib with
             | Some used, Some total => i64_saturating_sub total used <? policy_vram_reserve_mib p
             | _, _ => true
             end then Ok false
  else Ok true.

(** ** The candidate query of [prepare_regulated_job] *)

Record EligibleRow : Type := mkEligible {
  eligible : RankedRow;
  eligible_model : Z;
  model_row : ModelRow;
  eligible_report : Z;
  report_row : ReportRow;
  eligible_nonce : string;
}.

Section candidates.
Context `{CL : Collation}.
Context (st : State) (now : Z) (request : PrepareRegulatedJobRequest).

Definition required_context : Z :=
  i32_saturating_add (prepare_input_tokens request) (prepare_max_output_tokens request).

(** The report vouches for the instance on its node, for thirty seconds more. *)
Definition report_eligible (node instance : Z) (m : ModelRow) (ar : ReportRow) : bool :=
  (report_node ar =? node) && bool_decide (report_instance ar = Some instance)
  && bool_decide (report_model_hash ar = Some (weights_hash m))
  && String.eqb (report_status ar) "verified" && String.eqb (key_origin ar) "tee_runtime"
  && (now + REPORT_MARGIN_MICROS <? expires_at ar) && collateral_current ar
  && sql_is (collateral_expires_at ar) (λ t, now + REPORT_MARGIN_MICROS <? t)
  && signature_verified ar && certificate_chain_verified ar && tcb_current ar
  && bool_decide (is_Some (evidence_base64 (report_evidence ar))).

Definition node_eligible (n : NodeRow) (p : PolicyRow) (m : option MetricsRow) (reserved : Z)
    : bool :=
  String.eqb (node_status n) "online" && String.eqb (trust_level n) "enhanced"
  && sql_is (last_seen_at n) (λ t, now - LIVENESS_MICROS <? t)
  && match m ≫= metrics_coordinator_rtt_ms with
     | None => true
     | Some rtt => in_range 1 1000 rtt
     end
  && sql_is (trust_expires_at n) (λ t, now + REPORT_MARGIN_MICROS <? t)
  && (reserved <? policy_max_concurrent p) && hardware_allows p m
  && negb (tags_rejected (prepare_tags request) (policy_reject_tags p)).

Definition model_eligible (m : ModelRow) : bool :=
  enabled m && (required_context <=? model_context_length m)
  && (String.eqb (prepare_virtual_model request) "auto"
      || String.eqb (model_name m) (prepare_virtual_model request)).

Definition profile_covers (row : ProfileRow) : bool :=
  (prepare_input_tokens request <=? maximum_input_tokens (row_profile row))
  && (prepare_max_output_tokens request <=? maximum_output_tokens (row_profile row)).

(** The joins and the WHERE clause of [eligible]; a report is one of the node's. *)
Definition eligible_row (i : Z * InstanceRow) : option EligibleRow :=
  let node := instance_node i.2 in
  m ← models st !! instance_model i.2;
  n ← nodes st !! node;
  p ← policies (fleet st) !! node;
  profile ← current_profile (profiles (fleet st)) now (instance_model i.2) (weights_hash m);
  report ← node_attestation_report n;
  ar ← reports st !! report;
  challenge ← challenge_id (report_evidence ar);
  nonce ← challenge_nonces (fleet st) !! challenge;
  seen ← last_seen_at n;
  let metric := metrics (fleet st) !! node in
  let reserved := reserved_count st now node None in
  if bool_decide (instance_status i.2 = Published) && profile_covers profile
     && negb (instance_canary_quarantined st i.1) && model_eligible m
     && node_eligible n p metric reserved && report_eligible node i.1 m ar
  then Some (mkEligible
    (mkRankedRow i.1 node (score_row "enhanced" (now - seen) p metric reserved)
       (Z.max (policy_max_concurrent p - reserved) 0) (recent_node_contribution st now node)
       reserved (default 0 (tps_milli <$> metric)))
    (instance_model i.2) m report ar nonce)
  else None.

Definition eligible_rows : list EligibleRow := omap eligible_row (map_to_list (instances st)).

Definition eligible_cohort (rows : list EligibleRow) : list RankedRow :=
  distinct_nodes None (sort_by node_cmp (eligible <$> rows)).

(** Ready jobs of the eligible models with the tags of the request. *)
Definition eligible_demand (rows : list EligibleRow) : Z :=
  countb (λ p, bool_decide (model_id p.2 ∈ eligible_model <$> rows)
      && bool_decide (lower_tags (job_tags (submission p.2)) = lower_tags (prepare_tags request))
      && ready now p.2) (map_to_list (jobs st)).

(** [MAX(node_routing_score) OVER (PARTITION BY model_id)]. *)
Definition best_score_of_model (rows : list EligibleRow) (model : Z) : Z :=
  best_routing_score (eligible <$> List.filter (λ r, eligible_model r =? model) rows).

Definition eligible_priority (rows : list EligibleRow) (r : EligibleRow) : option Z :=
  let cohort := eligible_cohort rows in
  if (CONTRIBUTION_ROUTING_MIN_COHORT <=? cohort_size cohort)
     && (free_slots_total cohort <? eligible_demand rows)
     && (best_score_of_model rows (eligible_model r) * CONTRIBUTION_ROUTING_NEAR_BEST_NUMERATOR
           <=? routing_score (eligible r) * CONTRIBUTION_ROUTING_NEAR_BEST_DENOMINATOR)
  then n ← List.find (λ c, ranked_node c =? ranked_node (eligible r)) cohort;
       sql_percentile cohort n
  else None.

Definition eligible_cmp (rows : list EligibleRow) : EligibleRow → EligibleRow → comparison :=
  cmp_then (cmp_rev (cmp_on (λ r, benchmark_normalized (model_row r) + glicko_normalized (model_row r))
              Z.compare))
    (cmp_then (cmp_on (λ r, base_cost_per_1k_micro (model_row r)) Z.compare)
      (cmp_then (cmp_rev (cmp_on (eligible_priority rows) (option_cmp Z.compare)))
        (cmp_then (cmp_rev (cmp_on (λ r, routing_score (eligible r)) Z.compare))
          (cmp_on eligible node_cmp)))).

(** [LIMIT 64]. *)
Definition candidates : list EligibleRow :=
  take 64 (sort_by (eligible_cmp eligible_rows) eligible_rows).

(** The loop over the candidates; the clock is read for each of them. *)
Fixpoint first_available (now_utc : nat → Z) (k : nat) (rows : list EligibleRow)
    : ApiResult (option EligibleRow) :=
  match rows with
  | [] => Ok None
  | r :: rows' =>
    available ← check_reserved_capacity_and_policy st now (now_utc k) (ranked_node (eligible r))
      (prepare_tags request) None None;
    if available : bool then Ok (Some r) else first_available now_utc (Datatypes.S k) rows'
  end.
End candidates.

(** ** Answers *)

Definition provider_from_db (value : string) : ApiResult AttestationProvider :=
  if String.eqb value "amd_sev_snp" then Ok AmdSevSnp
  else if String.eqb value "intel_tdx" then Ok IntelTdx
  else Err internal.

Definition evidence_kind_from_db (value : string) : ApiResult AttestationEvidenceKind :=
  if String.eqb value "snp_extended_report" then Ok SnpExtendedReport
  else if String.eqb value "tdx_quote" then Ok TdxQuote
  else Err internal.

(** A NULL in a column that must have a value is a decoding error. *)
Definition response_from_selected `{Crypto} (model instance node report : Z) (ar : ReportRow)
    (nonce : string) (route expires : Z) (idempotent_replay : bool)
    : ApiResult PrepareRegulatedJobResponse :=
  let e := report_evidence ar in
  provider ← provider_from_db (report_provider ar);
  kind ← or_internal (evidence_kind e);
  evidence_kind ← evidence_kind_from_db kind;
  challenge ← or_internal (challenge_id e);
  evidence ← ok_or (evidence_base64 e)
    (attestation_unavailable "硬件报告没有可供消费者本机复验的 evidence");
  digest ← or_internal (evidence_sha256 e);
  data ← or_internal (report_data e);
  measurement ← or_internal (tee_measurement e);
  model_hash ← or_internal (report_model_hash ar);
  key ← or_internal (ephemeral_public_key ar);
  verified ← or_internal (verified_at e);
  collateral ← or_internal (collateral_expires_at ar);
  Ok (mkPrepared route model instance node expires idempotent_replay
    (mkRouteAttestation report challenge node instance provider evidence_kind evidence digest
       (base64_encode nonce) data measurement (policy_hash e) (runtime_hash e) model_hash key
       (issued_at e) verified (expires_at ar) collateral)).

Definition validate_selected_report (ar : ReportRow) (now_utc : Z) : ApiResult () :=
  let e := report_evidence ar in
  evidence ← ok_or (evidence_base64 e) (attestation_unavailable "硬件报告缺少原始 evidence");
  verified ← ok_or (verified_at e) (attestation_unavailable "硬件报告缺少验证时间");
  bail_if (str_is_empty evidence || (verified <? issued_at e)
      || (now_utc + 30 * NANOS_PER_SECOND <? nanos verified)
      || bool_decide (tee_measurement e = None))
    (attestation_unavailable "硬件报告结构或验证时间无效").

(** The joins of the response and its WHERE clause. *)
Definition load_route_response `{Crypto} (st : State) (now route : Z) (idempotent_replay : bool)
    : ApiResult PrepareRegulatedJobResponse :=
  '(r, ar, nonce) ← ok_or (
      r ← regulated_routes (fleet st) !! route;
      ar ← reports st !! route_report r;
      challenge ← challenge_id (report_evidence ar);
      nonce ← challenge_nonces (fleet st) !! challenge;
      if route_prepared r && (now <? route_expires_at r) then Some (r, ar, nonce) else None)
    (conflict "regulated_route_replay" "Regulated prepared route 已消费或过期");
  response_from_selected (route_model r) (route_instance r) (route_node r) (route_report r) ar
    nonce route (nanos (route_expires_at r)) idempotent_replay.

(** ** Preparing a route *)

(** The prepared routes of a user whose time is over. *)
Definition expire_routes (st : State) (now user : Z) : State :=
  with_routes st ((λ r,
    if (route_user r =? user) && route_prepared r && (route_expires_at r <=? now)
    then route_ended r RouteExpired now (route_job r) (create_request_fingerprint r) else r)
    <$> regulated_routes (fleet st)).

(** The row the pair of UNIQUE columns finds. *)
Definition existing_route (st : State) (user : Z) (key : string) : option (Z * RouteRow) :=
  head (List.filter (λ p, (route_user p.2 =? user) && String.eqb (route_idempotency p.2) key)
    (map_to_list (regulated_routes (fleet st)))).

(** [INSERT INTO regulated_routes] with its keys and CHECKs. *)
Definition insert_route (st : State) (id : Z) (r : RouteRow) : ApiResult State :=
  let rs := regulated_routes (fleet st) in
  _ ← require_internal (bool_decide (rs !! id = None)
    && negb (existsb (λ p, (route_user p.2 =? route_user r)
               && String.eqb (route_idempotency p.2) (route_idempotency r)) (map_to_list rs))
    && (0 <=? route_input_tokens r) && (0 <? route_max_output_tokens r)
    && in_range (-100) 100 (route_priority r) && (prepared_at r <? route_expires_at r));
  Ok (with_routes st (<[id := r]> rs)).

(** When the route ends: its time, the report's, the collateral's, the profile's. *)
Definition route_expiry (now_utc : Z) (ar : ReportRow) (b : BillingSnapshot) : ApiResult Z :=
  collateral ← or_internal (collateral_expires_at ar);
  let attested := Z.min (Z.min (now_utc + PREPARED_ROUTE_TTL) (nanos (expires_at ar)))
    (nanos collateral) in
  _ ← bail_if (attested <=? now_utc + MIN_REPORT_REMAINING)
    (attestation_unavailable "可用硬件报告剩余时间不足以安全创建 Regulated 任务");
  let expires := Z.min attested (nanos (snapshot_valid_until (billing_profile b))) in
  _ ← bail_if (expires <=? now_utc + MIN_REPORT_REMAINING) billing_profile_unavailable;
  Ok expires.

Definition prepared_row (tx : Tx) (principal : Principal) (request : PrepareRegulatedJobRequest)
    (fingerprint : string) (r : EligibleRow) (b : BillingSnapshot) (expires : Z) : RouteRow :=
  mkRoute (principal_user_id principal) (prepare_idempotency_key request) (Some fingerprint) None
    (eligible_model r) (ranked_instance (eligible r)) (ranked_node (eligible r))
    (eligible_report r) (prepare_tags request) (prepare_input_tokens request)
    (prepare_max_output_tokens request) (prepare_priority request) Prepared (tx_now tx)
    (to_timestamp expires) None None (frozen_columns b).

Section prepare.
Context `{C : Crypto, CL : Collation, RJ : RegulatedJson}.

(** The part after the look-up of the key. *)
Definition prepare_route (st : State) (tx : Tx) (principal : Principal)
    (request : PrepareRegulatedJobRequest) (fingerprint : string)
    : ApiResult (PrepareRegulatedJobResponse * State) :=
  let now_utc := now_utc tx 0%nat in
  found ← first_available st (tx_now tx) request (Postings.now_utc tx) 1%nat
    (candidates st (tx_now tx) request);
  selected ← ok_or found (attestation_unavailable
    "没有具备未过期本机可复验硬件报告与 TEE runtime 密钥的 Regulated 节点");
  let instance := ranked_instance (eligible selected) in
  let ar := report_row selected in
  _ ← bail_if (instance_canary_quarantined st instance) (attestation_unavailable
    "候选模型实例在 Regulated route 提交前被 canary 风控隔离，请重试路由");
  _ ← validate_selected_report ar now_utc;
  weights_hash ← or_internal (report_model_hash ar);
  billing ← load_billing_snapshot (profiles (fleet st)) (tx_now tx) (eligible_model selected)
    weights_hash (prepare_input_tokens request) (prepare_max_output_tokens request);
  expires ← route_expiry now_utc ar billing;
  let route := now_v7 tx 0%nat in
  st ← insert_route st route (prepared_row tx principal request fingerprint selected billing expires);
  response ← response_from_selected (eligible_model selected) instance
    (ranked_node (eligible selected)) (eligible_report selected) ar (eligible_nonce selected) route
    expires false;
  Ok (response, st).

Definition prepare_regulated_job (st : State) (tx : Tx) (principal : Principal)
    (request : PrepareRegulatedJobRequest) : ApiResult PrepareRegulatedJobResponse * State :=
  transaction st (
    _ ← map_err (λ e, bad_request "invalid_regulated_prepare" (validation_error_to_string e))
      (prepare_validate request);
    fingerprint ← regulated_request_fingerprint "prepare-v1" (encode_prepare request);
    let st := expire_routes st (tx_now tx) (principal_user_id principal) in
    match existing_route st (principal_user_id principal) (prepare_idempotency_key request) with
    | Some (route, r) =>
      _ ← bail_if (negb (bool_decide (prepare_request_fingerprint r = Some fingerprint)))
        (conflict "idempotency_binding_mismatch" "Regulated prepare 幂等键已绑定到不同请求内容");
      _ ← bail_if (negb (route_prepared r)) (conflict "regulated_route_replay"
        "该 Regulated prepare 幂等键已消费或过期，不能生成第二个 envelope");
      response ← load_route_response st (tx_now tx) route true;
      Ok (Ok response, st)
    | None =>
      '(response, st) ← prepare_route st tx principal request fingerprint;
      Ok (Ok response, st)
    end).
End prepare.
