(* ===== verification/Admission.v ===== *)
(** * Admission: [create_job] of crates/mindone-coordinator/src/routes/jobs.rs

    From a request to a queued job: validation of the Standard payload, the
    idempotent replay, the anti-abuse assessment, the choice of a model, the
    quote, the reservation and the INSERT. *)
From S2P Require Import Prelude Text Float64 Fixed Tier Routing Billing Ledger Net AntiAbuse StandardData Hardware Fingerprint Store Envelope Api Snapshot Tables Lease Postings Complete Requests Quotes Dispatch JobOps.

Local Open Scope string_scope.
Local Open Scope list_scope.
Local Open Scope Z_scope.

(** ** Validation of the request *)

Record ValidatedStandardJob : Type := mkValidated {
  request_fingerprint_value : string;
  stream : bool;
}.

Section validation.
Context `{J : JobJson, C : Crypto}.
(** The standard base64 alphabet; [base64_decode] is the URL-safe one. *)
Context (base64_standard_decode : string → option string).

Definition decode_standard_payload (encoding : PayloadEncoding) (encoded : string)
    : ApiResult string :=
  decoded ← match encoding with
    | Base64 => ok_or (base64_standard_decode encoded)
                  (bad_request "invalid_standard_payload" "任务载荷 Base64 无效")
    | Base64Url => ok_or (base64_decode encoded)
                  (bad_request "invalid_standard_payload" "任务载荷 Base64 无效")
    | RegulatedAeadV1 => Err (bad_request "invalid_job" "Standard 接口不接受 Regulated envelope")
    end;
  _ ← bail_if (str_is_empty decoded || (900000 <? str_len decoded))
    (bad_request "invalid_standard_payload" "任务载荷解码后为空或超过大小上限");
  Ok decoded.

Definition validate_create_job (request : CreateJobRequest) (key : string)
    : ApiResult ValidatedStandardJob :=
  _ ← map_err (λ e, bad_request "invalid_job" (validation_error_to_string e))
    (create_validate request);
  _ ← bail_if (bool_decide (request_encoding request = RegulatedAeadV1))
    (bad_request "invalid_job" "Regulated envelope 必须使用独立的两阶段接口");
  decoded ← decode_standard_payload (request_encoding request) (request_payload request);
  payload ← ok_or (parse_payload decoded)
    (bad_request "invalid_standard_payload" "任务载荷不符合 Standard 推理协议");
  limits ← map_err (λ e, bad_request "invalid_standard_payload" (validation_error_to_string e))
    (validated_limits payload);
  _ ← bail_if (negb (String.eqb (limits_model limits) (virtual_model request)))
    (bad_request "model_binding_mismatch" "任务路由模型与推理载荷模型不一致");
  _ ← bail_if ((request_input_tokens request <? limits_minimum_input limits)
               || (request_max_output_tokens request <? limits_maximum_output limits))
    (bad_request "usage_authorization_too_small" "任务 Token 授权小于载荷声明所需的安全上限");
  encoded ← or_internal (encode_create_job request);
  fingerprint ← map_err (λ _, internal) (request_fingerprint key encoded);
  Ok (mkValidated fingerprint (limits_stream limits)).
End validation.

(** ** Choosing the model *)

Record SelectedModel : Type := mkSelected { selected_id : Z; selected_weights_hash : string }.

Record ModelRoutingData : Type := mkRoutingData {
  data_base_cost : Z;
  data_weights_hash : string;
  data_context_length : Z;
  data_quality : f64;
  data_intent_match : f64;
}.

(** [f64::max] of two numbers. *)
Definition f64_max (x y : f64) : f64 := if f64_lt x y then y else x.

Definition lowercase_set (tags : list string) : gset string :=
  list_to_set (to_ascii_lowercase <$> tags).

Definition f64_of_size (s : gset string) : f64 := f64_of_Z (Z.of_nat (size s)).

Section selection.
Context `{CL : Collation}.
Context (uuid_text : Z → string) (uuid_parse : string → option Z).
Context (st : State) (now : Z).

(** The joins and the WHERE clause of the routing query, for one instance. *)
Definition routable (wanted : string) (tags : list string) (input output required_context : Z)
    (m : Z * ModelRow) (i : Z * InstanceRow) : bool :=
  (instance_model i.2 =? m.1) && bool_decide (instance_status i.2 = Published)
  && enabled m.2 && negb (instance_canary_quarantined st i.1)
  && (required_context <=? model_context_length m.2)
  && (String.eqb wanted "auto" || String.eqb (model_name m.2) wanted)
  && match current_profile (profiles (fleet st)) now m.1 (weights_hash m.2) with
     | Some row => (input <=? maximum_input_tokens (row_profile row))
                   && (output <=? maximum_output_tokens (row_profile row))
     | None => false
     end
  && match nodes st !! instance_node i.2, policies (fleet st) !! instance_node i.2 with
     | Some n, Some p =>
       String.eqb (node_status n) "online"
       && sql_is (last_seen_at n) (λ t, now - LIVENESS_MICROS <? t)
       && negb (tags_rejected tags (policy_reject_tags p))
     | _, _ => false
     end.

(** [ORDER BY m.id, mi.id]. *)
Definition routing_rows (wanted : string) (tags : list string) (input output required_context : Z)
    : list ((Z * ModelRow) * (Z * InstanceRow)) :=
  m ← sort_by (cmp_on fst Z.compare) (map_to_list (models st));
  i ← sort_by (cmp_on fst Z.compare) (map_to_list (instances st));
  if routable wanted tags input output required_context m i then [(m, i)] else [].

Definition intent_of (request_tags instance_tags : gset string) : f64 :=
  if bool_decide (request_tags = ∅) then f64_one
  else f64_div (f64_of_size (request_tags ∩ instance_tags)) (f64_of_size request_tags).

(** The body of the loop over the rows. *)
Definition collect_model (tags : list string) (acc : gmap Z ModelRoutingData)
    (row : (Z * ModelRow) * (Z * InstanceRow)) : ApiResult (gmap Z ModelRoutingData) :=
  let '((id, m), (_, i)) := row in
  samples ← or_internal (u64_try_from (evaluation_samples m));
  fusion ← map_err (λ _, internal)
    (fused_quality (f64_div (f64_of_Z (benchmark_normalized m)) (f64_of_Z 1000000))
       (f64_div (f64_of_Z (glicko_normalized m)) (f64_of_Z 1000000)) samples 20);
  let intent := intent_of (lowercase_set tags) (lowercase_set (instance_tags i)) in
  context ← or_internal (u32_try_from (model_context_length m));
  Ok (match acc !! id with
      | Some d => <[id := mkRoutingData (data_base_cost d) (data_weights_hash d)
          (data_context_length d) (data_quality d) (f64_max (data_intent_match d) intent)]> acc
      | None => <[id := mkRoutingData (base_cost_per_1k_micro m) (weights_hash m) context
          (fused fusion) intent]> acc
      end).

Definition routing_candidate (minimum_cost cost_span : Z) (p : Z * ModelRoutingData)
    : ModelCandidate :=
  mkModelCandidate (uuid_text p.1) (data_quality p.2) (data_intent_match p.2)
    (if cost_span =? 0 then f64_zero
     else f64_div (f64_of_Z (i64_saturating_sub (data_base_cost p.2) minimum_cost))
            (f64_of_Z cost_span))
    true (data_context_length p.2).

Definition no_routable_model : ApiError :=
  unavailable "no_routable_model" "没有满足条件的在线模型".

Definition select_model (virtual_model : string) (tags : list string)
    (authorized_input_tokens authorized_max_output_tokens : Z) : ApiResult SelectedModel :=
  let required_context := i32_saturating_add authorized_input_tokens authorized_max_output_tokens in
  collected ← fold_each (collect_model tags) ∅
    (routing_rows virtual_model tags authorized_input_tokens authorized_max_output_tokens
       required_context);
  let entries := sort_by (cmp_on fst Z.compare) (map_to_list collected) in
  match data_base_cost ∘ snd <$> entries with
  | [] => Err no_routable_model
  | cost :: costs =>
    let minimum_cost := foldl Z.min cost costs in
    let maximum_cost := foldl Z.max cost costs in
    let cost_span := i64_saturating_sub maximum_cost minimum_cost in
    minimum_context ← or_internal (u32_try_from required_context);
    ranked ← map_err (λ _, internal)
      (rank_models (routing_candidate minimum_cost cost_span <$> entries)
         (mkModelRequirements minimum_context (model_weights model_requirements_default)));
    selected ← ok_or (head ranked) no_routable_model;
    id ← or_internal (uuid_parse (scored_id selected));
    d ← or_internal (collected !! id);
    Ok (mkSelected id (data_weights_hash d))
  end.
End selection.

(** ** The anti-abuse assessment *)

(** [map_anti_abuse_error] of the job routes. *)
Definition job_anti_abuse_error (error : AntiAbuseError) : ApiError :=
  match error with
  | IdempotencyConflict =>
    conflict "idempotency_binding_mismatch" "任务幂等键的网络完整性绑定不一致"
  | MissingDeviceBinding => anti_abuse_blocked
  | Database => internal
  | InvalidInput _ => internal
  end.

(** Where a request came from. *)
Record Connection : Type := mkConnection {
  peer : option IpAddr;
  cloudflare_header : option string;
}.

Section assessment.
Context `{C : Crypto}.
Context (cfg : Config) (asn_lookup : IpAddr → option Z) (trusted_proxy_ips : gset IpAddr).

Definition assess_job_creation (st : State) (tx : Tx) (principal : Principal)
    (connection : Connection) (idempotency_key : string) : ApiResult State :=
  network ← map_err job_anti_abuse_error
    (from_connection hmac_sha256 (peer connection) (cloudflare_header connection)
       (token_pepper cfg) asn_lookup trusted_proxy_ips);
  assessment_key ← map_err job_anti_abuse_error
    (job_assessment_key sha256 (principal_user_id principal) idempotency_key);
  '(decision, db) ← map_err job_anti_abuse_error
    (assess_before_create_in_transaction hmac_sha256 (abuse st)
       (mkFresh (tx_now tx) (now_v7 tx 0%nat) (now_v7 tx 1%nat)) (token_pepper cfg)
       (principal_user_id principal) (session_id principal) assessment_key network
       (production cfg));
  _ ← bail_if (negb (bool_decide (disposition decision = Allow))) anti_abuse_blocked;
  Ok (with_abuse st db).
End assessment.

(** ** Creating the job *)

Record CreateJobResponse : Type := mkCreated {
  created_job_id : Z;
  created_status : JobStatus;
  created_model_id : Z;
  created_reserved_cost_micro : Z;
  created_speed_class : string;
  created_replay : bool;
}.

(** The row the pair of UNIQUE columns finds. *)
Definition existing_job (st : State) (user : Z) (key : string) : option (Z * JobRow) :=
  head (List.filter (λ p, (user_id p.2 =? user) && String.eqb (job_idempotency p.2) key)
    (map_to_list (jobs st))).

Definition existing_standard_response (p : Z * JobRow) (fingerprint : string)
    : ApiResult CreateJobResponse :=
  let s := submission p.2 in
  _ ← bail_if (negb (bool_decide (standard_request_fingerprint s = Some fingerprint)))
    (conflict "idempotency_binding_mismatch" "Standard 创建幂等键已绑定到不同请求内容");
  Ok (mkCreated p.1 (status p.2) (model_id p.2) (reserved_cost_micro p.2) (speed_class s) true).

(** [jobs_regulated_binding_v1] of migration 0009, the foreign keys of the bound
    columns and the UNIQUE route. *)
Definition regulated_binding (st : State) (j : JobRow) : bool :=
  if String.eqb (confidentiality_mode j) "standard" then
    bool_decide (regulated_route_id j = None) && bool_decide (regulated_node_id j = None)
    && bool_decide (attestation_report_id j = None)
  else
    String.eqb (confidentiality_mode j) "regulated"
    && sql_is (regulated_route_id j) (λ r, bool_decide (is_Some (regulated_routes (fleet st) !! r)))
    && sql_is (regulated_node_id j) (λ n, bool_decide (is_Some (nodes st !! n)))
    && sql_is (attestation_report_id j) (λ a, bool_decide (is_Some (reports st !! a)))
    && sql_is (model_instance_id j) (λ i, bool_decide (is_Some (instances st !! i)))
    && negb (existsb (λ p, bool_decide (regulated_route_id p.2 = regulated_route_id j))
               (map_to_list (jobs st))).

(** [INSERT INTO jobs]: the keys, the CHECKs of the columns, and what the
    storage trigger of migration 0022 demands of a Standard row. *)
Definition insert_job (st : State) (id : Z) (j : JobRow) : ApiResult State :=
  let s := submission j in
  _ ← require_internal (bool_decide (jobs st !! id = None)
    && negb (existsb (λ p, (user_id p.2 =? user_id j)
               && String.eqb (job_idempotency p.2) (job_idempotency j)) (map_to_list (jobs st)))
    && (0 <=? estimated_input_tokens j) && (0 <? max_output_tokens j)
    && (0 <? reserved_cost_micro j) && (0 <=? attempt_count j) && (0 <? max_attempts s)
    && bool_decide (is_Some (models st !! model_id j)));
  _ ← require_internal (negb (String.eqb (confidentiality_mode j) "standard")
    || bool_decide (standard_payload_storage_version s = Some STORAGE_VERSION)
       && bool_decide (is_Some (standard_request_fingerprint s)));
  _ ← require_internal (regulated_binding st j);
  Ok (with_jobs st (<[id := j]> (jobs st))).

(** Retries of a stream would splice two answers, so it has one attempt. *)
Definition attempts_allowed (cfg : Config) (stream : bool) : Z :=
  if stream then 1 else Z.max (i32_saturating_add (max_job_retries cfg) 1) 1.

Section create.
Context `{SE : Serde, J : JobJson, C : Crypto, CL : Collation}.
Context (cfg : Config) (asn_lookup : IpAddr → option Z) (trusted_proxy_ips : gset IpAddr).
Context (base64_standard_decode : string → option string) (uuid_parse : string → option Z).

(** The reservation of the quote on the consumer's account. *)
Definition reserve (st : State) (user amount : Z) : ApiResult State :=
  a ← or_internal (accounts (books st) !! user);
  _ ← bail_if (i64_saturating_sub (spendable_micro a) (reserved_micro a) <? amount)
    insufficient_quota;
  b ← update_reserved (books st) user amount (λ _, true);
  Ok (with_books st b).

Definition queued_job (tx : Tx) (principal : Principal) (request : CreateJobRequest)
    (validated : ValidatedStandardJob) (model : Z) (b : BillingSnapshot)
    (payload speed : string) : JobRow :=
  mkJob (principal_user_id principal) model None (request_idempotency_key request) Queued
    "standard" None None None (request_input_tokens request) (request_max_output_tokens request)
    (reservation_micro b) (frozen_columns b) None None 0 None None None None None None None
    (mkSubmission payload (encoding_as_str (request_encoding request)) (request_tags request)
       (request_priority request) (attempts_allowed cfg (stream validated)) (tx_now tx)
       (Some (request_fingerprint_value validated)) (Some STORAGE_VERSION) speed)
    (tx_now tx).

(** The part after the assessment; [new_id] is the random UUID of the job. *)
Definition admit_job (st : State) (tx : Tx) (new_id : Z) (principal : Principal)
    (request : CreateJobRequest) (validated : ValidatedStandardJob)
    : ApiResult (CreateJobResponse * State) :=
  speed_model ← map_err (λ e, bad_request "invalid_job" (validation_error_to_string e))
    (parse_speed_qualified_model (virtual_model request));
  model ← select_model uuid_to_string uuid_parse st (tx_now tx) (base_model speed_model)
    (request_tags request) (request_input_tokens request) (request_max_output_tokens request);
  billing ← load_billing_snapshot (profiles (fleet st)) (tx_now tx) (selected_id model)
    (selected_weights_hash model) (request_input_tokens request)
    (request_max_output_tokens request);
  st ← reserve st (principal_user_id principal) (reservation_micro billing);
  payload ← map_err (λ _, internal)
    (encrypt_for_storage (standard_data_key cfg) (tx_nonce tx) new_id Payload
       (request_payload request));
  let speed := speed_as_str (model_speed_class speed_model) in
  st ← insert_job st new_id
    (queued_job tx principal request validated (selected_id model) billing payload speed);
  Ok (mkCreated new_id Queued (selected_id model) (reservation_micro billing) speed false, st).

(** [create_job_authenticated]. *)
Definition create_job (st : State) (tx : Tx) (new_id : Z) (principal : Principal)
    (connection : Connection) (request : CreateJobRequest)
    : ApiResult CreateJobResponse * State :=
  transaction st (
    validated ← validate_create_job base64_standard_decode request (standard_data_key cfg);
    match existing_job st (principal_user_id principal) (request_idempotency_key request) with
    | Some p =>
      response ← existing_standard_response p (request_fingerprint_value validated);
      Ok (Ok response, st)
    | None =>
      st ← assess_job_creation cfg asn_lookup trusted_proxy_ips st tx principal connection
        (request_idempotency_key request);
      '(response, st) ← admit_job st tx new_id principal request validated;
      Ok (Ok response, st)
    end).
End create.
