(* ===== verification/RegulatedJobs.v ===== *)
(** * Regulated jobs: [create_regulated_job] of routes/regulated_jobs.rs

    The consumer redeems a prepared route with an envelope only the attested
    node can open: the route's hardware is checked again, its frozen price is
    reserved, and the job is bound to the route, which is consumed. *)
From S2P Require Import Prelude Text Float64 Fixed Policy Routing Billing Ledger Net AntiAbuse StandardData Hardware Fingerprint Store Envelope Api Snapshot Tables Lease Postings Complete Requests Quotes Dispatch JobOps Admission RegulatedRoutes.

Local Open Scope string_scope.
Local Open Scope list_scope.
Local Open Scope Z_scope.

(** [a || b || ...] where reading a column may fail. *)
Fixpoint any_true (conditions : list (ApiResult bool)) : ApiResult bool :=
  match conditions with
  | [] => Ok false
  | c :: rest => b ← c; if b : bool then Ok true else any_true rest
  end.

Definition column {A} (o : option A) (p : A → bool) : ApiResult bool := a ← or_internal o; Ok (p a).

(** The joined row of the route that is redeemed. *)
Record BoundRoute : Type := mkBound {
  bound_route : RouteRow;
  bound_model : ModelRow;
  bound_instance : InstanceRow;
  bound_to_node : NodeRow;
  bound_report : ReportRow;
}.

Definition load_bound_route (st : State) (route : Z) : option BoundRoute :=
  r ← regulated_routes (fleet st) !! route;
  m ← models st !! route_model r;
  i ← instances st !! route_instance r;
  n ← nodes st !! route_node r;
  ar ← reports st !! route_report r;
  if enabled m then Some (mkBound r m i n ar) else None.

(** The hardware, the model or the report behind the route is no longer what it was. *)
Definition route_lost (st : State) (now_utc : Z) (b : BoundRoute) : ApiResult bool :=
  let '(mkBound r m i n ar) := b in
  any_true [
    Ok (nanos (route_expires_at r) <=? now_utc);
    Ok (negb (bool_decide (instance_status i = Published)));
    Ok (instance_canary_quarantined st (route_instance r));
    Ok (negb (instance_node i =? route_node r));
    Ok (negb (String.eqb (node_status n) "online"));
    column (last_seen_at n) (λ t, nanos t <=? now_utc - nanos LIVENESS_MICROS);
    Ok (negb (bool_decide (node_attestation_report n = Some (route_report r))));
    Ok (match trust_expires_at n with Some t => nanos t <=? now_utc | None => true end);
    Ok (negb (String.eqb (report_status ar) "verified"));
    Ok (negb (String.eqb (key_origin ar) "tee_runtime"));
    column (report_instance ar) (λ x, negb (x =? route_instance r));
    Ok (negb (report_node ar =? route_node r));
    column (report_model_hash ar) (λ h, negb (String.eqb h (weights_hash m)));
    Ok (nanos (expires_at ar) <=? now_utc);
    column (collateral_expires_at ar) (λ t, nanos t <=? now_utc)
  ].

(** The envelope is for another report or instance, or from the node's own key. *)
Definition envelope_misbound (request : CreateRegulatedJobRequest) (b : BoundRoute)
    : ApiResult bool :=
  let e := envelope request in
  any_true [
    Ok (negb (report_id e =? route_report (bound_route b)));
    Ok (negb (envelope_model_instance_id e =? route_instance (bound_route b)));
    column (ephemeral_public_key (bound_report b)) (String.eqb (sender_public_key e))
  ].

Record RegulatedJobResponse : Type := mkRegulatedJob {
  regulated_job_id : Z;
  regulated_status : JobStatus;
  regulated_model : Z;
  regulated_reserved_cost : Z;
  regulated_replay : bool;
}.

(** The answer to a key that has a job: the same route and request, or a conflict. *)
Definition existing_regulated_response (st : State) (p : Z * JobRow)
    (request : CreateRegulatedJobRequest) (fingerprint : string) : ApiResult RegulatedJobResponse :=
  let route := r ← regulated_route_id p.2; regulated_routes (fleet st) !! r in
  _ ← bail_if (negb (bool_decide (regulated_route_id p.2 = Some (regulated_route request)))
      || negb (bool_decide ((route ≫= create_request_fingerprint) = Some fingerprint)))
    (conflict "idempotency_binding_mismatch" "Regulated 创建幂等键已绑定到不同 route 或 envelope");
  Ok (mkRegulatedJob p.1 (status p.2) (model_id p.2) (reserved_cost_micro p.2) true).

(** [UPDATE regulated_routes SET status = 'consumed', ...] with the UNIQUE job. *)
Definition consume_route (st : State) (now route job : Z) (fingerprint : string)
    : ApiResult State :=
  let rs := regulated_routes (fleet st) in
  r ← ok_or (r ← rs !! route;
             if route_prepared r && (now <? route_expires_at r) then Some r else None)
    (conflict "regulated_route_replay" "Regulated route 已被并发消费或刚刚过期");
  _ ← require_internal (negb (existsb (λ p, bool_decide (route_job p.2 = Some job)) (map_to_list rs)));
  Ok (with_routes st (<[route := route_ended r Consumed now (Some job) (Some fingerprint)]> rs)).

Section create.
Context `{C : Crypto, RJ : RegulatedJson}.
Context (cfg : Config) (asn_lookup : IpAddr → option Z) (trusted_proxy_ips : gset IpAddr).

Definition regulated_job (tx : Tx) (principal : Principal) (request : CreateRegulatedJobRequest)
    (r : RouteRow) (b : BillingSnapshot) (opaque_envelope : string) : JobRow :=
  mkJob (principal_user_id principal) (route_model r) (Some (route_instance r))
    (regulated_idempotency_key request) Queued "regulated" (Some (regulated_route request))
    (Some (route_node r)) (Some (route_report r)) (route_input_tokens r)
    (route_max_output_tokens r) (reservation_micro b) (frozen_columns b) None None 0
    None None None None None None None
    (mkSubmission opaque_envelope "regulated_aead_v1" (route_tags r) (route_priority r)
       (attempts_allowed cfg false) (tx_now tx) None None "standard")
    (tx_now tx).

(** The part after the assessment; [new_id] is the random UUID of the job. *)
Definition redeem_route (st : State) (tx : Tx) (new_id : Z) (principal : Principal)
    (request : CreateRegulatedJobRequest) (fingerprint : string)
    : ApiResult (RegulatedJobResponse * State) :=
  b ← ok_or (load_bound_route st (regulated_route request)) (not_found "Regulated prepared route");
  let r := bound_route b in
  _ ← bail_if (negb (route_user r =? principal_user_id principal))
    (forbidden "无权消费该 Regulated route");
  _ ← bail_if (negb (route_prepared r))
    (conflict "regulated_route_replay" "Regulated route 已消费或过期，拒绝重放");
  lost ← route_lost st (now_utc tx 0%nat) b;
  _ ← bail_if lost
    (attestation_failed "prepared route 的节点、模型或硬件报告在消费前已失效");
  billing ← from_frozen_row (route_billing r) (weights_hash (bound_model b));
  available ← check_reserved_capacity_and_policy st (tx_now tx) (now_utc tx 1%nat) (route_node r)
    (route_tags r) (Some (regulated_route request)) (Some (route_report r));
  _ ← bail_if (negb available)
    (policy_rejected "prepared route 的固定节点在消费前已满载或不再满足本机策略");
  _ ← bail_if (instance_canary_quarantined st (route_instance r))
    (attestation_failed "prepared route 的固定模型实例已被 canary 风控隔离");
  misbound ← envelope_misbound request b;
  _ ← bail_if misbound
    (attestation_failed "请求 envelope 与 route/report/model 绑定不一致或使用了错误发送方公钥");
  opaque_envelope ← ok_or (encode_envelope (envelope request))
    (bad_request "invalid_regulated_job" "无法编码 opaque envelope");
  _ ← bail_if (900000 <? str_len opaque_envelope)
    (bad_request "invalid_regulated_job" "Regulated envelope 超过任务载荷上限");
  _ ← bail_if (negb (snapshot_authorized_input_tokens billing =? route_input_tokens r)
      || negb (snapshot_authorized_max_output_tokens billing =? route_max_output_tokens r))
    billing_profile_unavailable;
  st ← reserve st (principal_user_id principal) (reservation_micro billing);
  st ← insert_job st new_id (regulated_job tx principal request r billing opaque_envelope);
  st ← consume_route st (tx_now tx) (regulated_route request) new_id fingerprint;
  Ok (mkRegulatedJob new_id Queued (route_model r) (reservation_micro billing) false, st).

(** The look-up before the transaction is the one inside it. *)
Definition create_regulated_job (st : State) (tx : Tx) (new_id : Z) (principal : Principal)
    (connection : Connection) (request : CreateRegulatedJobRequest)
    : ApiResult RegulatedJobResponse * State :=
  transaction st (
    _ ← map_err (λ e, bad_request "invalid_regulated_job" (validation_error_to_string e))
      (create_regulated_validate request);
    fingerprint ← regulated_request_fingerprint "create-v1" (encode_create_regulated request);
    match existing_job st (principal_user_id principal) (regulated_idempotency_key request) with
    | Some p =>
      response ← existing_regulated_response st p request fingerprint;
      Ok (Ok response, st)
    | None =>
      st ← assess_job_creation cfg asn_lookup trusted_proxy_ips st tx principal connection
        (regulated_idempotency_key request);
      '(response, st) ← redeem_route st tx new_id principal request fingerprint;
      Ok (Ok response, st)
    end).
End create.
