(* ===== verification/NodeRequests.v ===== *)
(** * Node requests on the wire: crates/mindone-protocol nodes.rs, common.rs and models.rs

    What a worker sends when it registers a node, reports its health or
    publishes a model, with the validation of the registration and the
    heartbeat.  A [u16], [u32], [u64] or [i64] field is the integer it denotes. *)
From S2P Require Import Prelude Text Float64 StandardData Hardware Envelope Requests.

Local Open Scope string_scope.
Local Open Scope list_scope.
Local Open Scope Z_scope.

Inductive NodeStatus : Type := Online | Paused | NodeDraining | Offline.
Inductive TrustLevel : Type :=
| Enhanced | TrustStandard | StandardLimited | Experimental | Unverified.

#[export] Instance NodeStatus_eq_dec : EqDecision NodeStatus.
Proof. solve_decision. Defined.
#[export] Instance TrustLevel_eq_dec : EqDecision TrustLevel.
Proof. solve_decision. Defined.

Definition V1_BASE_COST_PER_1K_MICRO : Z := 1000000.
Definition approved_base_cost_per_1k_micro (value : Z) : bool :=
  value =? V1_BASE_COST_PER_1K_MICRO.

(** [<HardwareProfile as Validate>::validate]; a [BTreeSet] has no duplicates. *)
Definition profile_validate (self : HardwareProfile) : Checked () :=
  _ ← check_identifier "operating_system" (operating_system self) 128;
  _ ← check_identifier "operating_system_version" (operating_system_version self) 128;
  _ ← check_identifier "architecture" (architecture self) 64;
  _ ← check_identifier "cpu_model" (cpu_model self) 256;
  _ ← bail_if ((cpu_logical_cores self =? 0) || (ram_total_mib self =? 0))
    (mkValidationError "hardware_profile" "CPU 核心数和总内存必须大于零");
  _ ← bail_if (32 <? Z.of_nat (length (gpus self)))
    (mkValidationError "hardware_profile.gpus" "GPU 数量超过 32 个");
  _ ← for_each (λ gpu, check_identifier "hardware_profile.gpus.name" (gpu_name gpu) 256) (gpus self);
  _ ← bail_if (16 <? Z.of_nat (length (sandbox_mechanisms self)))
    (mkValidationError "hardware_profile.sandbox_mechanisms" "沙盒机制数量超过 16 个");
  bail_if (negb (Nat.eqb (length (remove_dups (sandbox_mechanisms self)))
                   (length (sandbox_mechanisms self))))
    (mkValidationError "hardware_profile.sandbox_mechanisms" "沙盒机制不得重复").

Record NodePolicyDto : Type := mkPolicyDto {
  dto_reject_tags : list string;
  dto_max_concurrent : Z;
  dto_gpu_temp_limit_c : option Z;
  dto_vram_reserve_mib : Z;
}.

(** [<NodePolicyDto as Validate>::validate]. *)
Definition policy_validate (self : NodePolicyDto) : Checked () :=
  _ ← validate_tags (dto_reject_tags self);
  _ ← bail_if (negb (in_range 1 1024 (dto_max_concurrent self)))
    (mkValidationError "max_concurrent" "必须在 1 到 1024 之间");
  _ ← bail_if (some_and (dto_gpu_temp_limit_c self) (λ limit, negb (in_range 30 120 limit)))
    (mkValidationError "gpu_temp_limit_c" "必须在 30 到 120 摄氏度之间");
  bail_if (i64_max <? dto_vram_reserve_mib self)
    (mkValidationError "vram_reserve_mib" "超出协调服务器可结算范围").

Record RegisterNodeRequest : Type := mkRegister {
  register_alias : string;
  register_profile : HardwareProfile;
  register_reject_tags : list string;
  register_max_concurrent : Z;
  register_gpu_temp_limit_c : option Z;
  register_vram_reserve_mib : Z;
}.

(** [<RegisterNodeRequest as Validate>::validate]. *)
Definition register_validate (self : RegisterNodeRequest) : Checked () :=
  _ ← check_identifier "alias" (register_alias self) 64;
  _ ← profile_validate (register_profile self);
  policy_validate (mkPolicyDto (register_reject_tags self) (register_max_concurrent self)
    (register_gpu_temp_limit_c self) (register_vram_reserve_mib self)).

Record RegisterNodeResponse : Type := mkRegistered {
  registered_node : Z;
  registered_status : NodeStatus;
  registered_trust : TrustLevel;
}.

Record HeartbeatRequest : Type := mkBeat {
  beat_tps_milli : Z;
  beat_ttft_ms : Z;
  beat_concurrent : Z;
  beat_gpu_temp_c : option Z;
  beat_vram_used_mib : option Z;
  beat_vram_total_mib : option Z;
  beat_error_rate_ppm : Z;
  beat_rtt_ms : option Z;
  beat_draining : bool;
  beat_policy : option NodePolicyDto;
}.

(** [<HeartbeatRequest as Validate>::validate]. *)
Definition heartbeat_validate (self : HeartbeatRequest) : Checked () :=
  _ ← bail_if ((beat_tps_milli self <? 0) || (beat_ttft_ms self <? 0) || (beat_concurrent self <? 0)
      || negb (in_range 0 1000000 (beat_error_rate_ppm self)))
    (mkValidationError "metrics" "TPS、TTFT、并发不得为负，错误率必须在 0 到 1000000 ppm");
  _ ← bail_if (some_and (beat_gpu_temp_c self) (λ value, negb (in_range 0 200 value)))
    (mkValidationError "gpu_temp_c" "温度必须在 0 到 200 摄氏度之间");
  _ ← bail_if (some_and (beat_rtt_ms self) (λ value, negb (in_range 1 60000 value)))
    (mkValidationError "coordinator_rtt_ms" "协调服务器往返时延必须在 1 到 60000 毫秒之间");
  _ ← bail_if (some_and (beat_vram_used_mib self) (λ value, value <? 0)
      || some_and (beat_vram_total_mib self) (λ value, value <? 0)
      || match beat_vram_used_mib self, beat_vram_total_mib self with
         | Some used, Some total => total <? used
         | _, _ => false
         end)
    (mkValidationError "vram" "显存指标不得为负且已用显存不得超过总显存");
  match beat_policy self with
  | Some policy => policy_validate policy
  | None => Ok tt
  end.

(** [PublishModelRequest] of routes/nodes_models.rs; a missing quality field is 0. *)
Record PublishModelRequest : Type := mkPublish {
  publish_node_id : Z;
  publish_name : string;
  publish_alias : string;
  publish_format : string;
  publish_weights_hash : string;
  publish_size_bytes : Z;
  publish_context_length : Z;
  publish_benchmark_normalized : Z;
  publish_glicko_normalized : Z;
  publish_evaluation_samples : Z;
  publish_base_cost_per_1k_micro : Z;
  publish_tags : list string;
}.
