(* ===== verification/Nodes.v ===== *)
(** * Nodes and models: crates/mindone-coordinator/src/routes/nodes_models.rs

    The transactions that register a node, take its heartbeat, and publish and
    unpublish the models it serves.  The billing profile that [publish_model]
    seeds in the Test environment is left out: what follows is the route of the
    other environments. *)
From S2P Require Import Prelude Text Float64 Billing Ledger AntiAbuse StandardData Hardware Fingerprint Store Envelope Api Snapshot Tables Lease Postings Requests NodeRequests Dispatch JobOps.

Local Open Scope string_scope.
Local Open Scope list_scope.
Local Open Scope Z_scope.

(** [serde_json::to_value] of a profile, as the text of the JSON column. *)
Class ProfileJson : Type := { encode_profile : HardwareProfile → option string }.

Definition protocol_validation_error (error : ProtocolValidationError) : ApiError :=
  bad_request "invalid_protocol_payload" (validation_error_to_string error).

(** ** Trust *)

Definition software_trust_level (profile : HardwareProfile) : TrustLevel :=
  let has := λ mechanism, bool_decide (mechanism ∈ sandbox_mechanisms profile) in
  let system := to_ascii_lowercase (trim (operating_system profile)) in
  if String.eqb system "macos" then
    if has Seatbelt || has AppSandbox then StandardLimited else Unverified
  else if String.eqb system "linux" then
    if has Namespaces && has SeccompBpf && has Landlock then TrustStandard
    else if has Namespaces && has SeccompBpf then StandardLimited
    else Unverified
  else if String.eqb system "windows" then
    if has JobObjects || has AppContainer || has HyperV then Experimental else Unverified
  else Unverified.

Definition trust_level_db (trust : TrustLevel) : string :=
  match trust with
  | Enhanced => "enhanced"
  | TrustStandard => "standard"
  | StandardLimited => "standard-limited"
  | Experimental => "experimental"
  | Unverified => "unverified"
  end.

Definition parse_db_trust_level (value : string) : ApiResult TrustLevel :=
  if String.eqb value "enhanced" then Ok Enhanced
  else if String.eqb value "standard" then Ok TrustStandard
  else if String.eqb value "standard-limited" then Ok StandardLimited
  else if String.eqb value "experimental" then Ok Experimental
  else if String.eqb value "unverified" then Ok Unverified
  else Err internal.

(** ** Registration *)

(** The EXISTS of the upsert: the report the node's enhanced trust rests on. *)
Definition attestation_stands (st : State) (now node : Z) (n : NodeRow) : bool :=
  match node_attestation_report n ≫= λ id, reports st !! id with
  | Some report =>
    (report_node report =? node) && String.eqb (report_status report) "verified"
    && (now <? expires_at report) && sql_is (collateral_expires_at report) (λ t, now <? t)
    && signature_verified report && certificate_chain_verified report && tcb_current report
    && collateral_current report
  | None => false
  end.

(** The condition of its three CASE expressions. *)
Definition trust_kept (st : State) (now node : Z) (n : NodeRow) : bool :=
  String.eqb (trust_level n) "enhanced" && sql_is (trust_expires_at n) (λ t, now <? t)
  && attestation_stands st now node n.

Definition standing_waiting (s : NodeStanding) : NodeStanding :=
  mkStanding (Some "awaiting_first_heartbeat") (verified_uptime_seconds s)
    (verified_heartbeat_count s) (last_verified_heartbeat_at s) (node_created_at s).

(** The row the alias of a user names: UNIQUE (user_id, alias). *)
Definition node_by_alias (st : State) (user : Z) (alias : string) : option (Z * NodeRow) :=
  head (List.filter (λ p, (node_owner p.2 =? user) && String.eqb (node_alias p.2) alias)
    (map_to_list (nodes st))).

Definition node_inserted (now user device : Z) (alias trust profile : string) : NodeRow :=
  mkNode user (Some device) "offline" None trust None None profile alias
    (mkStanding (Some "awaiting_first_heartbeat") 0 0 None now).

Definition node_reregistered (st : State) (now node device : Z) (trust profile : string)
    (n : NodeRow) : NodeRow :=
  let kept := trust_kept st now node n in
  mkNode (node_owner n)
    (match device_key_id n with None => Some device | Some key => Some key end)
    "offline" None (if kept then trust_level n else trust)
    (if kept then trust_expires_at n else None)
    (if kept then node_attestation_report n else None)
    profile (node_alias n) (standing_waiting (standing n)).

(** [INSERT INTO nodes ... ON CONFLICT (user_id,alias) DO UPDATE ... WHERE ...
    RETURNING id,trust_level]: no row when the WHERE refuses the update. *)
Definition upsert_node (st : State) (now new_id user device : Z) (alias trust profile : string)
    : ApiResult (option (Z * NodeRow)) :=
  match node_by_alias st user alias with
  | Some (id, n) =>
    Ok (if bool_decide (device_key_id n = None ∨ device_key_id n = Some device)
        then Some (id, node_reregistered st now id device trust profile n) else None)
  | None =>
    _ ← require_internal (bool_decide (nodes st !! new_id = None));
    Ok (Some (new_id, node_inserted now user device alias trust profile))
  end.

Definition with_policies (st : State) (ps : gmap Z PolicyRow) : State :=
  with_fleet st (mkFleet ps (metrics (fleet st)) (profiles (fleet st)) (regulated_routes (fleet st))
    (challenge_nonces (fleet st)) (heartbeats (fleet st))).

(** The CHECK constraints of [node_policies] and the width of its columns. *)
Definition policy_check (p : PolicyRow) : bool :=
  in_range 1 1024 (policy_max_concurrent p)
  && match policy_gpu_temp_limit_c p with Some t => in_range 30 120 t | None => true end
  && in_range 0 i64_max (policy_vram_reserve_mib p).

Definition put_policy (st : State) (node : Z) (p : PolicyRow) : ApiResult State :=
  _ ← require_internal (policy_check p);
  Ok (with_policies st (<[node := p]> (policies (fleet st)))).

(** [i32::try_from(max_concurrent)] and [i64::try_from(vram_reserve_mib)]. *)
Definition policy_columns (max_concurrent vram_reserve_mib : Z) : ApiResult (Z * Z) :=
  max_concurrent ← ok_or (i32_try_from max_concurrent)
    (bad_request "invalid_node_policy" "节点并发超出数据库范围");
  vram_reserve_mib ← ok_or (i64_try_from vram_reserve_mib)
    (bad_request "invalid_node_policy" "显存保留阈值超出数据库范围");
  Ok (max_concurrent, vram_reserve_mib).

Definition register_node `{ProfileJson} (st : State) (tx : Tx) (principal : Principal)
    (request : RegisterNodeRequest) : ApiResult RegisterNodeResponse * State :=
  transaction st (
    _ ← map_err protocol_validation_error (register_validate request);
    '(max_concurrent, vram_reserve_mib) ←
      policy_columns (register_max_concurrent request) (register_vram_reserve_mib request);
    let software_trust := software_trust_level (register_profile request) in
    hardware_profile ← or_internal (encode_profile (register_profile request));
    stored ← upsert_node st (tx_now tx) (now_v7 tx 0%nat) (principal_user_id principal)
      (device_key_id_of principal) (trim (register_alias request)) (trust_level_db software_trust)
      hardware_profile;
    '(node_id, row) ← ok_or stored
      (conflict "node_device_binding_mismatch" "节点已经绑定到另一设备，不能更换设备密钥");
    let st := with_nodes st (<[node_id := row]> (nodes st)) in
    stored_trust ← parse_db_trust_level (trust_level row);
    st ← put_policy st node_id (mkPolicyRow (register_reject_tags request) max_concurrent
      (register_gpu_temp_limit_c request) vram_reserve_mib);
    Ok (Ok (mkRegistered node_id Offline stored_trust), st)).

(** ** Heartbeats *)

Definition sql_policy_values (policy : NodePolicyDto) : ApiResult (Z * option Z * Z) :=
  '(max_concurrent, vram_reserve_mib) ←
    policy_columns (dto_max_concurrent policy) (dto_vram_reserve_mib policy);
  Ok (max_concurrent, dto_gpu_temp_limit_c policy, vram_reserve_mib).

Definition i32_saturating_sub (a b : Z) : Z := Z.max i32_min (Z.min i32_max (a - b)).
Definition none_or (o : option Z) (p : Z → bool) : bool :=
  match o with Some v => p v | None => true end.

Definition temperature_requires_pause (gpu_limit : option Z) (was_temperature_paused : bool)
    (gpu_temp_c : option Z) : bool :=
  match gpu_limit with
  | Some gpu_limit =>
    let resume_temperature := i32_saturating_sub gpu_limit 5 in
    if was_temperature_paused then none_or gpu_temp_c (λ t, resume_temperature <? t)
    else none_or gpu_temp_c (λ t, gpu_limit <=? t)
  | None => false
  end.

(** The last reason found is the one kept. *)
Definition heartbeat_pause (request : HeartbeatRequest) (max_concurrent : Z)
    (gpu_limit : option Z) (vram_reserve : Z) (was_temperature_paused : bool) : option string :=
  let reason :=
    if temperature_requires_pause gpu_limit was_temperature_paused (beat_gpu_temp_c request)
    then Some "gpu_temperature_limit" else None in
  let reason :=
    match beat_vram_used_mib request, beat_vram_total_mib request with
    | Some used, Some total =>
      if i64_saturating_sub total used <? vram_reserve then Some "vram_reserve" else reason
    | _, _ => reason
    end in
  if max_concurrent <=? beat_concurrent request then Some "max_concurrent" else reason.

Definition heartbeat_status_of (request : HeartbeatRequest) (pause : option string) : string :=
  if beat_draining request then "draining"
  else if bool_decide (is_Some pause) then "paused" else "online".

(** [EXTRACT(EPOCH FROM (now() - last))::bigint]: the cast of the numeric rounds
    to the nearest second, halves away from zero. *)
Definition epoch_seconds (micros : Z) : Z := Z.sgn micros * ((Z.abs micros + 500000) / 1000000).

(** The seconds two heartbeats at most 90 seconds apart verify. *)
Definition uptime_credit (now : Z) (last : option Z) : Z :=
  if sql_is last (λ t, (t <=? now) && (now - LIVENESS_MICROS <=? t))
  then Z.max (epoch_seconds (now - default 0 last)) 0 else 0.

(** [UPDATE nodes SET status = $2, pause_reason = $3, ...]; the sums are BIGINT. *)
Definition node_beaten (now : Z) (status : string) (pause : option string) (n : NodeRow)
    : ApiResult NodeRow :=
  let s := standing n in
  uptime ← or_internal (i64_checked_add (verified_uptime_seconds s)
    (uptime_credit now (last_verified_heartbeat_at s)));
  beats ← or_internal (i64_checked_add (verified_heartbeat_count s) 1);
  Ok (mkNode (node_owner n) (device_key_id n) status (Some now) (trust_level n)
    (trust_expires_at n) (node_attestation_report n) (hardware_profile n) (node_alias n)
    (mkStanding pause uptime beats (Some now) (node_created_at s))).

Record HeartbeatResponse : Type := mkBeatResponse {
  response_node : Z;
  response_status : string;
  accepting_jobs : bool;
  response_pause : option string;
  policy_updated : bool;
}.

(** The inserts into [node_metrics], whose newest row replaces the one before,
    and into [heartbeats]. *)
Definition record_beat (st : State) (now node : Z) (request : HeartbeatRequest) (status : string)
    (accepting : bool) : State :=
  let f := fleet st in
  with_fleet st (mkFleet (policies f)
    (<[node := mkMetrics (beat_tps_milli request) (beat_concurrent request)
         (beat_gpu_temp_c request) (beat_vram_used_mib request) (beat_vram_total_mib request)
         (beat_error_rate_ppm request) (beat_rtt_ms request) (beat_ttft_ms request) now]> (metrics f))
    (profiles f) (regulated_routes f) (challenge_nonces f)
    (heartbeats f ++ [mkHeartbeat node status accepting now])).

Definition node_heartbeat (st : State) (tx : Tx) (principal : Principal) (node_id : Z)
    (request : HeartbeatRequest) : ApiResult HeartbeatResponse * State :=
  transaction st (
    _ ← map_err protocol_validation_error (heartbeat_validate request);
    '(n, p) ← ok_or (n ← nodes st !! node_id; p ← policies (fleet st) !! node_id; Some (n, p))
      (not_found "节点");
    _ ← require_node_device_binding principal (node_owner n) (device_key_id n);
    '(values, st) ←
      match beat_policy request with
      | Some policy =>
        '(max_concurrent, gpu_limit, vram_reserve) ← sql_policy_values policy;
        st ← put_policy st node_id
          (mkPolicyRow (dto_reject_tags policy) max_concurrent gpu_limit vram_reserve);
        Ok ((max_concurrent, gpu_limit, vram_reserve), st)
      | None =>
        Ok ((policy_max_concurrent p, policy_gpu_temp_limit_c p, policy_vram_reserve_mib p), st)
      end;
    let '(max_concurrent, gpu_limit, vram_reserve) := values in
    let was_temperature_paused :=
      String.eqb (node_status n) "paused"
      && bool_decide (pause_reason (standing n) = Some "gpu_temperature_limit") in
    let pause := heartbeat_pause request max_concurrent gpu_limit vram_reserve
      was_temperature_paused in
    let status := heartbeat_status_of request pause in
    let accepting := String.eqb status "online" in
    let st := record_beat st (tx_now tx) node_id request status accepting in
    n ← node_beaten (tx_now tx) status pause n;
    Ok (Ok (mkBeatResponse node_id status accepting pause
              (bool_decide (is_Some (beat_policy request)))),
        with_nodes st (<[node_id := n]> (nodes st)))).
