(* ===== verification/Models.v ===== *)
(** * Published models: crates/mindone-coordinator/src/routes/nodes_models.rs

    Publishing a model on a node, taking it back, and the catalogue consumers
    read.  The two statements that [publish_model] makes outside and inside its
    transaction run on one database here; [name_order] is the collation of
    [models.name]. *)
From S2P Require Import Prelude Text Float64 Billing Ledger AntiAbuse StandardData Hardware Fingerprint Store Envelope Api Snapshot Tables Lease Postings Requests NodeRequests Dispatch JobOps Nodes.
From Stdlib Require Import Ascii.

Local Open Scope string_scope.
Local Open Scope list_scope.
Local Open Scope Z_scope.

(** ** Validation *)

Definition validate_alias (alias : string) : ApiResult () :=
  bail_if (negb (in_range 1 64 (Z.of_nat (length (chars (trim alias))))))
    (bad_request "invalid_alias" "别名长度必须为 1 到 64 个字符").

Definition check_tags (tags : list string) : ApiResult () :=
  bail_if ((32 <? Z.of_nat (length tags))
      || existsb (λ tag, str_is_empty tag || (64 <? str_len tag)
                         || negb (all_bytes (λ b, b <? 128) tag)) tags)
    (bad_request "invalid_tags" "标签必须是最多 32 个、每个不超过 64 字节的 ASCII 字符串").

Definition validate_publish (request : PublishModelRequest) : ApiResult () :=
  _ ← validate_alias (publish_name request);
  _ ← validate_alias (publish_alias request);
  _ ← check_tags (publish_tags request);
  _ ← bail_if (negb (existsb (String.eqb (to_ascii_lowercase (publish_format request)))
                       ["gguf"; "safetensors"]))
    (bad_request "unsafe_model_format" "只允许 GGUF 或 safetensors 模型");
  _ ← bail_if (negb (str_len (publish_weights_hash request) =? 64)
      || negb (all_bytes is_ascii_hexdigit (publish_weights_hash request)))
    (bad_request "invalid_model_hash" "model_weights_hash 必须是 64 位 SHA-256 十六进制值");
  _ ← bail_if ((publish_size_bytes request <=? 0) || (publish_context_length request <=? 0))
    (bad_request "invalid_model_metadata" "模型元数据超出允许范围");
  _ ← bail_if (negb (publish_benchmark_normalized request =? 0)
      || negb (publish_glicko_normalized request =? 0)
      || negb (publish_evaluation_samples request =? 0))
    (bad_request "client_quality_forbidden"
      "公开发布不得自报 benchmark、Glicko 或评价样本；这些字段必须为 0");
  bail_if (negb (approved_base_cost_per_1k_micro (publish_base_cost_per_1k_micro request)))
    (bad_request "client_base_cost_forbidden"
      "base_cost_per_1k_micro 必须等于协调器 v1 唯一受控基准，发布者不能选择费率").

(** ** Publishing *)

(** The row [models_canonical_name_hash_idx] finds. *)
Definition model_by_identity (st : State) (name hash : string) : option (Z * ModelRow) :=
  head (List.filter (λ p, String.eqb (model_name p.2) name && String.eqb (weights_hash p.2) hash)
    (map_to_list (models st))).

(** A new row: the defaults of migrations 0001 and 0008 are the neutral quality. *)
Definition model_inserted (user : Z) (request : PublishModelRequest) : ModelRow :=
  mkModel (trim (publish_name request)) (to_ascii_lowercase (publish_weights_hash request))
    (publish_size_bytes request) "medium" true V1_BASE_COST_PER_1K_MICRO
    (publish_context_length request) 0 500000 0 user (to_ascii_lowercase (publish_format request)).

(** Only the owner's publication enables an existing model again. *)
Definition model_republished (user : Z) (m : ModelRow) : ModelRow :=
  mkModel (model_name m) (weights_hash m) (size_bytes m) (tier m)
    (if model_owner m =? user then true else enabled m) (base_cost_per_1k_micro m)
    (model_context_length m) (benchmark_normalized m) (glicko_normalized m)
    (evaluation_samples m) (model_owner m) (model_format m).

(** [INSERT INTO models ... ON CONFLICT (name,weights_hash) DO UPDATE ... RETURNING]. *)
Definition upsert_model (st : State) (new_id user : Z) (request : PublishModelRequest)
    : ApiResult (Z * ModelRow) :=
  match model_by_identity st (trim (publish_name request))
          (to_ascii_lowercase (publish_weights_hash request)) with
  | Some (id, m) => Ok (id, model_republished user m)
  | None =>
    _ ← require_internal (bool_decide (models st !! new_id = None));
    Ok (new_id, model_inserted user request)
  end.

Definition instance_by_alias (st : State) (node : Z) (alias : string) : option (Z * InstanceRow) :=
  head (List.filter (λ p, (instance_node p.2 =? node) && String.eqb (instance_alias p.2) alias)
    (map_to_list (instances st))).

(** [INSERT INTO model_instances ... ON CONFLICT (node_id,alias) DO UPDATE ... WHERE
    model_instances.model_id = EXCLUDED.model_id RETURNING id]. *)
Definition upsert_instance (st : State) (now new_id model node : Z) (alias : string)
    (tags : list string) : ApiResult (option (Z * InstanceRow)) :=
  match instance_by_alias st node alias with
  | Some (id, i) =>
    Ok (if instance_model i =? model
        then Some (id, mkInstance (instance_model i) (instance_node i) Published None tags
                         (instance_alias i) now)
        else None)
  | None =>
    _ ← require_internal (bool_decide (instances st !! new_id = None));
    Ok (Some (new_id, mkInstance model node Published None tags alias now))
  end.

Record PublishModelResponse : Type := mkPublished {
  published_model : Z;
  published_instance : Z;
  published_tier : string;
}.

Definition publish_model (st : State) (tx : Tx) (principal : Principal)
    (request : PublishModelRequest) : ApiResult PublishModelResponse * State :=
  transaction st (
    _ ← validate_publish request;
    node ← ok_or (nodes st !! publish_node_id request) (not_found "节点");
    _ ← require_node_device_binding principal (node_owner node) (device_key_id node);
    '(model_id, m) ← upsert_model st (now_v7 tx 0%nat) (principal_user_id principal) request;
    let st := with_models st (<[model_id := m]> (models st)) in
    _ ← require_internal (base_cost_per_1k_micro m =? V1_BASE_COST_PER_1K_MICRO);
    stored ← upsert_instance st (tx_now tx) (now_v7 tx 1%nat) model_id (publish_node_id request)
      (trim (publish_alias request)) (publish_tags request);
    '(instance_id, i) ← ok_or stored
      (conflict "model_alias_exists" "此节点的模型别名已经绑定到另一模型");
    Ok (Ok (mkPublished model_id instance_id (tier m)),
        with_instances st (<[instance_id := i]> (instances st)))).

(** ** Taking a model back *)

Definition active_jobs (st : State) (instance : Z) : Z :=
  countb (λ p, bool_decide (model_instance_id p.2 = Some instance)
               && bool_decide (status p.2 = Leased)) (map_to_list (jobs st))
  + countb (λ p, (challenge_instance p.2 =? instance) && challenge_leased p.2)
      (map_to_list (challenges st)).

Definition instance_withdrawn (i : InstanceRow) (s : InstanceStatus) (now : Z) : InstanceRow :=
  mkInstance (instance_model i) (instance_node i) s
    (if bool_decide (s = Unpublished) then Some now else None)
    (instance_tags i) (instance_alias i) (published_at i).

Record UnpublishModelResponse : Type := mkWithdrawn {
  withdrawn_instance : Z;
  withdrawn_status : InstanceStatus;
  withdrawn_active_jobs : Z;
}.

Definition unpublish_model (st : State) (tx : Tx) (principal : Principal) (instance_id : Z)
    : ApiResult UnpublishModelResponse * State :=
  transaction st (
    '(i, n) ← ok_or (i ← instances st !! instance_id; n ← nodes st !! instance_node i; Some (i, n))
      (not_found "模型实例");
    _ ← require_node_device_binding principal (node_owner n) (device_key_id n);
    let active := active_jobs st instance_id in
    let status := if active =? 0 then Unpublished else Draining in
    Ok (Ok (mkWithdrawn instance_id status active),
        with_instances st (<[instance_id := instance_withdrawn i status (tx_now tx)]>
                             (instances st)))).

(** ** The catalogue *)

Record ListedModel : Type := mkListed {
  listed_instance : Z;
  listed_row : InstanceRow;
  listed_model : ModelRow;
  listed_node_status : string;
  listed_trust : TrustLevel;
}.

Record OpenaiModel : Type := mkOpenai { openai_id : string; openai_speed : SpeedClass }.

Section catalogue.
Context (name_order : string → string → comparison).

(** The joins and the WHERE clause. *)
Definition listable (st : State) (name : option string) (p : Z * InstanceRow)
    : option (Z * InstanceRow * ModelRow * NodeRow) :=
  let '(id, i) := p in
  m ← models st !! instance_model i;
  n ← nodes st !! instance_node i;
  if bool_decide (instance_status i = Published) && enabled m
     && negb (instance_canary_quarantined st id)
     && match name with Some name => String.eqb (model_name m) name | None => true end
  then Some (id, i, m, n) else None.

Definition listed_cmp : Z * InstanceRow * ModelRow * NodeRow →
    Z * InstanceRow * ModelRow * NodeRow → comparison :=
  cmp_then (cmp_on (λ r, model_name r.1.2) name_order)
    (cmp_on (λ r, published_at r.1.1.2) Z.compare).

Definition listed (r : Z * InstanceRow * ModelRow * NodeRow) : ApiResult ListedModel :=
  let '(id, i, m, n) := r in
  trust ← parse_db_trust_level (trust_level n);
  Ok (mkListed id i m (node_status n) trust).

Definition query_limit (limit : option Z) : Z := Z.max 1 (Z.min 200 (default 100 limit)).

(** The three names of a model. *)
Definition speed_names (name : string) : list OpenaiModel :=
  [mkOpenai (name +:+ "-fast") Fast; mkOpenai name StandardSpeed; mkOpenai (name +:+ "-slow") Slow].

(** A [BTreeSet] of names: bytewise order, no duplicates. *)
Definition name_set (models : list ListedModel) : list string :=
  btree_elements (list_to_set (model_name <$> (listed_model <$> models))).

Definition list_models (st : State) (name : option string) (limit : option Z)
    : ApiResult (list OpenaiModel * list ListedModel) :=
  models ← fold_each (λ rows r, row ← listed r; Ok (rows ++ [row])) []
    (take (Z.to_nat (query_limit limit))
       (sort_by listed_cmp (omap (listable st name) (map_to_list (instances st)))));
  Ok (name_set models ≫= speed_names, models).
End catalogue.
