(* ===== verification/AuthRoutes.v ===== *)
(** * Logging in: crates/mindone-coordinator/src/routes/auth_routes.rs

    Starting and polling a device login, refreshing a session, logging out and
    the status of a login.  A poll runs several statements outside a
    transaction and asks the provider in between, so it is three functions:
    [poll_begin] up to the question, [provider_poll], and [poll_finish];
    another request may run between any two.  A statement outside a transaction
    stays although the handler answers an error after it. *)
From S2P Require Import Prelude Text Net Ledger StandardData Store Api Postings JobOps Tables NodeRequests Nodes Identity.

Local Open Scope string_scope.
Local Open Scope list_scope.
Local Open Scope Z_scope.

Record DeviceStartResponse : Type := mkStartResponse {
  start_flow_id : Z;
  response_user_code : string;
  response_verification_uri : string;
  response_expires_in : Z;
  response_interval : Z;
  response_challenge : string;
}.

Record DevicePollRequest : Type := mkPollRequest { poll_flow_id : Z; poll_signature : string }.

(** The two answers of a poll that are not errors. *)
Record Login : Type := mkLogin {
  login_access_token : string;
  login_refresh_token : string;
  login_refresh_challenge : string;
  login_expires_in : Z;
  login_fingerprint : string;
  login_user : Z;
  login_username : string;
}.
Inductive PollAnswer : Type := StillPending (interval : Z) | LoggedIn (login : Login).

Record DeviceBoundRefreshRequest : Type := mkRefresh {
  presented_refresh_token : string;
  refresh_signature : string;
}.

Record RefreshResponse : Type := mkRefreshed {
  new_access_token : string;
  new_refresh_token : string;
  next_refresh_challenge : string;
  new_expires_in : Z;
}.

(** ** Rows *)

Definition new_flow (cfg : AuthConfig) (start : ProviderStart) (interval expires : Z)
    (public_key fingerprint challenge : string) : FlowRow :=
  mkFlow (provider_name (auth_provider cfg)) (start_device_code start) (start_user_code start)
    interval expires "pending" None None None (Some public_key) (Some fingerprint) (Some ED25519)
    (Some challenge) None.

(** [UPDATE auth_device_flows SET status = ..., completed_at = ...]. *)
Definition flow_ended (status : string) (completed : option Z) (f : FlowRow) : FlowRow :=
  mkFlow (flow_provider f) (provider_device_code f) (flow_user_code f) (interval_seconds f)
    (flow_expires_at f) status (flow_user f) (last_polled_at f) completed (device_public_key f)
    (device_key_fingerprint_of f) (device_key_algorithm f) (device_key_challenge f)
    (email_authorized f).
Definition flow_polled (now : Z) (f : FlowRow) : FlowRow :=
  mkFlow (flow_provider f) (provider_device_code f) (flow_user_code f) (interval_seconds f)
    (flow_expires_at f) (flow_status f) (flow_user f) (Some now) (completed_at f)
    (device_public_key f) (device_key_fingerprint_of f) (device_key_algorithm f)
    (device_key_challenge f) (email_authorized f).
Definition flow_slowed (interval : Z) (f : FlowRow) : FlowRow :=
  mkFlow (flow_provider f) (provider_device_code f) (flow_user_code f) interval
    (flow_expires_at f) (flow_status f) (flow_user f) (last_polled_at f) (completed_at f)
    (device_public_key f) (device_key_fingerprint_of f) (device_key_algorithm f)
    (device_key_challenge f) (email_authorized f).
Definition flow_authorized (now user : Z) (f : FlowRow) : FlowRow :=
  mkFlow (flow_provider f) (provider_device_code f) (flow_user_code f) (interval_seconds f)
    (flow_expires_at f) "authorized" (Some user) (last_polled_at f) (Some now)
    (device_public_key f) (device_key_fingerprint_of f) (device_key_algorithm f) None
    (email_authorized f).

Definition update_flow (db : IdDb) (id : Z) (f : FlowRow → FlowRow) : IdDb :=
  with_flows db (alter f id (flows db)).

(** The primary key and, for the mailbox provider, the two unique indexes. *)
Definition insert_flow (db : IdDb) (id : Z) (f : FlowRow) : ApiResult IdDb :=
  _ ← require_internal (bool_decide (flows db !! id = None));
  _ ← require_internal (0 <? interval_seconds f);
  _ ← require_internal (negb (String.eqb (flow_provider f) "email"
    && (has_row (λ g, String.eqb (flow_provider g) "email"
                      && String.eqb (provider_device_code g) (provider_device_code f)) (flows db)
        || has_row (λ g, String.eqb (flow_provider g) "email"
                         && String.eqb (flow_status g) "pending"
                         && String.eqb (flow_user_code g) (flow_user_code f)) (flows db))));
  Ok (with_flows db (<[id := f]> (flows db))).

Section routes.
Context `{C : Crypto, Ed25519} (uuid_text : Z → string).

(** ** Starting *)

Definition auth_device_start (cfg : AuthConfig) (db : IdDb) (tx : Tx) (d : Draws)
    (github : GithubAnswers) (public_key : string) : ApiResult DeviceStartResponse * IdDb :=
  id_transaction db (
    public_key_bytes ← validate_device_public_key public_key;
    let device_public_key := hex_encode public_key_bytes in
    let fingerprint := device_key_fingerprint public_key_bytes in
    let challenge := hex_encode (flow_challenge_bytes d) in
    start ← map_err map_provider_error (provider_start cfg d github fingerprint);
    let flow_id := now_v7 tx 0%nat in
    expires ← expiry (start_expires_in start) (now_utc tx 0%nat);
    seconds ← or_internal (i32_try_from (start_interval start));
    let interval := Z.max seconds 1 in
    db ← insert_flow db flow_id
      (new_flow cfg start interval (to_timestamp expires) device_public_key fingerprint challenge);
    Ok (mkStartResponse flow_id (start_user_code start) (start_verification_uri start)
          (start_expires_in start) interval challenge, db)).

(** ** Polling *)

(** What a poll knows of its flow when it asks the provider. *)
Definition poll_begin (cfg : AuthConfig) (db : IdDb) (tx : Tx) (request : DevicePollRequest)
    : ApiResult (PollAnswer + FlowRow) * IdDb :=
  let id := poll_flow_id request in
  let checked :=
    row ← ok_or (flows db !! id) (not_found "设备登录流程");
    _ ← bail_if (negb (String.eqb (flow_provider row) (provider_name (auth_provider cfg))))
      (conflict "auth_provider_changed" "认证提供者已经变更，请重新发起登录");
    _ ← bail_if (negb (String.eqb (flow_status row) "pending"))
      (conflict "device_flow_completed" "设备登录流程已经结束，请重新发起登录");
    public_key ← ok_or (device_public_key row)
      (authentication "设备登录流程缺少密钥绑定，请重新发起登录");
    fingerprint ← ok_or (device_key_fingerprint_of row)
      (authentication "设备登录流程缺少密钥指纹，请重新发起登录");
    algorithm ← ok_or (device_key_algorithm row)
      (authentication "设备登录流程缺少密钥算法，请重新发起登录");
    challenge ← ok_or (device_key_challenge row)
      (authentication "设备登录流程缺少持有证明挑战，请重新发起登录");
    _ ← verify_device_key_proof id public_key fingerprint algorithm challenge
          (poll_signature request);
    Ok row in
  match checked with
  | Err e => (Err e, db)
  | Ok row =>
    let now := now_utc tx 0%nat in
    if flow_expires_at row * 1000 <=? now then
      (Err (authentication "设备验证码已经过期"),
       update_flow db id (λ f, flow_ended "expired" (completed_at f) f))
    else if match last_polled_at row with
            | Some last => now - last * 1000 <? interval_seconds row * NANOS_PER_SECOND
            | None => false
            end
    then (Ok (inl (StillPending (interval_seconds row))), db)
    else (Ok (inr row), update_flow db id (flow_polled (tx_now tx)))
  end.

(** The account of an identity: the mailbox provider has registered it before,
    the others create it or refresh its name. *)
Definition user_upserted (name : string) (u : UserRow) : UserRow :=
  mkUser (user_provider u) (provider_subject u) name (email u) (password_hash u)
    (email_verified_at u).

(** [INSERT INTO users ... ON CONFLICT (provider, provider_subject) DO UPDATE]. *)
Definition upsert_user (db : IdDb) (new_id : Z) (provider : string) (identity : ProviderIdentity)
    : ApiResult (Z * IdDb) :=
  match find_row (λ u, String.eqb (user_provider u) provider
                       && String.eqb (provider_subject u) (subject identity)) (users db) with
  | Some (id, u) =>
    Ok (id, with_users db (<[id := user_upserted (identity_username identity) u]> (users db)))
  | None =>
    _ ← require_internal (bool_decide (users db !! new_id = None));
    Ok (new_id, with_users db (<[new_id := mkUser provider (subject identity)
      (identity_username identity) None None None]> (users db)))
  end.

Definition login_account (cfg : AuthConfig) (db : IdDb) (new_id : Z) (identity : ProviderIdentity)
    : ApiResult (Z * IdDb) :=
  match auth_provider cfg with
  | Email =>
    '(id, _) ← ok_or (find_row (λ u, String.eqb (user_provider u) "email"
        && String.eqb (provider_subject u) (subject identity)
        && bool_decide (email u = Some (subject identity))
        && bool_decide (is_Some (email_verified_at u))) (users db))
      (authentication "邮箱账户不存在或尚未完成验证");
    Ok (id, db)
  | kind => upsert_user db new_id (provider_name kind) identity
  end.

(** The quota account, with its bootstrap grant in local development. *)
Definition open_account (cfg : AuthConfig) (db : IdDb) (tx : Tx) (user : Z) : ApiResult IdDb :=
  let initial_quota :=
    if bool_decide (auth_provider cfg = LocalDevelopment)
    then Z.max (dev_initial_quota_micro cfg) 0 else 0 in
  match accounts (id_books db) !! user with
  | Some _ => Ok db
  | None =>
    let books := set_account (id_books db) user new_account in
    books ←
      (if 0 <? initial_quota then
         ledger ← map_err (λ _, internal)
           (ledger_new uuid_text sha256_hex (now_v7 tx 1%nat) user None
              ("local-dev-bootstrap:" +:+ uuid_text user) BootstrapGrant initial_quota 0
              initial_quota (now_utc tx 1%nat) GENESIS_HASH
              {[ "environment" := "local-development";
                 "provider" := provider_name (auth_provider cfg) ]});
         insert_quota books ledger
       else Ok books);
    Ok (with_id_books db books)
  end.

(** [INSERT INTO device_keys ... ON CONFLICT (user_id,fingerprint) DO UPDATE]. *)
Definition upsert_device_key (db : IdDb) (tx : Tx) (user : Z)
    (fingerprint public_key algorithm : string) : ApiResult (Z * IdDb) :=
  match find_row (λ k, (key_user k =? user) && String.eqb (key_fingerprint k) fingerprint)
          (device_keys db) with
  | Some (id, k) =>
    Ok (id, with_device_keys db (<[id := mkDeviceKey (key_user k) (key_fingerprint k) public_key
      algorithm (key_created_at k) (Some (tx_now tx)) None]> (device_keys db)))
  | None =>
    let id := now_v7 tx 2%nat in
    _ ← require_internal (bool_decide (device_keys db !! id = None));
    Ok (id, with_device_keys db (<[id := mkDeviceKey user fingerprint public_key algorithm
      (tx_now tx) None None]> (device_keys db)))
  end.

(** The unique columns of [sessions], among the other rows. *)
Definition session_unique (db : IdDb) (id : Z) (access refresh : string) : bool :=
  negb (has_row (λ s, String.eqb (access_token_hash s) access) (delete id (sessions db)))
  && negb (has_row (λ s, String.eqb (refresh_token_hash s) refresh) (delete id (sessions db))).

Definition insert_session (db : IdDb) (id : Z) (s : SessionRow) : ApiResult IdDb :=
  _ ← require_internal (bool_decide (sessions db !! id = None));
  _ ← require_internal (session_unique db id (access_token_hash s) (refresh_token_hash s));
  Ok (with_sessions db (<[id := s]> (sessions db))).

(** The transaction of an authorised poll; the outer [result] is what rolls
    back, the inner one the answer. *)
Definition authorized_tx (cfg : AuthConfig) (db : IdDb) (tx : Tx) (d : Draws)
    (id : Z) (row : FlowRow) (identity : ProviderIdentity)
    : ApiResult (ApiResult PollAnswer * IdDb) :=
  flow ← or_internal (flows db !! id);
  _ ← bail_if (negb (String.eqb (flow_status flow) "pending"))
    (conflict "device_flow_completed" "设备登录流程已经被另一请求完成");
  if flow_expires_at flow * 1000 <=? now_utc tx 0%nat then
    Ok (Err (authentication "设备验证码已经过期"),
        update_flow db id (flow_ended "expired" (Some (tx_now tx))))
  else
    '(user, db) ← login_account cfg db (now_v7 tx 0%nat) identity;
    db ← open_account cfg db tx user;
    fingerprint ← or_internal (device_key_fingerprint_of row);
    public_key ← or_internal (device_public_key row);
    algorithm ← or_internal (device_key_algorithm row);
    '(device, db) ← upsert_device_key db tx user fingerprint public_key algorithm;
    let issued := issue cfg d in
    let challenge := new_refresh_challenge d in
    access_expires ← expiry (access_token_ttl cfg) (now_utc tx 2%nat);
    refresh_expires ← expiry (refresh_token_ttl cfg) (now_utc tx 3%nat);
    db ← insert_session db (now_v7 tx 3%nat)
      (mkSession user (issued_access_hash issued) (issued_refresh_hash issued)
         (to_timestamp access_expires) (to_timestamp refresh_expires) (tx_now tx) None None
         (Some device) (Some challenge));
    let db := update_flow db id (flow_authorized (tx_now tx) user) in
    Ok (Ok (LoggedIn (mkLogin (access_token issued) (refresh_token issued) challenge
              (access_token_ttl cfg) fingerprint user (identity_username identity))), db).

Definition poll_finish (cfg : AuthConfig) (db : IdDb) (tx : Tx) (d : Draws) (id : Z)
    (row : FlowRow) (poll : result ProviderError ProviderPoll) : ApiResult PollAnswer * IdDb :=
  match poll with
  | Err e => (Err (map_provider_error e), db)
  | Ok Pending => (Ok (StillPending (interval_seconds row)), db)
  | Ok SlowDown =>
    let next := i32_saturating_add (interval_seconds row) 5 in
    (Ok (StillPending next),
     update_flow db id (λ f, if String.eqb (flow_status f) "pending" then flow_slowed next f else f))
  | Ok Denied =>
    (Err (authentication "用户拒绝了设备登录"),
     update_flow db id (flow_ended "denied" (Some (tx_now tx))))
  | Ok Expired =>
    (Err (authentication "设备验证码已经过期"),
     update_flow db id (flow_ended "expired" (Some (tx_now tx))))
  | Ok (Authorized identity) =>
    match authorized_tx cfg db tx d id row identity with
    | Ok (answer, db') => (answer, db')
    | Err e => (Err e, db)
    end
  end.

(** The handler, run without interruption. *)
Definition auth_device_poll (cfg : AuthConfig) (db : IdDb) (begin finish : Tx) (d : Draws)
    (github : GithubAnswers) (request : DevicePollRequest) : ApiResult PollAnswer * IdDb :=
  match poll_begin cfg db begin request with
  | (Err e, db) => (Err e, db)
  | (Ok (inl answer), db) => (Ok answer, db)
  | (Ok (inr row), db) =>
    poll_finish cfg db finish d (poll_flow_id request) row
      (provider_poll cfg db (tx_now finish) github (provider_device_code row))
  end.

(** ** Refreshing *)

Definition session_rotated (now : Z) (issued : IssuedTokens) (access_expires refresh_expires : Z)
    (challenge : string) (s : SessionRow) : SessionRow :=
  mkSession (session_user s) (issued_access_hash issued) (issued_refresh_hash issued)
    access_expires refresh_expires (session_created_at s) (Some now) (session_revoked_at s)
    (session_device s) (Some challenge).

(** The session a refresh token opens, with its device key. *)
Definition refreshable (db : IdDb) (now : Z) (hash : string)
    : option (Z * SessionRow * DeviceKeyRow) :=
  '(id, s) ← find_row (λ s, String.eqb (refresh_token_hash s) hash) (sessions db);
  device ← session_device s;
  k ← device_keys db !! device;
  if bool_decide (session_revoked_at s = None) && (now <? refresh_expires_at s)
     && bool_decide (key_revoked_at k = None)
  then Some (id, s, k) else None.

Definition auth_refresh (cfg : AuthConfig) (db : IdDb) (tx : Tx) (d : Draws)
    (request : DeviceBoundRefreshRequest) : ApiResult RefreshResponse * IdDb :=
  id_transaction db (
    '(id, s, k) ← ok_or
      (refreshable db (tx_now tx) (token_hash cfg (presented_refresh_token request)))
      (authentication "刷新令牌已失效或已撤销");
    challenge ← ok_or (refresh_challenge s)
      (authentication "此旧会话没有设备刷新证明，请重新运行 mindone auth login");
    _ ← verify_refresh_key_proof (presented_refresh_token request) (key_public k)
          (key_fingerprint k) (key_algorithm k) challenge (refresh_signature request);
    let issued := issue cfg d in
    let next := new_refresh_challenge d in
    access_expires ← expiry (access_token_ttl cfg) (now_utc tx 0%nat);
    refresh_expires ← expiry (refresh_token_ttl cfg) (now_utc tx 1%nat);
    _ ← require_internal (session_unique db id (issued_access_hash issued) (issued_refresh_hash issued));
    Ok (mkRefreshed (access_token issued) (refresh_token issued) next (access_token_ttl cfg),
        with_sessions db (<[id := session_rotated (tx_now tx) issued (to_timestamp access_expires)
          (to_timestamp refresh_expires) next s]> (sessions db)))).

(** ** Logging out *)

(** [SET revoked_at = COALESCE(revoked_at, now())]. *)
Definition session_revoked (now : Z) (s : SessionRow) : SessionRow :=
  mkSession (session_user s) (access_token_hash s) (refresh_token_hash s) (access_expires_at s)
    (refresh_expires_at s) (session_created_at s) (session_last_used_at s)
    (Some (default now (session_revoked_at s))) (session_device s) (refresh_challenge s).
Definition key_revoked (now : Z) (k : DeviceKeyRow) : DeviceKeyRow :=
  mkDeviceKey (key_user k) (key_fingerprint k) (key_public k) (key_algorithm k) (key_created_at k)
    (key_rotated_at k) (Some (default now (key_revoked_at k))).

Definition revoke_device_sessions (db : IdDb) (now device : Z) : IdDb :=
  with_sessions db ((λ s, if bool_decide (session_device s = Some device)
                          then session_revoked now s else s) <$> sessions db).

(** The answer: whether the device key was revoked too. *)
Definition auth_logout (cfg : AuthConfig) (db : IdDb) (tx : Tx) (refresh_token : string)
    : ApiResult bool * IdDb :=
  id_transaction db (
    '(id, s) ← ok_or (find_row (λ s, String.eqb (refresh_token_hash s)
                                       (token_hash cfg refresh_token)) (sessions db))
      (authentication "刷新令牌无效");
    Ok (match session_device s with
        | Some device =>
          let db := revoke_device_sessions db (tx_now tx) device in
          (true, with_device_keys db (alter (key_revoked (tx_now tx)) device (device_keys db)))
        | None =>
          (false, with_sessions db (alter (session_revoked (tx_now tx)) id (sessions db)))
        end)).

(** ** Status *)

Record AuthStatusResponse : Type := mkAuthStatus {
  status_user : Z;
  status_username : string;
  status_trust_level : TrustLevel;
  status_fingerprint : option string;
  logged_in_at : Z;
  status_last_used_at : option Z;
  device_key_revoked : option bool;
  device_key_created_at : option Z;
  device_key_rotated_at : option Z;
  registered_nodes : Z;
  best_node_trust_level : option TrustLevel;
}.

Definition trust_rank (trust_level : string) : Z :=
  if String.eqb trust_level "enhanced" then 5
  else if String.eqb trust_level "standard" then 4
  else if String.eqb trust_level "standard-limited" then 3
  else if String.eqb trust_level "experimental" then 2
  else 1.

(** [ORDER BY CASE trust_level ... DESC, id LIMIT 1]. *)
Definition best_node_trust (owned : list (Z * NodeRow)) : option string :=
  trust_level ∘ snd <$> head (sort_by
    (cmp_then (cmp_on (λ p, trust_rank (trust_level p.2)) (cmp_rev Z.compare))
       (cmp_on fst Z.compare)) owned).

Definition auth_status (cfg : AuthConfig) (db : IdDb) (st : State) (now : Z)
    (authorization : option string) : ApiResult AuthStatusResponse * IdDb :=
  match authenticate cfg db now authorization with
  | (Err e, db) => (Err e, db)
  | (Ok (principal, name), db) =>
    let owned := List.filter (λ p, node_owner p.2 =? principal_user_id principal)
                   (map_to_list (nodes st)) in
    (s ← or_internal (sessions db !! session_id principal);
     _ ← require_internal (session_user s =? principal_user_id principal);
     best ← match best_node_trust owned with
            | Some level => Some <$> parse_db_trust_level level
            | None => Ok None
            end;
     let k := session_device s ≫= λ id, device_keys db !! id in
     Ok (mkAuthStatus (principal_user_id principal) name Unverified (key_fingerprint <$> k)
           (session_created_at s) (session_last_used_at s)
           ((λ k, bool_decide (is_Some (key_revoked_at k))) <$> k)
           (key_created_at <$> k) (k ≫= key_rotated_at) (Z.of_nat (length owned)) best), db)
  end.
End routes.
