(* ===== verification/WebAuth.v ===== *)
(** * Mailbox accounts: crates/mindone-coordinator/src/web_auth.rs, password.rs and email.rs

    Registering with a mailbox and a password, verifying the mailbox, and
    confirming a device login in the browser.  Argon2 and the mail transport
    are arguments; the limits on concurrent hashing are left out. *)
From S2P Require Import Prelude Text Net StandardData Envelope Api Postings JobOps Identity AuthRoutes.
From Stdlib Require Import Ascii.

Local Open Scope string_scope.
Local Open Scope list_scope.
Local Open Scope Z_scope.

(** Argon2id of a password and a salt, and its verification against a stored
    hash; [None] is an error of the library. *)
Class Argon2 : Type := {
  argon2_hash : string → string → option string;
  argon2_verify : string → string → option bool;
}.

(** [lettre]: which text is a mailbox, and whether a message (from, to,
    subject, body) was sent. *)
Class Lettre : Type := {
  mailbox : string → bool;
  deliver : string → string → string → string → bool;
}.

Definition MAX_EMAIL_BYTES : Z := 254.
Definition MAX_USERNAME_CHARS : Z := 64.
Definition MAX_PASSWORD_BYTES : Z := 1024.
Definition EMAIL_USER_CODE_CHARS : Z := 12.

Record RegisterForm : Type := mkRegisterForm {
  form_email : string;
  form_username : string;
  form_password : string;
  form_password_confirm : string;
}.
Record LoginForm : Type := mkLoginForm {
  login_email : string;
  login_password : string;
  login_user_code : string;
}.

(** ** Checks of the forms *)

Definition validate_password_input (password : string) : ApiResult () :=
  bail_if (negb (in_range 8 MAX_PASSWORD_BYTES (str_len password)))
    (bad_request "invalid_password_length" "密码长度必须为 8 到 1024 字节").

(** The bytes '@', '.' and '-'. *)
Definition at_sign : ascii := byte_of 64.
Definition is_dot (b : Z) : bool := b =? 46.

Definition normalize_email (value : string) : ApiResult string :=
  let email := trim value in
  '(local, domain) ← ok_or (split_once at_sign email)
    (bad_request "invalid_email" "邮箱必须包含本地部分和域名");
  _ ← bail_if ((MAX_EMAIL_BYTES <? str_len email) || negb (all_bytes (λ b, b <? 128) email)
      || str_is_empty local || str_is_empty domain
      || match head (bytes_of domain) with Some b => is_dot b | None => false end
      || match last (bytes_of domain) with Some b => is_dot b | None => false end
      || negb (existsb is_dot (bytes_of domain))
      || existsb is_whitespace (chars email))
    (bad_request "invalid_email" "邮箱格式无效");
  Ok (to_ascii_lowercase email).

Definition validate_registration (form : RegisterForm) : ApiResult (string * string) :=
  _ ← bail_if (negb (String.eqb (form_password form) (form_password_confirm form)))
    (bad_request "password_mismatch" "两次密码不一致");
  _ ← validate_password_input (form_password form);
  email ← normalize_email (form_email form);
  let username := trim (form_username form) in
  _ ← bail_if (str_is_empty username || (MAX_USERNAME_CHARS <? Z.of_nat (length (chars username)))
      || has_control username)
    (bad_request "invalid_username" "用户名必须为 1 到 64 个非控制字符");
  Ok (email, username).

(** The characters that survive a filter which only removes ASCII. *)
Fixpoint filter_bytes (p : Z → bool) (s : string) : string :=
  match s with
  | EmptyString => EmptyString
  | String a s' => if p (byte_val a) then String a (filter_bytes p s') else filter_bytes p s'
  end.

Definition normalize_user_code (value : string) : ApiResult string :=
  let invalid := authentication "设备验证码无效，请核对自己终端显示的验证码" in
  _ ← bail_if (has_control value) invalid;
  let canonical := to_ascii_uppercase
    (filter_bytes (λ b, negb (b =? 45) && negb (is_ascii_whitespace b)) (trim value)) in
  _ ← bail_if (negb (str_len canonical =? EMAIL_USER_CODE_CHARS)
      || negb (all_bytes is_ascii_hexdigit canonical)) invalid;
  Ok canonical.

Definition valid_verification_token (token : string) : bool :=
  (str_len token =? 48)
  && match strip_prefix "mnev_" token with
     | Some rest => all_bytes (λ b, is_ascii_alphanumeric b || (b =? 95) || (b =? 45)) rest
     | None => false
     end.

(** ** Constraints of [users] and [email_verification_tokens] *)

Definition email_char (b : Z) : bool :=
  negb (b =? 64) && negb (in_range 9 13 b) && negb (b <? 33) && negb (b =? 127).

(** [users_email_normalized_v1] on an ASCII text: one '@' and a dot inside the
    part after it. *)
Definition email_check (email : string) : bool :=
  in_range 3 254 (str_len email)
  && String.eqb (to_ascii_lowercase email) email
  && match split_once at_sign email with
     | Some (local, domain) =>
       negb (str_is_empty local) && all_bytes email_char local && all_bytes email_char domain
       && existsb is_dot (tail (rev (tail (bytes_of domain))))
     | None => false
     end.

Section web.
Context `{C : Crypto, Ed25519, Argon2, Lettre}.

(** ** Passwords and mail *)

Definition hash_password (password salt : string) : ApiResult string :=
  or_internal (argon2_hash password salt).
Definition verify_password (password hash : string) : ApiResult bool :=
  or_internal (argon2_verify password hash).

Definition new_one_time_token (prefix : string) (bytes : string) : string :=
  prefix +:+ base64_encode bytes.

Definition newline : string := String (byte_of 10) EmptyString.

(** [from] is the configured sender. *)
Definition send_verification_email (from to_email username verification_url : string)
    : ApiResult () :=
  _ ← require_internal (mailbox from);
  _ ← bail_if (negb (mailbox to_email)) (bad_request "invalid_email" "收件人邮箱格式无效");
  let body :=
    "你好 " +:+ username +:+ "，" +:+ newline +:+ newline
    +:+ "感谢注册 MindOne AI 算力网络。" +:+ newline +:+ newline
    +:+ "请点击以下链接验证你的邮箱：" +:+ newline
    +:+ verification_url +:+ newline +:+ newline
    +:+ "该链接将在 24 小时后过期。" +:+ newline +:+ newline
    +:+ "如果你没有注册过 MindOne，请忽略此邮件。" +:+ newline +:+ newline
    +:+ "—— MindOne 团队" in
  require_internal (deliver from to_email "验证你的 MindOne 账户" body).

(** ** Registering *)

(** [INSERT INTO users ... ON CONFLICT DO NOTHING]: [None] is no row. *)
Definition insert_email_user (db : IdDb) (id : Z) (email username hash : string)
    : ApiResult (option IdDb) :=
  _ ← require_internal (email_check email);
  Ok (if bool_decide (is_Some (users db !! id))
         || has_row (λ u, String.eqb (user_provider u) "email"
                          && String.eqb (provider_subject u) email) (users db)
         || has_row (λ u, bool_decide (Identity.email u = Some email)) (users db)
      then None
      else Some (with_users db
        (<[id := mkUser "email" email username (Some email) (Some hash) None]> (users db)))).

Definition HOURS_24 : Z := 24 * 3600 * NANOS_PER_SECOND.

Definition insert_verification (db : IdDb) (id : Z) (v : VerificationRow) : ApiResult IdDb :=
  _ ← require_internal (bool_decide (verifications db !! id = None)
        && negb (has_row (λ w, String.eqb (verification_hash w) (verification_hash v))
                   (verifications db))
        && (verification_created_at v <? verification_expires_at v));
  Ok (with_verifications db (<[id := v]> (verifications db))).

(** [salt] is drawn by [hash_password], [sender] and [base_url] are configured. *)
Definition register_handler (cfg : AuthConfig) (sender base_url : string) (db : IdDb) (tx : Tx)
    (d : Draws) (salt : string) (form : RegisterForm) : ApiResult () * IdDb :=
  id_transaction db (
    '(email, username) ← validate_registration form;
    password_hash ← hash_password (form_password form) salt;
    let verification_token := new_one_time_token "mnev_" (verification_bytes d) in
    let verification_url := base_url +:+ "/auth/verify-email?token=" +:+ verification_token in
    let user_id := now_v7 tx 0%nat in
    inserted ← insert_email_user db user_id email username password_hash;
    db ← ok_or inserted (conflict "email_exists" "该邮箱已注册；请登录或联系运维人员恢复账户");
    db ← insert_verification db (now_v7 tx 1%nat)
      (mkVerification user_id (token_hash cfg verification_token)
         (to_timestamp (now_utc tx 0%nat + HOURS_24)) (tx_now tx) None);
    _ ← send_verification_email sender email username verification_url;
    Ok (tt, db)).

(** ** Verifying the mailbox *)

Inductive VerifyAnswer : Type := InvalidLink | LinkExpired | AlreadyVerified | MailboxVerified.

#[export] Instance VerifyAnswer_eq_dec : EqDecision VerifyAnswer.
Proof. solve_decision. Defined.

Definition user_verified (now : Z) (u : UserRow) : UserRow :=
  mkUser (user_provider u) (provider_subject u) (username u) (Identity.email u) (password_hash u)
    (Some (default now (email_verified_at u))).
Definition verification_used (now : Z) (v : VerificationRow) : VerificationRow :=
  mkVerification (verification_user v) (verification_hash v) (verification_expires_at v)
    (verification_created_at v) (Some now).

Definition verify_email_handler (cfg : AuthConfig) (db : IdDb) (tx : Tx) (token : string)
    : ApiResult VerifyAnswer * IdDb :=
  if negb (valid_verification_token token) then (Ok InvalidLink, db) else
  let hash := token_hash cfg token in
  match find_row (λ v, String.eqb (verification_hash v) hash) (verifications db) with
  | None => (Ok InvalidLink, db)
  | Some (id, v) =>
    if bool_decide (is_Some (used_at v)) then (Ok AlreadyVerified, db)
    else if verification_expires_at v * 1000 <=? now_utc tx 0%nat then (Ok LinkExpired, db)
    else id_transaction db (
      _ ← require_internal (verification_created_at v <=? tx_now tx);
      let db := with_verifications db
        (alter (verification_used (tx_now tx)) id (verifications db)) in
      Ok (MailboxVerified,
          with_users db (alter (user_verified (tx_now tx)) (verification_user v) (users db))))
  end.

(** ** Confirming a device login *)

(** What is known when the password was checked, outside the transaction. *)
Record CheckedLogin : Type := mkCheckedLogin {
  checked_user : Z;
  checked_email : string;
  checked_hash : string;
  checked_code : string;
}.

(** [provider = 'email' AND provider_subject = $1 AND email = $1]. *)
Definition mailbox_user (address : string) (u : UserRow) : bool :=
  String.eqb (user_provider u) "email" && String.eqb (provider_subject u) address
  && bool_decide (Identity.email u = Some address).

Definition login_begin (db : IdDb) (form : LoginForm) : ApiResult CheckedLogin :=
  address ← normalize_email (login_email form);
  _ ← validate_password_input (login_password form);
  user_code ← normalize_user_code (login_user_code form);
  '(user_id, u) ← ok_or (find_row (mailbox_user address) (users db))
    (authentication "邮箱或密码错误");
  _ ← bail_if (bool_decide (email_verified_at u = None)) (forbidden "邮箱尚未验证，请检查邮箱");
  hash ← ok_or (password_hash u) (authentication "邮箱或密码错误");
  verified ← verify_password (login_password form) hash;
  _ ← bail_if (negb (verified : bool)) (authentication "邮箱或密码错误");
  Ok (mkCheckedLogin user_id address hash user_code).

Definition flow_confirmed (user now : Z) (f : FlowRow) : FlowRow :=
  mkFlow (flow_provider f) (provider_device_code f) (flow_user_code f) (interval_seconds f)
    (flow_expires_at f) (flow_status f) (flow_user f) (last_polled_at f) (completed_at f)
    (device_public_key f) (device_key_fingerprint_of f) (device_key_algorithm f)
    (device_key_challenge f) (Some (user, now)).

(** The flows the UPDATE of the second transaction binds. *)
Definition confirmable (now : Z) (code : string) (f : FlowRow) : bool :=
  String.eqb (flow_provider f) "email" && String.eqb (flow_user_code f) code
  && String.eqb (flow_status f) "pending" && (now <? flow_expires_at f)
  && bool_decide (email_authorized f = None).

Definition login_finish (db : IdDb) (tx : Tx) (c : CheckedLogin) : ApiResult () * IdDb :=
  id_transaction db (
    _ ← bail_if (negb (match users db !! checked_user c with
                       | Some u => mailbox_user (checked_email c) u
                                   && bool_decide (password_hash u = Some (checked_hash c))
                                   && bool_decide (is_Some (email_verified_at u))
                       | None => false
                       end)) (authentication "邮箱或密码错误");
    _ ← bail_if (negb (length (List.filter (λ r, confirmable (tx_now tx) (checked_code c) r.2)
                                 (map_to_list (flows db))) =? 1)%nat)
      (conflict "device_flow_unavailable"
         "设备登录流程无效、已过期或已被消费，请从终端重新发起登录");
    Ok (tt, with_flows db ((λ f, if confirmable (tx_now tx) (checked_code c) f
                                 then flow_confirmed (checked_user c) (tx_now tx) f else f)
                           <$> flows db))).

(** The handler, run without interruption. *)
Definition login_handler (db : IdDb) (tx : Tx) (form : LoginForm) : ApiResult () * IdDb :=
  match login_begin db form with
  | Ok c => login_finish db tx c
  | Err e => (Err e, db)
  end.
End web.
