(* ===== verification/ApiKeys.v ===== *)
(** * Inference API keys: crates/mindone-coordinator/src/routes/api_keys.rs

    Creating, listing and revoking the keys that open the inference routes to
    OpenAI clients.  Each handler begins with [authenticate]. *)
From S2P Require Import Prelude Text StandardData Envelope Api Postings JobOps Requests Identity.

Local Open Scope string_scope.
Local Open Scope list_scope.
Local Open Scope Z_scope.

(** [<CreateApiKeyRequest as Validate>::validate] of the name. *)
Definition api_key_validate (name : string) : Checked () :=
  _ ← bail_if (negb (String.eqb (trim name) name))
    (mkValidationError "name" "API Key 名称首尾不能有空白");
  check_identifier "name" name 64.

Record ApiKeySummary : Type := mkSummary {
  summary_id : Z;
  summary_name : string;
  summary_prefix : string;
  summary_created_at : Z;
  summary_last_used_at : option Z;
  summary_revoked_at : option Z;
}.

Definition summary_from_row (p : Z * ApiKeyRow) : ApiKeySummary :=
  mkSummary p.1 (api_key_name p.2) (key_prefix p.2) (api_key_created_at p.2)
    (api_key_last_used_at p.2) (api_key_revoked_at p.2).

(** [UNIQUE (api_key_id, event_type)]. *)
Definition insert_key_event (db : IdDb) (e : ApiKeyEvent) : ApiResult IdDb :=
  _ ← require_internal (negb (existsb (λ x, (event_key x =? event_key e)
        && String.eqb (event_type x) (event_type e)) (api_key_events db)));
  Ok (with_key_events db (api_key_events db ++ [e])).

Definition api_key_revoked (now : Z) (k : ApiKeyRow) : ApiKeyRow :=
  mkApiKey (api_key_user k) (created_by_session k) (api_key_device k) (api_key_name k)
    (key_prefix k) (key_hash k) (api_key_created_at k) (api_key_last_used_at k) (Some now).

(** [INSERT INTO inference_api_keys ... ON CONFLICT (user_id,name) DO NOTHING]:
    [None] is no row. *)
Definition insert_api_key (db : IdDb) (id : Z) (k : ApiKeyRow) : ApiResult (option IdDb) :=
  if has_row (λ x, (api_key_user x =? api_key_user k)
                   && String.eqb (api_key_name x) (api_key_name k)) (api_keys db)
  then Ok None
  else
    _ ← require_internal (bool_decide (api_keys db !! id = None)
      && negb (has_row (λ x, String.eqb (key_hash x) (key_hash k)) (api_keys db))
      && bool_decide (is_Some (sessions db !! created_by_session k))
      && bool_decide (is_Some (device_keys db !! api_key_device k)));
    Ok (Some (with_api_keys db (<[id := k]> (api_keys db)))).

Section keys.
Context `{C : Crypto}.

(** A handler that authenticates first; its own error rolls its transaction
    back, the session stays marked as used. *)
Definition authenticated {A} (cfg : AuthConfig) (db : IdDb) (now : Z)
    (authorization : option string) (body : Principal → IdDb → ApiResult (A * IdDb))
    : ApiResult A * IdDb :=
  match authenticate cfg db now authorization with
  | (Err e, db) => (Err e, db)
  | (Ok (principal, _), db) => id_transaction db (body principal db)
  end.

Definition create_api_key (cfg : AuthConfig) (db : IdDb) (tx : Tx) (d : Draws)
    (authorization : option string) (name : string) : ApiResult (string * ApiKeySummary) * IdDb :=
  authenticated cfg db (tx_now tx) authorization (λ principal db,
    _ ← map_err (λ e, bad_request "invalid_api_key" (validation_error_to_string e))
          (api_key_validate name);
    let issued := issue_inference_api_key cfg d in
    let key_id := now_v7 tx 0%nat in
    let row := mkApiKey (principal_user_id principal) (session_id principal)
      (device_key_id_of principal) name (issued_key_prefix issued) (issued_key_hash issued)
      (tx_now tx) None None in
    inserted ← insert_api_key db key_id row;
    db ← ok_or inserted
      (conflict "api_key_name_exists" "同名 API Key 已存在；请更换名称或先撤销旧 Key");
    db ← insert_key_event db (mkKeyEvent key_id (principal_user_id principal) "created");
    Ok ((issued_api_key issued, summary_from_row (key_id, row)), db)).

(** [ORDER BY created_at DESC, id LIMIT 200]. *)
Definition newest_first : Z * ApiKeyRow → Z * ApiKeyRow → comparison :=
  cmp_then (cmp_on (λ p, api_key_created_at p.2) (cmp_rev Z.compare)) (cmp_on fst Z.compare).

Definition list_api_keys (cfg : AuthConfig) (db : IdDb) (now : Z) (authorization : option string)
    : ApiResult (list ApiKeySummary) * IdDb :=
  authenticated cfg db now authorization (λ principal db,
    Ok (summary_from_row <$> take 200 (sort_by newest_first
          (List.filter (λ p, api_key_user p.2 =? principal_user_id principal)
             (map_to_list (api_keys db)))), db)).

(** The answer: whether this call revoked it. *)
Definition revoke_api_key (cfg : AuthConfig) (db : IdDb) (tx : Tx) (authorization : option string)
    (key_id : Z) : ApiResult bool * IdDb :=
  authenticated cfg db (tx_now tx) authorization (λ principal db,
    k ← ok_or (k ← api_keys db !! key_id;
               if api_key_user k =? principal_user_id principal then Some k else None)
      (not_found "API Key");
    if bool_decide (api_key_revoked_at k = None) then
      let db := with_api_keys db (<[key_id := api_key_revoked (tx_now tx) k]> (api_keys db)) in
      db ← insert_key_event db (mkKeyEvent key_id (principal_user_id principal) "revoked");
      Ok (true, db)
    else Ok (false, db)).
End keys.
