(* ===== verification/Selection.v ===== *)
(** * What the choice of a model guarantees

    [select_model] answers with a model the database can serve now and quote at
    the authorised limits, and with the best-scored one of those. *)
From S2P Require Import Prelude Text Float64 Fixed Tier Routing Billing Ledger Net AntiAbuse StandardData Hardware Fingerprint Store Envelope Api Snapshot Tables Lease Postings Complete Requests Quotes Dispatch JobOps Admission.

Local Open Scope string_scope.
Local Open Scope list_scope.
Local Open Scope Z_scope.

(** Every eligible model is ranked. *)
Lemma rank_models_complete candidates req r m :
  rank_models candidates req = Ok r → m ∈ candidates → model_eligible req m →
  ∃ s, s ∈ r ∧ scored_id s = model_candidate_id m.
Proof.
  intros H Hm He. unfold rank_models, sort_scored in H. apply bind_Ok in H as (w & _ & H).
  apply bind_Ok in H as (sc & Hsc & [= <-]).
  assert (scored_id <$> sc = model_candidate_id <$> filter (model_eligible req) candidates) as Hids.
  { eapply (collect_some_filter _ (model_eligible req)); [| |exact Hsc].
    - apply score_model_Some.
    - apply score_model_None. }
  assert (model_candidate_id m ∈ scored_id <$> sc) as Hin.
  { rewrite Hids. apply list_elem_of_fmap. exists m. split; [done|]. apply list_elem_of_filter. by split. }
  apply list_elem_of_fmap in Hin as (s & Es & Hs). exists s. split; [by apply elem_of_sort_by|done].
Qed.

Lemma ranked_head_least candidates req best ranked other :
  rank_models candidates req = Ok (best :: ranked) → other ∈ best :: ranked →
  cmp_le scored_cmp best other.
Proof.
  intros H%rank_models_sorted Ho. apply StronglySorted_inv in H as [_ H].
  apply elem_of_cons in Ho as [->|Ho]; [apply cmp_le_refl, _|]. rewrite Forall_forall in H. by apply H.
Qed.

Section selection.
Context `{CL : Collation}.
Context (uuid_text : Z → string) (uuid_parse : string → option Z).
Context (st : State) (now : Z).

Lemma routing_rows_elem wanted tags input output context m i :
  (m, i) ∈ routing_rows st now wanted tags input output context ↔
  models st !! m.1 = Some m.2 ∧ instances st !! i.1 = Some i.2
  ∧ routable st now wanted tags input output context m i = true.
Proof.
  unfold routing_rows. rewrite list_elem_of_bind. split.
  - intros (m' & (i' & Hmi & Hi)%list_elem_of_bind & Hm).
    destruct (routable _ _ _ _ _ _ _ m' i') eqn:E; [|by apply elem_of_nil in Hmi].
    apply list_elem_of_singleton in Hmi as [= -> ->].
    apply elem_of_sort_by, elem_of_map_to_list' in Hm, Hi. done.
  - intros (Hm & Hi & Hr). exists m. split.
    + apply list_elem_of_bind. exists i. rewrite Hr. split; [by apply list_elem_of_singleton|].
      by apply elem_of_sort_by, elem_of_map_to_list'.
    + by apply elem_of_sort_by, elem_of_map_to_list'.
Qed.

(** The loop collects exactly the models of its rows. *)
Lemma collect_model_Ok tags acc row acc' :
  collect_model tags acc row = Ok acc' →
  ∃ d, acc' = <[row.1.1 := d]> acc
    ∧ match acc !! row.1.1 with
      | Some d0 => data_weights_hash d = data_weights_hash d0
                   ∧ data_context_length d = data_context_length d0
      | None => data_weights_hash d = weights_hash row.1.2
                ∧ data_context_length d = model_context_length row.1.2
      end.
Proof.
  destruct row as [[id m] [k i]]. unfold collect_model. intros H.
  apply bind_Ok in H as (samples & _ & H). apply bind_Ok in H as (fusion & _ & H). cbv zeta in H.
  apply bind_Ok in H as (context & Hc%or_internal_Ok & [= <-]).
  apply checked_Some in Hc as [_ ->]. simpl. destruct (acc !! id); eexists; by split.
Qed.

Lemma collected_rows tags rows acc collected :
  fold_each (collect_model tags) acc rows = Ok collected →
  (∀ id d, collected !! id = Some d →
     (∃ d0, acc !! id = Some d0 ∧ data_weights_hash d = data_weights_hash d0
        ∧ data_context_length d = data_context_length d0)
     ∨ ∃ row, row ∈ rows ∧ row.1.1 = id ∧ data_weights_hash d = weights_hash row.1.2
        ∧ data_context_length d = model_context_length row.1.2)
  ∧ (∀ id, is_Some (acc !! id) → is_Some (collected !! id))
  ∧ ∀ row, row ∈ rows → is_Some (collected !! row.1.1).
Proof.
  revert acc. induction rows as [|row rows IH]; intros acc H; cbn [fold_each] in H.
  { injection H as <-. split_and!; [|done|by intros row Hr%elem_of_nil]. intros id d Hd. left. by exists d. }
  apply bind_Ok in H as (acc1 & (d1 & -> & Hd1)%collect_model_Ok & H).
  destruct (IH _ H) as (Hfrom & Hkeep & Hall). split_and!.
  - intros id d Hd. destruct (Hfrom id d Hd) as [(d0 & H0 & E1 & E2)|(row' & Hr & E)].
    + apply lookup_insert_Some in H0 as [[<- <-]|[_ H0]]; [|left; by exists d0].
      destruct (acc !! row.1.1) as [d0|] eqn:Ea; destruct Hd1 as [E3 E4].
      * left. exists d0. split_and!; congruence.
      * right. exists row. split; [by left|]. split_and!; congruence.
    + right. exists row'. split; [by right|done].
  - intros id Hid. apply Hkeep. rewrite lookup_insert_is_Some'. by right.
  - intros row' [->|Hr]%elem_of_cons; [|by apply Hall].
    apply Hkeep. rewrite lookup_insert_eq. by eexists.
Qed.

(** The cheapest model and the spread of the prices. *)
Definition cost_bounds (entries : list (Z * ModelRoutingData)) : Z * Z :=
  match data_base_cost ∘ snd <$> entries with
  | [] => (0, 0)
  | cost :: costs =>
    (foldl Z.min cost costs, i64_saturating_sub (foldl Z.max cost costs) (foldl Z.min cost costs))
  end.

Definition entries_of (collected : gmap Z ModelRoutingData) : list (Z * ModelRoutingData) :=
  sort_by (cmp_on fst Z.compare) (map_to_list collected).

Definition candidates_of (collected : gmap Z ModelRoutingData) : list ModelCandidate :=
  let bounds := cost_bounds (entries_of collected) in
  routing_candidate uuid_text bounds.1 bounds.2 <$> entries_of collected.

Lemma select_model_Ok wanted tags input output s :
  (∀ z, uuid_parse (uuid_text z) = Some z) →
  select_model uuid_text uuid_parse st now wanted tags input output = Ok s →
  let context := i32_saturating_add input output in
  ∃ collected d best ranked,
    fold_each (collect_model tags) ∅ (routing_rows st now wanted tags input output context)
      = Ok collected
    ∧ collected !! selected_id s = Some d ∧ selected_weights_hash s = data_weights_hash d
    ∧ rank_models (candidates_of collected)
        (mkModelRequirements context (model_weights model_requirements_default)) = Ok (best :: ranked)
    ∧ scored_id best = uuid_text (selected_id s).
Proof.
  intros Huuid H context. unfold select_model in H. cbv zeta in H. fold context in H.
  clearbody context. apply bind_Ok in H as (collected & Hc & H). fold (entries_of collected) in H.
  assert (candidates_of collected = match data_base_cost ∘ snd <$> entries_of collected with
    | [] => [] | cost :: costs =>
      routing_candidate uuid_text (foldl Z.min cost costs)
        (i64_saturating_sub (foldl Z.max cost costs) (foldl Z.min cost costs))
        <$> entries_of collected end) as Hcand.
  { unfold candidates_of, cost_bounds. by destruct (entries_of collected). }
  destruct (data_base_cost ∘ snd <$> entries_of collected) as [|cost costs]; [done|].
  apply bind_Ok in H as (minimum & Hm%or_internal_Ok & H).
  apply checked_Some in Hm as [_ ->].
  apply bind_Ok in H as (ranked & Hr%map_err_Ok & H). apply bind_Ok in H as (best & Hb%ok_or_Ok & H).
  apply bind_Ok in H as (id & Hid%or_internal_Ok & H).
  apply bind_Ok in H as (d & Hd%or_internal_Ok & [= <-]).
  destruct ranked as [|b ranked]; [done|]. injection Hb as ->.
  rewrite <-Hcand in Hr. exists collected, d, best, ranked.
  split; [exact Hc|]. split; [exact Hd|]. split; [reflexivity|]. split; [exact Hr|].
  cbn [selected_id].
  assert (∃ e, e ∈ entries_of collected ∧ scored_id best = uuid_text e.1) as (e & He & Hbest).
  { eapply rank_models_elem in Hr as (m & Hm & _ & ->); [|by left].
    apply list_elem_of_fmap in Hm as (e & -> & He). exists e. split; [exact He|reflexivity]. }
  rewrite Hbest, Huuid in Hid. injection Hid as <-. exact Hbest.
Qed.

(** the selected model can serve the request now, can be priced, and is the
    best of those that can. It is enabled, is the one asked for unless any will
    do, has the context for input and output, and a current billing profile
    covering both limits; one of its published and unquarantined instances is
    on an online node, seen in the last 90 seconds, that accepts all tags. No
    model with such an instance scores better. *)
Theorem selected_model_is_best wanted tags input output s :
  (∀ z, uuid_parse (uuid_text z) = Some z) →
  select_model uuid_text uuid_parse st now wanted tags input output = Ok s →
  let context := i32_saturating_add input output in
  (∃ m i profile, models st !! selected_id s = Some m ∧ instances st !! i.1 = Some i.2
     ∧ routable st now wanted tags input output context (selected_id s, m) i = true
     ∧ weights_hash m = selected_weights_hash s
     ∧ current_profile (profiles (fleet st)) now (selected_id s) (selected_weights_hash s)
         = Some profile
     ∧ input ≤ maximum_input_tokens (row_profile profile)
     ∧ output ≤ maximum_output_tokens (row_profile profile))
  ∧ ∃ collected best ranked,
      rank_models (candidates_of collected)
        (mkModelRequirements context (model_weights model_requirements_default)) = Ok (best :: ranked)
      ∧ scored_id best = uuid_text (selected_id s)
      ∧ ∀ m i, models st !! m.1 = Some m.2 → instances st !! i.1 = Some i.2 →
          routable st now wanted tags input output context m i = true →
          ∃ other, other ∈ best :: ranked ∧ scored_id other = uuid_text m.1
            ∧ cmp_le scored_cmp best other.
Proof.
  intros Huuid H context.
  destruct (select_model_Ok _ _ _ _ _ Huuid H) as (col & d & best & ranked & Hc & Hd & Hh & Hr & Hbest).
  fold context in Hc, Hr. destruct (collected_rows _ _ _ _ Hc) as (Hfrom & _ & Hall). split.
  - destruct (Hfrom _ _ Hd) as [(d0 & Hd0 & _)|([[id m] i] & Hrow & Hid & Ehash & _)].
    { by rewrite lookup_empty in Hd0. }
    simpl in Hid, Ehash. subst id. apply routing_rows_elem in Hrow as (Hm & Hi & Hrt).
    pose proof Hrt as Hrt'. unfold routable in Hrt'. rewrite !andb_true_iff in Hrt'.
    destruct Hrt' as [[_ Hprof] _]. cbn [fst snd] in Hprof.
    destruct (current_profile _ _ _ _) as [profile|] eqn:Ep; [|done].
    apply andb_true_iff in Hprof as [?%Z.leb_le ?%Z.leb_le].
    exists m, i, profile. clear Hr Hbest Hc Hall Hfrom. rewrite Hh, Ehash. split_and!; done.
  - exists col, best, ranked. split; [exact Hr|]. split; [exact Hbest|]. intros m i Hm Hi Hrt.
    assert ((m, i) ∈ routing_rows st now wanted tags input output context) as Hrow
      by (apply routing_rows_elem; exact (conj Hm (conj Hi Hrt))).
    destruct (Hall _ Hrow) as [dm Hdm]. cbn [fst] in Hdm.
    assert (context <= data_context_length dm) as Hctx.
    { destruct (Hfrom _ _ Hdm) as [(d0 & Hd0 & _)|([[id m'] i'] & Hrow' & Hid & _ & Ectx)].
      { by rewrite lookup_empty in Hd0. }
      simpl in Hid, Ectx. subst id. apply routing_rows_elem in Hrow' as (_ & _ & Hrt').
      rewrite Ectx. clearbody context. unfold routable in Hrt'. rewrite !andb_true_iff in Hrt'.
      simpl in Hrt'. lia. }
    set (c := routing_candidate uuid_text (cost_bounds (entries_of col)).1
      (cost_bounds (entries_of col)).2 (m.1, dm)).
    destruct (rank_models_complete _ _ _ c Hr) as (other & Hin & Hid).
    { apply list_elem_of_fmap. exists (m.1, dm). split; [reflexivity|].
      apply elem_of_sort_by, elem_of_map_to_list'. exact Hdm. }
    { split; [reflexivity|exact Hctx]. }
    exists other. split; [exact Hin|]. split; [exact Hid|].
    exact (ranked_head_least _ _ _ _ _ Hr Hin).
Qed.
End selection.
