(* ===== verification/Lifecycle.v ===== *)
(** * The life of a job

    What every transaction on jobs keeps true: the reservation of an account is
    the sum of what its unfinished jobs reserved, a job's columns agree with its
    status, and its attempts are numbered and bound to their devices.  Each
    handler is reduced to the few changes it can make to one job. *)
From S2P Require Import Prelude Text Float64 Fixed Policy Routing Billing Ledger Net AntiAbuse StandardData Hardware Fingerprint Store Envelope Api Snapshot Tables Lease Postings Complete Settled Requests Quotes Dispatch JobOps Admission.

Local Open Scope string_scope.
Local Open Scope list_scope.
Local Open Scope Z_scope.

(** ** Tables with a pair of UNIQUE columns *)

Lemma key_absent {A} (m : gmap Z A) (p : Z * A → bool) :
  existsb p (map_to_list m) = false → ∀ k x, m !! k = Some x → p (k, x) = true → False.
Proof.
  intros H k x Hk Hp. apply not_true_iff_false in H. apply H, existsb_exists. exists (k, x).
  split; [|done]. by apply list_elem_of_In, elem_of_map_to_list.
Qed.

Lemma key_found {A} (m : gmap Z A) (p : Z * A → bool) k x :
  m !! k = Some x → p (k, x) = true →
  (∀ k' x', m !! k' = Some x' → p (k', x') = true → k' = k) →
  head (List.filter p (map_to_list m)) = Some (k, x).
Proof.
  intros Hk Hp Hu. set (l := List.filter p (map_to_list m)).
  assert (∀ q, q ∈ l → q = (k, x)) as Hl.
  { intros [k' x'] [Hq Hpq]%list_elem_of_In%filter_In. apply list_elem_of_In, elem_of_map_to_list in Hq.
    assert (k' = k) as -> by by eapply Hu. congruence. }
  assert ((k, x) ∈ l) as Hin.
  { apply list_elem_of_In, filter_In. split; [|done]. by apply list_elem_of_In, elem_of_map_to_list. }
  destruct l as [|q l']; [by apply elem_of_nil in Hin|]. simpl. f_equal. apply Hl. by left.
Qed.

(** ** Sums over the jobs *)

Definition job_sum (f : JobRow → Z) (js : gmap Z JobRow) : Z := map_fold (λ _ j z, f j + z) 0 js.

Lemma job_sum_insert_new f js id j :
  js !! id = None → job_sum f (<[id := j]> js) = f j + job_sum f js.
Proof. intros H. unfold job_sum. by rewrite map_fold_insert_L by (done || (intros; lia)). Qed.

Lemma job_sum_replace f js id j j' :
  js !! id = Some j → job_sum f (<[id := j']> js) = job_sum f js - f j + f j'.
Proof.
  intros H. unfold job_sum. rewrite <-insert_delete_eq.
  rewrite map_fold_insert_L by (apply lookup_delete_eq || (intros; lia)).
  rewrite (map_fold_delete_L _ _ id j js) by (done || (intros; lia)). lia.
Qed.

Lemma job_sum_nonneg f js : (∀ id j, js !! id = Some j → 0 ≤ f j) → 0 ≤ job_sum f js.
Proof.
  induction js as [|id j js Hid IH] using map_ind; intros H; [done|].
  rewrite job_sum_insert_new by done.
  assert (0 ≤ f j) by (apply (H id); apply lookup_insert_eq).
  assert (0 ≤ job_sum f js); [|lia]. apply IH. intros i j' Hi. apply (H i).
  rewrite lookup_insert_ne; [done|]. intros ->. congruence.
Qed.

Lemma job_sum_member f js id j :
  (∀ id j, js !! id = Some j → 0 ≤ f j) → js !! id = Some j → f j ≤ job_sum f js.
Proof.
  intros H Hj. rewrite <-(insert_id js id j Hj).
  assert (js !! id = Some j) as Hj' by done. apply (job_sum_replace f js id j j) in Hj'.
  rewrite <-(insert_delete_eq js id j), job_sum_insert_new by apply lookup_delete_eq.
  assert (0 ≤ job_sum f (delete id js)); [|lia]. apply job_sum_nonneg.
  intros i j' [_ Hi]%lookup_delete_Some. by eapply H.
Qed.

(** ** The invariant *)

(** A job that is not finished holds its reservation. *)
Definition unfinished (s : JobStatus) : bool :=
  match s with Queued | Leased | Retry => true | _ => false end.
Definition hold (j : JobRow) : Z := if unfinished (status j) then reserved_cost_micro j else 0.
Definition hold_of (u : Z) (j : JobRow) : Z := if user_id j =? u then hold j else 0.

(** The sum of the reservations of a user's unfinished jobs. *)
Definition reserved_total (js : gmap Z JobRow) (u : Z) : Z := job_sum (hold_of u) js.

Definition attempts_wf (atts : gmap (Z * Z) AttemptRow) (id : Z) (j : JobRow) : Prop :=
  ∀ n a, atts !! (id, n) = Some a →
    0 < n ≤ attempt_count j ∧ attempt_check a = true
    ∧ (attempt_status a = AttemptLeased →
         status j = Leased ∧ n = attempt_count j ∧ attempt_result_key a = None).

Definition status_wf (atts : gmap (Z * Z) AttemptRow) (id : Z) (j : JobRow) : Prop :=
  match status j with
  | Queued | Retry => attempt_count j < max_attempts (submission j)
  | Leased =>
    is_Some (lease_expires_at j) ∧ is_Some (model_instance_id j)
    ∧ ∃ a, atts !! (id, attempt_count j) = Some a ∧ attempt_status a = AttemptLeased
        ∧ leased_to_node_id j = Some (attempt_node a)
  | _ => True
  end.

Definition job_wf (atts : gmap (Z * Z) AttemptRow) (id : Z) (j : JobRow) : Prop :=
  0 < reserved_cost_micro j
  ∧ 0 ≤ attempt_count j ≤ max_attempts (submission j) ∧ max_attempts (submission j) ≤ i32_max
  ∧ attempts_wf atts id j ∧ status_wf atts id j
  ∧ (status j ≠ Succeeded → result_ciphertext j = None).

(** The route a regulated job redeemed, with what the job took from it. *)
Record redeemed (id : Z) (j : JobRow) (r : RouteRow) : Prop := mkRedeemed {
  redeemed_status : route_status r = Consumed;
  redeemed_job : route_job r = Some id;
  redeemed_user : route_user r = user_id j;
  redeemed_model : route_model r = model_id j;
  redeemed_node : regulated_node_id j = Some (route_node r);
  redeemed_report : attestation_report_id j = Some (route_report r);
  redeemed_limits : (route_input_tokens r, route_max_output_tokens r)
    = (estimated_input_tokens j, max_output_tokens j);
  redeemed_tags : route_tags r = job_tags (submission j);
  redeemed_priority : route_priority r = priority (submission j);
  redeemed_billing : route_billing r = billing j;
}.

(** Routes and the jobs that redeemed them. *)
Record routes_ok (rs : gmap Z RouteRow) (js : gmap Z JobRow) : Prop := mkRoutesOk {
  routes_jobs id j rt : js !! id = Some j → regulated_route_id j = Some rt →
    ∃ r, rs !! rt = Some r ∧ redeemed id j r;
  routes_consumed rt r id : rs !! rt = Some r → route_job r = Some id →
    route_status r = Consumed ∧ ∃ j, js !! id = Some j ∧ regulated_route_id j = Some rt;
  routes_status rt r : rs !! rt = Some r → route_status r = Consumed → is_Some (route_job r);
  routes_keys rt rt' r r' : rs !! rt = Some r → rs !! rt' = Some r' →
    route_user r = route_user r' → route_idempotency r = route_idempotency r' → rt = rt';
}.

Record invariant (st : State) : Prop := mkInvariant {
  inv_books : books_ok (books st);
  inv_reserved u : reserved_of (books st) u = reserved_total (jobs st) u;
  inv_jobs id j : jobs st !! id = Some j → job_wf (attempts st) id j;
  inv_attempts id n : is_Some (attempts st !! (id, n)) → is_Some (jobs st !! id);
  inv_keys id id' j j' : jobs st !! id = Some j → jobs st !! id' = Some j' →
    user_id j = user_id j' → job_idempotency j = job_idempotency j' → id = id';
  inv_routes : routes_ok (regulated_routes (fleet st)) (jobs st);
}.

Lemma routes_ok_empty : routes_ok ∅ ∅.
Proof. split; intros *; rewrite ?lookup_empty; done. Qed.

(** A database without jobs or routes in which nobody has reserved anything. *)
Lemma invariant_initial st :
  jobs st = ∅ → attempts st = ∅ → regulated_routes (fleet st) = ∅ → books_ok (books st) →
  (∀ u, reserved_of (books st) u = 0) → invariant st.
Proof.
  intros Hj Ha Hf Hb Hr. split; [done|..].
  - intros u. by rewrite Hj, Hr.
  - intros id j. by rewrite Hj, lookup_empty.
  - intros id n [a H]. by rewrite Ha, lookup_empty in H.
  - intros id id' j j'. by rewrite Hj, lookup_empty.
  - rewrite Hf, Hj. apply routes_ok_empty.
Qed.

(** What the invariant does not look at. *)
Lemma invariant_same st st' :
  invariant st → jobs st' = jobs st → attempts st' = attempts st →
  regulated_routes (fleet st') = regulated_routes (fleet st) →
  (∀ u, reserved_of (books st') u = reserved_of (books st) u) → books_ok (books st') →
  invariant st'.
Proof.
  intros [Hb Hr Hj Ha Hk Hrt] Ej Ea Ef Er Hb'. split; [done|..].
  - intros u. by rewrite Er, Ej.
  - intros id j. rewrite Ej, Ea. apply Hj.
  - intros id n. rewrite Ej, Ea. apply Ha.
  - rewrite Ej. apply Hk.
  - by rewrite Ef, Ej.
Qed.

Lemma job_wf_ext atts atts' id j :
  (∀ n, atts' !! (id, n) = atts !! (id, n)) → job_wf atts id j → job_wf atts' id j.
Proof.
  intros E (? & ? & ? & Ha & Hs & ?). split_and!; try done; try lia.
  - intros n a. rewrite E. apply Ha.
  - unfold status_wf in *. by destruct (status j); rewrite ?E.
Qed.

(** The columns of a job that nothing changes after its creation. *)
Definition frozen (j : JobRow) :=
  (user_id j, model_id j, job_idempotency j, confidentiality_mode j,
   (regulated_route_id j, regulated_node_id j, attestation_report_id j),
   (estimated_input_tokens j, max_output_tokens j, reserved_cost_micro j), billing j, submission j).

Lemma frozen_user j j' : frozen j' = frozen j → user_id j' = user_id j.
Proof. unfold frozen. by intros [= ?]. Qed.
Lemma frozen_key j j' : frozen j' = frozen j → job_idempotency j' = job_idempotency j.
Proof. unfold frozen. by intros [=]. Qed.
Lemma frozen_cost j j' : frozen j' = frozen j → reserved_cost_micro j' = reserved_cost_micro j.
Proof. unfold frozen. by intros [=]. Qed.
Lemma frozen_submission j j' : frozen j' = frozen j → submission j' = submission j.
Proof. unfold frozen. by intros [=]. Qed.

Lemma redeemed_frozen id j j' r : frozen j' = frozen j → redeemed id j r → redeemed id j' r.
Proof. unfold frozen. intros [= ? ? ? ? ? ? ? ? ? ? ? Hs] []. split; rewrite ?Hs; congruence. Qed.

Lemma routes_ok_frozen rs js id j j' :
  routes_ok rs js → js !! id = Some j → frozen j' = frozen j → routes_ok rs (<[id := j']> js).
Proof.
  intros [Hj Hc Hs Hk] Hid Hf.
  assert (regulated_route_id j' = regulated_route_id j) as Er by (unfold frozen in Hf; congruence).
  split; [| |done|done].
  - intros k jk rt. rewrite lookup_insert_Some. intros [[<- <-]|[_ H]]; [|by apply Hj].
    rewrite Er. intros H. destruct (Hj _ _ _ Hid H) as (r & ? & ?). exists r.
    split; [done|]. by eapply redeemed_frozen.
  - intros rt r k H Hjob. destruct (Hc rt r k H Hjob) as (? & jk & Hk' & Hr). split; [done|].
    destruct (decide (id = k)) as [<-|Hne].
    + exists j'. rewrite lookup_insert_eq, Er. split; [done|]. congruence.
    + exists jk. by rewrite lookup_insert_ne.
Qed.

(** The tables the job transactions only read. *)
Record unchanged (st st' : State) : Prop := mkUnchanged {
  same_nodes : nodes st' = nodes st;
  same_models : models st' = models st;
  same_reports : reports st' = reports st;
  same_quarantined : quarantined st' = quarantined st;
  same_challenges : challenges st' = challenges st;
  same_fleet : fleet st' = fleet st;
}.

#[export] Instance unchanged_preorder : PreOrder unchanged.
Proof. split; [by split|]. intros a b c [] []. split; congruence. Qed.

(** One job moves: its account's reservation moves with it. *)
Record advance (st st' : State) (id : Z) (j j' : JobRow) : Prop := mkAdvance {
  adv_old : jobs st !! id = Some j;
  adv_jobs : jobs st' = <[id := j']> (jobs st);
  adv_frozen : frozen j' = frozen j;
  adv_routes : regulated_routes (fleet st') = regulated_routes (fleet st);
  adv_books u : reserved_of (books st') u
    = reserved_of (books st) u + to_user (user_id j) (hold j' - hold j) u;
  adv_ok : books_ok (books st) → books_ok (books st');
  adv_others k n : k ≠ id → attempts st' !! (k, n) = attempts st !! (k, n);
}.

Lemma advance_invariant st st' id j j' :
  invariant st → advance st st' id j j' → job_wf (attempts st') id j' → invariant st'.
Proof.
  intros [Hb Hr Hj Ha Hu Hrt] [Eo Ej Ef Efl Eb Hok Eat] Hwf.
  pose proof (frozen_user _ _ Ef) as Eu. split; [by apply Hok|..].
  - intros u. rewrite Eb, Hr, Ej. unfold reserved_total.
    rewrite (job_sum_replace _ _ id j j' Eo). unfold hold_of. rewrite Eu. unfold to_user.
    destruct (Z.eqb_spec u (user_id j)) as [->|Hne].
    + rewrite Z.eqb_refl. lia.
    + rewrite (proj2 (Z.eqb_neq (user_id j) u)) by congruence. lia.
  - intros k jk. rewrite Ej, lookup_insert_Some. intros [[<- <-]|[Hne Hk]]; [done|].
    eapply job_wf_ext; [|by apply Hj]. intros n. by apply Eat.
  - intros k n H. rewrite Ej, lookup_insert_is_Some.
    destruct (decide (id = k)) as [->|Hne]; [by left|right]. split; [done|].
    apply (Ha k n). by rewrite <-Eat.
  - assert (∀ k jk, jobs st' !! k = Some jk → ∃ j0, jobs st !! k = Some j0 ∧ frozen jk = frozen j0)
      as Hold.
    { intros k jk. rewrite Ej, lookup_insert_Some. intros [[<- <-]|[_ Hk]]; [by exists j|by exists jk]. }
    intros k k' jk jk' (j0 & H0 & F0)%Hold (j0' & H0' & F0')%Hold Huser Hkey.
    apply (Hu k k' j0 j0'); [done|done|..].
    + by rewrite <-(frozen_user _ _ F0), <-(frozen_user _ _ F0').
    + by rewrite <-(frozen_key _ _ F0), <-(frozen_key _ _ F0').
  - rewrite Efl, Ej. by eapply routes_ok_frozen.
Qed.

(** ** Statements *)

Lemma release_Ok st u x st' :
  release_reservation st u x = Ok st' →
  ∃ b, st' = with_books st b
    ∧ (∀ v, reserved_of b v = reserved_of (books st) v + to_user u (- x) v)
    ∧ (books_ok (books st) → books_ok b).
Proof.
  unfold release_reservation. intros H. apply bind_Ok in H as (b & Hb & [= <-]).
  apply update_reserved_moved in Hb as ((Hm & _ & _ & Hok) & _).
  exists b. split; [done|]. split; [|done]. intros v. by destruct (Hm v) as (_ & ? & _).
Qed.

(** Under the invariant a reservation can be released. *)
Lemma release_total st id j :
  invariant st → jobs st !! id = Some j → unfinished (status j) = true →
  ∃ st', release_reservation st (user_id j) (reserved_cost_micro j) = Ok st'.
Proof.
  intros [Hb Hr Hj _ _ _] Hid Hs.
  assert (hold_of (user_id j) j ≤ reserved_of (books st) (user_id j)) as Hle.
  { rewrite Hr. apply (job_sum_member _ _ id); [|done]. intros i j' Hi.
    destruct (Hj i j' Hi) as (? & _). unfold hold_of, hold. repeat case_if; lia. }
  unfold hold_of, hold in Hle. rewrite Z.eqb_refl, Hs in Hle.
  destruct (Hj id j Hid) as (Hpos & _). unfold release_reservation, update_reserved.
  unfold balance_of in Hle. destruct (accounts (books st) !! user_id j) as [a|] eqn:Ea;
    simpl in Hle; [|lia].
  destruct Hb as (Ha & _). destruct (Ha _ _ Ea) as (Hq & Hc & Hres & Hcon).
  rewrite (proj2 (Z.leb_le _ _)) by done. simpl.
  assert (account_check (mkAccount (spendable_micro a) (reserved_micro a + - reserved_cost_micro j)
    (contribution_micro a) (quota_ledger_head_hash a) (quota_ledger_entry_count a)
    (contribution_ledger_head_hash a) (contribution_ledger_entry_count a)) = true) as ->.
  { unfold account_check. simpl. rewrite !andb_true_iff, !Z.leb_le. lia. }
  simpl. by eexists.
Qed.

Lemma update_leased_attempt_Ok st id n f st' :
  update_leased_attempt st id n f = Ok st' →
  ∃ m, st' = with_attempts st m
    ∧ ((∃ a, attempts st !! (id, n) = Some a ∧ attempt_status a = AttemptLeased
          ∧ attempt_check (f a) = true ∧ m = <[(id, n) := f a]> (attempts st))
       ∨ ((∀ a, attempts st !! (id, n) = Some a → attempt_status a ≠ AttemptLeased)
          ∧ m = attempts st)).
Proof.
  unfold update_leased_attempt. destruct (attempts st !! (id, n)) as [a|] eqn:E.
  - case_bool_decide as Hs.
    + intros H. apply bind_Ok in H as ([] & Hc%require_internal_Ok & [= <-]).
      apply andb_true_iff in Hc as [Hc _]. eexists. split; [done|]. left. by exists a.
    + intros [= <-]. exists (attempts st). split; [by destruct st|]. right. split; [|done].
      by intros ? [= <-].
  - intros [= <-]. exists (attempts st). split; [by destruct st|]. by right.
Qed.

(** Closing the current attempt leaves the job without a leased one. *)
Lemma close_attempt st id j f st' :
  update_leased_attempt st id (attempt_count j) f = Ok st' →
  (∀ a, attempt_status (f a) ≠ AttemptLeased) → attempts_wf (attempts st) id j →
  ∃ m, st' = with_attempts st m
    ∧ (∀ k n, k ≠ id → m !! (k, n) = attempts st !! (k, n))
    ∧ (∀ n, is_Some (m !! (id, n)) ↔ is_Some (attempts st !! (id, n)))
    ∧ (∀ n a, m !! (id, n) = Some a → attempt_status a ≠ AttemptLeased)
    ∧ ∀ j', attempt_count j' = attempt_count j → attempts_wf m id j'.
Proof.
  intros (m & -> & Hm)%update_leased_attempt_Ok Hf Hwf. exists m. split; [done|].
  destruct Hm as [(a & Ha & Hs & Hc & ->)|[Hn ->]].
  - assert (∀ n b, <[(id, attempt_count j) := f a]> (attempts st) !! (id, n) = Some b →
      attempt_status b ≠ AttemptLeased ∧ attempt_check b = true ∧ 0 < n ≤ attempt_count j) as Hall.
    { intros n b. rewrite lookup_insert_Some. intros [[[= <-] <-]|[Hne Hb]].
      - split; [by apply Hf|]. split; [done|]. by apply (Hwf _ a).
      - destruct (Hwf n b Hb) as (? & ? & Hl). split_and!; try done; try lia.
        intros Hbl. destruct (Hl Hbl) as (_ & -> & _). done. }
    split_and!.
    + intros k n Hk. apply lookup_insert_ne. congruence.
    + intros n. rewrite lookup_insert_is_Some.
      destruct (decide ((id, attempt_count j) = (id, n))) as [[= <-]|Hne].
      * split; [by eexists|by left].
      * split; [by intros [?|[_ ?]]|by right].
    + intros n b Hb. by destruct (Hall n b Hb).
    + intros j' Ej n b Hb. destruct (Hall n b Hb) as (? & ? & ?). rewrite Ej. split_and!; try done; lia.
  - split_and!; [done|done| |].
    + intros n b Hb Hbl. destruct (Hwf n b Hb) as (_ & _ & Hl).
      destruct (Hl Hbl) as (_ & -> & _). by apply (Hn b Hb).
    + intros j' Ej n b Hb. destruct (Hwf n b Hb) as (? & ? & Hl). rewrite Ej. split_and!; try done; try lia.
      intros Hbl. destruct (Hl Hbl) as (_ & -> & _). by destruct (Hn b Hb).
Qed.

(** ... and it can be closed. *)
Lemma close_total st id j f :
  attempts_wf (attempts st) id j →
  (∀ a, attempt_result_key (f a) = attempt_result_key a ∧ attempt_check (f a) = attempt_check a) →
  ∃ st', update_leased_attempt st id (attempt_count j) f = Ok st'.
Proof.
  intros Hwf Hf. unfold update_leased_attempt.
  destruct (attempts st !! (id, attempt_count j)) as [a|] eqn:E; [|by eexists].
  case_bool_decide as Hs; [|by eexists]. destruct (Hwf _ a E) as (_ & Hc & Hl).
  destruct (Hl Hs) as (_ & _ & Hk). destruct (Hf a) as [-> ->]. rewrite Hc, Hk. simpl. by eexists.
Qed.

Lemma update_job_jobs st id f j :
  jobs st !! id = Some j → jobs (update_job st id f) = <[id := f j]> (jobs st).
Proof.
  intros H. unfold update_job. simpl. apply map_eq. intros i.
  destruct (decide (i = id)) as [->|Hne].
  - by rewrite lookup_alter_eq, H, lookup_insert_eq.
  - by rewrite lookup_alter_ne, lookup_insert_ne by done.
Qed.

(** ** Ending a job *)

Definition finished_from (j j' : JobRow) : Prop :=
  frozen j' = frozen j ∧ attempt_count j' = attempt_count j ∧ unfinished (status j') = false
  ∧ (status j' ≠ Succeeded → result_ciphertext j' = result_ciphertext j).

Lemma finished_wf atts atts' id j j' :
  job_wf atts id j → unfinished (status j) = true → finished_from j j' →
  attempts_wf atts' id j' → job_wf atts' id j'.
Proof.
  intros (Hp & Hc & Hm & _ & _ & Hr) Hu (Hf & Ec & Hs & He) Ha. unfold job_wf.
  rewrite (frozen_cost _ _ Hf), (frozen_submission _ _ Hf), Ec. split_and!; try done; try lia.
  - unfold status_wf. by destruct (status j').
  - intros Hn. rewrite He by done. apply Hr. by destruct (status j).
Qed.

(** Releasing the reservation, closing the attempt, setting the final status
    and finalising the instance. *)
Lemma conclude st st1 st2 st' id j f g now instance :
  invariant st → jobs st !! id = Some j → unfinished (status j) = true →
  finished_from j (g j) → (∀ a, attempt_status (f a) ≠ AttemptLeased) →
  release_reservation st (user_id j) (reserved_cost_micro j) = Ok st1 →
  update_leased_attempt st1 id (attempt_count j) f = Ok st2 →
  st' = finalize_draining_instance (update_job st2 id g) now instance →
  advance st st' id j (g j) ∧ invariant st' ∧ unchanged st st'
  ∧ ∀ k n, is_Some (attempts st' !! (k, n)) ↔ is_Some (attempts st !! (k, n)).
Proof.
  intros Hinv Hj Hs Hg Hf (b & -> & Hb & Hok)%release_Ok H2 ->.
  pose proof (inv_jobs _ Hinv id j Hj) as Hwf.
  apply close_attempt in H2 as (m & -> & Hm1 & Hm2 & _ & Hm4); [|done|apply Hwf].
  destruct (finalize_instances (update_job (with_attempts (with_books st b) m) id g) now instance)
    as [insts ->].
  assert (advance st (with_instances (update_job (with_attempts (with_books st b) m) id g) insts)
    id j (g j)) as Hadv.
  { split; try done; [|apply Hg|].
    - exact (update_job_jobs (with_attempts (with_books st b) m) id g j Hj).
    - intros u. simpl. rewrite Hb. destruct Hg as (Hg & _ & Hs' & _). unfold hold. rewrite Hs, Hs'.
      unfold to_user. case_if; lia. }
  split; [done|]. split; [|split; [by split|]].
  - apply (advance_invariant _ _ _ _ _ Hinv Hadv).
    eapply finished_wf; [exact Hwf|done|done|]. simpl. apply Hm4, Hg.
  - intros k n. simpl. destruct (decide (k = id)) as [->|Hk]; [apply Hm2|by rewrite Hm1].
Qed.

(** ** Reaping *)

Lemma reap_select_spec st p :
  NoDup (reap_select st p).*1
  ∧ ∀ x, x ∈ reap_select st p → jobs st !! x.1 = Some x.2 ∧ p x = true.
Proof.
  unfold reap_select. set (l := sort_by reap_cmp (List.filter p (map_to_list (jobs st)))).
  assert (NoDup l.*1) as Hd.
  { unfold l. rewrite sort_by_perm. pose proof (NoDup_fst_map_to_list (jobs st)) as Hd.
    induction (map_to_list (jobs st)) as [|x xs IH]; simpl; [constructor|].
    apply NoDup_cons in Hd as [Hx Hd]. destruct (p x); [|by apply IH].
    apply NoDup_cons. split; [|by apply IH].
    intros (y & E & Hy)%list_elem_of_fmap. apply Hx. rewrite E.
    apply list_elem_of_fmap. exists y. split; [done|].
    by apply list_elem_of_In, filter_In in Hy as [Hy%list_elem_of_In _]. }
  split.
  - rewrite fmap_take. eapply sublist_NoDup; [exact Hd|apply sublist_take].
  - intros x Hx. assert (x ∈ l) as Hl 
      by (apply elem_of_take in Hx as (i & Hi & _); by eapply list_elem_of_lookup_2).
    apply elem_of_sort_by, list_elem_of_In, filter_In in Hl as [Hl%list_elem_of_In Hp].
    split; [|done]. apply elem_of_map_to_list. by destruct x.
Qed.

Lemma expire_step now st p :
  invariant st → jobs st !! p.1 = Some p.2 → status p.2 = Leased →
  ∃ st', expire_terminal_lease now st p = Ok st'
    ∧ advance st st' p.1 p.2 (job_failed p.2 now) ∧ invariant st' ∧ unchanged st st'.
Proof.
  intros Hinv Hj Hs. unfold expire_terminal_lease.
  assert (unfinished (status p.2) = true) as Hu by by rewrite Hs.
  destruct (release_total st p.1 p.2 Hinv Hj Hu) as [st1 H1]. rewrite H1. simpl.
  pose proof (inv_jobs _ Hinv _ _ Hj) as (_ & _ & _ & Hwf & _).
  pose proof H1 as (b & E1 & _)%release_Ok.
  set (f := λ a, attempt_outcome a AttemptExpired (Some now) (Some "timeout")
    (Some "租约过期且已达到最大尝试次数") (retryable_requested a) (attempt_result_key a)).
  destruct (close_total st1 p.1 p.2 f) as [st2 H2]; [by rewrite E1|done|].
  rewrite H2. simpl. eexists. split; [done|].
  destruct (conclude st st1 st2 _ p.1 p.2 f (λ j, job_failed j now) now (model_instance_id p.2)
    Hinv Hj Hu ltac:(done) ltac:(done) H1 H2 eq_refl) as (? & ? & ? & _). done.
Qed.

Definition expired_if (ids : list Z) (now : Z) (id : Z) (j : JobRow) : JobRow :=
  if bool_decide (id ∈ ids) then job_failed j now else j.

Lemma reap_loop now l st :
  invariant st → NoDup l.*1 →
  (∀ p, p ∈ l → jobs st !! p.1 = Some p.2 ∧ status p.2 = Leased) →
  ∃ st', fold_each (expire_terminal_lease now) st l = Ok st' ∧ invariant st' ∧ unchanged st st'
    ∧ ∀ id, jobs st' !! id = expired_if l.*1 now id <$> jobs st !! id.
Proof.
  revert st. induction l as [|p l IH]; intros st Hinv Hd Hl; cbn [fold_each].
  { exists st. split_and!; try done. intros id. by destruct (jobs st !! id). }
  rewrite fmap_cons in *. apply NoDup_cons in Hd as [Hp Hd]. destruct (Hl p) as [Hj Hs]; [by left|].
  destruct (expire_step now st p Hinv Hj Hs) as (st1 & -> & Hadv & Hinv1 & Hun1).
  cbn [mbind result_bind].
  destruct (IH st1 Hinv1 Hd) as (st' & -> & Hinv' & Hun' & Hjobs).
  { intros q Hq. destruct (Hl q) as [Hjq Hsq]; [by right|]. split; [|done].
    rewrite (adv_jobs _ _ _ _ _ Hadv), lookup_insert_ne; [done|]. intros E. apply Hp. rewrite E.
    apply list_elem_of_fmap. by exists q. }
  exists st'. split_and!; [done|done|by etrans|]. intros id. rewrite Hjobs, (adv_jobs _ _ _ _ _ Hadv).
  unfold expired_if. destruct (decide (p.1 = id)) as [<-|Hne].
  - rewrite lookup_insert_eq, Hj. cbn [fmap option_fmap option_map].
    rewrite (bool_decide_false (p.1 ∈ l.*1)) by done. by rewrite bool_decide_true by left.
  - rewrite lookup_insert_ne by done. destruct (jobs st !! id) as [j|]; [|done].
    cbn [fmap option_fmap option_map].
    rewrite (bool_decide_ext (id ∈ p.1 :: l.*1) (id ∈ l.*1)); [done|].
    rewrite elem_of_cons. split; [by intros [?|?]|by right].
Qed.

Lemma terminal_lease_Leased now j : terminal_lease now j = true → status j = Leased.
Proof. unfold terminal_lease. rewrite !andb_true_iff, bool_decide_eq_true. tauto. Qed.

(** Reaping the expired leases never fails. *)
Lemma reap_expired_total st now :
  invariant st →
  ∃ st', reap_expired_terminal_leases st now = Ok st' ∧ invariant st' ∧ unchanged st st'
    ∧ ∀ id, jobs st' !! id
        = expired_if (reap_select st (λ p, terminal_lease now p.2)).*1 now id <$> jobs st !! id.
Proof.
  intros Hinv. unfold reap_expired_terminal_leases.
  destruct (reap_select_spec st (λ p, terminal_lease now p.2)) as [Hd Hl].
  destruct (reap_loop now _ st Hinv Hd) as (st' & -> & Hinv' & Hun & Hjobs).
  { intros p [Hp Ht%terminal_lease_Leased]%Hl. done. }
  simpl. eexists. split; [done|]. split; [|split; [by destruct Hun|done]].
  apply (invariant_same st'); try done. apply Hinv'.
Qed.

Lemma release_error st u x e : release_reservation st u x = Err e → e = internal.
Proof.
  unfold release_reservation, update_reserved, require_internal, bail_if.
  destruct (accounts (books st) !! u) as [a|]; simpl; [|congruence].
  destruct (x <=? reserved_micro a); simpl; [|congruence].
  destruct (account_check _); simpl; congruence.
Qed.

(** A job that lost its hardware stops the other loop: its attempt names no
    device, so the INSERT is refused. *)
Lemma fail_unbound_refused now st p : fail_unbound_job now st p = Err internal.
Proof.
  unfold fail_unbound_job. destruct (regulated_node_id p.2) as [node|]; [|done]. simpl.
  destruct (release_reservation st (user_id p.2) (reserved_cost_micro p.2)) as [st1|e] eqn:E; simpl.
  - unfold insert_attempt, attempt_check. cbn [ claim_device_binding_version attempt_result_key].
    rewrite (bool_decide_eq_false_2 (None = Some 1)) by done.
    simpl. rewrite andb_false_r. done.
  - by rewrite (release_error _ _ _ _ E).
Qed.
