(* ===== verification/Progress.v ===== *)
(** * What the handlers may do to a job

    Every transaction on jobs keeps the invariant and moves each job forward or
    leaves it where it is; the rank of a job counts the moves it has left. *)
From S2P Require Import Prelude Text Float64 Fixed Tier Policy Routing Billing Ledger Net AntiAbuse StandardData Hardware Fingerprint Store Envelope Api Snapshot Tables Lease Postings Complete Settled Requests Quotes Dispatch DispatchSpec JobOps Admission Lifecycle.

Local Open Scope string_scope.
Local Open Scope list_scope.
Local Open Scope Z_scope.

(** ** Moves *)

Definition stage (j : JobRow) : JobStatus * Z := (status j, attempt_count j).

(** Each attempt costs a lease and its end. *)
Definition rank (j : JobRow) : Z :=
  if unfinished (status j) then
    2 * (max_attempts (submission j) - attempt_count j)
      + (if bool_decide (status j = Leased) then 2 else 1)
  else 0.

Definition progress (j j' : JobRow) : Prop :=
  frozen j' = frozen j ∧ (stage j' = stage j ∨ 0 ≤ rank j' < rank j)
  ∧ (unfinished (status j) = false → j' = j).

Lemma rank_stage j j' : frozen j' = frozen j → stage j' = stage j → rank j' = rank j.
Proof.
  intros Hf%frozen_submission [= Hs Hc]. unfold rank. by rewrite Hf, Hs, Hc.
Qed.

#[export] Instance progress_preorder : PreOrder progress.
Proof.
  split; [by split; [|split; [left|]]|]. intros a b c (F1 & H1 & E1) (F2 & H2 & E2).
  split; [congruence|]. split; [|intros Ha; rewrite (E1 Ha) in *; by apply E2].
  clear E1 E2. destruct H1 as [E1|L1], H2 as [E2|L2].
  - left. congruence.
  - right. rewrite <-(rank_stage a b) by done. lia.
  - right. rewrite (rank_stage b c) by done. lia.
  - right. lia.
Qed.

Lemma rank_nonneg atts id j : job_wf atts id j → 0 ≤ rank j.
Proof. intros (_ & ? & _). unfold rank. repeat case_if; lia. Qed.

Lemma rank_finish atts id j j' :
  job_wf atts id j → unfinished (status j) = true → unfinished (status j') = false →
  0 ≤ rank j' < rank j.
Proof. intros (_ & ? & _) Hu Hu'. unfold rank. rewrite Hu, Hu'. case_if; lia. Qed.

Record keeps (st st' : State) : Prop := mkKeeps {
  keeps_invariant : invariant st';
  keeps_jobs id j : jobs st !! id = Some j → ∃ j', jobs st' !! id = Some j' ∧ progress j j';
}.

Lemma keeps_refl st : invariant st → keeps st st.
Proof. intros H. split; [done|]. intros id j Hj. by exists j. Qed.

Lemma keeps_trans a b c : keeps a b → keeps b c → keeps a c.
Proof.
  intros [Ia Ja] [Ib Jb]. split; [done|]. intros id j Hj.
  destruct (Ja id j Hj) as (j1 & H1 & P1). destruct (Jb id j1 H1) as (j2 & H2 & P2).
  exists j2. split; [done|by etrans].
Qed.

(** Tables the invariant does not look at. *)
Lemma keeps_same st st' :
  invariant st → jobs st' = jobs st → attempts st' = attempts st →
  regulated_routes (fleet st') = regulated_routes (fleet st) →
  (∀ u, reserved_of (books st') u = reserved_of (books st) u) → books_ok (books st') →
  keeps st st'.
Proof.
  intros Hinv Hj Ha Hf Hr Hb. split; [by apply (invariant_same st)|].
  intros id j Hid. exists j. by rewrite Hj.
Qed.

(** Routes that stay consistent with the jobs. *)
Lemma keeps_routes st st' :
  invariant st → jobs st' = jobs st → attempts st' = attempts st → books st' = books st →
  routes_ok (regulated_routes (fleet st')) (jobs st) → keeps st st'.
Proof.
  intros Hinv Ej Ea Eb Hrt. split.
  - destruct Hinv as [Hb Hr Hj Ha Hu _]. split; rewrite ?Ej, ?Ea, ?Eb; done.
  - intros id j Hid. exists j. by rewrite Ej.
Qed.

Lemma advance_keeps st st' id j j' :
  invariant st → advance st st' id j j' → job_wf (attempts st') id j' →
  unfinished (status j) = true → stage j' = stage j ∨ 0 ≤ rank j' < rank j → keeps st st'.
Proof.
  intros Hinv Hadv Hwf Hu Hst. split; [by eapply advance_invariant|].
  intros k jk Hk. rewrite (adv_jobs _ _ _ _ _ Hadv). destruct (decide (id = k)) as [<-|Hne].
  - exists j'. rewrite lookup_insert_eq. split; [done|].
    rewrite (adv_old _ _ _ _ _ Hadv) in Hk. injection Hk as <-.
    split; [apply (adv_frozen _ _ _ _ _ Hadv)|]. split; [done|]. by rewrite Hu.
  - exists jk. by rewrite lookup_insert_ne.
Qed.

(** One job moved, in terms of the state the handler commits. *)
Lemma moved_job st st' id j j' b :
  jobs st !! id = Some j → jobs st' = <[id := j']> (jobs st) → frozen j' = frozen j →
  regulated_routes (fleet st') = regulated_routes (fleet st) → books st' = b →
  (∀ u, reserved_of b u = reserved_of (books st) u + to_user (user_id j) (hold j' - hold j) u) →
  (books_ok (books st) → books_ok b) →
  (∀ k n, k ≠ id → attempts st' !! (k, n) = attempts st !! (k, n)) →
  advance st st' id j j'.
Proof. intros ? ? ? ? <- ? ? ?. by split. Qed.

Lemma hold_same j j' : frozen j' = frozen j → unfinished (status j') = unfinished (status j) →
  ∀ u, to_user (user_id j) (hold j' - hold j) u = 0.
Proof.
  intros Hf%frozen_cost Hu u. unfold hold. rewrite Hf, Hu. unfold to_user. repeat case_if; lia.
Qed.

Lemma hold_released j j' : unfinished (status j) = true → unfinished (status j') = false →
  hold j' - hold j = - reserved_cost_micro j.
Proof. intros Hu Hu'. unfold hold. rewrite Hu, Hu'. lia. Qed.

(** Closing the current attempt, whichever statement does it. *)
Lemma closed_wf (atts : gmap (Z * Z) AttemptRow) id j j' f :
  attempts_wf atts id j → attempt_count j' = attempt_count j →
  (∀ a, attempt_status (f a) ≠ AttemptLeased ∧ attempt_check (f a) = attempt_check a) →
  attempts_wf (alter f (id, attempt_count j) atts) id j'.
Proof.
  intros Hwf Ec Hf n a. rewrite Ec. rewrite lookup_alter_Some.
  intros [([= <-] & b & Hb & ->)|[Hne Ha]].
  - destruct (Hwf _ b Hb) as (? & ? & _). destruct (Hf b) as [Hnl ->].
    split_and!; [lia|lia|done|]. intros Hs. by destruct Hnl.
  - destruct (Hwf n a Ha) as (? & ? & Hl). split_and!; try done; try lia.
    intros Hs. destruct (Hl Hs) as (_ & -> & _). done.
Qed.

(** ** Reaping *)

Lemma reap_expired_keeps st now st' :
  invariant st → reap_expired_terminal_leases st now = Ok st' → keeps st st' ∧ unchanged st st'.
Proof.
  intros Hinv H. destruct (reap_expired_total st now Hinv) as (st1 & E & Hinv' & Hun & Hjobs).
  rewrite E in H. injection H as <-. split; [|done]. split; [done|]. intros id j Hj.
  rewrite Hjobs, Hj. cbn [fmap option_fmap option_map]. eexists. split; [done|].
  unfold expired_if. case_bool_decide as Hin; [|done].
  apply list_elem_of_fmap in Hin as (p & -> & Hp).
  destruct (reap_select_spec st (λ p, terminal_lease now p.2)) as [_ Hl].
  destruct (Hl p Hp) as [Hp' Hs%terminal_lease_Leased]. assert (p.2 = j) as E2 by congruence.
  rewrite E2 in Hs. split; [done|]. split; [right|by rewrite Hs].
  eapply rank_finish; [by apply (inv_jobs _ Hinv)|by rewrite Hs|done].
Qed.

(** The other loop changes nothing, or it fails. *)
Lemma reap_invalid_Ok st now st' : reap_invalid_regulated_jobs st now = Ok st' → st' = st.
Proof.
  unfold reap_invalid_regulated_jobs. destruct (reap_select _ _) as [|p l]; simpl.
  - by intros [= <-].
  - by rewrite fail_unbound_refused.
Qed.

Lemma transaction_Ok {A} st (body : ApiResult (ApiResult A * State)) r st' :
  transaction st body = (r, st') → st' = st ∨ body = Ok (r, st').
Proof. unfold transaction. destruct body as [[??]|]; intros [= <- <-]; [by right|by left]. Qed.

Lemma transaction_answer {A} st (body : ApiResult (ApiResult A * State)) a st' :
  transaction st body = (Ok a, st') → body = Ok (Ok a, st').
Proof. unfold transaction. by destruct body as [[??]|]; intros [= -> ->]. Qed.

(** ** Claiming *)

Section handlers.
Context `{CL : Collation, C : Crypto}.
Context (cfg : Config).

(** The attempt whose lease ran out is closed; there is none before the first. *)
Lemma expire_previous st id j f st' :
  (if 0 <? attempt_count j then update_leased_attempt st id (attempt_count j) f else Ok st) = Ok st' →
  (∀ a, attempt_status (f a) ≠ AttemptLeased) → attempts_wf (attempts st) id j →
  ∃ m, st' = with_attempts st m
    ∧ (∀ k n, k ≠ id → m !! (k, n) = attempts st !! (k, n))
    ∧ (∀ n a, m !! (id, n) = Some a →
        0 < n ≤ attempt_count j ∧ attempt_check a = true ∧ attempt_status a ≠ AttemptLeased).
Proof.
  intros H Hf Hwf. destruct (Z.ltb_spec 0 (attempt_count j)) as [Hp|Hp].
  - apply close_attempt in H as (m & -> & H1 & _ & H3 & H4); [|done..]. exists m.
    split_and!; [done..|]. intros n a Ha. destruct (H4 j eq_refl n a Ha) as (? & ? & _).
    split_and!; try done; try lia. by eapply H3.
  - injection H as <-. exists (attempts st). split; [by destruct st|]. split; [done|].
    intros n a Ha. destruct (Hwf n a Ha). lia.
Qed.

Lemma insert_attempt_Ok st id n a st' :
  insert_attempt st id n a = Ok st' →
  attempt_check a = true ∧ 0 < n ∧ st' = with_attempts st (<[(id, n) := a]> (attempts st)).
Proof.
  unfold insert_attempt. intros H. apply bind_Ok in H as ([] & Hc%require_internal_Ok & H).
  rewrite !andb_true_iff, Z.ltb_lt in Hc. destruct Hc as [[[_ ?] ?] _].
  apply bind_Ok in H as (row & _ & H). apply bind_Ok in H as ([] & _ & [= <-]). done.
Qed.

(** A candidate is leased: its instance can still be used. *)
Lemma lease_candidate_Ok st tx principal request policy id j r st' :
  invariant st →
  candidate st (tx_now tx) (claim_node_id request) (claim_instance_id request) = Some (id, j) →
  lease_candidate cfg st tx principal request policy id j = Ok (r, st') →
  ∃ response expires, r = Some response
    ∧ claimed_job_id response = id ∧ claimed_attempt response = attempt_count j + 1
    ∧ payload_for_worker cfg id j = Ok (claimed_payload response)
    ∧ claimed_tags response = job_tags (submission j)
    ∧ claimed_input_tokens response = estimated_input_tokens j
    ∧ claimed_max_output_tokens response = max_output_tokens j
    ∧ unchanged st st'
    ∧ advance st st' id j (job_leased j (claim_node_id request) (claim_instance_id request)
        expires (attempt_count j + 1))
    ∧ job_wf (attempts st') id (job_leased j (claim_node_id request) (claim_instance_id request)
        expires (attempt_count j + 1)).
Proof.
  intros Hinv Hcand H. apply candidate_spec in Hcand as (Hj & Hoff & _).
  apply offered_spec in Hoff as (Hready & _ & mi & row & Hmi & _ & Hrow & _).
  pose proof (inv_jobs _ Hinv id j Hj) as Hwf. pose proof Hwf as (Hcost & Hcount & Hmax & Hatts & _ & Hres).
  unfold ready in Hready. rewrite !andb_true_iff, Z.ltb_lt in Hready.
  destruct Hready as [[Hstatus _] Hleft].
  unfold lease_candidate in H. apply bind_Ok in H as ([] & _ & H).
  apply bind_Ok in H as (st1 & H1 & H). apply expire_previous in H1
    as (m & -> & Hm1 & Hm2); [|done|done].
  apply bind_Ok in H as (expires & _ & H).
  assert (instance_canary_quarantined st (claim_instance_id request) = false
    ∧ instance_status mi = Published) as [Hq Hpub].
  { unfold ranked_row in Hrow. cbn [fst snd] in Hrow.
    repeat (apply bind_Some in Hrow as (? & ? & Hrow)). cbv zeta in Hrow.
    match type of Hrow with (if ?b then _ else _) = _ => destruct b eqn:Heqb end; [|done].
    rewrite !andb_true_iff in Heqb.
    destruct Heqb as [[[[[[[[[_ Hp%bool_decide_eq_true] Hq%negb_true_iff] _] _] _] _] _] _] _]. done. }
  unfold instance_canary_quarantined in H, Hq. cbn [quarantined with_attempts instances] in H.
  rewrite Hq, Hmi, Hpub in H. rewrite bool_decide_true in H by done. cbn [negb] in H.
  apply bind_Ok in H as (st2 & (Hchk & _ & ->)%insert_attempt_Ok & H).
  apply bind_Ok in H as (payload & Hpay & H). apply bind_Ok in H as (mo & _ & H).
  apply bind_Ok in H as (resp & Hresp & [= <- <-]).
  assert (i32_saturating_inc (attempt_count j) = attempt_count j + 1) as Einc.
  { unfold i32_saturating_inc, i32_saturating_add. unfold_int. lia. }
  rewrite Einc in *. exists resp, (to_timestamp expires).
  assert (unfinished (status j) = true) as Hu by by destruct (status j).
  unfold claim_response in Hresp. apply bind_Ok in Hresp as (? & _ & Hresp).
  apply bind_Ok in Hresp as (? & _ & Hresp). apply bind_Ok in Hresp as (? & _ & [= <-]).
  split_and!; [done|done|done|exact Hpay|done|done|done|by split| |].
  - apply (moved_job _ _ _ _ _ (books st)); try done.
    + exact (update_job_jobs (with_attempts st m) id _ j Hj).
    + intros u. rewrite hold_same; [lia|done|by rewrite Hu].
    + intros k n Hk. simpl. rewrite lookup_insert_ne by congruence. by apply Hm1.
  - split_and!; simpl; try done; try lia.
    + intros n a. simpl. rewrite lookup_insert_Some. intros [[[= <-] <-]|[Hne Ha]].
      * split_and!; [lia|lia|exact Hchk|done].
      * destruct (Hm2 n a Ha) as (? & ? & ?). split_and!; try done; lia.
    + unfold status_wf. simpl. split; [done|]. split; [done|]. eexists.
      rewrite lookup_insert_eq. done.
    + intros _. apply Hres. by destruct (status j).
Qed.

Lemma claim_keeps st tx principal request r st' :
  invariant st → claim_job cfg st tx principal request = (r, st') → keeps st st'.
Proof.
  intros Hinv [->|H]%transaction_Ok; [by apply keeps_refl|].
  apply bind_Ok in H as ([n policy] & _ & H). apply bind_Ok in H as ([] & _ & H).
  apply bind_Ok in H as (st1 & [K1 _]%reap_expired_keeps & H); [|done].
  apply bind_Ok in H as (st2 & ->%reap_invalid_Ok & H). apply bind_Ok in H as ([] & _ & H).
  pose proof (keeps_invariant _ _ K1) as Hinv1.
  destruct (candidate _ _ _ _) as [[id j]|] eqn:Ec; [|injection H as _ <-; exact K1].
  apply bind_Ok in H as ([resp st2] & H & [= _ <-]). eapply keeps_trans; [exact K1|].
  apply lease_candidate_Ok in H as (? & e & _ & _ & _ & _ & _ & _ & _ & _ & Hadv & Hwf); [|done|done].
  apply candidate_spec in Ec as (Hj & Hoff & _). apply offered_spec in Hoff as (Hready & _).
  pose proof (inv_jobs _ Hinv1 id j Hj) as (_ & Hc & _).
  unfold ready in Hready. rewrite !andb_true_iff, Z.ltb_lt in Hready.
  destruct Hready as [[Hst _] Hlt].
  apply (advance_keeps _ _ _ _ _ Hinv1 Hadv Hwf); [by destruct (status j)|right]. unfold rank. simpl.
  destruct (status j); try done; simpl; repeat case_bool_decide; (done || lia).
Qed.

(** ** Renewing *)

Definition attempt_renewed (id expires : Z) (k : Z * Z) (a : AttemptRow) : AttemptRow :=
  if (k.1 =? id) && bool_decide (attempt_status a = AttemptLeased)
  then mkAttempt (attempt_node a) (claim_device_binding_version a) (claim_device_key_id a)
    (attempt_status a) (finished_at a) (error_class a) (attempt_error_message a)
    (retryable_requested a) (attempt_result_key a) (lease_started_at a) expires
  else a.

Lemma renew_attempts_Ok st id expires st' :
  renew_attempts st id expires = Ok st' →
  ∃ m, st' = with_attempts st m ∧ ∀ k, m !! k = attempt_renewed id expires k <$> attempts st !! k.
Proof.
  unfold renew_attempts. intros H. apply bind_Ok in H as ([] & _ & [= <-]).
  eexists. split; [done|]. intros k. rewrite map_lookup_imap. by destruct (attempts st !! k).
Qed.

Lemma renewed_same id expires k a :
  let a' := attempt_renewed id expires k a in
  attempt_check a' = attempt_check a ∧ attempt_status a' = attempt_status a
  ∧ attempt_result_key a' = attempt_result_key a ∧ attempt_node a' = attempt_node a.
Proof. unfold attempt_renewed. case_if; done. Qed.

Lemma renewed_wf (atts m : gmap (Z * Z) AttemptRow) id j j' expires :
  job_wf atts id j → status j = Leased →
  (∀ k, m !! k = attempt_renewed id expires k <$> atts !! k) →
  j' = job_renewed j expires → job_wf m id j'.
Proof.
  intros (Hc & Hn & Hm & Ha & Hs & Hr) Hl E ->. split_and!; try done; try (simpl; lia).
  - intros n a. rewrite E, fmap_Some. intros (b & Hb & ->).
    destruct (renewed_same id expires (id, n) b) as (-> & -> & -> & _). by apply Ha.
  - unfold status_wf in *. simpl. rewrite Hl in *. destruct Hs as (_ & Hi & a & Hat & Hal & Hnode).
    split; [done|]. split; [done|]. exists (attempt_renewed id expires (id, attempt_count j) a).
    rewrite E, Hat. destruct (renewed_same id expires (id, attempt_count j) a) as (_ & -> & _ & ->).
    done.
Qed.

(** ** Regulated leases that lost their hardware *)

Lemma lease_lost_keeps st now id msg st' :
  invariant st → fail_regulated_lease_attestation st now id msg = Ok st' → keeps st st'.
Proof.
  intros Hinv H. apply fail_lease_Ok in H as (j & b & a & insts & Hj & Hl & Ha & Hb & ->).
  apply update_reserved_moved in Hb as ((Hm & _ & _ & Hok) & _).
  pose proof (inv_jobs _ Hinv id j Hj) as Hwf.
  assert (unfinished (status j) = true) as Hu by by rewrite Hl.
  assert (<[(id, attempt_count j) := attempt_failed a "attestation" msg now]> (attempts st)
    = alter (λ a, attempt_failed a "attestation" msg now) (id, attempt_count j) (attempts st)) as Ealt.
  { apply map_eq. intros k. destruct (decide (k = (id, attempt_count j))) as [->|Hne].
    - by rewrite lookup_insert_eq, lookup_alter_eq, Ha.
    - by rewrite lookup_insert_ne, lookup_alter_ne by done. }
  eapply (advance_keeps _ _ id j (job_failed j now)); [done| | |done|].
  - apply (moved_job _ _ _ _ _ b); try done.
    + intros u. rewrite hold_released by done. by destruct (Hm u) as (_ & ? & _).
    + intros k n Hk. simpl. rewrite lookup_insert_ne; congruence.
  - simpl. rewrite Ealt. eapply finished_wf; [exact Hwf|done|done|]. by apply closed_wf; [apply Hwf|..].
  - right. by eapply rank_finish.
Qed.

Lemma renewable_Ok st now id node j a :
  renewable st now id node = Some (j, a) →
  jobs st !! id = Some j ∧ status j = Leased ∧ leased_to_node_id j = Some node
  ∧ attempts st !! (id, attempt_count j) = Some a ∧ sql_is (lease_expires_at j) (λ t, now <? t) = true.
Proof.
  unfold renewable. intros H. apply bind_Some in H as (j' & Hj & H).
  apply bind_Some in H as (a' & Ha & H). case_if; [|done]. injection H as -> ->.
  rewrite !andb_true_iff, !bool_decide_eq_true in Heqb. tauto.
Qed.

Lemma renew_keeps st tx principal id node r st' :
  invariant st → renew_job cfg st tx principal id node = (r, st') → keeps st st'.
Proof.
  intros Hinv [->|H]%transaction_Ok; [by apply keeps_refl|].
  apply bind_Ok in H as ([n policy] & _ & H). apply bind_Ok in H as ([] & _ & H).
  apply bind_Ok in H as ([j a] & (Hj & Hl & _)%ok_or_Ok%renewable_Ok & H).
  apply bind_Ok in H as ([] & _ & H). destruct (_ && _).
  { apply bind_Ok in H as (st1 & H & [= _ <-]). by eapply lease_lost_keeps. }
  apply bind_Ok in H as ([] & _ & H). apply bind_Ok in H as (e & _ & H). cbv zeta in H.
  apply bind_Ok in H as (st1 & (m & -> & Hm)%renew_attempts_Ok & [= _ <-]).
  pose proof (inv_jobs _ Hinv id j Hj) as Hwf.
  eapply (advance_keeps _ _ id j (job_renewed j (to_timestamp e))); [done| | |by rewrite Hl|by left].
  - apply (moved_job _ _ _ _ _ (books st)); try done.
    + exact (update_job_jobs st id _ j Hj).
    + intros u. rewrite hold_same; [lia|done|done].
    + intros k n' Hk. simpl. rewrite Hm. simpl. unfold attempt_renewed.
      rewrite (proj2 (Z.eqb_neq _ _)) by done. simpl. by destruct (attempts st !! (k, n')).
  - by eapply renewed_wf.
Qed.

(** ** Failing and cancelling *)

Lemma leased_view_Ok st id j n node a :
  leased_view st id = Some (j, n, node, a) →
  jobs st !! id = Some j ∧ leased_to_node_id j = Some node ∧ nodes st !! node = Some n
  ∧ attempts st !! (id, attempt_count j) = Some a.
Proof.
  unfold leased_view. intros H. apply bind_Some in H as (j' & Hj & H).
  apply bind_Some in H as (node' & Hnode & H). apply bind_Some in H as (n' & Hn & H).
  apply bind_Some in H as (a' & Ha & H). injection H as -> -> -> ->. done.
Qed.

Lemma finalize_keeps st now i :
  (invariant (finalize_draining_instance st now i) ↔ invariant st)
  ∧ jobs (finalize_draining_instance st now i) = jobs st
  ∧ attempts (finalize_draining_instance st now i) = attempts st
  ∧ fleet (finalize_draining_instance st now i) = fleet st
  ∧ books (finalize_draining_instance st now i) = books st.
Proof.
  destruct (finalize_instances st now i) as [m ->]. split; [|done]. split; intros [??????]; by split.
Qed.

(** The two ends of a failed attempt. *)
Lemma conclude_failure_keeps st m tx id j will_retry st' :
  invariant st → jobs st !! id = Some j → status j = Leased →
  (∀ k n, k ≠ id → m !! (k, n) = attempts st !! (k, n)) →
  (∀ j', attempt_count j' = attempt_count j → attempts_wf m id j') →
  (will_retry = true → attempt_count j < max_attempts (submission j)) →
  conclude_failure (with_attempts st m) tx id j will_retry = Ok st' → keeps st st'.
Proof.
  intros Hinv Hj Hl Hm1 Hm2 Hr H. pose proof (inv_jobs _ Hinv id j Hj) as Hwf.
  pose proof Hwf as (Hc & Hn & Hmax & _ & _ & Hres). unfold conclude_failure in H. destruct will_retry.
  - apply bind_Ok in H as (t & _ & [= <-]).
    eapply (advance_keeps _ _ id j (job_retried j (to_timestamp t))); [done| | |by rewrite Hl|].
    + apply (moved_job _ _ _ _ _ (books st)); try done.
      * exact (update_job_jobs (with_attempts st m) id _ j Hj).
      * intros u. rewrite hold_same; [lia|done|by rewrite Hl].
    + split_and!; try done; try (simpl; lia). 
      * by apply Hm2.
      * unfold status_wf. simpl. by apply Hr.
      * intros _. apply Hres. by rewrite Hl.
    + right. unfold rank. simpl. rewrite Hl. simpl. repeat case_bool_decide; (done || lia).
  - apply bind_Ok in H as (st1 & (b & -> & Hb & Hok)%release_Ok & [= <-]).
    eapply (advance_keeps _ _ id j (job_failed j (tx_now tx))); [done| | |by rewrite Hl|].
    + apply (moved_job _ _ _ _ _ b); try done.
      * exact (update_job_jobs (with_books (with_attempts st m) b) id _ j Hj).
      * intros u. rewrite Hb, hold_released; [done|by rewrite Hl|done].
    + eapply finished_wf; [exact Hwf|by rewrite Hl|done|]. by apply Hm2.
    + right. eapply rank_finish; [exact Hwf|by rewrite Hl|done].
Qed.

Lemma fail_keeps st tx principal id request r st' :
  invariant st → job_fail st tx principal id request = (r, st') → keeps st st'.
Proof.
  intros Hinv [->|H]%transaction_Ok; [by apply keeps_refl|].
  apply bind_Ok in H as ([] & _ & H). apply bind_Ok in H as ([] & _ & H).
  unfold fail_tx in H. destruct (reported_attempt _ _ _) as [[a n]|].
  { apply bind_Ok in H as (? & _ & [= _ <-]). by apply keeps_refl. }
  apply bind_Ok in H as ([[[j n] node] a] & (Hj & _)%ok_or_Ok%leased_view_Ok & H).
  apply bind_Ok in H as ([] & _ & H).
  apply bind_Ok in H as ([] & Hl%bail_if_Ok%negb_false_iff%bool_decide_eq_true & H).
  apply bind_Ok in H as (lease & _ & H). apply bind_Ok in H as ([] & _ & H). cbv zeta in H.
  pose proof (inv_jobs _ Hinv id j Hj) as (_ & _ & _ & Ha & _).
  apply bind_Ok in H as (st1 & (m & -> & Hm1 & _ & _ & Hm2)%close_attempt & H); [|done|done].
  apply bind_Ok in H as (st2 & H & [= _ <-]).
  apply conclude_failure_keeps in H; try done; last first.
  { intros [_ ?%Z.ltb_lt]%andb_true_iff. done. }
  destruct (finalize_keeps st2 (tx_now tx) (model_instance_id j)) as (Hi & Ej & Ea & Ef & Eb).
  eapply keeps_trans; [exact H|]. apply keeps_same; try done; [apply H|by rewrite Ef|by rewrite Eb|].
  rewrite Eb. apply H.
Qed.

Lemma cancel_keeps st tx principal id r st' :
  invariant st → cancel_timed_out_job st tx principal id = (r, st') → keeps st st'.
Proof.
  intros Hinv [->|H]%transaction_Ok; [by apply keeps_refl|].
  apply bind_Ok in H as (j & Hj%ok_or_Ok & H). apply bind_Some in Hj as (j' & Hj & Heq).
  destruct (user_id j' =? principal_user_id principal); [|done]. injection Heq as ->.
  pose proof (inv_jobs _ Hinv id j Hj) as Hwf. pose proof Hwf as (_ & _ & _ & Ha & _).
  destruct (unfinished (status j)) eqn:Hu; last first.
  { destruct (status j); try done; injection H as _ <-; by apply keeps_refl. }
  assert (match status j with Succeeded | Failed | Cancelled => false | _ => true end = true) as Hn
    by by destruct (status j).
  set (f := λ a, attempt_outcome a AttemptFailed (Some (tx_now tx)) (Some "timeout")
    (Some "公网 OpenAI 网关等待超时并取消任务") (retryable_requested a) (attempt_result_key a)) in *.
  assert (∃ st1 st2, release_reservation st (user_id j) (reserved_cost_micro j) = Ok st1
    ∧ update_leased_attempt st1 id (attempt_count j) f = Ok st2
    ∧ st' = finalize_draining_instance (update_job st2 id (λ j, job_cancelled j (tx_now tx)))
        (tx_now tx) (model_instance_id j)) as (st1 & st2 & H1 & H2 & Hst').
  { assert (∀ st1, release_reservation st (user_id j) (reserved_cost_micro j) = Ok st1 →
      (if bool_decide (status j = Leased) then update_leased_attempt st1 id (attempt_count j) f
       else Ok st1) = update_leased_attempt st1 id (attempt_count j) f) as Hif.
    { intros st1 (b & -> & _)%release_Ok. case_bool_decide as Hl; [done|].
      unfold update_leased_attempt. cbn [attempts with_books].
      destruct (attempts st !! (id, attempt_count j)) as [a|] eqn:Ea; [|done].
      case_bool_decide as Hal; [|done]. by destruct (Ha _ a Ea) as (_ & _ & [? _]). }
    destruct (status j); try done; apply bind_Ok in H as (st1 & H1 & H); rewrite (Hif st1 H1) in H;
      apply bind_Ok in H as (st2 & H2 & [= _ <-]); by exists st1, st2. }
  destruct (conclude st st1 st2 st' id j f (λ j, job_cancelled j (tx_now tx)) (tx_now tx)
    (model_instance_id j)) as (Hadv & Hinv' & _ & _); try done.
  apply (advance_keeps _ _ _ _ _ Hinv Hadv); [|done|].
  - apply (inv_jobs _ Hinv'). rewrite (adv_jobs _ _ _ _ _ Hadv). apply lookup_insert_eq.
  - right. by eapply rank_finish.
Qed.

(** ** Reading *)

Lemma get_keeps st tx principal id r st' :
  invariant st → get_job cfg st tx principal id = (r, st') → keeps st st'.
Proof.
  intros Hinv [->|H]%transaction_Ok; [by apply keeps_refl|].
  apply bind_Ok in H as (st1 & [K1 _]%reap_expired_keeps & H); [|done].
  apply bind_Ok in H as (st2 & ->%reap_invalid_Ok & H). apply bind_Ok in H as (j & _ & H).
  apply bind_Ok in H as ([] & _ & H). apply bind_Ok in H as (result & _ & [= _ <-]). done.
Qed.
End handlers.

(** ** Settling *)

Lemma complete_keeps `{SE : Serde, C : Crypto} parse_envelope encode_snapshot key st tx cmd r st' :
  invariant st → complete_job parse_envelope encode_snapshot key st tx cmd = (r, st') →
  keeps st st'.
Proof.
  intros Hinv H%complete_job_completion.
  inversion H as [e|v fp o|v ? Hv _ Hl _ _ Hf|v fp o ? _ Hv _ _ Hl _ _ Hs]; subst;
    try by apply keeps_refl.
  - by eapply lease_lost_keeps.
  - apply load_view_Ok in Hv as (Hj & _).
    pose proof (inv_jobs _ Hinv _ _ Hj) as Hwf.
    apply settle_Ok in Hs as (s & hs & t & fo & ct & sv & atts & insts & digest & _ & _ & _ & _
      & _ & Hp & _ & _ & _ & -> & _ & Est').
    apply post_settlement_moved in Hp as ((Hm & _ & _ & Hok) & _).
    eapply (advance_keeps _ _ (job_id cmd) (job v) (job_succeeded (job v) ct (submitted_key cmd)
      (submitted_input_tokens cmd) (submitted_output_tokens cmd) fp sv (tx_now tx))); [done| | |by rewrite Hl|].
    + apply (moved_job _ _ _ _ _ (books st')); try done.
      * by rewrite Est'.
      * by rewrite Est'.
      * intros u. rewrite hold_released; [by destruct (Hm u) as (_ & ? & _)|by rewrite Hl|done].
      * intros k n Hk. rewrite Est'. simpl. rewrite lookup_alter_ne; congruence.
    + rewrite Est'. simpl. eapply finished_wf; [exact Hwf|by rewrite Hl|done|].
      by apply closed_wf; [apply Hwf|..].
    + right. eapply rank_finish; [exact Hwf|by rewrite Hl|done].
Qed.

(** ** Creating *)

(** A new job waits, unleased, with its reservation on the consumer's account. *)
Lemma insert_keeps st st' id j :
  invariant st → jobs st !! id = None →
  jobs st' = <[id := j]> (jobs st) → attempts st' = attempts st →
  routes_ok (regulated_routes (fleet st')) (<[id := j]> (jobs st)) →
  (∀ u, reserved_of (books st') u
     = reserved_of (books st) u + to_user (user_id j) (reserved_cost_micro j) u) →
  (books_ok (books st) → books_ok (books st')) →
  (∀ k jk, jobs st !! k = Some jk → user_id jk = user_id j →
     job_idempotency jk = job_idempotency j → False) →
  status j = Queued → attempt_count j = 0 → 0 < max_attempts (submission j) ≤ i32_max →
  0 < reserved_cost_micro j → result_ciphertext j = None → keeps st st'.
Proof.
  intros [Hb Hr Hj Ha Hu _] Hn Ej Ea Hrt Hm Hok Hkey Hs Hc Hmax Hpos Hres. split.
  - split.
    + by apply Hok.
    + intros u. rewrite Hm, Hr, Ej. unfold reserved_total. rewrite job_sum_insert_new by done.
      unfold hold_of, hold, to_user. rewrite Hs. simpl. rewrite (Z.eqb_sym u). case_if; lia.
    + intros k jk. rewrite Ej, Ea, lookup_insert_Some. intros [[<- <-]|[_ Hk]]; [|by apply Hj].
      split_and!; try done; try lia.
      * intros n a Hna. exfalso. destruct (Ha id n) as [j' Hj']; [by exists a|]. congruence.
      * unfold status_wf. rewrite Hs. lia.
    + intros k n Hka. rewrite Ej, lookup_insert_is_Some. rewrite Ea in Hka.
      destruct (decide (id = k)); [by left|right]. split; [done|]. by apply (Ha k n).
    + intros k k' jk jk'. rewrite Ej, !lookup_insert_Some.
      intros [[<- <-]|[_ Hk]] [[<- <-]|[_ Hk']]; [done|..].
      * intros Eu Ek. by destruct (Hkey k' jk' Hk').
      * intros Eu Ek. by destruct (Hkey k jk Hk).
      * by apply Hu.
    + by rewrite Ej.
  - intros k jk Hk. exists jk. rewrite Ej, lookup_insert_ne; [done|]. intros ->. congruence.
Qed.

(** A new job without a route. *)
Lemma routes_ok_insert rs js id j :
  routes_ok rs js → js !! id = None → regulated_route_id j = None → routes_ok rs (<[id := j]> js).
Proof.
  intros [Hj Hc Hs Hk] Hn Hr. split; [| |done|done].
  - intros k jk rt. rewrite lookup_insert_Some. intros [[<- <-]|[_ H]]; [congruence|by apply Hj].
  - intros rt r k H Hjob. destruct (Hc rt r k H Hjob) as (? & jk & Hjk & Hrt). split; [done|].
    exists jk. rewrite lookup_insert_ne by congruence. done.
Qed.

Lemma attempts_allowed_bounds cfg stream : 0 < attempts_allowed cfg stream ≤ i32_max.
Proof. unfold attempts_allowed, i32_saturating_add. unfold_int. case_if; lia. Qed.

Section creating.
Context `{SE : Serde, J : JobJson, C : Crypto, CL : Collation}.
Context (cfg : Config) (asn_lookup : IpAddr → option Z) (trusted_proxy_ips : gset IpAddr).
Context (base64_standard_decode : string → option string) (uuid_parse : string → option Z).

Lemma reserve_Ok st u x st' :
  reserve st u x = Ok st' →
  ∃ b, st' = with_books st b
    ∧ (∀ v, reserved_of b v = reserved_of (books st) v + to_user u x v)
    ∧ (books_ok (books st) → books_ok b)
    ∧ x ≤ spendable_of (books st) u - reserved_of (books st) u.
Proof.
  unfold reserve. intros H. apply bind_Ok in H as (a & Ha%or_internal_Ok & H).
  apply bind_Ok in H as ([] & Hle%bail_if_Ok%Z.ltb_ge & H).
  apply bind_Ok in H as (b & Hb & [= <-]).
  pose proof Hb as (a' & Ha' & _ & Hle' & _)%update_reserved_Ok.
  apply update_reserved_moved in Hb as ((Hm & _ & _ & Hok) & _).
  exists b. split; [done|]. split; [intros v; by destruct (Hm v) as (_ & ? & _)|].
  split; [done|]. unfold balance_of. rewrite Ha'. simpl. lia.
Qed.

Lemma insert_job_Ok st id j st' :
  insert_job st id j = Ok st' →
  jobs st !! id = None ∧ 0 < reserved_cost_micro j ∧ 0 < max_attempts (submission j)
  ∧ (∀ k jk, jobs st !! k = Some jk → user_id jk = user_id j →
       job_idempotency jk = job_idempotency j → False)
  ∧ regulated_binding st j = true
  ∧ st' = with_jobs st (<[id := j]> (jobs st)).
Proof.
  unfold insert_job. intros H. apply bind_Ok in H as ([] & Hc%require_internal_Ok & H).
  apply bind_Ok in H as ([] & _ & H). apply bind_Ok in H as ([] & Hb%require_internal_Ok & [= <-]).
  rewrite !andb_true_iff in Hc. destruct Hc as [[[[[[[Hn%bool_decide_eq_true Hk%negb_true_iff] _] _] ?%Z.ltb_lt] _]
    ?%Z.ltb_lt] _]. split_and!; try done. intros k jk Hjk Hu Hkey.
  eapply (key_absent _ _ Hk k jk Hjk). simpl. by rewrite Hu, Hkey, Z.eqb_refl, String.eqb_refl.
Qed.

(** What an admission does to the database. *)
Lemma admit_Ok st tx id principal request validated r st' :
  admit_job cfg uuid_parse st tx id principal request validated = Ok (r, st') →
  ∃ speed model b payload book,
    parse_speed_qualified_model (virtual_model request) = Ok speed
    ∧ load_billing_snapshot (profiles (fleet st)) (tx_now tx) (selected_id model)
        (selected_weights_hash model) (request_input_tokens request)
        (request_max_output_tokens request) = Ok b
    ∧ encrypt_for_storage (standard_data_key cfg) (tx_nonce tx) id Payload
        (request_payload request) = Ok payload
    ∧ (∀ u, reserved_of book u = reserved_of (books st) u
         + to_user (principal_user_id principal) (reservation_micro b) u)
    ∧ (books_ok (books st) → books_ok book)
    ∧ reservation_micro b
        ≤ spendable_of (books st) (principal_user_id principal)
          - reserved_of (books st) (principal_user_id principal)
    ∧ jobs st !! id = None
    ∧ (∀ k jk, jobs st !! k = Some jk → user_id jk = principal_user_id principal →
         job_idempotency jk = request_idempotency_key request → False)
    ∧ r = mkCreated id Queued (selected_id model) (reservation_micro b)
        (speed_as_str (model_speed_class speed)) false
    ∧ let j := queued_job cfg tx principal request validated (selected_id model) b payload
        (speed_as_str (model_speed_class speed)) in
      0 < reserved_cost_micro j ∧ st' = with_jobs (with_books st book) (<[id := j]> (jobs st)).
Proof.
  unfold admit_job. intros H. apply bind_Ok in H as (speed & Hsp%map_err_Ok & H).
  apply bind_Ok in H as (model & _ & H). apply bind_Ok in H as (b & Hb & H).
  apply bind_Ok in H as (st1 & (book & -> & Hm & Hok & Hle)%reserve_Ok & H).
  apply bind_Ok in H as (payload & Hp%map_err_Ok & H).
  apply bind_Ok in H as (st2 & (Hn & Hpos & _ & Hk & _ & ->)%insert_job_Ok & [= <- <-]).
  exists speed, model, b, payload, book. split_and!; done.
Qed.

(** A creation that was not a replay admitted the job. *)
Lemma create_admits st tx id principal connection request r st' :
  create_job cfg asn_lookup trusted_proxy_ips base64_standard_decode uuid_parse st tx id
    principal connection request = (Ok r, st') → created_replay r = false →
  ∃ validated db,
    validate_create_job base64_standard_decode request (standard_data_key cfg) = Ok validated
    ∧ assess_job_creation cfg asn_lookup trusted_proxy_ips st tx principal connection
        (request_idempotency_key request) = Ok (with_abuse st db)
    ∧ existing_job st (principal_user_id principal) (request_idempotency_key request) = None
    ∧ admit_job cfg uuid_parse (with_abuse st db) tx id principal request validated = Ok (r, st').
Proof.
  intros H%transaction_answer Hr. apply bind_Ok in H as (validated & Hv & H).
  destruct (existing_job _ _ _) as [p|].
  { apply bind_Ok in H as (x & Hx & [= <- _]). unfold existing_standard_response in Hx.
    by apply bind_Ok in Hx as ([] & _ & [= <-]). }
  apply bind_Ok in H as (st1 & H1 & H). pose proof H1 as Ha. unfold assess_job_creation in H1.
  apply bind_Ok in H1 as (network & _ & H1). apply bind_Ok in H1 as (akey & _ & H1).
  apply bind_Ok in H1 as ([decision db] & _ & H1). apply bind_Ok in H1 as ([] & _ & [= <-]).
  apply bind_Ok in H as ([r' st2] & H & [= -> ->]). by exists validated, db.
Qed.

Lemma create_keeps st tx id principal connection request r st' :
  invariant st →
  create_job cfg asn_lookup trusted_proxy_ips base64_standard_decode uuid_parse st tx id
    principal connection request = (r, st') → keeps st st'.
Proof.
  intros Hinv [->|H]%transaction_Ok; [by apply keeps_refl|].
  apply bind_Ok in H as (validated & _ & H). destruct (existing_job _ _ _) as [p|].
  { apply bind_Ok in H as (? & _ & [= _ <-]). by apply keeps_refl. }
  apply bind_Ok in H as (st1 & H1 & H). unfold assess_job_creation in H1.
  apply bind_Ok in H1 as (network & _ & H1). apply bind_Ok in H1 as (akey & _ & H1).
  apply bind_Ok in H1 as ([decision db] & _ & H1). apply bind_Ok in H1 as ([] & _ & [= <-]).
  apply bind_Ok in H as ([r' st2] & H & [= _ <-]).
  apply admit_Ok in H as (speed & model & b & payload & book & _ & _ & _ & Hm & Hok & _ & Hn & Hkey
    & _ & Hpos & ->). cbn [books jobs with_abuse fleet] in *.
  eapply (insert_keeps _ _ id); try done; [|apply attempts_allowed_bounds].
  apply routes_ok_insert; [apply Hinv|done..].
Qed.
End creating.
