(* ===== verification/NodesSpec.v ===== *)
(** * What the node and model routes promise

    The tables of nodes, policies, models and instances keep their identities
    through every registration, heartbeat, publication and withdrawal; a
    heartbeat opens and closes the node for new work; the uptime it adds is
    bounded by the clock; and nobody rates the model he publishes. *)
From S2P Require Import Prelude Text Float64 Billing Ledger Net AntiAbuse StandardData Hardware Fingerprint Store Envelope Api Snapshot Tables Lease Postings Requests NodeRequests Dispatch JobOps Nodes Models Lifecycle Progress.

Local Open Scope string_scope.
Local Open Scope list_scope.
Local Open Scope Z_scope.

(** ** What the routes of jobs see of these routes: nothing they rely on *)

Record aside (st st' : State) : Prop := mkAside {
  aside_books : books st' = books st;
  aside_jobs : jobs st' = jobs st;
  aside_attempts : attempts st' = attempts st;
  aside_receipts : receipts st' = receipts st;
  aside_challenges : challenges st' = challenges st;
  aside_reports : reports st' = reports st;
  aside_quarantined : quarantined st' = quarantined st;
  aside_routes : regulated_routes (fleet st') = regulated_routes (fleet st);
}.

#[export] Instance aside_preorder : PreOrder aside.
Proof. split; [by split|]. intros a b c [] []. split; congruence. Qed.

Lemma aside_keeps st st' : invariant st → aside st st' → keeps st st'.
Proof. intros Hinv []. apply keeps_same; congruence || intros; try by f_equal. rewrite aside_books0. apply Hinv. Qed.

Lemma put_policy_Ok st node p st' :
  put_policy st node p = Ok st' →
  policy_check p = true ∧ st' = with_policies st (<[node := p]> (policies (fleet st))).
Proof. intros H. unfold put_policy in H. ok_inv. by apply require_internal_Ok in H. Qed.

(** ** Heartbeats *)

(** The policy in force: the one the heartbeat brings, or the stored one. *)
Definition policy_in_force (p : PolicyRow) (request : HeartbeatRequest) : PolicyRow :=
  match beat_policy request with
  | Some d => mkPolicyRow (dto_reject_tags d) (dto_max_concurrent d) (dto_gpu_temp_limit_c d)
                (dto_vram_reserve_mib d)
  | None => p
  end.

Definition temperature_paused (n : NodeRow) : bool :=
  String.eqb (node_status n) "paused"
  && bool_decide (pause_reason (standing n) = Some "gpu_temperature_limit").

Definition pause_of (n : NodeRow) (p : PolicyRow) (request : HeartbeatRequest) : option string :=
  heartbeat_pause request (policy_max_concurrent p) (policy_gpu_temp_limit_c p)
    (policy_vram_reserve_mib p) (temperature_paused n).

Lemma sql_policy_values_Ok d v :
  sql_policy_values d = Ok v →
  v = (dto_max_concurrent d, dto_gpu_temp_limit_c d, dto_vram_reserve_mib d).
Proof.
  unfold sql_policy_values, policy_columns. intros H. ok_inv. 
  by repeat match goal with H : _ = Some _ |- _ => apply checked_Some in H as [_ ->] end.
Qed.

(** A heartbeat that is accepted, statement by statement. *)
Lemma node_heartbeat_Ok st tx principal node request r st' :
  node_heartbeat st tx principal node request = (Ok r, st') →
  ∃ n p n' m, nodes st !! node = Some n ∧ policies (fleet st) !! node = Some p
    ∧ heartbeat_validate request = Ok tt
    ∧ require_node_device_binding principal (node_owner n) (device_key_id n) = Ok tt
    ∧ (let q := policy_in_force p request in
       let pause := pause_of n q request in
       let status := heartbeat_status_of request pause in
       node_beaten (tx_now tx) status pause n = Ok n'
       ∧ r = mkBeatResponse node status (String.eqb status "online") pause
               (bool_decide (is_Some (beat_policy request)))
       ∧ (beat_policy request = None ∨ policy_check q = true)
       ∧ fleet st' = mkFleet (<[node := q]> (policies (fleet st))) (<[node := m]> (metrics (fleet st)))
           (profiles (fleet st)) (regulated_routes (fleet st)) (challenge_nonces (fleet st))
           (heartbeats (fleet st)
            ++ [mkHeartbeat node status (String.eqb status "online") (tx_now tx)]))
    ∧ nodes st' = <[node := n']> (nodes st)
    ∧ models st' = models st ∧ instances st' = instances st ∧ aside st st'.
Proof.
  intros H%transaction_answer. apply bind_Ok in H as ([] & Hv%map_err_Ok & H).
  apply bind_Ok in H as ([n p] & Hnp%ok_or_Ok & H).
  apply bind_Some in Hnp as (n0 & Hn & (p0 & Hp & [= -> ->])%bind_Some).
  apply bind_Ok in H as ([] & Hd & H). apply bind_Ok in H as ([[[c g] v] s] & Hs & H).
  apply bind_Ok in H as (n' & Hn' & [= <- <-]).
  exists n, p, n'. unfold policy_in_force, pause_of, temperature_paused. eexists.
  split; [done|]. split; [done|]. split; [done|]. split; [done|].
  destruct (beat_policy request) as [d|] eqn:Ed; cbn zeta.
  - apply bind_Ok in Hs as (w & Hw & Hs). apply sql_policy_values_Ok in Hw as ->.
    apply bind_Ok in Hs as (s' & (Hc & ->)%put_policy_Ok & [= <- <- <- <-]).
    split_and!; [done|done|by right|done..].
  - injection Hs as <- <- <- <-.
    split_and!; [done|done|by left| |done..].
    cbn. by rewrite (insert_id (policies (fleet st)) node p Hp).
Qed.

(** When a node must not take more work, under a policy. *)
Definition too_hot (p : PolicyRow) (paused : bool) (temperature : option Z) : Prop :=
  ∃ limit, policy_gpu_temp_limit_c p = Some limit
    ∧ ∀ t, temperature = Some t → if paused then limit - 5 < t else limit ≤ t.
Definition short_of_vram (p : PolicyRow) (request : HeartbeatRequest) : Prop :=
  ∃ used total, beat_vram_used_mib request = Some used ∧ beat_vram_total_mib request = Some total
    ∧ total - used < policy_vram_reserve_mib p.

Lemma too_hot_spec p paused t :
  policy_check p = true →
  temperature_requires_pause (policy_gpu_temp_limit_c p) paused t = true ↔ too_hot p paused t.
Proof.
  intros Hc. unfold temperature_requires_pause, too_hot.
  destruct (policy_gpu_temp_limit_c p) as [l|] eqn:E; [|naive_solver].
  unfold policy_check in Hc. rewrite E in Hc.
  apply andb_true_iff in Hc as [[_ Hl%in_range_true]%andb_true_iff _].
  unfold i32_saturating_sub. unfold_int. destruct paused, t as [t|]; simpl;
    rewrite ?Z.ltb_lt, ?Z.leb_le; split.
  all: try (intros H; exists l; split; [done|]; intros ? [= <-]; lia).
  all: try (by intros _; exists l; split; [done|]; intros ? [=]).
  all: try (by intros _).
  all: intros (? & [= <-] & H); specialize (H t eq_refl); lia.
Qed.

Lemma vram_spec p request :
  heartbeat_validate request = Ok tt → policy_check p = true →
  match beat_vram_used_mib request, beat_vram_total_mib request with
  | Some used, Some total => i64_saturating_sub total used <? policy_vram_reserve_mib p
  | _, _ => false
  end = true ↔ short_of_vram p request.
Proof.
  unfold short_of_vram, heartbeat_validate. intros H Hc. ok_inv.
  apply andb_true_iff in Hc as [_ Hr%in_range_true].
  destruct (beat_vram_used_mib request) as [u|]; [|naive_solver].
  destruct (beat_vram_total_mib request) as [t|]; [|naive_solver].
  simpl in *. repeat match goal with H : _ || _ = false |- _ => apply orb_false_iff in H as [??] end.
  rewrite Z.ltb_lt. unfold i64_saturating_sub. unfold_int. split.
  - intros ?. exists u, t. split_and!; [done|done|lia].
  - intros (? & ? & [= <-] & [= <-] & ?). lia.
Qed.

(** What keeps a node from taking more work. *)
Definition held_back (p : PolicyRow) (paused : bool) (request : HeartbeatRequest) : Prop :=
  too_hot p paused (beat_gpu_temp_c request) ∨ short_of_vram p request
  ∨ policy_max_concurrent p ≤ beat_concurrent request.

Lemma pause_spec n p request :
  heartbeat_validate request = Ok tt → policy_check p = true →
  is_Some (pause_of n p request) ↔ held_back p (temperature_paused n) request.
Proof.
  intros Hv Hc. unfold pause_of, heartbeat_pause, held_back.
  rewrite <-too_hot_spec, <-vram_spec, <-Z.leb_le by done.
  destruct (policy_max_concurrent p <=? _); [naive_solver|].
  destruct (temperature_requires_pause _ _ _), (beat_vram_used_mib request),
    (beat_vram_total_mib request); try case_if; rewrite ?is_Some_alt; naive_solver.
Qed.

Lemma online_spec request pause :
  heartbeat_status_of request pause = "online" ↔ beat_draining request = false ∧ pause = None.
Proof.
  unfold heartbeat_status_of. destruct (beat_draining request), pause; simpl; naive_solver.
Qed.

(** ** The registry *)

(** The unique keys, references and checks of the four tables. *)
Record registry_ok (st : State) : Prop := mkRegistryOk {
  reg_nodes i j n m : nodes st !! i = Some n → nodes st !! j = Some m →
    node_owner n = node_owner m → node_alias n = node_alias m → i = j;
  reg_policies i : is_Some (nodes st !! i) → is_Some (policies (fleet st) !! i);
  reg_checked i p : policies (fleet st) !! i = Some p → policy_check p = true;
  reg_models i j m m' : models st !! i = Some m → models st !! j = Some m' →
    model_name m = model_name m' → weights_hash m = weights_hash m' → i = j;
  reg_priced i m : models st !! i = Some m → base_cost_per_1k_micro m = V1_BASE_COST_PER_1K_MICRO;
  reg_instances i j a b : instances st !! i = Some a → instances st !! j = Some b →
    instance_node a = instance_node b → instance_alias a = instance_alias b → i = j;
  reg_served i a : instances st !! i = Some a →
    is_Some (nodes st !! instance_node a) ∧ is_Some (models st !! instance_model a);
}.

(** What a row keeps for ever. *)
Definition node_kept (n n' : NodeRow) : Prop :=
  node_owner n' = node_owner n ∧ node_alias n' = node_alias n
  ∧ (∀ key, device_key_id n = Some key → device_key_id n' = Some key)
  ∧ node_created_at (standing n') = node_created_at (standing n)
  ∧ verified_uptime_seconds (standing n) ≤ verified_uptime_seconds (standing n').
Definition model_kept (m m' : ModelRow) : Prop :=
  (model_name m', weights_hash m', size_bytes m', tier m', base_cost_per_1k_micro m')
    = (model_name m, weights_hash m, size_bytes m, tier m, base_cost_per_1k_micro m)
  ∧ (benchmark_normalized m', glicko_normalized m', evaluation_samples m')
    = (benchmark_normalized m, glicko_normalized m, evaluation_samples m)
  ∧ (model_owner m', model_format m', model_context_length m')
    = (model_owner m, model_format m, model_context_length m)
  ∧ (enabled m = true → enabled m' = true).
Definition instance_kept (i i' : InstanceRow) : Prop :=
  instance_model i' = instance_model i ∧ instance_node i' = instance_node i
  ∧ instance_alias i' = instance_alias i.

#[export] Instance node_kept_preorder : PreOrder node_kept.
Proof.
  split; [intros n; unfold node_kept; split_and!; (done || lia)|].
  intros a b c (E1 & E2 & E3 & E4 & ?) (F1 & F2 & F3 & F4 & ?).
  split_and!; [congruence..|by intros k ?%E3%F3|congruence|lia].
Qed.
#[export] Instance model_kept_preorder : PreOrder model_kept.
Proof.
  split; [by intros n; unfold model_kept; split_and!|].
  intros a b c (E1 & E2 & E3 & E4) (F1 & F2 & F3 & F4).
  split_and!; [congruence..|by intros ?%E4%F4].
Qed.
#[export] Instance instance_kept_preorder : PreOrder instance_kept.
Proof.
  split; [by intros n; unfold instance_kept; split_and!|].
  intros a b c (E1 & E2 & E3) (F1 & F2 & F3). split_and!; congruence.
Qed.

(** The registry moves on. *)
Record evolves (st st' : State) : Prop := mkEvolves {
  ev_ok : registry_ok st → registry_ok st';
  ev_nodes : all_kept node_kept (nodes st) (nodes st');
  ev_models : all_kept model_kept (models st) (models st');
  ev_instances : all_kept instance_kept (instances st) (instances st');
  ev_aside : aside st st';
}.

#[export] Instance evolves_preorder : PreOrder evolves.
Proof.
  split.
  - intros st. split; try done; by apply all_kept_refl.
  - intros a b c [O1 N1 M1 I1 A1] [O2 N2 M2 I2 A2]. split; [auto| | | |by etrans].
    + exact (all_kept_trans _ _ _ _ N1 N2).
    + exact (all_kept_trans _ _ _ _ M1 M2).
    + exact (all_kept_trans _ _ _ _ I1 I2).
Qed.

(** A row that takes the place of one with the same key keeps the key unique. *)
Lemma unique_insert {A K} (key : A → K) (t : gmap Z A) k a :
  (∀ i j x y, t !! i = Some x → t !! j = Some y → key x = key y → i = j) →
  (∀ i x, t !! i = Some x → key x = key a → i = k) →
  ∀ i j x y, <[k := a]> t !! i = Some x → <[k := a]> t !! j = Some y → key x = key y → i = j.
Proof.
  intros Hu Ha i j x y. rewrite !lookup_insert_Some.
  intros [[<- <-]|[Hi Hx]] [[<- <-]|[Hj Hy]] E; [done|symmetry; by eapply Ha|by eapply Ha|by eapply Hu].
Qed.

Lemma node_beaten_Ok now status pause n n' :
  node_beaten now status pause n = Ok n' →
  n' = mkNode (node_owner n) (device_key_id n) status (Some now) (trust_level n)
    (trust_expires_at n) (node_attestation_report n) (hardware_profile n) (node_alias n)
    (mkStanding pause
       (verified_uptime_seconds (standing n)
        + uptime_credit now (last_verified_heartbeat_at (standing n)))
       (verified_heartbeat_count (standing n) + 1) (Some now) (node_created_at (standing n))).
Proof.
  unfold node_beaten. intros H. ok_inv.
  apply or_internal_Ok, checked_Some in H as [_ ->], H0 as [_ ->]. done.
Qed.

Lemma uptime_credit_nonneg now last : 0 ≤ uptime_credit now last.
Proof. unfold uptime_credit. case_if; lia. Qed.

(** A transaction whose every end commits an answer leaves no trace of an error. *)
Ltac no_error_answer H :=
  apply transaction_Ok in H as [->|H]; [reflexivity|exfalso];
  repeat (cbn beta in H; first
    [ discriminate H
    | apply bind_Ok in H as (? & _ & H)
    | match type of H with context [match ?x with _ => _ end] => is_var x; destruct x end ]).

Lemma heartbeat_error st tx principal node request e st' :
  node_heartbeat st tx principal node request = (Err e, st') → st' = st.
Proof. intros H. no_error_answer H. Qed.
Lemma register_error `{ProfileJson} st tx principal request e st' :
  register_node st tx principal request = (Err e, st') → st' = st.
Proof. intros H0. no_error_answer H0. Qed.
Lemma publish_error st tx principal request e st' :
  publish_model st tx principal request = (Err e, st') → st' = st.
Proof. intros H. no_error_answer H. Qed.
Lemma unpublish_error st tx principal instance e st' :
  unpublish_model st tx principal instance = (Err e, st') → st' = st.
Proof. intros H. no_error_answer H. Qed.

(** *** Writing one row *)

(** A node row with its policy. *)
Lemma registry_put_node st st' id n p :
  registry_ok st → policy_check p = true →
  (∀ i m, nodes st !! i = Some m → node_owner m = node_owner n → node_alias m = node_alias n → i = id) →
  nodes st' = <[id := n]> (nodes st) → policies (fleet st') = <[id := p]> (policies (fleet st)) →
  models st' = models st → instances st' = instances st → registry_ok st'.
Proof.
  intros [Hn Hp Hc Hm Hb Hi Hs] Hok Hid En Ep Em Ei. split.
  - rewrite En. intros i j x y Hx Hy Ho Ha.
    eapply (unique_insert (λ n, (node_owner n, node_alias n)) (nodes st) id n); [..|exact Hx|exact Hy|].
    + intros ????? ? [= ? ?]. by eapply Hn.
    + intros ??? [= ? ?]. by eapply Hid.
    + simpl. congruence.
  - rewrite En, Ep. intros i. rewrite !lookup_insert_is_Some. naive_solver.
  - rewrite Ep. intros i q. rewrite lookup_insert_Some. intros [[_ <-]|[_ ?]]; eauto.
  - by rewrite Em.
  - by rewrite Em.
  - by rewrite Ei.
  - rewrite En, Em, Ei. intros i a [? ?]%Hs. rewrite lookup_insert_is_Some'. eauto.
Qed.

Lemma registry_put_model st st' id m :
  registry_ok st → base_cost_per_1k_micro m = V1_BASE_COST_PER_1K_MICRO →
  (∀ i m', models st !! i = Some m' → model_name m' = model_name m →
     weights_hash m' = weights_hash m → i = id) →
  models st' = <[id := m]> (models st) → nodes st' = nodes st → fleet st' = fleet st →
  instances st' = instances st → registry_ok st'.
Proof.
  intros [Hn Hp Hc Hm Hb Hi Hs] Hok Hid Em En Ef Ei. split; rewrite ?En, ?Ef, ?Ei; try done.
  - rewrite Em. intros i j x y Hx Hy Ho Ha.
    eapply (unique_insert (λ n, (model_name n, weights_hash n)) (models st) id m); [..|exact Hx|exact Hy|].
    + intros ????? ? [= ? ?]. by eapply Hm.
    + intros ??? [= ? ?]. by eapply Hid.
    + simpl. congruence.
  - rewrite Em. intros i q. rewrite lookup_insert_Some. intros [[_ <-]|[_ ?]]; eauto.
  - rewrite Em. intros i a [? ?]%Hs. rewrite lookup_insert_is_Some'. eauto.
Qed.

Lemma registry_put_instance st st' id a :
  registry_ok st → is_Some (nodes st !! instance_node a) → is_Some (models st !! instance_model a) →
  (∀ i b, instances st !! i = Some b → instance_node b = instance_node a →
     instance_alias b = instance_alias a → i = id) →
  instances st' = <[id := a]> (instances st) → nodes st' = nodes st → fleet st' = fleet st →
  models st' = models st → registry_ok st'.
Proof.
  intros [Hn Hp Hc Hm Hb Hi Hs] Hnode Hmodel Hid Ei En Ef Em. split; rewrite ?En, ?Ef, ?Em; try done.
  - rewrite Ei. intros i j x y Hx Hy Ho Ha.
    eapply (unique_insert (λ n, (instance_node n, instance_alias n)) (instances st) id a);
      [..|exact Hx|exact Hy|].
    + intros ????? ? [= ? ?]. by eapply Hi.
    + intros ??? [= ? ?]. by eapply Hid.
    + simpl. congruence.
  - rewrite Ei. intros i b. rewrite lookup_insert_Some. intros [[_ <-]|[_ ?]]; eauto.
Qed.

(** *** The four routes *)

Lemma heartbeat_evolves st tx principal node request r st' :
  node_heartbeat st tx principal node request = (r, st') → evolves st st'.
Proof.
  destruct r as [r|e]; [|by intros ->%heartbeat_error].
  intros (n & p & n' & m & Hn & Hp & _ & _ & (Hb%node_beaten_Ok & _ & Hc & Hf) & Hns & Hm & Hi & Ha)
    %node_heartbeat_Ok.
  split; [|rewrite Hns|by rewrite Hm; apply all_kept_refl|by rewrite Hi; apply all_kept_refl|done].
  - intros Hok. eapply (registry_put_node st st' node n'); [done| | |done|by rewrite Hf|done|done].
    + destruct Hc as [Hc|Hc]; [|exact Hc]. unfold policy_in_force. rewrite Hc. by eapply reg_checked.
    + intros i x Hx Eo Ea. subst n'. by eapply (reg_nodes _ Hok i node x n).
  - apply all_kept_insert; [done|]. intros b Eb. assert (b = n) as -> by congruence. subst n'.
    unfold node_kept. simpl. pose proof (uptime_credit_nonneg (tx_now tx)
      (last_verified_heartbeat_at (standing n))). split_and!; (done || lia).
Qed.

Lemma node_by_alias_Some st user alias id n :
  node_by_alias st user alias = Some (id, n) →
  nodes st !! id = Some n ∧ node_owner n = user ∧ node_alias n = alias.
Proof.
  intros [Hin Hp]%head_filter_Some. apply elem_of_map_to_list in Hin.
  by apply andb_true_iff in Hp as [?%Z.eqb_eq ?%String.eqb_eq].
Qed.

Lemma node_by_alias_None st user alias id n :
  node_by_alias st user alias = None → nodes st !! id = Some n → node_owner n = user →
  node_alias n ≠ alias.
Proof.
  intros H Hn Ho Ha. apply (head_filter_None _ _ (id, n)) in H; [|by apply elem_of_map_to_list].
  simpl in H. by rewrite Ho, Ha, Z.eqb_refl, String.eqb_refl in H.
Qed.

(** A registration that is accepted. *)
Lemma register_node_Ok `{ProfileJson} st tx principal request r st' :
  register_node st tx principal request = (Ok r, st') →
  ∃ profile id n p,
    encode_profile (register_profile request) = Some profile
    ∧ upsert_node st (tx_now tx) (now_v7 tx 0%nat) (principal_user_id principal)
        (device_key_id_of principal) (trim (register_alias request))
        (trust_level_db (software_trust_level (register_profile request))) profile = Ok (Some (id, n))
    ∧ p = mkPolicyRow (register_reject_tags request) (register_max_concurrent request)
            (register_gpu_temp_limit_c request) (register_vram_reserve_mib request)
    ∧ policy_check p = true ∧ registered_node r = id ∧ registered_status r = Offline
    ∧ parse_db_trust_level (trust_level n) = Ok (registered_trust r)
    ∧ st' = with_policies (with_nodes st (<[id := n]> (nodes st)))
              (<[id := p]> (policies (fleet st))).
Proof.
  intros Hr%transaction_answer. apply bind_Ok in Hr as ([] & _ & Hr).
  apply bind_Ok in Hr as ([c v] & Hc & Hr).
  apply bind_Ok in Hr as (profile & Hp%or_internal_Ok & Hr).
  apply bind_Ok in Hr as (stored & Hu & Hr).
  apply bind_Ok in Hr as ([id n] & ->%ok_or_Ok & Hr).
  apply bind_Ok in Hr as (t & Ht & Hr).
  apply bind_Ok in Hr as (st1 & (Hk & ->)%put_policy_Ok & [= <- <-]).
  unfold policy_columns in Hc. ok_inv. apply checked_Some in H0 as [_ ->], H1 as [_ ->].
  eexists profile, id, n, _. split_and!; done.
Qed.

(** What the upsert returns. *)
Lemma upsert_node_Ok st now new_id user device alias trust profile id n :
  upsert_node st now new_id user device alias trust profile = Ok (Some (id, n)) →
  node_owner n = user ∧ node_alias n = alias ∧ device_key_id n = Some device
  ∧ node_status n = "offline" ∧ last_seen_at n = None ∧ hardware_profile n = profile
  ∧ ((nodes st !! id = None ∧ n = node_inserted now user device alias trust profile
      ∧ ∀ i m, nodes st !! i = Some m → node_owner m = user → node_alias m ≠ alias)
     ∨ ∃ n0, nodes st !! id = Some n0 ∧ node_owner n0 = user ∧ node_alias n0 = alias
         ∧ (device_key_id n0 = None ∨ device_key_id n0 = Some device)
         ∧ n = node_reregistered st now id device trust profile n0).
Proof.
  unfold upsert_node. destruct (node_by_alias st user alias) as [[id0 n0]|] eqn:E.
  - apply node_by_alias_Some in E as (Hn & Ho & Ha). case_bool_decide as Hd; [|done].
    intros [= -> <-]. split_and!; try done.
    + simpl. by destruct Hd as [->| ->].
    + right. exists n0. split_and!; done.
  - intros Hu. ok_inv. apply require_internal_Ok, bool_decide_eq_true in H.
    split_and!; try done. left. split_and!; [done..|].
    intros i m Hm Ho. by eapply node_by_alias_None.
Qed.

Lemma register_evolves `{ProfileJson} st tx principal request r st' :
  register_node st tx principal request = (r, st') → evolves st st'.
Proof.
  destruct r as [r|e]; [|by intros ->%register_error].
  intros (profile & id & n & p & _ & Hu & -> & Hk & _ & _ & _ & ->)%register_node_Ok.
  apply upsert_node_Ok in Hu as (Ho & Ha & Hd & _ & _ & _ & Hcase).
  split; [|simpl|by apply all_kept_refl|by apply all_kept_refl|by split].
  - intros Hok. eapply (registry_put_node st _ id n); [done|exact Hk| |done..].
    intros i m Hm Em Ea. destruct Hcase as [(_ & _ & Hno)|(n0 & Hn0 & Ho0 & Ha0 & _)].
    + destruct (Hno i m Hm); congruence.
    + eapply (reg_nodes _ Hok i id m n0); congruence.
  - apply all_kept_insert; [done|]. intros b Hb.
    destruct Hcase as [(Hnone & _)|(n0 & Hn0 & _ & _ & Hdev & ->)]; [congruence|].
    assert (b = n0) as -> by congruence. unfold node_kept. simpl. split_and!; try done.
    intros key E. by rewrite E.
Qed.

Lemma model_by_identity_Some st name hash id m :
  model_by_identity st name hash = Some (id, m) →
  models st !! id = Some m ∧ model_name m = name ∧ weights_hash m = hash.
Proof.
  intros [Hin Hp]%head_filter_Some. apply elem_of_map_to_list in Hin.
  by apply andb_true_iff in Hp as [?%String.eqb_eq ?%String.eqb_eq].
Qed.

Lemma upsert_model_Ok st new_id user request id m :
  upsert_model st new_id user request = Ok (id, m) →
  model_name m = trim (publish_name request)
  ∧ weights_hash m = to_ascii_lowercase (publish_weights_hash request)
  ∧ ((models st !! id = None ∧ m = model_inserted user request
      ∧ ∀ i m', models st !! i = Some m' → model_name m' = model_name m → weights_hash m' ≠ weights_hash m)
     ∨ ∃ m0, models st !! id = Some m0 ∧ m = model_republished user m0
         ∧ model_name m0 = model_name m ∧ weights_hash m0 = weights_hash m).
Proof.
  unfold upsert_model. destruct (model_by_identity _ _ _) as [[id0 m0]|] eqn:E.
  - apply model_by_identity_Some in E as (Hm & Hn & Hh). intros [= <- <-].
    split_and!; try done. right. by exists m0.
  - intros Hu. ok_inv. apply require_internal_Ok, bool_decide_eq_true in H.
    split_and!; try done. left. split_and!; [done..|]. intros i m' Hm' En Eh.
    apply (head_filter_None _ _ (i, m')) in E; [|by apply elem_of_map_to_list].
    simpl in E, En, Eh. by rewrite En, Eh, !String.eqb_refl in E.
Qed.

Lemma upsert_instance_Ok st now new_id model node alias tags id a :
  upsert_instance st now new_id model node alias tags = Ok (Some (id, a)) →
  a = mkInstance model node Published None tags alias now
  ∧ ((instances st !! id = None
      ∧ ∀ i b, instances st !! i = Some b → instance_node b = node → instance_alias b ≠ alias)
     ∨ ∃ b, instances st !! id = Some b ∧ instance_kept b a).
Proof.
  unfold upsert_instance. destruct (instance_by_alias st node alias) as [[id0 b]|] eqn:E.
  - apply head_filter_Some in E as [Hin Hp]. apply elem_of_map_to_list in Hin.
    apply andb_true_iff in Hp as [Hn%Z.eqb_eq Ha%String.eqb_eq]. simpl in Hn, Ha.
    destruct (Z.eqb_spec (instance_model b) model) as [Hm|]; [|done].
    intros [= <- <-]. subst. split; [done|]. right. by exists b.
  - intros Hu. ok_inv. apply require_internal_Ok, bool_decide_eq_true in H.
    split; [done|]. left. split; [done|]. intros i b Hb En Ea.
    apply (head_filter_None _ _ (i, b)) in E; [|by apply elem_of_map_to_list].
    simpl in E. by rewrite En, Ea, Z.eqb_refl, String.eqb_refl in E.
Qed.

(** A publication that is accepted. *)
Lemma publish_model_Ok st tx principal request r st' :
  publish_model st tx principal request = (Ok r, st') →
  ∃ node id m iid a,
    validate_publish request = Ok tt ∧ nodes st !! publish_node_id request = Some node
    ∧ require_node_device_binding principal (node_owner node) (device_key_id node) = Ok tt
    ∧ upsert_model st (now_v7 tx 0%nat) (principal_user_id principal) request = Ok (id, m)
    ∧ base_cost_per_1k_micro m = V1_BASE_COST_PER_1K_MICRO
    ∧ upsert_instance (with_models st (<[id := m]> (models st))) (tx_now tx) (now_v7 tx 1%nat) id
        (publish_node_id request) (trim (publish_alias request)) (publish_tags request)
      = Ok (Some (iid, a))
    ∧ r = mkPublished id iid (tier m)
    ∧ st' = with_instances (with_models st (<[id := m]> (models st))) (<[iid := a]> (instances st)).
Proof.
  intros Hr%transaction_answer. apply bind_Ok in Hr as ([] & Hv & Hr).
  apply bind_Ok in Hr as (node & Hn%ok_or_Ok & Hr). apply bind_Ok in Hr as ([] & Hd & Hr).
  apply bind_Ok in Hr as ([id m] & Hm & Hr).
  apply bind_Ok in Hr as ([] & Hb%require_internal_Ok%Z.eqb_eq & Hr).
  apply bind_Ok in Hr as (stored & Hs & Hr).
  apply bind_Ok in Hr as ([iid a] & ->%ok_or_Ok & [= <- <-]).
  exists node, id, m, iid, a. by split_and!.
Qed.

Lemma republished_kept user m : model_kept m (model_republished user m).
Proof. unfold model_kept. split_and!; try done. simpl. intros ->. by destruct (_ =? _). Qed.

Lemma publish_evolves st tx principal request r st' :
  publish_model st tx principal request = (r, st') → evolves st st'.
Proof.
  destruct r as [r|e]; [|by intros ->%publish_error].
  intros (node & id & m & iid & a & _ & Hn & _ & Hm & Hb & Hs & _ & ->)%publish_model_Ok.
  apply upsert_model_Ok in Hm as (_ & _ & Hm).
  apply upsert_instance_Ok in Hs as (Ea & Hs). simpl in Hs.
  set (st1 := with_models st (<[id := m]> (models st))).
  split; [intros Hok|by apply all_kept_refl| | |by split].
  - assert (registry_ok st1) as Hok1.
    { eapply (registry_put_model st st1 id m); [done|exact Hb| |done..].
      intros i m' Hm' E1 E2. destruct Hm as [(_ & _ & Hno)|(m0 & Hm0 & _ & F1 & F2)].
      - by destruct (Hno i m' Hm').
      - eapply (reg_models _ Hok i id m' m0); congruence. }
    eapply (registry_put_instance st1 _ iid a); subst a; simpl; [done|by eexists| | |done..].
    + rewrite lookup_insert_eq. by eexists.
    + intros i b Hb' E1 E2. destruct Hs as [(_ & Hno)|(b0 & Hb0 & _ & E3 & E4)].
      * by destruct (Hno i b Hb').
      * eapply (reg_instances _ Hok i iid b b0); try done; by rewrite ?E1, ?E2, <-?E3, <-?E4.
  - apply all_kept_insert; [done|]. intros b Hb'.
    destruct Hm as [(Hno & _)|(m0 & Hm0 & -> & _)]; [congruence|].
    assert (b = m0) as -> by congruence. apply republished_kept.
  - apply all_kept_insert; [done|]. intros b Hb'.
    destruct Hs as [(Hno & _)|(b0 & Hb0 & Hk)]; [congruence|]. by assert (b = b0) as -> by congruence.
Qed.

(** A withdrawal that is accepted. *)
Lemma unpublish_model_Ok st tx principal instance r st' :
  unpublish_model st tx principal instance = (Ok r, st') →
  ∃ i n, instances st !! instance = Some i ∧ nodes st !! instance_node i = Some n
    ∧ require_node_device_binding principal (node_owner n) (device_key_id n) = Ok tt
    ∧ (let status := if active_jobs st instance =? 0 then Unpublished else Draining in
       r = mkWithdrawn instance status (active_jobs st instance)
       ∧ st' = with_instances st
                 (<[instance := instance_withdrawn i status (tx_now tx)]> (instances st))).
Proof.
  intros Hr%transaction_answer. apply bind_Ok in Hr as ([i n] & Hin%ok_or_Ok & Hr).
  apply bind_Some in Hin as (i0 & Hi & (n0 & Hn & [= -> ->])%bind_Some).
  apply bind_Ok in Hr as ([] & Hd & [= <- <-]). exists i, n. by split_and!.
Qed.

Lemma unpublish_evolves st tx principal instance r st' :
  unpublish_model st tx principal instance = (r, st') → evolves st st'.
Proof.
  destruct r as [r|e]; [|by intros ->%unpublish_error].
  intros (i & n & Hi & Hn & _ & _ & ->)%unpublish_model_Ok.
  split; [intros Hok|by apply all_kept_refl..| |by split].
  - eapply (registry_put_instance st _ instance (instance_withdrawn i _ (tx_now tx)));
      simpl; [done|by eexists| | |done..].
    + by apply (reg_served _ Hok instance i).
    + intros j b Hb En Ea. by eapply (reg_instances _ Hok j instance b i).
  - apply all_kept_insert; [done|]. intros b Hb. by assert (b = i) as -> by congruence.
Qed.

(** ** The theorems *)

Section calls.
Context `{PJ : ProfileJson}.

Inductive NodeCall : Type :=
| Register (tx : Tx) (principal : Principal) (request : RegisterNodeRequest)
| Heartbeat (tx : Tx) (principal : Principal) (node : Z) (request : HeartbeatRequest)
| Publish (tx : Tx) (principal : Principal) (request : PublishModelRequest)
| Unpublish (tx : Tx) (principal : Principal) (instance : Z).

(** The database a call commits. *)
Definition node_commit (st : State) (c : NodeCall) : State :=
  match c with
  | Register tx principal request => (register_node st tx principal request).2
  | Heartbeat tx principal node request => (node_heartbeat st tx principal node request).2
  | Publish tx principal request => (publish_model st tx principal request).2
  | Unpublish tx principal instance => (unpublish_model st tx principal instance).2
  end.

Lemma node_commit_evolves st c : evolves st (node_commit st c).
Proof.
  destruct c; simpl.
  - destruct (register_node _ _ _ _) eqn:E. by eapply register_evolves.
  - destruct (node_heartbeat _ _ _ _ _) eqn:E. by eapply heartbeat_evolves.
  - destruct (publish_model _ _ _ _) eqn:E. by eapply publish_evolves.
  - destruct (unpublish_model _ _ _ _) eqn:E. by eapply unpublish_evolves.
Qed.

Definition node_run (st : State) (calls : list NodeCall) : State := foldl node_commit st calls.

(** C21: whatever node owners register, report, publish and withdraw, in any
    order, the registry stays consistent: one node per owner and alias, each
    with a policy its checks accept; one model per name and weights, at the
    server's price; one instance per node and alias, of a model and on a node
    that exist.  And rows keep what they are: a node its owner, its alias and,
    once bound, its device; a model its identity, tier, quality and price; an
    instance its model, node and alias; verified uptime never decreases. *)
Theorem registry_consistent st calls :
  registry_ok st →
  let st' := node_run st calls in
  registry_ok st' ∧ all_kept node_kept (nodes st) (nodes st')
  ∧ all_kept model_kept (models st) (models st')
  ∧ all_kept instance_kept (instances st) (instances st').
Proof.
  intros Hok st'. assert (evolves st st') as [].
  { subst st'. clear Hok. revert st. induction calls as [|c calls IH]; intros st; [done|].
    simpl. etrans; [apply node_commit_evolves|apply IH]. }
  auto.
Qed.
End calls.

(** A node that is not online hands out nothing. *)
Lemma claim_refused `{Collation, Crypto} cfg st tx principal node instance n :
  nodes st !! node = Some n → node_status n ≠ "online" →
  ∃ e, claim_job cfg st tx principal (mkClaim node instance) = (Err e, st).
Proof.
  intros Hn Hs. unfold claim_job, transaction. simpl.
  destruct (bound_node st principal node) as [[n' p]|e] eqn:Eb; simpl; [|by exists e].
  apply bind_Ok in Eb as (row & Hrow%ok_or_Ok & Eb). apply bind_Ok in Eb as ([] & _ & [= ->]).
  apply bind_Some in Hrow as (n0 & Hn0 & (p0 & _ & [= -> _])%bind_Some).
  assert (n' = n) as -> by congruence.
  apply String.eqb_neq in Hs. rewrite Hs. simpl. by eexists.
Qed.

(** C22: a heartbeat opens and closes its node. The node accepts work exactly
    when it is not draining and nothing under the policy in force holds it back:
    it is below its temperature limit (five degrees below, once paused for
    heat; an unknown temperature does not count as cool), leaves the reserved
    memory free, and runs fewer jobs than it allows. The row takes the answer's
    status and the time; and while it does not accept, every claim on it is
    refused and changes nothing. *)
Theorem heartbeat_gates_claims `{Collation, Crypto} st tx principal node request r st' :
  registry_ok st → node_heartbeat st tx principal node request = (Ok r, st') →
  ∃ n p n', nodes st !! node = Some n ∧ policies (fleet st) !! node = Some p
    ∧ nodes st' !! node = Some n'
    ∧ policies (fleet st') !! node = Some (policy_in_force p request)
    ∧ (accepting_jobs r = true
       ↔ beat_draining request = false
         ∧ ¬ held_back (policy_in_force p request) (temperature_paused n) request)
    ∧ node_status n' = response_status r ∧ last_seen_at n' = Some (tx_now tx)
    ∧ (node_status n' = "online" ↔ accepting_jobs r = true)
    ∧ (accepting_jobs r = false → ∀ cfg tx' principal' instance,
         ∃ e, claim_job cfg st' tx' principal' (mkClaim node instance) = (Err e, st')).
Proof.
  intros Hok (n & p & n' & m & Hn & Hp & Hv & _ & (Hb%node_beaten_Ok & -> & Hc & Hf) & Hns & _)
    %node_heartbeat_Ok.
  set (q := policy_in_force p request) in *. set (pause := pause_of n q request) in *.
  assert (policy_check q = true) as Hq.
  { destruct Hc as [Hc|Hc]; [|exact Hc]. subst q. unfold policy_in_force. rewrite Hc.
    by eapply reg_checked. }
  assert (node_status n' = heartbeat_status_of request pause) as Hst by by rewrite Hb.
  assert (nodes st' !! node = Some n') as Hn' by by rewrite Hns, lookup_insert_eq.
  exists n, p, n'. cbn [accepting_jobs response_status]. do 3 (split; [done|]).
  split; [by rewrite Hf; simpl; rewrite lookup_insert_eq|].
  split; [|split; [done|split; [by rewrite Hb|split; [by rewrite Hst, String.eqb_eq|]]]].
  - fold q. rewrite String.eqb_eq, online_spec, <-(pause_spec n q request) by done.
    by rewrite <-eq_None_not_Some.
  - intros Ha%String.eqb_neq cfg tx' principal' instance. eapply claim_refused; [done|congruence].
Qed.

(** Heartbeats of one node, and the clock they are taken at: it does not run
    backwards. *)
Abbreviation Beat := (Tx * Principal * HeartbeatRequest)%type.
Definition beat (node : Z) (st : State) (b : Beat) : State :=
  (node_heartbeat st b.1.1 b.1.2 node b.2).2.
Fixpoint clock_after (t : Z) (l : list Beat) : option Z :=
  match l with
  | [] => Some t
  | b :: l => if t <=? tx_now b.1.1 then clock_after (tx_now b.1.1) l else None
  end.

Lemma uptime_credit_bound now last t :
  (∀ s, last = Some s → s ≤ t) → t ≤ now →
  uptime_credit now last ≤ 90 ∧ 2000000 * uptime_credit now last
    ≤ 2 * (now - default now last) + 1000000.
Proof.
  intros Hl Ht. unfold uptime_credit, LIVENESS_MICROS, epoch_seconds.
  destruct last as [s|]; simpl; [|lia]. specialize (Hl s eq_refl).
  destruct ((s <=? now) && (now - 90000000 <=? s)) eqn:E; [|lia].
  apply andb_true_iff in E as [?%Z.leb_le ?%Z.leb_le].
  rewrite Z.abs_eq by lia. destruct (decide (s = now)) as [->|Hne].
  - rewrite Z.sub_diag. simpl. lia.
  - rewrite Z.sgn_pos by lia. pose proof (Z.mul_div_le (now - s + 500000) 1000000). lia.
Qed.

(** verified uptime follows the clock. A series of heartbeats adds at most
    90 seconds each, and together at most the time that passed since the last
    verified heartbeat, rounded up by half a second for each of them; time
    before the first heartbeat and silences of more than 90 seconds add
    nothing. *)
Theorem uptime_follows_clock st node n t l e :
  nodes st !! node = Some n →
  (∀ s, last_verified_heartbeat_at (standing n) = Some s → s ≤ t) → clock_after t l = Some e →
  ∃ n', nodes (foldl (beat node) st l) !! node = Some n'
    ∧ let gained := verified_uptime_seconds (standing n') - verified_uptime_seconds (standing n) in
      0 ≤ gained ≤ 90 * Z.of_nat (length l)
      ∧ 2000000 * gained ≤ 2 * (e - default t (last_verified_heartbeat_at (standing n)))
                           + 1000000 * Z.of_nat (length l).
Proof.
  revert st n t. induction l as [|[[tx principal] request] l IH]; intros st n t Hn Hl; simpl.
  { intros [= <-]. exists n. split; [done|]. destruct (last_verified_heartbeat_at _) as [s|] eqn:E;
      simpl; [specialize (Hl s eq_refl)|]; lia. }
  destruct (Z.leb_spec t (tx_now tx)) as [Ht|]; [|done]. intros He. unfold beat at 2. simpl.
  destruct (node_heartbeat st tx principal node request) as [[r|err] st1] eqn:Hb; simpl; last first.
  { apply heartbeat_error in Hb as ->.
    destruct (IH st n (tx_now tx) Hn) as (n' & Hn' & H1 & H2); [intros s ?%Hl; lia|done|].
    exists n'. split; [done|]. simpl. destruct (last_verified_heartbeat_at _); simpl in *; lia. }
  apply node_heartbeat_Ok in Hb as (n0 & p & n1 & m & Hn0 & _ & _ & _ & (Hb & _) & Hns & _).
  assert (n0 = n) as -> by congruence.
  apply node_beaten_Ok in Hb.
  destruct (IH st1 n1 (tx_now tx)) as (n' & Hn' & H1 & H2);
    [by rewrite Hns, lookup_insert_eq|rewrite Hb; simpl; intros ? [= <-]; lia|done|].
  exists n'. split; [done|]. simpl. rewrite Hb in H1, H2. simpl in H1, H2.
  destruct (uptime_credit_bound (tx_now tx) (last_verified_heartbeat_at (standing n)) t Hl Ht).
  pose proof (uptime_credit_nonneg (tx_now tx) (last_verified_heartbeat_at (standing n))).
  split; [lia|]. destruct (last_verified_heartbeat_at (standing n)); simpl in *; lia.
Qed.

Lemma trust_level_roundtrip t : parse_db_trust_level (trust_level_db t) = Ok t.
Proof. by destruct t. Qed.

Lemma software_never_enhanced profile : software_trust_level profile ≠ Enhanced.
Proof. unfold software_trust_level. repeat case_if; done. Qed.

Lemma parse_enhanced t : parse_db_trust_level t = Ok Enhanced → t = "enhanced".
Proof.
  unfold parse_db_trust_level. destruct (String.eqb_spec t "enhanced"); [done|].
  repeat case_if; intros; discriminate.
Qed.

(** C23: registering binds the name to the device and forgets stale trust. After
    a registration the node of this owner and alias is bound to the caller's
    device, holds the profile it reported, is offline until its first heartbeat,
    and its policy is the requested one in every column: the refused tags, the
    concurrency, the temperature limit and the memory it keeps back; the policies
    of the other nodes are as they were.
    It has the enhanced level only if it had it before and a verified,
    unexpired report of this very node still carries it; otherwise the level is
    the one its sandbox mechanisms earn, which is never the enhanced one. A name
    that another device holds cannot be registered, and trying changes
    nothing. *)
Theorem registration_binds_device `{ProfileJson} st tx principal request :
  registry_ok st →
  (∀ r st', register_node st tx principal request = (Ok r, st') →
     ∃ n, nodes st' !! registered_node r = Some n
       ∧ node_owner n = principal_user_id principal ∧ node_alias n = trim (register_alias request)
       ∧ device_key_id n = Some (device_key_id_of principal)
       ∧ node_status n = "offline" ∧ last_seen_at n = None
       ∧ pause_reason (standing n) = Some "awaiting_first_heartbeat"
       ∧ encode_profile (register_profile request) = Some (hardware_profile n)
       ∧ (∃ p, policies (fleet st') = <[registered_node r := p]> (policies (fleet st))
            ∧ policy_reject_tags p = register_reject_tags request
            ∧ policy_max_concurrent p = register_max_concurrent request
            ∧ policy_gpu_temp_limit_c p = register_gpu_temp_limit_c request
            ∧ policy_vram_reserve_mib p = register_vram_reserve_mib request)
       ∧ parse_db_trust_level (trust_level n) = Ok (registered_trust r)
       ∧ if bool_decide (registered_trust r = Enhanced)
         then ∃ n0 id report, nodes st !! registered_node r = Some n0
                ∧ trust_level n0 = "enhanced" ∧ node_attestation_report n0 = Some id
                ∧ node_attestation_report n = Some id ∧ trust_expires_at n = trust_expires_at n0
                ∧ reports st !! id = Some report ∧ report_node report = registered_node r
                ∧ report_status report = "verified" ∧ tx_now tx < expires_at report
         else registered_trust r = software_trust_level (register_profile request)
              ∧ node_attestation_report n = None ∧ trust_expires_at n = None)
  ∧ ∀ id n0 key, nodes st !! id = Some n0 → node_owner n0 = principal_user_id principal →
      node_alias n0 = trim (register_alias request) → device_key_id n0 = Some key →
      key ≠ device_key_id_of principal →
      ∃ e, register_node st tx principal request = (Err e, st).
Proof.
  intros Hok. split.
  - intros r st' (profile & id & n & p & Hp & Hu & -> & _ & -> & _ & Ht & ->)%register_node_Ok.
    apply upsert_node_Ok in Hu as (Ho & Ha & Hd & Hs & Hl & Hprof & Hc).
    exists n. simpl. rewrite !lookup_insert_eq. do 6 (split; [done|]).
    split; [by destruct Hc as [(_ & -> & _)|(n0 & _ & _ & _ & _ & ->)]|].
    split; [by rewrite Hprof|]. split; [by eexists|]. split; [done|]. destruct Hc as [(_ & -> & _)|(n0 & Hn0 & _ & _ & _ & ->)].
    + simpl in Ht. rewrite trust_level_roundtrip in Ht. injection Ht as <-.
      rewrite bool_decide_false by apply software_never_enhanced. done.
    + simpl in *. destruct (trust_kept st (tx_now tx) id n0) eqn:Hk.
      * unfold trust_kept, attestation_stands in Hk.
        apply andb_true_iff in Hk as [[Het%String.eqb_eq _]%andb_true_iff Hr].
        rewrite Het in Ht. injection Ht as Ht. rewrite bool_decide_true by done.
        destruct (node_attestation_report n0 ≫= _) as [ar|] eqn:Ear; [|done].
        apply bind_Some in Ear as (rid & Hrid & Har).
        repeat match goal with H : _ && _ = true |- _ => apply andb_true_iff in H as [??] end.
        exists n0, rid, ar. split_and!; try done; [by apply Z.eqb_eq|by apply String.eqb_eq|by apply Z.ltb_lt].
      * rewrite trust_level_roundtrip in Ht. injection Ht as <-.
        by rewrite bool_decide_false by apply software_never_enhanced.
  - intros id n0 key Hn0 Ho Ha Hd Hne.
    destruct (register_node st tx principal request) as [[r|e] st'] eqn:E.
    + apply register_node_Ok in E as (profile & id' & n & p & _ & Hu & _).
      apply upsert_node_Ok in Hu as (_ & _ & _ & _ & _ & _ & [(_ & _ & Hno)|(n1 & Hn1 & Ho1 & Ha1 & Hd1 & _)]).
      * by destruct (Hno id n0 Hn0).
      * assert (id' = id) as -> by (eapply (reg_nodes _ Hok); [done|done|congruence..]).
        destruct Hd1; congruence.
    + apply register_error in E as ->. by exists e.
Qed.

(** nobody rates what he publishes. A publication leaves an existing model
    as it is, except that its owner enables it again; a new one starts with the
    neutral quality, the middle tier and the server's price, whatever the
    request says.  The instance is served under the requested alias on a node
    that the caller's device is bound to, and one alias of a node never moves to
    another model. *)
Theorem publication_is_neutral st tx principal request r st' :
  registry_ok st → publish_model st tx principal request = (Ok r, st') →
  ∃ node m i, nodes st !! publish_node_id request = Some node
    ∧ node_owner node = principal_user_id principal
    ∧ device_key_id node = Some (device_key_id_of principal)
    ∧ models st' !! published_model r = Some m
    ∧ model_name m = trim (publish_name request)
    ∧ weights_hash m = to_ascii_lowercase (publish_weights_hash request)
    ∧ base_cost_per_1k_micro m = V1_BASE_COST_PER_1K_MICRO ∧ published_tier r = tier m
    ∧ (match models st !! published_model r with
       | Some m0 => model_kept m0 m
                    ∧ (enabled m = enabled m0 ∨ model_owner m0 = principal_user_id principal)
       | None => (benchmark_normalized m, glicko_normalized m, evaluation_samples m, tier m)
                 = (0, 500000, 0, "medium")
                 ∧ model_owner m = principal_user_id principal
       end)
    ∧ instances st' !! published_instance r = Some i ∧ instance_status i = Published
    ∧ instance_model i = published_model r ∧ instance_node i = publish_node_id request
    ∧ instance_alias i = trim (publish_alias request) ∧ instance_tags i = publish_tags request
    ∧ ∀ k a, instances st !! k = Some a → instance_node a = publish_node_id request →
        instance_alias a = trim (publish_alias request) →
        k = published_instance r ∧ instance_model a = published_model r.
Proof.
  intros Hok (node & id & m & iid & a & _ & Hn & Hd & Hm & Hb & Hs & -> & ->)%publish_model_Ok.
  unfold require_node_device_binding in Hd.
  apply bail_if_Ok, orb_false_iff in Hd as [Ho%negb_false_iff%Z.eqb_eq Hd].
  apply negb_false_iff, bool_decide_eq_true in Hd.
  apply upsert_model_Ok in Hm as (En & Eh & Hm). apply upsert_instance_Ok in Hs as (-> & Hs).
  exists node, m. eexists. cbn [published_model published_instance published_tier models instances
    with_instances with_models]. rewrite !lookup_insert_eq.
  do 8 (split; [done|]). split; [|do 6 (split; [done|])].
  - destruct Hm as [(Hno & -> & _)|(m0 & Hm0 & -> & _)]; [by rewrite Hno|].
    rewrite Hm0. split; [apply republished_kept|]. simpl.
    destruct (Z.eqb_spec (model_owner m0) (principal_user_id principal)); [by right|by left].
  - intros k b Hk Ek Ea. destruct Hs as [(_ & Hno)|(b0 & Hb0 & E1 & E2 & E3)].
    + by destruct (Hno k b Hk).
    + simpl in *. assert (k = iid) as -> by (eapply (reg_instances _ Hok); [done|done|congruence..]).
      split; [done|]. congruence.
Qed.
