(* ===== verification/OperatorGrant.v ===== *)
(** * Operator grants: crates/mindone-coordinator/src/operator_grant.rs

    [grant_operator_quota] credits a user's account outside the HTTP routes, as
    one transaction on the users, the books and the audit table
    [operator_quota_grants] of migration 0020.  The JSON of the request
    fingerprint is third party ([encode_grant]). *)
From S2P Require Import Prelude Text Fixed Ledger Net StandardData Store Api Postings Identity.

Local Open Scope string_scope.
Local Open Scope list_scope.
Local Open Scope Z_scope.

Definition MAX_OPERATOR_GRANT_MICRO : Z := 1000000000000.
Definition MAX_IDENTIFIER_BYTES : Z := 128.
Definition MIN_REASON_CHARS : Z := 8.
Definition MAX_REASON_CHARS : Z := 512.

Record OperatorQuotaGrantRequest : Type := mkGrantRequest {
  grant_user : Z;
  grant_amount : Z;
  grant_key : string;
  grant_operator : string;
  grant_reason : string;
}.

Record OperatorQuotaGrantResult : Type := mkGrantResult {
  result_grant : Z;
  result_user : Z;
  result_amount : Z;
  result_before : Z;
  result_after : Z;
  result_ledger : Z;
  result_hash : string;
  idempotent_replay : bool;
}.

Inductive OperatorQuotaGrantError : Type :=
| InvalidInput (message : string)
| UserNotFound (user : Z)
| AccountNotFound (user : Z)
| IdempotencyConflict
| BalanceOverflow
| Accounting (error : AccountingError)
| Database.

Abbreviation GrantResult := (result OperatorQuotaGrantError).

(** [operator_quota_grants]. *)
Record GrantRow : Type := mkGrantRow {
  grant_id : Z;
  row_user : Z;
  row_operator : string;
  row_reason : string;
  row_amount : Z;
  row_key : string;
  row_fingerprint : string;
  row_ledger : Z;
  row_hash : string;
}.

(** Newest first. *)
Record GrantDb : Type := mkGrantDb { grant_identities : IdDb; operator_grants : list GrantRow }.

Definition grant_books (db : GrantDb) : Books := id_books (grant_identities db).

(** ** Validation *)

(** The bytes of [._:@/-] besides the alphanumeric ones. *)
Definition valid_ascii_identifier (value : string) : bool :=
  match bytes_of value with
  | [] => false
  | first :: _ =>
    (str_len value <=? MAX_IDENTIFIER_BYTES)
    && is_ascii_alphanumeric first
    && all_bytes (λ byte, is_ascii_alphanumeric byte
                          || existsb (Z.eqb byte) [46; 95; 58; 64; 47; 45]) value
  end.

Definition grant_validate (request : OperatorQuotaGrantRequest) : GrantResult () :=
  _ ← bail_if (negb (in_range 1 MAX_OPERATOR_GRANT_MICRO (grant_amount request)))
    (InvalidInput ("amount_micro 必须在 1..=" +:+ dec MAX_OPERATOR_GRANT_MICRO));
  _ ← bail_if (negb (valid_ascii_identifier (grant_key request)))
    (InvalidInput "idempotency_key 必须是 1 到 128 字节的 ASCII 标识符");
  _ ← bail_if (negb (valid_ascii_identifier (grant_operator request)))
    (InvalidInput "operator 必须是 1 到 128 字节的 ASCII 标识符");
  let reason_chars := Z.of_nat (length (chars (grant_reason request))) in
  bail_if (negb (in_range MIN_REASON_CHARS MAX_REASON_CHARS reason_chars)
      || negb (String.eqb (trim (grant_reason request)) (grant_reason request))
      || has_control (grant_reason request))
    (InvalidInput ("reason 必须是 " +:+ dec MIN_REASON_CHARS +:+ " 到 " +:+ dec MAX_REASON_CHARS
                   +:+ " 个字符、无首尾空白或控制字符")).

(** ** The transaction *)

(** The grant with a key, joined with its ledger entry. *)
Definition existing_grant (db : GrantDb) (key : string) : option (GrantRow * LedgerEntry) :=
  g ← List.find (λ g, String.eqb (row_key g) key) (operator_grants db);
  q ← List.find (λ e, entry_id e =? row_ledger g) (quota_ledger (grant_books db));
  Some (g, q).

(** The trigger and the UNIQUE constraints of [operator_quota_grants]; its CHECK
    constraints repeat the validation of the request. *)
Definition grant_row_check (db : GrantDb) (g : GrantRow) : bool :=
  existsb (λ q, (entry_id q =? row_ledger g) && (account_id q =? row_user g)
      && bool_decide (request_id q = None)
      && String.eqb (ok_default "" (entry_type (kind q) (metadata q))) "operator_grant"
      && (amount_micro q =? row_amount g)
      && (balance_after_micro q =? balance_before_micro q + row_amount g)
      && String.eqb (idempotency_key q) ("operator-grant:" +:+ row_key g)
      && String.eqb (entry_hash q) (row_hash g)
      && bool_decide ((spendable_micro <$> accounts (grant_books db) !! row_user g)
                      = Some (balance_after_micro q)))
    (quota_ledger (grant_books db))
  && negb (existsb (λ h, (grant_id h =? grant_id g) || String.eqb (row_key h) (row_key g)
                         || (row_ledger h =? row_ledger g)) (operator_grants db)).

Section grant.
Context `{C : Crypto}.
Context (uuid_text : Z → string) (encode_grant : OperatorQuotaGrantRequest → option string).

Definition grant_fingerprint (request : OperatorQuotaGrantRequest) : GrantResult string :=
  payload ← ok_or (encode_grant request) (InvalidInput "无法规范化赠额请求");
  Ok (hex_encode (sha256 payload)).

(** A repeated key: the answer of the first call, or a conflict. *)
Definition replay_grant (request : OperatorQuotaGrantRequest) (fingerprint : string)
    (g : GrantRow) (q : LedgerEntry) : GrantResult OperatorQuotaGrantResult :=
  let same_request :=
    (row_user g =? grant_user request) && (row_amount g =? grant_amount request)
    && String.eqb (row_operator g) (grant_operator request)
    && String.eqb (row_reason g) (grant_reason request)
    && String.eqb (row_fingerprint g) fingerprint in
  _ ← bail_if (negb same_request) IdempotencyConflict;
  Ok (mkGrantResult (grant_id g) (grant_user request) (grant_amount request)
        (balance_before_micro q) (balance_after_micro q) (row_ledger g) (row_hash g) true).

Definition new_grant (db : GrantDb) (tx : Tx) (request : OperatorQuotaGrantRequest)
    (fingerprint : string) : GrantResult (OperatorQuotaGrantResult * GrantDb) :=
  let b := grant_books db in
  let user := grant_user request in
  let found := u ← users (grant_identities db) !! user; accounts b !! user in
  account ← ok_or found
    (if bool_decide (is_Some (users (grant_identities db) !! user)) then AccountNotFound user
     else UserNotFound user);
  let balance_before := spendable_micro account in
  balance_after ← ok_or (i64_checked_add balance_before (grant_amount request)) BalanceOverflow;
  let grant := now_v7 tx 0%nat in
  ledger ← map_err Accounting
    (ledger_new uuid_text sha256_hex (now_v7 tx 1%nat) user None
       ("operator-grant:" +:+ grant_key request) OperatorGrant (grant_amount request)
       balance_before balance_after (now_utc tx 0%nat) (quota_ledger_head_hash account)
       {[ "operator_id" := grant_operator request; "reason" := grant_reason request ]});
  b ← map_err (λ _, Database) (insert_quota b ledger);
  let db := mkGrantDb (with_id_books (grant_identities db) b) (operator_grants db) in
  let row := mkGrantRow grant user (grant_operator request) (grant_reason request)
    (grant_amount request) (grant_key request) fingerprint (entry_id ledger) (entry_hash ledger) in
  _ ← bail_if (negb (grant_row_check db row)) Database;
  Ok (mkGrantResult grant user (grant_amount request) balance_before balance_after
        (entry_id ledger) (entry_hash ledger) false,
      mkGrantDb (grant_identities db) (row :: operator_grants db)).

(** An error rolls the transaction back. *)
Definition grant_operator_quota (db : GrantDb) (tx : Tx) (request : OperatorQuotaGrantRequest)
    : GrantResult OperatorQuotaGrantResult * GrantDb :=
  match
    _ ← grant_validate request;
    fingerprint ← grant_fingerprint request;
    match existing_grant db (grant_key request) with
    | Some (g, q) =>
      result ← replay_grant request fingerprint g q;
      Ok (result, db)
    | None => new_grant db tx request fingerprint
    end
  with
  | Ok (result, db') => (Ok result, db')
  | Err e => (Err e, db)
  end.
End grant.

(** ** What a grant promises *)

(** Every grant has its ledger entry, and no key or identifier repeats. *)
Definition grant_backed (b : Books) (g : GrantRow) : Prop :=
  ∃ q, q ∈ quota_ledger b ∧ entry_id q = row_ledger g ∧ account_id q = row_user g
    ∧ amount_micro q = row_amount g ∧ entry_hash q = row_hash g
    ∧ idempotency_key q = "operator-grant:" +:+ row_key g.

Record grants_ok (db : GrantDb) : Prop := mkGrantsOk {
  grants_books : books_ok (grant_books db);
  grants_backed : Forall (grant_backed (grant_books db)) (operator_grants db);
  grants_keys : NoDup (row_key <$> operator_grants db);
  grants_entries : NoDup (entry_id <$> quota_ledger (grant_books db));
}.

(** A later database: both ledgers are append-only. *)
Record extends (db db' : GrantDb) : Prop := mkExtends {
  extends_grants : ∃ more, operator_grants db' = more ++ operator_grants db;
  extends_ledger : ∃ more, quota_ledger (grant_books db') = more ++ quota_ledger (grant_books db);
  extends_keys : NoDup (row_key <$> operator_grants db');
  extends_entries : NoDup (entry_id <$> quota_ledger (grant_books db'));
}.

Definition as_replay (r : OperatorQuotaGrantResult) : OperatorQuotaGrantResult :=
  mkGrantResult (result_grant r) (result_user r) (result_amount r) (result_before r)
    (result_after r) (result_ledger r) (result_hash r) true.

Lemma find_unique {A B} (f : A → B) (p : A → bool) l x :
  NoDup (f <$> l) → x ∈ l → p x = true → (∀ y, p y = true → f y = f x) →
  List.find p l = Some x.
Proof.
  intros Hnd Hx Hp Hf. induction Hx as [|x y l Hx IH]; simpl; [by rewrite Hp|].
  apply NoDup_cons in Hnd as [Hn Hnd]. destruct (p y) eqn:Hy; [|by auto].
  destruct Hn. rewrite (Hf _ Hy). by apply list_elem_of_fmap_2.
Qed.

(** A ledger insert appends an entry with a new identifier. *)
Lemma insert_quota_entry b e b' :
  insert_quota b e = Ok b' → quota_ledger b' = e :: quota_ledger b
  ∧ entry_id e ∉ entry_id <$> quota_ledger b.
Proof.
  intros H. pose proof H as (a & _ & _ & _ & _ & _ & _ & ->)%insert_quota_Ok. split; [done|].
  unfold insert_quota in H. apply bind_Ok in H as (x & _ & H). apply bind_Ok in H as ([] & _ & H).
  apply bind_Ok in H as ([] & Hr%require_internal_Ok & _). unfold row_check in Hr.
  rewrite !andb_true_iff, !negb_true_iff in Hr. destruct Hr as [[_ Hu] _].
  intros (y & Hy & Hin)%list_elem_of_fmap. rewrite <-not_true_iff_false, existsb_exists in Hu.
  apply Hu. exists y. rewrite <-list_elem_of_In. split; [done|]. by rewrite Hy, Z.eqb_refl, orb_true_r.
Qed.

Lemma insert_quota_credit b e b' :
  insert_quota b e = Ok b' →
  moved b b' (to_user (account_id e) (amount_micro e)) (λ _, 0) (λ _, 0) 0 (amount_micro e).
Proof.
  intros H. pose proof (λ Hok, insert_quota_ok b e b' Hok H) as Hok.
  apply insert_quota_Ok in H as (a & Hu & _ & _ & _ & Ha & _ & ->).
  eapply (moved_account b (account_id e) a); [exact Hu|reflexivity|reflexivity|solve_delta..|exact Hok].
Qed.

Lemma grant_row_check_new db g :
  grant_row_check db g = true → ∀ h, h ∈ operator_grants db → row_key h ≠ row_key g.
Proof.
  unfold grant_row_check. intros [_ Hn%negb_true_iff]%andb_true_iff h Hh E.
  rewrite <-not_true_iff_false, existsb_exists in Hn. apply Hn. exists h.
  rewrite <-list_elem_of_In, E, String.eqb_refl, orb_true_r. done.
Qed.

Section promises.
Context `{C : Crypto}.
Context (uuid_text : Z → string) (encode_grant : OperatorQuotaGrantRequest → option string).

Lemma existing_grant_Some db key g q :
  existing_grant db key = Some (g, q) →
  g ∈ operator_grants db ∧ row_key g = key ∧ q ∈ quota_ledger (grant_books db)
  ∧ entry_id q = row_ledger g.
Proof.
  unfold existing_grant. intros (g' & Hg & (q' & Hq & [= -> ->])%bind_Some)%bind_Some.
  apply List.find_some in Hg as [Hg Hk%String.eqb_eq], Hq as [Hq Hi%Z.eqb_eq].
  by rewrite !list_elem_of_In.
Qed.

(** The grant of a key, in any later database. *)
Lemma existing_grant_later db db' g q :
  extends db db' → g ∈ operator_grants db → q ∈ quota_ledger (grant_books db) →
  entry_id q = row_ledger g → existing_grant db' (row_key g) = Some (g, q).
Proof.
  intros [[gs Eg] [qs Eq] Hk He] Hg Hq Hi. unfold existing_grant.
  rewrite (find_unique row_key _ _ g Hk); [simpl| |by apply String.eqb_refl|by intros ? ?%String.eqb_eq].
  2:{ rewrite Eg. apply elem_of_app. by right. }
  rewrite (find_unique entry_id _ _ q He); [done| |by rewrite Hi, Z.eqb_refl|].
  - rewrite Eq. apply elem_of_app. by right.
  - intros y ->%Z.eqb_eq. done.
Qed.

Lemma new_grant_Ok db tx request fp r db' :
  new_grant uuid_text db tx request fp = Ok (r, db') →
  ∃ e g, insert_quota (grant_books db) e = Ok (grant_books db')
    ∧ operator_grants db' = g :: operator_grants db
    ∧ (∀ h, h ∈ operator_grants db → row_key h ≠ grant_key request)
    ∧ grant_identities db' = with_id_books (grant_identities db) (grant_books db')
    ∧ account_id e = grant_user request ∧ amount_micro e = grant_amount request
    ∧ balance_before_micro e = spendable_of (grant_books db) (grant_user request)
    ∧ idempotency_key e = "operator-grant:" +:+ grant_key request
    ∧ g = mkGrantRow (now_v7 tx 0%nat) (grant_user request) (grant_operator request)
        (grant_reason request) (grant_amount request) (grant_key request) fp (entry_id e) (entry_hash e)
    ∧ r = mkGrantResult (grant_id g) (grant_user request) (grant_amount request)
        (balance_before_micro e) (balance_after_micro e) (entry_id e) (entry_hash e) false.
Proof.
  unfold new_grant. intros Hx. apply bind_Ok in Hx as (a & (u & Hu & Ha)%ok_or_Ok%bind_Some & Hx).
  apply bind_Ok in Hx as (after & Hafter & Hx). apply bind_Ok in Hx as (e & He%map_err_Ok & Hx).
  apply bind_Ok in Hx as (b & Hb%map_err_Ok & Hx).
  apply bind_Ok in Hx as ([] & Hc%bail_if_Ok%negb_false_iff & [= <- <-]).
  apply ledger_new_entry in He as (E1 & E2 & E3 & E4 & E5 & E6 & E7 & E8 & _).
  pose proof (grant_row_check_new _ _ Hc) as Hnew.
  eexists e, _. split; [exact Hb|]. split; [reflexivity|]. simpl in *.
  split_and!; try done; try congruence.
  unfold balance_of. by rewrite Ha.
Qed.

Lemma grant_backed_more b b' g :
  (∀ q, q ∈ quota_ledger b → q ∈ quota_ledger b') → grant_backed b g → grant_backed b' g.
Proof. intros H (q & Hq & Hrest). exists q. auto. Qed.

Lemma new_grant_ok db tx request fp r db' :
  new_grant uuid_text db tx request fp = Ok (r, db') → grants_ok db → grants_ok db' ∧ extends db db'.
Proof.
  intros (e & g & Hi & Hg & Hnew & _ & E1 & E2 & E3 & E4 & -> & _)%new_grant_Ok [Hb Hk Hn He].
  pose proof (insert_quota_entry _ _ _ Hi) as [Hl Hfresh].
  assert (NoDup (row_key <$> operator_grants db')) as Hn'.
  { rewrite Hg, fmap_cons. apply NoDup_cons. split; [|done]. simpl.
    intros (h & Hh & Hin)%list_elem_of_fmap. by apply (Hnew h Hin). }
  assert (NoDup (entry_id <$> quota_ledger (grant_books db'))) as He'
    by (rewrite Hl, fmap_cons; by apply NoDup_cons).
  split; constructor; try done.
  - by eapply insert_quota_ok.
  - rewrite Hg. constructor.
    + exists e. rewrite Hl. split; [by left|done].
    + eapply Forall_impl; [exact Hk|]. intros h. apply grant_backed_more. rewrite Hl. by right.
  - by eexists [_].
  - by eexists [_].
Qed.

(** A repeated key changes nothing, and only the same request is answered. *)
Lemma repeat_grant db tx request g q :
  existing_grant db (grant_key request) = Some (g, q) → row_key g = grant_key request →
  (grant_operator_quota uuid_text encode_grant db tx request).2 = db
  ∧ (∀ r, (grant_operator_quota uuid_text encode_grant db tx request).1 = Ok r →
       g = mkGrantRow (grant_id g) (grant_user request) (grant_operator request) (grant_reason request)
             (grant_amount request) (grant_key request) (row_fingerprint g) (row_ledger g) (row_hash g))
  ∧ (grant_validate request = Ok tt → grant_fingerprint encode_grant request = Ok (row_fingerprint g) →
     g = mkGrantRow (grant_id g) (grant_user request) (grant_operator request) (grant_reason request)
           (grant_amount request) (grant_key request) (row_fingerprint g) (row_ledger g) (row_hash g) →
     grant_operator_quota uuid_text encode_grant db tx request
     = (Ok (mkGrantResult (grant_id g) (grant_user request) (grant_amount request)
              (balance_before_micro q) (balance_after_micro q) (row_ledger g) (row_hash g) true), db)).
Proof.
  intros He Hk. unfold grant_operator_quota. rewrite He. split_and!.
  - destruct (grant_validate request) as [[]|]; [simpl|done].
    destruct (grant_fingerprint _ _) as [fp|]; [simpl|done]. by destruct (replay_grant _ _ _ _).
  - intros r. destruct (grant_validate request) as [[]|]; [simpl|done].
    destruct (grant_fingerprint _ _) as [fp|]; [simpl|done].
    destruct (replay_grant _ _ _ _) as [r'|] eqn:Hr; [simpl|done]. intros _.
    unfold replay_grant in Hr. apply bind_Ok in Hr as ([] & Hs%bail_if_Ok%negb_false_iff & _).
    rewrite !andb_true_iff, !Z.eqb_eq, !String.eqb_eq in Hs. destruct g. naive_solver.
  - intros -> -> Hg. simpl. unfold replay_grant. rewrite Hg. simpl.
    rewrite !Z.eqb_refl, !String.eqb_refl. done.
Qed.

Lemma repeats_answered db db' g q request r :
  g ∈ operator_grants db' → q ∈ quota_ledger (grant_books db') → entry_id q = row_ledger g →
  grant_validate request = Ok tt → grant_fingerprint encode_grant request = Ok (row_fingerprint g) →
  g = mkGrantRow (grant_id g) (grant_user request) (grant_operator request) (grant_reason request)
        (grant_amount request) (grant_key request) (row_fingerprint g) (row_ledger g) (row_hash g) →
  as_replay r = mkGrantResult (grant_id g) (grant_user request) (grant_amount request)
        (balance_before_micro q) (balance_after_micro q) (row_ledger g) (row_hash g) true →
  db' = db ∨ extends db db' →
  ∀ later tx' other, extends db' later → grant_key other = grant_key request →
    grant_operator_quota uuid_text encode_grant later tx' request = (Ok (as_replay r), later)
    ∧ (grant_operator_quota uuid_text encode_grant later tx' other).2 = later
    ∧ ∀ r', (grant_operator_quota uuid_text encode_grant later tx' other).1 = Ok r' → other = request.
Proof.
  intros Hg Hq Hi Hv Hf Eg -> _ later tx' other Hl Ho.
  pose proof (existing_grant_later _ _ _ _ Hl Hg Hq Hi) as He.
  assert (row_key g = grant_key request) as Hk by by rewrite Eg.
  rewrite Hk in He. split_and!.
  - by apply (repeat_grant later tx' request g q He Hk).
  - rewrite <-Ho in He, Hk. by apply (repeat_grant later tx' other g q He Hk).
  - intros r' Hr'. rewrite <-Ho in He, Hk.
    destruct (repeat_grant later tx' other g q He Hk) as (_ & Ho' & _). specialize (Ho' _ Hr').
    rewrite Eg in Ho'. destruct request, other. simpl in *. congruence.
Qed.

(** C17: An operator's grant credits once. A grant with a new key moves exactly
    its amount, between 1 and the limit, onto the user's account and nothing
    else, and writes one audit row that names its ledger entry; a grant that
    fails leaves the database as it was. Whatever was granted or settled since,
    repeating the request answers the same identifiers, balances and hash,
    flagged as a replay, and changes nothing, and no other request with that
    key is ever answered. *)
Theorem grants_credit_once db tx request answer db' :
  grants_ok db → grant_operator_quota uuid_text encode_grant db tx request = (answer, db') →
  grants_ok db' ∧
  match answer with
  | Err _ => db' = db
  | Ok r =>
    result_user r = grant_user request ∧ result_amount r = grant_amount request
    ∧ 1 ≤ grant_amount request ≤ MAX_OPERATOR_GRANT_MICRO
    ∧ (if idempotent_replay r then db' = db ∧ ∃ g, g ∈ operator_grants db ∧ row_key g = grant_key request
       else
         moved (grant_books db) (grant_books db') (to_user (grant_user request) (grant_amount request))
           (λ _, 0) (λ _, 0) 0 (grant_amount request)
         ∧ grant_identities db' = with_id_books (grant_identities db) (grant_books db')
         ∧ result_before r = spendable_of (grant_books db) (grant_user request)
         ∧ result_after r = spendable_of (grant_books db') (grant_user request)
         ∧ (∀ g, g ∈ operator_grants db → row_key g ≠ grant_key request)
         ∧ ∃ g, operator_grants db' = g :: operator_grants db ∧ row_key g = grant_key request
             ∧ row_operator g = grant_operator request ∧ row_reason g = grant_reason request
             ∧ row_ledger g = result_ledger r)
    ∧ ∀ later tx' other, extends db' later → grant_key other = grant_key request →
        grant_operator_quota uuid_text encode_grant later tx' request = (Ok (as_replay r), later)
        ∧ (grant_operator_quota uuid_text encode_grant later tx' other).2 = later
        ∧ ∀ r', (grant_operator_quota uuid_text encode_grant later tx' other).1 = Ok r' → other = request
  end.
Proof.
  intros Hok Hx. unfold grant_operator_quota in Hx.
  destruct (grant_validate request) as [[]|e] eqn:Hv; [simpl in Hx|injection Hx as <- <-; by split].
  destruct (grant_fingerprint encode_grant request) as [fp|e] eqn:Hf; [simpl in Hx|injection Hx as <- <-; by split].
  assert (1 ≤ grant_amount request ≤ MAX_OPERATOR_GRANT_MICRO) as Hamount.
  { pose proof Hv as Hv'. unfold grant_validate in Hv'.
    apply bind_Ok in Hv' as ([] & Hr%bail_if_Ok%negb_false_iff%in_range_true & _). done. }
  destruct (existing_grant db (grant_key request)) as [[g q]|] eqn:He.
  - apply existing_grant_Some in He as (Hg & Hk & Hq & Hi).
    unfold replay_grant in Hx. destruct (negb _) eqn:Hs in Hx; [injection Hx as <- <-; by split|]. simpl in Hx.
    injection Hx as <- <-. apply negb_false_iff in Hs.
    rewrite !andb_true_iff, !Z.eqb_eq, !String.eqb_eq in Hs. destruct Hs as ((((S1 & S2) & S3) & S4) & S5).
    split; [done|]. split; [done|]. split; [done|]. split; [done|]. simpl. split; [by eauto|].
    apply (repeats_answered db db g q); try done; [by rewrite S5|destruct g; simpl in *; congruence|by left].
  - destruct (new_grant _ _ _ _ _) as [[r db1]|e] eqn:Hn; [|injection Hx as <- <-; by split]. injection Hx as <- <-.
    destruct (new_grant_ok _ _ _ _ _ _ Hn Hok) as [Hok' Hext]. split; [done|].
    apply new_grant_Ok in Hn as (e & g & Hi & Hg & Hnew & Hid & E1 & E2 & E3 & E4 & Eg & ->).
    pose proof (insert_quota_entry _ _ _ Hi) as [Hl _].
    pose proof (insert_quota_credit _ _ _ Hi) as Hm. rewrite E1, E2 in Hm.
    assert (balance_after_micro e = spendable_of (grant_books db1) (grant_user request)) as Hafter.
    { destruct Hm as (Hu & _). destruct (Hu (grant_user request)) as (-> & _).
      apply insert_quota_Ok in Hi as (a & Ha & _ & _ & Hb & Haf & _). rewrite Haf, E2.
      unfold balance_of, to_user. rewrite <-E1, Ha, Z.eqb_refl. done. }
    split; [done|]. split; [done|]. split; [done|]. simpl. split.
    + split; [exact Hm|]. split; [done|]. split; [done|]. split; [done|]. split; [done|].
      exists g. rewrite Hg, Eg. by split_and!.
    + apply (repeats_answered db db1 g e).
      * rewrite Hg. by left.
      * rewrite Hl. by left.
      * by rewrite Eg.
      * done.
      * by rewrite Eg.
      * by rewrite Eg.
      * by rewrite Eg.
      * by right.
Qed.
End promises.
