(* ===== verification/Quality.v ===== *)
(** * Model quality: crates/mindone-coordinator/src/quality.rs

    Trusted evaluation events move the scores of a model, and with them the
    performance tiers of every enabled model of its name.  The scores are the
    columns migration 0008 adds to [models]; the events and tier transitions
    are its audit tables and those of migration 0025.  One event is one
    transaction: an error leaves the database as it was. *)
From S2P Require Import Prelude Text Net Float64 Fixed Tier Glicko2 StandardData Store Api Postings Lease Snapshot Fingerprint Tables.

Local Open Scope string_scope.
Local Open Scope list_scope.
Local Open Scope Z_scope.

Definition QUALITY_POLICY_VERSION : Z := 1.
Definition COLD_START_K : Z := 20.
Definition MAX_SCORE_SAMPLES_PER_EVENT : Z := 10000.

Inductive QualityGovernanceError : Type :=
| InvalidInput (message : string)
| ModelNotFound
| IdempotencyConflict
| Accounting (error : AccountingError)
| Database.

Abbreviation QualityResult := (result QualityGovernanceError).

(** ** Events *)

Inductive QualityEventKind : Type := HiddenBenchmark | Canary | BlindEvaluation.

Definition event_kind_as_str (kind : QualityEventKind) : string :=
  match kind with
  | HiddenBenchmark => "hidden_benchmark"
  | Canary => "canary"
  | BlindEvaluation => "blind_evaluation"
  end.

Inductive TrustedEventPayload : Type :=
| Score (score_normalized sample_count : Z)
| Blind (opponent_rating_milli opponent_deviation_milli : Z) (outcome : Glicko2Score).

Record TrustedEvent : Type := mkEvent {
  event_model : Z;
  event_key : string;
  event_evidence : string;
  event_kind : QualityEventKind;
  event_payload : TrustedEventPayload;
}.

Definition hidden_benchmark_event (model : Z) (key evidence : string) (score samples : Z)
    : TrustedEvent := mkEvent model key evidence HiddenBenchmark (Score score samples).
Definition canary_event (model : Z) (key evidence : string) (passed : bool) : TrustedEvent :=
  mkEvent model key evidence Canary (Score (if passed then 1000000 else 0) 1).
Definition blind_evaluation_event (model : Z) (key evidence : string)
    (opponent_rating_milli opponent_deviation_milli : Z) (outcome : Glicko2Score) : TrustedEvent :=
  mkEvent model key evidence BlindEvaluation
    (Blind opponent_rating_milli opponent_deviation_milli outcome).

Definition validate_sha256 (value field : string) : QualityResult () :=
  bail_if (negb (valid_lower_hex value 64))
    (InvalidInput (field +:+ " 必须是 64 位小写 SHA-256 十六进制值")).

(** The bytes of [-_.:] besides the alphanumeric ones. *)
Definition validate_trusted_event (event : TrustedEvent) : QualityResult () :=
  _ ← bail_if (str_is_empty (event_key event) || (128 <? str_len (event_key event))
      || negb (all_bytes (λ b, is_ascii_alphanumeric b || existsb (Z.eqb b) [45; 95; 46; 58])
                 (event_key event)))
    (InvalidInput "idempotency_key 只允许 1 到 128 字节的 ASCII 字母、数字及 -_.:");
  _ ← validate_sha256 (event_evidence event) "evidence_hash";
  match event_payload event with
  | Score score samples =>
    _ ← bail_if (negb (in_range 0 1000000 score))
      (InvalidInput "score_normalized 必须在 0 到 1000000 之间");
    bail_if (negb (in_range 1 MAX_SCORE_SAMPLES_PER_EVENT samples))
      (InvalidInput "sample_count 必须在 1 到 10000 之间")
  | Blind rating deviation _ =>
    _ ← bail_if (negb (in_range 0 4000000 rating))
      (InvalidInput "opponent_rating_milli 必须在 0 到 4000000 之间");
    bail_if (negb (in_range 1 350000 deviation))
      (InvalidInput "opponent_deviation_milli 必须在 1 到 350000 之间")
  end.

(** ** The tables *)

(** The columns of [models] that only trusted events write. *)
Record QualityColumns : Type := mkColumns {
  benchmark_samples : Z;
  glicko_rating_milli : Z;
  glicko_deviation_milli : Z;
  glicko_volatility_nano : Z;
  quality_fusion_normalized : Z;
}.

(** The defaults of a new row. *)
Definition default_columns : QualityColumns := mkColumns 0 1500000 350000 60000000 0.

Record ModelQualityState : Type := mkQualityState {
  state_id : Z;
  state_benchmark : Z;
  state_benchmark_samples : Z;
  state_glicko : Z;
  state_rating_milli : Z;
  state_deviation_milli : Z;
  state_volatility_nano : Z;
  state_evaluation_samples : Z;
  state_fusion : Z;
  state_tier : string;
}.

(** [model_quality_events]. *)
Record QualityEventRow : Type := mkEventRow {
  row_id : Z;
  row_model : Z;
  row_kind : string;
  row_key : string;
  row_request_hash : string;
  row_evidence : string;
  row_score : option Z;
  row_samples : Z;
  row_opponent_rating : option Z;
  row_opponent_deviation : option Z;
  row_outcome : option Z;
  row_old : ModelQualityState;
  row_new : ModelQualityState;
}.

(** [model_tier_transition_events]. *)
Record TransitionRow : Type := mkTransitionRow {
  transition_id : Z;
  transition_source : Z;
  transition_model : Z;
  transition_cohort : string;
  transition_cohort_size : Z;
  transition_commitment : string;
  transition_old : string;
  transition_new : string;
  transition_fusion : Z;
  transition_percentile : Z;
  transition_samples : Z;
}.

(** The audit tables are newest first; a model without stored columns has the
    defaults. *)
Record QualityDb : Type := mkQualityDb {
  quality_models : gmap Z ModelRow;
  quality_columns : gmap Z QualityColumns;
  quality_events : list QualityEventRow;
  tier_transitions : list TransitionRow;
}.

Definition columns_of (db : QualityDb) (id : Z) : QualityColumns :=
  default default_columns (quality_columns db !! id).

Record QualityUpdate : Type := mkUpdate {
  update_event : Z;
  update_kind : string;
  update_state : ModelQualityState;
  update_cold_start : bool;
}.

(** [model_state_from_row]. *)
Definition model_state (db : QualityDb) (id : Z) (m : ModelRow) : ModelQualityState :=
  let c := columns_of db id in
  mkQualityState id (benchmark_normalized m) (benchmark_samples c) (glicko_normalized m)
    (glicko_rating_milli c) (glicko_deviation_milli c) (glicko_volatility_nano c)
    (evaluation_samples m) (quality_fusion_normalized c) (Tables.tier m).

(** [WHERE name = $1 AND enabled = TRUE ORDER BY id]. *)
Definition in_cohort (name : string) (m : ModelRow) : bool :=
  String.eqb (model_name m) name && enabled m.
Definition cohort (db : QualityDb) (name : string) : list ModelQualityState :=
  (λ p, model_state db p.1 p.2) <$>
    sort_by (cmp_on fst Z.compare)
      (List.filter (λ p, in_cohort name p.2) (map_to_list (quality_models db))).

(** The CHECK constraints of the quality columns. *)
Definition quality_check (s : ModelQualityState) : bool :=
  in_range 0 1000000 (state_benchmark s) && (0 <=? state_benchmark_samples s)
  && in_range 0 1000000 (state_glicko s) && in_range 0 4000000 (state_rating_milli s)
  && in_range 1 350000 (state_deviation_milli s)
  && in_range 1000 1000000000 (state_volatility_nano s) && (0 <=? state_evaluation_samples s)
  && in_range 0 1000000 (state_fusion s)
  && (String.eqb (state_tier s) "high" || String.eqb (state_tier s) "medium"
      || String.eqb (state_tier s) "low").

Definition written_model (s : ModelQualityState) (m : ModelRow) : ModelRow :=
  mkModel (model_name m) (weights_hash m) (size_bytes m) (state_tier s) (enabled m)
    (base_cost_per_1k_micro m) (model_context_length m) (state_benchmark s) (state_glicko s)
    (state_evaluation_samples s) (model_owner m) (model_format m).
Definition written_columns (s : ModelQualityState) : QualityColumns :=
  mkColumns (state_benchmark_samples s) (state_rating_milli s) (state_deviation_milli s)
    (state_volatility_nano s) (state_fusion s).

(** The UPDATE statements of [apply_event_to_target] and [recompute_group]; the
    columns a statement does not name hold what the state was read from, and
    the policy version is always 1. *)
Definition write_state (db : QualityDb) (s : ModelQualityState) : QualityResult QualityDb :=
  match quality_models db !! state_id s with
  | Some m =>
    _ ← bail_if (negb (quality_check s)) Database;
    Ok (mkQualityDb (<[state_id s := written_model s m]> (quality_models db))
          (<[state_id s := written_columns s]> (quality_columns db))
          (quality_events db) (tier_transitions db))
  | None => Ok db
  end.

(** ** Arithmetic *)

Definition invalid (message : string) : QualityGovernanceError := InvalidInput message.

(** [value.round()], half away from zero, as an integer. *)
Definition f64_round (x : f64) : Z :=
  match finite_parts x with
  | Some (_, m, e) =>
    if 0 <=? e then m * 2 ^ e
    else let d := 2 ^ (- e) in Z.sgn m * ((2 * Z.abs m + d) / (2 * d))
  | None => 0
  end.

Definition rounded_i64 (value : f64) : QualityResult Z :=
  _ ← bail_if (negb (is_finite value) || negb (f64_in f64_zero (f64_of_Z 4000000000) value))
    (invalid "浮点评分结果超出可持久化范围");
  Ok (f64_round value).

Definition normalized_f64_to_millionths (value : f64) : QualityResult Z :=
  scaled ← rounded_i64 (f64_mul value (f64_of_Z 1000000));
  normalized ← ok_or (i32_try_from scaled) (invalid "归一化分数超出整数范围");
  _ ← bail_if (negb (in_range 0 1000000 normalized)) (invalid "归一化分数超出 0 到 1000000");
  Ok normalized.

Definition normalized_glicko_millionths (rating : f64) : QualityResult Z :=
  normalized ← map_err Accounting (normalize_glicko2_rating rating);
  normalized_f64_to_millionths normalized.

Definition stored_milli_to_f64 (value : Z) : QualityResult f64 :=
  value ← ok_or (i32_try_from value) (invalid "milli 状态超出内部范围");
  Ok (f64_div (f64_of_Z value) (f64_of_Z 1000)).
Definition stored_nano_to_f64 (value : Z) : QualityResult f64 :=
  value ← ok_or (i32_try_from value) (invalid "nano 状态超出内部范围");
  Ok (f64_div (f64_of_Z value) (f64_of_Z 1000000000)).

Definition stored_glicko_rating (s : ModelQualityState) : QualityResult Glicko2Rating :=
  rating ← stored_milli_to_f64 (state_rating_milli s);
  deviation ← stored_milli_to_f64 (state_deviation_milli s);
  volatility ← stored_nano_to_f64 (state_volatility_nano s);
  Ok (mkRating rating deviation volatility).

Definition score_percentile (score : Z) (all_scores : list Z) : QualityResult f64 :=
  match all_scores with
  | [] => Err (invalid "Tier 相对排名集合不能为空")
  | [_] => Ok (f64_lit 1 2)
  | _ =>
    let too_large := invalid "Tier 排名集合过大" in
    lower ← ok_or (checked in_u32 (countb (λ c, c <? score) all_scores)) too_large;
    equal_peers ← ok_or (checked in_u32 (Z.max 0 (countb (λ c, c =? score) all_scores - 1))) too_large;
    denominator ← ok_or (checked in_u32 (Z.of_nat (length all_scores) - 1)) too_large;
    Ok (f64_div (f64_add (f64_of_Z lower) (f64_div (f64_of_Z equal_peers) (f64_of_Z 2)))
          (f64_of_Z denominator))
  end.

Definition parse_tier (value : string) : QualityResult PerformanceTier :=
  if String.eqb value "high" then Ok High
  else if String.eqb value "medium" then Ok Medium
  else if String.eqb value "low" then Ok Low
  else Err (invalid "数据库包含未知 Tier").

Definition tier_name (value : PerformanceTier) : string :=
  match value with High => "high" | Medium => "medium" | Low => "low" end.

(** The weighted mean of what was measured so far, rounded half up. *)
Definition merge_benchmark (normalized samples score count : Z) : QualityResult (Z * Z) :=
  total_samples ← ok_or (checked in_i32 (samples + count)) (invalid "benchmark 样本数溢出");
  old_weighted ← ok_or (checked in_i64 (normalized * samples)) (invalid "benchmark 累计分数溢出");
  new_weighted ← ok_or (checked in_i64 (score * count)) (invalid "benchmark 评价分数溢出");
  weighted ← ok_or (i64_checked_add old_weighted new_weighted) (invalid "benchmark 总分溢出");
  shifted ← ok_or (i64_checked_add weighted (total_samples ÷ 2)) (invalid "benchmark 舍入溢出");
  merged ← ok_or (i32_try_from (shifted ÷ total_samples)) (invalid "benchmark 归一化结果超出范围");
  Ok (merged, total_samples).

(** ** One event *)

Section quality.
Context `{C : Crypto, L : Libm}.

Definition hash_field (value : string) : string :=
  string_of_bytes (be_bytes 8 (str_len value)) +:+ value.

(** The bytes [event_request_hash] digests. *)
Definition event_bytes (event : TrustedEvent) : string :=
  "mindone:model-quality-event:v1" +:+ AntiAbuse.nul +:+ uuid_bytes (event_model event)
  +:+ hash_field (event_kind_as_str (event_kind event))
  +:+ hash_field (event_key event) +:+ hash_field (event_evidence event)
  +:+ match event_payload event with
      | Score score samples =>
        string_of_bytes (0 :: be_bytes 4 score ++ be_bytes 4 samples)
      | Blind rating deviation outcome =>
        string_of_bytes (1 :: be_bytes 8 rating ++ be_bytes 8 deviation
                           ++ be_bytes 4 (millionths outcome))
      end.
Definition event_request_hash (event : TrustedEvent) : string := hex_encode (sha256 (event_bytes event)).

Definition with_benchmark (s : ModelQualityState) (normalized samples : Z) : ModelQualityState :=
  mkQualityState (state_id s) normalized samples (state_glicko s) (state_rating_milli s)
    (state_deviation_milli s) (state_volatility_nano s) (state_evaluation_samples s)
    (state_fusion s) (state_tier s).

Definition with_rating (s : ModelQualityState) (rating deviation volatility samples glicko : Z)
    : ModelQualityState :=
  mkQualityState (state_id s) (state_benchmark s) (state_benchmark_samples s) glicko rating
    deviation volatility samples (state_fusion s) (state_tier s).

Definition apply_event_to_target (s : ModelQualityState) (payload : TrustedEventPayload)
    : QualityResult ModelQualityState :=
  match payload with
  | Score score samples =>
    '(normalized, total) ← merge_benchmark (state_benchmark s) (state_benchmark_samples s)
                             score samples;
    Ok (with_benchmark s normalized total)
  | Blind opponent_rating opponent_deviation outcome =>
    current ← stored_glicko_rating s;
    opponent_rating ← stored_milli_to_f64 opponent_rating;
    opponent_deviation ← stored_milli_to_f64 opponent_deviation;
    updated ← map_err Accounting (update_glicko2 current
      [mkObservation opponent_rating opponent_deviation outcome] glicko_config_default);
    rating_milli ← rounded_i64 (f64_mul (rating updated) (f64_of_Z 1000));
    deviation_milli ← rounded_i64 (f64_mul (deviation updated) (f64_of_Z 1000));
    volatility_nano ← rounded_i64 (f64_mul (volatility updated) (f64_of_Z 1000000000));
    samples ← ok_or (checked in_i32 (state_evaluation_samples s + 1)) (invalid "Glicko-2 样本数溢出");
    glicko ← normalized_glicko_millionths (rating updated);
    Ok (with_rating s rating_milli (Z.max deviation_milli 1) (Z.max volatility_nano 1000) samples glicko)
  end.

(** The first loop of [recompute_group]: the fused score. *)
Definition fuse_state (s : ModelQualityState) : QualityResult ModelQualityState :=
  rating ← stored_milli_to_f64 (state_rating_milli s);
  glicko ← normalized_glicko_millionths rating;
  samples ← ok_or (checked in_u64 (state_evaluation_samples s)) (invalid "评价样本数不得为负");
  fusion ← map_err Accounting (fused_quality
    (f64_div (f64_of_Z (state_benchmark s)) (f64_of_Z 1000000))
    (f64_div (f64_of_Z glicko) (f64_of_Z 1000000)) samples COLD_START_K);
  fusion ← normalized_f64_to_millionths (fused fusion);
  Ok (mkQualityState (state_id s) (state_benchmark s) (state_benchmark_samples s) glicko
        (state_rating_milli s) (state_deviation_milli s) (state_volatility_nano s)
        (state_evaluation_samples s) fusion (state_tier s)).

(** The second loop: the percentile among the fused scores, and the tier. *)
Record Ranked : Type := mkRanked {
  ranked_state : ModelQualityState;
  ranked_old_tier : string;
  ranked_percentile : Z;
}.

Definition with_tier (s : ModelQualityState) (tier : string) : ModelQualityState :=
  mkQualityState (state_id s) (state_benchmark s) (state_benchmark_samples s) (state_glicko s)
    (state_rating_milli s) (state_deviation_milli s) (state_volatility_nano s)
    (state_evaluation_samples s) (state_fusion s) tier.

Definition rank_state (fused_scores : list Z) (s : ModelQualityState) : QualityResult Ranked :=
  percentile ← score_percentile (state_fusion s) fused_scores;
  percentile_millionths ← normalized_f64_to_millionths percentile;
  samples ← ok_or (checked in_u64 (state_evaluation_samples s)) (invalid "评价样本数不得为负");
  current ← parse_tier (state_tier s);
  tier ← map_err Accounting (classify tier_policy_default current
    (f64_div (f64_of_Z (state_fusion s)) (f64_of_Z 1000000)) percentile samples);
  Ok (mkRanked (with_tier s (tier_name (Tier.tier tier))) (state_tier s) percentile_millionths).

Definition tier_cohort_commitment (cohort_name : string) (ranked : list Ranked) : string :=
  hex_encode (sha256 (
    "mindone:tier-cohort:v1" +:+ AntiAbuse.nul
    +:+ string_of_bytes (be_bytes 4 QUALITY_POLICY_VERSION) +:+ hash_field cohort_name
    +:+ string_of_bytes (be_bytes 8 (Z.of_nat (length ranked)))
    +:+ foldr (λ r rest,
          uuid_bytes (state_id (ranked_state r))
          +:+ string_of_bytes (be_bytes 4 (state_fusion (ranked_state r)))
          +:+ string_of_bytes (be_bytes 4 (state_evaluation_samples (ranked_state r)))
          +:+ string_of_bytes (be_bytes 4 (ranked_percentile r))
          +:+ hash_field (ranked_old_tier r) +:+ hash_field (state_tier (ranked_state r))
          +:+ rest) "" ranked)).

Record TierRecomputeOutcome : Type := mkRecompute {
  cohort_size : Z;
  cohort_commitment : string;
  transitions : list Ranked;
}.

Definition tier_changed (r : Ranked) : bool :=
  negb (String.eqb (ranked_old_tier r) (state_tier (ranked_state r))).

Definition recompute_group (states : list ModelQualityState) (cohort_name : string)
    : QualityResult (list Ranked * TierRecomputeOutcome) :=
  _ ← bail_if (Nat.eqb (length states) 0) (invalid "Tier 相对排名集合不能为空");
  states ← mapM fuse_state states;
  ranked ← mapM (rank_state (state_fusion <$> states)) states;
  size ← ok_or (i32_try_from (Z.of_nat (length states))) (invalid "Tier 排名集合过大");
  Ok (ranked, mkRecompute size (tier_cohort_commitment cohort_name ranked)
                (List.filter tier_changed ranked)).

(** ** Audit rows *)

Definition event_row (event_id : Z) (event : TrustedEvent) (request_hash : string)
    (old new : ModelQualityState) : QualityEventRow :=
  let row := mkEventRow event_id (event_model event) (event_kind_as_str (event_kind event))
    (event_key event) request_hash (event_evidence event) in
  match event_payload event with
  | Score score samples => row (Some score) samples None None None old new
  | Blind opponent_rating opponent_deviation outcome =>
    row None 1 (Some opponent_rating) (Some opponent_deviation) (Some (millionths outcome)) old new
  end.

(** The primary key and the two UNIQUE columns; the other constraints repeat the
    validation and the checks on [models]. *)
Definition insert_event (db : QualityDb) (row : QualityEventRow) : QualityResult QualityDb :=
  _ ← bail_if (existsb (λ r, (row_id r =? row_id row) || String.eqb (row_key r) (row_key row)
        || String.eqb (row_request_hash r) (row_request_hash row)) (quality_events db)) Database;
  Ok (mkQualityDb (quality_models db) (quality_columns db) (row :: quality_events db)
        (tier_transitions db)).

(** The CHECK on [cohort_name]: 1 to 512 bytes, no space at its ends
    ([btrim]), no control character. *)
Definition cohort_name_check (name : string) : bool :=
  in_range 1 512 (str_len name)
  && negb (bool_decide (head (bytes_of name) = Some 32))
  && negb (bool_decide (last (bytes_of name) = Some 32))
  && negb (has_control name).

(** The constraints and the trigger of [model_tier_transition_events]. *)
Definition transition_check (db : QualityDb) (t : TransitionRow) : bool :=
  cohort_name_check (transition_cohort t) && (0 <? transition_cohort_size t)
  && negb (String.eqb (transition_old t) (transition_new t))
  && in_range 0 1000000 (transition_fusion t) && in_range 0 1000000 (transition_percentile t)
  && (0 <=? transition_samples t)
  && negb (existsb (λ r, (transition_id r =? transition_id t)
       || ((transition_source r =? transition_source t)
           && (transition_model r =? transition_model t))) (tier_transitions db))
  && existsb (λ e, (row_id e =? transition_source t)
       && match quality_models db !! row_model e with
          | Some m => in_cohort (transition_cohort t) m
          | None => false
          end) (quality_events db)
  && match quality_models db !! transition_model t with
     | Some m =>
       in_cohort (transition_cohort t) m
       && String.eqb (Tables.tier m) (transition_new t)
       && (quality_fusion_normalized (columns_of db (transition_model t)) =? transition_fusion t)
       && (evaluation_samples m =? transition_samples t)
     | None => false
     end
  && (Z.of_nat (length (cohort db (transition_cohort t))) =? transition_cohort_size t).

Definition insert_transition (db : QualityDb) (t : TransitionRow) : QualityResult QualityDb :=
  _ ← bail_if (negb (transition_check db t)) Database;
  Ok (mkQualityDb (quality_models db) (quality_columns db) (quality_events db)
        (t :: tier_transitions db)).

Definition transition_row (id source : Z) (name : string) (outcome : TierRecomputeOutcome)
    (r : Ranked) : TransitionRow :=
  let s := ranked_state r in
  mkTransitionRow id source (state_id s) name (cohort_size outcome) (cohort_commitment outcome)
    (ranked_old_tier r) (state_tier s) (state_fusion s) (ranked_percentile r)
    (state_evaluation_samples s).

(** [insert_tier_transition_audits]; the identifiers are drawn in order. *)
Definition insert_transitions (db : QualityDb) (tx : Tx) (source : Z) (name : string)
    (outcome : TierRecomputeOutcome) : QualityResult QualityDb :=
  fold_each (λ db p, insert_transition db (transition_row (now_v7 tx (S p.1)) source name outcome p.2))
    db (imap pair (transitions outcome)).

(** ** The transaction *)

Definition is_cold (samples : Z) : bool := samples <? minimum_samples tier_policy_default.

Definition update_from_state (event_id : Z) (kind : string) (s : ModelQualityState) : QualityUpdate :=
  mkUpdate event_id kind s (is_cold (state_evaluation_samples s)).

Definition replace_state (s : ModelQualityState) (states : list ModelQualityState)
    : list ModelQualityState :=
  (λ x, if state_id x =? state_id s then s else x) <$> states.

Definition find_state (id : Z) (states : list ModelQualityState) : option ModelQualityState :=
  List.find (λ s, state_id s =? id) states.

(** The request hash and the update of the event with a key. *)
Definition load_existing_event (db : QualityDb) (key : string) : option (string * QualityUpdate) :=
  match List.find (λ r, String.eqb (row_key r) key) (quality_events db) with
  | Some r => Some (row_request_hash r, update_from_state (row_id r) (row_kind r) (row_new r))
  | None => None
  end.

Definition new_event (db : QualityDb) (tx : Tx) (event : TrustedEvent) (request_hash : string)
    : QualityResult (QualityUpdate * QualityDb) :=
  m ← ok_or (m ← quality_models db !! event_model event; if enabled m then Some m else None)
    ModelNotFound;
  let name := model_name m in
  let states := cohort db name in
  old ← ok_or (find_state (event_model event) states) ModelNotFound;
  target ← apply_event_to_target old (event_payload event);
  db ← write_state db target;
  '(ranked, outcome) ← recompute_group (replace_state target states) name;
  db ← fold_each write_state db (ranked_state <$> ranked);
  new ← ok_or (find_state (event_model event) (ranked_state <$> ranked)) ModelNotFound;
  let event_id := now_v7 tx 0%nat in
  db ← insert_event db (event_row event_id event request_hash old new);
  db ← insert_transitions db tx event_id name outcome;
  Ok (update_from_state event_id (event_kind_as_str (event_kind event)) new, db).

(** [record_trusted_event_in_transaction]: the update, and whether it is a
    replay. *)
Definition record_trusted_event (db : QualityDb) (tx : Tx) (event : TrustedEvent)
    : QualityResult (QualityUpdate * bool * QualityDb) :=
  _ ← validate_trusted_event event;
  let request_hash := event_request_hash event in
  match load_existing_event db (event_key event) with
  | Some (existing, update) =>
    _ ← bail_if (negb (String.eqb existing request_hash)) IdempotencyConflict;
    Ok (update, true, db)
  | None =>
    '(update, db) ← new_event db tx event request_hash;
    Ok (update, false, db)
  end.
End quality.
