(* ===== verification/QualitySpec.v ===== *)
(** * What quality events promise

    Every event re-ranks the models of one name and nothing else; over any run
    of events and publications the scores of a model are those its events
    measured, and its tier is earned and audited. *)
From S2P Require Import Prelude Text Net Float64 Fixed Tier Glicko2 AntiAbuse StandardData Store Api Postings Tables NodeRequests Models Quality.

Local Open Scope string_scope.
Local Open Scope list_scope.
Local Open Scope Z_scope.

(** ** States *)

(** The quality state of a stored model. *)
Definition state_at (db : QualityDb) (id : Z) : option ModelQualityState :=
  model_state db id <$> quality_models db !! id.

(** What an event leaves of a model's row. *)
Definition same_model (m m' : ModelRow) : Prop :=
  written_model (mkQualityState 0 0 0 0 0 0 0 0 0 "") m
  = written_model (mkQualityState 0 0 0 0 0 0 0 0 0 "") m'.

Lemma same_model_cohort name m m' : same_model m m' → in_cohort name m' = in_cohort name m.
Proof. unfold same_model, written_model, in_cohort. intros [= E1 _ _ E2 _ _ _ _]. by rewrite E1, E2. Qed.

#[export] Instance same_model_equiv : Equivalence same_model.
Proof. split; [by intros m|by intros m n|intros a b c; unfold same_model; congruence]. Qed.

Lemma model_state_id db i m : state_id (model_state db i m) = i.
Proof. done. Qed.

Lemma elem_of_cohort db name s :
  s ∈ cohort db name ↔ ∃ m, quality_models db !! state_id s = Some m ∧ in_cohort name m = true
    ∧ s = model_state db (state_id s) m.
Proof.
  unfold cohort. rewrite list_elem_of_fmap. split.
  - intros ([i m] & -> & Hin). rewrite sort_by_perm in Hin.
    apply list_elem_of_In, filter_In in Hin as [Hin Hc]. apply list_elem_of_In, elem_of_map_to_list in Hin.
    by exists m.
  - intros (m & Hm & Hc & E). exists (state_id s, m). split; [done|]. rewrite sort_by_perm.
    apply list_elem_of_In, filter_In. split; [|done]. by apply list_elem_of_In, elem_of_map_to_list.
Qed.

Lemma cohort_ids db name : NoDup (state_id <$> cohort db name).
Proof.
  unfold cohort. rewrite <-list_fmap_compose.
  assert (∀ l : list (Z * ModelRow), (state_id ∘ λ p, model_state db p.1 p.2) <$> l = l.*1) as ->
    by (intros l; by apply list_fmap_ext).
  rewrite sort_by_perm. apply NoDup_fst_filter, NoDup_fst_map_to_list.
Qed.

(** *** Writing states *)

Lemma write_state_Ok db s db' :
  write_state db s = Ok db' →
  (∀ i, state_at db' i = if decide (i = state_id s) then (λ _, s) <$> quality_models db !! i else state_at db i)
  ∧ (∀ i, match quality_models db !! i, quality_models db' !! i with
          | Some m, Some m' => same_model m m' | None, None => True | _, _ => False end)
  ∧ quality_events db' = quality_events db ∧ tier_transitions db' = tier_transitions db
  ∧ (is_Some (quality_models db !! state_id s) → quality_check s = true).
Proof.
  unfold write_state. destruct (quality_models db !! state_id s) as [m|] eqn:Hm.
  - intros ([] & Hc%bail_if_Ok%negb_false_iff & [= <-])%bind_Ok. split_and!; try done.
    + intros i. unfold state_at, model_state, columns_of. simpl. destruct (decide (i = state_id s)) as [->|Hne].
      * rewrite !lookup_insert_eq, Hm. simpl. by destruct s.
      * by rewrite !lookup_insert_ne by done.
    + intros i. simpl. destruct (decide (i = state_id s)) as [->|Hne].
      * by rewrite lookup_insert_eq, Hm.
      * rewrite lookup_insert_ne by done. by destruct (quality_models db !! i).
  - intros [= <-]. split_and!; try done.
    + intros i. destruct (decide (i = state_id s)) as [->|]; [|done]. unfold state_at. by rewrite Hm.
    + intros i. by destruct (quality_models db !! i).
Qed.

Definition same_rows (db db' : QualityDb) : Prop :=
  ∀ i, match quality_models db !! i, quality_models db' !! i with
       | Some m, Some m' => same_model m m' | None, None => True | _, _ => False end.

#[export] Instance same_rows_preorder : PreOrder same_rows.
Proof.
  split; [intros db i; by destruct (quality_models db !! i)|].
  intros a b c H1 H2 i. specialize (H1 i). specialize (H2 i).
  destruct (quality_models a !! i), (quality_models b !! i), (quality_models c !! i); try done. by etrans.
Qed.

Lemma same_rows_is_Some db db' i :
  same_rows db db' → is_Some (quality_models db' !! i) ↔ is_Some (quality_models db !! i).
Proof.
  intros H. specialize (H i). destruct (quality_models db !! i), (quality_models db' !! i); done.
Qed.

Lemma state_at_is_Some db i : is_Some (state_at db i) ↔ is_Some (quality_models db !! i).
Proof. unfold state_at. by rewrite fmap_is_Some. Qed.

Lemma write_states_Ok db ss db' :
  fold_each write_state db ss = Ok db' → NoDup (state_id <$> ss) →
  (∀ s, s ∈ ss → is_Some (quality_models db !! state_id s)) →
  (∀ s, s ∈ ss → state_at db' (state_id s) = Some s)
  ∧ (∀ i, i ∉ state_id <$> ss → state_at db' i = state_at db i)
  ∧ same_rows db db' ∧ quality_events db' = quality_events db
  ∧ tier_transitions db' = tier_transitions db.
Proof.
  revert db. induction ss as [|s ss IH]; intros db; [intros [= <-] _ _|].
  { split_and!; try done. by intros s ?%elem_of_nil. }
  rewrite fold_each_cons, fmap_cons, NoDup_cons. intros (db1 & Hw & Hf)%bind_Ok [Hni Hnd] Hin.
  apply write_state_Ok in Hw as (H1 & H2 & H3 & H4 & _).
  destruct (IH db1 Hf Hnd) as (F1 & F2 & F3 & F4 & F5).
  { intros x Hx. apply (same_rows_is_Some db); [exact H2|]. apply Hin. by right. }
  split_and!; [| |by etrans|congruence..].
  - intros x [->|Hx]%elem_of_cons; [|by apply F1]. rewrite F2, H1 by done.
    rewrite decide_True by done. destruct (Hin s) as [m ->]; [by left|]. done.
  - intros i Hi. apply not_elem_of_cons in Hi as [Hne Hi]. rewrite F2 by done. rewrite H1.
    by rewrite decide_False.
Qed.

(** ** Ranking *)

Lemma default_policy_valid : tier_validate tier_policy_default = Ok tt.
Proof. by vm_compute. Qed.

(** A score of millionths as the policy sees it. *)
Definition millionths_f64 (z : Z) : f64 := f64_div (f64_of_Z z) (f64_of_Z 1000000).

(** A tier above or below the middle has its samples and its score. *)
Definition tier_earned (s : ModelQualityState) : Prop :=
  (state_tier s = "high" → minimum_samples tier_policy_default ≤ state_evaluation_samples s
     ∧ f64_ge (millionths_f64 (state_fusion s)) (high_exit tier_policy_default) = true)
  ∧ (state_tier s = "low" → minimum_samples tier_policy_default ≤ state_evaluation_samples s
     ∧ f64_le (millionths_f64 (state_fusion s)) (low_exit tier_policy_default) = true).

Lemma classify_earned current score percentile samples t :
  classify tier_policy_default current score percentile samples = Ok t →
  (Tier.tier t = High → minimum_samples tier_policy_default ≤ samples
     ∧ f64_ge score (high_exit tier_policy_default) = true)
  ∧ (Tier.tier t = Low → minimum_samples tier_policy_default ≤ samples
     ∧ f64_le score (low_exit tier_policy_default) = true).
Proof.
  unfold classify. intros ([] & _ & ([] & _ & ([] & _ & H)%bind_Ok)%bind_Ok)%bind_Ok.
  destruct (Z.ltb_spec samples (minimum_samples tier_policy_default)); [by injection H as <-|].
  destruct (classify_step _ _ _ _) as [t' a] eqn:E. injection H as <-. simpl.
  pose proof (classify_step_range _ default_policy_valid _ _ _ _ _ E) as (R1 & R2 & _). auto.
Qed.

(** What the two loops keep, and what they establish. *)
Definition same_measures (s s' : ModelQualityState) : Prop :=
  (state_id s', state_benchmark s', state_benchmark_samples s', state_rating_milli s',
    state_deviation_milli s', state_volatility_nano s', state_evaluation_samples s')
  = (state_id s, state_benchmark s, state_benchmark_samples s, state_rating_milli s,
     state_deviation_milli s, state_volatility_nano s, state_evaluation_samples s).

Section events.
Context `{C : Crypto, L : Libm}.

Lemma fuse_state_Ok s s' : fuse_state s = Ok s' → same_measures s s' ∧ state_tier s' = state_tier s.
Proof.
  unfold fuse_state. intros H.
  do 5 (apply bind_Ok in H as (? & _ & H)). assert (∀ a b : ModelQualityState, @Ok QualityGovernanceError _ a = Ok b → b = a) as Hi by congruence.
  apply Hi in H as ->. split; reflexivity.
Qed.

Lemma rank_state_Ok scores s r :
  rank_state scores s = Ok r →
  same_measures s (ranked_state r) ∧ state_fusion (ranked_state r) = state_fusion s
  ∧ ranked_old_tier r = state_tier s ∧ tier_earned (ranked_state r).
Proof.
  unfold rank_state. intros H. apply bind_Ok in H as (p & _ & H). apply bind_Ok in H as (pm & _ & H).
  apply bind_Ok in H as (n & [_ ->]%ok_or_Ok%checked_Some & H). apply bind_Ok in H as (c & _ & H).
  apply bind_Ok in H as (t & Ht%map_err_Ok & [= <-]).
  pose proof (classify_earned _ _ _ _ _ Ht) as [E1 E2]. clear Ht.
  do 3 (split; [reflexivity|]). assert (∀ t', tier_name t' = "high" → t' = High) as N1 by (by intros []).
  assert (∀ t', tier_name t' = "low" → t' = Low) as N2 by (by intros []).
  split; intros E; [exact (E1 (N1 _ E))|exact (E2 (N2 _ E))].
Qed.

Lemma recompute_group_Ok states name ranked outcome :
  recompute_group states name = Ok (ranked, outcome) →
  ∃ fused, Forall2 (λ s f, fuse_state s = Ok f) states fused
    ∧ Forall2 (λ f r, rank_state (state_fusion <$> fused) f = Ok r) fused ranked
    ∧ cohort_size outcome = Z.of_nat (length states)
    ∧ transitions outcome = List.filter tier_changed ranked.
Proof.
  unfold recompute_group. intros ([] & _ & H)%bind_Ok.
  apply bind_Ok in H as (fused & Hf%mapM_Ok & H). apply bind_Ok in H as (r & Hr%mapM_Ok & H).
  apply bind_Ok in H as (n & [_ Hn]%ok_or_Ok%checked_Some & [= <- <-]). exists fused.
  split_and!; [exact Hf|exact Hr| |done]. simpl. rewrite Hn. by rewrite (Forall2_length _ _ _ Hf).
Qed.

(** The members of the cohort and what became of them. *)
Lemma ranked_members states fused ranked :
  Forall2 (λ s f, fuse_state s = Ok f) states fused →
  Forall2 (λ f r, rank_state (state_fusion <$> fused) f = Ok r) fused ranked →
  Forall2 (λ s r, same_measures s (ranked_state r) ∧ ranked_old_tier r = state_tier s
    ∧ tier_earned (ranked_state r)
    ∧ ∃ f, f ∈ fused ∧ fuse_state s = Ok f ∧ rank_state (state_fusion <$> fused) f = Ok r) states ranked.
Proof.
  generalize (state_fusion <$> fused) as scores. intros scores H. revert ranked.
  induction H as [|s f states fused Hs _ IH]; intros ranked Hr; inversion Hr as [|? r ? rs H1 H2]; subst;
    [constructor|]. constructor.
  - pose proof (fuse_state_Ok _ _ Hs) as [E1 E2]. pose proof (rank_state_Ok _ _ _ H1) as (F1 & _ & F2 & F3).
    split; [unfold same_measures in *; congruence|]. split; [congruence|]. split; [done|].
    exists f. split; [by left|done].
  - eapply Forall2_impl; [by apply IH|]. intros x y (?&?&?&g&?&?&?). split_and!; try done.
    exists g. split; [by right|done].
Qed.
End events.

(** *** Audit rows *)

Lemma filter_key {A} (f : A → Z) l x :
  NoDup (f <$> l) → x ∈ l → List.filter (λ y, f y =? f x) l = [x].
Proof.
  intros Hnd Hx. induction Hx as [x l|x y l Hx IH]; apply NoDup_cons in Hnd as [Hn Hnd]; simpl.
  - rewrite Z.eqb_refl. f_equal. apply filter_false. intros y Hy. apply Z.eqb_neq. intros E.
    apply Hn. rewrite <-E. by apply list_elem_of_fmap_2.
  - rewrite (proj2 (Z.eqb_neq _ _)); [by apply IH|]. intros E. apply Hn. rewrite E.
    by apply list_elem_of_fmap_2.
Qed.

Lemma insert_transitions_Ok db tx source name outcome db' :
  insert_transitions db tx source name outcome = Ok db' →
  (quality_models db', quality_columns db', quality_events db')
  = (quality_models db, quality_columns db, quality_events db)
  ∧ tier_transitions db' = rev (imap (λ i r, transition_row (now_v7 tx (S i)) source name outcome r)
                                   (transitions outcome)) ++ tier_transitions db.
Proof.
  unfold insert_transitions. assert (imap (λ i r, transition_row (now_v7 tx (S i)) source name outcome r)
      (transitions outcome) = (λ p, transition_row (now_v7 tx (S p.1)) source name outcome p.2)
      <$> imap pair (transitions outcome)) as -> by by rewrite fmap_imap.
  generalize (imap pair (transitions outcome)). intros l. revert db.
  induction l as [|p l IH]; intros db; [by intros [= <-]|]. rewrite fold_each_cons.
  intros (db1 & Hi & Hl)%bind_Ok. apply IH in Hl as [E1 E2].
  unfold insert_transition in Hi. apply bind_Ok in Hi as ([] & _ & [= <-]). simpl in *.
  split; [done|]. rewrite E2. simpl. by rewrite <-app_assoc.
Qed.

(** *** One event, in full *)

Section events.
Context `{C : Crypto, L : Libm}.

Lemma apply_event_keeps s payload s' :
  apply_event_to_target s payload = Ok s' →
  state_id s' = state_id s ∧ state_tier s' = state_tier s ∧ state_fusion s' = state_fusion s.
Proof.
  unfold apply_event_to_target. destruct payload as [score samples|rating deviation outcome].
  - intros ([n t] & _ & [= <-])%bind_Ok. done.
  - intros H. do 9 (apply bind_Ok in H as (? & _ & H)).
    assert (∀ a b : ModelQualityState, @Ok QualityGovernanceError _ a = Ok b → b = a) as Hi by congruence.
    apply Hi in H as ->. split_and!; reflexivity.
Qed.

Lemma replace_state_ids s states : state_id <$> replace_state s states = state_id <$> states.
Proof.
  unfold replace_state. rewrite <-list_fmap_compose. apply list_fmap_ext. intros i x _. simpl.
  by destruct (Z.eqb_spec (state_id x) (state_id s)).
Qed.

Lemma find_cohort db name id s :
  find_state id (cohort db name) = Some s →
  ∃ m, quality_models db !! id = Some m ∧ s = model_state db id m.
Proof.
  intros [Hin%list_elem_of_In Hid%Z.eqb_eq]%List.find_some.
  apply elem_of_cohort in Hin as (m & Hm & _ & Hs). rewrite Hid in *. by exists m.
Qed.

Lemma Forall2_ids (states : list ModelQualityState) ranked (P : ModelQualityState → Ranked → Prop) :
  Forall2 P states ranked → (∀ s r, P s r → same_measures s (ranked_state r)) →
  state_id <$> (ranked_state <$> ranked) = state_id <$> states.
Proof.
  intros H HP. induction H as [|s r states ranked Hs _ IH]; [done|].
  rewrite !fmap_cons, IH. specialize (HP _ _ Hs). unfold same_measures in HP. congruence.
Qed.

Record event_effect (db : QualityDb) (tx : Tx) (event : TrustedEvent) (hash : string)
    (u : QualityUpdate) (db' : QualityDb) (m : ModelRow) (target : ModelQualityState)
    (fused : list ModelQualityState) (ranked : list Ranked) : Prop := mkEffect {
  effect_model : quality_models db !! event_model event = Some m;
  effect_enabled : enabled m = true;
  effect_target : apply_event_to_target (model_state db (event_model event) m) (event_payload event)
    = Ok target;
  effect_fused : Forall2 (λ s f, fuse_state s = Ok f)
    (replace_state target (cohort db (model_name m))) fused;
  effect_ranked : Forall2 (λ f r, rank_state (state_fusion <$> fused) f = Ok r) fused ranked;
  effect_ids : state_id <$> (ranked_state <$> ranked) = state_id <$> cohort db (model_name m);
  effect_stored : ∀ r, r ∈ ranked → state_at db' (state_id (ranked_state r)) = Some (ranked_state r);
  effect_others : ∀ i, i ∉ state_id <$> cohort db (model_name m) → state_at db' i = state_at db i;
  effect_rows : same_rows db db';
  effect_event : ∃ r, r ∈ ranked ∧ state_id (ranked_state r) = event_model event
    ∧ quality_events db' = event_row (now_v7 tx 0%nat) event hash
        (model_state db (event_model event) m) (ranked_state r) :: quality_events db
    ∧ u = update_from_state (now_v7 tx 0%nat) (event_kind_as_str (event_kind event)) (ranked_state r);
  effect_transitions : ∃ outcome, cohort_size outcome = Z.of_nat (length ranked)
    ∧ tier_transitions db' = rev (imap (λ i r,
        transition_row (now_v7 tx (S i)) (now_v7 tx 0%nat) (model_name m) outcome r)
        (List.filter tier_changed ranked)) ++ tier_transitions db;
}.

Lemma recorded_event_Ok db tx event hash u db' :
  new_event db tx event hash = Ok (u, db') →
  ∃ m target fused ranked, event_effect db tx event hash u db' m target fused ranked.
Proof.
  unfold new_event. intros H.
  apply bind_Ok in H as (m & (m' & Hm & Hen)%ok_or_Ok%bind_Some & H).
  destruct (enabled m') eqn:Hen'; [|done]. injection Hen as ->.
  apply bind_Ok in H as (old & Hold%ok_or_Ok & H). apply find_cohort in Hold as (m'' & Hm'' & ->).
  assert (m'' = m) as -> by congruence.
  apply bind_Ok in H as (target & Ht & H). apply bind_Ok in H as (db1 & Hw & H).
  apply bind_Ok in H as ([ranked outcome] & Hg & H).
  apply bind_Ok in H as (db2 & Hws & H). apply bind_Ok in H as (new & Hnew%ok_or_Ok & H).
  apply bind_Ok in H as (db3 & Hev & H). apply bind_Ok in H as (db4 & Htr & Hu).
  assert (u = update_from_state (now_v7 tx 0%nat) (event_kind_as_str (event_kind event)) new ∧ db' = db4)
    as [-> ->] by (by injection Hu as <- <-). clear Hu.
  apply recompute_group_Ok in Hg as (fused & Hfused & Hranked & Hsize & Htrans).
  destruct (apply_event_keeps _ _ _ Ht) as [Hid _]. simpl in Hid.
  pose proof (ranked_members _ _ _ Hfused Hranked) as Hmem.
  pose proof (Forall2_ids _ _ _ Hmem (λ s r H, proj1 H)) as Hids. rewrite replace_state_ids in Hids.
  apply write_state_Ok in Hw as (W1 & W2 & W3 & W4 & _).
  apply write_states_Ok in Hws as (V1 & V2 & V3 & V4 & V5).
  2:{ rewrite Hids. apply cohort_ids. }
  2:{ intros s Hs. apply (same_rows_is_Some db); [exact W2|].
      apply (list_elem_of_fmap_2 state_id) in Hs. rewrite Hids in Hs.
      apply list_elem_of_fmap in Hs as (x & -> & Hx). apply elem_of_cohort in Hx as (mx & -> & _). by eexists. }
  unfold insert_event in Hev. apply bind_Ok in Hev as ([] & _ & Hev). injection Hev as <-.
  apply insert_transitions_Ok in Htr as [Etab Htr]. simpl in Etab. injection Etab as E1 E2 E3.
  assert (∀ i, state_at db4 i = state_at db2 i) as Hst
    by (intros i; unfold state_at, model_state, columns_of; by rewrite E1, E2).
  apply List.find_some in Hnew as [Hnew%list_elem_of_In Hnid%Z.eqb_eq].
  apply list_elem_of_fmap in Hnew as (r & -> & Hr).
  exists m, target, fused, ranked. constructor; try done.
  - intros x Hx. rewrite Hst. apply V1. by apply list_elem_of_fmap_2.
  - intros i Hi. rewrite Hst, V2 by by rewrite Hids. rewrite W1. rewrite decide_False; [done|].
    intros ->. apply Hi. rewrite Hid. change (event_model event) with (state_id (model_state db (event_model event) m)).
    apply list_elem_of_fmap_2, elem_of_cohort. exists m. split; [done|]. split; [|done].
    unfold in_cohort. by rewrite String.eqb_refl.
  - etrans; [exact W2|]. etrans; [exact V3|]. intros i. rewrite E1. apply (reflexivity (R := same_rows) db2).
  - exists r. split; [done|]. split; [done|]. rewrite E3. simpl. by rewrite V4, W3.
  - exists outcome. split.
    + rewrite Hsize, <-(Forall2_length _ _ _ Hranked), (Forall2_length _ _ _ Hfused). done.
    + rewrite Htr, Htrans. simpl. by rewrite V5, W4.
Qed.
End events.

(** ** What a model's scores and tier rest on *)

(** The benchmark samples and the blind comparisons of a model's events. *)
Definition measured (events : list QualityEventRow) (id : Z) : Z :=
  foldr (λ r z, (if (row_model r =? id) && bool_decide (is_Some (row_score r))
                 then row_samples r else 0) + z) 0 events.
Definition compared (events : list QualityEventRow) (id : Z) : Z :=
  countb (λ r, (row_model r =? id) && bool_decide (row_score r = None)) events.

(** The tier the audit trail ends in. *)
Definition audited_tier (transitions : list TransitionRow) (id : Z) : string :=
  default "medium" (transition_new <$> head (List.filter (λ t, transition_model t =? id) transitions)).

Record model_ok (db : QualityDb) (id : Z) (s : ModelQualityState) : Prop := mkModelOk {
  ok_samples : state_benchmark_samples s = measured (quality_events db) id;
  ok_compared : state_evaluation_samples s = compared (quality_events db) id;
  ok_benchmark : ∀ lo hi,
    (∀ r v, r ∈ quality_events db → row_model r = id → row_score r = Some v → lo ≤ v ≤ hi) →
    0 < state_benchmark_samples s → lo ≤ state_benchmark s ≤ hi;
  ok_nonneg : 0 ≤ state_benchmark s;
  ok_earned : tier_earned s;
  ok_audited : state_tier s = audited_tier (tier_transitions db) id;
}.

Record quality_ok (db : QualityDb) : Prop := mkQualityOk {
  ok_models : ∀ i s, state_at db i = Some s → model_ok db i s;
  ok_events : ∀ r, r ∈ quality_events db →
    is_Some (quality_models db !! row_model r)
    ∧ (is_Some (row_score r) → 1 ≤ row_samples r)
    ∧ (∀ v, row_score r = Some v → 0 ≤ v);
  ok_transitions : ∀ t, t ∈ tier_transitions db → is_Some (quality_models db !! transition_model t);
}.

Lemma measured_nonneg events id :
  (∀ r, r ∈ events → is_Some (row_score r) → 1 ≤ row_samples r) → 0 ≤ measured events id.
Proof.
  induction events as [|r events IH]; intros H; [done|]. unfold measured. simpl. fold (measured events id).
  assert (0 ≤ measured events id) by (apply IH; intros; apply H; [by right|done]).
  destruct (_ && _) eqn:E; [|lia]. apply andb_true_iff in E as [_ E%bool_decide_eq_true].
  assert (1 ≤ row_samples r) by (apply H; [by left|done]). lia.
Qed.

(** The merged benchmark lies between the old one and the new score. *)
Lemma merge_benchmark_Ok normalized samples score count n t lo hi :
  merge_benchmark normalized samples score count = Ok (n, t) →
  0 ≤ samples → 0 ≤ normalized → 1 ≤ count → 0 ≤ lo → lo ≤ score ≤ hi →
  (0 < samples → lo ≤ normalized ≤ hi) →
  t = samples + count ∧ lo ≤ n ≤ hi.
Proof.
  unfold merge_benchmark. intros H Hs Hnn Hc Hlo Hsc Hn.
  apply bind_Ok in H as (t' & [_ ->]%ok_or_Ok%checked_Some & H).
  apply bind_Ok in H as (o & [_ ->]%ok_or_Ok%checked_Some & H).
  apply bind_Ok in H as (w & [_ ->]%ok_or_Ok%checked_Some & H).
  apply bind_Ok in H as (x & [_ ->]%ok_or_Ok%checked_Some & H).
  apply bind_Ok in H as (y & [_ ->]%ok_or_Ok%checked_Some & H).
  apply bind_Ok in H as (z & [_ ->]%ok_or_Ok%checked_Some & [= <- <-]). split; [done|].
  rewrite (Z.quot_div_nonneg (samples + count) 2) by lia.
  assert (0 ≤ (samples + count) / 2) as Hhalf by (apply Z.div_pos; lia).
  assert (2 * ((samples + count) / 2) ≤ samples + count) by (apply Z.mul_div_le; lia).
  assert (lo * samples ≤ normalized * samples ≤ hi * samples) as Hold.
  { destruct (Z.eq_dec samples 0) as [->|]; [lia|]. specialize (Hn ltac:(lia)). nia. }
  assert (lo * count ≤ score * count ≤ hi * count) as Hnew by nia.
  rewrite Z.quot_div_nonneg by nia. split.
  - apply Z.div_le_lower_bound; [lia|]. nia.
  - apply Z.lt_succ_r, Z.div_lt_upper_bound; [lia|]. nia.
Qed.

Lemma NoDup_fmap_filter {A B} (f : A → B) (p : A → bool) l :
  NoDup (f <$> l) → NoDup (f <$> List.filter p l).
Proof.
  induction l as [|x l IH]; [done|]. rewrite fmap_cons. intros [Hn Hnd]%NoDup_cons. simpl.
  destruct (p x); [|by apply IH]. rewrite fmap_cons. apply NoDup_cons. split; [|by apply IH].
  intros (y & E & Hy)%list_elem_of_fmap. apply Hn. rewrite E. apply list_elem_of_fmap_2.
  apply list_elem_of_In, filter_In in Hy as [Hy _]. by apply list_elem_of_In.
Qed.

(** The audit trail of a member of the cohort grows by its change. *)
Lemma audited_after (g : nat → Ranked → TransitionRow) ranked old r :
  (∀ i r, transition_model (g i r) = state_id (ranked_state r)
     ∧ transition_new (g i r) = state_tier (ranked_state r)) →
  NoDup (state_id <$> (ranked_state <$> ranked)) → r ∈ ranked →
  audited_tier (rev (imap g (List.filter tier_changed ranked)) ++ old) (state_id (ranked_state r))
  = if tier_changed r then state_tier (ranked_state r)
    else audited_tier old (state_id (ranked_state r)).
Proof.
  intros Hg Hnd Hr. rewrite <-list_fmap_compose in Hnd. unfold audited_tier. rewrite List.filter_app.
  set (rows := imap g (List.filter tier_changed ranked)).
  assert (transition_model <$> rows = state_id ∘ ranked_state <$> List.filter tier_changed ranked) as Hids.
  { unfold rows. rewrite fmap_imap. rewrite <-imap_const. apply imap_ext. intros i x _. simpl. apply Hg. }
  assert (NoDup (transition_model <$> rows)) as Hrows by (rewrite Hids; by apply NoDup_fmap_filter).
  destruct (tier_changed r) eqn:Hc.
  - assert (r ∈ List.filter tier_changed ranked) as Hin
      by (apply list_elem_of_In, filter_In; by rewrite <-list_elem_of_In).
    apply list_elem_of_lookup in Hin as [k Hk].
    assert (g k r ∈ rev rows) as Hrow.
    { apply list_elem_of_In. rewrite <-in_rev. apply list_elem_of_In, list_elem_of_lookup.
      exists k. unfold rows. by rewrite list_lookup_imap, Hk. }
    rewrite <-(proj1 (Hg k r)), (filter_key transition_model (rev rows) (g k r)).
    + simpl. apply Hg.
    + by rewrite <-(Permutation_rev rows).
    + done.
  - rewrite filter_false; [done|]. intros t Ht%list_elem_of_In%in_rev%list_elem_of_In.
    apply Z.eqb_neq. intros E.
    apply (list_elem_of_fmap_2 transition_model) in Ht. rewrite Hids, E in Ht.
    apply list_elem_of_fmap in Ht as (r' & E' & Hr').
    apply list_elem_of_In, filter_In in Hr' as [Hr' Hc']. apply list_elem_of_In in Hr'.
    pose proof (filter_key (state_id ∘ ranked_state) ranked r Hnd Hr) as F1.
    pose proof (filter_key (state_id ∘ ranked_state) ranked r' Hnd Hr') as F2.
    simpl in F1, F2, E'. rewrite <-E' in F2. rewrite F1 in F2. injection F2 as ->. congruence.
Qed.

(** ** Runs *)

Section runs.
Context `{C : Crypto, L : Libm}.

Lemma validated_payload event :
  validate_trusted_event event = Ok tt →
  match event_payload event with Score score samples => 0 ≤ score ∧ 1 ≤ samples | Blind _ _ _ => True end.
Proof.
  unfold validate_trusted_event. intros ([] & _ & ([] & _ & H)%bind_Ok)%bind_Ok.
  destruct (event_payload event); [|done].
  apply bind_Ok in H as ([] & H1%bail_if_Ok%negb_false_iff%in_range_true & H2%bail_if_Ok%negb_false_iff%in_range_true).
  lia.
Qed.

(** The measurements of the model an event is about. *)
Lemma target_scores db event hash id s s' new :
  model_ok db (event_model event) s → quality_ok db → validate_trusted_event event = Ok tt →
  apply_event_to_target s (event_payload event) = Ok s' → same_measures s' new →
  let events := event_row id event hash s new :: quality_events db in
  state_benchmark_samples new = measured events (event_model event)
  ∧ state_evaluation_samples new = compared events (event_model event)
  ∧ (∀ lo hi, (∀ r v, r ∈ events → row_model r = event_model event → row_score r = Some v → lo ≤ v ≤ hi) →
      0 < state_benchmark_samples new → lo ≤ state_benchmark new ≤ hi)
  ∧ 0 ≤ state_benchmark new.
Proof.
  intros [Hs He Hbench Hnn _ _] Hok Hv Ha Hsame events. apply validated_payload in Hv.
  injection Hsame as _ E2 E3 _ _ _ E7.
  assert (0 ≤ state_benchmark_samples s) as Hpos.
  { rewrite Hs. apply measured_nonneg. intros r Hr. by apply (ok_events _ Hok). }
  unfold events, event_row, measured, compared. rewrite countb_cons. simpl.
  fold (measured (quality_events db) (event_model event)).
  fold (compared (quality_events db) (event_model event)). unfold apply_event_to_target in Ha.
  destruct (event_payload event) as [score samples|rating deviation outcome] eqn:Hp; simpl; rewrite Z.eqb_refl; simpl.
  - apply bind_Ok in Ha as ([n t] & Hm & [= <-]). simpl in *.
    assert (∀ lo hi, 0 ≤ lo → lo ≤ score ≤ hi → (0 < state_benchmark_samples s → lo ≤ state_benchmark s ≤ hi) →
      t = state_benchmark_samples s + samples ∧ lo ≤ n ≤ hi) as Hmerge
      by (intros lo hi Hlo Hsc H0; destruct Hv; by apply (merge_benchmark_Ok _ _ _ _ _ _ lo hi Hm)).
    destruct Hv as [Hv0 _].
    pose proof (Hmerge 0 (Z.max score (state_benchmark s)) ltac:(lia) ltac:(lia) ltac:(lia)) as [-> Hn].
    split; [lia|]. split; [simpl; lia|].
    split; [|lia]. intros lo hi Hall _. rewrite E2.
    assert (lo ≤ score ≤ hi) as Hsc by (by eapply Hall; [by left|simpl; reflexivity|simpl; reflexivity]).
    destruct (Z.le_gt_cases 0 lo) as [Hlo|Hlo].
    + apply (Hmerge lo hi Hlo Hsc). intros H0. apply Hbench; [|done].
      intros r v Hr. apply Hall. by right.
    + assert (0 ≤ n ≤ hi); [|lia]. apply (Hmerge 0 hi); [lia|lia|]. intros H0. split; [lia|].
      apply (Hbench lo hi); [|done]. intros r v Hr. apply Hall. by right.
  - do 9 (apply bind_Ok in Ha as (? & ? & Ha)).
    match goal with H : ok_or (checked _ _) _ = Ok _ |- _ => apply ok_or_Ok, checked_Some in H as [_ ->] end.
    assert (∀ a b : ModelQualityState, @Ok QualityGovernanceError _ a = Ok b → b = a) as Hi by congruence.
    apply Hi in Ha as ->. simpl in *. split; [lia|]. split; [lia|]. split; [|lia].
    intros lo hi Hall Hpos0. rewrite E2. apply Hbench; [|lia]. intros r v Hr. apply Hall. by right.
Qed.

(** A model the event is not about keeps its measurements. *)
Lemma other_scores db row s new i :
  model_ok db i s → row_model row ≠ i → same_measures s new →
  let events := row :: quality_events db in
  state_benchmark_samples new = measured events i
  ∧ state_evaluation_samples new = compared events i
  ∧ (∀ lo hi, (∀ r v, r ∈ events → row_model r = i → row_score r = Some v → lo ≤ v ≤ hi) →
       0 < state_benchmark_samples new → lo ≤ state_benchmark new ≤ hi)
  ∧ 0 ≤ state_benchmark new.
Proof.
  intros [Hs He Hbench Hnn _ _] Hne Hsame events. injection Hsame as _ E2 E3 _ _ _ E7.
  unfold events, measured, compared. rewrite countb_cons. simpl.
  fold (measured (quality_events db) i). fold (compared (quality_events db) i).
  rewrite (proj2 (Z.eqb_neq (row_model row) i)) by done. simpl.
  split; [lia|]. split; [lia|]. split; [|lia]. intros lo hi Hall Hp. rewrite E2. apply Hbench; [|lia].
  intros r v Hr. apply Hall. by right.
Qed.

Lemma members_related db m target fused ranked :
  Forall2 (λ s f, fuse_state s = Ok f) (replace_state target (cohort db (model_name m))) fused →
  Forall2 (λ f r, rank_state (state_fusion <$> fused) f = Ok r) fused ranked →
  ∀ r, r ∈ ranked → ∃ s0 f, s0 ∈ cohort db (model_name m)
    ∧ let s := if state_id s0 =? state_id target then target else s0 in
      same_measures s (ranked_state r) ∧ ranked_old_tier r = state_tier s ∧ tier_earned (ranked_state r)
      ∧ f ∈ fused ∧ fuse_state s = Ok f ∧ rank_state (state_fusion <$> fused) f = Ok r.
Proof.
  intros Hf Hr r Hin. pose proof (ranked_members _ _ _ Hf Hr) as H.
  apply list_elem_of_lookup in Hin as [k Hk].
  destruct (Forall2_lookup_r _ _ _ _ _ H Hk) as (s & Hs & H1 & H2 & H3 & f & H4 & H5 & H6).
  unfold replace_state in Hs. rewrite list_lookup_fmap in Hs.
  destruct (cohort db (model_name m) !! k) as [s0|] eqn:E; [|done]. injection Hs as <-.
  exists s0, f. split; [by eapply list_elem_of_lookup_2|]. by split_and!.
Qed.

(** An event keeps the invariant. *)
Lemma event_keeps_ok db tx event u replay db' :
  quality_ok db → record_trusted_event db tx event = Ok (u, replay, db') → quality_ok db'.
Proof.
  intros Hok. unfold record_trusted_event, load_existing_event. intros ([] & Hv & H)%bind_Ok.
  destruct (List.find _ _) as [row|].
  { by apply bind_Ok in H as ([] & _ & [= _ _ <-]). }
  apply bind_Ok in H as ([u' db1] & Hnew & [= _ _ <-]).
  apply recorded_event_Ok in Hnew as (m & target & fused & ranked & [Hm Hen Ht Hfu Hra Hids Hst Hoth Hrows Hev Htr]).
  destruct Hev as (r0 & Hr0 & Hid0 & Hev & _). destruct Htr as (outcome & _ & Htr).
  pose proof (members_related _ _ _ _ _ Hfu Hra) as Hmem.
  destruct (apply_event_keeps _ _ _ Ht) as (Htid & Httier & _). simpl in Htid, Httier.
  assert (Hnd : NoDup (state_id <$> (ranked_state <$> ranked))) by (rewrite Hids; apply cohort_ids).
  assert (∀ s0, s0 ∈ cohort db (model_name m) → state_at db (state_id s0) = Some s0) as Hcoh.
  { intros s0 (m0 & Hm0 & _ & E)%elem_of_cohort. unfold state_at. rewrite Hm0. simpl. by rewrite <-E. }
  assert (state_at db (event_model event) = Some (model_state db (event_model event) m)) as Htarget
    by (unfold state_at; by rewrite Hm).
  constructor.
  - intros i s Hs. destruct (decide (i ∈ state_id <$> cohort db (model_name m))) as [Hin|Hnin].
    + rewrite <-Hids, <-list_fmap_compose in Hin. apply list_elem_of_fmap in Hin as (r & -> & Hr). simpl in *.
      rewrite Hst in Hs by done. injection Hs as <-.
      destruct (Hmem r Hr) as (s0 & f & Hs0 & Hsame & Hold & Hearned & _).
      pose proof (Hcoh s0 Hs0) as Hat.
      assert (state_id s0 = state_id (ranked_state r)) as Hid.
      { destruct (Z.eqb_spec (state_id s0) (state_id target)) as [E|];
          injection Hsame as E1; [congruence|done]. }
      pose proof (ok_models _ Hok _ _ Hat) as Hmok. rewrite Hid in Hmok.
      assert (state_tier (ranked_state r)
              = audited_tier (tier_transitions db1) (state_id (ranked_state r))) as Haud.
      { rewrite Htr, audited_after; [|done|exact Hnd|exact Hr]. unfold tier_changed.
        destruct (String.eqb_spec (ranked_old_tier r) (state_tier (ranked_state r))) as [E|]; [simpl|done].
        rewrite <-E, Hold, <-(ok_audited _ _ _ Hmok).
        destruct (Z.eqb_spec (state_id s0) (state_id target)) as [E'|]; [|done].
        rewrite Httier. rewrite Htid in E'. rewrite E', Htarget in Hat. by injection Hat as <-. }
      rewrite Hid in Hsame. destruct (Z.eqb_spec (state_id (ranked_state r)) (state_id target)) as [E|Hne].
      * assert (r = r0) as ->.
        { pose proof (filter_key (state_id ∘ ranked_state) ranked r) as F1.
          pose proof (filter_key (state_id ∘ ranked_state) ranked r0) as F2.
          rewrite list_fmap_compose in F1, F2. specialize (F1 Hnd Hr). specialize (F2 Hnd Hr0).
          simpl in F1, F2. rewrite Hid0 in F2. rewrite E, Htid in F1. rewrite F1 in F2. by injection F2. }
        assert (s0 = model_state db (event_model event) m) as ->.
        { rewrite Hid, Hid0, Htarget in Hat. by injection Hat. }
        rewrite Hid0 in *.
        destruct (target_scores db event (event_request_hash event) (now_v7 tx 0%nat) _ _ _ Hmok Hok Hv Ht Hsame)
          as (S1 & S2 & S3 & S4).
        constructor; rewrite ?Hev; done.
      * destruct (other_scores db (event_row (now_v7 tx 0%nat) event (event_request_hash event)
            (model_state db (event_model event) m) (ranked_state r0)) s0 (ranked_state r)
            (state_id (ranked_state r)) Hmok) as (S1 & S2 & S3 & S4); [|done|].
        { unfold event_row. destruct (event_payload event); simpl; congruence. }
        constructor; rewrite ?Hev; done.
    + rewrite Hoth in Hs by done. pose proof (ok_models _ Hok _ _ Hs) as Hmok.
      assert (event_model event ≠ i) as Hne.
      { intros <-. apply Hnin. rewrite <-Hids, <-Hid0. rewrite <-list_fmap_compose.
        by apply (list_elem_of_fmap_2 (state_id ∘ ranked_state)). }
      destruct (other_scores db (event_row (now_v7 tx 0%nat) event (event_request_hash event)
          (model_state db (event_model event) m) (ranked_state r0)) s s i Hmok) as (S1 & S2 & S3 & S4);
        [unfold event_row; by destruct (event_payload event)|done|].
      constructor; rewrite ?Hev; try done; [apply Hmok|].
      rewrite (ok_audited _ _ _ Hmok), Htr. unfold audited_tier. rewrite List.filter_app.
      rewrite (filter_false _ (rev _)); [done|]. intros t Hrow%list_elem_of_In%in_rev%list_elem_of_In.
      apply elem_of_lookup_imap in Hrow as (k & r & -> & Hk). apply Z.eqb_neq. simpl. intros <-. apply Hnin.
      rewrite <-Hids, <-list_fmap_compose. apply (list_elem_of_fmap_2 (state_id ∘ ranked_state)).
      apply list_elem_of_lookup_2, list_elem_of_In, filter_In in Hk as [Hk _]. by apply list_elem_of_In.
  - intros r Hr. rewrite Hev in Hr. rewrite (same_rows_is_Some db db1) by exact Hrows.
    apply elem_of_cons in Hr as [->|Hr]; [|by apply (ok_events _ Hok)].
    pose proof (validated_payload _ Hv) as Hp. unfold event_row.
    destruct (event_payload event); simpl; rewrite Hm; (split; [done|]).
    + split; [intros _; lia|]. intros v [= <-]. lia.
    + split; [by intros [? ?]|done].
  - intros t Ht'. rewrite (same_rows_is_Some db db1) by exact Hrows. rewrite Htr in Ht'.
    apply elem_of_app in Ht' as [Hrow|Ht']; [|by apply (ok_transitions _ Hok)].
    apply list_elem_of_In, in_rev, list_elem_of_In in Hrow.
    apply elem_of_lookup_imap in Hrow as (k & r & -> & Hk). simpl.
    apply list_elem_of_lookup_2, list_elem_of_In, filter_In in Hk as [Hk _]. apply list_elem_of_In in Hk.
    apply state_at_is_Some. apply state_at_is_Some, (same_rows_is_Some _ _ _ Hrows), state_at_is_Some.
    rewrite (Hst r Hk). by eexists.
Qed.

(** ** Reachable registries *)

(** What writes a row of [models]: an event, and [publish_model] with its two
    outcomes.  A new row has the default columns. *)
Inductive quality_step : QualityDb → QualityDb → Prop :=
| step_event db tx event u replay db' :
    record_trusted_event db tx event = Ok (u, replay, db') → quality_step db db'
| step_inserted db id user request :
    quality_models db !! id = None →
    quality_step db (mkQualityDb (<[id := model_inserted user request]> (quality_models db))
      (delete id (quality_columns db)) (quality_events db) (tier_transitions db))
| step_republished db id user m :
    quality_models db !! id = Some m →
    quality_step db (mkQualityDb (<[id := model_republished user m]> (quality_models db))
      (quality_columns db) (quality_events db) (tier_transitions db)).

Definition quality_empty : QualityDb := mkQualityDb ∅ ∅ [] [].
Definition quality_reachable (db : QualityDb) : Prop := rtc quality_step quality_empty db.

Lemma quality_empty_ok : quality_ok quality_empty.
Proof. constructor; try (by intros ? ?%elem_of_nil). by intros i s. Qed.

(** The audit tables name stored models only. *)
Lemma unstored_measures db id :
  quality_ok db → quality_models db !! id = None →
  measured (quality_events db) id = 0 ∧ compared (quality_events db) id = 0
  ∧ audited_tier (tier_transitions db) id = "medium".
Proof.
  intros Hok Hid. assert (∀ r, r ∈ quality_events db → row_model r ≠ id) as He.
  { intros r Hr <-. destruct (ok_events _ Hok r Hr) as [[? ?] _]. congruence. }
  split_and!.
  - induction (quality_events db) as [|r l IH]; [done|]. unfold measured. simpl. fold (measured l id).
    rewrite (proj2 (Z.eqb_neq _ _)) by (apply He; by left). simpl. apply IH.
    intros x Hx. apply He. by right.
  - induction (quality_events db) as [|r l IH]; [done|]. unfold compared. rewrite countb_cons. fold (compared l id).
    rewrite (proj2 (Z.eqb_neq _ _)) by (apply He; by left). simpl. apply IH.
    intros x Hx. apply He. by right.
  - unfold audited_tier. rewrite filter_false; [done|]. intros t Ht. apply Z.eqb_neq. intros <-.
    destruct (ok_transitions _ Hok t Ht). congruence.
Qed.

Lemma step_keeps_ok db db' : quality_ok db → quality_step db db' → quality_ok db'.
Proof.
  intros Hok Hstep. revert Hok.
  destruct Hstep as [?????? H|? id user request Hid|? id user m Hid]; intros Hok; [exact (event_keeps_ok _ _ _ _ _ _ Hok H)| |].
  - destruct (unstored_measures _ _ Hok Hid) as (U1 & U2 & U3). constructor; simpl.
    + intros i s. unfold state_at, model_state, columns_of. simpl. destruct (decide (i = id)) as [->|Hne].
      * rewrite lookup_insert_eq, lookup_delete_eq. intros [= <-].
        by constructor.
      * rewrite lookup_insert_ne, lookup_delete_ne by done. intros Hs.
        destruct (ok_models _ Hok i s Hs). by constructor.
    + intros r Hr. destruct (ok_events _ Hok r Hr) as [H1 H2]. split; [|done].
      apply lookup_insert_is_Some'. by right.
    + intros t Ht. apply lookup_insert_is_Some'. right. by apply (ok_transitions _ Hok).
  - constructor; simpl.
    + intros i s. unfold state_at, model_state, columns_of. simpl. intros Hs.
      assert (state_at db i = Some s) as Hs'.
      { revert Hs. destruct (decide (i = id)) as [->|Hne].
        - rewrite lookup_insert_eq. unfold state_at. by rewrite Hid.
        - by rewrite lookup_insert_ne by done. }
      destruct (ok_models _ Hok i s Hs'). by constructor.
    + intros r Hr. destruct (ok_events _ Hok r Hr) as [H1 H2]. split; [|done].
      apply lookup_insert_is_Some'. by right.
    + intros t Ht. apply lookup_insert_is_Some'. right. by apply (ok_transitions _ Hok).
Qed.

Lemma reachable_quality_ok db : quality_reachable db → quality_ok db.
Proof.
  intros H. assert (∀ a b, rtc quality_step a b → quality_ok a → quality_ok b) as Hind.
  { intros a b Hab. induction Hab; [done|]. intros Ha. apply IHHab. by eapply step_keeps_ok. }
  apply (Hind _ _ H), quality_empty_ok.
Qed.

(** ** Replays *)

Definition digest_collision : Prop := ∃ a b, a ≠ b ∧ sha256 a = sha256 b.

Lemma hash_field_inj a b x y :
  str_len a < 256 ^ 8 → str_len b < 256 ^ 8 → hash_field a +:+ x = hash_field b +:+ y → a = b ∧ x = y.
Proof.
  intros Ha Hb E. unfold hash_field in E. rewrite !append_assoc in E.
  apply append_same_length_inj in E as [El E]; [|by rewrite !length_string_of_bytes, !length_be_bytes].
  apply string_of_bytes_inj, be_bytes_inj in El;
    [|unfold str_len in *; change (Z.of_nat 8) with 8; lia..|apply be_bytes_range|apply be_bytes_range].
  apply append_same_length_inj in E; [done|]. unfold str_len in El. lia.
Qed.

(** An event the validation accepts, about a 128-bit identifier. *)
Definition event_wf (event : TrustedEvent) : Prop :=
  validate_trusted_event event = Ok tt ∧ 0 ≤ event_model event ≤ u128_max.

Lemma validated_fields event :
  validate_trusted_event event = Ok tt →
  str_len (event_key event) ≤ 128 ∧ str_len (event_evidence event) = 64
  ∧ match event_payload event with
    | Score score samples => 0 ≤ score ≤ 1000000 ∧ 1 ≤ samples ≤ MAX_SCORE_SAMPLES_PER_EVENT
    | Blind rating deviation _ => 0 ≤ rating ≤ 4000000 ∧ 1 ≤ deviation ≤ 350000
    end.
Proof.
  unfold validate_trusted_event, validate_sha256. intros ([] & Hk & H)%bind_Ok.
  apply bind_Ok in H as ([] & He%bail_if_Ok%negb_false_iff & H).
  apply bail_if_Ok, orb_false_iff in Hk as [Hk _]. apply orb_false_iff in Hk as [_ Hk%Z.ltb_ge].
  unfold valid_lower_hex in He. apply andb_true_iff in He as [He%Z.eqb_eq _].
  split; [done|]. split; [done|].
  destruct (event_payload event);
    apply bind_Ok in H as ([] & H1%bail_if_Ok%negb_false_iff%in_range_true
      & H2%bail_if_Ok%negb_false_iff%in_range_true); done.
Qed.

Lemma millionths_inj o o' : millionths o = millionths o' → o = o'.
Proof. by destruct o, o'. Qed.

Lemma event_kind_inj k k' : event_kind_as_str k = event_kind_as_str k' → k = k'.
Proof. by destruct k, k'. Qed.

(** The hashed bytes determine the event. *)
Lemma event_bytes_inj e e' : event_wf e → event_wf e' → event_bytes e = event_bytes e' → e = e'.
Proof.
  intros [Hv Hm] [Hv' Hm'] E. apply validated_fields in Hv as (Hk & He & Hp).
  apply validated_fields in Hv' as (Hk' & He' & Hp').
  assert (∀ k, str_len (event_kind_as_str k) < 256 ^ 8) as Hkind by (by intros []).
  unfold event_bytes in E. apply append_inj_r, append_inj_r in E.
  apply append_same_length_inj in E as [Em%uuid_bytes_inj E]; [|done|done|by rewrite !length_uuid_bytes].
  apply hash_field_inj in E as [Ek%event_kind_inj E]; [|apply Hkind..].
  apply hash_field_inj in E as [Ekey E]; [|lia..]. apply hash_field_inj in E as [Eev E]; [|lia..].
  destruct e as [m k key ev p], e' as [m' k' key' ev' p'].
  cbn [event_model event_kind event_key event_evidence event_payload] in *. subst. f_equal. clear Hk He Hk' He' Hkind.
  assert (∀ t l, 0 ≤ t < 256 → Forall (λ b, 0 ≤ b < 256) l → Forall (λ b, 0 ≤ b < 256) (t :: l)) as Hb
    by (intros; by constructor).
  pose proof be_bytes_range as Hr.
  destruct p as [s n|r d o], p' as [s' n'|r' d' o']; try done; unfold MAX_SCORE_SAMPLES_PER_EVENT in *.
  - apply string_of_bytes_inj in E; [|apply Hb; [lia|by apply Forall_app_2]..]. apply (inj (cons 0)) in E.
    apply app_inj_1 in E as [E1 E2]; [|by rewrite !length_be_bytes].
    apply be_bytes_inj in E1, E2; [congruence|lia..].
  - assert (∀ o, 0 ≤ millionths o < 256 ^ Z.of_nat 4) as Ho by (by intros []).
    apply string_of_bytes_inj in E; [|apply Hb; [lia|apply Forall_app_2; [done|by apply Forall_app_2]]..].
    apply (inj (cons 1)) in E.
    apply app_inj_1 in E as [E1 E]; [|by rewrite !length_be_bytes].
    apply app_inj_1 in E as [E2 E3]; [|by rewrite !length_be_bytes].
    apply be_bytes_inj, millionths_inj in E3; [|apply Ho..].
    apply be_bytes_inj in E1, E2; [congruence|lia..].
Qed.

Lemma event_row_key i event h old new : row_key (event_row i event h old new) = event_key event.
Proof. unfold event_row. by destruct (event_payload event). Qed.

(** The event recorded under a key. *)
Definition recorded (db : QualityDb) (key : string) : option QualityEventRow :=
  List.find (λ r, String.eqb (row_key r) key) (quality_events db).

(** A recorded event stays what its key finds. *)
Lemma step_keeps_recorded db db' key row :
  quality_step db db' → recorded db key = Some row → recorded db' key = Some row.
Proof.
  intros [d tx event u replay d' H| |] Hrow; [|done..]. revert H. unfold record_trusted_event, load_existing_event.
  intros ([] & _ & H)%bind_Ok. destruct (List.find _ _) as [r|] eqn:Hf.
  { by apply bind_Ok in H as ([] & _ & [= _ _ <-]). }
  apply bind_Ok in H as ([u' d1] & Hnew & [= _ _ <-]).
  apply recorded_event_Ok in Hnew as (m & target & fused & ranked & Heff).
  destruct (effect_event _ _ _ _ _ _ _ _ _ _ Heff) as (r & _ & _ & E & _).
  unfold recorded in *. rewrite E. simpl. rewrite event_row_key.
  destruct (String.eqb_spec (event_key event) key) as [<-|]; [congruence|done].
Qed.

Lemma run_keeps_recorded db db' key row :
  rtc quality_step db db' → recorded db key = Some row → recorded db' key = Some row.
Proof.
  intros H. induction H as [|a b c Hab _ IH]; [done|]. intros Ha. by eapply IH, step_keeps_recorded.
Qed.

(** What an answered event left under its key. *)
Lemma answered_recorded db tx event u replay db' :
  record_trusted_event db tx event = Ok (u, replay, db') →
  ∃ row, recorded db' (event_key event) = Some row ∧ row_request_hash row = event_request_hash event
    ∧ u = update_from_state (row_id row) (row_kind row) (row_new row).
Proof.
  unfold record_trusted_event, load_existing_event. intros ([] & Hv & H)%bind_Ok.
  destruct (List.find _ _) as [r|] eqn:Hf.
  - apply bind_Ok in H as ([] & Hh%bail_if_Ok%negb_false_iff%String.eqb_eq & [= <- _ <-]).
    exists r. by split_and!.
  - apply bind_Ok in H as ([u' d1] & Hnew & [= <- _ <-]).
    apply recorded_event_Ok in Hnew as (m & target & fused & ranked & Heff).
    destruct (effect_event _ _ _ _ _ _ _ _ _ _ Heff) as (r & _ & _ & E & ->).
    eexists. unfold recorded. rewrite E. simpl. split.
    + by rewrite event_row_key, String.eqb_refl.
    + unfold event_row. by destruct (event_payload event).
Qed.

(** C18: What a model is ranked on is what its trusted events measured. In
    whatever order events and publications reach the registry, every stored
    model has as many benchmark samples and blind comparisons as its recorded
    events say, its benchmark lies between the lowest and the highest score they
    report, its tier is the last its audit trail names ("medium" when none
    does), and a high or low tier has the samples and the fused score the
    policy asks of it. *)
Theorem quality_follows_events db id s :
  quality_reachable db → state_at db id = Some s →
  state_benchmark_samples s = measured (quality_events db) id
  ∧ state_evaluation_samples s = compared (quality_events db) id
  ∧ (∀ lo hi,
      (∀ r v, r ∈ quality_events db → row_model r = id → row_score r = Some v → lo ≤ v ≤ hi) →
      0 < state_benchmark_samples s → lo ≤ state_benchmark s ≤ hi)
  ∧ state_tier s = audited_tier (tier_transitions db) id
  ∧ (state_tier s = "high" →
       minimum_samples tier_policy_default ≤ compared (quality_events db) id
       ∧ f64_ge (millionths_f64 (state_fusion s)) (high_exit tier_policy_default) = true)
  ∧ (state_tier s = "low" →
       minimum_samples tier_policy_default ≤ compared (quality_events db) id
       ∧ f64_le (millionths_f64 (state_fusion s)) (low_exit tier_policy_default) = true).
Proof.
  intros Hr Hs. destruct (ok_models _ (reachable_quality_ok _ Hr) _ _ Hs) as [H1 H2 H3 _ [H4 H5] H6].
  rewrite <-H2. exact (conj H1 (conj eq_refl (conj H3 (conj H6 (conj H4 H5))))).
Qed.

(** C19: A new event re-ranks the cohort of its model and nothing else. Every
    enabled model of that name is fused afresh, the one of the event from the
    scores the event gives it, and classified by its place among all fused
    scores, and that is what is stored; every other model keeps its scores and
    tier, and no model changes its name, owner, weights or price. One event row
    holds the scores before and after, and one transition row is written for
    each member whose tier changed, naming the size of the cohort. *)
Theorem event_ranks_cohort db tx event u db' :
  record_trusted_event db tx event = Ok (u, false, db') →
  ∃ m target fused ranked outcome row,
    quality_models db !! event_model event = Some m ∧ enabled m = true
    ∧ apply_event_to_target (model_state db (event_model event) m) (event_payload event) = Ok target
    ∧ state_id <$> (ranked_state <$> ranked) = state_id <$> cohort db (model_name m)
    ∧ length fused = length ranked
    ∧ (∀ r, r ∈ ranked → state_at db' (state_id (ranked_state r)) = Some (ranked_state r)
         ∧ ∃ s0 f, s0 ∈ cohort db (model_name m) ∧ f ∈ fused
             ∧ fuse_state (if state_id s0 =? state_id target then target else s0) = Ok f
             ∧ rank_state (state_fusion <$> fused) f = Ok r)
    ∧ (∀ i, i ∉ state_id <$> cohort db (model_name m) → state_at db' i = state_at db i)
    ∧ same_rows db db'
    ∧ quality_events db' = row :: quality_events db
    ∧ row_key row = event_key event ∧ row_request_hash row = event_request_hash event
    ∧ row_old row = model_state db (event_model event) m
    ∧ state_at db' (event_model event) = Some (row_new row) ∧ update_state u = row_new row
    ∧ cohort_size outcome = Z.of_nat (length ranked)
    ∧ tier_transitions db' = rev (imap (λ i r,
        transition_row (now_v7 tx (S i)) (row_id row) (model_name m) outcome r)
        (List.filter tier_changed ranked)) ++ tier_transitions db.
Proof.
  unfold record_trusted_event, load_existing_event. intros ([] & _ & H)%bind_Ok. destruct (List.find _ _) as [r|].
  { by apply bind_Ok in H as ([] & _ & [=]). }
  apply bind_Ok in H as ([u' d1] & Hnew & [= <- <-]).
  apply recorded_event_Ok in Hnew as (m & target & fused & ranked & [Hm Hen Ht Hfu Hra Hids Hst Hoth Hrows Hev Htr]).
  destruct Hev as (r0 & Hr0 & Hid0 & Hev & ->). destruct Htr as (outcome & Hsize & Htr).
  exists m, target, fused, ranked, outcome, (event_row (now_v7 tx 0%nat) event (event_request_hash event)
    (model_state db (event_model event) m) (ranked_state r0)).
  rewrite <-Hid0, (Hst r0 Hr0), Hid0.
  split; [exact Hm|]. split; [exact Hen|]. split; [exact Ht|]. split; [exact Hids|].
  split; [exact (Forall2_length _ _ _ Hra)|]. split.
  { intros r Hr. split; [by apply Hst|].
    destruct (members_related _ _ _ _ _ Hfu Hra r Hr) as (s0 & f & H1 & _ & _ & _ & H2 & H3 & H4).
    exists s0, f. exact (conj H1 (conj H2 (conj H3 H4))). }
  split; [exact Hoth|]. split; [exact Hrows|]. split; [exact Hev|].
  unfold event_row. destruct (event_payload event); by repeat (split; [done|]).
Qed.

(** C20: A trusted event counts once. Once it is answered, and whatever is
    recorded or published after it, sending it again answers the same update,
    flagged as a replay, and changes nothing; and whoever is answered under the
    same key sent that same event, unless SHA-256 has a collision. *)
Theorem quality_event_once db tx event u replay db' :
  record_trusted_event db tx event = Ok (u, replay, db') → 0 ≤ event_model event ≤ u128_max →
  ∀ later tx', rtc quality_step db' later →
    record_trusted_event later tx' event = Ok (u, true, later)
    ∧ ∀ other u' replay' later', event_key other = event_key event →
        0 ≤ event_model other ≤ u128_max →
        record_trusted_event later tx' other = Ok (u', replay', later') →
        (u', replay', later') = (u, true, later) ∧ (other = event ∨ digest_collision).
Proof.
  intros Hx Hid later tx' Hrun. destruct (answered_recorded _ _ _ _ _ _ Hx) as (row & Hrow & Hh & ->).
  apply (run_keeps_recorded _ _ _ _ Hrun) in Hrow.
  unfold record_trusted_event, load_existing_event in Hx. apply bind_Ok in Hx as ([] & Hv & _).
  split; [|intros other u' replay' later' Hk Hid' Hy]; unfold record_trusted_event, load_existing_event in *.
  - rewrite Hv. simpl. unfold recorded in Hrow. rewrite Hrow, Hh, String.eqb_refl. done.
  - apply bind_Ok in Hy as ([] & Hv' & Hy). unfold recorded in Hrow. rewrite Hk, Hrow in Hy.
    apply bind_Ok in Hy as ([] & E%bail_if_Ok%negb_false_iff%String.eqb_eq & [= <- <- <-]).
    split; [done|]. rewrite Hh in E. apply hex_encode_inj in E.
    destruct (decide (event_bytes event = event_bytes other)) as [Eb|Hne]; [left|right; by eexists _, _].
    symmetry. by apply event_bytes_inj.
Qed.
End runs.
