(* ===== verification/QualityWitnesses.v ===== *)
(** * The theorems on quality events at a concrete run

    Two owners publish weights of one name; the first is measured on a hidden
    benchmark, the second fails a canary, and the measurement is sent again. *)
From S2P Require Import Prelude Text Net Float64 Fixed Tier Glicko2 AntiAbuse StandardData Store Api Postings Tables NodeRequests Models Quality QualitySpec.

Local Open Scope string_scope.
Local Open Scope list_scope.
Local Open Scope Z_scope.

(** Concrete elementary functions: every exponential is the default volatility. *)
Local Instance level_libm : Libm := {
  exp _ := f64_lit 6 100;
  ln _ := f64_of_Z (-3);
  hypot x y := f64_add x y;
  powi x _ := f64_mul x x;
}.

Definition tiny_weights (digit : string) : string := String.concat "" (repeat digit 64).
Definition tiny_request (digit : string) : PublishModelRequest :=
  mkPublish 1 "tiny" "tiny-1" "gguf" (tiny_weights digit) 1024 4096 0 0 0 1000000 ["chat"].

Definition quality_tx (n : Z) : Tx :=
  mkTx n (λ i, 1000 * n + Z.of_nat i) (λ _, n) "".

Definition two_models : QualityDb :=
  mkQualityDb (<[12 := model_inserted 8 (tiny_request "b")]> (<[11 := model_inserted 7 (tiny_request "a")]> ∅))
    (delete 12 (delete 11 ∅)) [] [].

Definition measured_event : TrustedEvent :=
  hidden_benchmark_event 11 "benchmark-1" (tiny_weights "c") 900000 40.
Definition failed_event : TrustedEvent := canary_event 12 "canary-1" (tiny_weights "d") false.

Definition no_update : QualityUpdate :=
  mkUpdate 0 "" (mkQualityState 0 0 0 0 0 0 0 0 0 "") false.
Definition record_default (r : QualityResult (QualityUpdate * bool * QualityDb)) :=
  ok_default (no_update, false, two_models) r.

Definition after_measured := record_default (record_trusted_event two_models (quality_tx 1) measured_event).
Definition after_failed :=
  record_default (record_trusted_event after_measured.2 (quality_tx 2) failed_event).

Lemma measured_eq :
  record_trusted_event two_models (quality_tx 1) measured_event
  = Ok (after_measured.1.1, false, after_measured.2).
Proof.
  assert (record_trusted_event two_models (quality_tx 1) measured_event = Ok after_measured) as E
    by (apply is_ok_Ok; vm_cast_no_check (eq_refl true)).
  rewrite E. assert (after_measured.1.2 = false) as F by vm_cast_no_check (eq_refl false).
  destruct after_measured as [[u r] db]. simpl in F |- *. congruence.
Qed.

Lemma failed_eq :
  record_trusted_event after_measured.2 (quality_tx 2) failed_event = Ok after_failed.
Proof. apply is_ok_Ok. vm_cast_no_check (eq_refl true). Qed.

Lemma measured_reachable : quality_reachable after_measured.2.
Proof.
  eapply rtc_l; [apply (step_inserted quality_empty 11 7 (tiny_request "a")); reflexivity|].
  eapply rtc_l; [apply (step_inserted _ 12 8 (tiny_request "b")); reflexivity|].
  apply rtc_once. exact (step_event _ _ _ _ _ _ measured_eq).
Qed.

Lemma failed_step : quality_step after_measured.2 after_failed.2.
Proof.
  apply (step_event _ (quality_tx 2) failed_event after_failed.1.1 after_failed.1.2).
  rewrite failed_eq. by destruct after_failed as [[u r] db].
Qed.

Lemma failed_reachable : quality_reachable after_failed.2.
Proof. eapply rtc_r; [apply measured_reachable|apply failed_step]. Qed.

Definition no_state : ModelQualityState := update_state no_update.
Definition measured_state : ModelQualityState := default no_state (state_at after_failed.2 11).

Definition score_is (v id : Z) (r : QualityEventRow) : bool :=
  negb (row_model r =? id) || match row_score r with Some v' => v' =? v | None => true end.

Lemma score_is_spec v id events :
  forallb (score_is v id) events = true →
  ∀ r v', r ∈ events → row_model r = id → row_score r = Some v' → v ≤ v' ≤ v.
Proof.
  rewrite forallb_forall. intros H r v' Hr%list_elem_of_In <- Hv. specialize (H r Hr).
  unfold score_is in H. rewrite Z.eqb_refl, Hv in H. simpl in H. lia.
Qed.

Lemma quality_follows_events_witness :
  state_at after_failed.2 11 = Some measured_state
  ∧ state_benchmark_samples measured_state = 40 ∧ 900000 ≤ state_benchmark measured_state ≤ 900000.
Proof.
  assert (state_at after_failed.2 11 = Some measured_state) as E by (vm_compute; reflexivity).
  destruct (quality_follows_events _ 11 _ failed_reachable E) as (H1 & _ & H3 & _).
  assert (measured (quality_events after_failed.2) 11 = 40) as M by (vm_compute; reflexivity).
  assert (state_benchmark_samples measured_state = 40) as S by congruence.
  split; [exact E|]. split; [exact S|]. apply H3; [|lia].
  apply score_is_spec. vm_cast_no_check (eq_refl true).
Defined.

Lemma event_ranks_cohort_witness :
  tier_transitions after_measured.2 = [] ∧ state_at after_measured.2 12 = state_at two_models 12
  ∧ ∃ row, quality_events after_measured.2 = [row] ∧ state_at after_measured.2 11 = Some (row_new row).
Proof.
  split; [vm_compute; reflexivity|]. split; [vm_compute; reflexivity|].
  destruct (event_ranks_cohort _ _ _ _ _ measured_eq)
    as (m & target & fused & ranked & outcome & row & _ & _ & _ & _ & _ & _ & _ & _ & H1 & _ & _ & _ & H2 & _).
  exists row. exact (conj H1 H2).
Defined.

Lemma quality_event_once_witness :
  record_trusted_event after_failed.2 (quality_tx 3) measured_event
  = Ok (after_measured.1.1, true, after_failed.2).
Proof.
  refine (proj1 (quality_event_once _ _ _ _ _ _ measured_eq _ after_failed.2 (quality_tx 3) _)).
  - split; discriminate.
  - apply rtc_once. exact failed_step.
Defined.

(** A name that may be published and whose tiers may not be audited: a control
    character inside it passes [validate_publish], and the CHECK of migration
    0025 refuses it, so no event that moves a tier of that name is recorded. *)
Definition tabbed_request : PublishModelRequest :=
  mkPublish 1 ("ti" +:+ String (Ascii.ascii_of_nat 9) "ny") "tiny-1" "gguf" (tiny_weights "a") 1024 4096 0 0 0
    1000000 ["chat"].

Lemma tabbed_name_unaudited :
  validate_publish tabbed_request = Ok tt
  ∧ ∀ (db : QualityDb) (t : TransitionRow),
      transition_cohort t = model_name (model_inserted 7 tabbed_request) → insert_transition db t = Err Database.
Proof.
  split; [vm_compute; reflexivity|]. intros db t Ht. unfold insert_transition, transition_check.
  rewrite Ht. assert (cohort_name_check (model_name (model_inserted 7 tabbed_request)) = false) as ->
    by (vm_compute; reflexivity). reflexivity.
Qed.
