(* ===== verification/IdentitySpec.v ===== *)
(** * Identities: what the tables promise

    Every handler that touches identities is a sequence of [change]s, each a
    row that enters a table or a table whose rows are kept.  A change keeps the
    invariant [identity_ok] of the tables and moves the rows only forward
    ([moves]): a login ends once, a revocation stays, a key column never
    changes.  [IdentityRuns] follows the handlers over time. *)
From S2P Require Import Prelude Text Net Ledger StandardData Store Api Postings JobOps Tables NodeRequests Nodes Identity AuthRoutes WebAuth ApiKeys.

Local Open Scope string_scope.
Local Open Scope list_scope.
Local Open Scope Z_scope.

(** ** Rows and tables *)

Lemma find_row_Some {A} (p : A → bool) t i a :
  find_row p t = Some (i, a) → t !! i = Some a ∧ p a = true.
Proof.
  unfold find_row. intros H%head_Some_elem_of%list_elem_of_In%filter_In.
  destruct H as [H Hp]. split; [|done]. by apply elem_of_map_to_list, list_elem_of_In.
Qed.

Lemma find_row_None {A} (p : A → bool) t :
  find_row p t = None → ∀ i a, t !! i = Some a → p a = false.
Proof.
  unfold find_row. intros H%head_None i a Ha. destruct (p a) eqn:E; [|done].
  assert (In (i, a) (List.filter (λ r, p r.2) (map_to_list t))) as Hin.
  { apply filter_In. split; [|done]. by apply list_elem_of_In, elem_of_map_to_list. }
  rewrite H in Hin. by destruct Hin.
Qed.

Lemma has_row_false {A} (p : A → bool) t :
  has_row p t = false → ∀ i a, t !! i = Some a → p a = false.
Proof.
  unfold has_row. intros H%bool_decide_eq_false%eq_None_not_Some. by apply find_row_None.
Qed.

(** No two rows clash. *)
Definition unique {A} (clash : A → A → Prop) (t : gmap Z A) : Prop :=
  ∀ i j a b, t !! i = Some a → t !! j = Some b → clash a b → i = j.

Lemma unique_put {A} (clash : A → A → Prop) t k a :
  (∀ x y, clash x y → clash y x) → unique clash t →
  (∀ i x, t !! i = Some x → clash x a → i = k) → unique clash (<[k := a]> t).
Proof.
  intros Hs Hu Ha i j x y. rewrite !lookup_insert_Some.
  intros [[<- <-]|[Hi Hx]] [[<- <-]|[Hj Hy]] E; [done|symmetry|..]; eauto.
Qed.

(** The same rows, each kept. *)
Definition rows_kept {A} (R : A → A → Prop) (t t' : gmap Z A) : Prop :=
  ∀ i, match t !! i, t' !! i with Some a, Some b => R a b | None, None => True | _, _ => False end.

Lemma rows_kept_old {A} (R : A → A → Prop) t t' i b :
  rows_kept R t t' → t' !! i = Some b → ∃ a, t !! i = Some a ∧ R a b.
Proof. intros H Hb. specialize (H i). rewrite Hb in H. destruct (t !! i) as [a|]; [by exists a|done]. Qed.

Lemma rows_kept_all {A} (R : A → A → Prop) t t' : rows_kept R t t' → all_kept R t t'.
Proof. intros H i a Ha. specialize (H i). rewrite Ha in H. destruct (t' !! i) as [b|]; [by exists b|done]. Qed.

Lemma rows_kept_alter {A} (R : A → A → Prop) f k t :
  (∀ a, R a a) → (∀ a, t !! k = Some a → R a (f a)) → rows_kept R t (alter f k t).
Proof.
  intros Hr Hf i. destruct (decide (i = k)) as [->|Hne].
  - rewrite lookup_alter_eq. destruct (t !! k) as [a|] eqn:E; simpl; [by apply Hf|done].
  - rewrite lookup_alter_ne by done. destruct (t !! i); [apply Hr|done].
Qed.

Lemma rows_kept_put {A} (R : A → A → Prop) k a b t :
  (∀ a, R a a) → t !! k = Some a → R a b → rows_kept R t (<[k := b]> t).
Proof.
  intros Hr Ha Hab i. destruct (decide (i = k)) as [->|Hne].
  - by rewrite lookup_insert_eq, Ha.
  - rewrite lookup_insert_ne by done. destruct (t !! i); [apply Hr|done].
Qed.

Lemma rows_kept_fmap {A} (R : A → A → Prop) f t : (∀ a, R a (f a)) → rows_kept R t (f <$> t).
Proof. intros H i. rewrite lookup_fmap. destruct (t !! i); simpl; [apply H|done]. Qed.

Lemma unique_kept {A} (R clash : A → A → Prop) t t' :
  (∀ a b x y, R a x → R b y → clash x y → clash a b) →
  rows_kept R t t' → unique clash t → unique clash t'.
Proof.
  intros Hc H Hu i j x y Hx Hy E. eapply rows_kept_old in Hx as (a & Ha & Rx); [|done].
  eapply rows_kept_old in Hy as (b & Hb & Ry); [|done]. by eapply Hu; eauto.
Qed.

(** ** What a row keeps for ever *)

Definition stays {A} (o o' : option A) : Prop := ∀ a, o = Some a → o' = Some a.

#[export] Instance stays_preorder {A} : PreOrder (@stays A).
Proof. split; [by intros o a|]. intros a b c H1 H2 x Hx. auto. Qed.

Definition user_kept (u v : UserRow) : Prop :=
  (user_provider v, provider_subject v, Identity.email v, password_hash v)
    = (user_provider u, provider_subject u, Identity.email u, password_hash u)
  ∧ stays (email_verified_at u) (email_verified_at v).

Definition session_kept (s s' : SessionRow) : Prop :=
  (session_user s', session_device s', session_created_at s')
    = (session_user s, session_device s, session_created_at s)
  ∧ stays (session_revoked_at s) (session_revoked_at s').

(** The change of a session that leaves its tokens alone. *)
Definition session_touched (s s' : SessionRow) : Prop :=
  session_kept s s'
  ∧ (access_token_hash s', refresh_token_hash s') = (access_token_hash s, refresh_token_hash s).

Definition flow_kept (f g : FlowRow) : Prop :=
  (flow_provider g, provider_device_code g, flow_user_code g, flow_expires_at g)
    = (flow_provider f, provider_device_code f, flow_user_code f, flow_expires_at f)
  ∧ (device_public_key g, device_key_fingerprint_of g, device_key_algorithm g)
    = (device_public_key f, device_key_fingerprint_of f, device_key_algorithm f)
  ∧ (flow_status g = "pending" → flow_status f = "pending" ∧ device_key_challenge g = device_key_challenge f)
  ∧ stays (email_authorized f) (email_authorized g).

Definition key_kept (k k' : DeviceKeyRow) : Prop :=
  (key_user k', key_fingerprint k', key_created_at k')
    = (key_user k, key_fingerprint k, key_created_at k).

Definition verification_kept (v w : VerificationRow) : Prop :=
  (verification_user w, verification_hash w) = (verification_user v, verification_hash v)
  ∧ (is_Some (used_at v) → is_Some (used_at w)).

Definition api_key_kept (k k' : ApiKeyRow) : Prop :=
  (api_key_user k', created_by_session k', api_key_device k')
    = (api_key_user k, created_by_session k, api_key_device k)
  ∧ (api_key_name k', key_hash k') = (api_key_name k, key_hash k)
  ∧ stays (api_key_revoked_at k) (api_key_revoked_at k').

#[export] Instance user_kept_preorder : PreOrder user_kept.
Proof.
  split; [by intros u|]. intros a b c [E1 H1] [E2 H2]. split; [congruence|by etrans].
Qed.
#[export] Instance session_kept_preorder : PreOrder session_kept.
Proof.
  split; [by intros u|]. intros a b c [E1 H1] [E2 H2]. split; [congruence|by etrans].
Qed.
#[export] Instance session_touched_preorder : PreOrder session_touched.
Proof.
  split; [by intros u|]. intros a b c [E1 H1] [E2 H2]. split; [by etrans|congruence].
Qed.
#[export] Instance flow_kept_preorder : PreOrder flow_kept.
Proof.
  split; [by intros f|]. intros a b c (E1 & E2 & E3 & E4) (F1 & F2 & F3 & F4).
  split; [congruence|]. split; [congruence|]. split; [|by etrans].
  intros (Hb & Ec)%F3. apply E3 in Hb as [? ?]. split; [done|congruence].
Qed.
#[export] Instance key_kept_preorder : PreOrder key_kept.
Proof. split; [by intros k|]. intros a b c E F. unfold key_kept in *. congruence. Qed.
#[export] Instance verification_kept_preorder : PreOrder verification_kept.
Proof. split; [by intros k|]. intros a b c [E H] [F G]. split; [congruence|auto]. Qed.
#[export] Instance api_key_kept_preorder : PreOrder api_key_kept.
Proof.
  split; [by intros k|]. intros a b c (E1 & E2 & E3) (F1 & F2 & F3).
  split; [congruence|]. split; [congruence|by etrans].
Qed.

Record moves (db db' : IdDb) : Prop := mkMoves {
  mv_users : all_kept user_kept (users db) (users db');
  mv_sessions : all_kept session_kept (sessions db) (sessions db');
  mv_flows : all_kept flow_kept (flows db) (flows db');
  mv_keys : all_kept key_kept (device_keys db) (device_keys db');
  mv_verifications : all_kept verification_kept (verifications db) (verifications db');
  mv_api_keys : all_kept api_key_kept (api_keys db) (api_keys db');
}.

#[export] Instance moves_preorder : PreOrder moves.
Proof.
  split; [intros db; split; apply all_kept_refl; intros ?; reflexivity|].
  intros a b c [] []. split; eapply all_kept_trans; try eassumption; apply _.
Qed.

(** ** The invariant *)

Section identity.
Context `{C : Crypto, ED : Ed25519} (cfg : AuthConfig).

(** Where tokens come from: their stored hashes are those of a text with the
    prefix of its kind. *)
Definition minted (prefix hash : string) : Prop :=
  ∃ bytes, hash = token_hash cfg (random_token prefix bytes).

Definition same_account (u v : UserRow) : Prop :=
  user_provider u = user_provider v ∧ provider_subject u = provider_subject v.
Definition same_mailbox (u v : UserRow) : Prop :=
  Identity.email u ≠ None ∧ Identity.email u = Identity.email v.
Definition same_access (s t : SessionRow) : Prop := access_token_hash s = access_token_hash t.
Definition same_refresh (s t : SessionRow) : Prop := refresh_token_hash s = refresh_token_hash t.
Definition same_key (k l : DeviceKeyRow) : Prop :=
  key_user k = key_user l ∧ key_fingerprint k = key_fingerprint l.
Definition same_code (f g : FlowRow) : Prop :=
  flow_provider f = "email" ∧ flow_provider g = "email"
  ∧ provider_device_code f = provider_device_code g.
Definition same_user_code (f g : FlowRow) : Prop :=
  (flow_provider f = "email" ∧ flow_status f = "pending")
  ∧ (flow_provider g = "email" ∧ flow_status g = "pending") ∧ flow_user_code f = flow_user_code g.
Definition same_token (v w : VerificationRow) : Prop := verification_hash v = verification_hash w.
Definition same_api_key (k l : ApiKeyRow) : Prop := key_hash k = key_hash l.
Definition same_name (k l : ApiKeyRow) : Prop :=
  api_key_user k = api_key_user l ∧ api_key_name k = api_key_name l.

(** A mailbox account is named by its mailbox. *)
Definition user_ok (u : UserRow) : Prop :=
  if String.eqb (user_provider u) "email"
  then Identity.email u = Some (provider_subject u) ∧ is_Some (password_hash u)
  else Identity.email u = None ∧ email_verified_at u = None.

(** A session belongs to a user and to a device key of that user. *)
Definition session_ok (db : IdDb) (s : SessionRow) : Prop :=
  is_Some (users db !! session_user s)
  ∧ (∀ d, session_device s = Some d →
       ∃ k, device_keys db !! d = Some k ∧ key_user k = session_user s).
Definition session_minted (s : SessionRow) : Prop :=
  minted "mna_" (access_token_hash s) ∧ minted "mnr_" (refresh_token_hash s).

(** A key is an Ed25519 key under its own fingerprint. *)
Definition key_ok (k : DeviceKeyRow) : Prop :=
  key_algorithm k = ED25519
  ∧ ∃ b, decode_lower_hex DEVICE_PUBLIC_KEY_BYTES (key_public k) = Some b
      ∧ device_key_fingerprint b = key_fingerprint k.
Definition key_owned (db : IdDb) (k : DeviceKeyRow) : Prop := is_Some (users db !! key_user k).

(** A confirmed mailbox login names a verified mailbox account. *)
Definition flow_ok (db : IdDb) (f : FlowRow) : Prop :=
  ∀ u t, email_authorized f = Some (u, t) →
    flow_provider f = "email"
    ∧ ∃ a, users db !! u = Some a ∧ user_provider a = "email" ∧ is_Some (email_verified_at a).

Definition verification_ok (db : IdDb) (v : VerificationRow) : Prop :=
  ∃ u, users db !! verification_user v = Some u ∧ user_provider u = "email".

(** An API key was made by a session, for its user and on its device. *)
Definition api_key_ok (db : IdDb) (k : ApiKeyRow) : Prop :=
  minted "mok_" (key_hash k)
  ∧ ∃ s, sessions db !! created_by_session k = Some s ∧ session_user s = api_key_user k
      ∧ session_device s = Some (api_key_device k).

Record identity_ok (db : IdDb) : Prop := mkIdentityOk {
  ok_accounts : unique same_account (users db);
  ok_mailboxes : unique same_mailbox (users db);
  ok_users : map_Forall (λ _, user_ok) (users db);
  ok_access : unique same_access (sessions db);
  ok_refresh : unique same_refresh (sessions db);
  ok_sessions : map_Forall (λ _, session_ok db) (sessions db);
  ok_minted : map_Forall (λ _, session_minted) (sessions db);
  ok_codes : unique same_code (flows db);
  ok_user_codes : unique same_user_code (flows db);
  ok_flows : map_Forall (λ _, flow_ok db) (flows db);
  ok_keys_unique : unique same_key (device_keys db);
  ok_keys : map_Forall (λ _, key_ok) (device_keys db);
  ok_owned : map_Forall (λ _, key_owned db) (device_keys db);
  ok_tokens : unique same_token (verifications db);
  ok_verifications : map_Forall (λ _, verification_ok db) (verifications db);
  ok_api_hashes : unique same_api_key (api_keys db);
  ok_names : unique same_name (api_keys db);
  ok_api_keys : map_Forall (λ _, api_key_ok db) (api_keys db);
  ok_books : books_ok (id_books db);
}.

(** ** Changes *)

(** A row enters: its identifier is new and it clashes with nothing. *)
Definition enters {A} (t : gmap Z A) (id : Z) (a : A) (clashes : list (A → A → Prop)) : Prop :=
  t !! id = None ∧ ∀ clash, clash ∈ clashes → ∀ i x, t !! i = Some x → ¬ clash x a.

(** Which steps start a flow, issue tokens, confirm a login or verify a mailbox: no plain one.  Only a
    mailbox account is ever verified; a login is confirmed for a verified one; the key under a fingerprint is replaced by a key with it. *)
Inductive Kind : Type := Plain | Starts | Issues (d : Draws) | Confirms | Verifies.
Definition issues (k : Kind) (s : SessionRow) : Prop :=
  ∃ d, k = Issues d ∧ access_token_hash s = issued_access_hash (issue cfg d)
    ∧ refresh_token_hash s = issued_refresh_hash (issue cfg d).
Definition user_change (k : Kind) (u v : UserRow) : Prop :=
  user_kept u v
  ∧ (k = Verifies ∧ user_provider u = "email" ∨ email_verified_at v = email_verified_at u).
Definition flow_change (k : Kind) (db : IdDb) (f g : FlowRow) : Prop :=
  flow_kept f g ∧ (email_authorized g = email_authorized f ∨ (k = Confirms ∧ flow_ok db g)).
Definition key_change (k k' : DeviceKeyRow) : Prop :=
  key_kept k k'
  ∧ ((key_public k', key_algorithm k') = (key_public k, key_algorithm k) ∨ key_ok k').

Inductive change (kind : Kind) : IdDb → IdDb → Prop :=
| change_user db id u :
    enters (users db) id u [same_account; same_mailbox] → user_ok u → email_verified_at u = None →
    change kind db (with_users db (<[id := u]> (users db)))
| change_users db t :
    rows_kept (user_change kind) (users db) t → change kind db (with_users db t)
| change_session db id s :
    enters (sessions db) id s [same_access; same_refresh] → session_ok db s → issues kind s →
    change kind db (with_sessions db (<[id := s]> (sessions db)))
| change_sessions db t :
    rows_kept session_touched (sessions db) t → change kind db (with_sessions db t)
| change_rotation db id s s' :
    sessions db !! id = Some s → session_kept s s' → issues kind s' →
    (∀ i x, sessions db !! i = Some x → i ≠ id → ¬ same_access x s' ∧ ¬ same_refresh x s') →
    change kind db (with_sessions db (<[id := s']> (sessions db)))
| change_flow db id f :
    kind = Starts → enters (flows db) id f [same_code; same_user_code] → email_authorized f = None →
    change kind db (with_flows db (<[id := f]> (flows db)))
| change_flows db t :
    rows_kept (flow_change kind db) (flows db) t → change kind db (with_flows db t)
| change_key db id k :
    enters (device_keys db) id k [same_key] → key_ok k → key_owned db k →
    change kind db (with_device_keys db (<[id := k]> (device_keys db)))
| change_keys db t :
    rows_kept key_change (device_keys db) t → change kind db (with_device_keys db t)
| change_verification db id v :
    enters (verifications db) id v [same_token] → verification_ok db v →
    change kind db (with_verifications db (<[id := v]> (verifications db)))
| change_verifications db t :
    rows_kept verification_kept (verifications db) t → change kind db (with_verifications db t)
| change_api_key db id k :
    enters (api_keys db) id k [same_api_key; same_name] → api_key_ok db k →
    change kind db (with_api_keys db (<[id := k]> (api_keys db)))
| change_api_keys db t :
    rows_kept api_key_kept (api_keys db) t → change kind db (with_api_keys db t)
| change_events db e : change kind db (with_key_events db e)
| change_books db b : (books_ok (id_books db) → books_ok b) → change kind db (with_id_books db b).

Lemma enters_kept {A} (R : A → A → Prop) `{!Reflexive R} t id a clashes :
  enters t id a clashes → all_kept R t (<[id := a]> t).
Proof. intros [Hn _]. apply all_kept_insert; [done|]. intros b Hb. congruence. Qed.

Lemma enters_unique {A} (clash : A → A → Prop) t id a clashes :
  (∀ x y, clash x y → clash y x) → clash ∈ clashes → enters t id a clashes →
  unique clash t → unique clash (<[id := a]> t).
Proof. intros Hs Hin [_ Hc] Hu. apply unique_put; [done..|]. intros i x Hx E. by destruct (Hc _ Hin i x Hx). Qed.

Lemma all_kept_weaken {A} (R S : A → A → Prop) t t' :
  (∀ a b, R a b → S a b) → all_kept R t t' → all_kept S t t'.
Proof. intros H HR i a Ha. destruct (HR i a Ha) as (b & Hb & Hab). eauto. Qed.

Lemma change_moves k db db' : change k db db' → moves db db'.
Proof.
  intros []; split; simpl; try (apply all_kept_refl; intros ?; reflexivity);
    try (by eapply enters_kept; [apply _|]); try (by apply rows_kept_all);
    try (eapply all_kept_weaken; [|by apply rows_kept_all]; by intros ? ? [? _]).
  - apply all_kept_insert; [done|]. intros b Hb. by simplify_eq.
Qed.

Lemma map_Forall_put {A} (P : A → Prop) (t : gmap Z A) k a :
  P a → map_Forall (λ _, P) t → map_Forall (λ _, P) (<[k := a]> t).
Proof. intros. by apply map_Forall_insert_2. Qed.

Lemma map_Forall_kept {A} (R : A → A → Prop) (P Q : A → Prop) t t' :
  rows_kept R t t' → (∀ a b, R a b → P a → Q b) → map_Forall (λ _, P) t → map_Forall (λ _, Q) t'.
Proof.
  intros H HR HP i b Hb. destruct (rows_kept_old _ _ _ _ _ H Hb) as (a & Ha & Hab).
  by eapply HR; [|eapply HP].
Qed.

Lemma map_Forall_mono {A} (P Q : A → Prop) (t : gmap Z A) :
  (∀ a, P a → Q a) → map_Forall (λ _, P) t → map_Forall (λ _, Q) t.
Proof. intros H HP i a Ha. apply H. by eapply HP. Qed.

(** *** The foreign keys hold on *)

Lemma is_Some_kept {A} (R : A → A → Prop) (t t' : gmap Z A) k :
  all_kept R t t' → is_Some (t !! k) → is_Some (t' !! k).
Proof. intros H [a Ha]. destruct (H k a Ha) as (b & -> & _). done. Qed.

Lemma session_ok_moves db db' s s' :
  moves db db' → session_kept s s' → session_ok db s → session_ok db' s'.
Proof.
  intros [Mu _ _ Mk _ _] [E _] [Hu Hd]. injection E as E1 E2 E3. split.
  - rewrite E1. by eapply is_Some_kept.
  - rewrite E2, E1. intros d Hs. destruct (Hd d Hs) as (k & Hk & Ek).
    destruct (Mk d k Hk) as (k' & Hk' & [= E' _ _]).
    exists k'. split; [done|congruence].
Qed.

Lemma key_owned_moves db db' k k' :
  moves db db' → key_kept k k' → key_owned db k → key_owned db' k'.
Proof. intros [Mu _ _ _ _ _] [= E _ _]. unfold key_owned. rewrite E. by eapply is_Some_kept. Qed.

Lemma flow_ok_moves db db' f : moves db db' → flow_ok db f → flow_ok db' f.
Proof.
  intros [Mu _ _ _ _ _] H u t Hf. destruct (H u t Hf) as (Hp & a & Ha & Ea & [v Hv]).
  split; [done|]. destruct (Mu u a Ha) as (b & Hb & [= E1 _ _ _] & Hs).
  exists b. split; [done|]. split; [congruence|]. eexists. by apply Hs.
Qed.

Lemma verification_ok_moves db db' v w :
  moves db db' → verification_kept v w → verification_ok db v → verification_ok db' w.
Proof.
  intros [Mu _ _ _ _ _] [[= E _] _] (u & Hu & Ep). unfold verification_ok. rewrite E.
  destruct (Mu _ u Hu) as (u' & Hu' & [= E1 _ _ _] & _). exists u'. split; [done|congruence].
Qed.

Lemma api_key_ok_moves db db' k k' :
  moves db db' → api_key_kept k k' → api_key_ok db k → api_key_ok db' k'.
Proof.
  intros [_ Ms _ _ _ _] ([= E1 E2 E3] & [= E4 E5] & _) [Hm (s & Hs & Hu & Hd)].
  split; [by rewrite E5|]. rewrite E1, E2, E3.
  destruct (Ms _ s Hs) as (s' & Hs' & [= F1 F2 _] & _). exists s'. split; [done|]. split; congruence.
Qed.

Lemma user_ok_change k u v : user_change k u v → user_ok u → user_ok v.
Proof.
  intros [[[= E1 E2 E3 E4] _] Hv]. unfold user_ok. rewrite E1, E2, E3, E4.
  destruct (String.eqb_spec (user_provider u) "email"); [done|]. destruct Hv as [[_ ?]| ->]; done.
Qed.

Lemma flow_ok_change k db f g : flow_change k db f g → flow_ok db f → flow_ok db g.
Proof.
  intros [([= E1 _ _ _] & _) [E|[_ Hg]]] Hf; [|done]. intros u t. rewrite E, E1. apply Hf.
Qed.

Lemma key_ok_change k k' : key_change k k' → key_ok k → key_ok k'.
Proof.
  intros [[= _ E2 _] [[= F1 F2]|Hk]] Hok; [|done]. unfold key_ok. by rewrite F1, F2, E2.
Qed.

Lemma issues_minted k s : issues k s → session_minted s.
Proof. intros (d & _ & E1 & E2). split; [rewrite E1|rewrite E2]; by eexists. Qed.

(** *** Changes keep the invariant *)

Ltac clash_unfold :=
  unfold same_account, same_mailbox, same_access, same_refresh, same_key, same_code,
    same_user_code, same_token, same_api_key, same_name,
    user_change, flow_change, key_change,
    user_kept, session_touched, flow_kept, key_kept, verification_kept, api_key_kept in *.
Ltac clash_solve :=
  clash_unfold; intros;
  repeat match goal with
  | H : _ ∧ _ |- _ => destruct H
  | H : ?P → _, H' : ?P |- _ => specialize (H H')
  end; repeat split; congruence.

Lemma change_ok k db db' : change k db db' → identity_ok db → identity_ok db'.
Proof.
  intros Hc Hok. pose proof (change_moves _ _ _ Hc) as Hm.
  assert (∀ s, session_ok db s → session_ok db' s) as Ms by (intros; by eapply session_ok_moves).
  assert (∀ k, key_owned db k → key_owned db' k) as Mk by (intros; by eapply key_owned_moves).
  assert (∀ f, flow_ok db f → flow_ok db' f) as Mf by (intros; by eapply flow_ok_moves).
  assert (∀ v, verification_ok db v → verification_ok db' v) as Mv
    by (intros; by eapply verification_ok_moves).
  assert (∀ k, api_key_ok db k → api_key_ok db' k) as Ma by (intros; by eapply api_key_ok_moves).
  destruct Hok. destruct Hc; constructor; simpl in *; try done;
    try (by eapply map_Forall_mono); try (by auto);
    try (eapply enters_unique; [by clash_solve| |eassumption|done]; set_solver);
    try (eapply unique_kept; [|eassumption|eassumption]; clash_solve);
    try (apply map_Forall_put; [by eauto using issues_minted|by eapply map_Forall_mono]).
  - eapply map_Forall_kept; [eassumption| |exact ok_users0]; intros a b Hk Ha. by eapply user_ok_change.
  - eapply map_Forall_kept; [eassumption| |exact ok_sessions0]; intros a b [Hk _] Ha. exact (session_ok_moves _ _ _ _ Hm Hk Ha).
  - eapply map_Forall_kept; [eassumption| |exact ok_minted0]; intros a b [_ [= E1 E2]] Ha.
    unfold session_minted. by rewrite E1, E2.
  - apply unique_put; [clash_solve|done|]. intros i x Hx E. apply dec_stable. intros Hne.
    match goal with H : ∀ _ _, _ |- _ => by destruct (H i x Hx Hne) end.
  - apply unique_put; [clash_solve|done|]. intros i x Hx E. apply dec_stable. intros Hne.
    match goal with H : ∀ _ _, _ |- _ => by destruct (H i x Hx Hne) end.
  - apply map_Forall_put; [|by eapply map_Forall_mono]. by eapply (session_ok_moves _ _ _ _ Hm); [|eapply ok_sessions0].
  - apply map_Forall_put; [|by eapply map_Forall_mono].
    match goal with H : email_authorized _ = None |- _ => intros u t Hf; congruence end.
  - eapply map_Forall_kept; [eassumption| |exact ok_flows0]; intros a b Hk Ha.
    by eapply Mf, flow_ok_change.
  - eapply map_Forall_kept; [eassumption| |exact ok_keys0]; intros a b Hk Ha. by eapply key_ok_change.
  - eapply map_Forall_kept; [eassumption| |exact ok_owned0]; intros a b [Hk _] Ha. exact (key_owned_moves _ _ _ _ Hm Hk Ha).
  - eapply map_Forall_kept; [eassumption| |exact ok_verifications0]; intros a b Hk Ha. exact (verification_ok_moves _ _ _ _ Hm Hk Ha).
  - eapply map_Forall_kept; [eassumption| |exact ok_api_keys0]; intros a b Hk Ha. exact (api_key_ok_moves _ _ _ _ Hm Hk Ha).
Qed.

Definition changes (k : Kind) : IdDb → IdDb → Prop := rtc (change k).

Lemma changes_ok k db db' : changes k db db' → identity_ok db → identity_ok db'.
Proof. induction 1; eauto using change_ok. Qed.

Lemma changes_moves k db db' : changes k db db' → moves db db'.
Proof. induction 1; [reflexivity|]. etrans; [by eapply change_moves|done]. Qed.

(** ** The handlers are changes *)

Lemma id_transaction_changes {A kind} db (body : ApiResult (A * IdDb)) :
  (∀ a db', body = Ok (a, db') → changes kind db db') → changes kind db (id_transaction db body).2.
Proof. intros Hb. unfold id_transaction. destruct body as [[a db']|e]; [by eapply Hb|by apply rtc_refl]. Qed.

Lemma id_transaction_Ok {A} db (body : ApiResult (A * IdDb)) a db' :
  id_transaction db body = (Ok a, db') → body = Ok (a, db').
Proof. unfold id_transaction. destruct body as [[? ?]|]; intros; by simplify_eq. Qed.

Lemma id_transaction_error {A} db (body : ApiResult (A * IdDb)) e db' :
  id_transaction db body = (Err e, db') → db' = db.
Proof. unfold id_transaction. destruct body as [[? ?]|]; intros; by simplify_eq. Qed.

Lemma alter_flow_change {kind} db id f :
  (∀ a, flow_kept a (f a) ∧ email_authorized (f a) = email_authorized a) →
  changes kind db (update_flow db id f).
Proof.
  intros Hf. apply rtc_once, change_flows, rows_kept_alter.
  - intros a. split; [done|by left].
  - intros a _. destruct (Hf a). split; [done|by left].
Qed.

Lemma flow_ended_kept s c f : s ≠ "pending" → flow_kept f (flow_ended s c f).
Proof. intros Hs. split; [done|]. split; [done|]. split; [by intros E|done]. Qed.

Lemma touch_session db id f :
  (∀ s, session_touched s (f s)) → changes Plain db (with_sessions db (alter f id (sessions db))).
Proof. intros Hf. by apply rtc_once, change_sessions, rows_kept_alter; [reflexivity|]. Qed.

Lemma authenticate_changes db now auth : changes Plain db (authenticate cfg db now auth).2.
Proof.
  unfold authenticate. destruct (bearer _ _ ≫= _) as [p|e]; [|by apply rtc_refl].
  by apply touch_session.
Qed.

Lemma authenticate_inference_changes db now auth :
  changes Plain db (authenticate_inference cfg db now auth).2.
Proof.
  unfold authenticate_inference. destruct (bearer _ _) as [t|]; [|by apply rtc_refl].
  destruct (strip_prefix _ _); [|apply authenticate_changes].
  destruct (api_principal_of _ _) as [[id p]|]; [|by apply rtc_refl].
  by apply rtc_once, change_api_keys, rows_kept_alter; [reflexivity|].
Qed.

Lemma insert_flow_Ok db id f db' :
  insert_flow db id f = Ok db' →
  enters (flows db) id f [same_code; same_user_code] ∧ db' = with_flows db (<[id := f]> (flows db)).
Proof.
  unfold insert_flow.
  intros ([] & Hn%require_internal_Ok%bool_decide_eq_true & ([] & _ & ([] & Hu%require_internal_Ok & [= <-])%bind_Ok)%bind_Ok)%bind_Ok.
  split; [|done]. split; [done|]. apply negb_true_iff, andb_false_iff in Hu.
  intros clash Hc i x Hx Hcl.
  assert (clash = same_code ∨ clash = same_user_code) as Hcase by set_solver.
  destruct Hu as [Hp%String.eqb_neq|[H1 H2]%orb_false_iff].
  - destruct Hcase as [-> | ->]; unfold same_code, same_user_code in Hcl; naive_solver.
  - pose proof (has_row_false _ _ H1 i x Hx) as F1. pose proof (has_row_false _ _ H2 i x Hx) as F2.
    rewrite <-not_true_iff_false, !andb_true_iff, !String.eqb_eq in F1.
    rewrite <-not_true_iff_false, !andb_true_iff, !String.eqb_eq in F2.
    destruct Hcase as [-> | ->]; unfold same_code, same_user_code in Hcl; naive_solver.
Qed.

Lemma start_changes db tx d github pk : changes Starts db (auth_device_start cfg db tx d github pk).2.
Proof.
  apply id_transaction_changes. intros r db' Hb.
  do 4 (apply bind_Ok in Hb as (? & _ & Hb)). apply bind_Ok in Hb as (db1 & Hi & [= _ <-]).
  apply insert_flow_Ok in Hi as [He ->]. by apply rtc_once, change_flow.
Qed.

Lemma poll_begin_changes db tx request : changes Plain db (poll_begin cfg db tx request).2.
Proof.
  unfold poll_begin. set (checked := ok_or _ _ ≫= _). destruct checked as [row|e]; [|by apply rtc_refl].
  repeat case_if; try (by apply rtc_refl).
  - apply alter_flow_change. intros a. split; [by apply flow_ended_kept|done].
  - by apply alter_flow_change.
Qed.

(** *** A finished poll *)

(** The proof of possession a poll has passed: a signature, under the key of the
    flow, over a message that names the flow and its challenge. *)
Definition proved (id : Z) (row : FlowRow) (signature : string) : Prop :=
  ∃ pk fp ch pkb chb sigb,
    device_public_key row = Some pk ∧ device_key_fingerprint_of row = Some fp
    ∧ device_key_algorithm row = Some ED25519 ∧ device_key_challenge row = Some ch
    ∧ decode_lower_hex DEVICE_PUBLIC_KEY_BYTES pk = Some pkb ∧ device_key_fingerprint pkb = fp
    ∧ decode_lower_hex DEVICE_KEY_CHALLENGE_BYTES ch = Some chb
    ∧ decode_lower_hex DEVICE_KEY_SIGNATURE_BYTES signature = Some sigb
    ∧ verify_strict pkb (device_key_possession_message id chb pkb) sigb = true.

Lemma verify_device_key_proof_Ok id pk fp alg ch signature u :
  verify_device_key_proof id pk fp alg ch signature = Ok u →
  alg = ED25519 ∧ ∃ pkb chb sigb,
    decode_lower_hex DEVICE_PUBLIC_KEY_BYTES pk = Some pkb ∧ device_key_fingerprint pkb = fp
    ∧ decode_lower_hex DEVICE_KEY_CHALLENGE_BYTES ch = Some chb
    ∧ decode_lower_hex DEVICE_KEY_SIGNATURE_BYTES signature = Some sigb
    ∧ verify_strict pkb (device_key_possession_message id chb pkb) sigb = true.
Proof.
  unfold verify_device_key_proof. intros Hv.
  apply bind_Ok in Hv as ([] & Ha%bail_if_Ok%negb_false_iff%String.eqb_eq & Hv).
  apply bind_Ok in Hv as (pkb & Hpk%ok_or_Ok & Hv).
  apply bind_Ok in Hv as ([] & Hfp%bail_if_Ok%negb_false_iff%String.eqb_eq & Hv).
  apply bind_Ok in Hv as (chb & Hch%ok_or_Ok & Hv). apply bind_Ok in Hv as (sigb & Hs%ok_or_Ok & Hv).
  apply bind_Ok in Hv as ([] & _ & Hv%bail_if_Ok%negb_false_iff). split; [done|].
  by exists pkb, chb, sigb.
Qed.

Lemma poll_begin_Ok db tx request row db' :
  poll_begin cfg db tx request = (Ok (inr row), db') →
  flows db !! poll_flow_id request = Some row ∧ flow_status row = "pending"
  ∧ flow_provider row = provider_name (auth_provider cfg)
  ∧ now_utc tx 0%nat < flow_expires_at row * 1000
  ∧ proved (poll_flow_id request) row (poll_signature request).
Proof.
  unfold poll_begin. destruct (ok_or _ _ ≫= _) as [r|e] eqn:Hc; [|by intros].
  intros Hb. assert (r = row ∧ flow_expires_at r * 1000 <=? now_utc tx 0%nat = false) as [-> Ht].
  { revert Hb. repeat case_if; intros; by simplify_eq. }
  clear Hb. apply bind_Ok in Hc as (row' & Hrow%ok_or_Ok & Hc).
  apply bind_Ok in Hc as ([] & Hprov%bail_if_Ok%negb_false_iff%String.eqb_eq & Hc).
  apply bind_Ok in Hc as ([] & Hs%bail_if_Ok%negb_false_iff%String.eqb_eq & Hc).
  apply bind_Ok in Hc as (pk & Hpk%ok_or_Ok & Hc). apply bind_Ok in Hc as (fp & Hfp%ok_or_Ok & Hc).
  apply bind_Ok in Hc as (alg & Halg%ok_or_Ok & Hc). apply bind_Ok in Hc as (ch & Hch%ok_or_Ok & Hc).
  apply bind_Ok in Hc as ([] & Hv & [= ->]).
  apply verify_device_key_proof_Ok in Hv as (-> & pkb & chb & sigb & ? & ? & ? & ? & ?).
  split; [done|]. split; [done|]. split; [done|]. split; [lia|]. by exists pk, fp, ch, pkb, chb, sigb.
Qed.

Lemma upsert_user_Ok {kind} db new_id provider identity user db' :
  upsert_user db new_id provider identity = Ok (user, db') → provider ≠ "email" →
  changes kind db db' ∧ flows db' = flows db ∧ sessions db' = sessions db
  ∧ ∃ u, users db' !! user = Some u ∧ user_provider u = provider
      ∧ provider_subject u = subject identity.
Proof.
  intros Hu Hne. unfold upsert_user in Hu. destruct (find_row _ _) as [[i u]|] eqn:Hf.
  - injection Hu as <- <-. apply find_row_Some in Hf as [Hu Hp].
    rewrite andb_true_iff, !String.eqb_eq in Hp. destruct Hp as [Hp Hs].
    split; [|split; [done|split; [done|eexists; split; [apply lookup_insert_eq|done]]]].
    apply rtc_once, change_users. eapply rows_kept_put; [|exact Hu|].
    + intros a. split; [done|by right].
    + split; [by split|by right].
  - apply bind_Ok in Hu as ([] & Hn%require_internal_Ok%bool_decide_eq_true & [= <- <-]).
    split; [|split; [done|split; [done|eexists; split; [apply lookup_insert_eq|done]]]].
    apply rtc_once, change_user; [| |done].
    + split; [done|]. intros clash Hin i x Hx Hcl.
      assert (clash = same_account ∨ clash = same_mailbox) as [-> | ->] by set_solver;
        destruct Hcl as [E1 E2]; simpl in *; [|congruence].
      pose proof (find_row_None _ _ Hf i x Hx) as Hno. simpl in Hno.
      by rewrite E1, E2, !String.eqb_refl in Hno.
    + unfold user_ok. simpl. by rewrite (proj2 (String.eqb_neq _ _) Hne).
Qed.

Lemma login_account_Ok {kind} db new_id identity user db' :
  login_account cfg db new_id identity = Ok (user, db') →
  changes kind db db' ∧ flows db' = flows db ∧ sessions db' = sessions db
  ∧ ∃ u, users db' !! user = Some u ∧ user_provider u = provider_name (auth_provider cfg)
      ∧ provider_subject u = subject identity
      ∧ (auth_provider cfg = Email → is_Some (email_verified_at u) ∧ db' = db).
Proof.
  unfold login_account. destruct (auth_provider cfg) eqn:Ek.
  1,3: intros (? & ? & ? & u & ? & ? & ?)%(upsert_user_Ok (kind := kind)); [|done]; split_and!; [done..|]; by exists u.
  intros ([i u] & Hf%ok_or_Ok & [= <- <-])%bind_Ok.
  apply find_row_Some in Hf as [Hu Hp]. rewrite !andb_true_iff, !String.eqb_eq, !bool_decide_eq_true in Hp.
  destruct Hp as (((Hp & Hs) & He) & Hv).
  split; [by apply rtc_refl|]. split; [done|]. split; [done|]. by exists u.
Qed.

(** A user without an account has no entries; the new account is its genesis. *)
Lemma account_opened b u : books_ok b → accounts b !! u = None → books_ok (set_account b u new_account).
Proof.
  intros (Ha & Hq & Hc & Hr) Hn. unfold set_account, books_ok; simpl.
  assert (∀ l, (∀ e, e ∈ l → is_Some (accounts b !! account_id e)) → rows_of u l = []) as Hnil.
  { induction l as [|e l IH]; intros Hl; [done|]. rewrite rows_of_cons.
    destruct (Z.eqb_spec (account_id e) u) as [E|_].
    - destruct (Hl e) as [x Hx]; [by left|]. congruence.
    - apply IH. intros e' He'. apply Hl. by right. }
  split_and!; [|intros e He|intros e He|done].
  - intros v a. rewrite lookup_insert_Some. intros [[<- <-]|[_ Hv]].
    + unfold account_ok. simpl. rewrite (Hnil _ Hq), (Hnil _ Hc).
      split_and!; try lia; constructor.
    + exact (Ha v a Hv).
  - rewrite lookup_insert_is_Some. destruct (decide (u = account_id e)); [by left|right; auto].
  - rewrite lookup_insert_is_Some. destruct (decide (u = account_id e)); [by left|right; auto].
Qed.

Lemma open_account_Ok {kind} uuid_text db tx user db' :
  open_account uuid_text cfg db tx user = Ok db' →
  changes kind db db' ∧ ∃ b, db' = with_id_books db b.
Proof.
  unfold open_account. destruct (accounts (id_books db) !! user) as [a|] eqn:Ha.
  - intros [= <-]. split; [by apply rtc_refl|]. exists (id_books db). by destruct db.
  - intros (b & Hb & [= <-])%bind_Ok. split; [|by exists b]. apply rtc_once, change_books.
    intros Hok. apply (account_opened _ user) in Hok; [|done]. case_if; [|by simplify_eq].
    apply bind_Ok in Hb as (e & _ & Hb). by eapply insert_quota_ok.
Qed.

Lemma upsert_device_key_Ok {kind} db tx user fp pk alg id db' b :
  upsert_device_key db tx user fp pk alg = Ok (id, db') →
  is_Some (users db !! user) → alg = ED25519 →
  decode_lower_hex DEVICE_PUBLIC_KEY_BYTES pk = Some b → device_key_fingerprint b = fp →
  changes kind db db' ∧ users db' = users db ∧ flows db' = flows db ∧ sessions db' = sessions db
  ∧ ∃ k, device_keys db' !! id = Some k ∧ key_user k = user ∧ key_fingerprint k = fp
      ∧ key_public k = pk ∧ key_revoked_at k = None.
Proof.
  intros Hi Hu -> Hb Hfp. unfold upsert_device_key in Hi.
  assert (∀ c r v, key_ok (mkDeviceKey user fp pk ED25519 c r v)) as Hk by (split; [done|eauto]).
  destruct (find_row _ _) as [[i k]|] eqn:Hf.
  - injection Hi as <- <-. apply find_row_Some in Hf as [Hl [Eu%Z.eqb_eq Ef%String.eqb_eq]%andb_true_iff].
    split; [|split_and!; [done..|eexists; split; [apply lookup_insert_eq|done]]].
    apply rtc_once, change_keys. eapply rows_kept_put; [|exact Hl|].
    + intros a. split; [done|by left].
    + split; [done|right]. rewrite Eu, Ef. apply Hk.
  - apply bind_Ok in Hi as ([] & Hn%require_internal_Ok%bool_decide_eq_true & [= <- <-]).
    split; [|split_and!; [done..|eexists; split; [apply lookup_insert_eq|done]]].
    apply rtc_once, change_key; [|apply Hk|done]. split; [done|].
    intros clash Hin i x Hx Hcl. apply list_elem_of_singleton in Hin as ->. destruct Hcl as [E1 E2].
    pose proof (find_row_None _ _ Hf i x Hx) as Hno. simpl in *.
    by rewrite E1, E2, Z.eqb_refl, String.eqb_refl in Hno.
Qed.

Lemma session_unique_true db id access refresh :
  session_unique db id access refresh = true →
  ∀ i x, sessions db !! i = Some x → i ≠ id →
    access_token_hash x ≠ access ∧ refresh_token_hash x ≠ refresh.
Proof.
  unfold session_unique. rewrite andb_true_iff, !negb_true_iff. intros [H1 H2] i x Hx Hne.
  assert (delete id (sessions db) !! i = Some x) as Hd by by rewrite lookup_delete_ne by done.
  pose proof (has_row_false _ _ H1 i x Hd) as F1. pose proof (has_row_false _ _ H2 i x Hd) as F2.
  simpl in *. split; by apply String.eqb_neq.
Qed.

Lemma insert_session_Ok {kind} db id s db' :
  insert_session db id s = Ok db' → session_ok db s → issues kind s →
  changes kind db db' ∧ sessions db !! id = None ∧ db' = with_sessions db (<[id := s]> (sessions db)).
Proof.
  unfold insert_session.
  intros ([] & Hn%require_internal_Ok%bool_decide_eq_true & ([] & Hu%require_internal_Ok & [= <-])%bind_Ok)%bind_Ok.
  intros Hok Hm. split; [|done]. apply rtc_once, change_session; [|done..]. split; [done|].
  intros clash Hin i x Hx Hcl.
  assert (i ≠ id) as Hne by congruence. destruct (session_unique_true _ _ _ _ Hu i x Hx Hne).
  assert (clash = same_access ∨ clash = same_refresh) as [-> | ->] by set_solver; congruence.
Qed.

(** What an authorised poll leaves behind. *)
Record login_opened (db db' : IdDb) (tx : Tx) (d : Draws) (id : Z) (row : FlowRow) (l : Login) : Prop := {
  opened_tokens : (login_access_token l, login_refresh_token l, login_refresh_challenge l)
    = (access_token (issue cfg d), refresh_token (issue cfg d), new_refresh_challenge d);
  opened_changes : changes (Issues d) db db';
  opened_session : ∃ s device k, sessions db !! now_v7 tx 3%nat = None
    ∧ sessions db' !! now_v7 tx 3%nat = Some s
    ∧ session_user s = login_user l ∧ session_device s = Some device ∧ session_revoked_at s = None
    ∧ access_token_hash s = issued_access_hash (issue cfg d)
    ∧ refresh_token_hash s = issued_refresh_hash (issue cfg d)
    ∧ device_keys db' !! device = Some k ∧ key_user k = login_user l
    ∧ device_public_key row = Some (key_public k) ∧ key_revoked_at k = None;
  opened_flow : ∃ f, flows db !! id = Some f ∧ flow_status f = "pending"
    ∧ now_utc tx 0%nat < flow_expires_at f * 1000
    ∧ flows db' !! id = Some (flow_authorized (tx_now tx) (login_user l) f);
}.

Lemma authorized_tx_logged uuid_text db tx d id row signature identity l db' :
  authorized_tx uuid_text cfg db tx d id row identity = Ok (Ok (LoggedIn l), db') →
  proved id row signature →
  login_opened db db' tx d id row l
  ∧ ∃ db1, login_account cfg db (now_v7 tx 0%nat) identity = Ok (login_user l, db1)
      ∧ changes (Issues d) db1 db'.
Proof.
  unfold authorized_tx. intros Hx (pk & fp & ch & pkb & chb & sigb & Hpk & Hfp & Halg & _ & Hd & Hf & _).
  apply bind_Ok in Hx as (f & Hfl%or_internal_Ok & Hx).
  apply bind_Ok in Hx as ([] & Hs%bail_if_Ok%negb_false_iff%String.eqb_eq & Hx).
  destruct (Z.leb_spec (flow_expires_at f * 1000) (now_utc tx 0%nat)) as [|Hlive]; [by simplify_eq|].
  apply bind_Ok in Hx as ([user db1] & Hacc & Hx). apply bind_Ok in Hx as (db2 & Hopen & Hx).
  apply bind_Ok in Hx as (fp' & Hfp'%or_internal_Ok & Hx).
  apply bind_Ok in Hx as (pk' & Hpk'%or_internal_Ok & Hx).
  apply bind_Ok in Hx as (alg' & Halg'%or_internal_Ok & Hx). simplify_eq.
  apply bind_Ok in Hx as ([device db3] & Hkey & Hx). apply bind_Ok in Hx as (acc & _ & Hx).
  apply bind_Ok in Hx as (ref & _ & Hx). apply bind_Ok in Hx as (db4 & Hses & [= <- <-]).
  pose proof Hacc as Hlogin.
  apply (login_account_Ok (kind := Issues d)) in Hacc as (C1 & Ef1 & Es1 & u & Hu & _).
  apply (open_account_Ok (kind := Issues d)) in Hopen as (C2 & b & ->).
  apply (upsert_device_key_Ok (kind := Issues d)) with (b := pkb) in Hkey as (C3 & Eu3 & Ef3 & Es3 & k & Hk & Ku & Kf & Kp & Kr);
    [|by exists u|done..].
  apply (insert_session_Ok (kind := Issues d)) in Hses as (C4 & Hnew & ->); [| |by exists d].
  2:{ split; simpl; [rewrite Eu3; by exists u|]. intros ? [= <-]. by exists k. }
  simpl in *.
  assert (changes (Issues d) db1 (update_flow (with_sessions db3 (<[now_v7 tx 3%nat := mkSession user
      (issued_access_hash (issue cfg d)) (issued_refresh_hash (issue cfg d)) (to_timestamp acc)
      (to_timestamp ref) (tx_now tx) None None (Some device) (Some (new_refresh_challenge d))]> (sessions db3)))
      id (flow_authorized (tx_now tx) user))) as Hrest.
  { do 3 (etrans; [eassumption|]). apply alter_flow_change. intros a. split; [|done].
    split; [done|]. split; [done|]. by split; [intros E|intros ?]. }
  split; [|by exists db1]. split; [done|..].
  - by etrans.
  - eexists _, device, k. simpl. split; [congruence|]. split; [apply lookup_insert_eq|].
    split_and!; try done. congruence.
  - exists f. split_and!; try done. simpl. rewrite Ef3. simpl. rewrite Ef1. by rewrite lookup_alter_eq, Hfl.
Qed.

Lemma poll_finish_changes uuid_text db tx d id row signature poll :
  proved id row signature → changes (Issues d) db (poll_finish uuid_text cfg db tx d id row poll).2.
Proof.
  intros Hp. unfold poll_finish. destruct poll as [[]|]; simpl; try by apply rtc_refl.
  - apply alter_flow_change. intros a. by case_if.
  - destruct (authorized_tx _ _ _ _ _ _ _ _) as [[[[|l]|e] db']|e] eqn:Hx; simpl; [..|by apply rtc_refl].
    + exfalso. revert Hx. unfold authorized_tx. intros Hx.
      apply bind_Ok in Hx as (f & _ & Hx). apply bind_Ok in Hx as ([] & _ & Hx).
      case_if; [done|]. apply bind_Ok in Hx as ([] & _ & Hx).
      repeat (apply bind_Ok in Hx as (? & _ & Hx); try case_match). done.
    + by eapply authorized_tx_logged in Hx as [[] _].
    + unfold authorized_tx in Hx.
      apply bind_Ok in Hx as (f & _ & Hx). apply bind_Ok in Hx as ([] & _ & Hx).
      case_if; [simplify_eq; apply alter_flow_change; intros a; split; [by apply flow_ended_kept|done]|].
      exfalso. apply bind_Ok in Hx as ([] & _ & Hx).
      repeat (apply bind_Ok in Hx as (? & _ & Hx); try case_match). done.
  - apply alter_flow_change. intros a. split; [by apply flow_ended_kept|done].
  - apply alter_flow_change. intros a. split; [by apply flow_ended_kept|done].
Qed.

(** *** Refreshing and logging out *)

Lemma refreshable_Some db now hash id s k :
  refreshable db now hash = Some (id, s, k) →
  sessions db !! id = Some s ∧ refresh_token_hash s = hash ∧ session_revoked_at s = None
  ∧ now < refresh_expires_at s
  ∧ ∃ device, session_device s = Some device ∧ device_keys db !! device = Some k
      ∧ key_revoked_at k = None.
Proof.
  unfold refreshable. intros ([i x] & Hf & Hr)%bind_Some.
  apply find_row_Some in Hf as [Hl Hh%String.eqb_eq].
  apply bind_Some in Hr as (device & Hd & (k' & Hk & Hr)%bind_Some).
  destruct (_ && _) eqn:E; [|done]. simplify_eq.
  rewrite !andb_true_iff, !bool_decide_eq_true, Z.ltb_lt in E. destruct E as ((E1 & E2) & E3).
  split_and!; try done. by exists device.
Qed.

Lemma verify_refresh_key_proof_Ok token pk fp alg ch signature u :
  verify_refresh_key_proof token pk fp alg ch signature = Ok u →
  ∃ pkb chb sigb,
    decode_lower_hex DEVICE_PUBLIC_KEY_BYTES pk = Some pkb
    ∧ decode_lower_hex REFRESH_KEY_CHALLENGE_BYTES ch = Some chb
    ∧ decode_lower_hex DEVICE_KEY_SIGNATURE_BYTES signature = Some sigb
    ∧ verify_strict pkb (refresh_key_possession_message chb token pkb) sigb = true.
Proof.
  unfold verify_refresh_key_proof. intros Hv.
  apply bind_Ok in Hv as ([] & _ & Hv). apply bind_Ok in Hv as (pkb & Hpk%ok_or_Ok & Hv).
  apply bind_Ok in Hv as ([] & _ & Hv). apply bind_Ok in Hv as (chb & Hch%ok_or_Ok & Hv).
  apply bind_Ok in Hv as (sigb & Hs%ok_or_Ok & Hv).
  apply bind_Ok in Hv as ([] & _ & Hv%bail_if_Ok%negb_false_iff). by exists pkb, chb, sigb.
Qed.

(** What a refresh leaves behind. *)
Record refreshed (db db' : IdDb) (tx : Tx) (d : Draws) (request : DeviceBoundRefreshRequest) : Prop := {
  refreshed_changes : changes (Issues d) db db';
  refreshed_session : ∃ id s k ch pkb chb sigb s',
    refreshable db (tx_now tx) (token_hash cfg (presented_refresh_token request)) = Some (id, s, k)
    ∧ refresh_challenge s = Some ch
    ∧ decode_lower_hex DEVICE_PUBLIC_KEY_BYTES (key_public k) = Some pkb
    ∧ decode_lower_hex REFRESH_KEY_CHALLENGE_BYTES ch = Some chb
    ∧ decode_lower_hex DEVICE_KEY_SIGNATURE_BYTES (refresh_signature request) = Some sigb
    ∧ verify_strict pkb
        (refresh_key_possession_message chb (presented_refresh_token request) pkb) sigb = true
    ∧ db' = with_sessions db (<[id := s']> (sessions db))
    ∧ session_kept s s' ∧ session_revoked_at s' = None
    ∧ access_token_hash s' = issued_access_hash (issue cfg d)
    ∧ refresh_token_hash s' = issued_refresh_hash (issue cfg d)
    ∧ refresh_challenge s' = Some (new_refresh_challenge d);
}.

Lemma auth_refresh_Ok db tx d request r db' :
  auth_refresh cfg db tx d request = (Ok r, db') → refreshed db db' tx d request.
Proof.
  intros Hx%id_transaction_Ok.
  apply bind_Ok in Hx as ([[id s] k] & Hr%ok_or_Ok & Hx).
  apply bind_Ok in Hx as (ch & Hch%ok_or_Ok & Hx). apply bind_Ok in Hx as ([] & Hv & Hx).
  apply bind_Ok in Hx as (acc & _ & Hx). apply bind_Ok in Hx as (ref & _ & Hx).
  apply bind_Ok in Hx as ([] & Hu%require_internal_Ok & [= _ <-]).
  apply verify_refresh_key_proof_Ok in Hv as (pkb & chb & sigb & ? & ? & ? & ?).
  pose proof (refreshable_Some _ _ _ _ _ _ Hr) as (Hl & _ & Hrev & _).
  assert (session_kept s (session_rotated (tx_now tx) (issue cfg d) (to_timestamp acc)
            (to_timestamp ref) (new_refresh_challenge d) s)) as Hk by by split.
  split.
  - apply rtc_once. eapply change_rotation; [exact Hl|exact Hk|by exists d|].
    intros i x Hx Hne. apply (session_unique_true _ _ _ _ Hu i x Hx Hne).
  - exists id, s, k, ch, pkb, chb, sigb. eexists. split_and!; try done.
    all: simpl; try done.
Qed.

Lemma auth_refresh_error db tx d request e db' :
  auth_refresh cfg db tx d request = (Err e, db') → db' = db.
Proof. apply id_transaction_error. Qed.

Lemma auth_refresh_changes db tx d request : changes (Issues d) db (auth_refresh cfg db tx d request).2.
Proof.
  destruct (auth_refresh _ _ _ _ _) as [[r|e] db'] eqn:Hx; simpl.
  - by apply auth_refresh_Ok in Hx as [].
  - apply auth_refresh_error in Hx as ->. by apply rtc_refl.
Qed.

Lemma session_revoked_touched now s : session_touched s (session_revoked now s).
Proof. split; [|done]. split; [done|]. intros t Ht. simpl. by rewrite Ht. Qed.

(** What a logout leaves behind: with a device, every session of it is revoked. *)
Lemma auth_logout_Ok db tx token b db' :
  auth_logout cfg db tx token = (Ok b, db') →
  changes Plain db db'
  ∧ ∃ id s, sessions db !! id = Some s ∧ refresh_token_hash s = token_hash cfg token
      ∧ (∀ i x, sessions db !! i = Some x →
           i = id ∨ (is_Some (session_device s) ∧ session_device x = session_device s) →
           ∃ y, sessions db' !! i = Some y ∧ is_Some (session_revoked_at y)).
Proof.
  intros Hx%id_transaction_Ok. apply bind_Ok in Hx as ([id s] & Hf%ok_or_Ok & Hx).
  apply find_row_Some in Hf as [Hl Hh%String.eqb_eq].
  destruct (session_device s) as [device|] eqn:Hd; injection Hx as _ <-.
  - split.
    + apply rtc_l with (revoke_device_sessions db (tx_now tx) device).
      { apply change_sessions, rows_kept_fmap.
        intros a. case_bool_decide; [apply session_revoked_touched|reflexivity]. }
      apply rtc_once, change_keys, rows_kept_alter; [intros a; split; [done|by left]|].
      intros a _. split; [done|by left].
    + exists id, s. split_and!; [done..|]. intros i x Hix Hcase. simpl.
      rewrite lookup_fmap, Hix. simpl. rewrite bool_decide_true by (destruct Hcase as [-> |[_ ->]]; congruence).
      eexists. split; [done|]. by eexists.
  - split; [apply touch_session, session_revoked_touched|].
    exists id, s. split_and!; [done..|]. intros i x Hix [-> |[Hsome _]]; [|by destruct Hsome; congruence].
    simpl. rewrite lookup_alter_eq, Hix. eexists. split; [done|]. by eexists.
Qed.

Lemma auth_logout_changes db tx token : changes Plain db (auth_logout cfg db tx token).2.
Proof.
  destruct (auth_logout _ _ _ _) as [[b|e] db'] eqn:Hx; simpl.
  - by apply auth_logout_Ok in Hx as [].
  - apply id_transaction_error in Hx as ->. by apply rtc_refl.
Qed.

Lemma auth_status_changes db st now auth : changes Plain db (auth_status cfg db st now auth).2.
Proof.
  pose proof (authenticate_changes db now auth) as Ha. unfold auth_status.
  destruct (authenticate _ _ _ _) as [[[p n]|e] db']; done.
Qed.
End identity.
