(* ===== verification/IdentityRuns.v ===== *)
(** * Identities over time

    The mailbox and API key handlers as changes of the tables, then the whole
    service: a world has the tables and what interrupted handlers remember (a
    poll between its statements and its provider, a password check before its
    transaction), and calls of any number of clients interleave.  The theorems
    are about every run. *)
From S2P Require Import Prelude Text Net Ledger StandardData Envelope Store Api Postings JobOps Tables NodeRequests Nodes Requests Identity AuthRoutes WebAuth ApiKeys IdentitySpec.

Local Open Scope string_scope.
Local Open Scope list_scope.
Local Open Scope Z_scope.

Section handlers.
Context `{C : Crypto, ED : Ed25519, AR : Argon2, LE : Lettre} (cfg : AuthConfig).

(** ** Mailboxes *)

Lemma insert_email_user_Ok db id address name hash db' :
  insert_email_user db id address name hash = Ok (Some db') →
  changes cfg Plain db db' ∧ users db' !! id = Some (mkUser "email" address name (Some address) (Some hash) None).
Proof.
  unfold insert_email_user. intros ([] & _ & Hi)%bind_Ok. case_if; [by simplify_eq|].
  injection Hi as <-. split; [|apply lookup_insert_eq].
  match goal with H : _ || _ = false |- _ => apply orb_false_iff in H as [[Hn Ha]%orb_false_iff Hm] end.
  apply bool_decide_eq_false, eq_None_not_Some in Hn.
  apply rtc_once, change_user; [|done..]. split; [done|].
  intros clash Hin i x Hx Hcl.
  pose proof (has_row_false _ _ Ha i x Hx) as F1. pose proof (has_row_false _ _ Hm i x Hx) as F2.
  rewrite andb_false_iff, !String.eqb_neq in F1. apply bool_decide_eq_false in F2.
  assert (clash = same_account ∨ clash = same_mailbox) as [-> | ->] by set_solver;
    destruct Hcl as [E1 E2]; simpl in *; naive_solver congruence.
Qed.

Lemma insert_verification_Ok db id v db' :
  insert_verification db id v = Ok db' → verification_ok db v →
  changes cfg Plain db db' ∧ db' = with_verifications db (<[id := v]> (verifications db)).
Proof.
  unfold insert_verification. intros ([] & Hc%require_internal_Ok & [= <-])%bind_Ok Hv. split; [|done].
  rewrite !andb_true_iff, bool_decide_eq_true, negb_true_iff in Hc. destruct Hc as [[Hn Hu] _].
  apply rtc_once, change_verification; [|done]. split; [done|].
  intros clash Hin i x Hx Hcl. apply list_elem_of_singleton in Hin as ->.
  pose proof (has_row_false _ _ Hu i x Hx) as F. by apply String.eqb_neq in F.
Qed.

Lemma register_changes sender base_url db tx d salt form :
  changes cfg Plain db (register_handler cfg sender base_url db tx d salt form).2.
Proof.
  apply id_transaction_changes. intros r db' Hb.
  apply bind_Ok in Hb as ([address name] & _ & Hb). apply bind_Ok in Hb as (hash & _ & Hb).
  apply bind_Ok in Hb as (o & Hi & Hb). apply bind_Ok in Hb as (db1 & ->%ok_or_Ok & Hb).
  apply bind_Ok in Hb as (db2 & Hv & Hb). apply bind_Ok in Hb as ([] & _ & [= _ <-]).
  apply insert_email_user_Ok in Hi as [C1 Hu]. etrans; [exact C1|].
  apply insert_verification_Ok in Hv as [C2 _]; [done|]. by eexists.
Qed.

Lemma user_verified_change now u :
  user_provider u = "email" → user_change Verifies u (user_verified now u).
Proof. intros He. split; [|by left]. split; [done|]. intros t Ht. simpl. by rewrite Ht. Qed.

(** What a successful verification shows. *)
Lemma verify_email_verified db tx token db' :
  identity_ok cfg db → verify_email_handler cfg db tx token = (Ok MailboxVerified, db') →
  changes cfg Verifies db db'
  ∧ ∃ id v, verifications db !! id = Some v ∧ verification_hash v = token_hash cfg token
      ∧ used_at v = None ∧ now_utc tx 0%nat < verification_expires_at v * 1000
      ∧ verifications db' = alter (verification_used (tx_now tx)) id (verifications db)
      ∧ users db' = alter (user_verified (tx_now tx)) (verification_user v) (users db)
      ∧ (sessions db', flows db', device_keys db', api_keys db')
        = (sessions db, flows db, device_keys db, api_keys db).
Proof.
  intros Hok. unfold verify_email_handler. case_if; [intros; by simplify_eq|].
  destruct (find_row _ _) as [[id v]|] eqn:Hf; [|intros; by simplify_eq].
  apply find_row_Some in Hf as [Hl Hh%String.eqb_eq].
  case_bool_decide as Hused; [intros; by simplify_eq|].
  destruct (Z.leb_spec (verification_expires_at v * 1000) (now_utc tx 0%nat)); [intros; by simplify_eq|].
  intros Hx%id_transaction_Ok. apply bind_Ok in Hx as ([] & _ & [= <-]).
  split.
  - eapply rtc_l; [apply change_verifications, (rows_kept_alter _ (verification_used (tx_now tx)) id);
      [reflexivity|intros a _; by split; [|intros; eexists]]|].
    apply rtc_once, change_users, rows_kept_alter; [intros a; split; [done|by right]|].
    intros a Ha. apply user_verified_change.
    destruct (ok_verifications _ _ Hok id v Hl) as (u & Hu & Ep). simpl in Ha. congruence.
  - exists id, v. split_and!; try done. by apply eq_None_not_Some.
Qed.

Lemma verify_email_other db tx token a db' :
  verify_email_handler cfg db tx token = (a, db') → a ≠ Ok MailboxVerified → db' = db.
Proof.
  unfold verify_email_handler. case_if; [intros; by simplify_eq|].
  destruct (find_row _ _) as [[id v]|]; [|intros; by simplify_eq].
  case_bool_decide; [intros; by simplify_eq|]. case_if; [intros; by simplify_eq|].
  unfold id_transaction. destruct (require_internal _) as [[]|e]; simpl; intros; by simplify_eq.
Qed.

Lemma verify_email_changes db tx token :
  identity_ok cfg db → changes cfg Verifies db (verify_email_handler cfg db tx token).2.
Proof.
  intros Hok. destruct (verify_email_handler _ _ _ _) as [a db'] eqn:Hx; simpl.
  destruct (decide (a = Ok MailboxVerified)) as [->|Hne].
  - by apply verify_email_verified in Hx as [].
  - apply verify_email_other in Hx as ->; [by apply rtc_refl|done].
Qed.

(** What the password check found. *)
Definition password_accepted (db : IdDb) (form : LoginForm) (c : CheckedLogin) : Prop :=
  normalize_email (login_email form) = Ok (checked_email c)
  ∧ normalize_user_code (login_user_code form) = Ok (checked_code c)
  ∧ argon2_verify (login_password form) (checked_hash c) = Some true
  ∧ ∃ u, users db !! checked_user c = Some u ∧ password_hash u = Some (checked_hash c)
      ∧ user_provider u = "email" ∧ Identity.email u = Some (checked_email c).

Lemma login_begin_Ok db form c : login_begin db form = Ok c → password_accepted db form c.
Proof.
  unfold login_begin. intros Hx. apply bind_Ok in Hx as (address & Ha & Hx).
  apply bind_Ok in Hx as ([] & _ & Hx). apply bind_Ok in Hx as (code & Hc & Hx).
  apply bind_Ok in Hx as ([id u] & Hf%ok_or_Ok & Hx). apply bind_Ok in Hx as ([] & _ & Hx).
  apply bind_Ok in Hx as (hash & Hh%ok_or_Ok & Hx).
  apply bind_Ok in Hx as (ok & Hv%or_internal_Ok & Hx).
  apply bind_Ok in Hx as ([] & ->%bail_if_Ok%negb_false_iff & [= <-]).
  apply find_row_Some in Hf as [Hl Hm]. unfold mailbox_user in Hm.
  rewrite !andb_true_iff, !String.eqb_eq, bool_decide_eq_true in Hm. destruct Hm as [[Hp Hs] He].
  split_and!; try done. by exists u.
Qed.

(** What a confirmed device login is. *)
Lemma login_finish_Ok db tx c db' :
  login_finish db tx c = (Ok tt, db') →
  changes cfg Confirms db db'
  ∧ (∃ u, users db !! checked_user c = Some u ∧ user_provider u = "email"
       ∧ password_hash u = Some (checked_hash c) ∧ is_Some (email_verified_at u))
  ∧ db' = with_flows db ((λ f, if confirmable (tx_now tx) (checked_code c) f
                               then flow_confirmed (checked_user c) (tx_now tx) f else f)
                         <$> flows db).
Proof.
  intros Hx%id_transaction_Ok. apply bind_Ok in Hx as ([] & Hu%bail_if_Ok%negb_false_iff & Hx).
  apply bind_Ok in Hx as ([] & _ & [= <-]).
  destruct (users db !! checked_user c) as [u|] eqn:Hl; [|done]. unfold mailbox_user in Hu.
  rewrite !andb_true_iff, !bool_decide_eq_true, !String.eqb_eq in Hu.
  destruct Hu as ((((Hp & _) & _) & Hh) & Hv).
  split; [|split; [by exists u|done]].
  apply rtc_once, change_flows, rows_kept_fmap. intros f.
  destruct (confirmable _ _ f) eqn:Hc; [|by split; [|left]].
  unfold confirmable in Hc. rewrite !andb_true_iff, bool_decide_eq_true, !String.eqb_eq in Hc.
  destruct Hc as ((((Ep & _) & _) & _) & En). split.
  - split; [done|]. split; [done|]. split; [done|]. intros x Hx. congruence.
  - right. split; [done|]. intros w t [= <- <-]. split; [done|]. by exists u.
Qed.

Lemma login_finish_changes db tx c : changes cfg Confirms db (login_finish db tx c).2.
Proof.
  destruct (login_finish db tx c) as [[[]|e] db'] eqn:Hx; simpl.
  - by apply login_finish_Ok in Hx as [].
  - apply id_transaction_error in Hx as ->. by apply rtc_refl.
Qed.

(** ** Authentication *)

Lemma live_device_Some db user device k :
  live_device db user device = Some k →
  device_keys db !! device = Some k ∧ key_user k = user ∧ key_revoked_at k = None.
Proof.
  unfold live_device. intros (x & Hx & Hk)%bind_Some. destruct (_ && _) eqn:E; [|done].
  rewrite andb_true_iff, Z.eqb_eq, bool_decide_eq_true in E. by simplify_eq.
Qed.

(** The session, device and user behind an accepted access token. *)
Lemma authenticate_Ok db now auth p name db' :
  authenticate cfg db now auth = (Ok (p, name), db') →
  ∃ token s k, auth = Some ("Bearer " +:+ token)
    ∧ sessions db !! session_id p = Some s ∧ access_token_hash s = token_hash cfg token
    ∧ session_user s = principal_user_id p ∧ session_device s = Some (device_key_id_of p)
    ∧ session_revoked_at s = None ∧ now < access_expires_at s
    ∧ device_keys db !! device_key_id_of p = Some k ∧ key_user k = principal_user_id p
    ∧ key_revoked_at k = None
    ∧ db' = with_sessions db (alter (session_used now) (session_id p) (sessions db)).
Proof.
  unfold authenticate. destruct (bearer _ _ ≫= _) as [q|e] eqn:Hb; [|intros; by simplify_eq].
  intros [= -> <-]. apply bind_Ok in Hb as (token & Ht & Hp%ok_or_Ok).
  unfold bearer in Ht. apply bind_Ok in Ht as (header & Hh%ok_or_Ok & (t & Hs & Ht)%ok_or_Ok%bind_Some).
  case_if; [done|]. injection Ht as ->. apply strip_prefix_Some in Hs.
  unfold principal_of in Hp. apply bind_Some in Hp as ([id s] & Hf & Hp).
  apply find_row_Some in Hf as [Hl Hh'%String.eqb_eq]. apply bind_Some in Hp as (u & _ & Hp).
  apply bind_Some in Hp as (device & Hd & (k & Hk%live_device_Some & Hp)%bind_Some).
  destruct (_ && _) eqn:E; [|done]. injection Hp as <- <-. destruct Hk as (Hk & Ku & Kr).
  rewrite andb_true_iff, bool_decide_eq_true, Z.ltb_lt in E. destruct E as [E1 E2].
  exists token, s, k. split_and!; try done. congruence.
Qed.

(** The key, session, device and user behind an accepted API key. *)
Lemma api_principal_Some db hash id p name :
  api_principal_of db hash = Some (id, (p, name)) →
  ∃ k s d, api_keys db !! id = Some k ∧ key_hash k = hash ∧ api_key_revoked_at k = None
    ∧ created_by_session k = session_id p ∧ api_key_user k = principal_user_id p
    ∧ api_key_device k = device_key_id_of p
    ∧ sessions db !! session_id p = Some s ∧ session_revoked_at s = None
    ∧ session_user s = principal_user_id p ∧ session_device s = Some (device_key_id_of p)
    ∧ device_keys db !! device_key_id_of p = Some d ∧ key_user d = principal_user_id p
    ∧ key_revoked_at d = None.
Proof.
  unfold api_principal_of. intros Hp. apply bind_Some in Hp as ([i k] & Hf & Hp).
  apply find_row_Some in Hf as [Hl Hh%String.eqb_eq]. apply bind_Some in Hp as (u & _ & Hp).
  apply bind_Some in Hp as (s & Hs & (d & Hd%live_device_Some & Hp)%bind_Some).
  destruct (_ && _) eqn:E; [|done]. injection Hp as <- <- <-.
  rewrite !andb_true_iff, !bool_decide_eq_true, Z.eqb_eq in E. destruct E as (((E1 & E2) & E3) & E4).
  destruct Hd as (Hd & Du & Dr). exists k, s, d. simpl. by split_and!.
Qed.

(** ** API keys *)

Lemma authenticated_changes {A} db now auth (body : Principal → IdDb → ApiResult (A * IdDb)) :
  (∀ p name db1, authenticate cfg db now auth = (Ok (p, name), db1) →
     ∀ a db', body p db1 = Ok (a, db') → changes cfg Plain db1 db') →
  changes cfg Plain db (authenticated cfg db now auth body).2.
Proof.
  intros Hb. unfold authenticated. pose proof (authenticate_changes cfg db now auth) as Ha.
  destruct (authenticate _ _ _ _) as [[[p name]|e] db1] eqn:E; [|done]. simpl in Ha.
  etrans; [exact Ha|]. apply id_transaction_changes. by apply (Hb p name db1).
Qed.

Lemma authenticated_Ok {A} db now auth (body : Principal → IdDb → ApiResult (A * IdDb)) a db' :
  authenticated cfg db now auth body = (Ok a, db') →
  ∃ p name db1, authenticate cfg db now auth = (Ok (p, name), db1) ∧ body p db1 = Ok (a, db').
Proof.
  unfold authenticated. destruct (authenticate _ _ _ _) as [[[p name]|e] db1]; [|intros; by simplify_eq].
  intros Hx%id_transaction_Ok. by exists p, name, db1.
Qed.

Lemma insert_api_key_Ok db id k db' :
  insert_api_key db id k = Ok (Some db') → api_key_ok cfg db k →
  changes cfg Plain db db' ∧ db' = with_api_keys db (<[id := k]> (api_keys db)).
Proof.
  unfold insert_api_key. destruct (has_row _ (api_keys db)) eqn:Hname; [by intros|].
  intros ([] & Hc%require_internal_Ok & [= <-])%bind_Ok Hk. split; [|done].
  rewrite !andb_true_iff, !bool_decide_eq_true, negb_true_iff in Hc. destruct Hc as [[[Hn Hu] _] _].
  apply rtc_once, change_api_key; [|done]. split; [done|]. intros clash Hin i x Hx Hcl.
  pose proof (has_row_false _ _ Hname i x Hx) as F1.
  pose proof (has_row_false _ _ Hu i x Hx) as F2. simpl in F1, F2.
  rewrite andb_false_iff, Z.eqb_neq, String.eqb_neq in F1. apply String.eqb_neq in F2.
  assert (clash = same_api_key ∨ clash = same_name) as [-> | ->] by set_solver; [done|].
  destruct Hcl; naive_solver.
Qed.

Lemma insert_key_event_changes db e db' : insert_key_event db e = Ok db' → changes cfg Plain db db'.
Proof. unfold insert_key_event. intros ([] & _ & [= <-])%bind_Ok. apply rtc_once, change_events. Qed.

Lemma create_api_key_changes db tx d auth name :
  changes cfg Plain db (create_api_key cfg db tx d auth name).2.
Proof.
  apply authenticated_changes. intros p n db1 Ha r db' Hb.
  apply authenticate_Ok in Ha as (token & s & k & _ & Hs & _ & Hu & Hd & _ & _ & _ & _ & _ & ->).
  apply bind_Ok in Hb as ([] & _ & Hb). apply bind_Ok in Hb as (o & Hi & Hb).
  apply bind_Ok in Hb as (db2 & ->%ok_or_Ok & Hb). apply bind_Ok in Hb as (db3 & He & [= _ <-]).
  apply insert_api_key_Ok in Hi as [C1 _].
  { etrans; [exact C1|by apply insert_key_event_changes in He]. }
  split; [by eexists|]. simpl. rewrite lookup_alter_eq, Hs. by eexists.
Qed.

Lemma list_api_keys_changes db now auth : changes cfg Plain db (list_api_keys cfg db now auth).2.
Proof. apply authenticated_changes. intros p n db1 _ r db' [= _ <-]. by apply rtc_refl. Qed.

Lemma revoke_api_key_changes db tx auth id : changes cfg Plain db (revoke_api_key cfg db tx auth id).2.
Proof.
  apply authenticated_changes. intros p n db1 _ r db' Hb.
  apply bind_Ok in Hb as (k & (x & Hx & Hk)%ok_or_Ok%bind_Some & Hb).
  destruct (api_key_user x =? principal_user_id p); [injection Hk as ->|done].
  case_bool_decide as Hr; [|simplify_eq; by apply rtc_refl].
  apply bind_Ok in Hb as (db2 & He%insert_key_event_changes & [= _ <-]). etrans; [|exact He].
  apply rtc_once, change_api_keys. eapply rows_kept_put; [reflexivity|exact Hx|].
  split; [done|]. split; [done|]. intros t Ht. congruence.
Qed.
End handlers.

(** ** Worlds *)

(** The tables and what interrupted handlers remember. *)
Record World : Type := mkWorld {
  w_db : IdDb;
  w_begun : list (DevicePollRequest * FlowRow);
  w_asked : list (DevicePollRequest * FlowRow * result ProviderError ProviderPoll);
  w_checked : list CheckedLogin;
}.

Inductive IdCall : Type :=
| DeviceStart (tx : Tx) (d : Draws) (github : GithubAnswers) (public_key : string)
| PollBegin (tx : Tx) (request : DevicePollRequest)
| PollAsk (i : nat) (now : Z) (github : GithubAnswers)
| PollFinish (i : nat) (tx : Tx) (d : Draws)
| Refresh (tx : Tx) (d : Draws) (request : DeviceBoundRefreshRequest)
| Logout (tx : Tx) (refresh_token : string)
| Status (st : State) (now : Z) (authorization : option string)
| Register (sender base_url : string) (tx : Tx) (d : Draws) (salt : string) (form : RegisterForm)
| VerifyEmail (tx : Tx) (token : string)
| LoginBegin (form : LoginForm)
| LoginFinish (i : nat) (tx : Tx)
| CreateKey (tx : Tx) (d : Draws) (authorization : option string) (name : string)
| ListKeys (now : Z) (authorization : option string)
| RevokeKey (tx : Tx) (authorization : option string) (id : Z)
| Use (now : Z) (authorization : option string)
| Infer (now : Z) (authorization : option string).

Section runs.
Context `{C : Crypto, ED : Ed25519, AR : Argon2, LE : Lettre} (cfg : AuthConfig).
Context (uuid_text : Z → string).

Definition with_db (w : World) (db : IdDb) : World :=
  mkWorld db (w_begun w) (w_asked w) (w_checked w).

(** A call, and the login it opened: the flow and what the client got. *)
Definition perform (w : World) (call : IdCall) : option (Z * Login) * World :=
  let db := w_db w in
  match call with
  | DeviceStart tx d github pk => (None, with_db w (auth_device_start cfg db tx d github pk).2)
  | PollBegin tx request =>
    let '(answer, db) := poll_begin cfg db tx request in
    (None, mkWorld db
       (w_begun w ++ match answer with Ok (inr row) => [(request, row)] | _ => [] end)
       (w_asked w) (w_checked w))
  | PollAsk i now github =>
    match w_begun w !! i with
    | Some (request, row) =>
      (None, mkWorld db (delete i (w_begun w))
         (w_asked w ++ [(request, row, provider_poll cfg db now github (provider_device_code row))])
         (w_checked w))
    | None => (None, w)
    end
  | PollFinish i tx d =>
    match w_asked w !! i with
    | Some (request, row, poll) =>
      let '(answer, db) := poll_finish uuid_text cfg db tx d (poll_flow_id request) row poll in
      (match answer with Ok (LoggedIn l) => Some (poll_flow_id request, l) | _ => None end,
       mkWorld db (w_begun w) (delete i (w_asked w)) (w_checked w))
    | None => (None, w)
    end
  | Refresh tx d request => (None, with_db w (auth_refresh cfg db tx d request).2)
  | Logout tx token => (None, with_db w (auth_logout cfg db tx token).2)
  | Status st now auth => (None, with_db w (auth_status cfg db st now auth).2)
  | Register sender base_url tx d salt form =>
    (None, with_db w (register_handler cfg sender base_url db tx d salt form).2)
  | VerifyEmail tx token => (None, with_db w (verify_email_handler cfg db tx token).2)
  | LoginBegin form =>
    (None, mkWorld db (w_begun w) (w_asked w)
       (w_checked w ++ match login_begin db form with Ok c => [c] | Err _ => [] end))
  | LoginFinish i tx =>
    match w_checked w !! i with
    | Some c =>
      (None, mkWorld (login_finish db tx c).2 (w_begun w) (w_asked w) (delete i (w_checked w)))
    | None => (None, w)
    end
  | CreateKey tx d auth name => (None, with_db w (create_api_key cfg db tx d auth name).2)
  | ListKeys now auth => (None, with_db w (list_api_keys cfg db now auth).2)
  | RevokeKey tx auth id => (None, with_db w (revoke_api_key cfg db tx auth id).2)
  | Use now auth => (None, with_db w (authenticate cfg db now auth).2)
  | Infer now auth => (None, with_db w (authenticate_inference cfg db now auth).2)
  end.

(** A run: the logins it opened, in order, and the world it leaves. *)
Fixpoint run (w : World) (calls : list IdCall) : list (Z * Login) * World :=
  match calls with
  | [] => ([], w)
  | call :: calls =>
    let '(opened, w) := perform w call in
    let '(rest, w) := run w calls in
    (option_list opened ++ rest, w)
  end.

(** Nothing has happened yet. *)
Definition fresh_world (b : Books) : World :=
  mkWorld (mkIdDb ∅ ∅ ∅ ∅ ∅ ∅ [] b) [] [] [].

(** ** The invariant of a world *)

Definition begun_ok (db : IdDb) (p : DevicePollRequest * FlowRow) : Prop :=
  proved (poll_flow_id p.1) p.2 (poll_signature p.1)
  ∧ flow_provider p.2 = provider_name (auth_provider cfg)
  ∧ flow_status p.2 = "pending"
  ∧ ∃ f, flows db !! poll_flow_id p.1 = Some f ∧ flow_kept p.2 f.

(** An authorised mailbox poll has found the confirmation of its own flow. *)
Definition asked_ok (db : IdDb)
    (p : DevicePollRequest * FlowRow * result ProviderError ProviderPoll) : Prop :=
  begun_ok db p.1
  ∧ (auth_provider cfg = Email → ∀ identity, p.2 = Ok (Authorized identity) →
       ∃ f u t a, flows db !! poll_flow_id p.1.1 = Some f ∧ email_authorized f = Some (u, t)
         ∧ users db !! u = Some a ∧ user_provider a = "email" ∧ provider_subject a = subject identity).

Record world_ok (w : World) : Prop := mkWorldOk {
  world_db : identity_ok cfg (w_db w);
  world_begun : Forall (begun_ok (w_db w)) (w_begun w);
  world_asked : Forall (asked_ok (w_db w)) (w_asked w);
}.

Lemma begun_ok_moves db db' p : moves db db' → begun_ok db p → begun_ok db' p.
Proof.
  intros [_ _ Mf _ _ _] (Hp & Hn & Hs & f & Hf & Hk). split; [done|]. split; [done|]. split; [done|].
  destruct (Mf _ f Hf) as (f' & Hf' & Hk'). exists f'. split; [done|by etrans].
Qed.

Lemma asked_ok_moves db db' p : moves db db' → asked_ok db p → asked_ok db' p.
Proof.
  intros Hm [Hb Ha]. split; [by eapply begun_ok_moves|]. intros He identity Hp.
  destruct (Ha He identity Hp) as (f & u & t & a & Hf & Hu & Hl & Hpr & Hs).
  destruct Hm as [Mu _ Mf _ _ _].
  destruct (Mf _ f Hf) as (f' & Hf' & _ & _ & _ & Hst). destruct (Mu _ a Hl) as (a' & Ha' & [= E1 E2 _ _] & _).
  exists f', u, t, a'. split_and!; [done|by apply Hst|done|congruence..].
Qed.

Lemma email_poll_authorized db now code identity :
  email_poll db now code = Authorized identity →
  ∃ id f u t a, flows db !! id = Some f ∧ flow_provider f = "email" ∧ provider_device_code f = code
    ∧ email_authorized f = Some (u, t) ∧ users db !! u = Some a
    ∧ provider_subject a = subject identity.
Proof.
  unfold email_poll. destruct (find_row _ _) as [[id f]|] eqn:Hf; [|done].
  apply find_row_Some in Hf as [Hl [Hp%String.eqb_eq Hc%String.eqb_eq]%andb_true_iff].
  destruct (email_authorized f) as [[u t]|] eqn:He; [|done]. simpl.
  destruct (users db !! u) as [a|] eqn:Ha; [|done]. case_if; [|done]. intros [= <-].
  by exists id, f, u, t, a.
Qed.

Lemma asked_ok_poll db p now github :
  identity_ok cfg db → begun_ok db p →
  asked_ok db (p, provider_poll cfg db now github (provider_device_code p.2)).
Proof.
  intros Hok Hb. split; [done|]. intros He identity. simpl. unfold provider_poll. rewrite He.
  intros [= Hp]. apply email_poll_authorized in Hp as (id & f & u & t & a & Hf & Hpr & Hc & Hu & Ha & Hs).
  destruct Hb as (_ & Hpp & _ & g & Hg & [= E1 E2 _ _] & _). rewrite He in Hpp. simpl in Hpp.
  assert (id = poll_flow_id p.1) as ->.
  { eapply (ok_codes _ _ Hok); [exact Hf|exact Hg|]. split_and!; congruence. }
  destruct (ok_flows _ _ Hok _ f Hf u t Hu) as (_ & a' & Ha' & Hpa & _).
  assert (a' = a) as -> by congruence. by exists f, u, t, a.
Qed.

(** What a call may do to the tables. *)
Definition kind_of (call : IdCall) : Kind :=
  match call with
  | DeviceStart _ _ _ _ => Starts
  | PollFinish _ _ d | Refresh _ d _ => Issues d
  | VerifyEmail _ _ => Verifies
  | LoginFinish _ _ => Confirms
  | _ => Plain
  end.

Lemma perform_changes w call :
  world_ok w → changes cfg (kind_of call) (w_db w) (w_db (perform w call).2).
Proof.
  intros [Hdb Hb Ha].
  destruct call; simpl;
    first [apply start_changes|apply auth_refresh_changes|apply auth_logout_changes
          |apply auth_status_changes|apply register_changes|apply create_api_key_changes
          |apply list_api_keys_changes|apply revoke_api_key_changes|apply authenticate_changes
          |apply authenticate_inference_changes|by apply verify_email_changes|by apply rtc_refl|idtac].
  - pose proof (poll_begin_changes cfg (w_db w) tx request) as Hc. by destruct (poll_begin _ _ _ _).
  - destruct (w_begun w !! i) as [[? ?]|]; by apply rtc_refl.
  - destruct (w_asked w !! i) as [[[request row] poll]|] eqn:Hi; [|by apply rtc_refl].
    rewrite Forall_lookup in Ha. destruct (Ha i _ Hi) as [[Hp _] _].
    pose proof (poll_finish_changes cfg uuid_text (w_db w) tx d _ row _ poll Hp) as Hc. simpl in Hc.
    by destruct (poll_finish _ _ _ _ _ _ _ _).
  - destruct (w_checked w !! i); [apply login_finish_changes|by apply rtc_refl].
Qed.

Lemma perform_ok w call : world_ok w → world_ok (perform w call).2.
Proof.
  intros Hok. pose proof (perform_changes w call Hok) as Hc.
  destruct Hok as [Hdb Hb Ha]. pose proof (changes_moves _ _ _ _ Hc) as Hm.
  pose proof (changes_ok _ _ _ _ Hc Hdb) as Hdb'.
  assert (Forall (begun_ok (w_db (perform w call).2)) (w_begun w)) as Hb'
    by (eapply Forall_impl; [exact Hb|]; intros p; by apply begun_ok_moves).
  assert (Forall (asked_ok (w_db (perform w call).2)) (w_asked w)) as Ha'
    by (eapply Forall_impl; [exact Ha|]; intros p; by apply asked_ok_moves).
  destruct call; simpl in *; try (by constructor).
  - destruct (poll_begin _ _ _ _) as [answer db'] eqn:Hp. constructor; simpl in *; try done.
    apply Forall_app. split; [done|]. destruct answer as [[a|row]|e]; [constructor| |constructor].
    apply Forall_singleton. pose proof (poll_begin_changes cfg (w_db w) tx request) as Hpc.
    rewrite Hp in Hpc. apply poll_begin_Ok in Hp as (Hf & Hs & Hprov & _ & Hpr).
    split; [done|]. split; [done|]. split; [done|].
    destruct (mv_flows _ _ (changes_moves _ _ _ _ Hpc) _ _ Hf) as (f' & Hf' & Hk). by exists f'.
  - destruct (w_begun w !! i) as [[request row]|] eqn:Hi; [|by constructor].
    constructor; simpl in *; [done|by apply Forall_delete|].
    apply Forall_app. split; [done|]. apply Forall_singleton.
    rewrite Forall_lookup in Hb. exact (asked_ok_poll _ (request, row) now github Hdb (Hb i _ Hi)).
  - destruct (w_asked w !! i) as [[[request row] poll]|] eqn:Hi; [|by constructor].
    destruct (poll_finish _ _ _ _ _ _ _ _). constructor; simpl in *; [done..|by apply Forall_delete].
  - destruct (w_checked w !! i); by constructor.
Qed.

Lemma run_ok w calls : world_ok w → world_ok (run w calls).2.
Proof.
  revert w. induction calls as [|call calls IH]; intros w Hok; [done|]. simpl.
  apply (perform_ok w call) in Hok. destruct (perform w call) as [o w']. specialize (IH w' Hok).
  by destruct (run w' calls).
Qed.

Lemma run_moves w calls : world_ok w → moves (w_db w) (w_db (run w calls).2).
Proof.
  revert w. induction calls as [|call calls IH]; intros w Hok; [done|]. simpl.
  pose proof (changes_moves _ _ _ _ (perform_changes w call Hok)) as Hc.
  apply (perform_ok w call) in Hok. destruct (perform w call) as [o w'].
  specialize (IH w' Hok). destruct (run w' calls). by etrans.
Qed.

Lemma run_app w l1 l2 :
  run w (l1 ++ l2) = ((run w l1).1 ++ (run (run w l1).2 l2).1, (run (run w l1).2 l2).2).
Proof.
  revert w. induction l1 as [|call l1 IH]; intros w; simpl; [by destruct (run w l2)|].
  destruct (perform w call) as [o w']. rewrite IH. destruct (run w' l1) as [r w'']. simpl.
  by rewrite app_assoc.
Qed.

Lemma fresh_world_ok b : books_ok b → world_ok (fresh_world b).
Proof.
  intros Hb. constructor; [|constructor..]. constructor; simpl; try done;
    try (intros ?????; by rewrite lookup_empty); try apply map_Forall_empty.
Qed.
End runs.
