(* ===== verification/Sessions.v ===== *)
(** * What logins, sessions, API keys and mailboxes promise

    The theorems about identities, each for every run of the service from its
    first day: calls of any clients in any order, polls and password checks
    interrupted anywhere. *)
From S2P Require Import Prelude Text Net Ledger StandardData Envelope Store Api Postings JobOps Tables NodeRequests Nodes Requests Identity AuthRoutes WebAuth ApiKeys IdentitySpec IdentityRuns.

Local Open Scope string_scope.
Local Open Scope list_scope.
Local Open Scope Z_scope.

Section sessions.
Context `{C : Crypto, ED : Ed25519, AR : Argon2, LE : Lettre} (cfg : AuthConfig).
Context (uuid_text : Z → string).

Local Abbreviation perform := (perform cfg uuid_text).
Local Abbreviation run := (run cfg uuid_text).

(** ** Logins *)

(** A call that opens a login is the end of a poll. *)
Lemma perform_opened w call flow l w' :
  world_ok cfg w → perform w call = (Some (flow, l), w') →
  ∃ i tx d request row identity db1,
    call = PollFinish i tx d ∧ poll_flow_id request = flow
    ∧ asked_ok cfg (w_db w) (request, row, Ok (Authorized identity))
    ∧ login_opened cfg (w_db w) (w_db w') tx d flow row l
    ∧ login_account cfg (w_db w) (now_v7 tx 0%nat) identity = Ok (login_user l, db1)
    ∧ changes cfg (Issues d) db1 (w_db w')
    ∧ w_asked w !! i = Some (request, row, Ok (Authorized identity)).
Proof.
  intros Hok Hp. destruct call; simpl in Hp;
    try (by (repeat case_match; simplify_eq)).
  destruct (w_asked w !! i) as [[[request row] poll]|] eqn:Hi; [|by simplify_eq].
  pose proof (world_asked _ _ Hok) as Ha. rewrite Forall_lookup in Ha. specialize (Ha i _ Hi).
  destruct (poll_finish _ _ _ _ _ _ _ _) as [answer db'] eqn:Hf.
  destruct answer as [[|l']|e]; try by simplify_eq. injection Hp as <- <- <-. simpl.
  unfold poll_finish in Hf. destruct poll as [[| |identity| |]|]; try by simplify_eq.
  destruct (authorized_tx _ _ _ _ _ _ _ _) as [[answer db1]|e] eqn:Hx; [|by simplify_eq].
  injection Hf as -> ->.
  destruct Ha as [[Hpr Hrest] Hid].
  pose proof (authorized_tx_logged _ _ _ _ _ _ _ _ _ _ _ Hx Hpr) as [Ho (db2 & Hacc & Hch)].
  exists i, tx, d, request, row, identity, db2. split_and!; done.
Qed.

(** A flow that is not pending never logs in again. *)
Lemma ended_flow_stays w calls flow f :
  world_ok cfg w → flows (w_db w) !! flow = Some f → flow_status f ≠ "pending" →
  countb (λ p, p.1 =? flow) (run w calls).1 = 0.
Proof.
  revert w f. induction calls as [|call calls IH]; intros w f Hok Hf Hs; [done|]. simpl.
  destruct (perform w call) as [o w'] eqn:Hp. 
  pose proof (perform_ok cfg uuid_text w call Hok) as Hok'. rewrite Hp in Hok'.
  pose proof (changes_moves _ _ _ _ (perform_changes cfg uuid_text w call Hok)) as Hm.
  rewrite Hp in Hm. destruct Hm as [_ _ Mf _ _ _].
  destruct (Mf _ f Hf) as (f' & Hf' & _ & _ & Hpend & _). 
  assert (flow_status f' ≠ "pending") as Hs' by (by intros [? _]%Hpend).
  specialize (IH w' f' Hok' Hf' Hs'). destruct (run w' calls) as [rest w'']. simpl in *.
  destruct o as [[g l]|]; simpl; [|done]. rewrite countb_cons, IH. simpl.
  destruct (Z.eqb_spec g flow) as [->|]; [|done].
  apply perform_opened in Hp as (i & tx & d & request & row & identity & db1 & _ & _ & _ & [_ _ _ (h & Hh & Hst & _)] & _);
    [|done]. congruence.
Qed.

Lemma opened_at_most_once w calls flow :
  world_ok cfg w → countb (λ p, p.1 =? flow) (run w calls).1 ≤ 1.
Proof.
  revert w. induction calls as [|call calls IH]; intros w Hok; [done|]. simpl.
  destruct (perform w call) as [o w'] eqn:Hp.
  pose proof (perform_ok cfg uuid_text w call Hok) as Hok'. rewrite Hp in Hok'. simpl in Hok'.
  pose proof (IH w' Hok') as IH'. pose proof (ended_flow_stays w' calls flow) as Hend.
  destruct (run w' calls) as [rest w'']. simpl in *.
  destruct o as [[g l]|]; simpl; [|done]. rewrite countb_cons. simpl.
  destruct (Z.eqb_spec g flow) as [->|]; [|simpl; lia].
  apply perform_opened in Hp as (i & tx & d & request & row & identity & db1 & _ & _ & _ & [_ _ _ (h & Hh & _ & _ & Hfin)] & _);
    [|done]. rewrite (Hend _ Hok' Hfin); [simpl; lia|done].
Qed.

(** The place in a run where a login was opened. *)
Lemma run_opened w calls flow l :
  (flow, l) ∈ (run w calls).1 →
  ∃ before call after, calls = before ++ call :: after
    ∧ (perform (run w before).2 call).1 = Some (flow, l).
Proof.
  revert w. induction calls as [|call calls IH]; intros w; [by intros ?%elem_of_nil|]. simpl.
  destruct (perform w call) as [o w'] eqn:Hp. destruct (run w' calls) as [rest w''] eqn:Hr. simpl.
  rewrite elem_of_app. intros [Ho|Hin].
  - exists [], call, calls. split; [done|]. simpl. rewrite Hp. destruct o as [p|]; [|by apply elem_of_nil in Ho].
    by apply list_elem_of_singleton in Ho as ->.
  - destruct (IH w') as (before & call' & after & -> & E); [by rewrite Hr|].
    exists (call :: before), call', after. split; [done|]. simpl. rewrite Hp.
    by destruct (run w' before).
Qed.


(** ** Tokens *)

(** The draws of the calls that may issue tokens. *)
Definition draws_of (calls : list IdCall) : list Draws :=
  omap (λ call, match kind_of call with Issues d => Some d | _ => None end) calls.

(** The tokens of a session are its old ones or those of an issuing step. *)
Lemma changes_tokens kind db db' i s' :
  changes cfg kind db db' → sessions db' !! i = Some s' →
  (∃ s, sessions db !! i = Some s
     ∧ (access_token_hash s', refresh_token_hash s') = (access_token_hash s, refresh_token_hash s))
  ∨ issues cfg kind s'.
Proof.
  intros Hc. revert s'. induction Hc as [db|db1 db2 db3 H12 _ IH]; intros s' Hs'; [left; by exists s'|].
  destruct (IH s' Hs') as [(s2 & Hs2 & E)|]; [|by right].
  destruct H12; simpl in *; try (left; by exists s2).
  - rewrite lookup_insert_Some in Hs2. destruct Hs2 as [[_ ->]|[_ Hs2]]; [|left; by exists s2].
    right. unfold issues in *. by injection E as -> ->.
  - match goal with H : rows_kept _ _ _ |- _ =>
      destruct (rows_kept_old _ _ _ _ _ H Hs2) as (s & Hs & _ & Es) end.
    left. exists s. split; [done|congruence].
  - rewrite lookup_insert_Some in Hs2. destruct Hs2 as [[_ ->]|[_ Hs2]]; [|left; by exists s2].
    right. unfold issues in *. by injection E as -> ->.
Qed.

Lemma run_tokens w calls i s' :
  world_ok cfg w → sessions (w_db (run w calls).2) !! i = Some s' →
  (∃ s, sessions (w_db w) !! i = Some s
     ∧ (access_token_hash s', refresh_token_hash s') = (access_token_hash s, refresh_token_hash s))
  ∨ ∃ d, d ∈ draws_of calls ∧ access_token_hash s' = issued_access_hash (issue cfg d)
      ∧ refresh_token_hash s' = issued_refresh_hash (issue cfg d).
Proof.
  revert w s'. induction calls as [|call calls IH]; intros w s' Hok; simpl; [intros; left; by exists s'|].
  pose proof (perform_changes cfg uuid_text w call Hok) as Hc.
  apply (perform_ok cfg uuid_text w call) in Hok. destruct (perform w call) as [o w'].
  specialize (IH w' s' Hok). destruct (run w' calls) as [r w'']. simpl in *. intros Hs'.
  destruct (IH Hs') as [(s & Hs & E)|(d & Hd & E)].
  - destruct (changes_tokens _ _ _ _ _ Hc Hs) as [(s0 & Hs0 & E0)|(d & Hk & E1 & E2)].
    + left. exists s0. split; [done|congruence].
    + right. exists d. split; [|by injection E as -> ->].
      change (d ∈ draws_of (call :: calls)). apply list_elem_of_omap. exists call. split; [by left|]. by rewrite Hk.
  - right. exists d. split; [|done]. apply list_elem_of_omap in Hd as (c & Hc' & Hd).
    change (d ∈ draws_of (call :: calls)). apply list_elem_of_omap. exists c. split; [by right|done].
Qed.

(** ** Who is answered *)

(** Some request, at some time and with some header or token, is answered for the session. *)
Definition answered_for (db : IdDb) (id : Z) : Prop :=
  (∃ now auth p name, (authenticate cfg db now auth).1 = Ok (p, name) ∧ session_id p = id)
  ∨ (∃ now auth p name, (authenticate_inference cfg db now auth).1 = Ok (p, name) ∧ session_id p = id)
  ∨ (∃ now hash s k, refreshable db now hash = Some (id, s, k)).

Lemma authenticate_inference_Ok db now auth p name db' :
  authenticate_inference cfg db now auth = (Ok (p, name), db') →
  authenticate cfg db now auth = (Ok (p, name), db')
  ∨ ∃ token id, auth = Some ("Bearer " +:+ token) ∧ is_Some (strip_prefix "mok_" token)
      ∧ api_principal_of db (token_hash cfg token) = Some (id, (p, name)).
Proof.
  unfold authenticate_inference. destruct (bearer _ _) as [token|e] eqn:Hb; [|intros; by simplify_eq].
  destruct (strip_prefix "mok_" token) as [r|] eqn:Hm; [|by left].
  destruct (api_principal_of _ _) as [[id q]|] eqn:Hp; [|intros; by simplify_eq].
  intros [= -> _]. right. exists token, id. split; [|by rewrite Hm; split].
  unfold bearer in Hb. apply bind_Ok in Hb as (h & ->%ok_or_Ok & (t & Hs & Ht)%ok_or_Ok%bind_Some).
  case_if; [done|]. injection Ht as ->. by apply strip_prefix_Some in Hs as ->.
Qed.

Lemma revoked_not_answered db id s :
  sessions db !! id = Some s → is_Some (session_revoked_at s) → ¬ answered_for db id.
Proof.
  intros Hs [t Ht].
  assert (∀ now auth p name, (authenticate cfg db now auth).1 = Ok (p, name) → session_id p ≠ id) as Hno.
  { intros now auth p name Ha <-. destruct (authenticate _ _ _ _) as [a db'] eqn:E. simpl in Ha. subst a.
    apply authenticate_Ok in E as (token & s' & k & _ & Hs' & _ & _ & _ & Hr & _). congruence. }
  intros [(now & auth & p & name & Ha & E)|[(now & auth & p & name & Ha & <-)|(now & hash & s' & k & Hr)]].
  - by eapply Hno.
  - destruct (authenticate_inference _ _ _ _) as [a db'] eqn:E. simpl in Ha. subst a.
    apply authenticate_inference_Ok in E as [E|(token & id & _ & _ & Hp)].
    + by apply (Hno now auth p name); [rewrite E|].
    + apply api_principal_Some in Hp as (k & s' & d & _ & _ & _ & _ & _ & _ & Hs' & Hr & _). congruence.
  - apply refreshable_Some in Hr as (Hs' & _ & Hr & _). congruence.
Qed.

Lemma revocation_stays w calls id s :
  world_ok cfg w → sessions (w_db w) !! id = Some s → is_Some (session_revoked_at s) →
  ¬ answered_for (w_db (run w calls).2) id.
Proof.
  intros Hok Hs [t Ht]. destruct (mv_sessions _ _ (run_moves cfg uuid_text w calls Hok) _ _ Hs) as (s' & Hs' & _ & Hst).
  eapply revoked_not_answered; [exact Hs'|]. eexists. by apply Hst.
Qed.

(** A token whose session no longer has it opens nothing, until a step issues it again. *)
Lemma replaced_token w calls now hash :
  world_ok cfg w → (∀ i s, sessions (w_db w) !! i = Some s → refresh_token_hash s ≠ hash) →
  refreshable (w_db (run w calls).2) now hash = None
  ∨ ∃ d, d ∈ draws_of calls ∧ issued_refresh_hash (issue cfg d) = hash.
Proof.
  intros Hok Hno. destruct (refreshable _ _ _) as [[[i s'] k]|] eqn:Hr; [|by left]. right.
  apply refreshable_Some in Hr as (Hs' & Hh & _).
  destruct (run_tokens _ _ _ _ Hok Hs') as [(s & Hs & [= _ E])|(d & Hd & _ & E)].
  - destruct (Hno i s Hs). congruence.
  - exists d. split; [done|congruence].
Qed.

Lemma replaced_access w calls now hash :
  world_ok cfg w → (∀ i s, sessions (w_db w) !! i = Some s → access_token_hash s ≠ hash) →
  principal_of (w_db (run w calls).2) now hash = None
  ∨ ∃ d, d ∈ draws_of calls ∧ issued_access_hash (issue cfg d) = hash.
Proof.
  intros Hok Hno. destruct (principal_of _ _ _) as [q|] eqn:Hr; [|by left]. right.
  unfold principal_of in Hr. apply bind_Some in Hr as ([i s'] & Hf & _).
  apply find_row_Some in Hf as [Hs' Hh%String.eqb_eq].
  destruct (run_tokens _ _ _ _ Hok Hs') as [(s & Hs & [= E _])|(d & Hd & E & _)].
  - destruct (Hno i s Hs). congruence.
  - exists d. split; [done|congruence].
Qed.

(** ** Mailboxes *)

(** Somebody has sent the login form with the password of the account and this user code. *)
Definition password_given (calls : list IdCall) (hash code : string) : Prop :=
  ∃ form, LoginBegin form ∈ calls
    ∧ normalize_user_code (login_user_code form) = Ok code
    ∧ argon2_verify (login_password form) hash = Some true.

(** Somebody has sent a token that was mailed to the account. *)
Definition mail_received (calls : list IdCall) (db : IdDb) (user : Z) : Prop :=
  ∃ tx token id v, VerifyEmail tx token ∈ calls ∧ verifications db !! id = Some v
    ∧ verification_user v = user ∧ verification_hash v = token_hash cfg token.

(** A login that was confirmed in the browser. *)
Definition flow_approved (calls : list IdCall) (db : IdDb) (f : FlowRow) : Prop :=
  ∀ u t, email_authorized f = Some (u, t) →
    ∃ a hash, users db !! u = Some a ∧ password_hash a = Some hash
      ∧ password_given calls hash (flow_user_code f).

(** What the tables owe to the calls so far. *)
Record earned (calls : list IdCall) (w : World) : Prop := mkEarned {
  earned_checks : Forall (λ c, password_given calls (checked_hash c) (checked_code c)) (w_checked w);
  earned_flows : map_Forall (λ _, flow_approved calls (w_db w)) (flows (w_db w));
  earned_mail : ∀ u a, users (w_db w) !! u = Some a → is_Some (email_verified_at a) →
    mail_received calls (w_db w) u;
}.

Lemma password_given_more calls calls' hash code :
  (∀ c, c ∈ calls → c ∈ calls') → password_given calls hash code → password_given calls' hash code.
Proof. intros H (form & Hin & Hf). exists form. auto. Qed.

Lemma mail_received_more calls calls' db db' u :
  (∀ c, c ∈ calls → c ∈ calls') → moves db db' → mail_received calls db u → mail_received calls' db' u.
Proof.
  intros H Hm (tx & token & id & v & Hin & Hv & Hu & Hh).
  destruct (mv_verifications _ _ Hm id v Hv) as (v' & Hv' & [[= E1 E2] _]).
  exists tx, token, id, v'. split_and!; [auto|done|congruence..].
Qed.

Lemma flow_approved_more calls calls' db db' f g :
  (∀ c, c ∈ calls → c ∈ calls') → moves db db' → flow_user_code g = flow_user_code f →
  email_authorized g = email_authorized f → flow_approved calls db f → flow_approved calls' db' g.
Proof.
  intros H Hm Ec Ea Hf u t. rewrite Ea, Ec. intros (a & hash & Ha & Hh & Hp)%Hf.
  destruct (mv_users _ _ Hm u a Ha) as (a' & Ha' & [= _ _ _ E] & _).
  exists a', hash. split_and!; [done|congruence|by eapply password_given_more].
Qed.

(** Only a confirmation confirms, and only a verification verifies. *)
Lemma changes_confirm kind db db' i g u t :
  changes cfg kind db db' → kind ≠ Confirms → flows db' !! i = Some g →
  email_authorized g = Some (u, t) →
  ∃ f, flows db !! i = Some f ∧ email_authorized f = Some (u, t)
    ∧ flow_user_code g = flow_user_code f.
Proof.
  intros Hc Hk. revert g. induction Hc as [db|db1 db2 db3 H12 _ IH]; intros g Hg He; [by exists g|].
  destruct (IH g Hg He) as (g2 & Hg2 & He2 & Ec).
  destruct H12; simpl in *; try (by exists g2).
  - rewrite lookup_insert_Some in Hg2. destruct Hg2 as [[_ ->]|[_ Hg2]]; [congruence|by exists g2].
  - match goal with H : rows_kept _ _ _ |- _ =>
      destruct (rows_kept_old _ _ _ _ _ H Hg2) as (f & Hf & [[= _ _ E _] _] & [Ea|[? _]]) end; [|done].
    exists f. split; [done|]. split; congruence.
Qed.

Lemma changes_verify kind db db' i b :
  changes cfg kind db db' → kind ≠ Verifies → users db' !! i = Some b →
  is_Some (email_verified_at b) →
  ∃ a, users db !! i = Some a ∧ is_Some (email_verified_at a).
Proof.
  intros Hc Hk. revert b. induction Hc as [db|db1 db2 db3 H12 _ IH]; intros b Hb Hv; [by exists b|].
  destruct (IH b Hb Hv) as (b2 & Hb2 & Hv2). destruct H12; simpl in *; try (by exists b2).
  - rewrite lookup_insert_Some in Hb2. destruct Hb2 as [[_ ->]|[_ Hb2]]; [|by exists b2].
    destruct Hv2. congruence.
  - match goal with H : rows_kept _ _ _ |- _ =>
      destruct (rows_kept_old _ _ _ _ _ H Hb2) as (a & Ha & _ & [[? _]|Ea]) end; [done|].
    exists a. split; [done|]. by rewrite <-Ea.
Qed.


Lemma flows_earned calls calls' kind db db' :
  (∀ c, c ∈ calls → c ∈ calls') → changes cfg kind db db' → kind ≠ Confirms →
  map_Forall (λ _, flow_approved calls db) (flows db) →
  map_Forall (λ _, flow_approved calls' db') (flows db').
Proof.
  intros H Hc Hk Hf i g Hg u t He.
  destruct (changes_confirm _ _ _ _ _ _ _ Hc Hk Hg He) as (f & Hf' & Ef & Ec).
  eapply (flow_approved_more _ _ _ _ f g H (changes_moves _ _ _ _ Hc) Ec); [congruence|by eapply Hf|done].
Qed.

Lemma mail_earned calls calls' kind db db' :
  (∀ c, c ∈ calls → c ∈ calls') → changes cfg kind db db' → kind ≠ Verifies →
  (∀ u a, users db !! u = Some a → is_Some (email_verified_at a) → mail_received calls db u) →
  ∀ u a, users db' !! u = Some a → is_Some (email_verified_at a) → mail_received calls' db' u.
Proof.
  intros H Hc Hk Hm u b Hb Hv.
  destruct (changes_verify _ _ _ _ _ Hc Hk Hb Hv) as (a & Ha & Hva).
  eapply mail_received_more; [exact H|by eapply changes_moves|by eapply Hm].
Qed.

Lemma confirm_earned calls calls' db tx c db' :
  (∀ c, c ∈ calls → c ∈ calls') → login_finish db tx c = (Ok tt, db') →
  password_given calls (checked_hash c) (checked_code c) →
  map_Forall (λ _, flow_approved calls db) (flows db) →
  map_Forall (λ _, flow_approved calls' db') (flows db').
Proof using AR C cfg.
  intros H Hx Hc Hf. apply login_finish_Ok with (cfg := cfg) in Hx as (Hch & (a & Ha & _ & Hh & _) & Hdb').
  pose proof (changes_moves _ _ _ _ Hch) as Hm. intros i g Hg. rewrite Hdb' in Hg. simpl in Hg.
  apply lookup_fmap_Some in Hg as (f & <- & Hl). destruct (confirmable _ _ f) eqn:Hcf.
  - intros u t [= <- <-]. exists a, (checked_hash c). rewrite Hdb'. split_and!; [done..|].
    eapply password_given_more; [exact H|]. simpl. unfold confirmable in Hcf.
    rewrite !andb_true_iff, !String.eqb_eq in Hcf. by destruct Hcf as [[[[_ ->] _] _] _].
  - eapply flow_approved_more; [exact H|exact Hm|done|done|by eapply Hf].
Qed.

Lemma verify_earned calls calls' db tx token db' :
  identity_ok cfg db → (∀ c, c ∈ calls → c ∈ calls') → VerifyEmail tx token ∈ calls' →
  verify_email_handler cfg db tx token = (Ok MailboxVerified, db') →
  (∀ u a, users db !! u = Some a → is_Some (email_verified_at a) → mail_received calls db u) →
  ∀ u a, users db' !! u = Some a → is_Some (email_verified_at a) → mail_received calls' db' u.
Proof.
  intros Hok H Hin Hx Hm u b Hb Hv.
  apply verify_email_verified in Hx as (Hc & id & v & Hl & Hh & _ & _ & Ev & Eu & _); [|done].
  destruct (decide (u = verification_user v)) as [->|Hne].
  - exists tx, token, id, (verification_used (tx_now tx) v). split_and!; [done| |done..].
    by rewrite Ev, lookup_alter_eq, Hl.
  - rewrite Eu, lookup_alter_ne in Hb by done.
    eapply mail_received_more; [exact H|by eapply changes_moves|by eapply Hm].
Qed.

Lemma perform_earned calls w call :
  world_ok cfg w → earned calls w → earned (calls ++ [call]) (perform w call).2.
Proof.
  intros Hok [Hc Hf Hm]. pose proof (perform_changes cfg uuid_text w call Hok) as Hch.
  assert (∀ c, c ∈ calls → c ∈ calls ++ [call]) as Hincl by set_solver.
  constructor.
  - assert (Forall (λ c, password_given (calls ++ [call]) (checked_hash c) (checked_code c)) (w_checked w))
      as Hc' by (eapply Forall_impl; [exact Hc|]; intros c; by apply password_given_more).
    destruct call; simpl; try done; repeat case_match; simplify_eq; simpl; try done.
    + apply Forall_app. split; [done|]. apply Forall_singleton.
      match goal with H : login_begin _ _ = Ok _ |- _ => apply login_begin_Ok in H as (_ & Hcode & Hv & _) end.
      exists form. split; [set_solver|done].
    + rewrite app_nil_r. done.
    + by apply Forall_delete.
  - destruct call; try (by eapply flows_earned; [exact Hincl|exact Hch|done|]).
    simpl in *. destruct (w_checked w !! i) as [c|] eqn:Hi; simpl in *.
    + destruct (login_finish _ _ _) as [[[]|e] db'] eqn:Hx.
      * eapply confirm_earned; [exact Hincl|exact Hx| |done]. by eapply Forall_lookup_1 in Hc.
      * apply id_transaction_error in Hx as ->. simpl.
        eapply (flows_earned _ _ Plain); [exact Hincl|by apply rtc_refl|done|done].
    + eapply (flows_earned _ _ Plain); [exact Hincl|by apply rtc_refl|done|done].
  - destruct call; try (by eapply mail_earned; [exact Hincl|exact Hch|done|]).
    simpl in *. destruct (verify_email_handler _ _ _ _) as [r db'] eqn:Hx. simpl in *.
    destruct (decide (r = Ok MailboxVerified)) as [->|Hne].
    + eapply (verify_earned calls _ _ tx token); [apply Hok|exact Hincl|set_solver|exact Hx|done].
    + apply verify_email_other in Hx as ->; [|done].
      eapply (mail_earned _ _ Plain); [exact Hincl|by apply rtc_refl|done|done].
Qed.

Lemma run_earned calls w more :
  world_ok cfg w → earned calls w → earned (calls ++ more) (run w more).2.
Proof.
  revert calls w. induction more as [|call more IH]; intros calls w Hok He; [by rewrite app_nil_r|]. simpl.
  pose proof (perform_earned calls w call Hok He) as He'.
  apply (perform_ok cfg uuid_text w call) in Hok. destruct (perform w call) as [o w'].
  specialize (IH _ w' Hok He'). rewrite <-app_assoc in IH. by destruct (run w' more).
Qed.

Lemma fresh_earned b : earned [] (fresh_world b).
Proof. constructor; simpl; [constructor|apply map_Forall_empty|]. intros u a. by rewrite lookup_empty. Qed.

(** *** API keys *)

Lemma strip_prefix_nonempty t rest : strip_prefix "mok_" t = Some rest → str_is_empty t = false.
Proof. by destruct t. Qed.

Lemma bearer_of missing t rest :
  strip_prefix "mok_" t = Some rest → bearer missing (Some ("Bearer " +:+ t)) = Ok t.
Proof. intros Hr%strip_prefix_nonempty. unfold bearer. simpl.
  change ("" +:+ t) with t. by rewrite Hr. Qed.

(** A key whose revocation was answered is revoked, and stays so. *)
Lemma revoked_key_stays w tx auth id after r :
  world_ok cfg w → (revoke_api_key cfg (w_db w) tx auth id).1 = Ok r →
  ∃ k, api_keys (w_db (run w (RevokeKey tx auth id :: after)).2) !! id = Some k
    ∧ api_key_revoked_at k ≠ None.
Proof.
  intros Hok Hr. pose proof (perform_ok cfg uuid_text w (RevokeKey tx auth id) Hok) as Hok'.
  simpl in *. destruct (revoke_api_key _ _ _ _ _) as [a db'] eqn:Hx. simpl in *. subst a.
  assert (∃ k, api_keys db' !! id = Some k ∧ is_Some (api_key_revoked_at k)) as (k & Hk & t & Ht).
  { apply authenticated_Ok in Hx as (p & n & db1 & _ & Hb).
    apply bind_Ok in Hb as (k & (x & Hx & Hk)%ok_or_Ok%bind_Some & Hb).
    destruct (_ =? _); [injection Hk as ->|done].
    case_bool_decide as Hn.
    - apply bind_Ok in Hb as (db2 & He & [= _ <-]). unfold insert_key_event in He.
      apply bind_Ok in He as ([] & _ & [= <-]). simpl. rewrite lookup_insert_eq.
      eexists. split; [done|]. by eexists.
    - injection Hb as _ <-. exists k. split; [done|]. by apply not_eq_None_Some. }
  pose proof (run_moves cfg uuid_text _ after Hok') as Hm.
  destruct (run _ after) as [o w'']. simpl in *.
  destruct (mv_api_keys _ _ Hm id k Hk) as (k' & Hk' & _ & _ & Hst). exists k'. split; [done|].
  by rewrite (Hst _ Ht).
Qed.

(** ** The promises *)

Section promises.
Context (b : Books) (Hb : books_ok b).

Local Abbreviation reached calls := (w_db (run (fresh_world b) calls).2).

Lemma reached_world calls : world_ok cfg (run (fresh_world b) calls).2.
Proof using Hb. by apply run_ok, fresh_world_ok. Qed.

Lemma after_call calls call db' :
  w_db (perform (run (fresh_world b) calls).2 call).2 = db' →
  world_ok cfg (perform (run (fresh_world b) calls).2 call).2 ∧ identity_ok cfg db'.
Proof using Hb. intros <-. pose proof (perform_ok cfg uuid_text _ call (reached_world calls)) as H. split; [done|apply H]. Qed.

(** *** Where a login comes from *)

(** The flow was started by an answered call: under the key and the challenge of
    that call, and under the device code of its provider. *)
Definition started_by (calls : list IdCall) (flow : Z) (f : FlowRow) : Prop :=
  ∃ before tx d github pk after r key start,
    calls = before ++ DeviceStart tx d github pk :: after
    ∧ (auth_device_start cfg (reached before) tx d github pk).1 = Ok r ∧ start_flow_id r = flow
    ∧ validate_device_public_key pk = Ok key ∧ device_public_key f = Some (hex_encode key)
    ∧ provider_start cfg d github (device_key_fingerprint key) = Ok start
    ∧ provider_device_code f = start_device_code start ∧ flow_user_code f = response_user_code r
    ∧ (flow_status f = "pending" → device_key_challenge f = Some (response_challenge r)).

(** The poll has read its flow as it then was, and checked its signature. *)
Definition begun_by (calls : list IdCall) (p : DevicePollRequest * FlowRow) : Prop :=
  ∃ before tx after,
    calls = before ++ PollBegin tx p.1 :: after
    ∧ (poll_begin cfg (reached before) tx p.1).1 = Ok (inr p.2)
    ∧ started_by before (poll_flow_id p.1) p.2.

(** The provider was asked about the flow of that poll, and answered this. *)
Definition asked_by (calls : list IdCall)
    (p : DevicePollRequest * FlowRow * result ProviderError ProviderPoll) : Prop :=
  ∃ before j now github after,
    calls = before ++ PollAsk j now github :: after
    ∧ w_begun (run (fresh_world b) before).2 !! j = Some p.1 ∧ begun_by before p.1
    ∧ p.2 = provider_poll cfg (reached before) now github (provider_device_code p.1.2).

Record traced (calls : list IdCall) (w : World) : Prop := mkTraced {
  traced_flows : map_Forall (started_by calls) (flows (w_db w));
  traced_begun : Forall (begun_by calls) (w_begun w);
  traced_asked : Forall (asked_by calls) (w_asked w);
}.

Lemma started_by_kept calls call flow f g :
  flow_kept f g → started_by calls flow f → started_by (calls ++ [call]) flow g.
Proof.
  intros ([= _ E2 E3 _] & [= E4 _ _] & E5 & _) (bf & tx & d & gh & pk & af & r & key & st & -> & H1 & H2 & H3 & H4 & H5 & H6 & H7 & H8).
  exists bf, tx, d, gh, pk, (af ++ [call]), r, key, st. rewrite <-app_assoc.
  split_and!; try done; [congruence..|]. intros [Hp ->]%E5. by apply H8.
Qed.

Lemma begun_by_more calls call p : begun_by calls p → begun_by (calls ++ [call]) p.
Proof.
  intros (bf & tx & af & -> & H). exists bf, tx, (af ++ [call]). by rewrite <-app_assoc.
Qed.

Lemma asked_by_more calls call p : asked_by calls p → asked_by (calls ++ [call]) p.
Proof.
  intros (bf & j & now & gh & af & -> & H). exists bf, j, now, gh, (af ++ [call]). by rewrite <-app_assoc.
Qed.

(** Only a start brings a flow. *)
Lemma changes_flow_old kind db db' i g :
  changes cfg kind db db' → kind ≠ Starts → flows db' !! i = Some g →
  ∃ f, flows db !! i = Some f ∧ flow_kept f g.
Proof.
  intros Hc Hk. revert g. induction Hc as [db|db1 db2 db3 H12 _ IH]; intros g Hg; [by exists g|].
  destruct (IH g Hg) as (g2 & Hg2 & Kg). destruct H12; simpl in *; try (by exists g2).
  match goal with H : rows_kept _ _ _ |- _ =>
    destruct (rows_kept_old _ _ _ _ _ H Hg2) as (f & Hf & Kf & _) end.
  exists f. split; [done|by etrans].
Qed.

Lemma start_flow_inserted db tx d github pk :
  (auth_device_start cfg db tx d github pk).2 = db
  ∨ ∃ r key start f, (auth_device_start cfg db tx d github pk).1 = Ok r
      ∧ flows (auth_device_start cfg db tx d github pk).2 = <[start_flow_id r := f]> (flows db)
      ∧ validate_device_public_key pk = Ok key ∧ device_public_key f = Some (hex_encode key)
      ∧ provider_start cfg d github (device_key_fingerprint key) = Ok start
      ∧ provider_device_code f = start_device_code start ∧ flow_user_code f = response_user_code r
      ∧ device_key_challenge f = Some (response_challenge r).
Proof.
  destruct (auth_device_start cfg db tx d github pk) as [[r|e] db'] eqn:Hs; simpl; last first.
  { left. by apply id_transaction_error in Hs. }
  right. apply id_transaction_Ok in Hs. apply bind_Ok in Hs as (key & Hk & Hs).
  apply bind_Ok in Hs as (start & Hst%map_err_Ok & Hs). apply bind_Ok in Hs as (ex & _ & Hs).
  apply bind_Ok in Hs as (sec & _ & Hs). apply bind_Ok in Hs as (db1 & Hi & [= <- <-]).
  apply insert_flow_Ok in Hi as [_ ->]. exists (mkStartResponse (now_v7 tx 0%nat) (start_user_code start)
    (start_verification_uri start) (start_expires_in start) (Z.max sec 1) (hex_encode (flow_challenge_bytes d))), key, start.
  eexists. by split_and!.
Qed.

Lemma perform_traced calls call :
  traced calls (run (fresh_world b) calls).2 →
  traced (calls ++ [call]) (perform (run (fresh_world b) calls).2 call).2.
Proof using Hb.
  intros [Hf Hg Ha]. pose proof (reached_world calls) as Hok.
  pose proof (perform_changes cfg uuid_text _ call Hok) as Hch.
  assert (Forall (begun_by (calls ++ [call])) (w_begun (run (fresh_world b) calls).2)) as Hg'
    by (eapply Forall_impl; [exact Hg|]; intros p; apply begun_by_more).
  assert (Forall (asked_by (calls ++ [call])) (w_asked (run (fresh_world b) calls).2)) as Ha'
    by (eapply Forall_impl; [exact Ha|]; intros p; apply asked_by_more).
  assert (∀ f g flow, flow_kept f g → flows (reached calls) !! flow = Some f →
    started_by (calls ++ [call]) flow g) as Hkeep.
  { intros f g flow Hk Hl. eapply started_by_kept; [exact Hk|by eapply Hf]. }
  constructor.
  - intros flow g Hl. assert (kind_of call = Starts ∨ kind_of call ≠ Starts) as [Hs|Hs]
      by (destruct (kind_of call); (by left) || by right).
    + destruct call; try done. simpl in Hl.
      destruct (start_flow_inserted (reached calls) tx d github public_key)
        as [E|(r & key & start & f & Hr & Efl & H1 & H2 & H3 & H4 & H5 & H6)].
      * rewrite E in Hl. by apply (Hkeep g).
      * rewrite Efl in Hl. apply lookup_insert_Some in Hl as [[Hid <-]|[_ Hl]]; [|by apply (Hkeep g)].
        exists calls, tx, d, github, public_key, [], r, key, start. by split_and!.
    + destruct (changes_flow_old _ _ _ _ _ Hch Hs Hl) as (f & Hfl & Hk). by apply (Hkeep f).
  - destruct call; simpl; repeat case_match; simplify_eq; simpl; rewrite ?app_nil_r; try done.
    + apply Forall_app. split; [done|]. apply Forall_singleton.
      match goal with H : poll_begin _ _ _ _ = _ |- _ => rename H into Hp end.
      exists calls, tx, []. split; [done|]. cbn [fst snd]. split; [by rewrite Hp|].
      apply poll_begin_Ok in Hp as (Hfl & _). by apply Hf.
    + by apply Forall_delete.
  - destruct call; simpl; repeat case_match; simplify_eq; simpl; try done.
    + apply Forall_app. split; [done|]. apply Forall_singleton.
      match goal with H : w_begun _ !! _ = Some _ |- _ => rename H into Hp end.
      exists calls, i, now, github, []. split_and!; try done. by eapply Forall_lookup_1 in Hg.
    + by apply Forall_delete.
    + by apply Forall_delete.
    + by apply Forall_delete.
Qed.

Lemma run_traced calls : traced calls (run (fresh_world b) calls).2.
Proof using Hb.
  induction calls as [|call calls IH] using rev_ind; [constructor; simpl; [apply map_Forall_empty|constructor..]|].
  rewrite run_app. simpl. apply perform_traced with (call := call) in IH.
  by destruct (perform (run (fresh_world b) calls).2 call).
Qed.

(** C12: A device flow opens a session at most once, whatever polls run at the
    same time.  It does so at the end of a poll, while the flow is pending and
    unexpired.  That poll began with a request whose signature, under the device
    key the flow was started with, is over the flow and the challenge the start
    answered; then it asked the provider about the device code of this flow, and
    the provider named an identity.  The new session belongs to the one account
    of that identity, is bound to that device key, which is that user's and not
    revoked, and stores the hashes of the two tokens the client got. *)
Theorem logins_are_proved calls flow l :
  (flow, l) ∈ (run (fresh_world b) calls).1 →
  countb (λ p, p.1 =? flow) (run (fresh_world b) calls).1 = 1
  ∧ ∃ before i tx d after request row identity f s device k u,
      calls = before ++ PollFinish i tx d :: after
      ∧ poll_flow_id request = flow
      ∧ asked_by before (request, row, Ok (Authorized identity))
      ∧ proved flow row (poll_signature request) ∧ flow_status row = "pending"
      ∧ flows (reached before) !! flow = Some f ∧ flow_status f = "pending"
      ∧ now_utc tx 0%nat < flow_expires_at f * 1000
      ∧ (device_public_key f, device_key_challenge f, provider_device_code f)
        = (device_public_key row, device_key_challenge row, provider_device_code row)
      ∧ let after_db := reached (before ++ [PollFinish i tx d]) in
        sessions (reached before) !! now_v7 tx 3%nat = None
        ∧ sessions after_db !! now_v7 tx 3%nat = Some s
        ∧ session_user s = login_user l ∧ session_device s = Some device
        ∧ session_revoked_at s = None
        ∧ access_token_hash s = token_hash cfg (login_access_token l)
        ∧ refresh_token_hash s = token_hash cfg (login_refresh_token l)
        ∧ users after_db !! session_user s = Some u
        ∧ user_provider u = provider_name (auth_provider cfg) ∧ provider_subject u = subject identity
        ∧ (∀ other v, users after_db !! other = Some v → user_provider v = user_provider u →
             provider_subject v = provider_subject u → other = session_user s)
        ∧ device_keys after_db !! device = Some k ∧ key_user k = login_user l
        ∧ device_public_key row = Some (key_public k) ∧ key_revoked_at k = None
        ∧ ¬ (∃ g, flows after_db !! flow = Some g ∧ flow_status g = "pending").
Proof using Hb.
  intros Hin. split.
  { pose proof (opened_at_most_once _ calls flow (fresh_world_ok cfg b Hb)) as Hle.
    pose proof (countb_pos (λ p, p.1 =? flow) _ _ Hin (Z.eqb_refl flow)). lia. }
  apply run_opened in Hin as (before & call & after & -> & Hp).
  destruct (perform _ call) as [o w'] eqn:Hcall. simpl in Hp. subst o.
  pose proof (reached_world before) as Hok. pose proof (perform_ok cfg uuid_text _ call Hok) as Hok'.
  rewrite Hcall in Hok'. simpl in Hok'.
  apply perform_opened in Hcall as Hopen; [|done].
  destruct Hopen as (i & tx & d & request & row & identity & db1 & -> & Hflow & Hasked & [Ht _ Hs Hf] & Hacc & Hch & Hi).
  destruct Hs as (s & device & k & Hs). destruct Hf as (f & Hf & Hst & Hexp & Hfin).
  destruct Hasked as [(Hpr & _ & Hpend & f' & Hf' & Hk) _]. simpl in Hpr, Hf', Hk, Hpend.
  rewrite Hflow in Hpr, Hf'. assert (f' = f) as -> by congruence.
  apply (login_account_Ok cfg (kind := Plain)) in Hacc as (_ & _ & _ & u0 & Hu0 & Hpr0 & Hsub0 & _).
  destruct (mv_users _ _ (changes_moves _ _ _ _ Hch) _ _ Hu0) as (u & Hu & [= Eu1 Eu2 _ _] & _).
  exists before, i, tx, d, after, request, row, identity, f, s, device, k, u.
  assert (reached (before ++ [PollFinish i tx d]) = w_db w') as Hw.
  { rewrite run_app. simpl in *. by rewrite Hcall. }
  rewrite Hw. injection Ht as E1 E2 E3. rewrite E1, E2.
  destruct Hs as (H1 & H2 & H3 & H4 & H5 & H6 & H7 & H8 & H9 & H10 & H11).
  destruct Hk as ([= _ Kc _ _] & [= Kp _ _] & Kch & _). destruct (Kch Hst) as [_ Kch'].
  cbv zeta. split; [done|]. split; [done|]. split; [by eapply (Forall_lookup_1 _ _ _ _ (traced_asked _ _ (run_traced before)))|].
  split; [done|]. split; [done|]. split; [done|]. split; [done|]. split; [done|].
  split; [congruence|]. split_and!; try done; try congruence.
  - intros other v Hv Ev1 Ev2. rewrite H3. apply (ok_accounts _ _ (world_db _ _ Hok') other (login_user l) v u); [done|done|].
    by split.
  - intros (g & Hg & Hgs). rewrite Hfin in Hg. by injection Hg as <-.
Qed.

(** C13: A refresh is answered only to a signature, under the device key of the
    session, over the current challenge of the session and the presented token.
    It keeps the session and replaces both its tokens: whatever happens later,
    the presented refresh token and the access token beside it open nothing,
    unless a login or a refresh draws a token with the same keyed hash again. *)
Theorem refresh_rotates calls tx d request r db' :
  auth_refresh cfg (reached calls) tx d request = (Ok r, db') →
  ∃ id s k ch pkb chb sigb s',
    sessions (reached calls) !! id = Some s ∧ session_revoked_at s = None
    ∧ refresh_token_hash s = token_hash cfg (presented_refresh_token request)
    ∧ refresh_challenge s = Some ch
    ∧ decode_lower_hex DEVICE_PUBLIC_KEY_BYTES (key_public k) = Some pkb
    ∧ decode_lower_hex REFRESH_KEY_CHALLENGE_BYTES ch = Some chb
    ∧ decode_lower_hex DEVICE_KEY_SIGNATURE_BYTES (refresh_signature request) = Some sigb
    ∧ (∃ device, session_device s = Some device ∧ device_keys (reached calls) !! device = Some k
         ∧ key_revoked_at k = None)
    ∧ verify_strict pkb
        (refresh_key_possession_message chb (presented_refresh_token request) pkb) sigb = true
    ∧ sessions db' !! id = Some s' ∧ session_kept s s' ∧ session_revoked_at s' = None
    ∧ refresh_challenge s' = Some (next_refresh_challenge r)
    ∧ access_token_hash s' = token_hash cfg (new_access_token r)
    ∧ refresh_token_hash s' = token_hash cfg (new_refresh_token r)
    ∧ ∀ later now, let after_db := reached (calls ++ Refresh tx d request :: later) in
        (refreshable after_db now (refresh_token_hash s) = None
         ∨ ∃ d', d' ∈ d :: draws_of later ∧ issued_refresh_hash (issue cfg d') = refresh_token_hash s)
        ∧ (principal_of after_db now (access_token_hash s) = None
           ∨ ∃ d', d' ∈ d :: draws_of later ∧ issued_access_hash (issue cfg d') = access_token_hash s).
Proof using Hb.
  intros Hx. pose proof (world_db _ _ (reached_world calls)) as Hid.
  assert (r = mkRefreshed (access_token (issue cfg d)) (refresh_token (issue cfg d))
              (new_refresh_challenge d) (access_token_ttl cfg)) as Er.
  { pose proof (id_transaction_Ok _ _ _ _ Hx) as Ht.
    do 3 (apply bind_Ok in Ht as (? & _ & Ht); repeat case_match; try done).
    do 3 (apply bind_Ok in Ht as (? & _ & Ht)). by injection Ht as <- _. }
  apply auth_refresh_Ok in Hx as Hr. destruct Hr as [_ (id & s & k & ch & pkb & chb & sigb & s' & Hr & Hrest)].
  destruct (refreshable_Some _ _ _ _ _ _ Hr) as (Hs & Hh & Hrev & _ & Hdev).
  destruct Hrest as (H1 & H2 & H3 & H4 & H5 & Hdb' & H7 & H8 & H9 & H10 & H11).
  exists id, s, k, ch, pkb, chb, sigb, s'. rewrite Er. split_and!; try done.
  { rewrite Hdb'. apply lookup_insert_eq. }
  cbv zeta. intros later now.
  pose proof (perform_ok cfg uuid_text _ (Refresh tx d request) (reached_world calls)) as Hok'.
  rewrite run_app. simpl in *. rewrite Hx in *. simpl in *.
  pose proof (replaced_token (with_db (run (fresh_world b) calls).2 db') later now (refresh_token_hash s) Hok') as HR.
  pose proof (replaced_access (with_db (run (fresh_world b) calls).2 db') later now (access_token_hash s) Hok') as HA.
  destruct (run (with_db _ _) later) as [o w'']. simpl in *.
  assert (∀ i x, sessions db' !! i = Some x → i ≠ id ∧ sessions (reached calls) !! i = Some x ∨ i = id ∧ x = s') as Hold.
  { intros i x. rewrite Hdb'. simpl. rewrite lookup_insert_Some. intros [[<- <-]|[Hne Hi]]; [by right|by left]. }
  split.
  - destruct (decide (issued_refresh_hash (issue cfg d) = refresh_token_hash s)) as [E|Hne].
    { right. exists d. split; [by left|done]. }
    destruct HR as [?|(d' & Hd & E)]; [|by left|right; exists d'; split; [by right|done]].
    intros i x [[Hi Hx']|[-> ->]]%Hold E; [|simpl in *; congruence].
    apply Hi. by eapply (ok_refresh _ _ Hid).
  - destruct (decide (issued_access_hash (issue cfg d) = access_token_hash s)) as [E|Hne].
    { right. exists d. split; [by left|done]. }
    destruct HA as [?|(d' & Hd & E)]; [|by left|right; exists d'; split; [by right|done]].
    intros i x [[Hi Hx']|[-> ->]]%Hold E; [|simpl in *; congruence].
    apply Hi. by eapply (ok_access _ _ Hid).
Qed.

(** C15: A logout is final: its session, and every session of the same device,
    is answered nothing afterwards, by an access token, a refresh token or an
    API key, at any time and whatever calls come in between. *)
Theorem logout_is_final calls tx token device_revoked db' :
  auth_logout cfg (reached calls) tx token = (Ok device_revoked, db') →
  ∃ id s, sessions (reached calls) !! id = Some s
    ∧ refresh_token_hash s = token_hash cfg token
    ∧ ∀ i x later, sessions (reached calls) !! i = Some x →
        i = id ∨ (is_Some (session_device s) ∧ session_device x = session_device s) →
        ¬ answered_for (reached (calls ++ Logout tx token :: later)) i.
Proof using Hb.
  intros Hx. apply auth_logout_Ok in Hx as Hl. destruct Hl as (_ & id & s & Hs & Hh & Hrev).
  exists id, s. split; [done|]. split; [done|]. intros i x later Hi Hcase.
  destruct (Hrev i x Hi Hcase) as (y & Hy & Hr).
  pose proof (perform_ok cfg uuid_text _ (Logout tx token) (reached_world calls)) as Hok'.
  rewrite run_app. simpl in *. rewrite Hx in *. simpl in *.
  pose proof (revocation_stays (with_db (run (fresh_world b) calls).2 db') later i y Hok' Hy Hr) as H.
  by destruct (run (with_db _ _) later).
Qed.

(** C16: An API key opens the inference routes, and only as the session that made
    it: its user, its device, none of them revoked, and never after a call has
    revoked it.  On the management routes the text of a key is accepted only if
    an access token has the same keyed hash. *)
Theorem api_keys_are_confined calls now token p name :
  is_Some (strip_prefix "mok_" token) →
  ((authenticate_inference cfg (reached calls) now (Some ("Bearer " +:+ token))).1 = Ok (p, name) →
   ∃ id k s d, api_keys (reached calls) !! id = Some k ∧ key_hash k = token_hash cfg token
     ∧ created_by_session k = session_id p ∧ api_key_user k = principal_user_id p
     ∧ api_key_device k = device_key_id_of p ∧ api_key_revoked_at k = None
     ∧ sessions (reached calls) !! session_id p = Some s ∧ session_user s = principal_user_id p
     ∧ session_device s = Some (device_key_id_of p) ∧ session_revoked_at s = None
     ∧ device_keys (reached calls) !! device_key_id_of p = Some d
     ∧ key_user d = principal_user_id p ∧ key_revoked_at d = None
     ∧ ∀ before tx auth after, calls = before ++ RevokeKey tx auth id :: after →
         ∀ revoked, (revoke_api_key cfg (reached before) tx auth id).1 ≠ Ok revoked)
  ∧ ((authenticate cfg (reached calls) now (Some ("Bearer " +:+ token))).1 = Ok (p, name) →
     ∃ bytes, random_token "mna_" bytes ≠ token
       ∧ token_hash cfg (random_token "mna_" bytes) = token_hash cfg token).
Proof using Hb.
  intros [rest Htok]. split.
  - intros Ha. destruct (authenticate_inference _ _ _ _) as [a db'] eqn:E. simpl in Ha. subst a.
    unfold authenticate_inference in E. rewrite (bearer_of _ _ _ Htok), Htok in E.
    destruct (api_principal_of _ _) as [[id q]|] eqn:Hp; [|by simplify_eq]. injection E as -> <-.
    apply api_principal_Some in Hp as (k & s & d & H1 & H2 & H3 & H4 & H5 & H6 & H7 & H8 & H9 & H10 & H11 & H12 & H13).
    exists id, k, s, d. split_and!; try done. intros before tx auth after -> revoked Hr.
    destruct (revoked_key_stays _ _ _ _ after _ (reached_world before) Hr) as (k' & Hk' & Hn).
    rewrite run_app in H1. cbn [snd] in H1. rewrite Hk' in H1. by simplify_eq.
  - intros Ha. destruct (authenticate _ _ _ _) as [a db'] eqn:E. simpl in Ha. subst a.
    apply authenticate_Ok in E as (t & s & k & Ht & Hs & Hh & _).
    injection Ht as Ht. apply AntiAbuse.append_inj_r in Ht as <-.
    destruct (ok_minted _ _ (world_db _ _ (reached_world calls)) _ _ Hs) as [[bytes Hm] _].
    exists bytes. split; [|congruence]. intros <-. done.
Qed.

(** C14: With the mailbox provider, a session is opened for a mailbox account
    only after somebody has sent the password of that account with the user
    code of this very flow, and somebody has sent a token that was mailed to
    the account. *)
Theorem mailbox_logins_are_confirmed calls flow l :
  auth_provider cfg = Email → (flow, l) ∈ (run (fresh_world b) calls).1 →
  ∃ before i tx d after a hash f,
    calls = before ++ PollFinish i tx d :: after
    ∧ flows (reached before) !! flow = Some f
    ∧ users (reached before) !! login_user l = Some a ∧ user_provider a = "email"
    ∧ Identity.email a = Some (provider_subject a) ∧ password_hash a = Some hash
    ∧ password_given before hash (flow_user_code f)
    ∧ mail_received before (reached before) (login_user l).
Proof using Hb.
  intros Hmail (before & call & after & -> & Hp)%run_opened.
  destruct (perform _ call) as [o w'] eqn:Hcall. simpl in Hp. subst o.
  pose proof (reached_world before) as Hok.
  apply perform_opened in Hcall as Hopen; [|done].
  destruct Hopen as (i & tx & d & request & row & identity & db1 & -> & Hflow & [_ Hid] & _ & Hacc).
  destruct (Hid Hmail identity eq_refl) as (f & u & t & a & Hf & Hu & Ha & Hpr & Hs).
  simpl in Hf. rewrite Hflow in Hf.
  destruct Hacc as [Hacc _].
  apply (login_account_Ok cfg (kind := Plain)) in Hacc as (_ & _ & _ & a' & Ha' & Hpr' & Hs' & Hrest).
  destruct (Hrest Hmail) as [Hv ->]. rewrite Hmail in Hpr'. simpl in Hpr'.
  assert (u = login_user l) as ->.
  { eapply (ok_accounts _ _ (world_db _ _ Hok)); [exact Ha|exact Ha'|]. split; congruence. }
  assert (a' = a) as -> by congruence.
  pose proof (run_earned [] (fresh_world b) before (fresh_world_ok cfg b Hb) (fresh_earned b)) as [_ He Hm].
  simpl in He, Hm. destruct (He _ _ Hf _ _ Hu) as (a'' & hash & Ha'' & Hh & Hgiven).
  pose proof (ok_users _ _ (world_db _ _ Hok) _ _ Ha) as Huok. unfold user_ok in Huok. simpl in Huok.
  rewrite Hpr, String.eqb_refl in Huok. destruct Huok as [Hem _].
  exists before, i, tx, d, after, a, hash, f. split_and!; try done; [congruence|].
  exact (Hm _ _ Ha Hv).
Qed.

End promises.

(** ** Two corners *)

(** The answer to a name in use says to revoke the old key first, but a revoked key
    keeps its name: the name stays refused. *)
Lemma revoked_name_stays_taken db tx d auth name p n db1 id k :
  authenticate cfg db (tx_now tx) auth = (Ok (p, n), db1) → api_key_validate name = Ok tt →
  api_keys db !! id = Some k → api_key_user k = principal_user_id p → api_key_name k = name →
  (create_api_key cfg db tx d auth name).1
  = Err (conflict "api_key_name_exists" "同名 API Key 已存在；请更换名称或先撤销旧 Key").
Proof using Type.
  intros Ha Hv Hk Hu Hn. unfold create_api_key, authenticated. rewrite Ha, Hv.
  pose proof (authenticate_changes cfg db (tx_now tx) auth) as Hc. rewrite Ha in Hc.
  destruct (mv_api_keys _ _ (changes_moves _ _ _ _ Hc) id k Hk) as (k' & Hk' & [= E1 _ _] & [= E2 _] & _).
  simpl in Hk'. simpl. unfold insert_api_key. simpl.
  destruct (has_row _ (api_keys db1)) eqn:Hh; [done|].
  pose proof (has_row_false _ _ Hh id k' Hk') as F. simpl in F.
  by rewrite E1, E2, Hu, Hn, Z.eqb_refl, String.eqb_refl in F.
Qed.

(** A mailbox with a second at sign passes the check of the form and fails the
    check of the table: the client gets an internal error for a bad request. *)
Lemma second_at_is_internal sender base_url db tx d salt form address name hash :
  validate_registration form = Ok (address, name) → email_check address = false →
  hash_password (form_password form) salt = Ok hash →
  register_handler cfg sender base_url db tx d salt form = (Err internal, db).
Proof using Type.
  intros Hv He Hh. unfold register_handler. rewrite Hv. simpl. rewrite Hh. simpl.
  unfold insert_email_user. by rewrite He.
Qed.

Lemma second_at_accepted :
  let form := mkRegisterForm "a@b@c.de" "ann" "password" "password" in
  validate_registration form = Ok ("a@b@c.de", "ann") ∧ email_check "a@b@c.de" = false.
Proof. by vm_compute. Qed.
End sessions.
