(* ===== verification/Catalogue.v ===== *)
(** * The catalogue of models

    What [list_models] shows to consumers, and whether the names it offers lead
    back to the models they stand for when a job asks for them. *)
From S2P Require Import Prelude Text Float64 Billing Ledger Net AntiAbuse StandardData Hardware Fingerprint Store Envelope Api Snapshot Tables Lease Postings Requests NodeRequests Dispatch JobOps Nodes Models.
From Stdlib Require Import Ascii.

Local Open Scope string_scope.
Local Open Scope list_scope.
Local Open Scope Z_scope.

(** ** Suffixes *)

Lemma length_app_string s t : String.length (s +:+ t) = (String.length s + String.length t)%nat.
Proof. induction s as [|a s IH]; [done|]. change (S (String.length (s +:+ t)) = S (String.length s + String.length t))%nat. by rewrite IH. Qed.

Lemma append_inj_suffix s1 s2 t1 t2 :
  s1 +:+ t1 = s2 +:+ t2 → String.length t1 = String.length t2 → s1 = s2 ∧ t1 = t2.
Proof.
  intros E Hl. pose proof (f_equal String.length E) as E2. rewrite !length_app_string in E2.
  assert (split_bytes (String.length s1) (s1 +:+ t1) = split_bytes (String.length s2) (s2 +:+ t2))
    as H by (rewrite E; f_equal; lia).
  rewrite !split_bytes_append in H by done. by injection H.
Qed.

Lemma split_bytes_join n s : (split_bytes n s).1 +:+ (split_bytes n s).2 = s.
Proof.
  revert s. induction n as [|n IH]; intros [|a s]; try done.
  change (split_bytes (S n) (String a s)) with
    (let '(l, r) := split_bytes n s in (String a l, r)).
  specialize (IH s). destruct (split_bytes n s) as [l r]. simpl in IH |- *.
  change (String a (l +:+ r) = String a s). by rewrite IH.
Qed.

Lemma strip_suffix_append suffix s : strip_suffix suffix (s +:+ suffix) = Some s.
Proof.
  unfold strip_suffix. rewrite length_app_string. destruct (decide _) as [_|]; [|lia].
  rewrite split_bytes_append by lia. simpl. by rewrite String.eqb_refl.
Qed.

Lemma strip_suffix_Some suffix s t : strip_suffix suffix s = Some t → s = t +:+ suffix.
Proof.
  unfold strip_suffix. destruct (decide _) as [_|]; [|done]. set (n := (_ - _)%nat).
  destruct (String.eqb_spec (split_bytes n s).2 suffix) as [E|]; [|done]. intros [= <-].
  rewrite <-E. by rewrite split_bytes_join.
Qed.

(** A name that no suffix qualifies. *)
Definition unqualified (name : string) : Prop :=
  strip_suffix "-fast" name = None ∧ strip_suffix "-slow" name = None.

(** How a job request reads the model it names: the check of [validate_job_metadata],
    then the speed suffix. *)
Definition read_model_name (requested : string) : Checked SpeedQualifiedModel :=
  _ ← check_identifier "virtual_model" requested 128;
  parse_speed_qualified_model requested.

(** Not blank, at most 128 bytes and without control characters. *)
Definition requestable (name : string) : bool :=
  negb (trim_is_empty name) && (str_len name <=? 128) && negb (has_control name).

Lemma check_identifier_requestable name :
  check_identifier "virtual_model" name 128 = Ok tt ↔ requestable name = true.
Proof.
  unfold check_identifier, requestable. rewrite bail_if_Ok, Z.leb_antisym, <-!negb_orb.
  by rewrite negb_true_iff.
Qed.

Lemma requestable_nonempty name : requestable name = true → str_is_empty name = false.
Proof. destruct name; [by vm_compute|done]. Qed.

(** A request that names a model with a suffix, or without one. *)
Lemma read_suffixed requested name speed :
  parse_speed_qualified_model requested =
    (_ ← bail_if (str_is_empty name)
       (mkValidationError "virtual_model" "速度后缀前必须包含模型名称");
     _ ← check_identifier "virtual_model" name 128; Ok (mkSpeedModel name speed)) →
  if requestable requested && requestable name
  then read_model_name requested = Ok (mkSpeedModel name speed)
  else ∃ e, read_model_name requested = Err e.
Proof.
  intros E. unfold read_model_name. rewrite E.
  pose proof (check_identifier_requestable requested) as H1. pose proof (check_identifier_requestable name) as H2.
  destruct (requestable requested); simpl; last first.
  { destruct (check_identifier _ requested _) as [[]|e]; [by discriminate (proj1 H1 eq_refl)|by eexists]. }
  rewrite (proj2 H1) by done. simpl. destruct (requestable name) eqn:Hn.
  - by rewrite (requestable_nonempty _ Hn), (proj2 H2).
  - destruct (bail_if _ _) as [[]|e]; [simpl|by eexists].
    destruct (check_identifier _ name _) as [[]|e]; [by discriminate (proj1 H2 eq_refl)|by eexists].
Qed.

(** An offered name is read as what it stands for, or refused. *)
Lemma speed_names_read name o :
  o ∈ speed_names name → (openai_speed o = StandardSpeed → unqualified name) →
  if requestable (openai_id o) && requestable name
  then read_model_name (openai_id o) = Ok (mkSpeedModel name (openai_speed o))
  else ∃ e, read_model_name (openai_id o) = Err e.
Proof.
  intros Ho Hu. apply read_suffixed. unfold speed_names in Ho. unfold parse_speed_qualified_model.
  rewrite !elem_of_cons, elem_of_nil in Ho. destruct Ho as [->|[->|[->|[]]]]; cbn [openai_id openai_speed].
  - by rewrite strip_suffix_append.
  - destruct (Hu eq_refl) as [Hf Hs]. by rewrite Hf, Hs.
  - destruct (strip_suffix "-fast" (name +:+ "-slow")) as [t|] eqn:E.
    { apply strip_suffix_Some in E. by apply append_inj_suffix in E as [_ ?]. }
    by rewrite strip_suffix_append.
Qed.

(** A name that ends in a suffix stands for another model in a request. *)
Lemma qualified_name_misread base :
  check_identifier "virtual_model" base 128 = Ok tt →
  ∃ o, o ∈ speed_names (base +:+ "-fast") ∧ openai_speed o = StandardSpeed
    ∧ parse_speed_qualified_model (openai_id o) = Ok (mkSpeedModel base Fast).
Proof.
  intros Hc. exists (mkOpenai (base +:+ "-fast") StandardSpeed).
  split; [by right; left|]. split; [done|]. unfold parse_speed_qualified_model. simpl.
  rewrite strip_suffix_append. assert (str_is_empty base = false) as ->.
  { unfold check_identifier in Hc. apply bail_if_Ok in Hc.
    destruct (String.eqb_spec base "") as [->|?]; [done|by apply String.eqb_neq]. }
  simpl. by rewrite Hc.
Qed.

(** A name that may be published and not asked for: 64 characters of three
    bytes each. *)
Definition wide_name : string := String.concat "" (repeat "模" 64).

Lemma wide_name_unaskable :
  validate_alias wide_name = Ok tt
  ∧ ∀ o, o ∈ speed_names wide_name → ∃ e, read_model_name (openai_id o) = Err e.
Proof.
  split; [vm_compute; reflexivity|]. intros o Ho.
  assert (requestable wide_name = false) as E by (vm_compute; reflexivity).
  assert (unqualified wide_name) as U by (split; vm_compute; reflexivity).
  pose proof (speed_names_read wide_name o Ho (λ _, U)) as H.
  by rewrite E, andb_false_r in H.
Qed.

(** ** The listing *)

Section listing.
Context (name_order : string → string → comparison).


End listing.
