(* ===== verification/Honors.v ===== *)
(** * Honours: crates/mindone-coordinator/src/routes/nodes_models.rs

    How a node's contribution ranks among all nodes, the anonymous leaderboard
    of the network, and the streak of days without a failure.  The statements of
    one request read one database here.  A SQL date is its number of days. *)
From S2P Require Import Prelude Text Float64 Billing Ledger AntiAbuse StandardData Hardware Fingerprint Store Envelope Api Snapshot Tables Dispatch.

Local Open Scope string_scope.
Local Open Scope list_scope.
Local Open Scope Z_scope.

Definition CONTRIBUTION_RANK_PRIVACY_THRESHOLD : Z := 5.
Definition NETWORK_HONOR_COUNT_GRANULARITY : Z := 5.
Definition CONTRIBUTION_MILESTONE_BASE_MICRO : Z := 1000000.
Definition HONOR_AGGREGATION_VERSION : string := "node-honor-v2".
Definition NETWORK_HONOR_AGGREGATION_VERSION : string := "network-honor-v1".

(** ** The leaderboard *)

Inductive NetworkHonorLabel : Type :=
| Top1Percent | Top5Percent | Top10Percent | Top25Percent | Top50Percent
| Contributor | ZeroFailure100Days.

#[export] Instance NetworkHonorLabel_eq_dec : EqDecision NetworkHonorLabel.
Proof. solve_decision. Defined.

Record NetworkHonorLeaderboardEntry : Type := mkHonorEntry {
  entry_label : NetworkHonorLabel;
  qualifying_nodes_lower_bound : Z;
}.

(** The tie policy has one value. *)
Record NetworkHonorLeaderboard : Type := mkLeaderboard {
  board_version : string;
  board_privacy_threshold : Z;
  board_cohort_nodes : Z;
  board_granularity : Z;
  suppressed : bool;
  board_entries : list NetworkHonorLeaderboardEntry;
}.

Definition i64_checked_sub (a b : Z) : option Z := checked in_i64 (a - b).
Definition i64_checked_mul (a b : Z) : option Z := checked in_i64 (a * b).
Definition i64_saturating_add (a b : Z) : Z := Z.max i64_min (Z.min i64_max (a + b)).

(** One group of equal contributions: nodes below it and nodes that qualify. *)
Definition top_ranked_step (cohort_nodes top_percent : Z) (acc : Z * Z) (tied_nodes : Z)
    : ApiResult (Z * Z) :=
  let '(lower_nodes, qualifying_nodes) := acc in
  _ ← bail_if ((tied_nodes <=? 0) || (cohort_nodes <? i64_saturating_add lower_nodes tied_nodes))
    internal;
  doubled ← or_internal (i64_checked_mul lower_nodes 2);
  shifted ← or_internal (i64_checked_add doubled tied_nodes);
  twice_midrank_numerator ← or_internal (i64_checked_sub shifted 1);
  others ← or_internal (i64_checked_sub cohort_nodes 1);
  twice_midrank_denominator ← or_internal (i64_checked_mul others 2);
  qualifying_nodes ←
    (if twice_midrank_denominator * (100 - top_percent) <=? twice_midrank_numerator * 100
     then or_internal (i64_checked_add qualifying_nodes tied_nodes) else Ok qualifying_nodes);
  lower_nodes ← or_internal (i64_checked_add lower_nodes tied_nodes);
  Ok (lower_nodes, qualifying_nodes).

Definition top_ranked_nodes (cohort_nodes : Z) (contribution_tie_groups : list Z)
    (top_percent : Z) : ApiResult Z :=
  _ ← bail_if ((cohort_nodes <? CONTRIBUTION_RANK_PRIVACY_THRESHOLD)
      || negb (in_range 1 100 top_percent)) internal;
  '(lower_nodes, qualifying_nodes) ←
    fold_each (top_ranked_step cohort_nodes top_percent) (0, 0) contribution_tie_groups;
  _ ← bail_if (negb (lower_nodes =? cohort_nodes)) internal;
  Ok qualifying_nodes.

Definition push_quantized_honor_entry (entries : list NetworkHonorLeaderboardEntry)
    (label : NetworkHonorLabel) (exact_nodes : Z)
    : ApiResult (list NetworkHonorLeaderboardEntry) :=
  _ ← bail_if (exact_nodes <? 0) internal;
  let lower_bound :=
    div_trunc exact_nodes NETWORK_HONOR_COUNT_GRANULARITY * NETWORK_HONOR_COUNT_GRANULARITY in
  if CONTRIBUTION_RANK_PRIVACY_THRESHOLD <=? lower_bound
  then bound ← or_internal (u64_try_from lower_bound);
       Ok (entries ++ [mkHonorEntry label bound])
  else Ok entries.

(** [try_fold] with [checked_add]. *)
Fixpoint checked_total (total : Z) (counts : list Z) : option Z :=
  match counts with
  | [] => Some total
  | count :: counts => total ← i64_checked_add total count; checked_total total counts
  end.

Definition top_labels : list (NetworkHonorLabel * Z) :=
  [(Top1Percent, 1); (Top5Percent, 5); (Top10Percent, 10); (Top25Percent, 25);
   (Top50Percent, 50)].

Definition network_honor_leaderboard (cohort_nodes : Z) (contribution_tie_groups : list Z)
    (zero_failure_100_days_nodes : Z) : ApiResult NetworkHonorLeaderboard :=
  _ ← bail_if ((cohort_nodes <? 0) || (zero_failure_100_days_nodes <? 0)
      || (cohort_nodes <? zero_failure_100_days_nodes)
      || existsb (λ count, count <=? 0) contribution_tie_groups
      || negb (bool_decide (checked_total 0 contribution_tie_groups = Some cohort_nodes))) internal;
  privacy_threshold ← or_internal (u64_try_from CONTRIBUTION_RANK_PRIVACY_THRESHOLD);
  count_granularity ← or_internal (u64_try_from NETWORK_HONOR_COUNT_GRANULARITY);
  if cohort_nodes <? CONTRIBUTION_RANK_PRIVACY_THRESHOLD then
    Ok (mkLeaderboard NETWORK_HONOR_AGGREGATION_VERSION privacy_threshold 0 count_granularity
          true [])
  else
    entries ← fold_each (λ entries l,
      qualifying ← top_ranked_nodes cohort_nodes contribution_tie_groups l.2;
      push_quantized_honor_entry entries l.1 qualifying) [] top_labels;
    entries ← push_quantized_honor_entry entries Contributor cohort_nodes;
    entries ← push_quantized_honor_entry entries ZeroFailure100Days zero_failure_100_days_nodes;
    cohort ← or_internal (u64_try_from cohort_nodes);
    Ok (mkLeaderboard NETWORK_HONOR_AGGREGATION_VERSION privacy_threshold cohort count_granularity
          false entries).

(** ** Rank, milestones and streak *)

Definition contribution_midrank_percentile (cohort_nodes lower_nodes tied_nodes : Z)
    (target_present : bool) : ApiResult (option f64) :=
  _ ← bail_if ((cohort_nodes <? 0) || (lower_nodes <? 0) || (tied_nodes <? 0)) internal;
  if negb target_present || (cohort_nodes <? CONTRIBUTION_RANK_PRIVACY_THRESHOLD) then Ok None
  else
    _ ← bail_if ((tied_nodes =? 0) || (cohort_nodes <? i64_saturating_add lower_nodes tied_nodes))
      internal;
    if cohort_nodes =? 1 then Ok (Some (f64_div f64_one (f64_of_Z 2)))
    else
      let numerator := f64_add (f64_of_Z lower_nodes)
        (f64_div (f64_of_Z (i64_saturating_sub tied_nodes 1)) (f64_of_Z 2)) in
      Ok (Some (f64_div numerator (f64_of_Z (i64_saturating_sub cohort_nodes 1)))).

(** The loop multiplies by ten until it passes the contribution or the width of
    an [i64]; [None] when its fuel runs out. *)
Fixpoint milestone_loop (fuel : nat) (contribution previous milestone : Z)
    : option (option (Z * Z)) :=
  if milestone <=? contribution then
    match fuel with
    | O => None
    | S fuel =>
      match i64_checked_mul milestone 10 with
      | Some next => milestone_loop fuel contribution milestone next
      | None => Some None
      end
    end
  else Some (Some (previous, milestone)).

Definition MILESTONE_FUEL : nat := 13.

Definition contribution_milestones (contribution_micro : Z) : option (Z * Z) :=
  if contribution_micro <? 0 then None
  else default None
    (milestone_loop MILESTONE_FUEL contribution_micro 0 CONTRIBUTION_MILESTONE_BASE_MICRO).

Definition u64_saturating_inc (a : Z) : Z := Z.min u64_max (a + 1).

(** Days are counted back from today; [None] when the fuel runs out. *)
Fixpoint streak_loop (fuel : nat) (daily_failures : gmap Z Z) (days_ago streak : Z) : option Z :=
  if bool_decide (daily_failures !! days_ago = Some 0) then
    match fuel with
    | O => None
    | S fuel =>
      streak_loop fuel daily_failures (i32_saturating_add days_ago 1) (u64_saturating_inc streak)
    end
  else Some streak.

Definition zero_failure_streak (daily_failures : gmap Z Z) : option Z :=
  if bool_decide (daily_failures = ∅) then None
  else
    let days_ago := if bool_decide (is_Some (daily_failures !! 0)) then 0 else 1 in
    streak_loop (S (size daily_failures)) daily_failures days_ago 0.

(** ** The queries *)

(** The node of a receipt, through the job it settles. *)
Definition receipt_node (st : State) (job : Z) : option Z :=
  jobs st !! job ≫= leased_to_node_id.

(** [SUM(r.contribution_micro)] of a node. *)
Definition contribution_of (st : State) (node : Z) : Z :=
  foldr (λ p total, if bool_decide (receipt_node st p.1 = Some node)
                    then receipt_contribution_micro p.2 + total else total)
    0 (map_to_list (receipts st)).

(** The nodes of [GROUP BY j.leased_to_node_id]. *)
Definition receipt_nodes (st : State) : gset Z :=
  list_to_set (omap (λ p, receipt_node st p.1) (map_to_list (receipts st))).

(** [per_node]: HAVING a positive sum, which has to fit a BIGINT. *)
Definition per_node (st : State) : ApiResult (list (Z * Z)) :=
  let rows := List.filter (λ p, 0 <? p.2)
    ((λ node, (node, contribution_of st node)) <$> elements (receipt_nodes st)) in
  _ ← require_internal (forallb (λ p, in_i64 p.2) rows);
  Ok rows.

Record RankRow : Type := mkRank {
  cohort_nodes : Z;
  lower_nodes : Z;
  tied_nodes : Z;
  target_present : bool;
}.

Definition rank_row (rows : list (Z * Z)) (node contribution : Z) : RankRow :=
  mkRank (Z.of_nat (length rows)) (countb (λ p, p.2 <? contribution) rows)
    (countb (λ p, p.2 =? contribution) rows) (existsb (λ p, p.1 =? node) rows).

(** [GROUP BY contribution_micro ORDER BY contribution_micro]. *)
Definition tie_groups (rows : list (Z * Z)) : list Z :=
  (λ v, countb (λ p, p.2 =? v) rows) <$> sort_by Z.compare (remove_dups rows.*2).

Definition utc_date (t : Z) : Z := t / DAY_MICROS.
Definition attempt_bad (a : AttemptRow) : bool :=
  bool_decide (attempt_status a = AttemptFailed ∨ attempt_status a = AttemptExpired).

(** The attempts a query groups by day: those of a node finished within a time. *)
Definition finished_attempts (st : State) (now : Z) (since : Z → bool) (node : Z)
    : list (Z * AttemptRow) :=
  omap (λ p, if attempt_node p.2 =? node then
               f ← finished_at p.2;
               if (f <=? now) && since f then Some (utc_date now - utc_date f, p.2) else None
             else None) (map_to_list (attempts st)).

Definition daily_failures (rows : list (Z * AttemptRow)) : gmap Z Z :=
  filter (λ p, 0 ≤ p.1 ∧ 0 ≤ p.2)
    (set_to_map (λ day, (day, countb (λ p, (p.1 =? day) && attempt_bad p.2) rows))
       (list_to_set rows.*1 : gset Z)).

(** [contributing_nodes]. *)
Definition contributing_nodes (st : State) : gset Z :=
  list_to_set (omap (λ p, if 0 <? receipt_contribution_micro p.2 then receipt_node st p.1 else None)
    (map_to_list (receipts st))).

Definition WINDOW_MICROS : Z := 101 * DAY_MICROS.

Definition network_zero_failure_100_days_nodes (st : State) (now : Z) : Z :=
  countb (λ node,
    match zero_failure_streak (daily_failures
            (finished_attempts st now (λ f, now - WINDOW_MICROS <=? f) node)) with
    | Some days => 100 <=? days
    | None => false
    end) (elements (contributing_nodes st)).

Record NodeHonorStats : Type := mkHonor {
  honor_version : string;
  contribution_rank_percentile : option f64;
  contribution_rank_cohort_nodes : Z;
  contribution_rank_privacy_threshold : Z;
  previous_contribution_milestone_micro : option Z;
  next_contribution_milestone_micro : option Z;
  zero_failure_streak_days : option Z;
  network_leaderboard : NetworkHonorLeaderboard;
}.

Definition node_honor_stats (st : State) (now node contribution_earned_micro : Z)
    : ApiResult NodeHonorStats :=
  _ ← bail_if (contribution_earned_micro <? 0) internal;
  rows ← per_node st;
  let rank := rank_row rows node contribution_earned_micro in
  percentile ← contribution_midrank_percentile (cohort_nodes rank) (lower_nodes rank)
    (tied_nodes rank) (target_present rank);
  let groups := tie_groups rows in
  let daily := daily_failures (finished_attempts st now (λ _, true) node) in
  let zero_failure_nodes :=
    if CONTRIBUTION_RANK_PRIVACY_THRESHOLD <=? cohort_nodes rank
    then network_zero_failure_100_days_nodes st now else 0 in
  leaderboard ← network_honor_leaderboard (cohort_nodes rank) groups zero_failure_nodes;
  let published :=
    if CONTRIBUTION_RANK_PRIVACY_THRESHOLD <=? cohort_nodes rank then cohort_nodes rank else 0 in
  cohort ← or_internal (u64_try_from published);
  threshold ← or_internal (u64_try_from CONTRIBUTION_RANK_PRIVACY_THRESHOLD);
  let milestones := contribution_milestones contribution_earned_micro in
  Ok (mkHonor HONOR_AGGREGATION_VERSION percentile cohort threshold (fst <$> milestones)
    (snd <$> milestones) (zero_failure_streak daily) leaderboard).
