(* ===== verification/HonorsSpec.v ===== *)
(** * What the honours promise

    The leaderboard counts nodes by their midrank, whatever groups it is
    computed from; nothing it publishes is exact below the privacy threshold;
    a streak is the run of days it says, and milestones bracket a contribution. *)
From S2P Require Import Prelude Text Float64 Billing Ledger Net AntiAbuse StandardData Hardware Fingerprint Store Envelope Api Snapshot Tables Dispatch Honors.

Local Open Scope string_scope.
Local Open Scope list_scope.
Local Open Scope Z_scope.

Lemma Ok_inj {E A} (a b : A) : @Ok E A a = Ok b → a = b.
Proof. by intros [= ->]. Qed.

(** ** Ranks *)

(** Of the nodes' contributions: how many are below a value, how many equal it. *)
Definition below (contributions : list Z) (v : Z) : Z := countb (λ x, x <? v) contributions.
Definition tied (contributions : list Z) (v : Z) : Z := countb (λ x, x =? v) contributions.

(** The midrank percentile [(below + (tied - 1) / 2) / (n - 1)] is in the top
    part of the ranking. *)
Definition in_top (contributions : list Z) (top_percent v : Z) : bool :=
  (2 * (Z.of_nat (length contributions) - 1)) * (100 - top_percent)
    <=? (2 * below contributions v + tied contributions v - 1) * 100.

Definition values (contributions : list Z) : list Z := sort_by Z.compare (remove_dups contributions).

Lemma values_elem l x : x ∈ values l ↔ x ∈ l.
Proof. unfold values. by rewrite elem_of_sort_by, elem_of_remove_dups. Qed.

Lemma values_sorted l : StronglySorted Z.lt (values l).
Proof.
  assert (StronglySorted (cmp_le Z.compare) (values l)) as Hs by apply sort_by_sorted, _.
  assert (NoDup (values l)) as Hn by (unfold values; rewrite sort_by_perm; apply NoDup_remove_dups).
  induction Hs as [|x l' _ IH Hx]; [constructor|]. apply NoDup_cons in Hn as [Hin Hn].
  constructor; [by apply IH|]. apply Forall_forall. intros y Hy.
  pose proof (proj1 (Forall_forall _ _) Hx y Hy) as Hle. unfold cmp_le in Hle.
  destruct (Z.compare_spec x y) as [->| |]; [done|done|]. by destruct Hle.
Qed.

Section ranks.
Context (l : list Z) (top_percent : Z).
Local Abbreviation n := (Z.of_nat (length l)).

(** How many contributions are among some values. *)
Definition among (vs : list Z) : Z := countb (λ x, bool_decide (x ∈ vs)) l.
Definition among_top (vs : list Z) : Z :=
  countb (λ x, bool_decide (x ∈ vs) && in_top l top_percent x) l.

Lemma among_snoc vs v : v ∉ vs → among (vs ++ [v]) = among vs + tied l v.
Proof.
  intros Hv. apply countb_split.
  - intros x _. destruct (Z.eqb_spec x v) as [->|Hne].
    + rewrite orb_true_r. apply bool_decide_eq_true_2. set_solver.
    + rewrite orb_false_r. apply bool_decide_ext. set_solver.
  - intros x _ Hx%bool_decide_eq_true. apply Z.eqb_neq. set_solver.
Qed.

Lemma among_top_snoc vs v :
  v ∉ vs → among_top (vs ++ [v]) = among_top vs + (if in_top l top_percent v then tied l v else 0).
Proof.
  intros Hv. unfold among_top.
  rewrite (countb_split (λ x, bool_decide (x ∈ vs) && in_top l top_percent x)
    (λ x, (x =? v) && in_top l top_percent x)).
  - f_equal. destruct (in_top l top_percent v) eqn:E.
    + apply countb_ext. intros x _. destruct (Z.eqb_spec x v) as [->|]; [by rewrite E|done].
    + apply countb_none. intros x _. destruct (Z.eqb_spec x v) as [->|]; [by rewrite E|done].
  - intros x _. destruct (Z.eqb_spec x v) as [->|Hne]; simpl.
    + rewrite (bool_decide_eq_true_2 (v ∈ vs ++ [v])) by set_solver. simpl.
      rewrite (bool_decide_eq_false_2 (v ∈ vs)) by done. done.
    + rewrite orb_false_r. f_equal. apply bool_decide_ext. set_solver.
  - intros x _ [Hx%bool_decide_eq_true _]%andb_true_iff. apply andb_false_iff. left.
    apply Z.eqb_neq. set_solver.
Qed.

(** The values before one in the order are those below it. *)
Lemma among_below vs v vs' : values l = vs ++ v :: vs' → among vs = below l v ∧ v ∉ vs.
Proof.
  intros E. pose proof (values_sorted l) as Hs. rewrite E in Hs.
  assert (∀ x, x ∈ vs → x < v) as Hlt.
  { intros x Hx. eapply (StronglySorted_app_1_elem_of _ _ _ _ _ Hs Hx). by left. }
  assert (∀ x, x ∈ vs' → v < x) as Hgt.
  { apply StronglySorted_app_1_r, StronglySorted_inv in Hs as [_ Hs]. by apply Forall_forall. }
  split; [|intros ?%Hlt; lia]. apply countb_ext. intros x Hx.
  apply values_elem in Hx. rewrite E, elem_of_app, elem_of_cons in Hx.
  destruct (Z.ltb_spec x v) as [Hv|Hv].
  - apply bool_decide_eq_true_2. destruct Hx as [?|[->|?%Hgt]]; [done|lia|lia].
  - apply bool_decide_eq_false_2. intros ?%Hlt. lia.
Qed.

(** One step of the loop, on a cohort whose doubled size fits. *)
Lemma top_ranked_step_Ok lower qualifying t :
  0 < t → 0 ≤ lower → lower + t ≤ n → 0 ≤ qualifying ≤ lower → 2 * n ≤ i64_max →
  top_ranked_step n top_percent (lower, qualifying) t
  = Ok (lower + t,
        qualifying + if 2 * (n - 1) * (100 - top_percent) <=? (2 * lower + t - 1) * 100
                     then t else 0).
Proof.
  intros Ht Hl Hle Hq Hn. unfold top_ranked_step, i64_checked_mul, i64_checked_sub,
    i64_saturating_add, or_internal. unfold i64_checked_add.
  rewrite (proj2 (Z.leb_gt t 0)) by lia. unfold_int. rewrite (proj2 (Z.ltb_ge n _)) by lia. simpl.
  repeat (rewrite checked_true by (apply in_range_true; lia); simpl).
  replace (lower * 2 + t - 1) with (2 * lower + t - 1) by lia.
  replace ((n - 1) * 2) with (2 * (n - 1)) by lia.
  destruct (_ <=? _); simpl; repeat (rewrite checked_true by (apply in_range_true; lia); simpl);
    [done|by rewrite Z.add_0_r].
Qed.

Lemma among_top_le vs : 0 ≤ among_top vs ≤ among vs.
Proof.
  split; [apply countb_nonneg|]. apply countb_mono. by intros x _ [? _]%andb_true_iff.
Qed.

Lemma groups_loop vs vs' :
  values l = vs ++ vs' → 2 * n ≤ i64_max →
  fold_each (top_ranked_step n top_percent) (among vs, among_top vs) (tied l <$> vs')
  = Ok (among (vs ++ vs'), among_top (vs ++ vs')).
Proof.
  revert vs. induction vs' as [|v vs' IH]; intros vs E Hn; [by rewrite app_nil_r|].
  destruct (among_below _ _ _ E) as [Hb Hv].
  rewrite fmap_cons, fold_each_cons. pose proof (among_top_le vs) as Htop.
  rewrite top_ranked_step_Ok; [|..|exact Htop|done].
  - rewrite Hb at 2. fold (in_top l top_percent v). cbn [mbind result_bind].
    replace (vs ++ v :: vs') with ((vs ++ [v]) ++ vs') by by rewrite <-app_assoc.
    rewrite <-IH; [|by rewrite <-app_assoc|done].
    by rewrite among_snoc, among_top_snoc by done.
  - eapply (countb_pos _ _ v); [|apply Z.eqb_refl]. apply values_elem. rewrite E. set_solver.
  - lia.
  - rewrite <-(among_snoc vs v Hv). apply countb_le_length.
Qed.

(** The loop over the groups is the count over the nodes. *)
Lemma top_ranked_counts :
  CONTRIBUTION_RANK_PRIVACY_THRESHOLD ≤ n → 2 * n ≤ i64_max → 1 ≤ top_percent ≤ 100 →
  top_ranked_nodes n (tied l <$> values l) top_percent = Ok (countb (in_top l top_percent) l).
Proof.
  intros Hc Hn Hp. unfold top_ranked_nodes.
  rewrite (proj2 (Z.ltb_ge _ _)), (proj2 (in_range_true _ _ _)) by lia. simpl.
  assert ((0, 0) = (among [], among_top [])) as ->.
  { unfold among, among_top. by rewrite !countb_none by by intros. }
  rewrite (groups_loop [] (values l)) by done. simpl.
  assert (among (values l) = n) as ->.
  { apply countb_all. intros x Hx. by apply bool_decide_eq_true, values_elem. }
  rewrite Z.eqb_refl. simpl. f_equal. apply countb_ext. intros x Hx.
  by rewrite bool_decide_true by by apply values_elem.
Qed.
End ranks.

(** ** The leaderboard *)

Lemma tie_groups_eq rows : tie_groups rows = tied rows.*2 <$> values rows.*2.
Proof.
  unfold tie_groups, values. apply list_fmap_ext. intros _ v _. unfold tied.
  by rewrite countb_fmap.
Qed.

Lemma groups_positive l : existsb (λ count, count <=? 0) (tied l <$> values l) = false.
Proof.
  apply not_true_iff_false. rewrite existsb_exists. setoid_rewrite <-list_elem_of_In.
  intros (c & (v & -> & Hv)%list_elem_of_fmap & Hc%Z.leb_le).
  rewrite values_elem in Hv. pose proof (countb_pos (λ x, x =? v) l v Hv (Z.eqb_refl v)).
  unfold tied in Hc. lia.
Qed.

Lemma groups_total l vs vs' :
  values l = vs ++ vs' → Z.of_nat (length l) ≤ i64_max →
  checked_total (among l vs) (tied l <$> vs') = Some (among l (values l)).
Proof.
  revert vs. induction vs' as [|v vs' IH]; intros vs E Hn.
  { by rewrite E, app_nil_r. }
  destruct (among_below l _ _ _ E) as [_ Hv]. rewrite fmap_cons. simpl.
  unfold i64_checked_add. rewrite <-(among_snoc l vs v Hv), checked_true.
  - simpl. apply IH; [|done]. by rewrite <-app_assoc.
  - apply in_range_true. pose proof (countb_nonneg (λ x, bool_decide (x ∈ vs ++ [v])) l).
    pose proof (countb_le_length (λ x, bool_decide (x ∈ vs ++ [v])) l). unfold among. 
    unfold_int. lia.
Qed.

Lemma among_values l : among l (values l) = Z.of_nat (length l).
Proof. apply countb_all. intros x Hx. by apply bool_decide_eq_true, values_elem. Qed.

(** What a label says about the contributions [l]. *)
Definition exact_count (l : list Z) (zero_failure : Z) (label : NetworkHonorLabel) : Z :=
  match label with
  | Top1Percent => countb (in_top l 1) l
  | Top5Percent => countb (in_top l 5) l
  | Top10Percent => countb (in_top l 10) l
  | Top25Percent => countb (in_top l 25) l
  | Top50Percent => countb (in_top l 50) l
  | Contributor => Z.of_nat (length l)
  | ZeroFailure100Days => zero_failure
  end.

(** A count is published down to a multiple of five, if at least five. *)
Definition published (label : NetworkHonorLabel) (count : Z) : list NetworkHonorLeaderboardEntry :=
  if 5 <=? count then [mkHonorEntry label (count / 5 * 5)] else [].

Lemma push_Ok entries label count :
  0 ≤ count ≤ i64_max →
  push_quantized_honor_entry entries label count = Ok (entries ++ published label count).
Proof.
  intros Hc. unfold push_quantized_honor_entry, published, NETWORK_HONOR_COUNT_GRANULARITY,
    CONTRIBUTION_RANK_PRIVACY_THRESHOLD, div_trunc.
  rewrite (proj2 (Z.ltb_ge count 0)) by lia. simpl. rewrite Z.quot_div_nonneg by lia.
  assert ((5 <=? count / 5 * 5) = (5 <=? count)) as ->.
  { apply eq_bool_prop_intro. rewrite !Is_true_true, !Z.leb_le.
    pose proof (Z.div_mod count 5). pose proof (Z.mod_pos_bound count 5). lia. }
  destruct (5 <=? count) eqn:E; [|by rewrite app_nil_r].
  unfold u64_try_from. rewrite checked_true; [done|]. apply in_range_true. unfold_int.
  pose proof (Z.div_mod count 5). pose proof (Z.mod_pos_bound count 5). lia.
Qed.

Definition all_labels : list NetworkHonorLabel :=
  [Top1Percent; Top5Percent; Top10Percent; Top25Percent; Top50Percent; Contributor;
   ZeroFailure100Days].

Lemma leaderboard_eq rows zero_failure :
  let l := rows.*2 in
  let n := Z.of_nat (length rows) in
  2 * n ≤ i64_max → 0 ≤ zero_failure ≤ n →
  network_honor_leaderboard n (tie_groups rows) zero_failure
  = Ok (if n <? 5 then mkLeaderboard NETWORK_HONOR_AGGREGATION_VERSION 5 0 5 true []
        else mkLeaderboard NETWORK_HONOR_AGGREGATION_VERSION 5 n 5 false
               (all_labels ≫= λ label, published label (exact_count l zero_failure label))).
Proof.
  intros l n Hn Hz. assert (n = Z.of_nat (length l)) as En by by unfold n, l; rewrite length_fmap.
  unfold network_honor_leaderboard. rewrite tie_groups_eq. fold l.
  rewrite groups_positive. assert (checked_total 0 (tied l <$> values l) = Some n) as ->.
  { rewrite En, <-among_values. rewrite <-(groups_total l [] (values l)); [|done|].
    - f_equal. unfold among. by rewrite countb_none by by intros.
    - revert Hn. rewrite En. unfold_int. lia. }
  rewrite bool_decide_true by done.
  rewrite (proj2 (Z.ltb_ge n 0)), (proj2 (Z.ltb_ge zero_failure 0)),
    (proj2 (Z.ltb_ge n zero_failure)) by lia. cbn [orb negb bail_if mbind result_bind].
  change (u64_try_from CONTRIBUTION_RANK_PRIVACY_THRESHOLD) with (Some 5).
  change (u64_try_from NETWORK_HONOR_COUNT_GRANULARITY) with (Some 5).
  unfold CONTRIBUTION_RANK_PRIVACY_THRESHOLD.
  cbn [or_internal ok_or mbind result_bind]. destruct (Z.ltb_spec n 5) as [|Hfive]; [done|].
  assert (∀ p, 1 ≤ p ≤ 100 → top_ranked_nodes n (tied l <$> values l) p = Ok (countb (in_top l p) l))
    as Htop.
  { intros p Hp. rewrite En. apply top_ranked_counts; unfold CONTRIBUTION_RANK_PRIVACY_THRESHOLD; lia. }
  assert (∀ p, 0 ≤ countb p l ≤ i64_max) as Hle.
  { intros p. pose proof (countb_nonneg p l). pose proof (countb_le_length p l). lia. }
  assert (0 ≤ n ≤ i64_max) as Hn64 by lia.
  unfold top_labels. repeat (rewrite fold_each_cons; cbn [fst snd]; rewrite Htop by lia;
    cbn [mbind result_bind]; rewrite push_Ok by done; cbn [mbind result_bind]).
  cbn [fold_each mbind result_bind]. rewrite push_Ok by done. cbn [mbind result_bind].
  rewrite push_Ok by lia. cbn [mbind result_bind]. unfold u64_try_from.
  rewrite checked_true; [|apply in_range_true; revert Hn64; unfold_int; lia].
  cbn. rewrite En, <-!app_assoc, app_nil_r. done.
Qed.

Lemma published_elem label count e :
  e ∈ published label count ↔ e = mkHonorEntry label (count / 5 * 5) ∧ 5 ≤ count.
Proof.
  unfold published. destruct (Z.leb_spec 5 count); rewrite ?elem_of_cons, ?elem_of_nil; naive_solver lia.
Qed.

(** the leaderboard counts the network and names nobody. Below five
    contributing nodes it is suppressed, and neither it nor the asking node's
    own rank says anything. From five on, a label has an entry exactly when at
    least five nodes qualify, with their number rounded down to a multiple of
    five; a node qualifies for the top p percent exactly when its own midrank
    percentile among all contributions is at least (100 - p) percent, so equal
    contributions qualify together. And every node is shown the same
    leaderboard. *)
Theorem leaderboard_counts_nodes st now node contribution s rows :
  node_honor_stats st now node contribution = Ok s → per_node st = Ok rows →
  2 * Z.of_nat (length rows) ≤ i64_max →
  let b := network_leaderboard s in
  let n := Z.of_nat (length rows) in
  suppressed b = (n <? 5)
  ∧ (n < 5 → board_entries b = [] ∧ board_cohort_nodes b = 0
             ∧ contribution_rank_cohort_nodes s = 0 ∧ contribution_rank_percentile s = None)
  ∧ (5 ≤ n → board_cohort_nodes b = n ∧ ∀ label bound,
      mkHonorEntry label bound ∈ board_entries b ↔
        let exact := exact_count rows.*2 (network_zero_failure_100_days_nodes st now) label in
        5 ≤ exact ∧ bound = exact / 5 * 5)
  ∧ ∀ node' contribution' s', node_honor_stats st now node' contribution' = Ok s' →
      network_leaderboard s' = b.
Proof.
  intros Hs Hrows Hn b n.
  assert (∀ node c s, node_honor_stats st now node c = Ok s →
    ∃ zero p, zero = (if 5 <=? n then network_zero_failure_100_days_nodes st now else 0)
      ∧ contribution_midrank_percentile n (countb (λ p, p.2 <? c) rows)
          (countb (λ p, p.2 =? c) rows) (existsb (λ p, p.1 =? node) rows) = Ok p
      ∧ contribution_rank_percentile s = p
      ∧ contribution_rank_cohort_nodes s = (if 5 <=? n then n else 0)
      ∧ network_honor_leaderboard n (tie_groups rows) zero = Ok (network_leaderboard s)) as Hinv.
  { clear -Hrows. intros node c s H. apply bind_Ok in H as ([] & _ & H).
    apply bind_Ok in H as (rows' & Hr & H). assert (rows' = rows) as -> by congruence.
    apply bind_Ok in H as (p & Hp & H). apply bind_Ok in H as (lb & Hl & H).
    apply bind_Ok in H as (k & Hk%or_internal_Ok%checked_Some & H).
    apply bind_Ok in H as (t & _ & [= <-]). simpl in *. eexists _, p. split_and!; try done. apply Hk. }
  destruct (Hinv _ _ _ Hs) as (z & p & Hz & Hp & Ep & Ec & Hl). fold b in Hl.
  assert (0 ≤ z ≤ n) as Hzn.
  { apply bind_Ok in Hl as ([] & Hb%bail_if_Ok & _).
    repeat match goal with H : _ || _ = false |- _ => apply orb_false_iff in H as [? ?] end.
    rewrite !Z.ltb_ge in *. lia. }
  pose proof (leaderboard_eq rows z Hn Hzn) as Hb. fold n in Hb. rewrite Hl in Hb.
  apply Ok_inj in Hb. symmetry in Hb. split; [|split; [|split]].
  - rewrite <-Hb. by destruct (n <? 5).
  - intros Hlt. rewrite <-Hb, Ep, Ec. rewrite (proj2 (Z.ltb_lt n 5)), (proj2 (Z.leb_gt 5 n)) by lia.
    split_and!; try done. unfold contribution_midrank_percentile in Hp. ok_inv.
    rewrite (proj2 (Z.ltb_lt n _)), orb_true_r in H0 by done. by injection H0.
  - intros Hge. rewrite <-Hb, (proj2 (Z.ltb_ge n 5)) by lia. split; [done|]. intros label bound.
    rewrite (proj2 (Z.leb_le 5 n)) in Hz by lia. subst z. cbn [board_entries].
    cbn zeta. rewrite list_elem_of_bind.
    setoid_rewrite published_elem. split.
    + intros (l & [[= -> ->] ?] & _). done.
    + intros [? ->]. exists label. split; [done|]. unfold all_labels. destruct label; set_solver.
  - intros node' c' s' H'. destruct (Hinv _ _ _ H') as (z' & p' & -> & _ & _ & _ & Hl2).
    rewrite <-Hz, Hl in Hl2. by injection Hl2.
Qed.

(** ** The streak *)

Lemma keys_bounded {A} (m : gmap Z A) (l : list Z) :
  NoDup l → (∀ x, x ∈ l → is_Some (m !! x)) → (length l ≤ size m)%nat.
Proof.
  intros Hn Hl. rewrite <-size_dom, <-(size_list_to_set (C := gset Z)) by done.
  apply subseteq_size. intros x Hx%elem_of_list_to_set. by apply elem_of_dom, Hl.
Qed.

Section streak.
Context (m : gmap Z Z).
Context (start : Z).
Context (Hstart : 0 ≤ start).

Definition run_from (s : Z) : Prop := ∀ i, 0 ≤ i < s → m !! (start + i) = Some 0.

Lemma run_bounded s : 0 ≤ s → run_from s → s ≤ Z.of_nat (size m).
Proof using Type.
  intros Hs Hr. pose proof (keys_bounded m (seqZ start s)) as H.
  rewrite length_seqZ in H. enough (Z.to_nat s ≤ size m)%nat by lia.
  apply H; [apply NoDup_seqZ|]. intros x Hx%elem_of_seqZ.
  specialize (Hr (x - start) ltac:(lia)). replace (start + (x - start)) with x in Hr by lia.
  by eexists.
Qed.

Lemma streak_loop_run fuel k :
  (∀ d, is_Some (m !! d) → d < i32_max) → 0 ≤ k → run_from k →
  Z.of_nat (S (size m)) ≤ k + Z.of_nat fuel →
  ∃ s, streak_loop fuel m (start + k) k = Some s ∧ k ≤ s ∧ run_from s ∧ m !! (start + s) ≠ Some 0.
Proof using Hstart.
  intros Hkeys. revert k. induction fuel as [|fuel IH]; intros k Hk Hr Hf; simpl.
  - pose proof (run_bounded k Hk Hr). lia.
  - case_bool_decide as Hd; [|exists k; split_and!; done || lia].
    pose proof (Hkeys (start + k) (ex_intro _ _ Hd)) as Hlt.
    assert (run_from (k + 1)) as Hr1.
    { intros i Hi. destruct (decide (i = k)) as [->|]; [done|]. apply Hr. lia. }
    destruct (IH (k + 1)) as (s & E & Hle & Hrun & Hend); [lia|done|lia|].
    exists s. split_and!; [|lia|done..]. rewrite <-E. f_equal.
    + unfold i32_saturating_add. revert Hlt. unfold_int. lia.
    + unfold u64_saturating_inc. revert Hlt. unfold_int. lia.
Qed.
End streak.

(** the streak is the run of clean days. For a node with finished work the
    loop ends and gives the length of the run of days, back from today if today
    has finished work and from yesterday otherwise, each with finished work and
    without failures; the run cannot be extended. *)
Theorem streak_is_clean_run (daily : gmap Z Z) :
  daily ≠ ∅ → (∀ day, is_Some (daily !! day) → day < i32_max) →
  let start := if bool_decide (is_Some (daily !! 0)) then 0 else 1 in
  ∃ days, zero_failure_streak daily = Some days ∧ 0 ≤ days
    ∧ (∀ i, 0 ≤ i < days → daily !! (start + i) = Some 0)
    ∧ daily !! (start + days) ≠ Some 0.
Proof.
  intros Hne Hkeys start. unfold zero_failure_streak. rewrite bool_decide_false by done. fold start.
  destruct (streak_loop_run daily start ltac:(subst start; case_bool_decide; lia)
    (S (size daily)) 0) as (s & E & Hs & Hr & Hend); [done|done|intros i; lia|lia|].
  rewrite Z.add_0_r in E. by exists s.
Qed.

(** ** Milestones *)

(** The milestones bracket the contribution in powers of ten from one million;
    past the last power an [i64] holds there are none. *)
Lemma milestones_bracket contribution :
  0 ≤ contribution →
  match contribution_milestones contribution with
  | Some (previous, next) =>
    previous ≤ contribution < next ∧ (previous = 0 ∧ next = 1000000 ∨ next = 10 * previous)
  | None => 1000000000000000000 ≤ contribution
  end.
Proof.
  intros Hc. unfold contribution_milestones. rewrite (proj2 (Z.ltb_ge _ _)) by lia.
  unfold CONTRIBUTION_MILESTONE_BASE_MICRO, MILESTONE_FUEL.
  repeat (cbn [milestone_loop]; first
    [ match goal with
      | |- context [i64_checked_mul ?a ?b] =>
        let v := eval vm_compute in (i64_checked_mul a b) in
        change (i64_checked_mul a b) with v; cbn match
      end
    | match goal with
      | |- context [?a <=? contribution] => destruct (Z.leb_spec a contribution)
      end ]).
  all: simpl; lia.
Qed.
