(* ===== verification/RegulatedSpec.v ===== *)
(** * Regulated routes and the jobs that redeem them

    Preparing a route and redeeming it keep the invariant of the database: a
    route has at most one job, which took its hardware, its limits and its
    price from it. *)
From S2P Require Import Prelude Text Float64 Fixed Tier Policy Routing Billing Ledger Net AntiAbuse StandardData Hardware Fingerprint Store Envelope Api Snapshot Tables Lease Postings Complete Settled Requests Quotes Dispatch DispatchSpec JobOps RegulatedRoutes Admission RegulatedJobs Lifecycle Progress.

Local Open Scope string_scope.
Local Open Scope list_scope.
Local Open Scope Z_scope.

(** ** The tables of routes and jobs *)

Lemma prepared_no_job rs js rt r :
  routes_ok rs js → rs !! rt = Some r → route_status r ≠ Consumed → route_job r = None.
Proof.
  intros H Hr Hs. destruct (route_job r) as [id|] eqn:E; [|done].
  by destruct (routes_consumed _ _ H rt r id Hr E).
Qed.

(** Unconsumed routes may end. *)
Lemma routes_ok_update rs rs' js :
  routes_ok rs js →
  (∀ rt, rs' !! rt = rs !! rt
     ∨ ∃ r r', rs !! rt = Some r ∧ rs' !! rt = Some r' ∧ route_status r ≠ Consumed
         ∧ route_status r' ≠ Consumed ∧ route_job r' = route_job r
         ∧ route_user r' = route_user r ∧ route_idempotency r' = route_idempotency r) →
  routes_ok rs' js.
Proof.
  intros H Hall. pose proof H as [Hj Hc Hs Hk].
  assert (∀ rt r', rs' !! rt = Some r' → ∃ r, rs !! rt = Some r
    ∧ route_user r' = route_user r ∧ route_idempotency r' = route_idempotency r
    ∧ (r' = r ∨ route_status r ≠ Consumed ∧ route_status r' ≠ Consumed
         ∧ route_job r' = route_job r)) as Hold.
  { intros rt r' Hr'. destruct (Hall rt) as [E|(r & x & Hr & Hx & ? & ? & ? & ? & ?)].
    - exists r'. rewrite <-E. eauto.
    - rewrite Hr' in Hx. injection Hx as <-. exists r. split_and!; auto. }
  split.
  - intros id j rt Hid Hrt. destruct (Hj id j rt Hid Hrt) as (r & Hr & Hred).
    exists r. split; [|done]. destruct (Hall rt) as [->|(r1 & r' & Hr1 & _ & Hn & _)]; [done|].
    pose proof (redeemed_status _ _ _ Hred). congruence.
  - intros rt r' id (r & Hr & _ & _ & [->|(Hn & _ & Ej)])%Hold Hjob; [by apply (Hc rt r)|].
    rewrite Ej in Hjob. by destruct (Hc rt r id Hr Hjob).
  - intros rt r' (r & Hr & _ & _ & [->|(_ & Hn & _)])%Hold Hst; [by apply (Hs rt r)|done].
  - intros rt rt' r r' (r1 & H1 & U1 & K1 & _)%Hold (r2 & H2 & U2 & K2 & _)%Hold Hu Hkey.
    apply (Hk rt rt' r1 r2); congruence.
Qed.

Lemma routes_ok_expire st now user js :
  routes_ok (regulated_routes (fleet st)) js →
  routes_ok (regulated_routes (fleet (expire_routes st now user))) js.
Proof.
  intros H. apply (routes_ok_update _ _ _ H). intros rt. simpl. rewrite lookup_fmap.
  destruct (regulated_routes (fleet st) !! rt) as [r|] eqn:Hr; [|by left].
  cbn [fmap option_fmap option_map]. destruct (_ && _) eqn:Hg; [|by left]. right. exists r.
  eexists. split; [done|]. split; [done|]. unfold route_prepared in Hg.
  rewrite !andb_true_iff, bool_decide_eq_true in Hg. destruct Hg as [[_ ->] _]. done.
Qed.

Lemma routes_ok_prepare rs js rt r :
  routes_ok rs js → rs !! rt = None → route_status r = Prepared → route_job r = None →
  (∀ k rk, rs !! k = Some rk → route_user rk = route_user r →
     route_idempotency rk = route_idempotency r → False) →
  routes_ok (<[rt := r]> rs) js.
Proof.
  intros [Hj Hc Hs Hk] Hn Hst Hjob Hkey. split.
  - intros id j rt' Hid Hrt. destruct (Hj id j rt' Hid Hrt) as (r' & Hr' & ?). exists r'.
    rewrite lookup_insert_ne by congruence. done.
  - intros rt' r' id. rewrite lookup_insert_Some. intros [[<- <-]|[_ Hr']]; [congruence|eauto].
  - intros rt' r'. rewrite lookup_insert_Some. intros [[<- <-]|[_ Hr']]; [congruence|eauto].
  - intros k k' rk rk'. rewrite !lookup_insert_Some.
    intros [[<- <-]|[_ H]] [[<- <-]|[_ H']] Hu Hi; [done|..|eauto].
    + by destruct (Hkey k' rk' H').
    + by destruct (Hkey k rk H).
Qed.

Lemma routes_ok_redeem rs js rt r id j now fingerprint :
  routes_ok rs js → rs !! rt = Some r → route_status r = Prepared →
  js !! id = None → regulated_route_id j = Some rt →
  redeemed id j (route_ended r Consumed now (Some id) fingerprint) →
  routes_ok (<[rt := route_ended r Consumed now (Some id) fingerprint]> rs) (<[id := j]> js).
Proof.
  intros [Hj Hc Hs Hk] Hr Hst Hn Hrt Hred. split.
  - intros k jk rt'. rewrite lookup_insert_Some. intros [[<- <-]|[_ Hk']] Hrt'.
    + rewrite Hrt in Hrt'. injection Hrt' as <-. rewrite lookup_insert_eq. eauto.
    + destruct (Hj k jk rt' Hk' Hrt') as (r' & Hr' & Hred').
      rewrite lookup_insert_ne; [eauto|]. intros <-. rewrite Hr in Hr'. injection Hr' as <-.
      pose proof (redeemed_status _ _ _ Hred'). congruence.
  - intros rt' r' k. rewrite lookup_insert_Some. intros [[<- <-]|[_ Hr']].
    + intros [= <-]. split; [done|]. exists j. by rewrite lookup_insert_eq.
    + intros Hjob. destruct (Hc rt' r' k Hr' Hjob) as (? & jk & Hjk & ?). split; [done|].
      exists jk. rewrite lookup_insert_ne by congruence. done.
  - intros rt' r'. rewrite lookup_insert_Some. intros [[<- <-]|[_ Hr']]; [by eexists|eauto].
  - intros k k' rk rk'. rewrite !lookup_insert_Some.
    intros [[<- <-]|[_ H]] [[<- <-]|[_ H']] Hu Hi; [done|..|eauto].
    + by apply (Hk rt k' r rk').
    + by apply (Hk k rt rk r).
Qed.

Lemma insert_route_Ok st id r st' :
  insert_route st id r = Ok st' →
  regulated_routes (fleet st) !! id = None
  ∧ (∀ k rk, regulated_routes (fleet st) !! k = Some rk → route_user rk = route_user r →
       route_idempotency rk = route_idempotency r → False)
  ∧ prepared_at r < route_expires_at r
  ∧ st' = with_routes st (<[id := r]> (regulated_routes (fleet st))).
Proof.
  unfold insert_route. intros H. apply bind_Ok in H as ([] & Hc%require_internal_Ok & [= <-]).
  rewrite !andb_true_iff, bool_decide_eq_true, negb_true_iff, Z.ltb_lt in Hc.
  destruct Hc as (((((Hn & Hk) & _) & _) & _) & Hlt). split_and!; try done; try lia.
  intros k rk Hrk Hu Hi. eapply (key_absent _ _ Hk k rk Hrk). simpl.
  by rewrite Hu, Hi, Z.eqb_refl, String.eqb_refl.
Qed.

Lemma routes_ok_insert_route st id r st' js :
  routes_ok (regulated_routes (fleet st)) js → route_status r = Prepared → route_job r = None →
  insert_route st id r = Ok st' → routes_ok (regulated_routes (fleet st')) js.
Proof. intros H Hs Hj (? & ? & _ & ->)%insert_route_Ok. by apply routes_ok_prepare. Qed.

(** ** Preparing *)

Section prepare.
Context `{C : Crypto, CL : Collation, RJ : RegulatedJson}.

(** The candidates are asked in turn, each at the next reading of the clock. *)
Lemma first_available_Ok st now request clock k rows r :
  first_available st now request clock k rows = Ok (Some r) →
  ∃ before after, rows = before ++ r :: after
    ∧ check_reserved_capacity_and_policy st now (clock (k + length before)%nat)
        (ranked_node (eligible r)) (prepare_tags request) None None = Ok true
    ∧ ∀ i x, before !! i = Some x →
        check_reserved_capacity_and_policy st now (clock (k + i)%nat)
          (ranked_node (eligible x)) (prepare_tags request) None None = Ok false.
Proof.
  revert k. induction rows as [|x rows IH]; intros k H; cbn [first_available] in H; [done|].
  apply bind_Ok in H as ([] & Hx & H).
  - injection H as ->. exists [], rows. rewrite Nat.add_0_r. by split_and!.
  - apply IH in H as (before & after & -> & Hr & Hb). exists (x :: before), after. simpl.
    rewrite Nat.add_succ_r. split_and!; [done..|]. intros [|i] y Hy; simpl in Hy.
    + injection Hy as ->. by rewrite Nat.add_0_r.
    + rewrite Nat.add_succ_r. by apply (Hb i).
Qed.

Lemma response_Ok model instance node report ar nonce route expires replay resp :
  response_from_selected model instance node report ar nonce route expires replay = Ok resp →
  prepared_route_id resp = route ∧ prepared_replay resp = replay
  ∧ prepared_expires_at resp = expires
  ∧ (prepared_model_id resp, prepared_instance_id resp, prepared_node_id resp)
    = (model, instance, node)
  ∧ ∀ route' expires' replay',
      response_from_selected model instance node report ar nonce route' expires' replay'
      = Ok (mkPrepared route' model instance node expires' replay' (prepared_attestation resp)).
Proof.
  unfold response_from_selected. intros H.
  repeat (let x := fresh "x" in let E := fresh "E" in
          apply bind_Ok in H as (x & E & H); rewrite E; cbn [mbind result_bind]).
  injection H as <-. done.
Qed.

(** What a fresh preparation did. *)
Lemma prepare_route_Ok st tx principal request fingerprint resp st' :
  prepare_route st tx principal request fingerprint = Ok (resp, st') →
  ∃ row b expires,
    first_available st (tx_now tx) request (now_utc tx) 1 (candidates st (tx_now tx) request)
      = Ok (Some row)
    ∧ load_billing_snapshot (profiles (fleet st)) (tx_now tx) (eligible_model row)
        (default "" (report_model_hash (report_row row))) (prepare_input_tokens request)
        (prepare_max_output_tokens request) = Ok b
    ∧ route_expiry (now_utc tx 0%nat) (report_row row) b = Ok expires
    ∧ insert_route st (now_v7 tx 0%nat)
        (prepared_row tx principal request fingerprint row b expires) = Ok st'
    ∧ response_from_selected (eligible_model row) (ranked_instance (eligible row))
        (ranked_node (eligible row)) (eligible_report row) (report_row row) (eligible_nonce row)
        (now_v7 tx 0%nat) expires false = Ok resp.
Proof.
  unfold prepare_route. intros H. apply bind_Ok in H as (found & Hf & H).
  apply bind_Ok in H as (row & ->%ok_or_Ok & H). cbv zeta in H.
  apply bind_Ok in H as ([] & _ & H). apply bind_Ok in H as ([] & _ & H).
  apply bind_Ok in H as (hash & Hh%or_internal_Ok & H). apply bind_Ok in H as (b & Hb & H).
  apply bind_Ok in H as (expires & He & H). apply bind_Ok in H as (st1 & Hst & H).
  apply bind_Ok in H as (r & Hr & [= -> ->]). exists row, b, expires. by rewrite Hh.
Qed.

Lemma prepare_answer st tx principal request resp st' :
  prepare_regulated_job st tx principal request = (Ok resp, st') →
  let st1 := expire_routes st (tx_now tx) (principal_user_id principal) in
  ∃ fingerprint, prepare_validate request = Ok tt
    ∧ regulated_request_fingerprint "prepare-v1" (encode_prepare request) = Ok fingerprint
    ∧ ((∃ route r,
          existing_route st1 (principal_user_id principal) (prepare_idempotency_key request)
            = Some (route, r)
          ∧ prepare_request_fingerprint r = Some fingerprint ∧ route_prepared r = true
          ∧ load_route_response st1 (tx_now tx) route true = Ok resp ∧ st' = st1)
       ∨ (existing_route st1 (principal_user_id principal) (prepare_idempotency_key request) = None
          ∧ prepare_route st1 tx principal request fingerprint = Ok (resp, st'))).
Proof.
  intros H%transaction_answer. apply bind_Ok in H as ([] & Hv%map_err_Ok & H).
  apply bind_Ok in H as (fingerprint & Hf & H). cbv zeta in *. exists fingerprint.
  split; [done|]. split; [done|].
  destruct (existing_route _ _ _) as [[route r]|]; [left|right].
  - apply bind_Ok in H as ([] & Hfp%bail_if_Ok%negb_false_iff%bool_decide_eq_true & H).
    apply bind_Ok in H as ([] & Hp%bail_if_Ok%negb_false_iff & H).
    apply bind_Ok in H as (resp1 & Hr & H). injection H as -> <-. by exists route, r.
  - apply bind_Ok in H as ([resp1 st2] & H & E). by injection E as -> ->.
Qed.

Lemma prepare_keeps st tx principal request r st' :
  invariant st → prepare_regulated_job st tx principal request = (r, st') → keeps st st'.
Proof.
  intros Hinv H. destruct r as [resp|e]; last first.
  { apply transaction_Ok in H as [->|H]; [by apply keeps_refl|].
    apply bind_Ok in H as ([] & _ & H). apply bind_Ok in H as (? & _ & H). cbv zeta in H.
    destruct (existing_route _ _ _) as [[route r]|].
    - apply bind_Ok in H as ([] & _ & H). apply bind_Ok in H as ([] & _ & H).
      by apply bind_Ok in H as (? & _ & [= ]).
    - by apply bind_Ok in H as ([] & _ & [= ]). }
  apply prepare_answer in H as (fingerprint & _ & _ & H). cbv zeta in H.
  set (st1 := expire_routes st (tx_now tx) (principal_user_id principal)) in *.
  assert (keeps st st1) as K.
  { apply keeps_routes; try done. apply routes_ok_expire, Hinv. }
  destruct H as [(route & row & _ & _ & _ & _ & ->)|[_ H]]; [done|].
  apply prepare_route_Ok in H as (row & b & expires & _ & _ & _ & Hi & _).
  eapply keeps_trans; [exact K|].
  pose proof Hi as (_ & _ & _ & ->)%insert_route_Ok.
  apply keeps_routes; try done; [apply K|].
  eapply routes_ok_insert_route; [apply (inv_routes _ (keeps_invariant _ _ K))|..|exact Hi]; done.
Qed.
End prepare.

(** ** Redeeming *)

Section redeem.
Context `{C : Crypto, RJ : RegulatedJson}.
Context (cfg : Config) (asn_lookup : IpAddr → option Z) (trusted_proxy_ips : gset IpAddr).

Lemma consume_route_Ok st now route job fingerprint st' :
  consume_route st now route job fingerprint = Ok st' →
  ∃ r, regulated_routes (fleet st) !! route = Some r ∧ route_status r = Prepared
    ∧ now < route_expires_at r
    ∧ st' = with_routes st (<[route := route_ended r Consumed now (Some job) (Some fingerprint)]>
              (regulated_routes (fleet st))).
Proof.
  unfold consume_route. intros H. apply bind_Ok in H as (r & Hr%ok_or_Ok & H).
  apply bind_Some in Hr as (r' & Hr & Hg). destruct (_ && _) eqn:E; [|done]. injection Hg as ->.
  apply andb_true_iff in E as [Hp%bool_decide_eq_true Hlt%Z.ltb_lt].
  apply bind_Ok in H as ([] & _ & [= <-]). by exists r.
Qed.

Lemma load_bound_route_Ok st route b :
  load_bound_route st route = Some b →
  regulated_routes (fleet st) !! route = Some (bound_route b)
  ∧ models st !! route_model (bound_route b) = Some (bound_model b)
  ∧ enabled (bound_model b) = true
  ∧ instances st !! route_instance (bound_route b) = Some (bound_instance b)
  ∧ nodes st !! route_node (bound_route b) = Some (bound_to_node b)
  ∧ reports st !! route_report (bound_route b) = Some (bound_report b).
Proof.
  unfold load_bound_route. intros H. apply bind_Some in H as (r & ? & H).
  apply bind_Some in H as (m & ? & H). apply bind_Some in H as (i & ? & H).
  apply bind_Some in H as (n & ? & H). apply bind_Some in H as (ar & ? & H).
  destruct (enabled m) eqn:?; [|done]. by injection H as <-.
Qed.

(** What a fresh redemption did. *)
Lemma redeem_route_Ok st tx id principal request fingerprint resp st' :
  redeem_route cfg st tx id principal request fingerprint = Ok (resp, st') →
  ∃ b billing book text,
    let r := bound_route b in
    let route := regulated_route request in
    let j := regulated_job cfg tx principal request r billing text in
    load_bound_route st route = Some b
    ∧ route_user r = principal_user_id principal ∧ route_status r = Prepared
    ∧ route_lost st (now_utc tx 0%nat) b = Ok false
    ∧ from_frozen_row (route_billing r) (weights_hash (bound_model b)) = Ok billing
    ∧ check_reserved_capacity_and_policy st (tx_now tx) (now_utc tx 1%nat) (route_node r)
        (route_tags r) (Some route) (Some (route_report r)) = Ok true
    ∧ envelope_misbound request b = Ok false
    ∧ encode_envelope (envelope request) = Some text
    ∧ (snapshot_authorized_input_tokens billing, snapshot_authorized_max_output_tokens billing)
      = (route_input_tokens r, route_max_output_tokens r)
    ∧ (∀ u, reserved_of book u = reserved_of (books st) u
         + to_user (principal_user_id principal) (reservation_micro billing) u)
    ∧ (books_ok (books st) → books_ok book)
    ∧ reservation_micro billing
        ≤ spendable_of (books st) (principal_user_id principal)
          - reserved_of (books st) (principal_user_id principal)
    ∧ jobs st !! id = None ∧ 0 < reservation_micro billing
    ∧ (∀ k jk, jobs st !! k = Some jk → user_id jk = principal_user_id principal →
         job_idempotency jk = regulated_idempotency_key request → False)
    ∧ tx_now tx < route_expires_at r
    ∧ resp = mkRegulatedJob id Queued (route_model r) (reservation_micro billing) false
    ∧ st' = with_routes (with_jobs (with_books st book) (<[id := j]> (jobs st)))
        (<[route := route_ended r Consumed (tx_now tx) (Some id) (Some fingerprint)]>
           (regulated_routes (fleet st))).
Proof.
  unfold redeem_route. intros H. apply bind_Ok in H as (b & Hb%ok_or_Ok & H). cbv zeta in H.
  apply bind_Ok in H as ([] & Hu%bail_if_Ok%negb_false_iff%Z.eqb_eq & H).
  apply bind_Ok in H as ([] & Hp%bail_if_Ok%negb_false_iff%bool_decide_eq_true & H).
  apply bind_Ok in H as (lost & Hl & H). apply bind_Ok in H as ([] & ->%bail_if_Ok & H).
  apply bind_Ok in H as (billing & Hf & H). apply bind_Ok in H as (available & Hc & H).
  apply bind_Ok in H as ([] & ->%bail_if_Ok%negb_false_iff & H). apply bind_Ok in H as ([] & _ & H).
  apply bind_Ok in H as (mis & Hm & H). apply bind_Ok in H as ([] & ->%bail_if_Ok & H).
  apply bind_Ok in H as (text & Ht%ok_or_Ok & H). apply bind_Ok in H as ([] & _ & H).
  apply bind_Ok in H as ([] & Ha%bail_if_Ok & H).
  apply orb_false_iff in Ha as [Hi%negb_false_iff%Z.eqb_eq Ho%negb_false_iff%Z.eqb_eq].
  apply bind_Ok in H as (st1 & (book & -> & Hbm & Hok & Hle)%reserve_Ok & H).
  apply bind_Ok in H as (st2 & (Hn & Hpos & _ & Hk & _ & ->)%insert_job_Ok & H).
  apply bind_Ok in H as (st3 & (r & Hr & _ & Hlt & ->)%consume_route_Ok & [= <- <-]).
  exists b, billing, book, text. cbv zeta. simpl in Hr.
  pose proof (load_bound_route_Ok _ _ _ Hb) as (Hr' & _). rewrite Hr in Hr'. injection Hr' as ->.
  split_and!; try done. congruence.
Qed.

Lemma create_regulated_answer st tx id principal connection request resp st' :
  create_regulated_job cfg asn_lookup trusted_proxy_ips st tx id principal connection request
    = (Ok resp, st') →
  ∃ fingerprint,
    create_regulated_validate request = Ok tt
    ∧ regulated_request_fingerprint "create-v1" (encode_create_regulated request) = Ok fingerprint
    ∧ ((∃ p, existing_job st (principal_user_id principal) (regulated_idempotency_key request)
               = Some p
          ∧ existing_regulated_response st p request fingerprint = Ok resp ∧ st' = st)
       ∨ (existing_job st (principal_user_id principal) (regulated_idempotency_key request) = None
          ∧ ∃ db, redeem_route cfg (with_abuse st db) tx id principal request fingerprint
                  = Ok (resp, st'))).
Proof.
  intros H%transaction_answer. apply bind_Ok in H as ([] & Hv%map_err_Ok & H).
  apply bind_Ok in H as (fingerprint & Hf & H). exists fingerprint.
  split; [done|]. split; [done|]. destruct (existing_job _ _ _) as [p|]; [left|right].
  - apply bind_Ok in H as (r & Hr & H). injection H as -> <-. by exists p.
  - split; [done|]. apply bind_Ok in H as (st1 & H1 & H). unfold assess_job_creation in H1.
    apply bind_Ok in H1 as (network & _ & H1). apply bind_Ok in H1 as (akey & _ & H1).
    apply bind_Ok in H1 as ([decision db] & _ & H1). apply bind_Ok in H1 as ([] & _ & [= <-]).
    apply bind_Ok in H as ([r st2] & H & E). injection E as -> ->. by exists db.
Qed.

Lemma redeem_redeemed tx id principal request r billing text fingerprint m :
  from_frozen_row (route_billing r) m = Ok billing →
  route_user r = principal_user_id principal →
  redeemed id (regulated_job cfg tx principal request r billing text)
    (route_ended r Consumed (tx_now tx) (Some id) fingerprint).
Proof. intros (Hc & _)%from_frozen_row_columns Hu. by split. Qed.

Lemma create_regulated_keeps st tx id principal connection request r st' :
  invariant st →
  create_regulated_job cfg asn_lookup trusted_proxy_ips st tx id principal connection request
    = (r, st') → keeps st st'.
Proof.
  intros Hinv H. destruct r as [resp|e]; last first.
  { unfold create_regulated_job, transaction in H. destruct (_ ≫= _) as [[a s]|] eqn:E in H;
      [|injection H as _ <-; by apply keeps_refl]. exfalso. injection H as -> ->.
    apply bind_Ok in E as ([] & _ & E). apply bind_Ok in E as (? & _ & E).
    destruct (existing_job _ _ _) as [p|].
    - by apply bind_Ok in E as (? & _ & [= ]).
    - apply bind_Ok in E as (? & _ & E). by apply bind_Ok in E as ([] & _ & [= ]). }
  apply create_regulated_answer in H as (fp & _ & _ & [(p & _ & _ & ->)|(_ & db & H)]);
    [by apply keeps_refl|].
  apply redeem_route_Ok in H as (b & billing & book & text & Hb & Hu & Hp & _ & Hf & _ & _ & _ & _
    & Hm & Hok & _ & Hn & Hpos & Hk & _ & _ & ->).
  apply load_bound_route_Ok in Hb as (Hr & _).
  eapply (insert_keeps _ _ id (regulated_job cfg tx principal request (bound_route b) billing text));
    try done; [|apply attempts_allowed_bounds].
  eapply routes_ok_redeem; [apply Hinv|exact Hr|done|exact Hn|done|]. by eapply redeem_redeemed.
Qed.
End redeem.

(** ** The slot of a route *)

(** A route excluded from the count holds one slot of it while it is prepared. *)
Lemma reserved_without st now route r :
  regulated_routes (fleet st) !! route = Some r → route_status r = Prepared →
  now < route_expires_at r →
  reserved_count st now (route_node r) None = reserved_count st now (route_node r) (Some route) + 1.
Proof.
  intros Hr Hp Hlt. unfold reserved_count. set (rs := regulated_routes (fleet st)) in *.
  set (f := λ (e : option Z) (p : Z * RouteRow), (route_node p.2 =? route_node r) && route_prepared p.2
    && (now <? route_expires_at p.2) && negb (bool_decide (e = Some p.1))).
  assert (f None (route, r) = true ∧ f (Some route) (route, r) = false) as [H1 H2].
  { unfold f, route_prepared. simpl. rewrite Hp, Z.eqb_refl, (proj2 (Z.ltb_lt _ _) Hlt).
    by rewrite !bool_decide_true by done. }
  assert (∀ e, countb (f e) (map_to_list rs)
    = count_one (f e (route, r)) + countb (f e) (map_to_list (delete route rs))) as Hsplit.
  { intros e. rewrite <-(insert_delete_id _ _ _ Hr) at 1. by apply countb_insert, lookup_delete_eq. }
  enough (countb (f None) (map_to_list rs) = countb (f (Some route)) (map_to_list rs) + 1) as E.
  { change (λ p : Z * RouteRow, _ && negb (bool_decide (None = Some p.1))) with (f None).
    change (λ p : Z * RouteRow, _ && negb (bool_decide (Some route = Some p.1))) with (f (Some route)).
    lia. }
  rewrite (Hsplit None), (Hsplit (Some route)), H1, H2.
  rewrite (countb_ext (f (Some route)) (f None)); [simpl; lia|].
  intros [k x] [Hne _]%elem_of_map_to_list%lookup_delete_Some. unfold f. simpl. f_equal.
  by rewrite !bool_decide_false by congruence.
Qed.

(** Redeeming a route moves its slot to the job. *)
Lemma redeem_keeps_slot st st' now route r id j fingerprint :
  regulated_routes (fleet st) !! route = Some r → route_status r = Prepared →
  now < route_expires_at r → jobs st !! id = None →
  confidentiality_mode j = "regulated" → regulated_node_id j = Some (route_node r) →
  status j = Queued →
  jobs st' = <[id := j]> (jobs st) → challenges st' = challenges st →
  regulated_routes (fleet st')
    = <[route := route_ended r Consumed now (Some id) fingerprint]> (regulated_routes (fleet st)) →
  reserved_count st' now (route_node r) None = reserved_count st now (route_node r) None.
Proof.
  intros Hr Hp Hlt Hn Hc Hnode Hs Ej Ec Er. unfold reserved_count. rewrite Ej, Ec, Er.
  rewrite countb_insert, (countb_replace _ _ _ _ _ Hr) by done. cbn [fst snd].
  rewrite Hc, Hnode, Hs. unfold route_prepared at 2 3. rewrite Hp. cbn [route_status route_ended].
  rewrite !Z.eqb_refl, (proj2 (Z.ltb_lt _ _) Hlt). simpl.
  rewrite (bool_decide_true (Some _ = Some _)) by done. simpl. lia.
Qed.

Lemma check_available st now clock node tags excluded expected :
  check_reserved_capacity_and_policy st now clock node tags excluded expected = Ok true →
  ∃ n p, nodes st !! node = Some n ∧ policies (fleet st) !! node = Some p
    ∧ node_status n = "online" ∧ trust_level n = "enhanced"
    ∧ (∀ e, expected = Some e → node_attestation_report n = Some e)
    ∧ reserved_count st now node excluded < policy_max_concurrent p.
Proof.
  unfold check_reserved_capacity_and_policy. intros H. apply bind_Ok in H as ([n p] & Hj%ok_or_Ok & H).
  apply bind_Some in Hj as (n' & Hn & Hj). apply bind_Some in Hj as (p' & Hp & [= -> ->]).
  destruct (_ || _) eqn:Hg in H; [done|]. destruct (existsb _ _); [done|].
  destruct (Z.leb_spec (policy_max_concurrent p) (reserved_count st now node excluded)); [done|].
  rewrite !orb_false_iff, !negb_false_iff, !String.eqb_eq in Hg. destruct Hg as [[[[Hs Ht] _] _] He].
  exists n, p. split_and!; try done. intros e ->.
  by apply negb_false_iff, bool_decide_eq_true in He.
Qed.

Lemma any_true_false l : any_true l = Ok false ↔ ∀ c, c ∈ l → c = Ok false.
Proof.
  induction l as [|c l IH]; cbn [any_true].
  { split; [by intros _ ? ?%elem_of_nil|done]. }
  split.
  - intros H. apply bind_Ok in H as ([] & -> & H); [done|].
    intros c' [->|Hc]%elem_of_cons; [done|]. by apply IH.
  - intros H. rewrite (H c) by by left. simpl. apply IH. intros c' Hc. apply H. by right.
Qed.

Lemma column_false {A} (o : option A) p : column o p = Ok false ↔ ∃ a, o = Some a ∧ p a = false.
Proof.
  unfold column. split.
  - intros H. apply bind_Ok in H as (a & Ha%or_internal_Ok & [= H]). eauto.
  - by intros (a & -> & H); simpl; rewrite H.
Qed.

(** What the check of the hardware behind a route leaves standing. *)
Lemma route_live st clock b :
  route_lost st clock b = Ok false →
  let r := bound_route b in let ar := bound_report b in
  clock < nanos (route_expires_at r)
  ∧ (instance_status (bound_instance b), instance_node (bound_instance b))
    = (Published, route_node r)
  ∧ instance_canary_quarantined st (route_instance r) = false
  ∧ (report_status ar, key_origin ar, report_node ar, report_instance ar, report_model_hash ar)
    = ("verified", "tee_runtime", route_node r, Some (route_instance r),
       Some (weights_hash (bound_model b)))
  ∧ clock < nanos (expires_at ar)
  ∧ ∃ t, collateral_expires_at ar = Some t ∧ clock < nanos t.
Proof.
  destruct b as [r m i n ar]. unfold route_lost. rewrite any_true_false. intros H.
  assert (∀ k c, [Ok (nanos (route_expires_at r) <=? clock);
    Ok (negb (bool_decide (instance_status i = Published)));
    Ok (instance_canary_quarantined st (route_instance r));
    Ok (negb (instance_node i =? route_node r));
    Ok (negb (String.eqb (report_status ar) "verified"));
    Ok (negb (String.eqb (key_origin ar) "tee_runtime"));
    column (report_instance ar) (λ x, negb (x =? route_instance r));
    Ok (negb (report_node ar =? route_node r));
    column (report_model_hash ar) (λ h, negb (String.eqb h (weights_hash m)));
    Ok (nanos (expires_at ar) <=? clock);
    column (collateral_expires_at ar) (λ t, nanos t <=? clock)] !! k = Some c → c = Ok false) as Hk.
  { intros k c Hc%list_elem_of_lookup_2. apply H. set_solver. }
  pose proof (Hk 0%nat _ eq_refl) as [= H0%Z.leb_gt].
  pose proof (Hk 1%nat _ eq_refl) as [= H1%negb_false_iff%bool_decide_eq_true].
  pose proof (Hk 2%nat _ eq_refl) as [= H2].
  pose proof (Hk 3%nat _ eq_refl) as [= H3%negb_false_iff%Z.eqb_eq].
  pose proof (Hk 4%nat _ eq_refl) as [= H4%negb_false_iff%String.eqb_eq].
  pose proof (Hk 5%nat _ eq_refl) as [= H5%negb_false_iff%String.eqb_eq].
  pose proof (Hk 6%nat _ eq_refl) as (x & Hx & ->%negb_false_iff%Z.eqb_eq)%column_false.
  pose proof (Hk 7%nat _ eq_refl) as [= H7%negb_false_iff%Z.eqb_eq].
  pose proof (Hk 8%nat _ eq_refl) as (h & Hh & ->%negb_false_iff%String.eqb_eq)%column_false.
  pose proof (Hk 9%nat _ eq_refl) as [= H9%Z.leb_gt].
  pose proof (Hk 10%nat _ eq_refl) as (t & Ht & Hlt%Z.leb_gt)%column_false.
  cbn [bound_route bound_report bound_instance bound_model].
  rewrite H1, H3, H4, H5, H7, Hx, Hh. split_and!; try done. by exists t.
Qed.

(** C9: redeeming a route binds the job to what was attested. A regulated job is
    created only by the owner of a prepared, unexpired route, on hardware whose
    report is verified, unexpired, and for the very node, instance and weights
    of the route, with an envelope for that report that its own key did not
    send. The job carries the route's hardware, limits, tags and frozen price,
    reserves exactly that price, and takes over the slot the route held on the
    node, which is within the node's limit. *)
Theorem redemption_binds_route `{C : Crypto, RJ : RegulatedJson} cfg asn_lookup trusted_proxy_ips
    st tx id principal connection request resp st' :
  create_regulated_job cfg asn_lookup trusted_proxy_ips st tx id principal connection request
    = (Ok resp, st') → regulated_replay resp = false →
  ∃ r ar m billing j r' p,
    regulated_routes (fleet st) !! regulated_route request = Some r
    ∧ reports st !! route_report r = Some ar ∧ models st !! route_model r = Some m
    ∧ policies (fleet st) !! route_node r = Some p
    ∧ (route_status r, route_user r) = (Prepared, principal_user_id principal)
    ∧ now_utc tx 0%nat < nanos (Z.min (route_expires_at r) (expires_at ar))
    ∧ (report_status ar, key_origin ar, report_node ar, report_instance ar, report_model_hash ar)
      = ("verified", "tee_runtime", route_node r, Some (route_instance r), Some (weights_hash m))
    ∧ (report_id (envelope request), envelope_model_instance_id (envelope request))
      = (route_report r, route_instance r)
    ∧ ephemeral_public_key ar ≠ Some (sender_public_key (envelope request))
    ∧ from_frozen_row (route_billing r) (weights_hash m) = Ok billing
    ∧ jobs st' = <[id := j]> (jobs st) ∧ jobs st !! id = None
    ∧ regulated_routes (fleet st') !! regulated_route request = Some r'
    ∧ redeemed id j r' ∧ route_instance r' = default 0 (model_instance_id j)
    ∧ (status j, confidentiality_mode j, reserved_cost_micro j)
      = (Queued, "regulated", reservation_micro billing)
    ∧ (regulated_job_id resp, regulated_reserved_cost resp) = (id, reservation_micro billing)
    ∧ reserved_count st' (tx_now tx) (route_node r) None
      = reserved_count st (tx_now tx) (route_node r) None
    ∧ reserved_count st (tx_now tx) (route_node r) None ≤ policy_max_concurrent p.
Proof.
  intros (fp & _ & _ & [(q & _ & H & _)|(_ & db & H)])%create_regulated_answer Hr.
  { unfold existing_regulated_response in H. by apply bind_Ok in H as ([] & _ & [= <-]). }
  apply redeem_route_Ok in H as (b & billing & book & text & Hb & Hu & Hp & Hlive & Hf & Hc & He & _ & _
    & _ & _ & _ & Hn & _ & _ & Hlt & -> & ->).
  apply load_bound_route_Ok in Hb as (Hrt & Hm & _ & _ & _ & Har).
  apply route_live in Hlive as (Hexp & _ & _ & Hrep & Hrexp & _).
  apply check_available in Hc as (n & p & _ & Hpol & _ & _ & _ & Hslots).
  unfold envelope_misbound in He. rewrite any_true_false in He.
  pose proof (He _ ltac:(by left)) as [= Hid%negb_false_iff%Z.eqb_eq].
  pose proof (He _ ltac:(by right; left)) as [= Hinst%negb_false_iff%Z.eqb_eq].
  pose proof (He _ ltac:(by right; right; left)) as (key & Hkey & Hne%String.eqb_neq)%column_false.
  set (j := regulated_job cfg tx principal request (bound_route b) billing text).
  exists (bound_route b), (bound_report b), (bound_model b), billing, j.
  exists (route_ended (bound_route b) Consumed (tx_now tx) (Some id) (Some fp)), p. split_and!; try done.
  - by rewrite Hp, Hu.
  - unfold nanos in *. lia.
  - by rewrite Hid, Hinst.
  - congruence.
  - exact (lookup_insert_eq _ _ _).
  - by eapply redeem_redeemed.
  - apply (redeem_keeps_slot (with_abuse st db) _ _ (regulated_route request) (bound_route b) id j (Some fp)); done.
  - pose proof (reserved_without (with_abuse st db) (tx_now tx) _ _ Hrt Hp Hlt) as E.
    change (reserved_count st (tx_now tx) (route_node (bound_route b)) None)
      with (reserved_count (with_abuse st db) (tx_now tx) (route_node (bound_route b)) None). lia.
Qed.

(** ** The route that is prepared *)

Section prepared.
Context `{C : Crypto, CL : Collation, RJ : RegulatedJson}.

Lemma eligible_row_Ok st now request i row :
  eligible_row st now request i = Some row →
  ranked_instance (eligible row) = i.1 ∧ ranked_node (eligible row) = instance_node i.2
  ∧ eligible_model row = instance_model i.2
  ∧ models st !! eligible_model row = Some (model_row row)
  ∧ reports st !! eligible_report row = Some (report_row row)
  ∧ (challenge_id (report_evidence (report_row row)) ≫= (λ c, challenge_nonces (fleet st) !! c))
    = Some (eligible_nonce row)
  ∧ instance_status i.2 = Published ∧ instance_canary_quarantined st i.1 = false
  ∧ model_eligible request (model_row row) = true
  ∧ report_eligible now (instance_node i.2) i.1 (model_row row) (report_row row) = true
  ∧ ∃ n p, nodes st !! instance_node i.2 = Some n ∧ policies (fleet st) !! instance_node i.2 = Some p
      ∧ node_attestation_report n = Some (eligible_report row)
      ∧ node_eligible now request n p (metrics (fleet st) !! instance_node i.2)
          (reserved_count st now (instance_node i.2) None) = true.
Proof.
  unfold eligible_row. intros H. apply bind_Some in H as (m & Hm & H).
  apply bind_Some in H as (n & Hn & H). apply bind_Some in H as (p & Hp & H).
  apply bind_Some in H as (profile & _ & H). apply bind_Some in H as (report & Hrep & H).
  apply bind_Some in H as (ar & Har & H). apply bind_Some in H as (challenge & Hc & H).
  apply bind_Some in H as (nonce & Hnonce & H). apply bind_Some in H as (seen & _ & H).
  destruct (_ && _) eqn:Hg in H; [|done]. injection H as <-.
  rewrite !andb_true_iff, bool_decide_eq_true, negb_true_iff in Hg.
  destruct Hg as (((((Hpub & _) & Hq) & Hme) & Hne) & Hre). cbn.
  split_and!; try done; [by rewrite Hc|]. by exists n, p.
Qed.


Lemma candidates_eligible st now request row :
  row ∈ candidates st now request → row ∈ eligible_rows st now request.
Proof.
  unfold candidates. intros (i & Hi & _)%elem_of_take. apply list_elem_of_lookup_2 in Hi.
  by apply elem_of_sort_by in Hi.
Qed.







(** A stored route that is still prepared answers its key. *)
Lemma prepare_replays st tx principal request fp route r resp :
  routes_ok (regulated_routes (fleet st)) (jobs st) →
  prepare_validate request = Ok tt →
  regulated_request_fingerprint "prepare-v1" (encode_prepare request) = Ok fp →
  regulated_routes (fleet st) !! route = Some r →
  (route_user r, route_idempotency r) = (principal_user_id principal, prepare_idempotency_key request) →
  prepare_request_fingerprint r = Some fp → route_status r = Prepared →
  tx_now tx < route_expires_at r → load_route_response st (tx_now tx) route true = Ok resp →
  prepare_regulated_job st tx principal request
  = (Ok resp, expire_routes st (tx_now tx) (principal_user_id principal)).
Proof.
  intros Hok Hv Hf Hr [= Hu Hk] Hfp Hs Hlt Hload. unfold prepare_regulated_job, transaction.
  rewrite Hv, Hf. cbn [map_err mbind result_bind]. cbv zeta.
  set (st1 := expire_routes st (tx_now tx) (principal_user_id principal)).
  assert (regulated_routes (fleet st1) !! route = Some r) as Hr1.
  { simpl. rewrite lookup_fmap, Hr. simpl. rewrite (proj2 (Z.leb_gt _ _) Hlt). by rewrite andb_false_r. }
  assert (existing_route st1 (principal_user_id principal) (prepare_idempotency_key request)
    = Some (route, r)) as ->.
  { apply key_found; [done|simpl; by rewrite Hu, Hk, Z.eqb_refl, String.eqb_refl|].
    intros k x Hx [Hxu%Z.eqb_eq Hxk%String.eqb_eq]%andb_true_iff. cbn [snd] in *.
    pose proof (routes_ok_expire st (tx_now tx) (principal_user_id principal) _ Hok) as Hok1.
    eapply (routes_keys _ _ Hok1 k route x r); congruence || done. }
  rewrite Hfp. unfold route_prepared. rewrite Hs, !bool_decide_true by done. simpl.
  assert (load_route_response st1 (tx_now tx) route true = load_route_response st (tx_now tx) route true)
    as ->; [|by rewrite Hload].
  unfold load_route_response. by rewrite Hr, Hr1.
Qed.

(** What a stored route answers while it lasts. *)
Lemma load_route_response_Ok st now route replay resp :
  load_route_response st now route replay = Ok resp →
  ∃ r, regulated_routes (fleet st) !! route = Some r ∧ route_status r = Prepared
    ∧ prepared_route_id resp = route ∧ prepared_replay resp = replay
    ∧ prepared_expires_at resp = nanos (route_expires_at r)
    ∧ ∀ now', now' < route_expires_at r → load_route_response st now' route replay = Ok resp.
Proof.
  unfold load_route_response. intros H. apply bind_Ok in H as ([[r ar] nonce] & Hj%ok_or_Ok & H).
  apply bind_Some in Hj as (r' & Hr & Hj). apply bind_Some in Hj as (ar' & Har & Hj).
  apply bind_Some in Hj as (c & Hc & Hj). apply bind_Some in Hj as (nonce' & Hn & Hj).
  destruct (_ && _) eqn:Hg in Hj; [|done]. injection Hj as -> -> ->.
  apply andb_true_iff in Hg as [Hp _]. pose proof H as (Eid & Erep & Ee & _)%response_Ok.
  exists r. split_and!; try done; [by apply bool_decide_eq_true in Hp|]. intros now' Hlt.
  rewrite Hr. cbn [mbind option_bind]. rewrite Har. cbn [mbind option_bind].
  rewrite Hc. cbn [mbind option_bind]. rewrite Hn. cbn [mbind option_bind].
  by rewrite Hp, (proj2 (Z.ltb_lt _ _) Hlt).
Qed.

Lemma existing_route_Ok st user key p :
  existing_route st user key = Some p →
  regulated_routes (fleet st) !! p.1 = Some p.2 ∧ route_user p.2 = user ∧ route_idempotency p.2 = key.
Proof.
  unfold existing_route. intros H. assert (p ∈ List.filter (λ p, (route_user p.2 =? user)
    && String.eqb (route_idempotency p.2) key) (map_to_list (regulated_routes (fleet st)))) as Hp
    by by destruct (List.filter _ _); [|injection H as ->; left].
  apply list_elem_of_In, filter_In in Hp as [Hp%list_elem_of_In [Hu%Z.eqb_eq Hk%String.eqb_eq]%andb_true_iff].
  destruct p. by apply elem_of_map_to_list in Hp.
Qed.

(** The stored answer of a fresh preparation. *)
Lemma prepared_route_loads st tx principal request fp resp st' now :
  prepare_route st tx principal request fp = Ok (resp, st') →
  now < to_timestamp (prepared_expires_at resp) →
  ∃ r, regulated_routes (fleet st') !! prepared_route_id resp = Some r
    ∧ (route_user r, route_idempotency r, prepare_request_fingerprint r, route_status r,
       route_expires_at r)
      = (principal_user_id principal, prepare_idempotency_key request, Some fp, Prepared,
         to_timestamp (prepared_expires_at resp))
    ∧ load_route_response st' now (prepared_route_id resp) true
      = Ok (mkPrepared (prepared_route_id resp) (prepared_model_id resp) (prepared_instance_id resp)
          (prepared_node_id resp) (nanos (to_timestamp (prepared_expires_at resp))) true
          (prepared_attestation resp)).
Proof.
  intros (row & b & expires & Hf & _ & _ & Hi & Hresp)%prepare_route_Ok Hlt.
  apply insert_route_Ok in Hi as (_ & _ & _ & ->).
  apply first_available_Ok in Hf as (before & after & Ec & _ & _).
  assert (row ∈ eligible_rows st (tx_now tx) request) as ([i mi] & _ & Hel)%list_elem_of_omap.
  { apply candidates_eligible. rewrite Ec. apply elem_of_app. right. by left. }
  apply eligible_row_Ok in Hel as (_ & _ & _ & _ & Har & Hnonce & _).
  pose proof Hresp as (Eid & _ & Ee & Eids & Hall)%response_Ok. injection Eids as Em Ei En.
  rewrite Eid, Em, Ei, En, Ee in *. exists (prepared_row tx principal request fp row b expires).
  split; [exact (lookup_insert_eq _ _ _)|]. split; [done|].
  unfold load_route_response. simpl. rewrite lookup_insert_eq. simpl. rewrite Har. simpl.
  destruct (challenge_id (report_evidence (report_row row))) as [c|]; [|done].
  simpl in Hnonce |- *. rewrite Hnonce. simpl. rewrite (proj2 (Z.ltb_lt _ _) Hlt). simpl. apply Hall.
Qed.

(** preparing is idempotent. Repeating a preparation while its route lasts
    answers with the same route, hardware and evidence, marked as a replay; the
    end of the route is the one stored, in microseconds; and nothing is prepared
    anew, only the consumer's routes whose time is over are closed. *)
Theorem prepare_idempotent st tx tx' principal request resp st' :
  invariant st → prepare_regulated_job st tx principal request = (Ok resp, st') →
  tx_now tx' < to_timestamp (prepared_expires_at resp) →
  prepare_regulated_job st' tx' principal request
  = (Ok (mkPrepared (prepared_route_id resp) (prepared_model_id resp) (prepared_instance_id resp)
       (prepared_node_id resp) (nanos (to_timestamp (prepared_expires_at resp))) true
       (prepared_attestation resp)),
     expire_routes st' (tx_now tx') (principal_user_id principal)).
Proof.
  intros Hinv H Hlt. pose proof (prepare_keeps _ _ _ _ _ _ Hinv H) as K.
  pose proof (inv_routes _ (keeps_invariant _ _ K)) as Hok.
  apply prepare_answer in H as (fp & Hv & Hf & [(route & r & Hex & Hfp & Hp & Hload & ->)|[_ H]]).
  - apply existing_route_Ok in Hex as (Hr & Hu & Hk). cbn [fst snd] in *.
    apply load_route_response_Ok in Hload as (r' & Hr' & Hs & Eid & Erep & Ee & Hload).
    rewrite Hr in Hr'. injection Hr' as <-.
    assert (to_timestamp (prepared_expires_at resp) = route_expires_at r) as Et
      by (rewrite Ee; unfold to_timestamp, nanos; by rewrite Z.div_mul).
    rewrite Et in *. rewrite (prepare_replays _ tx' principal request fp route r resp); try done;
      [|by rewrite Hu, Hk|by apply Hload].
    rewrite <-Ee, <-Erep. by destruct resp.
  - destruct (prepared_route_loads _ _ _ _ _ _ _ _ H Hlt) as (r & Hr & E & Hload).
    injection E as Hu Hk Hfp Hs He.
    apply (prepare_replays _ tx' principal request fp (prepared_route_id resp) r); try done;
      [by rewrite Hu, Hk|by rewrite He].
Qed.
End prepared.
