(* ===== verification/Reservations.v ===== *)
(** * Reservations over the whole life of the jobs

    The coordinator as a transition system: the calls of the job, node and model
    routes, in any order and from anyone, and the other routes as far as they may touch what
    the jobs rely on.  What holds in every reachable database, and what happens
    to one job along a run. *)
From S2P Require Import Prelude Text Float64 Fixed Tier Policy Routing Billing Ledger Net AntiAbuse StandardData Hardware Fingerprint Store Envelope Api Snapshot Tables Lease Postings Complete Settled Requests Quotes Dispatch DispatchSpec JobOps RegulatedRoutes Admission RegulatedJobs NodeRequests Nodes Models Lifecycle Progress NodesSpec RegulatedSpec.

Local Open Scope string_scope.
Local Open Scope list_scope.
Local Open Scope Z_scope.

(** ** The transition system *)

Inductive Call : Type :=
| Create (tx : Tx) (new_id : Z) (principal : Principal) (connection : Connection)
    (request : CreateJobRequest)
| Claim (tx : Tx) (principal : Principal) (request : ClaimJobRequest)
| Renew (tx : Tx) (principal : Principal) (id node : Z)
| Fail (tx : Tx) (principal : Principal) (id : Z) (request : JobFailRequest)
| Cancel (tx : Tx) (principal : Principal) (id : Z)
| Get (tx : Tx) (principal : Principal) (id : Z)
| Complete (tx : Tx) (command : CompleteJob)
| Prepare (tx : Tx) (principal : Principal) (request : PrepareRegulatedJobRequest)
| Redeem (tx : Tx) (new_id : Z) (principal : Principal) (connection : Connection)
    (request : CreateRegulatedJobRequest)
| OfNode (call : NodeCall).

(** What the other routes leave alone: jobs, attempts, regulated routes and reservations. *)
Record elsewhere (st st' : State) : Prop := mkElsewhere {
  else_jobs : jobs st' = jobs st;
  else_attempts : attempts st' = attempts st;
  else_routes : regulated_routes (fleet st') = regulated_routes (fleet st);
  else_reserved u : reserved_of (books st') u = reserved_of (books st) u;
  else_books : books_ok (books st) → books_ok (books st');
}.

Section system.
Context `{SE : Serde, J : JobJson, C : Crypto, CL : Collation, RJ : RegulatedJson, PJ : ProfileJson}.
Context (cfg : Config) (asn_lookup : IpAddr → option Z) (trusted_proxy_ips : gset IpAddr).
Context (base64_standard_decode : string → option string) (uuid_parse : string → option Z).
Context (parse_envelope : string → option RegulatedEnvelope).
Context (encode_snapshot : JobBillingSnapshot → option string).

(** The database a call commits. *)
Definition commit (st : State) (c : Call) : State :=
  match c with
  | Create tx new_id principal connection request =>
    (create_job cfg asn_lookup trusted_proxy_ips base64_standard_decode uuid_parse st tx new_id
       principal connection request).2
  | Claim tx principal request => (claim_job cfg st tx principal request).2
  | Renew tx principal id node => (renew_job cfg st tx principal id node).2
  | Fail tx principal id request => (job_fail st tx principal id request).2
  | Cancel tx principal id => (cancel_timed_out_job st tx principal id).2
  | Get tx principal id => (get_job cfg st tx principal id).2
  | Complete tx command =>
    (complete_job parse_envelope encode_snapshot (standard_data_key cfg) st tx command).2
  | Prepare tx principal request => (prepare_regulated_job st tx principal request).2
  | Redeem tx new_id principal connection request =>
    (create_regulated_job cfg asn_lookup trusted_proxy_ips st tx new_id principal connection
       request).2
  | OfNode call => node_commit st call
  end.

Inductive step (st : State) : State → Prop :=
| step_call c : step st (commit st c)
| step_elsewhere st' : elsewhere st st' → step st st'.

(** A database without jobs or routes in which nobody has reserved anything. *)
Definition initial (st : State) : Prop :=
  jobs st = ∅ ∧ attempts st = ∅ ∧ regulated_routes (fleet st) = ∅ ∧ books_ok (books st) ∧ ∀ u, reserved_of (books st) u = 0.

Definition reachable (st : State) : Prop := ∃ st0, initial st0 ∧ rtc step st0 st.

Lemma commit_keeps st c : invariant st → keeps st (commit st c).
Proof.
  intros Hinv. destruct c; simpl.
  - destruct (create_job _ _ _ _ _ _ _ _ _ _ _) eqn:E. by eapply create_keeps.
  - destruct (claim_job _ _ _ _ _) eqn:E. by eapply claim_keeps.
  - destruct (renew_job _ _ _ _ _ _) eqn:E. by eapply renew_keeps.
  - destruct (job_fail _ _ _ _ _) eqn:E. by eapply fail_keeps.
  - destruct (cancel_timed_out_job _ _ _ _) eqn:E. by eapply cancel_keeps.
  - destruct (get_job _ _ _ _ _) eqn:E. by eapply get_keeps.
  - destruct (complete_job _ _ _ _ _ _) eqn:E. by eapply complete_keeps.
  - destruct (prepare_regulated_job _ _ _ _) eqn:E. by eapply prepare_keeps.
  - destruct (create_regulated_job _ _ _ _ _ _ _ _ _) eqn:E. by eapply create_regulated_keeps.
  - apply aside_keeps; [done|]. apply node_commit_evolves.
Qed.

Lemma step_keeps st st' : invariant st → step st st' → keeps st st'.
Proof.
  intros Hinv []; [by apply commit_keeps|]. destruct H.
  apply keeps_same; try done. apply else_books0, Hinv.
Qed.

Lemma steps_keep st st' : rtc step st st' → invariant st → keeps st st'.
Proof.
  induction 1 as [|st st1 st' Hs _ IH]; intros Hinv; [by apply keeps_refl|].
  pose proof (step_keeps _ _ Hinv Hs) as K. eapply keeps_trans; [exact K|]. apply IH, K.
Qed.

Lemma reachable_invariant st : reachable st → invariant st.
Proof.
  intros (st0 & (Hj & Ha & Hf & Hb & Hr) & Hs). apply (steps_keep st0); [done|].
  by apply invariant_initial.
Qed.

(** A row of an earlier database, later. *)
Lemma later st st' id j :
  invariant st → rtc step st st' → jobs st !! id = Some j →
  ∃ j', jobs st' !! id = Some j' ∧ progress j j'.
Proof. intros Hinv Hs Hj. by apply (keeps_jobs _ _ (steps_keep _ _ Hs Hinv)). Qed.

(** C2: in every database the routes can reach, what an account has reserved is
    exactly what its unfinished jobs reserved. No reservation leaks and none is
    released twice, whatever the jobs went through; so each unfinished job's
    price is covered by the spendable balance of its consumer, who can always
    pay it. *)
Theorem reservations_match_jobs st :
  reachable st →
  (∀ u, reserved_of (books st) u = reserved_total (jobs st) u)
  ∧ ∀ id j, jobs st !! id = Some j → unfinished (status j) = true →
      0 < reserved_cost_micro j ≤ spendable_of (books st) (user_id j).
Proof.
  intros Hinv%reachable_invariant. split; [apply Hinv|]. intros id j Hj Hu.
  destruct (inv_jobs _ Hinv id j Hj) as (Hpos & _). split; [done|].
  destruct (release_total st id j Hinv Hj Hu) as (st1 & H).
  unfold release_reservation in H. apply bind_Ok in H as (b & Hb & _).
  apply update_reserved_Ok in Hb as (a & Ha & Hg%Z.leb_le & _).
  destruct (inv_books _ Hinv) as (Hacc & _). destruct (Hacc _ _ Ha) as (_ & _ & Hres & _).
  unfold balance_of. rewrite Ha. simpl. lia.
Qed.

(** C11: the rows of jobs and attempts agree. A job has used at most the
    attempts it was allowed, numbered from 1, each bound to the device that
    claimed it; a job is leased exactly when an attempt is, which is its latest
    one, held by the node the job names; a waiting job has an attempt left, and
    only a succeeded one has a result. *)
Theorem job_rows_agree st id j :
  reachable st → jobs st !! id = Some j →
  0 ≤ attempt_count j ≤ max_attempts (submission j)
  ∧ (∀ n a, attempts st !! (id, n) = Some a →
       0 < n ≤ attempt_count j ∧ claim_device_binding_version a = Some 1
       ∧ is_Some (claim_device_key_id a) ∧ (attempt_status a = AttemptLeased → n = attempt_count j))
  ∧ (status j = Leased ↔ ∃ n a, attempts st !! (id, n) = Some a ∧ attempt_status a = AttemptLeased)
  ∧ (status j = Leased → ∃ a, attempts st !! (id, attempt_count j) = Some a
       ∧ attempt_status a = AttemptLeased ∧ leased_to_node_id j = Some (attempt_node a))
  ∧ (status j = Queued ∨ status j = Retry → attempt_count j < max_attempts (submission j))
  ∧ (is_Some (result_ciphertext j) → status j = Succeeded).
Proof.
  intros Hinv%reachable_invariant Hj.
  destruct (inv_jobs _ Hinv id j Hj) as (_ & Hc & _ & Ha & Hs & Hr).
  split; [done|]. split; [|split; [|split; [|split]]].
  - intros n a Hn. destruct (Ha n a Hn) as (? & [Hv Hk]%andb_true_iff & Hl).
    apply bool_decide_eq_true in Hv, Hk. split_and!; try done; try lia. 
    intros Hal. by destruct (Hl Hal) as (_ & ? & _).
  - split.
    + intros E. unfold status_wf in Hs. rewrite E in Hs. destruct Hs as (_ & _ & a & ? & ? & _).
      by exists (attempt_count j), a.
    + intros (n & a & Hn & Hl). by destruct (Ha n a Hn) as (_ & _ & [? _]).
  - intros E. unfold status_wf in Hs. by rewrite E in Hs; destruct Hs as (_ & _ & ?).
  - unfold status_wf in Hs. by intros [E|E]; rewrite E in Hs.
  - intros [x Hx]. destruct (decide (status j = Succeeded)) as [|Hn]; [done|].
    rewrite Hr in Hx; done.
Qed.

(** C8: a route is redeemed once. In every database the routes can reach, no two
    jobs came from the same regulated route; a job's route is consumed, names the
    job, and has the consumer, model, node, report, limits, tags, priority and
    price that the job has; and a route is consumed exactly when a job came from
    it. *)
Theorem route_redeemed_once st :
  reachable st →
  (∀ id id' j j' rt, jobs st !! id = Some j → jobs st !! id' = Some j' →
     regulated_route_id j = Some rt → regulated_route_id j' = Some rt → id = id')
  ∧ (∀ id j rt, jobs st !! id = Some j → regulated_route_id j = Some rt →
       ∃ r, regulated_routes (fleet st) !! rt = Some r ∧ redeemed id j r)
  ∧ ∀ rt r, regulated_routes (fleet st) !! rt = Some r →
      (route_status r = Consumed ↔ ∃ id j, route_job r = Some id ∧ jobs st !! id = Some j
                                     ∧ regulated_route_id j = Some rt).
Proof.
  intros [Hj Hc Hs _]%reachable_invariant%inv_routes. split_and!; [|done|].
  - intros id id' j j' rt H H' Hr Hr'. destruct (Hj _ _ _ H Hr) as (r & Hrt & [_ E _ _ _ _ _ _ _ _]).
    destruct (Hj _ _ _ H' Hr') as (r' & Hrt' & [_ E' _ _ _ _ _ _ _ _]). congruence.
  - intros rt r Hr. split.
    + intros [id E]%(Hs rt r Hr). destruct (Hc rt r id Hr E) as (_ & j & ? & ?). by exists id, j.
    + intros (id & _ & E & _). by destruct (Hc rt r id Hr E).
Qed.

(** How often a job changes its stage along a run. *)
Fixpoint moves (id : Z) (st : State) (run : list State) : Z :=
  match run with
  | [] => 0
  | st' :: run' =>
    (if bool_decide (stage <$> jobs st !! id = stage <$> jobs st' !! id) then 0 else 1)
    + moves id st' run'
  end.

Fixpoint run_of (st : State) (run : list State) : Prop :=
  match run with [] => True | st' :: run' => step st st' ∧ run_of st' run' end.

Lemma moves_bounded st id j run :
  invariant st → jobs st !! id = Some j → run_of st run → moves id st run ≤ rank j.
Proof.
  revert st j. induction run as [|st1 run IH]; intros st j Hinv Hj Hr; simpl.
  { eapply rank_nonneg, (inv_jobs _ Hinv id j Hj). }
  destruct Hr as [Hs Hr]. destruct (step_keeps _ _ Hinv Hs) as [Hinv1 Hk].
  destruct (Hk id j Hj) as (j1 & Hj1 & Hf & Hp & _). specialize (IH st1 j1 Hinv1 Hj1 Hr).
  rewrite Hj, Hj1. cbn [fmap option_fmap option_map].
  destruct Hp as [Es|Hlt].
  - rewrite bool_decide_true by congruence. rewrite <-(rank_stage j j1) by done. lia.
  - case_bool_decide; lia.
Qed.

(** C10: a job comes to an end. Along any run of calls, of any length, a job
    changes its stage at most twice for each attempt it has left and twice
    more; its row stays with the columns of its creation; and once it is
    finished, the row never changes again. *)
Theorem job_lifetime_bounded st id j run :
  reachable st → jobs st !! id = Some j → run_of st run →
  moves id st run ≤ 2 * (max_attempts (submission j) - attempt_count j) + 2
  ∧ ∀ st', st' ∈ run → ∃ j', jobs st' !! id = Some j' ∧ frozen j' = frozen j
      ∧ attempt_count j' ≤ max_attempts (submission j)
      ∧ (unfinished (status j) = false → j' = j).
Proof.
  intros Hinv%reachable_invariant Hj Hr. split.
  - etrans; [by eapply moves_bounded|]. destruct (inv_jobs _ Hinv id j Hj) as (_ & ? & _).
    unfold rank. repeat case_if; lia.
  - revert st j Hinv Hj Hr. induction run as [|st1 run IH]; intros st j Hinv Hj Hr st' Hin.
    { by apply elem_of_nil in Hin. }
    destruct Hr as [Hs Hr]. destruct (step_keeps _ _ Hinv Hs) as [Hinv1 Hk].
    destruct (Hk id j Hj) as (j1 & Hj1 & Hf & _ & He).
    pose proof (frozen_submission _ _ Hf) as Hsub. apply elem_of_cons in Hin as [->|Hin].
    + exists j1. split_and!; try done. destruct (inv_jobs _ Hinv1 id j1 Hj1) as (_ & ? & _).
      rewrite <-Hsub. lia.
    + destruct (IH st1 j1 Hinv1 Hj1 Hr st' Hin) as (j' & Hj' & Hf' & Hc' & He').
      exists j'. split_and!; [done|congruence|by rewrite <-Hsub|]. intros Hu.
      rewrite <-(He Hu). apply He'. by rewrite (He Hu).
Qed.
End system.
