(* ===== verification/Results.v ===== *)
(** * Results: [job_result] in front of the settlement, routes/jobs.rs

    What a worker submits is checked against what the consumer asked for
    before [complete_job] books it: the body of a Standard result must be an
    answer of the model the payload names, with the token counts the worker
    reports.  The request is jobs.rs of mindone-protocol; the two response
    types of openai.rs keep the fields that are read. *)
From S2P Require Import Prelude Text Billing Ledger Net StandardData Hardware Fingerprint Store Envelope Api Snapshot Tables Lease Postings Complete Requests Quotes Dispatch JobOps Admission.

Local Open Scope string_scope.
Local Open Scope list_scope.
Local Open Scope Z_scope.

(** ** The request *)

Record JobResultRequest : Type := mkResult {
  result_node_id : Z;
  result_key : string;
  result_text : string;
  result_input_tokens : Z;
  result_output_tokens : Z;
  result_telemetry : JobExecutionTelemetry;
}.

Definition outside (lo hi : Z) (o : option Z) : bool := sql_is o (λ v, negb (in_range lo hi v)).

Definition telemetry_validate (self : JobExecutionTelemetry) : Checked () :=
  _ ← bail_if (outside 1 (7 * 24 * 60 * 60 * 1000) (ttft_ms self))
    (mkValidationError "execution_telemetry.ttft_ms" "TTFT 必须是正数且不超过 7 天");
  _ ← bail_if (outside 1 1000000000000 (Fingerprint.tps_milli self))
    (mkValidationError "execution_telemetry.tps_milli" "TPS 必须是正数且不超过协议上限");
  _ ← bail_if (outside 0 1048576 (peak_vram_mib self))
    (mkValidationError "execution_telemetry.peak_vram_mib"
       "峰值显存不得为负且不得超过协议上限");
  bail_if ((10000000 <? vram_sample_count self)
      || negb (Bool.eqb (vram_sample_count self =? 0) (bool_decide (peak_vram_mib self = None))))
    (mkValidationError "execution_telemetry.vram_sample_count"
       "显存峰值与真实采样次数不一致").

Definition result_validate (self : JobResultRequest) : Checked () :=
  _ ← check_identifier "idempotency_key" (result_key self) 200;
  _ ← check_identifier "result_ciphertext" (result_text self) 900000;
  _ ← bail_if ((result_input_tokens self <? 0) || (result_output_tokens self <? 0))
    (mkValidationError "actual_tokens" "实际 Token 数不得为负");
  telemetry_validate (result_telemetry self).

(** ** The response a result carries *)

Record Usage : Type := mkUsage {
  prompt_tokens : Z;
  completion_tokens : Z;
  total_tokens : Z;
}.

(** The content of the message of each choice. *)
Record ChatCompletionsResponse : Type := mkChatResponse {
  chat_response_model : string;
  chat_choices : list MessageContent;
  chat_usage : Usage;
}.

(** The text of each choice. *)
Record CompletionsResponse : Type := mkCompletionsResponse {
  completions_response_model : string;
  completion_choices : list string;
  completions_usage : Usage;
}.

Class ResponseJson : Type := {
  parse_chat_response : string → option ChatCompletionsResponse;
  parse_completions_response : string → option CompletionsResponse;
}.

Record JobResultResponse : Type := mkResultResponse {
  result_job_id : Z;
  result_status : JobStatus;
  result_replay : bool;
}.

Definition invalid_result (message : string) : ApiError :=
  bad_request "invalid_job_result" message.

Definition validate_reported_usage (usage : Usage) (request : JobResultRequest) : ApiResult () :=
  expected_total ← ok_or (checked in_u32 (prompt_tokens usage + completion_tokens usage))
    (invalid_result "usage Token 总数溢出");
  prompt ← ok_or (i32_try_from (prompt_tokens usage)) (invalid_result "prompt_tokens 超出范围");
  completion ← ok_or (i32_try_from (completion_tokens usage))
    (invalid_result "completion_tokens 超出范围");
  bail_if (negb (total_tokens usage =? expected_total)
      || negb (result_input_tokens request =? prompt)
      || negb (result_output_tokens request =? completion))
    (bad_request "usage_binding_mismatch" "结果 usage 与节点上报的实际 Token 不一致").

(** ** The checks *)

Section results.
Context `{SE : Serde, J : JobJson, RJ : ResponseJson, C : Crypto}.
Context (cfg : Config) (base64_standard_decode : string → option string).
Context (parse_envelope : string → option RegulatedEnvelope).
Context (encode_snapshot : JobBillingSnapshot → option string).

(** [decode_stored_standard_payload]: the payload a worker was handed. *)
Definition decode_stored_standard_payload (id : Z) (j : JobRow)
    : ApiResult (StandardJobPayload Json) :=
  let s := submission j in
  _ ← bail_if (negb (bool_decide
      (standard_payload_storage_version s = Some STORAGE_VERSION))) internal;
  wire ← map_err (λ _, internal)
    (decrypt_from_storage (standard_data_key cfg) id Payload (encrypted_payload s));
  encoding ← payload_encoding_from_db (payload_encoding s);
  decoded ← decode_standard_payload base64_standard_decode encoding wire;
  ok_or (parse_payload decoded)
    (bad_request "invalid_standard_payload" "任务载荷不符合 Standard 推理协议").

Definition payload_limits (payload : StandardJobPayload Json) : ApiResult StandardJobLimits :=
  map_err (λ e, bad_request "invalid_standard_payload" (validation_error_to_string e))
    (validated_limits payload).

(** The payload as [validate_standard_result] reads it: only the two base64 encodings. *)
Definition result_payload (id : Z) (j : JobRow) : ApiResult (StandardJobPayload Json) :=
  let s := submission j in
  encoding ← (if String.eqb (payload_encoding s) "base64" then Ok Base64
              else if String.eqb (payload_encoding s) "base64url" then Ok Base64Url
              else Err internal);
  _ ← bail_if (negb (bool_decide
      (standard_payload_storage_version s = Some STORAGE_VERSION))) internal;
  wire ← map_err (λ _, internal)
    (decrypt_from_storage (standard_data_key cfg) id Payload (encrypted_payload s));
  decoded ← decode_standard_payload base64_standard_decode encoding wire;
  ok_or (parse_payload decoded)
    (bad_request "invalid_standard_payload" "任务载荷不符合 Standard 推理协议").

Definition check_chat_result (limits : StandardJobLimits) (request : JobResultRequest)
    (bytes : string) : ApiResult () :=
  response ← ok_or (parse_chat_response bytes)
    (invalid_result "聊天任务结果不符合 OpenAI 响应协议");
  match chat_choices response with
  | [] => Err (invalid_result "聊天任务结果缺少 choices")
  | first :: _ =>
    _ ← bail_if (negb (String.eqb (chat_response_model response) (limits_model limits)))
      (bad_request "model_binding_mismatch" "聊天任务结果模型与任务载荷不一致");
    _ ← bail_if (negb match first with
                      | TextContent value => negb (trim_is_empty value)
                      | Parts _ => false
                      end)
      (invalid_result "聊天任务结果必须包含非空文本");
    validate_reported_usage (chat_usage response) request
  end.

Definition check_completions_result (limits : StandardJobLimits) (request : JobResultRequest)
    (bytes : string) : ApiResult () :=
  response ← ok_or (parse_completions_response bytes)
    (invalid_result "补全任务结果不符合 OpenAI 响应协议");
  _ ← bail_if (Nat.eqb (length (completion_choices response)) 0)
    (invalid_result "补全任务结果缺少 choices");
  _ ← bail_if (negb (String.eqb (completions_response_model response) (limits_model limits)))
    (bad_request "model_binding_mismatch" "补全任务结果模型与任务载荷不一致");
  validate_reported_usage (completions_usage response) request.

(** Whether the job asked for a stream. *)
Definition validate_standard_result (id : Z) (j : JobRow) (request : JobResultRequest)
    : ApiResult bool :=
  payload ← result_payload id j;
  limits ← payload_limits payload;
  bytes ← ok_or (base64_standard_decode (result_text request))
    (invalid_result "任务结果 Base64 无效");
  _ ← bail_if (900000 <? str_len bytes) (invalid_result "任务结果超过允许大小");
  _ ← (if String.eqb (endpoint payload) OPENAI_CHAT_COMPLETIONS
       then check_chat_result limits request bytes
       else if String.eqb (endpoint payload) OPENAI_COMPLETIONS
       then check_completions_result limits request bytes
       else Err internal);
  Ok (limits_stream limits).

(** The command [job_result] settles with. *)
Definition settlement_command (principal : Principal) (id : Z) (request : JobResultRequest)
    : CompleteJob :=
  mkCompleteJob id (result_node_id request) (principal_user_id principal)
    (device_key_id_of principal) (result_key request) (result_text request)
    (result_input_tokens request) (result_output_tokens request) (result_telemetry request).
End results.
