(* ===== verification/Streams.v ===== *)
(** * Streams: the event log of a streaming job, routes/jobs.rs

    A worker appends the chunks of a streamed answer to [job_stream_events]
    (migration 0035), the consumer reads them page by page, and a result is
    settled only when the log is complete.  [serde_json::Value] is third party:
    [JsonAccess] has the accessors the code calls.  The table is keyed by job,
    attempt and sequence number; appending and reading leave the other tables
    alone. *)
From S2P Require Import Prelude Text Billing Ledger Net StandardData Hardware Fingerprint Store Envelope Api Snapshot Tables Lease Postings Complete Requests Quotes Dispatch JobOps Admission Results.

Local Open Scope string_scope.
Local Open Scope list_scope.
Local Open Scope Z_scope.

Definition MAX_JOB_STREAM_EVENT_BYTES : Z := 64 * 1024.
Definition MAX_JOB_STREAM_EVENTS : Z := 65536.
Definition MAX_JOB_STREAM_TOTAL_BYTES : Z := 650 * 1024.

(** ** Messages *)

Inductive JobStreamEventKind : Type := Data | UpstreamDone.

#[export] Instance JobStreamEventKind_eq_dec : EqDecision JobStreamEventKind.
Proof. solve_decision. Defined.

Record JobStreamEventRequest : Type := mkEventRequest {
  event_node_id : Z;
  event_attempt : Z;
  event_sequence : Z;
  event_key : string;
  kind : JobStreamEventKind;
  event_data : option string;
}.

Record JobStreamEventResponse : Type := mkEventResponse {
  response_job_id : Z;
  response_attempt : Z;
  response_sequence : Z;
  response_replay : bool;
}.

Record JobStreamEvent : Type := mkEvent { sequence : Z; data : string }.

Record JobStreamReadResponse : Type := mkRead {
  read_status : JobStatus;
  read_attempt : Z;
  events : list JobStreamEvent;
  next_sequence : Z;
  has_more : bool;
  upstream_done : bool;
  read_error_class : option JobErrorClass;
  read_error_message : option string;
}.

(** Accessors of a JSON value; [json_get] is [None] unless it is an object. *)
Class JsonAccess `{J : JobJson} : Type := {
  parse_value : string → option Json;
  is_object : Json → bool;
  json_get : Json → string → option Json;
  as_str : Json → option string;
  as_u64 : Json → option Z;
  as_i64 : Json → option Z;
  as_array : Json → option (list Json);
  is_null : Json → bool;
}.

Definition is_string `{JsonAccess} (v : Json) : bool := bool_decide (is_Some (as_str v)).

(** [Option::is_none_or] a null or a string. *)
Definition text_or_absent `{JsonAccess} (o : option Json) : bool :=
  match o with None => true | Some v => is_null v || is_string v end.

Definition event_validate `{JsonAccess} (self : JobStreamEventRequest) : Checked () :=
  _ ← bail_if (event_attempt self <=? 0)
    (mkValidationError "attempt" "流式事件 attempt 必须大于零");
  _ ← bail_if (negb (in_range 0 (MAX_JOB_STREAM_EVENTS - 1) (event_sequence self)))
    (mkValidationError "sequence" "流式事件 sequence 超出协议上限");
  _ ← check_identifier "idempotency_key" (event_key self) 200;
  match kind self, event_data self with
  | Data, Some d =>
    _ ← bail_if (str_is_empty d || (MAX_JOB_STREAM_EVENT_BYTES <? str_len d))
      (mkValidationError "event_data" "流式 data 事件为空或超过安全上限");
    value ← ok_or (parse_value d)
      (mkValidationError "event_data" "流式 data 事件不是合法 JSON");
    bail_if (negb (is_object value))
      (mkValidationError "event_data" "流式 data 事件必须是 JSON 对象")
  | UpstreamDone, None => Ok tt
  | Data, None => Err (mkValidationError "event_data" "流式 data 事件缺少正文")
  | UpstreamDone, Some _ =>
    Err (mkValidationError "event_data" "upstream_done 事件不得携带正文")
  end.

(** ** The table *)

Record StreamRow : Type := mkStreamRow {
  row_key : string;
  event_kind : JobStreamEventKind;
  event_ciphertext : option string;
  standard_event_storage_version : option Z;
  plaintext_bytes : Z;
}.

(** [job_stream_events] by job, attempt number and sequence number. *)
Abbreviation StreamDb := (gmap (Z * Z * Z) StreamRow).

(** The CHECKs of the table. *)
Definition stream_row_check (attempt number : Z) (r : StreamRow) : bool :=
  (0 <? attempt) && in_range 0 65535 number
  && in_range 1 200 (Z.of_nat (length (chars (row_key r))))
  && in_range 0 65536 (plaintext_bytes r)
  && match event_kind r with
     | Data => bool_decide (is_Some (event_ciphertext r))
               && bool_decide (standard_event_storage_version r = Some 1)
               && (0 <? plaintext_bytes r)
     | UpstreamDone => bool_decide (event_ciphertext r = None)
               && bool_decide (standard_event_storage_version r = None)
               && (plaintext_bytes r =? 0)
     end.

(** The rows of a job, and those of one attempt. *)
Definition job_events (db : StreamDb) (id : Z) : list (Z * Z * Z * StreamRow) :=
  List.filter (λ p, p.1.1.1 =? id) (map_to_list db).
Definition attempt_events (db : StreamDb) (id attempt : Z) : list (Z * Z * Z * StreamRow) :=
  List.filter (λ p, (p.1.1.1 =? id) && (p.1.1.2 =? attempt)) (map_to_list db).

(** [INSERT INTO job_stream_events]: the primary key, the unique key per job,
    the reference to the job and the CHECKs. *)
Definition insert_stream_event (st : State) (db : StreamDb) (id attempt number : Z) (r : StreamRow)
    : ApiResult StreamDb :=
  _ ← require_internal (bool_decide (db !! (id, attempt, number) = None)
    && negb (existsb (λ p, String.eqb (row_key p.2) (row_key r)) (job_events db id))
    && bool_decide (is_Some (jobs st !! id))
    && stream_row_check attempt number r);
  Ok (<[(id, attempt, number) := r]> db).

(** ** The text of an event *)

Section streams.
Context `{SE : Serde, JA : JsonAccess, RJ : ResponseJson, C : Crypto}.
Context (cfg : Config) (base64_standard_decode : string → option string).
Context (parse_envelope : string → option RegulatedEnvelope).
Context (encode_snapshot : JobBillingSnapshot → option string).

Definition invalid_event (message : string) : ApiError := bad_request "invalid_stream_event" message.

Definition check_delta (choice : Json) : ApiResult () :=
  delta ← ok_or (json_get choice "delta") (invalid_event "聊天 SSE 缺少 delta");
  _ ← bail_if (negb (is_object delta)) (invalid_event "聊天 SSE 缺少 delta");
  for_each (λ name, bail_if (negb (text_or_absent (json_get delta name)))
      (invalid_event "聊天 SSE delta 字段类型无效"))
    ["content"; "reasoning_content"; "role"].

(** The body of the loop over the choices. *)
Definition check_choice (endpoint : string) (expected_choices : Z) (choice : Json) : ApiResult () :=
  _ ← bail_if (negb (is_object choice)) (invalid_event "SSE choice 必须是对象");
  _ ← bail_if (negb (sql_is (json_get choice "index" ≫= as_u64) (λ i, i <? expected_choices)))
    (invalid_event "SSE choice index 超出授权范围");
  _ ← bail_if (negb (text_or_absent (json_get choice "finish_reason")))
    (invalid_event "SSE finish_reason 类型无效");
  if String.eqb endpoint OPENAI_CHAT_COMPLETIONS then check_delta choice
  else if String.eqb endpoint OPENAI_COMPLETIONS then
    bail_if (negb (some_and (json_get choice "text") is_string))
      (invalid_event "补全 SSE choice 缺少 text")
  else Err internal.

Definition check_stream_usage (usage : Json) : ApiResult () :=
  _ ← bail_if (negb (is_object usage)) (invalid_event "SSE usage 必须是对象");
  prompt ← ok_or (json_get usage "prompt_tokens" ≫= as_u64)
    (invalid_event "SSE usage 缺少 prompt_tokens");
  completion ← ok_or (json_get usage "completion_tokens" ≫= as_u64)
    (invalid_event "SSE usage 缺少 completion_tokens");
  total ← ok_or (json_get usage "total_tokens" ≫= as_u64)
    (invalid_event "SSE usage 缺少 total_tokens");
  bail_if (negb (bool_decide (checked in_u64 (prompt + completion) = Some total)))
    (invalid_event "SSE usage Token 总数不一致").

(** A [usize] has 64 bits, so the number of choices always converts. *)
Definition validate_standard_stream_data (payload : StandardJobPayload Json)
    (authorized_model d : string) : ApiResult () :=
  object ← ok_or (parse_value d) (invalid_event "SSE data 不是合法 JSON");
  _ ← bail_if (negb (is_object object)) (invalid_event "SSE data 必须是 JSON 对象");
  expected_object ← (if String.eqb (endpoint payload) OPENAI_CHAT_COMPLETIONS
    then Ok "chat.completion.chunk"
    else if String.eqb (endpoint payload) OPENAI_COMPLETIONS then Ok "text_completion"
    else Err internal);
  _ ← bail_if (negb (bool_decide (json_get object "object" ≫= as_str = Some expected_object))
      || negb (bool_decide (json_get object "model" ≫= as_str = Some authorized_model))
      || negb (some_and (json_get object "id" ≫= as_str)
                 (λ v, negb (str_is_empty v) && (str_len v <=? 256)))
      || bool_decide (json_get object "created" ≫= as_i64 = None))
    (invalid_event "SSE 元数据与任务端点或授权模型不一致");
  let expected_choices := default 1 (json_get (request payload) "n" ≫= as_u64) in
  choices ← ok_or (json_get object "choices" ≫= as_array) (invalid_event "SSE data 缺少 choices");
  _ ← bail_if (expected_choices <? Z.of_nat (length choices))
    (invalid_event "SSE choices 超过任务授权数量");
  _ ← for_each (check_choice (endpoint payload) expected_choices) choices;
  match json_get object "usage" with
  | Some usage => check_stream_usage usage
  | None => Ok tt
  end.

(** ** Appending *)

(** What the worker and the consumer must have asked for to use the stream. *)
Definition stream_payload (id : Z) (j : JobRow)
    : ApiResult (StandardJobPayload Json * StandardJobLimits) :=
  payload ← decode_stored_standard_payload cfg base64_standard_decode id j;
  limits ← payload_limits payload;
  _ ← bail_if (negb (limits_stream limits) || negb (max_attempts (submission j) =? 1))
    (bad_request "stream_not_requested" "任务没有请求可恢复的 Standard SSE");
  Ok (payload, limits).

Definition stored_event (id attempt number : Z) (r : StreamRow) : ApiResult string :=
  stored ← or_internal (event_ciphertext r);
  map_err (λ _, internal)
    (decrypt_from_storage (standard_data_key cfg) id (StreamEvent attempt number) stored).

Definition validate_stream_event_replay (id : Z) (req : JobStreamEventRequest)
    (existing : Z * Z * Z * StreamRow) : ApiResult () :=
  let r := existing.2 in
  _ ← bail_if (negb (existing.1.1.2 =? event_attempt req)
      || negb (existing.1.2 =? event_sequence req)
      || negb (String.eqb (row_key r) (event_key req))
      || negb (bool_decide (event_kind r = kind req)))
    (conflict "idempotency_binding_mismatch" "流式事件 sequence 或幂等键已绑定到不同事件");
  match kind req with
  | Data =>
    _ ← require_internal (bool_decide (standard_event_storage_version r = Some STORAGE_VERSION));
    plaintext ← stored_event id (event_attempt req) (event_sequence req) r;
    supplied ← or_internal (event_data req);
    bail_if (negb (String.eqb plaintext supplied)
        || negb (plaintext_bytes r =? str_len supplied))
      (conflict "idempotency_binding_mismatch" "流式事件幂等键已绑定到不同正文")
  | UpstreamDone =>
    require_internal (bool_decide (event_ciphertext r = None)
      && bool_decide (standard_event_storage_version r = None) && (plaintext_bytes r =? 0))
  end.

(** A row under the same number or the same key; the database may return any. *)
Definition existing_event (db : StreamDb) (id : Z) (req : JobStreamEventRequest)
    : option (Z * Z * Z * StreamRow) :=
  head (List.filter (λ p, (p.1.1.2 =? event_attempt req) && (p.1.2 =? event_sequence req)
                          || String.eqb (row_key p.2) (event_key req)) (job_events db id)).

Definition total_bytes (l : list (Z * Z * Z * StreamRow)) : Z :=
  foldr (λ p total, plaintext_bytes p.2 + total) 0 l.
Definition has_done (l : list (Z * Z * Z * StreamRow)) : bool :=
  existsb (λ p, bool_decide (event_kind p.2 = UpstreamDone)) l.

(** The row the request adds after [l], the rows of its attempt. *)
Definition new_event (tx : Tx) (id : Z) (payload : StandardJobPayload Json)
    (limits : StandardJobLimits) (l : list (Z * Z * Z * StreamRow)) (req : JobStreamEventRequest)
    : ApiResult StreamRow :=
  match kind req with
  | Data =>
    d ← or_internal (event_data req);
    _ ← validate_standard_stream_data payload (limits_model limits) d;
    bytes ← or_internal (i32_try_from (str_len d));
    _ ← bail_if (match i64_checked_add (total_bytes l) bytes with
                 | Some total => MAX_JOB_STREAM_TOTAL_BYTES <? total
                 | None => true
                 end)
      (bad_request "stream_too_large" "流式事件累计正文超过安全上限");
    stored ← map_err (λ _, internal)
      (encrypt_for_storage (standard_data_key cfg) (tx_nonce tx) id
         (StreamEvent (event_attempt req) (event_sequence req)) d);
    Ok (mkStreamRow (event_key req) Data (Some stored) (Some STORAGE_VERSION) bytes)
  | UpstreamDone =>
    _ ← bail_if (Nat.eqb (length l) 0)
      (invalid_event "upstream_done 之前至少需要一个真实 data 事件");
    Ok (mkStreamRow (event_key req) UpstreamDone None None 0)
  end.

(** The lease of the attempt the events are for, on the coordinator's clock. *)
Definition stream_lease_valid (tx : Tx) (j : JobRow) (attempt : Z) : bool :=
  bool_decide (status j = Leased)
  && sql_is (lease_expires_at j) (λ t, now_utc tx 0%nat <? t * 1000)
  && (attempt_count j =? attempt).

Definition append_tx (st : State) (db : StreamDb) (tx : Tx) (principal : Principal) (id : Z)
    (req : JobStreamEventRequest) : ApiResult (JobStreamEventResponse * StreamDb) :=
  _ ← verify_node_owner st principal (event_node_id req);
  _ ← map_err (λ e, invalid_event ("流式事件字段无效：" +:+ validation_error_to_string e))
    (event_validate req);
  '(j, n, node, a) ← ok_or (v ← leased_view st id; _ ← models st !! model_id v.1.1.1; Some v)
    (not_found "任务");
  _ ← bail_if (negb (node_owner n =? principal_user_id principal)
      || negb (node =? event_node_id req)
      || negb (exact_claim_device_binding principal (Some (node_owner n))
                 (claim_device_key_id a) (claim_device_binding_version a)))
    (forbidden "任务租约不属于当前节点设备");
  _ ← bail_if (negb (stream_lease_valid tx j (event_attempt req)))
    (conflict "stream_lease_invalid" "流式事件租约不存在、已过期或 attempt 不匹配");
  _ ← bail_if (negb (String.eqb (confidentiality_mode j) "standard"))
    (bad_request "stream_not_supported"
       "Regulated 任务当前不支持流式事件，且不会降级为 Standard");
  '(payload, limits) ← stream_payload id j;
  match existing_event db id req with
  | Some existing =>
    _ ← validate_stream_event_replay id req existing;
    Ok (mkEventResponse id (event_attempt req) (event_sequence req) true, db)
  | None =>
    let l := attempt_events db id (event_attempt req) in
    let event_count := Z.of_nat (length l) in
    _ ← bail_if (negb (event_count =? event_sequence req) || (MAX_JOB_STREAM_EVENTS <=? event_count))
      (conflict "stream_sequence_mismatch" "流式事件必须按连续 sequence 只追加提交");
    _ ← bail_if (has_done l)
      (conflict "stream_already_done" "upstream_done 之后不得追加流式事件");
    r ← new_event tx id payload limits l req;
    db ← insert_stream_event st db id (event_attempt req) (event_sequence req) r;
    Ok (mkEventResponse id (event_attempt req) (event_sequence req) false, db)
  end.

Definition append_job_stream_event (st : State) (db : StreamDb) (tx : Tx) (principal : Principal)
    (id : Z) (req : JobStreamEventRequest) : ApiResult JobStreamEventResponse * StreamDb :=
  match append_tx st db tx principal id req with
  | Ok (response, db') => (Ok response, db')
  | Err e => (Err e, db)
  end.

(** ** Reading *)

(** The page: the data rows of the attempt from a number on. *)
Definition stream_page (db : StreamDb) (id attempt from limit : Z) : list (Z * StreamRow) :=
  take (Z.to_nat limit) (sort_by (cmp_on fst Z.compare)
    ((λ p, (p.1.2, p.2)) <$> List.filter (λ p, bool_decide (event_kind p.2 = Data) && (from <=? p.1.2))
       (attempt_events db id attempt))).

(** The body of the loop over the page: the events so far and the next number. *)
Definition read_event (id attempt : Z) (payload : StandardJobPayload Json)
    (limits : StandardJobLimits) (acc : list JobStreamEvent * Z) (row : Z * StreamRow)
    : ApiResult (list JobStreamEvent * Z) :=
  let '(number, r) := row in
  _ ← require_internal (bool_decide (standard_event_storage_version r = Some STORAGE_VERSION)
    && bool_decide (is_Some (event_ciphertext r)));
  plaintext ← stored_event id attempt number r;
  bytes ← or_internal (i32_try_from (str_len plaintext));
  _ ← require_internal (bytes =? plaintext_bytes r);
  _ ← validate_standard_stream_data payload (limits_model limits) plaintext;
  next ← or_internal (checked in_i32 (number + 1));
  Ok (acc.1 ++ [mkEvent number plaintext], next).

Definition read_job_stream_authenticated (st : State) (db : StreamDb) (principal : Principal)
    (id from_sequence limit : Z) : ApiResult JobStreamReadResponse :=
  j ← ok_or (j ← jobs st !! id; _ ← models st !! model_id j; Some j) (not_found "任务");
  _ ← bail_if (negb (user_id j =? principal_user_id principal))
    (forbidden "只有任务消费者可读取流式输出");
  _ ← bail_if (negb (String.eqb (confidentiality_mode j) "standard"))
    (bad_request "stream_not_supported"
       "Regulated 任务当前不支持流式读取，且不会降级为 Standard");
  '(payload, limits) ← stream_payload id j;
  let attempt := attempt_count j in
  let rows := if 0 <? attempt then stream_page db id attempt from_sequence limit else [] in
  '(page, next) ← fold_each (read_event id attempt payload limits) ([], from_sequence) rows;
  let l := if 0 <? attempt then attempt_events db id attempt else [] in
  let more := existsb (λ p, bool_decide (event_kind p.2 = Data) && (next <=? p.1.2)) l in
  let finished := has_done l in
  _ ← require_internal (negb (bool_decide (status j = Succeeded)) || finished);
  let last := latest_attempt st id in
  Ok (mkRead (status j) attempt page next more finished
        (stable_job_error_class (last ≫= error_class)) (last ≫= attempt_error_message)).

Definition get_job_stream (st : State) (db : StreamDb) (principal : Principal) (id : Z)
    (from limit : option Z) : ApiResult JobStreamReadResponse :=
  let from_sequence := default 0 from in
  _ ← bail_if (negb (in_range 0 MAX_JOB_STREAM_EVENTS from_sequence))
    (bad_request "invalid_stream_cursor" "from_sequence 超出流式游标范围");
  let limit := default 8 limit in
  _ ← bail_if (negb (in_range 1 32 limit))
    (bad_request "invalid_stream_cursor" "流式读取 limit 必须在 1..=32");
  read_job_stream_authenticated st db principal id from_sequence limit.

(** ** Settling *)

(** The transcript has every number from 0 on, and one end, which is last. *)
Definition transcript_complete (l : list (Z * Z * Z * StreamRow)) : bool :=
  let numbers := (λ p : Z * Z * Z * StreamRow, p.1.2) <$> l in
  let done := (λ p : Z * Z * Z * StreamRow, p.1.2)
    <$> List.filter (λ p, bool_decide (event_kind p.2 = UpstreamDone)) l in
  let last := foldr Z.max (-1) numbers in
  (2 <=? Z.of_nat (length l))
  && (match numbers with [] => -1 | n :: rest => foldr Z.min n rest end =? 0)
  && (last =? Z.of_nat (length l) - 1)
  && (Z.of_nat (length done) =? 1)
  && (foldr Z.max (-1) done =? last).

Definition validate_job_result (st : State) (db : StreamDb) (id : Z) (req : JobResultRequest)
    : ApiResult () :=
  j ← ok_or (jobs st !! id) (not_found "任务");
  if String.eqb (confidentiality_mode j) "standard" then
    streaming ← validate_standard_result cfg base64_standard_decode id j req;
    if streaming : bool then
      _ ← require_internal (max_attempts (submission j) =? 1);
      bail_if (negb (transcript_complete (attempt_events db id (attempt_count j))))
        (conflict "stream_incomplete"
           "SSE 结果只有在连续事件和 upstream_done 已持久确认后才能结算")
    else Ok tt
  else require_internal (String.eqb (confidentiality_mode j) "regulated").

(** The checks of [job_result] on an ordinary job, before its transaction. *)
Definition result_checks (st : State) (db : StreamDb) (principal : Principal) (id : Z)
    (req : JobResultRequest) : ApiResult () :=
  _ ← verify_node_owner st principal (result_node_id req);
  _ ← map_err (λ e, bad_request "invalid_job_result"
      ("任务结果字段无效：" +:+ validation_error_to_string e)) (result_validate req);
  validate_job_result st db id req.

(** [job_result] of an ordinary job: the checks read a database [seen] before
    the transaction of [complete_job] begins on [st]. *)
Definition job_result (seen : State * StreamDb) (st : State) (tx : Tx) (principal : Principal)
    (id : Z) (req : JobResultRequest) : ApiResult JobResultResponse * State :=
  match result_checks seen.1 seen.2 principal id req with
  | Err e => (Err e, st)
  | Ok _ =>
    let '(outcome, st') := complete_job parse_envelope encode_snapshot (standard_data_key cfg) st
      tx (settlement_command principal id req) in
    (o ← outcome; Ok (mkResultResponse id Succeeded (idempotent_replay o)), st')
  end.
End streams.
