(* ===== verification/StreamSpec.v ===== *)
(** * What a stream guarantees

    The event table of a job implements an append-only log of texts that may be
    closed once: appending refines the log's step, reading returns its pages,
    and a settled stream is complete. *)
From S2P Require Import Prelude Text Float64 Fixed Tier Policy Routing Billing Ledger Net AntiAbuse StandardData Hardware Fingerprint Store Envelope Api Snapshot Tables Lease Postings Complete Settled Requests Quotes Dispatch DispatchSpec JobOps RegulatedRoutes Admission RegulatedJobs Lifecycle Progress RegulatedSpec Reservations Results Streams.

Local Open Scope string_scope.
Local Open Scope list_scope.
Local Open Scope Z_scope.

(** ** The abstract log *)

Record Log : Type := mkLog { texts : list string; closed : bool }.

Definition empty_log : Log := mkLog [] false.
Definition log_texts (log : Log) : Z := Z.of_nat (length (texts log)).
Definition log_size (log : Log) : Z := log_texts log + (if closed log then 1 else 0).

(** The event with the next number is added, nothing after the end, and an end
    only after some text. *)
Definition log_next (log : Log) (req : JobStreamEventRequest) : option Log :=
  if closed log || negb (log_texts log =? event_sequence req) then None
  else match kind req, event_data req with
  | Data, Some d => Some (mkLog (texts log ++ [d]) false)
  | UpstreamDone, None => if log_texts log =? 0 then None else Some (mkLog (texts log) true)
  | _, _ => None
  end.

(** The event is in the log already. *)
Definition log_has (log : Log) (req : JobStreamEventRequest) : Prop :=
  match kind req with
  | Data => texts log !! Z.to_nat (event_sequence req) = event_data req
  | UpstreamDone => closed log = true ∧ event_sequence req = log_texts log
  end.

(** The events a page of the log shows. *)
Definition log_page (log : Log) (from limit : Z) : list JobStreamEvent :=
  take (Z.to_nat limit)
    (imap (λ i t, mkEvent (from + Z.of_nat i) t) (drop (Z.to_nat from) (texts log))).

(** ** The rows of an attempt *)

Lemma elem_of_attempt_events db id attempt p :
  p ∈ attempt_events db id attempt ↔ db !! p.1 = Some p.2 ∧ p.1.1.1 = id ∧ p.1.1.2 = attempt.
Proof.
  unfold attempt_events. rewrite elem_of_filter_b. destruct p as [k r]. rewrite elem_of_map_to_list, andb_true_iff, !Z.eqb_eq. done.
Qed.

Lemma NoDup_attempt_events db id attempt : NoDup (attempt_events db id attempt).*1.
Proof. apply NoDup_fst_filter, NoDup_fst_map_to_list. Qed.

Section log.
Context `{SE : Serde, JA : JsonAccess, RJ : ResponseJson, C : Crypto}.
Context (cfg : Config).

(** A row that holds one text, and the row of the end. *)
Definition stores (id attempt number : Z) (r : StreamRow) (text : string) : Prop :=
  event_kind r = Data ∧ standard_event_storage_version r = Some STORAGE_VERSION
  ∧ is_Some (event_ciphertext r) ∧ stored_event cfg id attempt number r = Ok text
  ∧ plaintext_bytes r = str_len text.
Definition ends (r : StreamRow) : Prop :=
  event_kind r = UpstreamDone ∧ event_ciphertext r = None
  ∧ standard_event_storage_version r = None ∧ plaintext_bytes r = 0.

(** The rows of the attempt are the log. *)
Record holds (db : StreamDb) (id attempt : Z) (log : Log) : Prop := mkHolds {
  holds_rows number r : db !! (id, attempt, number) = Some r →
    stream_row_check attempt number r = true
    ∧ ((∃ text, texts log !! Z.to_nat number = Some text ∧ stores id attempt number r text)
       ∨ closed log = true ∧ number = log_texts log ∧ ends r);
  holds_all number : 0 ≤ number < log_size log → is_Some (db !! (id, attempt, number));
  holds_closed : closed log = true → texts log ≠ [];
}.

Lemma row_check_range attempt number r :
  stream_row_check attempt number r = true →
  0 < attempt ∧ 0 ≤ number ≤ 65535 ∧ 0 ≤ plaintext_bytes r ≤ 65536.
Proof. unfold stream_row_check. rewrite !andb_true_iff, !in_range_true. lia. Qed.

Lemma holds_number db id attempt log number r :
  holds db id attempt log → db !! (id, attempt, number) = Some r → 0 ≤ number < log_size log.
Proof.
  intros H Hr. apply (holds_rows _ _ _ _ H) in Hr as (Hc & Hcases).
  apply row_check_range in Hc as (_ & ? & _). unfold log_size, log_texts in *.
  destruct Hcases as [(t & Ht%lookup_lt_Some & _)|(-> & -> & _)]; [case_if|]; lia.
Qed.

Lemma holds_keys db id attempt log :
  holds db id attempt log →
  (attempt_events db id attempt).*1 ≡ₚ (λ n, (id, attempt, n)) <$> seqZ 0 (log_size log).
Proof.
  intros H. apply NoDup_Permutation.
  - apply NoDup_attempt_events.
  - apply NoDup_fmap_2; [by intros ?? [= ->]|apply NoDup_seqZ].
  - intros [[i a] n]. rewrite !list_elem_of_fmap. split.
    + intros ([k r] & Hk & (Hr & Hi & Ha)%elem_of_attempt_events). simpl in *. subst k. simpl in *. subst.
      exists n. split; [done|]. apply elem_of_seqZ. pose proof (holds_number _ _ _ _ _ _ H Hr). lia.
    + intros (n' & [= -> -> ->] & Hn%elem_of_seqZ).
      destruct (holds_all _ _ _ _ H n') as [r Hr]; [lia|].
      exists (id, attempt, n', r). split; [done|]. by apply elem_of_attempt_events.
Qed.

Lemma holds_length db id attempt log :
  holds db id attempt log → Z.of_nat (length (attempt_events db id attempt)) = log_size log.
Proof.
  intros H%holds_keys%Permutation_length. rewrite !length_fmap, length_seqZ in H. rewrite H.
  unfold log_size, log_texts. case_if; lia.
Qed.

(** The row under a number, whatever stands there when there is none. *)
Definition row_at (db : StreamDb) (id attempt number : Z) : StreamRow :=
  default (mkStreamRow "" UpstreamDone None None 0) (db !! (id, attempt, number)).

Lemma holds_text db id attempt log number :
  holds db id attempt log → 0 ≤ number < log_texts log →
  ∃ text, texts log !! Z.to_nat number = Some text
    ∧ db !! (id, attempt, number) = Some (row_at db id attempt number)
    ∧ stores id attempt number (row_at db id attempt number) text.
Proof.
  intros H Hn. destruct (holds_all _ _ _ _ H number) as [r Hr].
  { unfold log_size. case_if; lia. }
  unfold row_at. rewrite Hr. simpl.
  pose proof Hr as (_ & [(t & Ht & Hs)|(_ & Heq & _)])%(holds_rows _ _ _ _ H); [|lia]. eauto.
Qed.

Lemma holds_kind db id attempt log number r :
  holds db id attempt log → db !! (id, attempt, number) = Some r →
  event_kind r = Data ∧ number < log_texts log
  ∨ event_kind r = UpstreamDone ∧ number = log_texts log ∧ closed log = true.
Proof.
  intros H Hr. apply (holds_rows _ _ _ _ H) in Hr as (Hc & [(t & Ht%lookup_lt_Some & Hk & _)|(? & ? & ? & _)]).
  - apply row_check_range in Hc. left. unfold log_texts. split; [done|lia].
  - by right.
Qed.

Lemma holds_done db id attempt log :
  holds db id attempt log → has_done (attempt_events db id attempt) = closed log.
Proof.
  intros H. apply eq_true_iff_eq. unfold has_done. rewrite existsb_exists. split.
  - intros ([[[i a] n] r] & (Hr & Hi & Ha)%list_elem_of_In%elem_of_attempt_events & Hk%bool_decide_eq_true).
    simpl in *. subst. by destruct (holds_kind _ _ _ _ _ _ H Hr) as [[? _]|(_ & _ & ?)]; [congruence|].
  - intros Hc. destruct (holds_all _ _ _ _ H (log_texts log)) as [r Hr].
    { unfold log_size. rewrite Hc. unfold log_texts. lia. }
    exists (id, attempt, log_texts log, r). split.
    + by apply list_elem_of_In, elem_of_attempt_events.
    + apply bool_decide_eq_true. simpl.
      destruct (holds_kind _ _ _ _ _ _ H Hr) as [[_ ?]|(? & _)]; [lia|done].
Qed.

(** The rows determine the log. *)
Lemma holds_unique db id attempt log log' :
  holds db id attempt log → holds db id attempt log' → log = log'.
Proof.
  intros H H'. assert (closed log = closed log') as Hc
    by by rewrite <-(holds_done _ _ _ _ H), (holds_done _ _ _ _ H').
  pose proof (holds_length _ _ _ _ H) as Hl. rewrite (holds_length _ _ _ _ H') in Hl.
  assert (log_texts log = log_texts log') as Ht.
  { unfold log_size in Hl. rewrite Hc in Hl. lia. }
  assert (texts log = texts log') as Htexts; [|destruct log, log'; simpl in *; congruence].
  apply list_eq_same_length with (n := length (texts log)); [unfold log_texts in Ht; lia|done|].
  intros i x y Hi Hx Hy.
  destruct (holds_text _ _ _ _ (Z.of_nat i) H) as (t & Hti & Hr & _ & _ & _ & Hs & _);
    [unfold log_texts; lia|].
  destruct (holds_text _ _ _ _ (Z.of_nat i) H') as (t' & Hti' & _ & _ & _ & _ & Hs' & _);
    [unfold log_texts in *; lia|].
  rewrite Nat2Z.id in *. congruence.
Qed.

(** ** Reading a page *)

Lemma stream_rows_sorted db id attempt log from :
  holds db id attempt log → 0 ≤ from →
  sort_by (cmp_on fst Z.compare)
    ((λ p : Z * Z * Z * StreamRow, (p.1.2, p.2)) <$> List.filter
       (λ p, bool_decide (event_kind p.2 = Data) && (from <=? p.1.2)) (attempt_events db id attempt))
  = (λ n, (n, row_at db id attempt n)) <$> seqZ from (log_texts log - from).
Proof.
  intros H Hfrom. set (rows := List.filter _ (attempt_events db id attempt)).
  assert (∀ p, p ∈ rows ↔ ∃ n, p = ((id, attempt, n), row_at db id attempt n)
            ∧ from ≤ n < log_texts log) as Hrows.
  { intros [[[i a] n] r]. unfold rows. rewrite elem_of_filter_b, elem_of_attempt_events.
    rewrite andb_true_iff, bool_decide_eq_true, Z.leb_le. simpl. split.
    - intros ((Hr & -> & ->) & Hk & Hn). exists n. unfold row_at. rewrite Hr. split; [done|].
      destruct (holds_kind _ _ _ _ _ _ H Hr) as [[_ ?]|[? _]]; [lia|congruence].
    - intros (n' & [= -> -> -> ->] & Hn).
      destruct (holds_text db id attempt log n' H ltac:(lia)) as (t & _ & Hr & Hk & _).
      split; [done|]. split; [done|lia]. }
  assert (NoDup rows.*1) as Hnd by apply NoDup_fst_filter, NoDup_attempt_events.
  assert (rows ≡ₚ (λ n, ((id, attempt, n), row_at db id attempt n))
            <$> seqZ from (log_texts log - from)) as Hperm.
  { apply NoDup_Permutation; [by apply NoDup_fmap_1 in Hnd|..].
    - apply NoDup_fmap_2; [by intros ?? [= ->]|apply NoDup_seqZ].
    - intros p. rewrite Hrows, list_elem_of_fmap. setoid_rewrite elem_of_seqZ.
      split; intros (n & ? & ?); exists n; (split; [done|lia]). }
  apply sort_by_seqZ. rewrite Hperm, <-list_fmap_compose. done.
Qed.

(** The loop over a page of rows that store texts the payload allows. *)
Lemma read_events id attempt payload limits rows es acc next :
  Forall2 (λ (p : Z * StreamRow) e, p.1 = sequence e ∧ 0 ≤ sequence e ≤ 65535
    ∧ plaintext_bytes p.2 ≤ 65536
    ∧ stores id attempt p.1 p.2 (data e)
    ∧ validate_standard_stream_data payload (limits_model limits) (data e) = Ok tt) rows es →
  fold_each (read_event cfg id attempt payload limits) (acc, next) rows
    = Ok (acc ++ es, match last es with Some e => sequence e + 1 | None => next end).
Proof.
  intros Hall. revert acc next.
  induction Hall as [|[n r] [m d] rows es (Hn & Hm & Hb & Hs & Hv) _ IH]; intros acc next.
  { cbn. by rewrite app_nil_r. }
  cbn [fst snd sequence data] in *. subst n. destruct Hs as (_ & Hver & Hct & Htext & Hlen).
  assert (0 ≤ str_len d) by (unfold str_len; lia).
  assert (i32_try_from (str_len d) = Some (str_len d)) as Hi.
  { apply checked_true. unfold in_i32, i32_min, i32_max. apply in_range_true. lia. }
  assert (checked in_i32 (m + 1) = Some (m + 1)) as Hm1.
  { apply checked_true. unfold in_i32, i32_min, i32_max. apply in_range_true. lia. }
  assert (read_event cfg id attempt payload limits (acc, next) (m, r)
    = Ok (acc ++ [mkEvent m d], m + 1)) as E.
  { unfold read_event. rewrite !bool_decide_true by done. simpl. rewrite Htext. simpl.
    rewrite Hi, Hlen. simpl. rewrite Z.eqb_refl. simpl. rewrite Hv. simpl. by rewrite Hm1. }
  rewrite fold_each_cons, E. simpl mbind. rewrite IH, <-app_assoc. f_equal. f_equal.
  destruct es as [|e es]; [done|]. rewrite last_cons_cons.
  destruct (last (e :: es)) eqn:El; [done|by apply last_None in El].
Qed.

(** ** Appending *)

Lemma holds_insert_other db id attempt log id' attempt' number r :
  (id', attempt') ≠ (id, attempt) → holds db id attempt log →
  holds (<[(id', attempt', number) := r]> db) id attempt log.
Proof.
  intros Hne H. assert (∀ n, (id', attempt', number) ≠ (id, attempt, n)) as Hk
    by (intros n [= -> -> ->]; done).
  split; [intros n x; rewrite lookup_insert_ne by done; apply (holds_rows _ _ _ _ H)| |apply H].
  intros n Hn. rewrite lookup_insert_ne by done. by apply (holds_all _ _ _ _ H).
Qed.

Lemma holds_insert_text db id attempt log r text :
  closed log = false → holds db id attempt log →
  stream_row_check attempt (log_texts log) r = true → stores id attempt (log_texts log) r text →
  holds (<[(id, attempt, log_texts log) := r]> db) id attempt (mkLog (texts log ++ [text]) false).
Proof.
  intros Hc H Hr Hs. split; [| |by destruct (texts log)].
  - intros n x [([= <-] & <-)|(Hne & Hx)]%lookup_insert_Some.
    + split; [done|]. left. exists text. split; [|done]. simpl. unfold log_texts.
      by rewrite Nat2Z.id, lookup_app_r, Nat.sub_diag by lia.
    + apply (holds_rows _ _ _ _ H) in Hx as (? & [(t & Ht & ?)|(? & _)]); [|congruence].
      split; [done|]. left. exists t. split; [|done]. simpl. by apply lookup_app_l_Some.
  - unfold log_size, log_texts. simpl. rewrite length_app. simpl. intros n Hn.
    destruct (decide (n = Z.of_nat (length (texts log)))) as [->|Hne]; [by rewrite lookup_insert_eq|].
    rewrite lookup_insert_ne by congruence. apply (holds_all _ _ _ _ H).
    unfold log_size, log_texts. case_if; lia.
Qed.

Lemma holds_insert_end db id attempt log r :
  closed log = false → texts log ≠ [] → holds db id attempt log →
  stream_row_check attempt (log_texts log) r = true → ends r →
  holds (<[(id, attempt, log_texts log) := r]> db) id attempt (mkLog (texts log) true).
Proof.
  intros Hc Hne H Hr He. split; [| |done].
  - intros n x [([= <-] & <-)|(_ & Hx)]%lookup_insert_Some; [split; [done|by right]|].
    apply (holds_rows _ _ _ _ H) in Hx as (? & [Ht|(? & _)]); [|congruence]. split; [done|by left].
  - unfold log_size, log_texts. simpl. intros n Hn.
    destruct (decide (n = Z.of_nat (length (texts log)))) as [->|Hn']; [by rewrite lookup_insert_eq|].
    rewrite lookup_insert_ne by congruence. apply (holds_all _ _ _ _ H).
    unfold log_size, log_texts. rewrite Hc. lia.
Qed.

Lemma insert_event_Ok st db id attempt number r db' :
  insert_stream_event st db id attempt number r = Ok db' →
  stream_row_check attempt number r = true ∧ db !! (id, attempt, number) = None
  ∧ (∀ p, p ∈ job_events db id → row_key p.2 ≠ row_key r)
  ∧ db' = <[(id, attempt, number) := r]> db.
Proof.
  unfold insert_stream_event. intros H. apply bind_Ok in H as ([] & Hc%require_internal_Ok & [= <-]).
  rewrite !andb_true_iff, negb_true_iff, bool_decide_eq_true in Hc. destruct Hc as [[[? Hk] _] ?].
  split_and!; [done..| |done]. intros p Hp%list_elem_of_In Heq. apply not_true_iff_false in Hk.
  apply Hk, existsb_exists. exists p. split; [done|]. by apply String.eqb_eq.
Qed.

Lemma replay_in_log db id log req existing :
  holds db id (event_attempt req) log → existing_event db id req = Some existing →
  validate_stream_event_replay cfg id req existing = Ok tt → log_has log req.
Proof.
  intros H He Hv. destruct existing as [[[i a] n] r].
  apply head_filter_Some in He as [[He Hi]%elem_of_filter_b _].
  apply elem_of_map_to_list in He. apply Z.eqb_eq in Hi. simpl in Hi. subst i.
  apply bind_Ok in Hv as ([] & Hb%bail_if_Ok & Hv). simpl in Hb.
  rewrite !orb_false_iff, !negb_false_iff, !Z.eqb_eq, bool_decide_eq_true in Hb.
  destruct Hb as (((-> & ->) & _) & Hk). cbn [snd] in Hv.
  apply (holds_rows _ _ _ _ H) in He as (_ & Hcases). unfold log_has.
  destruct (kind req).
  - apply bind_Ok in Hv as ([] & _ & Hv). apply bind_Ok in Hv as (p & Hp & Hv).
    apply bind_Ok in Hv as (d & Hd%or_internal_Ok & Hv%bail_if_Ok).
    rewrite orb_false_iff, !negb_false_iff, String.eqb_eq in Hv. destruct Hv as [-> _].
    destruct Hcases as [(t & Ht & _ & _ & _ & Hs & _)|(_ & _ & Hr & _)]; [|congruence].
    rewrite Ht, Hd. congruence.
  - destruct Hcases as [(t & _ & Hr & _)|(? & ? & _)]; [congruence|done].
Qed.

(** The text a stored row was encrypted from. *)
Lemma encrypted_stores `{!CryptoLaws C} nonce id attempt number key text stored :
  str_len nonce = NONCE_LENGTH →
  encrypt_for_storage (standard_data_key cfg) nonce id (StreamEvent attempt number) text
    = Ok stored →
  stores id attempt number (mkStreamRow key Data (Some stored) (Some STORAGE_VERSION) (str_len text))
    text.
Proof.
  intros Hn He. split_and!; [done..| |done]. unfold stored_event. simpl.
  by rewrite (decrypt_encrypted _ _ _ _ _ _ _ _ Hn He), open_seal.
Qed.

Lemma new_event_Ok `{!CryptoLaws C} tx id payload limits l log req r :
  str_len (tx_nonce tx) = NONCE_LENGTH → Z.of_nat (length l) = event_sequence req →
  event_sequence req = log_texts log → closed log = false →
  event_validate req = Ok tt → new_event cfg tx id payload limits l req = Ok r →
  ∃ log', log_next log req = Some log'
    ∧ (log' = mkLog (texts log) true ∧ texts log ≠ [] ∧ ends r
       ∨ ∃ d, log' = mkLog (texts log ++ [d]) false
          ∧ stores id (event_attempt req) (event_sequence req) r d
          ∧ validate_standard_stream_data payload (limits_model limits) d = Ok tt).
Proof.
  intros Hnonce Hl Hseq Hc Hval H. unfold log_next. rewrite Hc, <-Hseq, Z.eqb_refl. simpl.
  unfold new_event in H. destruct (kind req) eqn:Hk.
  - apply bind_Ok in H as (d & Hd%or_internal_Ok & H). apply bind_Ok in H as ([] & Hv & H).
    apply bind_Ok in H as (bytes & Hb%or_internal_Ok & H). apply bind_Ok in H as ([] & _ & H).
    apply bind_Ok in H as (stored & He%map_err_Ok & [= <-]). rewrite Hd. eexists. split; [done|].
    right. exists d. split; [done|]. split; [|done].
    apply checked_Some in Hb as [_ ->]. by eapply encrypted_stores.
  - apply bind_Ok in H as ([] & Hlen%bail_if_Ok & [= <-]).
    destruct (event_data req) eqn:Hd.
    { exfalso. unfold event_validate in Hval. rewrite Hk, Hd in Hval. by ok_inv. }
    assert (0 < event_sequence req) as Hpos by (apply Nat.eqb_neq in Hlen; lia).
    rewrite (proj2 (Z.eqb_neq _ _)) by lia. eexists. split; [done|]. left. split_and!; [done| |done].
    intros E. unfold log_texts in Hseq. rewrite E in Hseq. simpl in Hseq. lia.
Qed.

(** A page of the rows is a page of the log. *)
Lemma page_events db id attempt log payload limits from limit :
  holds db id attempt log → 0 ≤ from →
  Forall (λ t, validate_standard_stream_data payload (limits_model limits) t = Ok tt) (texts log) →
  fold_each (read_event cfg id attempt payload limits) ([], from)
    (stream_page db id attempt from limit)
  = Ok (log_page log from limit, from + Z.of_nat (length (log_page log from limit))).
Proof.
  intros H Hfrom Hall. unfold stream_page. rewrite (stream_rows_sorted _ _ _ _ _ H Hfrom).
  rewrite (read_events _ _ _ _ _ (log_page log from limit)).
  - simpl. f_equal. f_equal. unfold log_page. set (es := imap _ _).
    destruct (last (take (Z.to_nat limit) es)) as [e|] eqn:El.
    + pose proof El as Hlen. rewrite last_lookup in Hlen.
      pose proof (lookup_lt_Some _ _ _ Hlen) as Hlt. apply lookup_take_Some in Hlen as [Hlen _].
      unfold es in Hlen. rewrite list_lookup_imap in Hlen. apply fmap_Some in Hlen as (t & _ & ->).
      simpl. fold es. lia.
    + apply last_None in El. rewrite El. simpl. lia.
  - apply Forall2_take, Forall2_same_length_lookup_2.
    + rewrite length_fmap, length_seqZ, length_imap, length_drop. unfold log_texts. lia.
    + intros i [n r] [m d]. rewrite list_lookup_fmap, list_lookup_imap, lookup_drop. intros Hr Hd.
      apply fmap_Some in Hr as (n' & [-> Hi]%lookup_seqZ & [= -> ->]).
      apply fmap_Some in Hd as (t & Ht & [= -> ->]). cbn [fst snd sequence data].
      destruct (holds_text _ _ _ _ (from + Z.of_nat i) H) as (t' & Ht' & Hrow & Hs); [lia|].
      replace (Z.to_nat (from + Z.of_nat i)) with (Z.to_nat from + i)%nat in Ht' by lia.
      assert (t' = t) as -> by congruence.
      apply (holds_rows _ _ _ _ H) in Hrow as (Hc%row_check_range & _).
      rewrite Forall_forall in Hall.
      split_and!; [done|lia|lia|lia|done|apply Hall; by eapply list_elem_of_lookup_2].
Qed.
End log.

(** ** The system with its streams *)

Section system.
Context `{SE : Serde, JA : JsonAccess, RJ : ResponseJson, C : Crypto, CL : Collation, GJ : RegulatedJson, PJ : Nodes.ProfileJson}.
Context (cfg : Config) (asn_lookup : IpAddr → option Z) (trusted_proxy_ips : gset IpAddr).
Context (base64_standard_decode : string → option string) (uuid_parse : string → option Z).
Context (parse_envelope : string → option RegulatedEnvelope).
Context (encode_snapshot : JobBillingSnapshot → option string).

Local Abbreviation step := (step cfg asn_lookup trusted_proxy_ips base64_standard_decode uuid_parse
  parse_envelope encode_snapshot).
Local Abbreviation append := (append_job_stream_event cfg base64_standard_decode).
Local Abbreviation payload_of := (stream_payload cfg base64_standard_decode).
Local Abbreviation holds := (holds cfg).

(** Any call about jobs, and an append with a nonce of the AEAD's length. *)
Inductive stream_step : State * StreamDb → State * StreamDb → Prop :=
| stream_jobs st st' db : step st st' → stream_step (st, db) (st', db)
| stream_append st db tx principal id req : str_len (tx_nonce tx) = NONCE_LENGTH →
    stream_step (st, db) (st, (append st db tx principal id req).2).

Definition streams_reachable (s : State * StreamDb) : Prop :=
  ∃ st0, initial st0 ∧ rtc stream_step (st0, ∅) s.

(** The texts of a log are those its job asked for, all of the first attempt. *)
Definition allowed (st : State) (id attempt : Z) (log : Log) : Prop :=
  texts log = [] ∨ attempt = 1 ∧ ∃ j payload limits,
    jobs st !! id = Some j ∧ confidentiality_mode j = "standard"
    ∧ payload_of id j = Ok (payload, limits)
    ∧ Forall (λ t, validate_standard_stream_data payload (limits_model limits) t = Ok tt)
        (texts log).

Record stream_invariant (s : State * StreamDb) : Prop := mkStreamInvariant {
  streams_jobs : invariant s.1;
  streams_logs id attempt : ∃ log, holds s.2 id attempt log ∧ allowed s.1 id attempt log;
}.

Lemma payload_frozen id j j' : submission j' = submission j → payload_of id j' = payload_of id j.
Proof. unfold stream_payload, decode_stored_standard_payload. by intros ->. Qed.

Lemma payload_one id j p : payload_of id j = Ok p → max_attempts (submission j) = 1.
Proof.
  intros H. unfold stream_payload in H. apply bind_Ok in H as (? & _ & H).
  apply bind_Ok in H as (? & _ & H). apply bind_Ok in H as ([] & Hb%bail_if_Ok & _).
  by apply orb_false_iff in Hb as [_ ?%negb_false_iff%Z.eqb_eq].
Qed.

(** What an answered append found. *)
Lemma append_Ok st db tx principal id req r db' :
  append st db tx principal id req = (Ok r, db') →
  event_validate req = Ok tt
  ∧ ∃ j n node a payload limits,
      leased_view st id = Some (j, n, node, a) ∧ stream_lease_valid tx j (event_attempt req) = true
      ∧ confidentiality_mode j = "standard" ∧ payload_of id j = Ok (payload, limits)
      ∧ ((∃ existing, existing_event db id req = Some existing
            ∧ validate_stream_event_replay cfg id req existing = Ok tt
            ∧ response_replay r = true ∧ db' = db)
         ∨ existing_event db id req = None
           ∧ Z.of_nat (length (attempt_events db id (event_attempt req))) = event_sequence req
           ∧ has_done (attempt_events db id (event_attempt req)) = false
           ∧ ∃ row, new_event cfg tx id payload limits (attempt_events db id (event_attempt req)) req
                 = Ok row
               ∧ insert_stream_event st db id (event_attempt req) (event_sequence req) row = Ok db'
               ∧ response_replay r = false).
Proof.
  unfold append_job_stream_event. intros H.
  destruct (append_tx _ _ _ _ _ _ _ _) as [[r' db1]|] eqn:E; [|done]. injection H as -> ->.
  unfold append_tx in E. apply bind_Ok in E as ([] & _ & E).
  apply bind_Ok in E as ([] & Hval%map_err_Ok & E). split; [done|].
  apply bind_Ok in E as ([[[j n] node] a] & Hv%ok_or_Ok & E).
  apply bind_Some in Hv as (v & Hv & Hm). apply bind_Some in Hm as (m & _ & [= ->]).
  apply bind_Ok in E as ([] & _ & E). apply bind_Ok in E as ([] & Hlease%bail_if_Ok & E).
  apply negb_false_iff in Hlease. apply bind_Ok in E as ([] & Hstd%bail_if_Ok & E).
  apply negb_false_iff, String.eqb_eq in Hstd. apply bind_Ok in E as ([payload limits] & Hp & E).
  exists j, n, node, a, payload, limits. split_and!; [done..|].
  destruct (existing_event db id req) as [existing|].
  - apply bind_Ok in E as ([] & Hr & [= <- <-]). left. by exists existing.
  - right. split; [done|]. apply bind_Ok in E as ([] & Hs%bail_if_Ok & E).
    apply orb_false_iff in Hs as [Hs%negb_false_iff%Z.eqb_eq _].
    apply bind_Ok in E as ([] & Hd%bail_if_Ok & E). apply bind_Ok in E as (row & Hrow & E).
    apply bind_Ok in E as (db2 & Hi & [= <- <-]). split_and!; [done..|]. by exists row.
Qed.

Lemma lease_valid_attempt st id j n node a tx attempt payload :
  invariant st → leased_view st id = Some (j, n, node, a) →
  stream_lease_valid tx j attempt = true → payload_of id j = Ok payload →
  attempt_count j = attempt ∧ attempt = 1.
Proof.
  intros Hinv (Hj & _ & _ & Ha)%leased_view_Ok Hl Hp%payload_one.
  unfold stream_lease_valid in Hl. rewrite !andb_true_iff, Z.eqb_eq, bool_decide_eq_true in Hl.
  destruct Hl as [[Hs _] <-]. split; [done|].
  pose proof (inv_jobs _ Hinv _ _ Hj) as (_ & Hc & _ & Hw & _).
  destruct (Hw _ _ Ha) as (? & _). lia.
Qed.

(** An answered append is a step of the log, or finds its event in it. *)
Lemma append_log `{!CryptoLaws C} st db tx principal id req r db' log :
  str_len (tx_nonce tx) = NONCE_LENGTH → invariant st →
  holds db id (event_attempt req) log → allowed st id (event_attempt req) log →
  append st db tx principal id req = (Ok r, db') →
  response_replay r = true ∧ db' = db ∧ log_has log req
  ∨ response_replay r = false ∧ ∃ log' row, log_next log req = Some log'
      ∧ holds db' id (event_attempt req) log' ∧ allowed st id (event_attempt req) log'
      ∧ db' = <[(id, event_attempt req, event_sequence req) := row]> db.
Proof.
  intros Hnonce Hinv H Hal (Hval & j & n & node & a & payload & limits & Hv & Hl & Hstd & Hp & Hcases)%append_Ok.
  destruct (lease_valid_attempt _ _ _ _ _ _ _ _ _ Hinv Hv Hl Hp) as [_ H1].
  destruct Hcases as [(e & He & Hr & -> & ->)|(_ & Hlen & Hdone & row & Hnew & Hins & ->)].
  { left. split_and!; [done..|]. by eapply replay_in_log. }
  right. split; [done|]. rewrite (holds_done _ _ _ _ _ H) in Hdone.
  assert (event_sequence req = log_texts log) as Hseq.
  { rewrite <-Hlen, (holds_length _ _ _ _ _ H). unfold log_size. rewrite Hdone. lia. }
  apply insert_event_Ok in Hins as (Hrow & _ & _ & ->).
  apply leased_view_Ok in Hv as (Hj & _).
  assert (∀ texts', Forall (λ t, validate_standard_stream_data payload (limits_model limits) t = Ok tt)
      texts' → ∀ c, allowed st id (event_attempt req) (mkLog texts' c)) as Hgo.
  { intros texts' Hall c. right. split; [done|]. by exists j, payload, limits. }
  assert (Forall (λ t, validate_standard_stream_data payload (limits_model limits) t = Ok tt)
    (texts log)) as Hold.
  { destruct Hal as [->|(_ & j' & p' & l' & Hj' & _ & Hp' & Hall)]; [constructor|].
    assert (j' = j) as -> by congruence. assert ((p', l') = (payload, limits)) as [= -> ->] by congruence.
    done. }
  destruct (new_event_Ok cfg _ _ _ _ _ _ _ _ Hnonce Hlen Hseq Hdone Hval Hnew)
    as (log' & Hnext & [(-> & Hne & He)|(d & -> & Hs & Hd)]); eexists _, row; (split; [exact Hnext|]).
  - rewrite Hseq in *. split; [|split; [by apply Hgo|done]]. by apply holds_insert_end.
  - rewrite Hseq in *. split; [|split; [|done]]; [by apply holds_insert_text|].
    apply Hgo, Forall_app. split; [done|]. by constructor.
Qed.

(** The inserted row answers a repetition of its request. *)
Lemma inserted_replays `{!CryptoLaws C} st db tx id payload limits req row db' :
  str_len (tx_nonce tx) = NONCE_LENGTH → event_validate req = Ok tt →
  existing_event db id req = None →
  new_event cfg tx id payload limits (attempt_events db id (event_attempt req)) req = Ok row →
  insert_stream_event st db id (event_attempt req) (event_sequence req) row = Ok db' →
  ∃ existing, existing_event db' id req = Some existing
    ∧ validate_stream_event_replay cfg id req existing = Ok tt.
Proof.
  intros Hnonce Hval Hnone Hnew (_ & _ & _ & ->)%insert_event_Ok.
  set (key := (id, event_attempt req, event_sequence req)).
  exists (key, row). split.
  - unfold existing_event. set (q := λ p : Z * Z * Z * StreamRow, _ || _).
    assert (q (key, row) = true) as Hq by (unfold q; simpl; by rewrite !Z.eqb_refl).
    destruct (head (List.filter q (job_events (<[key:=row]> db) id))) as [[k x]|] eqn:E.
    + apply head_filter_Some in E as [[Hin Hid]%elem_of_filter_b Hx].
      apply elem_of_map_to_list, lookup_insert_Some in Hin as [[<- <-]|[Hne Hin]]; [done|].
      exfalso. apply not_false_iff_true in Hx. apply Hx.
      apply (head_filter_None q _ (k, x)) in Hnone; [done|].
      apply elem_of_filter_b. by rewrite elem_of_map_to_list.
    + exfalso. apply (head_filter_None q _ (key, row)) in E; [congruence|].
      apply elem_of_filter_b. rewrite elem_of_map_to_list, lookup_insert_eq. simpl.
      by rewrite Z.eqb_refl.
  - unfold validate_stream_event_replay, new_event in *. simpl. rewrite !Z.eqb_refl.
    destruct (kind req) eqn:Hk.
    + apply bind_Ok in Hnew as (d & Hd%or_internal_Ok & H). apply bind_Ok in H as ([] & _ & H).
      apply bind_Ok in H as (bytes & Hb%or_internal_Ok & H). apply bind_Ok in H as ([] & _ & H).
      apply bind_Ok in H as (stored & He%map_err_Ok & [= <-]). simpl. rewrite String.eqb_refl. simpl.
      apply checked_Some in Hb as [_ ->].
      destruct (encrypted_stores cfg (tx_nonce tx) id (event_attempt req) (event_sequence req)
        (event_key req) d stored Hnonce He) as (_ & _ & _ & -> & _).
      simpl. rewrite Hd. simpl. by rewrite String.eqb_refl, Z.eqb_refl.
    + apply bind_Ok in Hnew as ([] & _ & [= <-]). simpl. by rewrite String.eqb_refl.
Qed.

(** Repeating an answered append, while the lease lasts. *)
Lemma append_again `{!CryptoLaws C} st db tx principal id req r db' tx' :
  str_len (tx_nonce tx) = NONCE_LENGTH →
  append st db tx principal id req = (Ok r, db') →
  (∀ j, jobs st !! id = Some j → stream_lease_valid tx' j (event_attempt req) = true) →
  append st db' tx' principal id req
    = (Ok (mkEventResponse id (event_attempt req) (event_sequence req) true), db').
Proof.
  intros Hnonce H Hl.
  assert (∃ existing, existing_event db' id req = Some existing
    ∧ validate_stream_event_replay cfg id req existing = Ok tt) as (e & He & Hr).
  { apply append_Ok in H as (Hval & j & n & node & a & payload & limits & _ & _ & _ & _ & Hcases).
    destruct Hcases as [(e & He & Hr & _ & ->)|(Hnone & _ & _ & row & Hnew & Hins & _)]; [by exists e|].
    by eapply inserted_replays. }
  unfold append_job_stream_event in *.
  destruct (append_tx cfg base64_standard_decode st db tx principal id req) as [[r' db1]|] eqn:E; [|done].
  clear H. unfold append_tx in E |- *. apply bind_Ok in E as ([] & -> & E). simpl.
  apply bind_Ok in E as ([] & -> & E). simpl.
  apply bind_Ok in E as ([[[j n] node] a] & Hv & E). rewrite Hv. simpl.
  apply ok_or_Ok, bind_Some in Hv as (v & Hv & (m & _ & [= ->])%bind_Some).
  apply leased_view_Ok in Hv as (Hj & _).
  apply bind_Ok in E as ([] & -> & E). simpl. rewrite (Hl _ Hj). simpl.
  apply bind_Ok in E as ([] & _ & E). apply bind_Ok in E as ([] & -> & E). simpl.
  apply bind_Ok in E as ([payload limits] & -> & E). simpl. rewrite He. simpl. by rewrite Hr.
Qed.

(** ** Every reachable table is a family of logs *)

Lemma holds_empty id attempt : holds ∅ id attempt empty_log.
Proof. split; [by intros n r|intros n Hn; unfold log_size, log_texts in Hn; simpl in Hn; lia|done]. Qed.

Lemma step_frozen st st' id j :
  invariant st → step st st' → jobs st !! id = Some j →
  ∃ j', jobs st' !! id = Some j' ∧ frozen j' = frozen j.
Proof.
  intros Hinv Hs Hj. destruct (later _ _ _ _ _ _ _ _ _ _ _ Hinv (rtc_once _ _ Hs) Hj) as (j' & ? & ? & _).
  eauto.
Qed.

Lemma allowed_frozen st st' id attempt log :
  (∀ j, jobs st !! id = Some j → ∃ j', jobs st' !! id = Some j' ∧ frozen j' = frozen j) →
  allowed st id attempt log → allowed st' id attempt log.
Proof.
  intros Hf [?|(H1 & j & payload & limits & Hj & Hc & Hp & Hall)]; [by left|].
  destruct (Hf _ Hj) as (j' & Hj' & Hfr). right. split; [done|]. exists j', payload, limits.
  split_and!; [done| | |done].
  - rewrite <-Hc. unfold frozen in Hfr. by injection Hfr.
  - rewrite <-Hp. by apply payload_frozen, frozen_submission.
Qed.

Lemma append_other st db tx principal id req r db' id' attempt' log :
  append st db tx principal id req = (r, db') → (id', attempt') ≠ (id, event_attempt req) →
  holds db id' attempt' log → holds db' id' attempt' log.
Proof.
  intros H Hne Hl. destruct r as [r|e].
  - apply append_Ok in H as (_ & j & n & node & a & payload & limits & _ & _ & _ & _ & Hcases).
    destruct Hcases as [(_ & _ & _ & _ & ->)|(_ & _ & _ & row & _ & (_ & _ & _ & ->)%insert_event_Ok & _)];
      [done|]. by apply holds_insert_other.
  - unfold append_job_stream_event in H. destruct (append_tx _ _ _ _ _ _ _ _) as [[]|]; [done|].
    by injection H as _ <-.
Qed.

Lemma stream_step_invariant `{!CryptoLaws C} s s' :
  stream_step s s' → stream_invariant s → stream_invariant s'.
Proof.
  intros [st st' db Hs|st db tx principal id req Hnonce] [Hinv Hlogs]; split; simpl in *.
  - by apply (keeps_invariant _ _ (step_keeps _ _ _ _ _ _ _ _ _ Hinv Hs)).
  - intros id attempt. destruct (Hlogs id attempt) as (log & H & Hal). exists log. split; [done|].
    eapply allowed_frozen; [|done]. intros j Hj. by eapply step_frozen.
  - done.
  - intros id' attempt'. destruct (Hlogs id' attempt') as (log & H & Hal).
    destruct (append st db tx principal id req) as [r db'] eqn:E. simpl.
    destruct (decide ((id', attempt') = (id, event_attempt req))) as [[= -> ->]|Hne].
    + destruct r as [r|e].
      * destruct (append_log _ _ _ _ _ _ _ _ _ Hnonce Hinv H Hal E)
          as [(_ & -> & _)|(_ & log' & row & _ & H' & Hal' & _)]; eauto.
      * exists log. split; [|done]. unfold append_job_stream_event in E.
        destruct (append_tx _ _ _ _ _ _ _ _) as [[]|]; [done|]. by injection E as _ <-.
    + exists log. split; [|done]. by eapply append_other.
Qed.

Lemma stream_steps_invariant `{!CryptoLaws C} s s' :
  rtc stream_step s s' → stream_invariant s → stream_invariant s'.
Proof. induction 1; eauto using stream_step_invariant. Qed.

Lemma streams_reachable_invariant `{!CryptoLaws C} s : streams_reachable s → stream_invariant s.
Proof.
  intros (st0 & Hi & Hs). eapply stream_steps_invariant; [done|]. split.
  - destruct Hi as (Hj & Ha & Hf & Hb & Hr). by apply invariant_initial.
  - intros id attempt. exists empty_log. split; [apply holds_empty|by left].
Qed.

(** A job keeps what it froze along the streams, too. *)
Lemma stream_later `{!CryptoLaws C} s s' id j :
  rtc stream_step s s' → stream_invariant s → jobs s.1 !! id = Some j →
  ∃ j', jobs s'.1 !! id = Some j' ∧ progress j j'.
Proof.
  intros Hs. revert j. induction Hs as [s|s s1 s2 Hstep _ IH]; intros j Hinv Hj.
  - exists j. split; [done|]. apply (keeps_jobs _ _ (keeps_refl _ (streams_jobs _ Hinv))) in Hj as (j' & Hj' & ?).
    by simplify_eq.
  - pose proof (stream_step_invariant _ _ Hstep Hinv) as Hinv1.
    destruct Hstep as [st st' db Hst|]; [|by apply IH].
    destruct (later _ _ _ _ _ _ _ _ _ _ _ (streams_jobs _ Hinv) (rtc_once _ _ Hst) Hj) as (j1 & Hj1 & P1).
    destruct (IH j1 Hinv1 Hj1) as (j2 & Hj2 & P2). exists j2. split; [done|].
    by etrans.
Qed.

(** A closed log stays as it is. *)
Lemma closed_stays `{!CryptoLaws C} s s' id attempt log :
  rtc stream_step s s' → stream_invariant s → holds s.2 id attempt log → closed log = true →
  holds s'.2 id attempt log.
Proof.
  intros Hs Hinv H Hc. revert Hinv H.
  induction Hs as [s|s s1 s2 Hstep _ IH]; intros Hinv H; [done|].
  apply IH; [by eapply stream_step_invariant|]. destruct Hstep as [st st' db _|st db tx principal i req Hn]; [done|].
  simpl in *. destruct (append st db tx principal i req) as [r db'] eqn:E. simpl.
  destruct (decide ((id, attempt) = (i, event_attempt req))) as [[= -> ->]|Hne];
    [|by eapply append_other].
  destruct r as [r|e].
  - apply append_Ok in E as (_ & j & n & node & a & payload & limits & _ & _ & _ & _ & Hcases).
    destruct Hcases as [(_ & _ & _ & _ & ->)|(_ & _ & Hd & _)]; [done|].
    rewrite (holds_done _ _ _ _ _ H) in Hd. congruence.
  - unfold append_job_stream_event in E. destruct (append_tx _ _ _ _ _ _ _ _) as [[]|]; [done|].
    by injection E as _ <-.
Qed.

(** What a read of a stream answers, given its log. *)
Lemma read_Ok st db principal id j from limit payload limits log :
  jobs st !! id = Some j → is_Some (models st !! model_id j) →
  user_id j = principal_user_id principal → confidentiality_mode j = "standard" →
  payload_of id j = Ok (payload, limits) → 0 ≤ from → holds db id (attempt_count j) log →
  Forall (λ t, validate_standard_stream_data payload (limits_model limits) t = Ok tt) (texts log) →
  (status j = Succeeded → closed log = true) →
  ∃ view, read_job_stream_authenticated cfg base64_standard_decode st db principal id from limit
      = Ok view
    ∧ read_status view = status j
    ∧ events view = log_page log from limit
    ∧ next_sequence view = from + Z.of_nat (length (events view))
    ∧ has_more view = (next_sequence view <? log_texts log)
    ∧ upstream_done view = closed log.
Proof.
  intros Hj [m Hm] Hu Hc Hp Hfrom H Hall Hdone. unfold read_job_stream_authenticated.
  rewrite Hj. cbn [mbind option_bind]. rewrite Hm. cbn [mbind option_bind ok_or result_bind].
  rewrite Hu, Z.eqb_refl, Hc, String.eqb_refl. cbn [negb bail_if mbind result_bind]. rewrite Hp.
  cbn [mbind result_bind]. set (attempt := attempt_count j) in *.
  assert (attempt ≤ 0 → attempt_events db id attempt = []) as Hnil.
  { intros Ha. destruct (attempt_events db id attempt) as [|p l] eqn:E; [done|]. exfalso.
    assert (p ∈ attempt_events db id attempt) as Hin by (rewrite E; left).
    apply elem_of_attempt_events in Hin as (Hr & Hi & Ht). destruct p as [[[i a] n] r].
    simpl in *. subst i a. apply (holds_rows _ _ _ _ _ H) in Hr as (Hr%row_check_range & _). lia. }
  assert ((if 0 <? attempt then stream_page db id attempt from limit else [])
    = stream_page db id attempt from limit) as ->.
  { destruct (Z.ltb_spec 0 attempt); [done|]. unfold stream_page. rewrite Hnil by lia.
    cbn. by rewrite take_nil. }
  assert ((if 0 <? attempt then attempt_events db id attempt else [])
    = attempt_events db id attempt) as ->.
  { destruct (Z.ltb_spec 0 attempt); [done|]. by rewrite Hnil by lia. }
  rewrite (page_events cfg _ _ _ _ _ _ _ _ H Hfrom Hall). cbn [mbind result_bind].
  rewrite (holds_done _ _ _ _ _ H).
  assert (negb (bool_decide (status j = Succeeded)) || closed log = true) as ->.
  { destruct (decide (status j = Succeeded)) as [Hs|Hs]; [by rewrite Hdone, orb_true_r by done|].
    by rewrite bool_decide_false by done. }
  eexists. split; [reflexivity|]. cbn [read_status events next_sequence has_more upstream_done].
  split_and!; [done..| |done]. apply eq_true_iff_eq. rewrite existsb_exists, Z.ltb_lt. split.
  - intros ([[[i a] n] r] & Hin & Hb). apply list_elem_of_In, elem_of_attempt_events in Hin as (Hr & Hi & Ha).
    simpl in Hr, Hi, Ha, Hb. subst i a. apply andb_true_iff in Hb as [Hk%bool_decide_eq_true Hn%Z.leb_le].
    destruct (holds_kind _ _ _ _ _ _ _ H Hr) as [[_ ?]|[? _]]; [lia|congruence].
  - intros Hlt. set (next := from + _) in *.
    destruct (holds_text _ _ _ _ _ next H) as (t & _ & Hr & Hk & _); [lia|].
    exists (id, attempt, next, row_at db id attempt next). split.
    + by apply list_elem_of_In, elem_of_attempt_events.
    + simpl. by rewrite Hk, bool_decide_true, Z.leb_refl by done.
Qed.

(** ** Settling a stream *)

Lemma result_payload_same id j payload payload' :
  decode_stored_standard_payload cfg base64_standard_decode id j = Ok payload →
  result_payload cfg base64_standard_decode id j = Ok payload' → payload' = payload.
Proof.
  unfold decode_stored_standard_payload, result_payload. intros H H'.
  apply bind_Ok in H as ([] & _ & H). apply bind_Ok in H as (wire & Hw & H).
  apply bind_Ok in H as (e & He & H). apply bind_Ok in H as (d & Hd & H).
  apply bind_Ok in H' as (e' & He' & H'). apply bind_Ok in H' as ([] & _ & H').
  apply bind_Ok in H' as (wire' & Hw' & H'). apply bind_Ok in H' as (d' & Hd' & H').
  assert (wire' = wire) as -> by congruence.
  assert (e' = e) as ->.
  { unfold payload_encoding_from_db in He. destruct (String.eqb _ "base64"); [congruence|].
    destruct (String.eqb _ "base64url"); congruence. }
  assert (d' = d) as -> by congruence. congruence.
Qed.

(** The result of a streaming job passes only with the end of its log. *)
Lemma checked_stream_closed st db principal id req j payload limits log :
  result_checks cfg base64_standard_decode st db principal id req = Ok tt →
  jobs st !! id = Some j → confidentiality_mode j = "standard" →
  payload_of id j = Ok (payload, limits) → holds db id (attempt_count j) log → closed log = true.
Proof.
  intros H Hj Hc Hp Hl. unfold result_checks in H. apply bind_Ok in H as ([] & _ & H).
  apply bind_Ok in H as ([] & _ & H). unfold validate_job_result in H.
  rewrite Hj in H. cbn [ok_or mbind result_bind] in H. rewrite Hc, String.eqb_refl in H.
  apply bind_Ok in H as (streaming & Hs & H).
  assert (streaming = true) as ->.
  { unfold stream_payload in Hp. apply bind_Ok in Hp as (p & Hp & Hp').
    apply bind_Ok in Hp' as (l & Hlim & Hp'). apply bind_Ok in Hp' as ([] & Hb%bail_if_Ok & [= -> ->]).
    apply orb_false_iff in Hb as [Hb%negb_false_iff _].
    unfold validate_standard_result in Hs. apply bind_Ok in Hs as (p' & Hp' & Hs).
    rewrite (result_payload_same _ _ _ _ Hp Hp') in Hs. rewrite Hlim in Hs.
    cbn [mbind result_bind] in Hs. apply bind_Ok in Hs as (? & _ & Hs).
    apply bind_Ok in Hs as ([] & _ & Hs). apply bind_Ok in Hs as ([] & _ & [= <-]). done. }
  apply bind_Ok in H as ([] & _ & Ht%bail_if_Ok). apply negb_false_iff in Ht.
  rewrite <-(holds_done _ _ _ _ _ Hl). unfold transcript_complete in Ht.
  rewrite !andb_true_iff, !Z.eqb_eq in Ht. destruct Ht as [[_ Hd] _].
  unfold has_done. apply existsb_exists.
  destruct (List.filter _ (attempt_events db id (attempt_count j))) as [|p l] eqn:E; [done|].
  assert (p ∈ p :: l) as Hin by left. rewrite <-E in Hin.
  apply elem_of_filter_b in Hin as [Hin Hk]. exists p. split; [by apply list_elem_of_In|done].
Qed.

(** ** The promises *)

(** C26: the event table of a stream is an append-only log that is closed at most
    once. An answered append either finds its event in the log of its attempt
    and changes nothing, or adds it as the next event, which needs its number
    to be next and the log to be open; no other attempt's log changes. While
    the lease lasts, the same append may be repeated and is answered as a
    replay. *)
Theorem appends_refine_log `{!CryptoLaws C} st db tx principal id req r db' tx' :
  streams_reachable (st, db) → str_len (tx_nonce tx) = NONCE_LENGTH →
  append st db tx principal id req = (Ok r, db') →
  (∃ log, holds db id (event_attempt req) log
     ∧ (response_replay r = true ∧ db' = db ∧ log_has log req
        ∨ response_replay r = false
          ∧ ∃ log', log_next log req = Some log' ∧ holds db' id (event_attempt req) log'))
  ∧ (∀ id' attempt' log, (id', attempt') ≠ (id, event_attempt req) →
       holds db id' attempt' log → holds db' id' attempt' log)
  ∧ ((∀ j, jobs st !! id = Some j → stream_lease_valid tx' j (event_attempt req) = true) →
     append st db' tx' principal id req
       = (Ok (mkEventResponse id (event_attempt req) (event_sequence req) true), db')).
Proof.
  intros [Hinv Hlogs]%streams_reachable_invariant Hnonce H. simpl in Hinv, Hlogs.
  destruct (Hlogs id (event_attempt req)) as (log & Hl & Hal). split_and!.
  - exists log. split; [done|].
    destruct (append_log _ _ _ _ _ _ _ _ _ Hnonce Hinv Hl Hal H) as [?|(? & log' & _ & ? & ? & _)];
      [by left|right; eauto].
  - intros id' attempt' log' Hne. by eapply append_other.
  - by eapply append_again.
Qed.

(** C28: a reader sees the log. For the consumer of a streaming job, a page of the
    stream from any number on is the corresponding page of the log of the
    current attempt, decrypted; the next number, whether more is there and
    whether the stream ended are those of the log. *)
Theorem pages_show_log `{!CryptoLaws C} st db principal id j from limit payload limits :
  streams_reachable (st, db) →
  jobs st !! id = Some j → is_Some (models st !! model_id j) →
  user_id j = principal_user_id principal → confidentiality_mode j = "standard" →
  payload_of id j = Ok (payload, limits) → 0 ≤ from →
  ∃ log, holds db id (attempt_count j) log
    ∧ ((status j = Succeeded → closed log = true) →
       ∃ view, read_job_stream_authenticated cfg base64_standard_decode st db principal id from limit
           = Ok view
         ∧ read_status view = status j
         ∧ events view = log_page log from limit
         ∧ next_sequence view = from + Z.of_nat (length (events view))
         ∧ has_more view = (next_sequence view <? log_texts log)
         ∧ upstream_done view = closed log).
Proof.
  intros [_ Hlogs]%streams_reachable_invariant Hj Hm Hu Hc Hp Hfrom. simpl in Hlogs.
  destruct (Hlogs id (attempt_count j)) as (log & Hl & Hal). exists log. split; [done|].
  intros Hdone. eapply read_Ok; [done..| |done].
  destruct Hal as [->|(_ & j' & p' & l' & Hj' & _ & Hp' & Hall)]; [constructor|].
  assert (j' = j) as -> by congruence. assert ((p', l') = (payload, limits)) as [= -> ->] by congruence.
  done.
Qed.

(** The job a settlement concludes, before and after. *)
Lemma settled_job st tx cmd o st' :
  invariant st → complete_job parse_envelope encode_snapshot (standard_data_key cfg) st tx cmd
    = (Ok o, st') → idempotent_replay o = false →
  ∃ j j', jobs st !! job_id cmd = Some j ∧ jobs st' !! job_id cmd = Some j'
    ∧ frozen j' = frozen j ∧ status j' = Succeeded ∧ attempt_count j' = attempt_count j
    ∧ 0 < attempt_count j ≤ max_attempts (submission j).
Proof.
  intros Hinv Hc Hr. apply settled_inv in Hc as (v & fp & _ & (Hj & _)%load_view_Ok & _ & _ & Hs & Hset); [|done].
  apply settle_Ok in Hset as (s & hs & t & fo & ct & sv & atts & insts & digest & _ & _ & _ & _
    & _ & _ & _ & _ & _ & _ & _ & Est).
  pose proof (inv_jobs _ Hinv _ _ Hj) as (_ & Hcount & _ & Hatt & Hst & _).
  unfold status_wf in Hst. rewrite Hs in Hst. destruct Hst as (_ & _ & a & Ha & _).
  destruct (Hatt _ _ Ha) as (? & _).
  eexists (job v), _. split_and!; [done|rewrite Est; apply lookup_insert_eq|done..|lia|lia].
Qed.

(** C27: a settled stream is complete. When a streaming job settles through
    [job_result], whose checks read an earlier database than its transaction,
    the log of its events was closed by then and never changes again; whatever
    calls follow, its consumer reads the whole log, which the coordinator never
    answers with an error. *)
Theorem settled_stream_is_complete `{!CryptoLaws C} st1 db1 st2 db2 st3 db3 tx principal id req r
    st2' j payload limits :
  streams_reachable (st1, db1) → rtc stream_step (st1, db1) (st2, db2) →
  jobs st1 !! id = Some j → confidentiality_mode j = "standard" →
  payload_of id j = Ok (payload, limits) →
  job_result cfg base64_standard_decode parse_envelope encode_snapshot (st1, db1) st2 tx principal
    id req = (Ok r, st2') → result_replay r = false →
  rtc stream_step (st2', db2) (st3, db3) → is_Some (models st3 !! model_id j) →
  ∃ log, closed log = true ∧ holds db1 id 1 log ∧ holds db3 id 1 log
    ∧ ∀ reader from limit, principal_user_id reader = user_id j → 0 ≤ from →
        ∃ view, read_job_stream_authenticated cfg base64_standard_decode st3 db3 reader id from limit
            = Ok view
          ∧ read_status view = Succeeded ∧ events view = log_page log from limit
          ∧ has_more view = (next_sequence view <? log_texts log) ∧ upstream_done view = true.
Proof.
  intros Hreach Hs12 Hj Hc Hp Hres Hr Hs23 Hm. pose proof (streams_reachable_invariant _ Hreach) as Hinv1.
  unfold job_result in Hres. cbn [fst snd] in Hres.
  destruct (result_checks _ _ _ _ _ _ _) as [[]|] eqn:Hchecks; [|done].
  destruct (complete_job _ _ _ _ _ _) as [outcome st'] eqn:Hcomp. injection Hres as Hout ->.
  apply bind_Ok in Hout as (o & -> & [= <-]). simpl in Hr.
  destruct (streams_logs _ Hinv1 id (attempt_count j)) as (log & Hl & Hal). simpl in Hl, Hal.
  pose proof (checked_stream_closed _ _ _ _ _ _ _ _ _ Hchecks Hj Hc Hp Hl) as Hclosed.
  destruct Hal as [Hnil|(H1 & j' & p' & l' & Hj' & _ & Hp' & Hall)];
    [by destruct (holds_closed _ _ _ _ _ Hl Hclosed)|]. rewrite H1 in Hl.
  assert (j' = j) as -> by congruence. assert ((p', l') = (payload, limits)) as [= -> ->] by congruence.
  pose proof (stream_steps_invariant _ _ Hs12 Hinv1) as Hinv2.
  assert (stream_step (st2, db2) (st2', db2)) as Hstep.
  { apply stream_jobs. pose proof (step_call cfg asn_lookup trusted_proxy_ips base64_standard_decode
      uuid_parse parse_envelope encode_snapshot st2 (Complete tx (settlement_command principal id req)))
      as Hstep. simpl in Hstep. by rewrite Hcomp in Hstep. }
  destruct (stream_later _ _ _ _ Hs12 Hinv1 Hj) as (j2 & Hj2 & Hf2 & _). simpl in Hj2.
  destruct (settled_job _ _ _ _ _ (streams_jobs _ Hinv2) Hcomp Hr)
    as (j2' & j3 & Hj2' & Hj3 & Hf3 & Hs3 & Ha3 & Hcount). simpl in Hj2', Hj3.
  assert (j2' = j2) as -> by congruence.
  destruct (stream_later _ _ _ _ Hs23 (stream_step_invariant _ _ Hstep Hinv2) Hj3)
    as (j4 & Hj4 & _ & _ & Hfin). simpl in Hj4. rewrite Hfin in Hj4 by by rewrite Hs3.
  assert (frozen j3 = frozen j) as Hf by congruence. pose proof (frozen_submission _ _ Hf) as Hsub.
  pose proof (payload_one _ _ _ Hp) as Hone. rewrite (frozen_submission _ _ Hf2), Hone in Hcount.
  assert (holds db3 id 1 log) as Hl3.
  { eapply (closed_stays (st1, db1) (st3, db3)); [|done..].
    etrans; [exact Hs12|]. eapply rtc_l; [exact Hstep|exact Hs23]. }
  exists log. split_and!; [done..|]. intros reader from limit Hreader Hfrom.
  assert (user_id j3 = user_id j ∧ confidentiality_mode j3 = confidentiality_mode j
    ∧ model_id j3 = model_id j) as (Hu & Hc3 & Hm3) by (unfold frozen in Hf; by injection Hf).
  destruct (read_Ok st3 db3 reader id j3 from limit payload limits log)
    as (view & Hview & Hstat & Hev & _ & Hmore & Hend);
    [done|by rewrite Hm3|congruence|congruence|by rewrite (payload_frozen _ _ _ Hsub)|done| |done|done|].
  { replace (attempt_count j3) with 1 by lia. done. }
  exists view. split_and!; [done|congruence|done..|congruence].
Qed.
End system.
