(* ===== verification/Journeys.v ===== *)
(** * The journey of one job

    From its creation through the worker's hands back to the consumer: what is
    delivered, what a repeated report answers, and how an abandoned job ends. *)
From S2P Require Import Prelude Text Float64 Fixed Tier Policy Routing Billing Ledger Net AntiAbuse StandardData Hardware Fingerprint Store Envelope Api Snapshot Tables Lease Postings Complete Settled Requests Quotes Dispatch DispatchSpec JobOps RegulatedRoutes Admission RegulatedJobs Lifecycle Progress RegulatedSpec Reservations.

Local Open Scope string_scope.
Local Open Scope list_scope.
Local Open Scope Z_scope.

(** ** Instances only drain *)

Definition drained (a b : option InstanceRow) : Prop :=
  b = a ∨ ∃ r r', a = Some r ∧ b = Some r' ∧ instance_status r = Draining
                ∧ instance_status r' = Unpublished ∧ instance_node r' = instance_node r.

Definition drains (st st' : State) : Prop :=
  ∀ i, drained (instances st !! i) (instances st' !! i).

Lemma drains_trans a b c : drains a b → drains b c → drains a c.
Proof.
  intros H1 H2 i. destruct (H1 i) as [E1|(r & r' & Ea & Eb & Hd & Hu & Hn)]; destruct (H2 i)
    as [E2|(s & s' & Ea2 & Eb2 & Hd2 & Hu2 & Hn2)].
  - left. congruence.
  - right. exists s, s'. split_and!; congruence.
  - right. exists r, r'. split_and!; congruence.
  - congruence.
Qed.

Lemma finalize_drains st now i : drains st (finalize_draining_instance st now i).
Proof.
  intros k. unfold finalize_draining_instance. destruct i as [i|]; [|by left].
  destruct (instances st !! i) as [row|] eqn:E; [|by left].
  destruct (_ && _) eqn:Hc; [|by left]. simpl.
  destruct (decide (i = k)) as [<-|Hne].
  - right. exists row, (instance_unpublished row now). rewrite lookup_insert_eq.
    apply andb_true_iff in Hc as [[Hd _]%andb_true_iff _]. apply bool_decide_eq_true in Hd. done.
  - left. by rewrite lookup_insert_ne.
Qed.

Lemma reap_expired_drains st now st' : reap_expired_terminal_leases st now = Ok st' → drains st st'.
Proof.
  unfold reap_expired_terminal_leases. intros H. apply bind_Ok in H as (st1 & H & [= <-]).
  apply drains_trans with st1.
  - revert H. apply fold_each_ind; [|by left].
    intros s p s' _ Hs H. eapply drains_trans; [exact Hs|]. unfold expire_terminal_lease in H.
    apply bind_Ok in H as (s1 & (b & -> & _)%release_Ok & H).
    apply bind_Ok in H as (s2 & (m & -> & _)%update_leased_attempt_Ok & [= <-]).
    apply (finalize_drains (update_job (with_attempts (with_books s b) m) p.1 _)).
  - intros k. unfold unpublish_drained. simpl. rewrite map_lookup_imap.
    destruct (instances st1 !! k) as [row|]; [|by left]. simpl.
    destruct (_ && _) eqn:Hc; [|by left]. right. exists row, (instance_unpublished row now).
    apply andb_true_iff in Hc as [[Hd _]%andb_true_iff _]. apply bool_decide_eq_true in Hd. done.
Qed.

(** ** A job that lost its hardware *)

Lemma binding_lost_drains st st' now j :
  unchanged st st' → drains st st' → binding_lost st now j = true → binding_lost st' now j = true.
Proof.
  intros Hun Hd. unfold binding_lost. rewrite (same_nodes _ _ Hun), (same_reports _ _ Hun).
  destruct (regulated_node_id j) as [node|]; [|done]. simpl.
  destruct (nodes st !! node) as [n|]; [|done]. simpl.
  destruct (model_instance_id j) as [i|]; [|done]. simpl.
  destruct (Hd i) as [->|(r & r' & -> & -> & Hdr & Hu & Hn)]; [done|]. simpl.
  destruct (attestation_report_id j) as [report|]; [|done]. simpl.
  destruct (reports st !! report) as [ar|]; [|done]. simpl. rewrite Hu, Hn.
  rewrite !andb_true_iff. intros [Hc _]. split; [done|].
  rewrite (bool_decide_eq_false_2 (Unpublished = Published)) by done.
  simpl. by rewrite orb_true_r.
Qed.

Lemma binding_lost_waits st now j :
  binding_lost st now j = true → status j = Queued ∨ status j = Retry.
Proof.
  unfold binding_lost. repeat (case_match || (intros; done)); simpl.
  repeat match goal with |- context [?o ≫= _] => destruct o; simpl; [|done] end.
  rewrite !andb_true_iff. by intros [[_ H%bool_decide_eq_true] _].
Qed.

Lemma reap_expired_waiting st now st' id j :
  invariant st → reap_expired_terminal_leases st now = Ok st' → jobs st !! id = Some j →
  status j ≠ Leased → jobs st' !! id = Some j.
Proof.
  intros Hinv H Hj Hs. destruct (reap_expired_total st now Hinv) as (st1 & E & _ & _ & Hjobs).
  rewrite E in H. injection H as <-. rewrite Hjobs, Hj. cbn [fmap option_fmap option_map].
  unfold expired_if. rewrite bool_decide_false; [done|]. intros Hin.
  apply list_elem_of_fmap in Hin as (p & -> & Hp).
  destruct (reap_select_spec st (λ p, terminal_lease now p.2)) as [_ Hl].
  destruct (Hl p Hp) as [Hp' Ht%terminal_lease_Leased]. congruence.
Qed.

Lemma reap_select_nonempty st p id j :
  jobs st !! id = Some j → p (id, j) = true → reap_select st p ≠ [].
Proof.
  intros Hj Hp. unfold reap_select.
  assert ((id, j) ∈ sort_by reap_cmp (List.filter p (map_to_list (jobs st)))) as Hin.
  { apply elem_of_sort_by, list_elem_of_In, filter_In.
    split; [by apply list_elem_of_In, elem_of_map_to_list|done]. }
  destruct (sort_by _ _) as [|x l]; [by apply elem_of_nil in Hin|]. done.
Qed.

Lemma reap_invalid_blocked st now id j :
  jobs st !! id = Some j → binding_lost st now j = true →
  reap_invalid_regulated_jobs st now = Err internal.
Proof.
  intros Hj Hl. unfold reap_invalid_regulated_jobs.
  pose proof (reap_select_nonempty st (λ p, binding_lost st now p.2) id j Hj Hl) as Hne.
  destruct (reap_select _ _) as [|p l]; [done|]. simpl. by rewrite fail_unbound_refused.
Qed.

Lemma reaps_blocked st now id j :
  invariant st → jobs st !! id = Some j → binding_lost st now j = true →
  ∃ st1, reap_expired_terminal_leases st now = Ok st1
    ∧ reap_invalid_regulated_jobs st1 now = Err internal.
Proof.
  intros Hinv Hj Hl. destruct (reap_expired_total st now Hinv) as (st1 & E & _ & Hun & _).
  exists st1. split; [done|]. apply (reap_invalid_blocked _ _ id j).
  - eapply reap_expired_waiting; [done..|]. by destruct (binding_lost_waits _ _ _ Hl) as [-> | ->].
  - eapply binding_lost_drains; [exact Hun|by eapply reap_expired_drains|done].
Qed.

(** ** An abandoned job *)

(** The jobs after the reaping, when the limit does not cut it. *)
Definition after_reaping (now : Z) (js : gmap Z JobRow) : gmap Z JobRow :=
  (λ j, if terminal_lease now j then job_failed j now else j) <$> js.

Definition terminal_count (st : State) (now : Z) : nat :=
  length (List.filter (λ p, terminal_lease now p.2) (map_to_list (jobs st))).

Lemma reap_all_terminal st now :
  invariant st → (terminal_count st now ≤ REAP_LIMIT)%nat →
  ∃ st', reap_expired_terminal_leases st now = Ok st' ∧ invariant st' ∧ unchanged st st'
    ∧ jobs st' = after_reaping now (jobs st).
Proof.
  intros Hinv Hle. destruct (reap_expired_total st now Hinv) as (st' & E & Hinv' & Hun & Hjobs).
  exists st'. split_and!; try done. apply map_eq. intros id. rewrite Hjobs.
  unfold after_reaping. rewrite lookup_fmap. destruct (jobs st !! id) as [j|] eqn:Hj; [|done].
  cbn [fmap option_fmap option_map]. f_equal. unfold expired_if.
  assert (id ∈ (reap_select st (λ p, terminal_lease now p.2)).*1 ↔ terminal_lease now j = true) as Hiff.
  { split.
    - intros (p & -> & Hp)%list_elem_of_fmap.
      destruct (reap_select_spec st (λ p, terminal_lease now p.2)) as [_ Hl].
      destruct (Hl p Hp) as [Hp' Ht]. congruence.
    - intros Ht. apply list_elem_of_fmap. exists (id, j). split; [done|].
      unfold reap_select. rewrite take_ge.
      + apply elem_of_sort_by, list_elem_of_In, filter_In.
        split; [by apply list_elem_of_In, elem_of_map_to_list|done].
      + by rewrite sort_by_perm. }
  rewrite (bool_decide_ext _ _ Hiff). destruct (terminal_lease now j); by rewrite ?bool_decide_true,
    ?bool_decide_eq_false_2 by done.
Qed.

Lemma reap_invalid_idle st now :
  (∀ id j, jobs st !! id = Some j → binding_lost st now j = false) →
  reap_invalid_regulated_jobs st now = Ok st.
Proof.
  intros H. unfold reap_invalid_regulated_jobs.
  destruct (reap_select_spec st (λ p, binding_lost st now p.2)) as [_ Hl].
  destruct (reap_select _ _) as [|p l]; [done|].
  destruct (Hl p) as [Hp Hb]; [by left|]. by rewrite (H _ _ Hp) in Hb.
Qed.

(** No regulated job waits for hardware. *)
Definition no_regulated_waiting (js : gmap Z JobRow) : Prop :=
  ∀ id j, js !! id = Some j → confidentiality_mode j = "regulated" → status j ≠ Queued ∧ status j ≠ Retry.

Lemma binding_lost_regulated st now j :
  binding_lost st now j = true → confidentiality_mode j = "regulated".
Proof.
  unfold binding_lost.
  repeat match goal with |- context [?o ≫= _] => destruct o; simpl; [|done] end.
  rewrite !andb_true_iff. by intros [[H%String.eqb_eq _] _].
Qed.

Lemma no_regulated_idle st now :
  no_regulated_waiting (jobs st) → reap_invalid_regulated_jobs st now = Ok st.
Proof.
  intros H. apply reap_invalid_idle. intros id j Hj.
  destruct (binding_lost st now j) eqn:E; [|done]. exfalso.
  destruct (H id j Hj (binding_lost_regulated _ _ _ E)).
  by destruct (binding_lost_waits _ _ _ E).
Qed.

(** ** Failure reports *)

Lemma error_class_roundtrip c : error_class_of_key (job_error_class_key c) = c.
Proof. by destruct c. Qed.

Lemma job_error_class_key_inj c c' : job_error_class_key c = job_error_class_key c' → c = c'.
Proof. intros H. by rewrite <-(error_class_roundtrip c), H, error_class_roundtrip. Qed.

Lemma update_leased_attempt_key st id n f a st' :
  attempts st !! (id, n) = Some a → attempt_status a = AttemptLeased →
  update_leased_attempt st id n f = Ok st' →
  result_key_taken st id n (attempt_result_key (f a)) = false
  ∧ st' = with_attempts st (<[(id, n) := f a]> (attempts st)).
Proof.
  unfold update_leased_attempt. intros -> Hs. rewrite bool_decide_true by done. intros H.
  apply bind_Ok in H as ([] & Hc%require_internal_Ok & [= <-]).
  by apply andb_true_iff in Hc as [_ Hc%negb_true_iff].
Qed.

Lemma conclude_failure_same st tx id j w st' :
  conclude_failure st tx id j w = Ok st' → attempts st' = attempts st ∧ nodes st' = nodes st.
Proof.
  unfold conclude_failure. destruct w; intros H.
  - by apply bind_Ok in H as (t & _ & [= <-]).
  - by apply bind_Ok in H as (st1 & (b & -> & _)%release_Ok & [= <-]).
Qed.

(** The attempt that was given the key is the one a repeated report finds. *)
Lemma reported_after st st' id n a key row :
  result_key_taken st id n (Some key) = false → attempt_result_key a = Some key →
  attempts st' = <[(id, n) := a]> (attempts st) → nodes st' !! attempt_node a = Some row →
  reported_attempt st' id key = Some (a, row).
Proof.
  intros Hfree Hkey Ha Hn. unfold reported_attempt. rewrite Ha.
  set (l := List.filter _ _). assert (∀ p, p ∈ l → p = ((id, n), a)) as Hl.
  { intros p [Hp Hc]%list_elem_of_In%filter_In. apply list_elem_of_In in Hp.
    apply andb_true_iff in Hc as [Hid%Z.eqb_eq Hk%bool_decide_eq_true].
    destruct p as [[i m] b]. simpl in Hid, Hk. subst i. apply elem_of_map_to_list in Hp.
    apply lookup_insert_Some in Hp as [[[= <-] <-]|[Hne Hb]]; [done|].
    exfalso. unfold result_key_taken in Hfree. rewrite bool_decide_true in Hfree by done.
    simpl in Hfree. apply not_true_iff_false in Hfree. apply Hfree, existsb_exists.
    exists ((id, m), b). split; [by apply list_elem_of_In, elem_of_map_to_list|]. simpl.
    rewrite Z.eqb_refl, bool_decide_true by done. simpl. rewrite andb_true_r.
    apply negb_true_iff, Z.eqb_neq. intros ->. done. }
  assert (((id, n), a) ∈ l) as Hin.
  { apply list_elem_of_In, filter_In. split.
    - apply list_elem_of_In, elem_of_map_to_list, lookup_insert_eq.
    - simpl. by rewrite Z.eqb_refl, Hkey, bool_decide_true by done. }
  destruct l as [|p l']; [by apply elem_of_nil in Hin|]. simpl.
  rewrite (Hl p) by left. simpl. by rewrite Hn.
Qed.

(** A report that was accepted for the first time. *)
Lemma first_report st tx principal id request r st' :
  invariant st → job_fail st tx principal id request = (Ok r, st') →
  fail_idempotent_replay r = false →
  fail_validate request = Ok tt ∧ verify_node_owner st principal (fail_node_id request) = Ok tt
  ∧ ∃ j n a, jobs st !! id = Some j ∧ status j = Leased
  ∧ leased_to_node_id j = Some (fail_node_id request) ∧ node_owner n = principal_user_id principal
  ∧ exact_claim_device_binding principal (Some (node_owner n)) (claim_device_key_id a)
      (claim_device_binding_version a) = true
  ∧ attempt_node a = fail_node_id request
  ∧ error_class a = Some (job_error_class_key (fail_error_class request))
  ∧ attempt_error_message a = Some (fail_error_message request)
  ∧ retryable_requested a = Some (retryable request)
  ∧ attempts st' !! (id, attempt_count j) = Some a ∧ nodes st' = nodes st
  ∧ reported_attempt st' id (fail_idempotency_key request) = Some (a, n).
Proof.
  intros Hinv H%transaction_answer Hr.
  apply bind_Ok in H as ([] & Hval%map_err_Ok & H). apply bind_Ok in H as ([] & Hown & H).
  split; [done|]. split; [done|]. unfold fail_tx in H.
  destruct (reported_attempt st _ _) as [[a0 n0]|].
  { apply bind_Ok in H as (x & Hx & [= <- _]). unfold replay_failure in Hx.
    apply bind_Ok in Hx as ([] & _ & Hx). by apply bind_Ok in Hx as ([] & _ & [= <-]). }
  apply bind_Ok in H as ([[[j n] node] a] & (Hj & Hlease & Hn & Ha)%ok_or_Ok%leased_view_Ok & H).
  apply bind_Ok in H as ([] & Hb%bail_if_Ok & H).
  rewrite !orb_false_iff, !negb_false_iff, !Z.eqb_eq in Hb. destruct Hb as [[Ho Hnode] Hdev].
  apply bind_Ok in H as ([] & Hl%bail_if_Ok%negb_false_iff%bool_decide_eq_true & H).
  apply bind_Ok in H as (lease & _ & H). apply bind_Ok in H as ([] & _ & H). cbv zeta in H.
  apply bind_Ok in H as (st1 & H1 & H). apply bind_Ok in H as (st2 & H2 & [= _ <-]).
  destruct (inv_jobs _ Hinv id j Hj) as (_ & _ & _ & _ & Hs & _). unfold status_wf in Hs.
  rewrite Hl in Hs. destruct Hs as (_ & _ & a1 & Ha1 & Hal & Hnode1).
  rewrite Ha in Ha1. injection Ha1 as <-.
  destruct (update_leased_attempt_key _ _ _ _ _ _ Ha Hal H1) as [Hfree ->].
  apply conclude_failure_same in H2 as [Hat Hnodes].
  destruct (finalize_keeps st2 (tx_now tx) (model_instance_id j)) as (_ & _ & Ea & _).
  destruct (finalize_instances st2 (tx_now tx) (model_instance_id j)) as [insts Hins].
  set (a' := attempt_outcome a AttemptFailed (Some (tx_now tx))
    (Some (job_error_class_key (fail_error_class request))) (Some (fail_error_message request))
    (Some (retryable request)) (Some (fail_idempotency_key request))) in *.
  assert (nodes (finalize_draining_instance st2 (tx_now tx) (model_instance_id j)) = nodes st) as En
    by by rewrite Hins.
  assert (node = attempt_node a) as -> by congruence.
  exists j, n, a'. split_and!; try done.
  - by rewrite Hnode in Hlease.
  - rewrite Ea, Hat. simpl. by rewrite lookup_insert_eq.
  - eapply reported_after; [exact Hfree|done|by rewrite Ea, Hat|by rewrite En].
Qed.

(** ** Creation *)

(** An assessment adds at most one decision, the one it answers with. *)
Lemma assess_decisions hmac db fresh pepper u s k n q d db' :
  assess_before_create_in_transaction hmac db fresh pepper u s k n q = Ok (d, db') →
  db' = db ∨ ∃ row, row_decision row = disposition_as_str (disposition d)
                 ∧ decisions db' = <[(u, k) := row]> (decisions db).
Proof.
  unfold assess_before_create_in_transaction. intros H.
  apply bind_Ok in H as ([] & _ & H). apply bind_Ok in H as (h & _ & H).
  apply bind_Ok in H as (existing & _ & H). destruct existing as [[eh ed]|].
  - case_if; [|done]. injection H as _ <-. by left.
  - apply bind_Ok in H as (print & _ & H). apply bind_Ok in H as (dh & _ & H). cbv zeta in H.
    apply bind_Ok in H as (counts & _ & H). apply bind_Ok in H as ([] & _ & [= <- <-]).
    right. eexists. split; [|by destruct n]. done.
Qed.

(** The row a key names is the only one. *)
Lemma existing_job_unique st id j :
  invariant st → jobs st !! id = Some j →
  existing_job st (user_id j) (job_idempotency j) = Some (id, j).
Proof.
  intros Hinv Hj. apply key_found; simpl; [done|by rewrite Z.eqb_refl, String.eqb_refl|].
  intros k jk Hk [Hu%Z.eqb_eq He%String.eqb_eq]%andb_true_iff. simpl in *.
  by eapply (inv_keys _ Hinv).
Qed.

(** ** Delivery *)

Lemma finished_row_stays `{SE : Serde, J : JobJson, C : Crypto, CL : Collation, GJ : RegulatedJson, PJ : Nodes.ProfileJson}
    cfg asn trusted
    b64 up pe es st st' id j :
  invariant st → rtc (step cfg asn trusted b64 up pe es) st st' →
  jobs st !! id = Some j → unfinished (status j) = false → jobs st' !! id = Some j.
Proof.
  intros Hinv Hs Hj Hu. destruct (later cfg asn trusted b64 up pe es _ _ _ _ Hinv Hs Hj)
    as (j' & Hj' & _ & _ & He). by rewrite <-(He Hu).
Qed.

Section journeys.
Context `{SE : Serde, J : JobJson, C : Crypto, CL : Collation, GJ : RegulatedJson, PJ : Nodes.ProfileJson}.
Context (cfg : Config) (asn_lookup : IpAddr → option Z) (trusted_proxy_ips : gset IpAddr).
Context (base64_standard_decode : string → option string) (uuid_parse : string → option Z).
Context (parse_envelope : string → option RegulatedEnvelope).
Context (encode_snapshot : JobBillingSnapshot → option string).

Local Abbreviation create_job :=
  (create_job cfg asn_lookup trusted_proxy_ips base64_standard_decode uuid_parse).
Local Abbreviation complete_job :=
  (complete_job parse_envelope encode_snapshot (standard_data_key cfg)).
Local Abbreviation step :=
  (step cfg asn_lookup trusted_proxy_ips base64_standard_decode uuid_parse parse_envelope
     encode_snapshot).

(** C34: a waiting regulated job whose hardware no longer vouches for it stops
    every worker and every reader. The failed attempt the routes record for it
    names no device, which the constraint on attempts refuses; so whoever
    claims work or reads any job is answered with an error and nothing is
    committed, and the job keeps waiting with its reservation. *)
Theorem unbound_regulated_job_blocks st id j now :
  invariant st → jobs st !! id = Some j → binding_lost st now j = true →
  (∀ tx principal other, tx_now tx = now → get_job cfg st tx principal other = (Err internal, st))
  ∧ (∀ tx principal request, tx_now tx = now →
       ∃ e, claim_job cfg st tx principal request = (Err e, st))
  ∧ hold j = reserved_cost_micro j.
Proof.
  intros Hinv Hj Hl. destruct (reaps_blocked st now id j Hinv Hj Hl) as (st1 & H1 & H2).
  split; [|split].
  - intros tx principal other <-. unfold get_job, transaction. rewrite H1. simpl. by rewrite H2.
  - intros tx principal request <-. unfold claim_job, transaction.
    destruct (bound_node _ _ _) as [[n p]|e]; simpl; [|by exists e].
    destruct (bail_if _ _) as [|e]; simpl; [|by exists e]. rewrite H1. simpl. rewrite H2. by eexists.
  - unfold hold. by destruct (binding_lost_waits _ _ _ Hl) as [-> | ->].
Qed.

(** C4: a worker receives exactly what the consumer submitted. Whatever happens
    between the creation of a Standard job and a claim of it, by any calls, the
    claimed payload, tags and token limits are those of the request, although
    the database only ever held the payload encrypted. The nonce has the AEAD's
    length. *)
Theorem payload_reaches_worker `{!CryptoLaws C} st tx new_id principal connection request r st1
    st2 tx2 worker claim response st3 :
  invariant st → str_len (tx_nonce tx) = NONCE_LENGTH →
  create_job st tx new_id principal connection request = (Ok r, st1) → created_replay r = false →
  rtc step st1 st2 →
  claim_job cfg st2 tx2 worker claim = (Ok (Some response), st3) →
  claimed_job_id response = created_job_id r →
  claimed_payload response = request_payload request
  ∧ claimed_tags response = request_tags request
  ∧ claimed_input_tokens response = request_input_tokens request
  ∧ claimed_max_output_tokens response = request_max_output_tokens request
  ∧ 1 ≤ claimed_attempt response ≤ attempts_allowed cfg false.
Proof.
  intros Hinv Hnonce Hc Hr Hs H%transaction_answer Hid.
  pose proof (keeps_invariant _ _ (create_keeps _ _ _ _ _ _ _ _ _ _ _ _ _ Hinv Hc)) as Hinv1.
  apply create_admits in Hc as (validated & db & _ & _ & _ & Ha); [|done].
  apply admit_Ok in Ha as (speed & model & b & payload & book & _ & _ & Hp & _ & _ & _ & _ & _ & -> & _ & Est1).
  assert (jobs st1 !! new_id = Some (queued_job cfg tx principal request validated
    (selected_id model) b payload (speed_as_str (model_speed_class speed)))) as Hj1
    by (rewrite Est1; apply lookup_insert_eq).
  pose proof (keeps_invariant _ _ (steps_keep _ _ _ _ _ _ _ _ _ Hs Hinv1)) as Hinv2.
  destruct (later _ _ _ _ _ _ _ _ _ _ _ Hinv1 Hs Hj1) as (j2 & Hj2 & Hf2 & _).
  apply bind_Ok in H as ([n policy] & _ & H). apply bind_Ok in H as ([] & _ & H).
  apply bind_Ok in H as (st4 & [K4 _]%reap_expired_keeps & H); [|done].
  apply bind_Ok in H as (st5 & ->%reap_invalid_Ok & H). apply bind_Ok in H as ([] & _ & H).
  destruct (candidate _ _ _ _) as [[id j]|] eqn:Ec; [|done].
  apply bind_Ok in H as ([resp st6] & H & [= -> _]).
  pose proof Ec as (Hj & Hoff & _)%candidate_spec. apply offered_spec in Hoff as (Hready & _).
  pose proof (keeps_invariant _ _ K4) as Hinv4.
  apply lease_candidate_Ok in H as (resp & e & [= <-] & Hid' & Hatt & Hpay & Htags & Hin & Hout & _);
    [|done|done].
  destruct (keeps_jobs _ _ K4 new_id j2 Hj2) as (j4 & Hj4 & Hf4 & _).
  rewrite Hid' in Hid. simpl in Hid. subst id. assert (j4 = j) as -> by congruence.
  assert (frozen j = frozen (queued_job cfg tx principal request validated (selected_id model) b
    payload (speed_as_str (model_speed_class speed)))) as Hf by congruence.
  unfold frozen in Hf. simpl in Hf. injection Hf as _ _ _ Hconf _ _ _ Hest Hmax _ _ Hsub.
  unfold payload_for_worker in Hpay. rewrite Hconf, Hsub in Hpay. simpl in Hpay.
  apply map_err_Ok in Hpay. rewrite Hid in Hpay.
  rewrite (decrypt_encrypted _ _ _ _ _ _ _ _ Hnonce Hp), open_seal in Hpay. injection Hpay as Hpay.
  split_and!; [done|by rewrite Htags, Hsub|congruence|congruence| |].
  - pose proof (inv_jobs _ Hinv4 _ _ Hj) as (_ & ? & _). lia.
  - unfold ready in Hready. rewrite !andb_true_iff, Z.ltb_lt, Hsub in Hready. simpl in Hready.
    assert (attempts_allowed cfg (stream validated) ≤ attempts_allowed cfg false); [|lia].
    unfold attempts_allowed. case_if; lia.
Qed.

(** C5: the consumer, and nobody else, reads the result the worker submitted.
    After a settlement, whatever calls follow, reading the job answers that it
    succeeded with the reported token counts; its consumer gets the submitted
    result, decrypted, and any other reader gets none. *)
Theorem result_reaches_consumer `{!CryptoLaws C} st tx cmd o st1 st2 tx2 reader view st3 :
  invariant st → str_len (tx_nonce tx) = NONCE_LENGTH →
  complete_job st tx cmd = (Ok o, st1) → idempotent_replay o = false →
  rtc step st1 st2 →
  get_job cfg st2 tx2 reader (job_id cmd) = (Ok view, st3) →
  view_status view = Succeeded
  ∧ view_input_tokens view = Some (submitted_input_tokens cmd)
  ∧ view_output_tokens view = Some (submitted_output_tokens cmd)
  ∧ ∃ j, jobs st !! job_id cmd = Some j
      ∧ view_result view = if user_id j =? principal_user_id reader
                           then Some (submitted_result cmd) else None.
Proof.
  intros Hinv Hnonce Hc Hr Hs H%transaction_answer.
  pose proof (keeps_invariant _ _ (complete_keeps _ _ _ _ _ _ _ _ Hinv Hc)) as Hinv1.
  apply settled_inv in Hc as (v & fp & _ & (Hj & _)%load_view_Ok & _ & _ & _ & Hset); [|done].
  apply settle_Ok in Hset as (s & hs & t & fo & ct & sv & atts & insts & digest & _ & _ & _ & _
    & _ & _ & _ & _ & Hct & _ & _ & Est1).
  set (j1 := job_succeeded (job v) ct (submitted_key cmd) (submitted_input_tokens cmd)
    (submitted_output_tokens cmd) fp sv (tx_now tx)) in *.
  assert (jobs st1 !! job_id cmd = Some j1) as Hj1 by (rewrite Est1; apply lookup_insert_eq).
  pose proof (finished_row_stays _ _ _ _ _ _ _ _ _ _ _ Hinv1 Hs Hj1 eq_refl) as Hj2.
  pose proof (keeps_invariant _ _ (steps_keep _ _ _ _ _ _ _ _ _ Hs Hinv1)) as Hinv2.
  apply bind_Ok in H as (st4 & H4 & H). pose proof (reap_expired_waiting _ _ _ _ _ Hinv2 H4 Hj2
    ltac:(done)) as Hj4.
  apply bind_Ok in H as (st5 & ->%reap_invalid_Ok & H). apply bind_Ok in H as (j4 & Hj5%ok_or_Ok & H).
  rewrite Hj4 in Hj5. injection Hj5 as <-. apply bind_Ok in H as ([] & _ & H).
  apply bind_Ok in H as (res & Hres & [= <- _]). split_and!; [done..|].
  exists (job v). split; [done|]. cbn [view_result]. change (user_id j1) with (user_id (job v)) in Hres.
  destruct (user_id (job v) =? principal_user_id reader); [|by injection Hres].
  unfold stored_result in Hct. unfold result_for_consumer in Hres.
  change (confidentiality_mode j1) with (confidentiality_mode (job v)) in Hres.
  destruct (String.eqb (confidentiality_mode (job v)) "standard"); simpl in Hres.
  - apply bind_Ok in Hct as (env & He%map_err_Ok & [= -> <-]).
    rewrite bool_decide_true in Hres by done. simpl in Hres.
    apply bind_Ok in Hres as (p & Hp%map_err_Ok & [= <-]).
    rewrite (decrypt_encrypted _ _ _ _ _ _ _ _ Hnonce He), open_seal in Hp. by injection Hp as <-.
  - destruct (String.eqb _ _); [|done]. injection Hct as -> <-. by injection Hres.
Qed.

(** C6: a creation may be retried. Once it created a job, repeating the request
    answers with that job and its current status, whatever happened since, and
    changes nothing: the consumer never pays twice for one key. Another request
    under the key is only answered if it has the same fingerprint. *)
Theorem creation_idempotent st tx new_id principal connection request r st1 st2 :
  invariant st → create_job st tx new_id principal connection request = (Ok r, st1) →
  created_replay r = false → rtc step st1 st2 →
  ∃ j, jobs st2 !! new_id = Some j
  ∧ (∀ tx' id' connection', create_job st2 tx' id' principal connection' request
       = (Ok (mkCreated new_id (status j) (created_model_id r) (created_reserved_cost_micro r)
                (created_speed_class r) true), st2))
  ∧ ∀ tx' id' connection' request' r' st3,
      create_job st2 tx' id' principal connection' request' = (Ok r', st3) →
      request_idempotency_key request' = request_idempotency_key request →
      st3 = st2 ∧ created_job_id r' = new_id
      ∧ request_fingerprint_value <$> validate_create_job base64_standard_decode request'
          (standard_data_key cfg)
        = request_fingerprint_value <$> validate_create_job base64_standard_decode request
          (standard_data_key cfg).
Proof.
  intros Hinv Hc Hr Hs.
  pose proof (keeps_invariant _ _ (create_keeps _ _ _ _ _ _ _ _ _ _ _ _ _ Hinv Hc)) as Hinv1.
  apply create_admits in Hc as (validated & db & Hval & _ & _ & Ha); [|done].
  apply admit_Ok in Ha as (speed & model & b & payload & book & _ & _ & _ & _ & _ & _ & _ & _ & ->
    & _ & Est1).
  assert (jobs st1 !! new_id = Some (queued_job cfg tx principal request validated
    (selected_id model) b payload (speed_as_str (model_speed_class speed)))) as Hj1
    by (rewrite Est1; apply lookup_insert_eq).
  pose proof (keeps_invariant _ _ (steps_keep _ _ _ _ _ _ _ _ _ Hs Hinv1)) as Hinv2.
  destruct (later _ _ _ _ _ _ _ _ _ _ _ Hinv1 Hs Hj1) as (j & Hj & Hf & _).
  unfold frozen in Hf. simpl in Hf. injection Hf as Hu Hm Hk _ _ _ _ _ _ Hcost _ Hsub.
  pose proof (existing_job_unique _ _ _ Hinv2 Hj) as Hex. rewrite Hu, Hk in Hex.
  exists j. split; [done|]. split.
  - intros tx' id' connection'. unfold Admission.create_job, transaction. rewrite Hval. simpl.
    rewrite Hex. unfold existing_standard_response. simpl. rewrite Hsub. simpl.
    rewrite bool_decide_true by done. simpl. by rewrite Hm, Hcost.
  - intros tx' id' connection' request' r' st3 H%transaction_answer Hkey.
    apply bind_Ok in H as (validated' & Hval' & H). rewrite Hkey, Hex in H.
    apply bind_Ok in H as (x & Hx & [= <- <-]). unfold existing_standard_response in Hx.
    apply bind_Ok in Hx as ([] & Hb%bail_if_Ok%negb_false_iff%bool_decide_eq_true & [= <-]).
    cbn [snd] in Hb. rewrite Hsub in Hb. simpl in Hb. rewrite Hval, Hval'. simpl. by injection Hb as ->.
Qed.

(** C7: the price of a job is fixed when it is created. Whatever calls follow,
    a settlement of the job charges the base cost quoted at its creation from
    the billing profile of the selected model; the charge is within the
    reservation the creation answered with, and the usage it accepts is within
    the limits the request authorised. *)
Theorem quoted_price_settles st tx new_id principal connection request r st1 st2 tx2 cmd o st3 :
  invariant st → create_job st tx new_id principal connection request = (Ok r, st1) →
  created_replay r = false → rtc step st1 st2 →
  complete_job st2 tx2 cmd = (Ok o, st3) → idempotent_replay o = false → job_id cmd = new_id →
  ∃ b hash, load_billing_snapshot (profiles (fleet st)) (tx_now tx) (created_model_id r) hash
      (request_input_tokens request) (request_max_output_tokens request) = Ok b
  ∧ created_reserved_cost_micro r = reservation_micro b
  ∧ base_amount (amounts o) = as_i64 (quote_base_cost (quote b))
  ∧ user_deduction_micro (amounts o) ≤ created_reserved_cost_micro r
  ∧ created_reserved_cost_micro r
      ≤ spendable_of (books st) (principal_user_id principal)
        - reserved_of (books st) (principal_user_id principal)
  ∧ submitted_input_tokens cmd ≤ request_input_tokens request
  ∧ submitted_output_tokens cmd ≤ request_max_output_tokens request.
Proof.
  intros Hinv Hc Hr Hs Hset Ho Hid.
  pose proof (keeps_invariant _ _ (create_keeps _ _ _ _ _ _ _ _ _ _ _ _ _ Hinv Hc)) as Hinv1.
  apply create_admits in Hc as (validated & db & Hval & _ & _ & Ha); [|done].
  apply admit_Ok in Ha as (speed & model & b & payload & book & _ & Hb & _ & _ & _ & Hcov & _ & _ & ->
    & _ & Est1).
  assert (jobs st1 !! new_id = Some (queued_job cfg tx principal request validated
    (selected_id model) b payload (speed_as_str (model_speed_class speed)))) as Hj1
    by (rewrite Est1; apply lookup_insert_eq).
  destruct (later _ _ _ _ _ _ _ _ _ _ _ Hinv1 Hs Hj1) as (j & Hj & Hf & _).
  unfold frozen in Hf. simpl in Hf. injection Hf as _ _ _ _ _ _ _ Hin Hout Hcost Hbill _.
  apply settled_inv in Hset as (v & fp & _ & (Hv & _)%load_view_Ok & _ & _ & _ & Hset); [|done].
  rewrite Hid, Hj in Hv. injection Hv as Hv.
  apply settle_Ok in Hset as (s & hs & t & fo & ct & sv & atts & insts & digest & Hsnap & Hui & Huo
    & Ham & Hle & _). rewrite <-Hv in *.
  pose proof (snapshot_base_range _ _ _ _ Hsnap) as Hrange.
  apply settlement_amounts_Ok in Ham as (tr & c & x & _ & _ & _ & Hbase & _); [|done].
  apply from_job_row_Ok in Hsnap as (_ & _ & _ & Hcol). rewrite Hbill in Hcol. simpl in Hcol.
  injection Hcol as Hcol. exists b, (selected_weights_hash model). simpl.
  rewrite Hin in Hui. rewrite Hout in Huo. rewrite Hcost in Hle. split_and!; (done || lia || congruence).
Qed.

(** A refused creation leaves no trace, not even of the refusal. When the
    anti-abuse assessment says anything but allow, the creation answers
    [anti_abuse_blocked] and the transaction that recorded the decision is
    rolled back; so no creation, whatever its answer, ever adds a decision to
    block to the table that the transparency report counts. *)
Theorem blocked_creation_leaves_no_trace st tx new_id principal connection request :
  (∀ validated network akey d db,
     validate_create_job base64_standard_decode request (standard_data_key cfg) = Ok validated →
     existing_job st (principal_user_id principal) (request_idempotency_key request) = None →
     from_connection hmac_sha256 (peer connection) (cloudflare_header connection)
       (token_pepper cfg) asn_lookup trusted_proxy_ips = Ok network →
     job_assessment_key sha256 (principal_user_id principal) (request_idempotency_key request)
       = Ok akey →
     assess_before_create_in_transaction hmac_sha256 (abuse st)
       (mkFresh (tx_now tx) (now_v7 tx 0%nat) (now_v7 tx 1%nat)) (token_pepper cfg)
       (principal_user_id principal) (session_id principal) akey network (production cfg)
       = Ok (d, db) →
     disposition d = Block →
     create_job st tx new_id principal connection request = (Err anti_abuse_blocked, st))
  ∧ ∀ r st', create_job st tx new_id principal connection request = (r, st') →
      ∀ k row, decisions (abuse st') !! k = Some row → row_decision row = "block" →
        decisions (abuse st) !! k = Some row.
Proof.
  split.
  - intros validated network akey d db Hval Hex Hnet Hkey Hassess Hd.
    unfold Admission.create_job, transaction. rewrite Hval. simpl. rewrite Hex.
    unfold assess_job_creation. rewrite Hnet. simpl. rewrite Hkey. simpl. rewrite Hassess. simpl.
    by rewrite Hd, bool_decide_eq_false_2 by done.
  - intros r st' [->|H]%transaction_Ok k row Hrow Hblock; [done|].
    apply bind_Ok in H as (validated & _ & H). destruct (existing_job _ _ _) as [p|].
    { by apply bind_Ok in H as (x & _ & [= _ <-]). }
    apply bind_Ok in H as (st1 & H1 & H). unfold assess_job_creation in H1.
    apply bind_Ok in H1 as (network & _ & H1). apply bind_Ok in H1 as (akey & _ & H1).
    apply bind_Ok in H1 as ([d db] & Hd%map_err_Ok & H1).
    apply bind_Ok in H1 as ([] & Hallow%bail_if_Ok%negb_false_iff%bool_decide_eq_true & [= <-]).
    apply bind_Ok in H as ([r' st2] & H & [= _ <-]).
    apply admit_Ok in H as (speed & model & b & payload & book & _ & _ & _ & _ & _ & _ & _ & _ & _
      & _ & ->). simpl in Hrow.
    apply assess_decisions in Hd as [->|(new & Hnew & E)]; [done|].
    rewrite E in Hrow. apply lookup_insert_Some in Hrow as [[<- <-]|[_ Hrow]]; [|done].
    rewrite Hnew, Hallow in Hblock. done.
Qed.

(** C35: an abandoned job is ended for its consumer. When the lease of the last
    attempt ran out, the next read of the job finds it failed, together with
    every other job in that situation: the answer says so, no result is
    returned, and the accounts hold exactly what the remaining unfinished jobs
    reserved. At most a hundred such jobs wait and no regulated job waits. *)
Theorem abandoned_job_concluded st tx principal id j :
  invariant st → jobs st !! id = Some j → terminal_lease (tx_now tx) j = true →
  user_id j = principal_user_id principal →
  (terminal_count st (tx_now tx) ≤ REAP_LIMIT)%nat → no_regulated_waiting (jobs st) →
  ∃ view st', get_job cfg st tx principal id = (Ok view, st')
    ∧ view_status view = Failed ∧ view_result view = None
    ∧ jobs st' = after_reaping (tx_now tx) (jobs st)
    ∧ ∀ u, reserved_of (books st') u = reserved_total (after_reaping (tx_now tx) (jobs st)) u.
Proof.
  intros Hinv Hj Ht Hu Hlimit Hreg.
  destruct (reap_all_terminal st (tx_now tx) Hinv Hlimit) as (st1 & E & Hinv1 & Hun & Hjobs).
  assert (jobs st1 !! id = Some (job_failed j (tx_now tx))) as Hj1.
  { rewrite Hjobs. unfold after_reaping. by rewrite lookup_fmap, Hj; simpl; rewrite Ht. }
  assert (no_regulated_waiting (jobs st1)) as Hreg1.
  { intros k jk. rewrite Hjobs. unfold after_reaping. rewrite lookup_fmap, fmap_Some.
    intros (j0 & Hk & ->). destruct (terminal_lease _ j0); [done|]. by apply (Hreg k). }
  unfold get_job, transaction. rewrite E. cbn [mbind result_bind].
  rewrite (no_regulated_idle st1) by done. cbn [mbind result_bind]. rewrite Hj1.
  cbn [ok_or mbind result_bind user_id job_failed]. rewrite Hu, Z.eqb_refl. simpl.
  destruct (inv_jobs _ Hinv id j Hj) as (_ & _ & _ & _ & _ & Hres).
  assert (result_ciphertext j = None) as Hnone.
  { apply Hres. by rewrite (terminal_lease_Leased _ _ Ht). }
  unfold result_for_consumer. simpl. rewrite Hnone. destruct (String.eqb _ _); simpl;
    (do 2 eexists; split; [reflexivity|]; split_and!; [done|done|done|];
     intros u; rewrite <-Hjobs; apply Hinv1).
Qed.

(** a worker may report a failure any number of times. Once a report was
    accepted, the same report is answered as a replay in every later
    transaction on that database and changes nothing; and whoever is answered
    under its key sent the same node, class, message and retry flag from the
    same user and device. *)
Theorem failure_report_idempotent st tx principal id request r st' :
  invariant st → job_fail st tx principal id request = (Ok r, st') →
  fail_idempotent_replay r = false →
  (∀ tx', job_fail st' tx' principal id request = (Ok (mkFailResponse id true true), st'))
  ∧ ∀ tx' principal' request' r' st'',
      job_fail st' tx' principal' id request' = (Ok r', st'') →
      fail_idempotency_key request' = fail_idempotency_key request →
      r' = mkFailResponse id true true ∧ st'' = st'
      ∧ fail_node_id request' = fail_node_id request
      ∧ fail_error_class request' = fail_error_class request
      ∧ fail_error_message request' = fail_error_message request
      ∧ retryable request' = retryable request
      ∧ principal_user_id principal' = principal_user_id principal
      ∧ device_key_id_of principal' = device_key_id_of principal.
Proof.
  intros Hinv H Hr. destruct (first_report _ _ _ _ _ _ _ Hinv H Hr)
    as (Hval & Hown & j & n & a & _ & _ & _ & Ho & Hdev & Hnode & Hc & Hm & Hrt & _ & En & Hrep).
  split.
  - intros tx'. unfold job_fail, transaction. rewrite Hval. simpl.
    assert (verify_node_owner st' principal (fail_node_id request) = Ok tt) as ->.
    { unfold verify_node_owner. by rewrite En. }
    simpl. unfold fail_tx. rewrite Hrep. unfold replay_failure.
    rewrite Ho, Hnode, !Z.eqb_refl, <-Ho, Hdev, Hc, Hm, Hrt. simpl.
    by rewrite !bool_decide_true by done.
  - intros tx' principal' request' r' st'' H' Hkey. apply transaction_answer in H'.
    apply bind_Ok in H' as ([] & _ & H'). apply bind_Ok in H' as ([] & _ & H').
    unfold fail_tx in H'. rewrite Hkey, Hrep in H'. apply bind_Ok in H' as (x & Hx & [= <- <-]).
    unfold replay_failure in Hx. apply bind_Ok in Hx as ([] & Hb1%bail_if_Ok & Hx).
    apply bind_Ok in Hx as ([] & Hb2%bail_if_Ok & [= <-]).
    rewrite !orb_false_iff, !negb_false_iff, !Z.eqb_eq in Hb1.
    rewrite !orb_false_iff, !negb_false_iff, !bool_decide_eq_true, Hc, Hm, Hrt in Hb2.
    destruct Hb1 as [[Ho' Hn'] Hd'], Hb2 as [[[= Hc'] [= Hm']] [= Hr']].
    unfold exact_claim_device_binding in Hdev, Hd'.
    rewrite !andb_true_iff, !bool_decide_eq_true in Hdev, Hd'.
    destruct Hdev as [[_ Hdk] _], Hd' as [[_ Hdk'] _].
    split_and!; try congruence. by apply job_error_class_key_inj.
Qed.
End journeys.
