(* ===== verification/Witnesses.v ===== *)
(** * A small world in which the theorems about jobs apply

    Consumer 1 and worker 2 with node 6, which publishes instance 4 of model 3;
    the concrete calls of the witnesses start here. *)
From S2P Require Import Prelude Text Float64 Fixed Tier Policy Routing Billing Ledger Net AntiAbuse StandardData Hardware Fingerprint Store Envelope Api Snapshot Tables Lease Postings Complete Settled Requests Quotes Dispatch DispatchSpec JobOps RegulatedRoutes Admission RegulatedJobs Selection Lifecycle Progress RegulatedSpec Reservations Journeys.

Local Open Scope string_scope.
Local Open Scope list_scope.
Local Open Scope Z_scope.

#[export] Instance sample_collation : Collation := { sql_lower s := s }.

#[export] Instance sample_json : JobJson := {
  Json := string;
  as_object_keys _ := Some ["model"; "prompt"; "max_tokens"];
  to_vec s := Some s;
  parse_payload s := Some (mkPayload OPENAI_COMPLETIONS s);
  parse_chat _ := None;
  parse_completions s :=
    Some (mkCompletions "m" (OnePrompt s) false (Some 10) None None None None None);
  encode_create_job r := Some (request_idempotency_key r +:+ request_payload r);
}.

#[export] Instance sample_regulated_json : RegulatedJson := {
  encode_prepare r := Some (prepare_idempotency_key r);
  encode_create_regulated r := Some (regulated_idempotency_key r);
  encode_envelope e := Some (ciphertext e);
}.

#[export] Instance sample_profile_json : Nodes.ProfileJson := {
  encode_profile p := Some (operating_system p);
}.

Definition world_config : Config := mkConfig sample_pepper sample_pepper 60 0 false.
Definition world_consumer : Principal := mkPrincipal 1 10 20.
Definition world_worker : Principal := mkPrincipal 2 11 7.

Definition world_profile : ServerReferenceBillingProfile :=
  mkProfile 4096 1024 100000 2000000 8192 10000 2000 3000.

Definition world_fleet : Fleet :=
  mkFleet {[6 := mkPolicyRow [] 2 None 0]} ∅
    [mkProfileRow 1 SERVER_REFERENCE_UPPER_BOUND_V1 1 "f" 3 "w" "nvidia-l4" "e" 0 86400000000
       world_profile] ∅ ∅ [].

Definition world : State :=
  mkState sample_granted
    (mkDb {[10 := mkSession 1 (Some 20) false]} {[20 := mkDeviceKey 1 "device-c" false]} [] ∅ ∅)
    (mkTelemetryDb ∅ [])
    {[6 := mkNode 2 (Some 7) "online" (Some 0) "standard" None None "gpu-profile" "n"
       (mkStanding None 0 0 None 0)]}
    {[3 := mkModel "m" "w" 4294967296 "high" true 1000 4096 500000 500000 0 2 "gguf"]}
    {[4 := mkInstance 3 6 Published None [] "m" 0]} ∅ ∅ ∅ world_fleet ∅ ∅ ∅.

Definition world_request : CreateJobRequest := mkCreateJob "m" "hello" Base64 [] 1100 10 "job-1" 0.

(** Identifiers as text: a sign and as many strokes. *)
Fixpoint strokes (n : nat) : string := match n with O => "" | S n => "I" +:+ strokes n end.
Definition world_uuid (z : Z) : string :=
  if 0 <=? z then "p" +:+ strokes (Z.to_nat z) else "n" +:+ strokes (Z.to_nat (- z)).
Definition world_parse (s : string) : option Z :=
  match strip_prefix "u" s with Some t => if String.eqb t "3" then Some 3 else None | None => None end.

Definition world_create (st : State) (tx : Tx) (r : CreateJobRequest) :=
  create_job world_config (λ _, None) ∅ (λ s, Some s) world_parse st tx 5 world_consumer
    (mkConnection None None) r.

(** *** Creation, claim, completion and reading *)

Definition world_created := world_create world (sample_tx 1000) world_request.
Definition world_job : CreateJobResponse :=
  ok_default (mkCreated 0 Failed 0 0 "" true) world_created.1.
Definition world_queued : State := world_created.2.

Lemma world_created_eq :
  world_create world (sample_tx 1000) world_request = (Ok world_job, world_queued).
Proof.
  apply (answered (mkCreated 0 Failed 0 0 "" true) world_created). vm_cast_no_check (eq_refl true).
Qed.

Lemma world_job_new : created_replay world_job = false.
Proof. vm_cast_no_check (eq_refl false). Qed.

Definition world_claim (st : State) (tx : Tx) :=
  claim_job world_config st tx world_worker (mkClaim 6 4).
Definition no_claim : ClaimJobResponse :=
  mkClaimResponse 0 0 "" "" "" Base64 [] 0 0 0 0 Requests.Standard None None None None.
Definition world_claimed := world_claim world_queued (sample_tx 2000).
Definition world_response : ClaimJobResponse :=
  default no_claim (ok_default None world_claimed.1).
Definition world_leased : State := world_claimed.2.

Lemma claimed_some (r : ApiResult (option ClaimJobResponse) * State) :
  is_ok r.1 = true → bool_decide (is_Some (ok_default None r.1)) = true →
  r = (Ok (Some (default no_claim (ok_default None r.1))), r.2).
Proof. destruct r as [[[x|]|e] s]; simpl; (done || discriminate). Qed.

Lemma world_claimed_eq : world_claim world_queued (sample_tx 2000) = (Ok (Some world_response), world_leased).
Proof.
  apply (claimed_some world_claimed); [vm_cast_no_check (eq_refl true)|vm_cast_no_check (eq_refl true)].
Qed.

Lemma world_response_job : claimed_job_id world_response = created_job_id world_job.
Proof. transitivity 5; [vm_cast_no_check (eq_refl 5)|symmetry; vm_cast_no_check (eq_refl 5)]. Qed.

Definition world_command : CompleteJob :=
  mkCompleteJob 5 6 2 7 "result-1" "answer" 12 8 sample_telemetry.
Definition world_complete (st : State) (tx : Tx) (cmd : CompleteJob) :=
  complete_job (λ _, None) (λ _, Some "snapshot") (standard_data_key world_config) st tx cmd.
Definition world_completed := world_complete world_leased (sample_tx 3000) world_command.
Definition world_outcome : SettlementOutcome := ok_default sample_default world_completed.1.
Definition world_done : State := world_completed.2.

Lemma world_completed_eq :
  complete_job (λ _, None) (λ _, Some "snapshot") (standard_data_key world_config) world_leased
    (sample_tx 3000) world_command = (Ok world_outcome, world_done).
Proof. apply (answered sample_default world_completed). vm_cast_no_check (eq_refl true). Qed.

Lemma world_outcome_new : idempotent_replay world_outcome = false.
Proof. vm_cast_no_check (eq_refl false). Qed.

Lemma sample_granted_reserved u : reserved_of sample_granted u = 0.
Proof.
  assert (insert_quota sample_accounts sample_grant = Ok sample_granted) as H
    by (apply is_ok_Ok; vm_compute; reflexivity).
  apply insert_quota_Ok in H as (a & Ha & _ & _ & _ & _ & _ & ->).
  assert (∀ v b, accounts sample_accounts !! v = Some b → reserved_micro b = 0) as H0.
  { intros v b. unfold sample_accounts. cbn [accounts].
    rewrite lookup_insert_Some, lookup_singleton_Some. by intros [[_ <-]|[_ [_ <-]]]. }
  unfold balance_of. cbn [accounts]. destruct (decide (u = account_id sample_grant)) as [->|Hne].
  - rewrite lookup_insert_eq. simpl. by eapply H0.
  - rewrite lookup_insert_ne by done. destruct (accounts sample_accounts !! u) eqn:E; [|done].
    simpl. by eapply H0.
Qed.

(** The calls as steps of the system. *)
Definition world_step : State → State → Prop :=
  step world_config (λ _, None) ∅ (λ s, Some s) world_parse (λ _, None) (λ _, Some "snapshot").

Lemma world_initial : initial world.
Proof. split_and!; [done|done|done|apply sample_granted_ok|apply sample_granted_reserved]. Qed.

Lemma world_step_create : world_step world world_queued.
Proof.
  exact (step_call world_config (λ _, None) ∅ (λ s, Some s) world_parse (λ _, None)
    (λ _, Some "snapshot") world
    (Create (sample_tx 1000) 5 world_consumer (mkConnection None None) world_request)).
Qed.

Lemma world_step_claim : world_step world_queued world_leased.
Proof.
  exact (step_call world_config (λ _, None) ∅ (λ s, Some s) world_parse (λ _, None)
    (λ _, Some "snapshot") world_queued (Claim (sample_tx 2000) world_worker (mkClaim 6 4))).
Qed.

Lemma world_step_complete : world_step world_leased world_done.
Proof.
  exact (step_call world_config (λ _, None) ∅ (λ s, Some s) world_parse (λ _, None)
    (λ _, Some "snapshot") world_leased (Complete (sample_tx 3000) world_command)).
Qed.

Definition world_reachable : State → Prop :=
  reachable world_config (λ _, None) ∅ (λ s, Some s) world_parse (λ _, None)
    (λ _, Some "snapshot").

Lemma world_leased_reachable : world_reachable world_leased.
Proof.
  exists world. split; [exact world_initial|].
  eapply rtc_l; [exact world_step_create|]. eapply rtc_l; [exact world_step_claim|]. apply rtc_refl.
Qed.

Lemma world_queued_reachable : world_reachable world_queued.
Proof.
  exists world. split; [exact world_initial|].
  eapply rtc_l; [exact world_step_create|]. apply rtc_refl.
Qed.

Lemma world_invariant : invariant world.
Proof. apply invariant_initial; [done|done|done|apply sample_granted_ok|apply sample_granted_reserved]. Qed.

Lemma world_leased_invariant : invariant world_leased.
Proof. exact (reachable_invariant _ _ _ _ _ _ _ _ world_leased_reachable). Qed.

Definition leased_job : JobRow := default (mkJob 0 0 None "" Failed "" None None None 0 0 0 sample_row
  None None 0 None None None None None None None sample_submission 0) (jobs world_leased !! 5).

Lemma some_default {A} (d : A) (o : option A) :
  bool_decide (is_Some o) = true → o = Some (default d o).
Proof. destruct o; [done|discriminate]. Qed.

Lemma leased_job_eq : jobs world_leased !! 5 = Some leased_job.
Proof. apply some_default. vm_cast_no_check (eq_refl true). Qed.

Definition queued_job_row : JobRow := default leased_job (jobs world_queued !! 5).

Lemma queued_job_eq : jobs world_queued !! 5 = Some queued_job_row.
Proof. apply some_default. vm_cast_no_check (eq_refl true). Qed.

(** ** Reservations *)

Lemma reservations_match_jobs_witness :
  reserved_of (books world_leased) 1 = reserved_total (jobs world_leased) 1.
Proof.
  exact (proj1 (reservations_match_jobs world_config (λ _, None) ∅ (λ s, Some s) world_parse
    (λ _, None) (λ _, Some "snapshot") world_leased world_leased_reachable) 1).
Defined.

Lemma job_rows_agree_witness : attempt_count leased_job ≤ max_attempts (submission leased_job).
Proof.
  exact (proj2 (proj1 (job_rows_agree world_config (λ _, None) ∅ (λ s, Some s) world_parse
    (λ _, None) (λ _, Some "snapshot") world_leased 5 leased_job world_leased_reachable
    leased_job_eq))).
Defined.

Lemma job_lifetime_bounded_witness :
  moves 5 world_queued [world_leased; world_done]
    ≤ 2 * (max_attempts (submission queued_job_row) - attempt_count queued_job_row) + 2.
Proof.
  exact (proj1 (job_lifetime_bounded world_config (λ _, None) ∅ (λ s, Some s) world_parse
    (λ _, None) (λ _, Some "snapshot") world_queued 5 queued_job_row [world_leased; world_done]
    world_queued_reachable queued_job_eq (conj world_step_claim (conj world_step_complete I)))).
Defined.

(** ** Journeys *)

Lemma payload_reaches_worker_witness : claimed_payload world_response = request_payload world_request.
Proof.
  exact (proj1 (payload_reaches_worker world_config (λ _, None) ∅ (λ s, Some s) world_parse
    (λ _, None) (λ _, Some "snapshot") world (sample_tx 1000) 5 world_consumer
    (mkConnection None None) world_request world_job world_queued world_queued (sample_tx 2000)
    world_worker (mkClaim 6 4) world_response world_leased world_invariant eq_refl
    world_created_eq world_job_new (rtc_refl _ _) world_claimed_eq world_response_job)).
Defined.

Definition world_read := get_job world_config world_done (sample_tx 4000) world_consumer 5.
Definition no_view : JobStatusView :=
  mkStatusView Failed 0 None None 0 0 None None None None None None.

Lemma world_read_eq :
  get_job world_config world_done (sample_tx 4000) world_consumer 5
    = (Ok (ok_default no_view world_read.1), world_read.2).
Proof. apply (answered no_view world_read). vm_cast_no_check (eq_refl true). Qed.

Lemma result_reaches_consumer_witness :
  view_status (ok_default no_view world_read.1) = Succeeded
  ∧ view_input_tokens (ok_default no_view world_read.1) = Some 12.
Proof.
  pose proof (result_reaches_consumer world_config (λ _, None) ∅ (λ s, Some s) world_parse
    (λ _, None) (λ _, Some "snapshot") world_leased (sample_tx 3000) world_command world_outcome
    world_done world_done (sample_tx 4000) world_consumer _ _ world_leased_invariant eq_refl
    world_completed_eq world_outcome_new (rtc_refl _ _) world_read_eq) as (H1 & H2 & _).
  exact (conj H1 H2).
Defined.

Lemma creation_idempotent_witness :
  ∃ j, jobs world_leased !! 5 = Some j
  ∧ ∀ tx', world_create world_leased tx' world_request
      = (Ok (mkCreated 5 (status j) (created_model_id world_job)
               (created_reserved_cost_micro world_job) (created_speed_class world_job) true),
         world_leased).
Proof.
  destruct (creation_idempotent world_config (λ _, None) ∅ (λ s, Some s) world_parse
    (λ _, None) (λ _, Some "snapshot") world (sample_tx 1000) 5 world_consumer
    (mkConnection None None) world_request world_job world_queued world_leased world_invariant
    world_created_eq world_job_new (rtc_once _ _ world_step_claim)) as (j & Hj & H & _).
  exists j. split; [exact Hj|]. intros tx'. exact (H tx' 5 (mkConnection None None)).
Defined.

Lemma quoted_price_settles_witness :
  user_deduction_micro (amounts world_outcome) ≤ created_reserved_cost_micro world_job.
Proof.
  destruct (quoted_price_settles world_config (λ _, None) ∅ (λ s, Some s) world_parse
    (λ _, None) (λ _, Some "snapshot") world (sample_tx 1000) 5 world_consumer
    (mkConnection None None) world_request world_job world_queued world_leased (sample_tx 3000)
    world_command world_outcome world_done world_invariant world_created_eq world_job_new
    (rtc_once _ _ world_step_claim) world_completed_eq world_outcome_new eq_refl)
    as (b & hash & _ & _ & _ & H & _).
  exact H.
Defined.

(** The worker reports a failure of the same lease. *)
Definition world_report : JobFailRequest := mkJobFail 6 "failure-1" Engine "engine stopped" true.
Definition world_failed := job_fail world_leased (sample_tx 3000) world_worker 5 world_report.
Definition no_answer : JobFailResponse := mkFailResponse 0 false true.

Lemma world_failed_eq :
  job_fail world_leased (sample_tx 3000) world_worker 5 world_report
    = (Ok (ok_default no_answer world_failed.1), world_failed.2).
Proof. apply (answered no_answer world_failed). vm_cast_no_check (eq_refl true). Qed.

Lemma world_failed_new : fail_idempotent_replay (ok_default no_answer world_failed.1) = false.
Proof. vm_cast_no_check (eq_refl false). Qed.

Lemma failure_report_idempotent_witness :
  job_fail world_failed.2 (sample_tx 9000) world_worker 5 world_report
    = (Ok (mkFailResponse 5 true true), world_failed.2).
Proof.
  exact (proj1 (failure_report_idempotent world_leased (sample_tx 3000) world_worker 5 world_report
    _ world_failed.2 world_leased_invariant world_failed_eq world_failed_new) (sample_tx 9000)).
Defined.

(** Long after the only lease ended. *)
Definition world_later : Tx := sample_tx 10000000000000000.

Lemma world_abandoned : terminal_lease (tx_now world_later) leased_job = true.
Proof. vm_cast_no_check (eq_refl true). Qed.

Lemma world_few : (terminal_count world_leased (tx_now world_later) <=? REAP_LIMIT)%nat = true.
Proof. vm_cast_no_check (eq_refl true). Qed.

Lemma world_no_regulated :
  forallb (λ p, negb (String.eqb (confidentiality_mode p.2) "regulated"))
    (map_to_list (jobs world_leased)) = true.
Proof. vm_cast_no_check (eq_refl true). Qed.

Lemma no_regulated_waiting_b js :
  forallb (λ p : Z * JobRow, negb (String.eqb (confidentiality_mode p.2) "regulated"))
    (map_to_list js) = true → no_regulated_waiting js.
Proof.
  intros H id j Hj Hc. rewrite forallb_forall in H. specialize (H (id, j)).
  rewrite <-list_elem_of_In, elem_of_map_to_list in H. specialize (H Hj). simpl in H.
  by rewrite Hc in H.
Qed.

Lemma leased_job_owner : user_id leased_job = principal_user_id world_consumer.
Proof. vm_cast_no_check (eq_refl 1). Qed.

Lemma abandoned_job_concluded_witness :
  ∃ view st', get_job world_config world_leased world_later world_consumer 5 = (Ok view, st')
    ∧ view_status view = Failed.
Proof.
  destruct (abandoned_job_concluded world_config world_leased world_later world_consumer 5 leased_job
    world_leased_invariant leased_job_eq world_abandoned leased_job_owner
    (proj1 (Nat.leb_le _ _) world_few) (no_regulated_waiting_b _ world_no_regulated))
    as (view & st' & H1 & H2 & _).
  exists view, st'. exact (conj H1 H2).
Defined.

(** A regulated job that waits for node 6, which no report vouches for. *)
Definition waiting_job (mode : string) : JobRow :=
  mkJob 1 3 (Some 4) "job-1" Queued mode (Some 8) (Some 6) (Some 9) 40 10 90000 sample_row
    None None 0 None None None None None None None sample_submission 0.

Definition waiting_route : RouteRow :=
  mkRoute 1 "route-1" None None 3 4 6 9 (job_tags sample_submission) 40 10
    (priority sample_submission) Consumed 0 1000 (Some 0) (Some 5) sample_row.

Definition world_unbound : State :=
  mkState sample_books (abuse world) (telemetry world) (nodes world) (models world)
    (instances world)
    {[9 := mkReport 6 (Some 4) (Some "w") "verified" "tee_runtime" 5000 true (Some 5000) true true
             true None "amd_sev_snp"
             (mkEvidence None None None None None None "p" "r" 0 None)]}
    ∅ ∅ (mkFleet (policies world_fleet) ∅ (profiles world_fleet) {[8 := waiting_route]} ∅ [])
    {[5 := waiting_job "regulated"]} ∅ ∅.

Lemma world_unbound_invariant : invariant world_unbound.
Proof.
  split.
  - apply sample_books_ok.
  - intros u. cbn [books world_unbound jobs].
    assert (update_reserved sample_granted 1 90000 (λ _, true) = Ok sample_books) as H
      by (apply is_ok_Ok; vm_compute; reflexivity).
    apply update_reserved_moved in H as ((Hm & _) & _). destruct (Hm u) as (_ & -> & _).
    rewrite sample_granted_reserved. unfold reserved_total.
    change {[5 := waiting_job "regulated"]} with (<[5 := waiting_job "regulated"]> (∅ : gmap Z JobRow)).
    rewrite job_sum_insert_new by done. unfold hold_of, hold, to_user. cbn [user_id waiting_job].
    rewrite (Z.eqb_sym u). by destruct (1 =? u).
  - intros id j. cbn [jobs world_unbound]. rewrite lookup_singleton_Some. intros [<- <-].
    split_and!; try done; try (vm_compute; done).
  - intros id n [a Ha]. cbn [attempts world_unbound] in Ha. by rewrite lookup_empty in Ha.
  - intros id id' j j'. cbn [jobs world_unbound]. rewrite !lookup_singleton_Some.
    by intros [<- _] [<- _].
  - cbn [regulated_routes fleet jobs world_unbound]. split.
    + intros id j rt. rewrite lookup_singleton_Some. intros [<- <-] [= <-]. by exists waiting_route.
    + intros rt r id. rewrite lookup_singleton_Some. intros [<- <-] [= <-]. split; [done|].
      exists (waiting_job "regulated"). by rewrite lookup_singleton_eq.
    + intros rt r. rewrite lookup_singleton_Some. intros [<- <-] _. by exists 5.
    + intros rt rt' r r'. rewrite !lookup_singleton_Some. by intros [<- _] [<- _].
Qed.

Lemma unbound_regulated_job_blocks_witness :
  get_job world_config world_unbound (sample_tx 2000) world_consumer 99
    = (Err internal, world_unbound).
Proof.
  exact (proj1 (unbound_regulated_job_blocks world_config world_unbound 5 (waiting_job "regulated")
    2000 world_unbound_invariant eq_refl eq_refl) (sample_tx 2000) world_consumer 99 eq_refl).
Defined.

(** A user whose device four accounts share is refused. *)
Definition crowded : AntiAbuse.Db :=
  mkDb {[10 := mkSession 1 (Some 20) false]}
    {[20 := mkDeviceKey 1 "device-c" false; 21 := mkDeviceKey 3 "device-c" false;
      22 := mkDeviceKey 4 "device-c" false; 23 := mkDeviceKey 5 "device-c" false;
      24 := mkDeviceKey 6 "device-c" false; 25 := mkDeviceKey 7 "device-c" false]} [] ∅ ∅.
Definition world_crowded : State := with_abuse world crowded.

Definition crowded_assessed :=
  assess_before_create_in_transaction hmac_sha256 crowded (mkFresh 1000 1000 1001) sample_pepper 1 10
    (ok_default "" (job_assessment_key sha256 1 "job-1")) None false.

Lemma blocked_creation_leaves_no_trace_witness :
  world_create world_crowded (sample_tx 1000) world_request = (Err anti_abuse_blocked, world_crowded).
Proof.
  refine (proj1 (blocked_creation_leaves_no_trace world_config (λ _, None) ∅ (λ s, Some s) world_parse
    world_crowded (sample_tx 1000) 5 world_consumer (mkConnection None None) world_request)
    (ok_default (mkValidated "" false)
       (validate_create_job (λ s, Some s) world_request (standard_data_key world_config)))
    None (ok_default "" (job_assessment_key sha256 1 "job-1"))
    (ok_default (mkDecision Block 0 0 [], sample_db) crowded_assessed).1
    (ok_default (mkDecision Block 0 0 [], sample_db) crowded_assessed).2 _ _ _ _ _ _).
  - apply is_ok_Ok. vm_compute. reflexivity.
  - reflexivity.
  - reflexivity.
  - apply is_ok_Ok. vm_compute. reflexivity.
  - assert (crowded_assessed = Ok (ok_default (mkDecision Block 0 0 [], sample_db) crowded_assessed))
      as E by (apply is_ok_Ok; vm_compute; reflexivity).
    rewrite <-surjective_pairing. exact E.
  - vm_compute. reflexivity.
Defined.

(** ** Selection, dispatch and quotes *)

Lemma strokes_length n : String.length (strokes n) = n.
Proof.
  induction n as [|n IH]; [done|]. change (S (String.length (strokes n)) = S n). by rewrite IH.
Qed.

Definition uuid_strokes (s : string) : option Z :=
  match s with
  | String.String a t =>
    let n := Z.of_nat (String.length t) in Some (if String.eqb (String.String a "") "p" then n else - n)
  | _ => None
  end.

Lemma uuid_strokes_back z : uuid_strokes (world_uuid z) = Some z.
Proof.
  unfold world_uuid. destruct (Z.leb_spec 0 z).
  - change (Some (Z.of_nat (String.length (strokes (Z.to_nat z)))) = Some z).
    rewrite strokes_length. f_equal. lia.
  - change (Some (- Z.of_nat (String.length (strokes (Z.to_nat (- z))))) = Some z).
    rewrite strokes_length. f_equal. lia.
Qed.

Definition world_selected := select_model world_uuid uuid_strokes world 1000 "m" [] 1100 10.

Definition world_choice : SelectedModel := ok_default (mkSelected 0 "") world_selected.

Lemma world_selected_eq :
  select_model world_uuid uuid_strokes world 1000 "m" [] 1100 10 = Ok world_choice.
Proof.
  assert (is_ok world_selected = true) as E by (vm_cast_no_check (eq_refl true)).
  exact (is_ok_Ok (mkSelected 0 "") world_selected E).
Qed.

Lemma selected_model_is_best_witness : ∃ m, models world !! selected_id world_choice = Some m.
Proof.
  destruct (selected_model_is_best world_uuid uuid_strokes world 1000 "m" [] 1100 10 world_choice
    uuid_strokes_back world_selected_eq) as ((m & _ & _ & H & _) & _).
  exists m. exact H.
Defined.

Definition world_ready : State := with_jobs world {[5 := waiting_job "standard"]}.

Lemma world_cohort_one : length (node_cohort world_ready 2000 5 (waiting_job "standard")) = 1%nat.
Proof. vm_compute. reflexivity. Qed.

Lemma one_element {A} (l : list A) x y : length l = 1%nat → x ∈ l → y ∈ l → x = y.
Proof.
  destruct l as [|a [|]]; try done. intros _ ->%list_elem_of_singleton ->%list_elem_of_singleton. done.
Qed.

Lemma world_names :
  forallb (λ r, is_ok (validate_identifier (world_uuid (ranked_node r)) "贡献路由候选 ID"))
    (node_cohort world_ready 2000 5 (waiting_job "standard")) = true.
Proof. vm_compute. reflexivity. Qed.

Lemma dispatch_order_is_contribution_ranking_witness :
  is_ok (rank_contribution_candidates
    (contribution_candidates world_uuid (node_cohort world_ready 2000 5 (waiting_job "standard")))
    (ready_demand world_ready 2000 (waiting_job "standard"))
    (free_slots_total (node_cohort world_ready 2000 5 (waiting_job "standard")))) = true.
Proof.
  refine (match dispatch_order_is_contribution_ranking world_uuid world_ready 2000 5
    (waiting_job "standard") eq_refl _ _ _ with ex_intro _ r (conj H _) => _ end).
  - split; [intros n m Hm|intros n r Hr]; exfalso.
    + exact (lookup_empty_Some n m Hm).
    + exact (lookup_empty_Some n r Hr).
  - intros x y Hx Hy. rewrite (one_element _ x y world_cohort_one Hx Hy).
    rewrite Z.compare_refl. apply cmp_refl, _.
  - intros r Hr. pose proof world_names as Hn. rewrite forallb_forall in Hn.
    apply list_elem_of_In in Hr. specialize (Hn r Hr).
    destruct (validate_identifier _ _) as [[]|]; [reflexivity|discriminate Hn].
  - rewrite H. reflexivity.
Defined.

Lemma claimed_job_may_be_served_witness :
  attempt_count (waiting_job "standard") < max_attempts (submission (waiting_job "standard")).
Proof.
  exact (proj1 (proj2 (proj2 (proj2 (claimed_job_may_be_served world_ready 2000 6 4 5
    (waiting_job "standard") ltac:(vm_compute; reflexivity)))))).
Defined.

Definition world_quote := load_billing_snapshot (profiles world_fleet) 1000 3 "w" 1100 10.
Definition no_billing : BillingSnapshot :=
  mkBilling (mkBillingProfile "" 0 0 "" "" "" "" 0 0 world_profile) 0 0
    (mkQuote 0 0 0 (mkMicroQuota 0) (mkMicroQuota 0) (mkMicroQuota 0) (mkMicroQuota 0)) 0.

Lemma frozen_quote_reads_back_witness :
  from_frozen_row (frozen_columns (ok_default no_billing world_quote)) "w"
    = Ok (ok_default no_billing world_quote).
Proof.
  refine (frozen_quote_reads_back (profiles world_fleet) 1000 3 "w" 1100 10 _ _).
  exact (is_ok_Ok no_billing world_quote ltac:(vm_compute; reflexivity)).
Defined.
