(* ===== verification/RegulatedWitnesses.v ===== *)
(** * The theorems on regulated routes at a concrete world

    Node 6 of [world] with attested hardware: the consumer prepares a route,
    asks for it again, and redeems it. *)
From S2P Require Import Prelude Text Float64 Fixed Tier Policy Routing Billing Ledger Net AntiAbuse StandardData Hardware Fingerprint Store Envelope Api Snapshot Tables Lease Postings Complete Settled Requests Quotes Dispatch DispatchSpec JobOps RegulatedRoutes Admission RegulatedJobs Lifecycle Progress RegulatedSpec Reservations Journeys Witnesses.

Local Open Scope string_scope.
Local Open Scope list_scope.
Local Open Scope Z_scope.

(** Both clocks agree. *)
Definition steady_tx (n : Z) : Tx := mkTx n (λ i, n + Z.of_nat i) (λ _, nanos n) "nonce-nonce-".

Definition attested_report : ReportRow :=
  mkReport 6 (Some 4) (Some "w") "verified" "tee_runtime" 10000000000 true (Some 10000000000)
    true true true (Some "node-key") "amd_sev_snp"
    (mkEvidence (Some 30) (Some "snp_extended_report") (Some "evidence") (Some "digest")
       (Some "data") (Some "measurement") "policy" "runtime" 0 (Some 0)).

Definition attested : State :=
  mkState (books world) (abuse world) (telemetry world)
    {[6 := mkNode 2 (Some 7) "online" (Some 0) "enhanced" (Some 10000000000) (Some 9) "gpu-profile" "n"
       (mkStanding None 0 0 None 0)]}
    (models world) (instances world) {[9 := attested_report]} ∅ ∅
    (mkFleet (policies world_fleet) ∅ (profiles world_fleet) ∅ {[30 := "challenge-nonce"]} []) ∅ ∅ ∅.

Definition prepare_request : PrepareRegulatedJobRequest := mkPrepare "m" [] 40 10 "route-1" 0.
Definition no_route : PrepareRegulatedJobResponse :=
  mkPrepared 0 0 0 0 0 true (mkRouteAttestation 0 0 0 0 AmdSevSnp TdxQuote "" "" "" "" "" "" "" "" "" 0 0 0 0).

Definition prepared_answer := prepare_regulated_job attested (steady_tx 1000) world_consumer prepare_request.
Definition prepared_response : PrepareRegulatedJobResponse := ok_default no_route prepared_answer.1.
Definition prepared : State := prepared_answer.2.

Lemma prepared_eq :
  prepare_regulated_job attested (steady_tx 1000) world_consumer prepare_request
  = (Ok prepared_response, prepared).
Proof. apply (answered no_route prepared_answer). vm_cast_no_check (eq_refl true). Qed.


(** *** The route *)


Lemma attested_initial : initial attested.
Proof. split_and!; [done|done|done|apply sample_granted_ok|apply sample_granted_reserved]. Qed.

Lemma attested_invariant : invariant attested.
Proof.
  destruct attested_initial as (Hj & Ha & Hf & Hb & Hr). by apply invariant_initial.
Qed.

Lemma prepared_lasts : tx_now (steady_tx 2000) < to_timestamp (prepared_expires_at prepared_response).
Proof. apply Z.ltb_lt. vm_cast_no_check (eq_refl true). Qed.

Lemma prepare_idempotent_witness :
  ∃ again st', prepare_regulated_job prepared (steady_tx 2000) world_consumer prepare_request
      = (Ok again, st')
    ∧ prepared_route_id again = prepared_route_id prepared_response ∧ prepared_replay again = true.
Proof.
  eexists _, _. split.
  - exact (prepare_idempotent attested (steady_tx 1000) (steady_tx 2000) world_consumer prepare_request
      prepared_response prepared attested_invariant prepared_eq prepared_lasts).
  - split; reflexivity.
Defined.

(** *** The job *)

Definition sender_key : string := "1111111111111111111111111111111111111111111111111111111111111111".
Definition sealed_envelope : RegulatedEnvelope :=
  mkEnvelope 1 REGULATED_ALGORITHM RequestDirection 1000 9 4 sender_key "nonce-nonce-"
    "an-opaque-ciphertext".
Definition redeem_request : CreateRegulatedJobRequest := mkCreateRegulated 1000 sealed_envelope "job-1".

Definition world_redeem (st : State) :=
  create_regulated_job world_config (λ _, None) ∅ st (steady_tx 2000) 5 world_consumer
    (mkConnection None None) redeem_request.
Definition no_job : RegulatedJobResponse := mkRegulatedJob 0 Failed 0 0 true.
Definition redeemed_answer := world_redeem prepared.
Definition redeemed_response : RegulatedJobResponse := ok_default no_job redeemed_answer.1.
Definition redeemed_state : State := redeemed_answer.2.

Lemma redeemed_eq :
  create_regulated_job world_config (λ _, None) ∅ prepared (steady_tx 2000) 5 world_consumer
    (mkConnection None None) redeem_request = (Ok redeemed_response, redeemed_state).
Proof. apply (answered no_job redeemed_answer). vm_cast_no_check (eq_refl true). Qed.

Lemma redeemed_new : regulated_replay redeemed_response = false.
Proof. vm_cast_no_check (eq_refl false). Qed.

Lemma redemption_binds_route_witness :
  ∃ j, jobs redeemed_state = <[5 := j]> (jobs prepared)
    ∧ reserved_cost_micro j = regulated_reserved_cost redeemed_response.
Proof.
  destruct (redemption_binds_route _ _ _ _ _ _ _ _ _ _ _ redeemed_eq redeemed_new)
    as (r & ar & m & billing & j & r' & p & _ & _ & _ & _ & _ & _ & _ & _ & _ & _ & H1 & _ & _ & _ & _
        & H2 & H3 & _).
  exists j. split; [exact H1|].
  exact (eq_trans (f_equal snd H2) (eq_sym (f_equal snd H3))).
Defined.

(** *** Along a run *)

Definition attested_step : State → State → Prop :=
  step world_config (λ _, None) ∅ (λ s, Some s) world_parse (λ _, None) (λ _, Some "snapshot").

Lemma redeemed_reachable :
  reachable world_config (λ _, None) ∅ (λ s, Some s) world_parse (λ _, None) (λ _, Some "snapshot")
    redeemed_state.
Proof.
  exists attested. split; [exact attested_initial|].
  eapply (rtc_l attested_step _ prepared);
    [exact (step_call _ _ _ _ _ _ _ attested (Prepare (steady_tx 1000) world_consumer prepare_request))|].
  eapply (rtc_l attested_step _ redeemed_state);
    [exact (step_call _ _ _ _ _ _ _ prepared
       (Redeem (steady_tx 2000) 5 world_consumer (mkConnection None None) redeem_request))|].
  apply rtc_refl.
Qed.

Definition redeemed_job_row : option JobRow := jobs redeemed_state !! 5.

Lemma redeemed_route_of_job :
  bool_decide (is_Some redeemed_job_row) = true
  ∧ bool_decide ((redeemed_job_row ≫= regulated_route_id) = Some 1000) = true.
Proof. split; vm_cast_no_check (eq_refl true). Qed.

Lemma route_redeemed_once_witness :
  ∃ j r, jobs redeemed_state !! 5 = Some j
    ∧ regulated_routes (fleet redeemed_state) !! 1000 = Some r ∧ redeemed 5 j r.
Proof.
  destruct redeemed_route_of_job as [H1%bool_decide_eq_true H2%bool_decide_eq_true].
  destruct H1 as [j H1]. rewrite H1 in H2. exists j.
  destruct (proj1 (proj2 (route_redeemed_once _ _ _ _ _ _ _ _ redeemed_reachable)) 5 j 1000 H1 H2)
    as (r & H3 & H4).
  exists r. exact (conj H1 (conj H3 H4)).
Defined.
