(* ===== verification/NodesWitnesses.v ===== *)
(** * The theorems on nodes and models at a concrete world

    Worker 2 registers a node in an empty registry, reports its health,
    publishes a model and looks it up in the catalogue; and three behaviours
    the code has at its edges. *)
From S2P Require Import Prelude Text Float64 Fixed Billing Ledger AntiAbuse StandardData Hardware Fingerprint Store Envelope Api Snapshot Tables Lease Postings Settled Requests NodeRequests Dispatch JobOps Nodes Models Lifecycle Progress NodesSpec Catalogue Reservations Witnesses.

Local Open Scope string_scope.
Local Open Scope list_scope.
Local Open Scope Z_scope.

Definition blank : State :=
  mkState sample_granted (abuse world) (telemetry world) ∅ ∅ ∅ ∅ ∅ ∅ (mkFleet ∅ ∅ [] ∅ ∅ []) ∅ ∅ ∅.

Lemma blank_registry : registry_ok blank.
Proof. by split; intros *; rewrite ?lookup_empty; try done; intros [? ?]. Qed.

Definition sandboxed : HardwareProfile :=
  mkHardwareProfile "Linux" "6.8" "x86_64" "cpu" 16 65536 [] true false
    [Namespaces; SeccompBpf; Landlock] ∅.
Definition register_request : RegisterNodeRequest :=
  mkRegister " rig " sandboxed ["nsfw"] 2 (Some 80) 1024.

(** *** Registration *)

Definition registered_answer := register_node blank (sample_tx 1000) world_worker register_request.
Definition registered_rig : RegisterNodeResponse :=
  ok_default (mkRegistered 0 Online Enhanced) registered_answer.1.
Definition registered_state : State := registered_answer.2.

Lemma registered_eq :
  register_node blank (sample_tx 1000) world_worker register_request
  = (Ok registered_rig, registered_state).
Proof. apply (answered (mkRegistered 0 Online Enhanced) registered_answer). vm_cast_no_check (eq_refl true). Qed.

Lemma registered_registry : registry_ok registered_state.
Proof. apply (ev_ok _ _ (register_evolves _ _ _ _ _ _ registered_eq)), blank_registry. Qed.

Lemma registration_binds_device_witness :
  ∃ n, nodes registered_state !! registered_node registered_rig = Some n
    ∧ device_key_id n = Some 7 ∧ node_alias n = trim " rig ".
Proof.
  destruct (registration_binds_device blank (sample_tx 1000) world_worker register_request
    blank_registry) as [H _].
  destruct (H _ _ registered_eq) as (n & Hn & _ & Ha & Hd & _). exists n. by split_and!.
Defined.

(** *** Heartbeats *)

Definition healthy : HeartbeatRequest :=
  mkBeat 20000 300 0 (Some 60) (Some 4096) (Some 24576) 0 (Some 30) false None.
Definition warm (t current : Z) : HeartbeatRequest :=
  mkBeat 20000 300 current (Some t) None None 0 None false None.
Definition rig : Z := registered_node registered_rig.

Definition no_beat : HeartbeatResponse := mkBeatResponse 0 "" false None false.
Definition healthy_answer :=
  node_heartbeat registered_state (sample_tx 2000) world_worker rig healthy.
Definition healthy_response : HeartbeatResponse := ok_default no_beat healthy_answer.1.
Definition online_state : State := healthy_answer.2.

Lemma healthy_eq :
  node_heartbeat registered_state (sample_tx 2000) world_worker rig healthy
  = (Ok healthy_response, online_state).
Proof. apply (answered no_beat healthy_answer). vm_cast_no_check (eq_refl true). Qed.

Lemma online_registry : registry_ok online_state.
Proof. apply (ev_ok _ _ (heartbeat_evolves _ _ _ _ _ _ _ healthy_eq)), registered_registry. Qed.

Lemma heartbeat_gates_claims_witness :
  accepting_jobs healthy_response = true
  ∧ ∃ n', nodes online_state !! rig = Some n' ∧ node_status n' = "online".
Proof.
  assert (accepting_jobs healthy_response = true) as Ha by vm_cast_no_check (eq_refl true).
  split; [exact Ha|].
  destruct (heartbeat_gates_claims _ _ _ _ _ _ _ registered_registry healthy_eq)
    as (n & p & n' & _ & _ & Hn' & _ & _ & _ & _ & Ho & _).
  exists n'. split; [exact Hn'|]. by apply Ho.
Defined.

(** A beat every 600 milliseconds. *)
Definition quick_beats (k : nat) : list Beat :=
  (λ i, (sample_tx (600000 * Z.of_nat i), world_worker, healthy)) <$> seq 0 k.
Definition rig_uptime (st : State) : Z :=
  default (-1) (verified_uptime_seconds ∘ standing <$> nodes st !! rig).

Definition no_node : NodeRow := mkNode 0 None "" None "" None None "" "" (mkStanding None 0 0 None 0).
Definition rig_row (st : State) : NodeRow := default no_node (nodes st !! rig).

Lemma rig_registered : nodes registered_state !! rig = Some (rig_row registered_state).
Proof. apply some_default. vm_cast_no_check (eq_refl true). Qed.

Lemma rig_unseen : last_verified_heartbeat_at (standing (rig_row registered_state)) = None.
Proof. vm_cast_no_check (eq_refl (@None Z)). Qed.

Lemma uptime_follows_clock_witness :
  ∃ n', nodes (foldl (beat rig) registered_state (quick_beats 6)) !! rig = Some n'
    ∧ verified_uptime_seconds (standing n')
      - verified_uptime_seconds (standing (rig_row registered_state)) ≤ 540.
Proof.
  assert (clock_after 0 (quick_beats 6) = Some 3000000) as Hc by reflexivity.
  destruct (uptime_follows_clock registered_state rig (rig_row registered_state) 0 (quick_beats 6)
    3000000 rig_registered (λ s E, ltac:(rewrite rig_unseen in E; discriminate E)) Hc)
    as (n' & Hn' & H & _).
  exists n'. split; [exact Hn'|]. apply H.
Defined.

(** The rounding of the seconds: six beats in three seconds verify five. *)
Lemma uptime_outruns_clock :
  rig_uptime (foldl (beat rig) registered_state (quick_beats 6)) - rig_uptime registered_state = 5
  ∧ clock_after 0 (quick_beats 6) = Some 3000000.
Proof. split; [vm_cast_no_check (eq_refl 5)|reflexivity]. Qed.

(** Heat at 82 pauses the node until 75; a beat at full load in between
    overwrites the reason, and the node goes back online at 78. *)
Definition status_after (beats : list HeartbeatRequest) : string :=
  node_status (rig_row (foldl (λ st b, beat rig st (sample_tx 5000, world_worker, b))
    registered_state beats)).

Lemma hysteresis_forgotten :
  status_after [warm 82 0; warm 78 0] = "paused"
  ∧ status_after [warm 82 0; warm 78 2; warm 78 0] = "online".
Proof. split; [vm_cast_no_check (eq_refl "paused")|vm_cast_no_check (eq_refl "online")]. Qed.

(** *** Publishing *)

Definition weights : string := "0123456789abcdef0123456789abcdef0123456789abcdef0123456789abcdef".
Definition publish_request : PublishModelRequest :=
  mkPublish rig "tiny" "tiny-1" "GGUF" weights 1024 4096 0 0 0 1000000 ["chat"].
Definition published_answer :=
  publish_model online_state (sample_tx 3000) world_worker publish_request.
Definition published_tiny : PublishModelResponse :=
  ok_default (mkPublished 0 0 "") published_answer.1.
Definition published_state : State := published_answer.2.

Lemma published_eq :
  publish_model online_state (sample_tx 3000) world_worker publish_request
  = (Ok published_tiny, published_state).
Proof. apply (answered (mkPublished 0 0 "") published_answer). vm_cast_no_check (eq_refl true). Qed.

Lemma publication_is_neutral_witness :
  ∃ m i, models published_state !! published_model published_tiny = Some m
    ∧ published_tier published_tiny = tier m
    ∧ instances published_state !! published_instance published_tiny = Some i
    ∧ instance_model i = published_model published_tiny.
Proof.
  destruct (publication_is_neutral _ _ _ _ _ _ online_registry published_eq)
    as (n & m & i & _ & _ & _ & Hm & _ & _ & _ & Ht & _ & Hi & _ & Him & _).
  exists m, i. split; [exact Hm|]. split; [exact Ht|]. by split.
Defined.

(** The whole path as a run of the registry. *)
Lemma registry_consistent_witness :
  registry_ok (node_run blank [Register (sample_tx 1000) world_worker register_request;
    Heartbeat (sample_tx 2000) world_worker rig healthy;
    Publish (sample_tx 3000) world_worker publish_request]).
Proof.
  apply (registry_consistent blank [Register (sample_tx 1000) world_worker register_request;
    Heartbeat (sample_tx 2000) world_worker rig healthy;
    Publish (sample_tx 3000) world_worker publish_request] blank_registry).
Defined.

(** *** The catalogue *)



