(* ===== verification/HonorsWitnesses.v ===== *)
(** * The honours at a concrete world

    Six nodes with contributions from settled jobs, and the days of one node. *)
From S2P Require Import Prelude Text Float64 Fixed Billing Ledger AntiAbuse StandardData Hardware Fingerprint Store Envelope Api Snapshot Tables Lease Postings Settled Requests Dispatch JobOps Lifecycle Progress Reservations Honors HonorsSpec Witnesses.

Local Open Scope string_scope.
Local Open Scope list_scope.
Local Open Scope Z_scope.

Definition six : list Z := [1; 2; 3; 4; 5; 6].

Definition worked (r : ReceiptRow) (contribution : Z) : ReceiptRow :=
  mkReceipt (receipt_id r) (consumer_user_id r) (node_user_id r) (receipt_model_name r)
    (receipt_tier r) (receipt_trust_level r) (receipt_base_cost_micro r)
    (receipt_user_deduction_micro r) (receipt_node_quota_micro r) contribution
    (receipt_contribution_weight_ppm r) (receipt_reserve_micro r) (receipt_settlement_hash r)
    (receipt_created_at r) (receipt_snapshot r).

Definition honored : State :=
  with_receipts
    (with_jobs world_done (list_to_map ((λ k, (k, job_lease leased_job Succeeded (Some (10 + k))
       (Some 4) None 1 (Some 3000) 0)) <$> six)))
    (match receipts world_done !! 5 with
     | Some r => list_to_map ((λ k, (k, worked r (1000000 * Z.max 2 k))) <$> six)
     | None => ∅
     end).

Definition no_honors : NodeHonorStats :=
  mkHonor "" None 0 0 None None None (mkLeaderboard "" 0 0 0 true []).
Definition honors : NodeHonorStats :=
  ok_default no_honors (node_honor_stats honored 4000 12 2000000).
Definition honor_rows : list (Z * Z) := ok_default [] (per_node honored).

Lemma honors_eq : node_honor_stats honored 4000 12 2000000 = Ok honors.
Proof. apply (is_ok_Ok no_honors). vm_cast_no_check (eq_refl true). Qed.
Lemma honor_rows_eq : per_node honored = Ok honor_rows.
Proof. apply (is_ok_Ok []). vm_cast_no_check (eq_refl true). Qed.
Lemma honor_rows_six : Z.of_nat (length honor_rows) = 6.
Proof. vm_cast_no_check (eq_refl 6). Qed.

Lemma leaderboard_counts_nodes_witness :
  suppressed (network_leaderboard honors) = false
  ∧ mkHonorEntry Contributor 5 ∈ board_entries (network_leaderboard honors).
Proof.
  assert (2 * Z.of_nat (length honor_rows) ≤ i64_max) as Hn
    by (rewrite honor_rows_six; vm_compute; discriminate).
  destruct (leaderboard_counts_nodes honored 4000 12 2000000 honors honor_rows honors_eq
    honor_rows_eq Hn) as (Hs & _ & He & _). rewrite honor_rows_six in Hs, He.
  split; [exact Hs|]. apply He; [lia|]. cbn zeta. unfold exact_count.
  rewrite length_fmap, honor_rows_six. by split.
Defined.

Definition week : gmap Z Z := list_to_map [(1, 0); (2, 0); (3, 0); (4, 2); (6, 0)].

Lemma streak_is_clean_run_witness :
  week ≠ ∅ ∧ ∃ days, zero_failure_streak week = Some days ∧ week !! (1 + days) ≠ Some 0.
Proof.
  assert (week ≠ ∅) as Hne by (intros E; apply (f_equal (λ m, m !! 1)) in E; discriminate E).
  split; [exact Hne|].
  assert (∀ day, is_Some (week !! day) → day < i32_max) as Hk.
  { intros day [f Hf]. apply elem_of_list_to_map_2 in Hf. set_unfold in Hf.
    unfold i32_max. naive_solver lia. }
  destruct (streak_is_clean_run week Hne Hk) as (days & E & _ & _ & H).
  exists days. split; [exact E|]. exact H.
Defined.
