(* ===== verification/IdentityWitnesses.v ===== *)
(** * The theorems on identities at a concrete run

    Ann registers with her mailbox, follows the link, starts a login on her
    device, confirms it in the browser, and polls; then she makes an API key,
    refreshes and logs out.  An operator credits her account. *)
From S2P Require Import Prelude Text Net Ledger StandardData Envelope Fingerprint Store Api Postings JobOps Tables NodeRequests Nodes Requests Settled Identity AuthRoutes WebAuth ApiKeys IdentitySpec IdentityRuns Sessions OperatorGrant.

Local Open Scope string_scope.
Local Open Scope list_scope.
Local Open Scope Z_scope.

(** A toy signature: a checksum of key and message, twice. *)
Definition sample_sign (key message : string) : string :=
  let h := sha256 (key +:+ message) in h +:+ h.

#[export] Instance sample_ed25519 : Ed25519 := {
  verifying_key _ := true;
  verify_strict key message signature := String.eqb signature (sample_sign key message);
}.

#[export] Instance sample_argon2 : Argon2 := {
  argon2_hash password salt := Some (salt +:+ "$" +:+ password);
  argon2_verify password hash := Some (String.eqb hash ("salt$" +:+ password));
}.

#[export] Instance sample_lettre : Lettre := { mailbox _ := true; deliver _ _ _ _ := true }.

Definition id_config : AuthConfig :=
  mkAuthConfig Email "pepper" 900 86400 "dev" 0 "https://mindone.example/auth/device".
Definition id_tx (second : Z) : Tx :=
  mkTx (second * 1000000) (λ i, second * 100 + Z.of_nat i) (λ _, second * NANOS_PER_SECOND) "".
Definition id_draws (seed : string) : Draws :=
  mkDraws ("flow-challenge-of-32-bytes-----" +:+ seed) "provider" "abcdef" ("access" +:+ seed)
    ("refresh" +:+ seed) ("next-challenge-of-32-bytes-----" +:+ seed) "inference"
    "verification0verification0verification0abcd".
Definition no_github : GithubAnswers :=
  mkGithub (Err (Transport "")) (λ _, Err (Transport "")) (λ _, Err (Transport "")).

(** *** The device of Ann *)

Definition ann_key : string := "the-public-key-of-anns-computer!".
Definition ann_flow : Z := 300.
Definition ann_challenge : string := "flow-challenge-of-32-bytes-----a".
Definition ann_proof : string :=
  hex_encode (sample_sign ann_key (device_key_possession_message ann_flow ann_challenge ann_key)).

Definition ann_registers : list IdCall :=
  [ Register "MindOne <no-reply@mindone.example>" "https://mindone.example" (id_tx 1) (id_draws "a")
      "salt" (mkRegisterForm " Ann@Example.org" "Ann" "correct horse" "correct horse");
    VerifyEmail (id_tx 2) "mnev_verification0verification0verification0abcd" ].
Definition ann_logs_in : list IdCall :=
  [ DeviceStart (id_tx 3) (id_draws "a") no_github (hex_encode ann_key);
    LoginBegin (mkLoginForm "ann@example.org" "correct horse" "6162-6364-6566");
    LoginFinish 0 (id_tx 4);
    PollBegin (id_tx 5) (mkPollRequest ann_flow ann_proof);
    PollAsk 0 5000000 no_github;
    PollFinish 0 (id_tx 6) (id_draws "a") ].

Local Abbreviation id_run := (run id_config dec).
Local Abbreviation id_world calls := (id_run (fresh_world sample_granted) calls).2.
Definition ann_in : list IdCall := ann_registers ++ ann_logs_in.
Definition no_login : Z * Login := (0, mkLogin "" "" "" 0 "" 0 "").
Definition ann_login : Z * Login :=
  default no_login (head (id_run (fresh_world sample_granted) ann_in).1).
Definition ann_db : IdDb := w_db (id_world ann_in).

Lemma ann_opened : (id_run (fresh_world sample_granted) ann_in).1 = [ann_login].
Proof. vm_compute. reflexivity. Qed.

Lemma ann_in_opened : (ann_flow, ann_login.2) ∈ (id_run (fresh_world sample_granted) ann_in).1.
Proof.
  rewrite ann_opened. apply list_elem_of_singleton.
  assert (ann_login.1 = ann_flow) as H by (vm_compute; reflexivity).
  rewrite <-H. by destruct ann_login.
Qed.

(** *** Logging in *)

Lemma logins_are_proved_witness :
  countb (λ p, p.1 =? ann_flow) (id_run (fresh_world sample_granted) ann_in).1 = 1.
Proof.
  exact (proj1 (logins_are_proved id_config dec sample_granted sample_granted_ok ann_in ann_flow
    ann_login.2 ann_in_opened)).
Defined.

Lemma mailbox_logins_are_confirmed_witness :
  ∃ before a hash, users (w_db (id_world before)) !! login_user ann_login.2 = Some a
    ∧ password_hash a = Some hash.
Proof.
  destruct (mailbox_logins_are_confirmed id_config dec sample_granted sample_granted_ok ann_in ann_flow
    ann_login.2 eq_refl ann_in_opened) as (before & i & tx & d & after & a & hash & f & H).
  destruct H as (_ & _ & Ha & _ & _ & Hh & _). by exists before, a, hash.
Defined.

(** *** Refreshing *)

Definition refresh_tx : Tx := id_tx 7.
Definition refresh_request : DeviceBoundRefreshRequest :=
  mkRefresh "mnr_refresha" (hex_encode (sample_sign ann_key
    (refresh_key_possession_message "next-challenge-of-32-bytes-----a" "mnr_refresha" ann_key))).
Definition refresh_answer := auth_refresh id_config ann_db refresh_tx (id_draws "b") refresh_request.
Definition no_refresh : RefreshResponse := mkRefreshed "" "" "" 0.
Definition refresh_response : RefreshResponse := ok_default no_refresh refresh_answer.1.
Definition refreshed_db : IdDb := refresh_answer.2.

Lemma refreshed_eq :
  auth_refresh id_config ann_db refresh_tx (id_draws "b") refresh_request
  = (Ok refresh_response, refreshed_db).
Proof. apply (answered no_refresh refresh_answer). vm_cast_no_check (eq_refl true). Qed.

Lemma refresh_rotates_witness :
  new_refresh_token refresh_response = "mnr_refreshb"
  ∧ ∃ id s, sessions ann_db !! id = Some s ∧ ∃ s', sessions refreshed_db !! id = Some s'
      ∧ refresh_token_hash s' = token_hash id_config "mnr_refreshb".
Proof.
  assert (new_refresh_token refresh_response = "mnr_refreshb") as E by (vm_cast_no_check (eq_refl "mnr_refreshb")).
  split; [exact E|].
  destruct (refresh_rotates id_config dec sample_granted sample_granted_ok ann_in refresh_tx (id_draws "b")
    refresh_request refresh_response refreshed_db refreshed_eq)
    as (id & s & k & ch & pkb & chb & sigb & s' & Hs & _ & _ & _ & _ & _ & _ & _ & _ & Hs' & _ & _ & _ & _ & Hh & _).
  exists id, s. split; [exact Hs|]. exists s'. split; [exact Hs'|]. rewrite Hh, E. reflexivity.
Defined.

(** *** Logging out *)

Definition logout_answer := auth_logout id_config ann_db (id_tx 8) "mnr_refresha".
Lemma logged_out_eq :
  auth_logout id_config ann_db (id_tx 8) "mnr_refresha"
  = (Ok (ok_default false logout_answer.1), logout_answer.2).
Proof. apply (answered false logout_answer). vm_cast_no_check (eq_refl true). Qed.

Lemma logout_is_final_witness :
  ∃ id s, sessions ann_db !! id = Some s
    ∧ ¬ answered_for id_config (w_db (id_world (ann_in ++ [Logout (id_tx 8) "mnr_refresha"]))) id.
Proof.
  destruct (logout_is_final id_config dec sample_granted sample_granted_ok ann_in (id_tx 8)
    "mnr_refresha" _ _ logged_out_eq) as (id & s & Hs & _ & H).
  exists id, s. split; [exact Hs|]. apply (H id s []); [exact Hs|by left].
Defined.

(** *** API keys *)

Definition ann_keyed : list IdCall :=
  ann_in ++ [CreateKey (id_tx 9) (id_draws "a") (Some "Bearer mna_accessa") "laptop"].
Definition key_answer :=
  authenticate_inference id_config (w_db (id_world ann_keyed)) 10000000 (Some "Bearer mok_inference").
Definition no_principal : Principal * string := (mkPrincipal 0 0 0, "").
Definition key_principal : Principal * string := ok_default no_principal key_answer.1.

Lemma key_answer_eq :
  (authenticate_inference id_config (w_db (id_world ann_keyed)) 10000000
     (Some ("Bearer " +:+ "mok_inference"))).1
  = Ok (key_principal.1, key_principal.2).
Proof.
  rewrite <-surjective_pairing. apply (is_ok_Ok no_principal key_answer.1).
  vm_cast_no_check (eq_refl true).
Qed.

Lemma api_keys_are_confined_witness :
  ∃ id k s, api_keys (w_db (id_world ann_keyed)) !! id = Some k
    ∧ created_by_session k = session_id key_principal.1
    ∧ sessions (w_db (id_world ann_keyed)) !! session_id key_principal.1 = Some s
    ∧ session_revoked_at s = None.
Proof.
  assert (is_Some (strip_prefix "mok_" "mok_inference")) as Hp by (eexists; reflexivity).
  destruct (proj1 (api_keys_are_confined id_config dec sample_granted sample_granted_ok ann_keyed 10000000
    "mok_inference" key_principal.1 key_principal.2 Hp) key_answer_eq)
    as (id & k & s & d & Hk & _ & Hc & _ & _ & _ & Hs & _ & _ & Hr & _).
  exists id, k, s. exact (conj Hk (conj Hc (conj Hs Hr))).
Defined.

(** *** An operator's grant *)

Definition grant_db : GrantDb :=
  mkGrantDb (with_id_books (with_users (w_db (fresh_world sample_granted))
    {[1 := mkUser "github" "1" "ann" None None None]}) sample_granted) [].
Definition grant_request : OperatorQuotaGrantRequest :=
  mkGrantRequest 1 250000 "grant-1" "ops@mindone" "welcome quota".
Definition grant_json (request : OperatorQuotaGrantRequest) : option string := Some (grant_key request).
Definition grant_answer := grant_operator_quota dec grant_json grant_db (id_tx 1) grant_request.
Definition no_grant : OperatorQuotaGrantResult := mkGrantResult 0 0 0 0 0 0 "" true.
Definition granted : OperatorQuotaGrantResult := ok_default no_grant grant_answer.1.

Lemma granted_eq :
  grant_operator_quota dec grant_json grant_db (id_tx 1) grant_request = (Ok granted, grant_answer.2).
Proof. apply (answered no_grant grant_answer). vm_cast_no_check (eq_refl true). Qed.

Lemma grant_db_ok : grants_ok grant_db.
Proof.
  constructor; [apply sample_granted_ok|constructor|constructor|].
  vm_compute. apply NoDup_singleton.
Qed.

Lemma grants_credit_once_witness :
  idempotent_replay granted = false
  ∧ result_after granted = result_before granted + 250000 ∧ grants_ok grant_answer.2.
Proof.
  assert (idempotent_replay granted = false ∧ result_after granted = result_before granted + 250000) as [E F]
    by (vm_compute; split; reflexivity).
  split; [exact E|]. split; [exact F|].
  exact (proj1 (grants_credit_once dec grant_json grant_db (id_tx 1) grant_request _ _ grant_db_ok granted_eq)).
Defined.
