(* ===== verification/StreamWitnesses.v ===== *)
(** * A small stream in which the theorems about streams apply

    The consumer of [Witnesses] asks for a streamed completion; the worker
    sends one chunk and the end, then the result. *)
From S2P Require Import Prelude Text Float64 Fixed Tier Policy Routing Billing Ledger Net AntiAbuse StandardData Hardware Fingerprint Store Envelope Api Snapshot Tables Lease Postings Complete Settled Requests Quotes Dispatch DispatchSpec JobOps RegulatedRoutes Admission RegulatedJobs Selection Lifecycle Progress RegulatedSpec Reservations Results Streams StreamSpec Journeys Witnesses.

Local Open Scope string_scope.
Local Open Scope list_scope.
Local Open Scope Z_scope.

(** JSON values, read from the texts of the sample. *)
Inductive Value : Type :=
| VNull | VInt (n : Z) | VText (s : string) | VList (l : list Value)
| VObject (fields : list (string * Value)).

Definition member (v : Value) (name : string) : option Value :=
  match v with
  | VObject fields => snd <$> List.find (λ p, String.eqb p.1 name) fields
  | _ => None
  end.

Definition chunk : Value :=
  VObject [("object", VText "text_completion"); ("model", VText "m"); ("id", VText "x");
    ("created", VInt 0);
    ("choices", VList [VObject [("index", VInt 0); ("text", VText "hi")]])].

#[export] Instance stream_json : JobJson := {
  Json := Value;
  as_object_keys v := match v with VObject fields => Some fields.*1 | _ => None end;
  to_vec v := Some "{}";
  parse_payload s := Some (mkPayload OPENAI_COMPLETIONS (VObject [("prompt", VText s)]));
  parse_chat _ := None;
  parse_completions s :=
    Some (mkCompletions "m" (OnePrompt "hello") true (Some 10) None None None None None);
  encode_create_job r := Some (request_idempotency_key r +:+ request_payload r);
}.

#[export] Instance stream_access : JsonAccess (J := stream_json) := {
  parse_value s := if String.eqb s "chunk" then Some chunk else None;
  is_object v := match v with VObject _ => true | _ => false end;
  json_get := member;
  as_str v := match v with VText s => Some s | _ => None end;
  as_u64 v := match v with VInt n => checked in_u64 n | _ => None end;
  as_i64 v := match v with VInt n => checked in_i64 n | _ => None end;
  as_array v := match v with VList l => Some l | _ => None end;
  is_null v := match v with VNull => true | _ => false end;
}.

#[export] Instance stream_response : ResponseJson := {
  parse_chat_response _ := None;
  parse_completions_response _ := Some (mkCompletionsResponse "m" ["hi"] (mkUsage 12 8 20));
}.

Definition stream_created :=
  create_job (J := stream_json) world_config (λ _, None) ∅ (λ s, Some s) world_parse world
    (sample_tx 1000) 5 world_consumer (mkConnection None None) world_request.
Definition stream_claimed := world_claim stream_created.2 (sample_tx 2000).
Definition stream_leased : State := stream_claimed.2.

Definition sample_append (st : State) (db : StreamDb) (n : Z) (req : JobStreamEventRequest) :=
  append_job_stream_event world_config (λ s, Some s) st db (sample_tx n) world_worker 5 req.

Definition first_event : JobStreamEventRequest := mkEventRequest 6 1 0 "event-0" Data (Some "chunk").
Definition last_event : JobStreamEventRequest := mkEventRequest 6 1 1 "event-1" UpstreamDone None.
Definition stream_first := sample_append stream_leased ∅ 3000 first_event.
Definition stream_last := sample_append stream_leased stream_first.2 4000 last_event.
Definition stream_log : StreamDb := stream_last.2.

Definition stream_result : JobResultRequest :=
  mkResult 6 "result-1" "answer" 12 8 sample_telemetry.
Definition stream_settled :=
  job_result world_config (λ s, Some s) (λ _, None) (λ _, Some "snapshot") (stream_leased, stream_log)
    stream_leased (sample_tx 5000) world_worker 5 stream_result.
Definition stream_done : State := stream_settled.2.

(** *** The calls as steps *)

Definition sample_step : State * StreamDb → State * StreamDb → Prop :=
  stream_step (J := stream_json) world_config (λ _, None) ∅ (λ s, Some s) world_parse
    (λ _, None) (λ _, Some "snapshot").
Definition sample_reachable : State * StreamDb → Prop :=
  streams_reachable (J := stream_json) world_config (λ _, None) ∅ (λ s, Some s) world_parse
    (λ _, None) (λ _, Some "snapshot").

Lemma sample_leased_reachable : sample_reachable (stream_leased, ∅).
Proof.
  exists world. split; [exact world_initial|].
  eapply rtc_l; [apply stream_jobs; exact (step_call (J := stream_json) world_config (λ _, None) ∅
    (λ s, Some s) world_parse (λ _, None) (λ _, Some "snapshot") world
    (Create (sample_tx 1000) 5 world_consumer (mkConnection None None) world_request))|].
  eapply rtc_l; [apply stream_jobs; exact (step_call (J := stream_json) world_config (λ _, None) ∅
    (λ s, Some s) world_parse (λ _, None) (λ _, Some "snapshot") stream_created.2
    (Claim (sample_tx 2000) world_worker (mkClaim 6 4)))|].
  apply rtc_refl.
Qed.

Lemma sample_appended st db n req : sample_step (st, db) (st, (sample_append st db n req).2).
Proof.
  exact (stream_append world_config (λ _, None) ∅ (λ s, Some s) world_parse (λ _, None)
    (λ _, Some "snapshot") st db (sample_tx n) world_worker 5 req eq_refl).
Qed.

Lemma sample_log_reachable : sample_reachable (stream_leased, stream_log).
Proof.
  destruct sample_leased_reachable as (st0 & Hi & Hs). exists st0. split; [exact Hi|].
  eapply rtc_r; [|exact (sample_appended stream_leased stream_first.2 4000 last_event)].
  eapply rtc_r; [exact Hs|exact (sample_appended stream_leased ∅ 3000 first_event)].
Qed.

(** *** What the calls answer *)

Definition no_response : JobStreamEventResponse := mkEventResponse 0 0 0 true.

Lemma stream_first_eq :
  sample_append stream_leased ∅ 3000 first_event
    = (Ok (ok_default no_response stream_first.1), stream_first.2).
Proof. apply (answered no_response stream_first). vm_cast_no_check (eq_refl true). Qed.

Lemma stream_first_new : response_replay (ok_default no_response stream_first.1) = false.
Proof. vm_cast_no_check (eq_refl false). Qed.

Definition stream_job : JobRow := default leased_job (jobs stream_leased !! 5).

Lemma stream_job_eq : jobs stream_leased !! 5 = Some stream_job.
Proof. apply some_default. vm_cast_no_check (eq_refl true). Qed.

Lemma stream_job_lease n : n = 3500 → stream_lease_valid (sample_tx n) stream_job 1 = true.
Proof. intros ->. vm_cast_no_check (eq_refl true). Qed.

Lemma appends_refine_log_witness :
  (∃ log', holds world_config stream_first.2 5 1 log' ∧ log_next empty_log first_event = Some log')
  ∧ sample_append stream_leased stream_first.2 3500 first_event
    = (Ok (mkEventResponse 5 1 0 true), stream_first.2).
Proof.
  destruct (appends_refine_log (J := stream_json) world_config (λ _, None) ∅ (λ s, Some s) world_parse
    (λ _, None) (λ _, Some "snapshot") (CryptoLaws0 := sample_crypto_laws) stream_leased ∅
    (sample_tx 3000) world_worker 5 first_event _ _ (sample_tx 3500) sample_leased_reachable eq_refl
    stream_first_eq) as ((log & Hl & Hcases) & _ & Hagain).
  split.
  - pose proof (holds_unique world_config ∅ 5 1 log empty_log Hl (holds_empty world_config 5 1)) as ->.
    destruct Hcases as [(Hr & _)|(_ & log' & H1 & H2)]; [|exists log'; exact (conj H2 H1)].
    exfalso. rewrite stream_first_new in Hr. discriminate Hr.
  - refine (Hagain _). intros j Hj.
    rewrite (f_equal (default leased_job) (eq_trans (eq_sym Hj) stream_job_eq) : j = stream_job).
    exact (stream_job_lease 3500 eq_refl).
Defined.

Definition sample_payload : StandardJobPayload Value * StandardJobLimits :=
  ok_default (mkPayload OPENAI_COMPLETIONS VNull, mkLimits "" 0 0 false)
    (stream_payload (J := stream_json) world_config (λ s, Some s) 5 stream_job).

Lemma sample_payload_eq :
  stream_payload (J := stream_json) world_config (λ s, Some s) 5 stream_job
    = Ok (sample_payload.1, sample_payload.2).
Proof.
  transitivity (Ok sample_payload : ApiResult _); [|f_equal; apply surjective_pairing].
  apply is_ok_Ok. vm_cast_no_check (eq_refl true).
Qed.

Lemma stream_job_model : is_Some (models stream_leased !! model_id stream_job).
Proof. apply (bool_decide_eq_true _). vm_cast_no_check (eq_refl true). Qed.

Lemma stream_job_fields :
  user_id stream_job = 1 ∧ confidentiality_mode stream_job = "standard" ∧ status stream_job = Leased.
Proof.
  split_and!; [vm_cast_no_check (eq_refl 1)|vm_cast_no_check (eq_refl "standard")
              |vm_cast_no_check (eq_refl Leased)].
Qed.

Lemma pages_show_log_witness :
  ∃ view, read_job_stream_authenticated (J := stream_json) world_config (λ s, Some s) stream_leased
      stream_log world_consumer 5 0 8 = Ok view ∧ read_status view = Leased.
Proof.
  destruct stream_job_fields as (Hu & Hc & Hs).
  destruct (pages_show_log (J := stream_json) world_config (λ _, None) ∅ (λ s, Some s) world_parse
    (λ _, None) (λ _, Some "snapshot") (CryptoLaws0 := sample_crypto_laws) stream_leased stream_log
    world_consumer 5 stream_job 0 8 sample_payload.1 sample_payload.2 sample_log_reachable
    stream_job_eq stream_job_model Hu Hc sample_payload_eq ltac:(lia)) as (log & _ & Hview).
  destruct Hview as (view & H & Hst & _); [intros H; rewrite Hs in H; discriminate H|].
  exists view. split; [exact H|]. rewrite Hst. exact Hs.
Defined.

(** The result, whose checks and whose transaction read the same database. *)
Definition no_result : JobResultResponse := mkResultResponse 0 Failed true.

Lemma stream_settled_eq :
  job_result (J := stream_json) world_config (λ s, Some s) (λ _, None) (λ _, Some "snapshot")
      (stream_leased, stream_log) stream_leased (sample_tx 5000) world_worker 5 stream_result
    = (Ok (ok_default no_result stream_settled.1), stream_done).
Proof. apply (answered no_result stream_settled). vm_cast_no_check (eq_refl true). Qed.

Lemma stream_settled_new : result_replay (ok_default no_result stream_settled.1) = false.
Proof. vm_cast_no_check (eq_refl false). Qed.

Lemma stream_done_model : is_Some (models stream_done !! model_id stream_job).
Proof. apply (bool_decide_eq_true _). vm_cast_no_check (eq_refl true). Qed.

Lemma settled_stream_is_complete_witness :
  ∃ view, read_job_stream_authenticated (J := stream_json) world_config (λ s, Some s) stream_done
      stream_log world_consumer 5 0 8 = Ok view
    ∧ read_status view = Succeeded ∧ upstream_done view = true.
Proof.
  destruct stream_job_fields as (Hu & Hc & _).
  destruct (settled_stream_is_complete (J := stream_json) world_config (λ _, None) ∅ (λ s, Some s)
    world_parse (λ _, None) (λ _, Some "snapshot") (CryptoLaws0 := sample_crypto_laws)
    stream_leased stream_log stream_leased stream_log stream_done stream_log (sample_tx 5000)
    world_worker 5 stream_result _ stream_done stream_job sample_payload.1 sample_payload.2
    sample_log_reachable (rtc_refl _ _) stream_job_eq Hc sample_payload_eq stream_settled_eq
    stream_settled_new (rtc_refl _ _) stream_done_model) as (log & _ & _ & _ & Hread).
  destruct (Hread world_consumer 0 8 (eq_sym Hu) ltac:(lia)) as (view & H & Hs & _ & _ & Hdone).
  exists view. exact (conj H (conj Hs Hdone)).
Defined.
