(* ===== verification/ReserveOps.v ===== *)
(** * Operator releases of the reserve: crates/mindone-coordinator/src/settlement.rs

    [release_reserve] as one transaction on the books and the audit table
    [operator_reserve_releases] of migration 0021.  The JSON of the request
    fingerprint is third party ([encode_release]). *)
From S2P Require Import Prelude Text Fixed Reserve Ledger Net StandardData Hardware Fingerprint Store Api Snapshot Postings.

Local Open Scope string_scope.
Local Open Scope list_scope.
Local Open Scope Z_scope.

(** ** Data *)

Record ReserveReleaseCommand : Type := mkReleaseCommand {
  command_purpose : ReservePurpose;
  command_amount : Z;
  command_reference : string;
  command_key : string;
  operator_id : string;
  reason : string;
}.

Record ReserveReleaseOutcome : Type := mkReleaseOutcome {
  operator_audit_id : Z;
  released_id : Z;
  released_purpose : ReservePurpose;
  released_amount : Z;
  released_before : Z;
  released_after : Z;
  released_reference : string;
  released_hash : string;
  release_replay : bool;
}.

(** [operator_reserve_releases]. *)
Record OperatorRow : Type := mkOperatorRow {
  audit_id : Z;
  reserve_ledger_id : Z;
  audit_purpose : string;
  audit_operator : string;
  audit_reason : string;
  audit_amount : Z;
  audit_reference_id : string;
  audit_key : string;
  request_fingerprint : string;
  reserve_ledger_entry_hash : string;
}.

Record ReserveDb : Type := mkReserveDb {
  reserve_books : Books;
  operator_releases : list OperatorRow;
}.

(** ** Validation *)

Definition reserve_entry_type (purpose : ReservePurpose) : string :=
  match purpose with
  | ResultValidation => "verification"
  | FailedRetry => "retry"
  | BandwidthSubsidy => "bandwidth"
  | PeakGuarantee => "peak_capacity"
  end.

Definition MAX_OPERATOR_RESERVE_RELEASE_MICRO : Z := 1000000000000.

(** The bytes of [._:@/-] besides the alphanumeric ones. *)
Definition valid_operator_identifier (value : string) : bool :=
  let bytes := bytes_of value in
  match bytes with
  | [] => false
  | first :: _ =>
    (Z.of_nat (length bytes) <=? 128)
    && is_ascii_alphanumeric first
    && forallb (λ byte, is_ascii_alphanumeric byte
                        || existsb (Z.eqb byte) [46; 95; 58; 64; 47; 45]) bytes
  end.

Definition validate_reserve_release_command (command : ReserveReleaseCommand) : ApiResult () :=
  _ ← bail_if (negb (in_range 1 MAX_OPERATOR_RESERVE_RELEASE_MICRO (command_amount command)))
    (bad_request "invalid_reserve_amount"
      ("准备金释放 amount_micro 必须在 1..=" +:+ dec MAX_OPERATOR_RESERVE_RELEASE_MICRO));
  _ ← bail_if (negb (valid_operator_identifier (command_key command)))
    (bad_request "invalid_idempotency_key"
      "准备金释放 idempotency_key 必须是 1 到 128 字节的安全 ASCII 标识符");
  _ ← bail_if (negb (valid_operator_identifier (operator_id command)))
    (bad_request "invalid_operator" "operator 必须是 1 到 128 字节的安全 ASCII 标识符");
  _ ← bail_if (str_is_empty (command_reference command)
      || (255 <? str_len (command_reference command))
      || negb (String.eqb (trim (command_reference command)) (command_reference command))
      || has_control (command_reference command))
    (bad_request "invalid_reserve_reference"
      "reference 必须是 1 到 255 字节、无首尾空白或控制字符的审计引用");
  let reason_chars := Z.of_nat (length (chars (reason command))) in
  bail_if (negb (in_range 8 512 reason_chars)
      || negb (String.eqb (trim (reason command)) (reason command))
      || has_control (reason command))
    (bad_request "invalid_operator_reason"
      "reason 必须是 8 到 512 个字符、无首尾空白或控制字符").

(** ** The transaction *)

(** The [entry_type] column of a reserve row. *)
Definition row_entry_type (e : LedgerEntry) : string :=
  ok_default "" (entry_type (kind e) (metadata e)).

(** [COALESCE(SUM(...) FILTER ..., 0)::bigint]. *)
Definition inflow_sum (rows : list ReserveRow) : Z :=
  foldr (λ r z, Z.max 0 (amount_micro (reserve_entry r)) + z) 0 rows.
Definition outflow_sum (rows : list ReserveRow) : Z :=
  foldr (λ r z, Z.max 0 (- amount_micro (reserve_entry r)) + z) 0 rows.

(** The in-memory account rebuilt from the tables. *)
Definition load_reserve_state (b : Books) : ApiResult ReserveState :=
  total_inflow ← or_internal (i64_try_from (inflow_sum (reserve_ledger b)));
  total_outflow ← or_internal (i64_try_from (outflow_sum (reserve_ledger b)));
  balance ← map_err map_accounting_error (MicroQuota.new (reserve_balance_micro b));
  total_inflow ← map_err map_accounting_error (MicroQuota.new total_inflow);
  total_outflow ← map_err map_accounting_error (MicroQuota.new total_outflow);
  Ok (mkReserveState balance total_inflow total_outflow).

Definition release_error (error : AccountingError) : ApiError :=
  match error with
  | InsufficientBalance _ _ => conflict "reserve_insufficient" "网络准备金余额不足"
  | other => map_accounting_error other
  end.

Definition release_metadata (command : ReserveReleaseCommand) : gmap string string :=
  list_to_map [("purpose", reserve_entry_type (command_purpose command));
    ("reference_id", command_reference command); ("operator_id", operator_id command);
    ("reason", reason command)].

(** The trigger and the UNIQUE constraints of [operator_reserve_releases]; its
    CHECK constraints repeat the validation of the command. *)
Definition operator_row_check (db : ReserveDb) (row : OperatorRow) : bool :=
  existsb (λ r, let e := reserve_entry r in
      (entry_id e =? reserve_ledger_id row)
      && bool_decide (request_id e = None)
      && String.eqb (row_entry_type e) (audit_purpose row)
      && (amount_micro e =? - audit_amount row)
      && (balance_after_micro e =? balance_before_micro e - audit_amount row)
      && String.eqb (idempotency_key e) (audit_key row)
      && bool_decide (audit_reference r = Some (audit_reference_id row))
      && String.eqb (entry_hash e) (reserve_ledger_entry_hash row)
      && (reserve_balance_micro (reserve_books db) =? balance_after_micro e))
    (reserve_ledger (reserve_books db))
  && negb (existsb (λ r, (audit_id r =? audit_id row)
      || (reserve_ledger_id r =? reserve_ledger_id row)
      || String.eqb (audit_key r) (audit_key row)
      || String.eqb (request_fingerprint r) (request_fingerprint row)) (operator_releases db)).

Section release.
Context `{SE : Serde, C : Crypto}.
Context (encode_release : ReserveReleaseCommand → option string).

Definition reserve_release_request_fingerprint (command : ReserveReleaseCommand)
    : ApiResult string :=
  payload ← or_internal (encode_release command);
  Ok (hex_encode (sha256 payload)).

(** A row with the command's key: a replay of the same request, or a conflict. *)
Definition replay_release (db : ReserveDb) (command : ReserveReleaseCommand)
    (fingerprint : string) (row : ReserveRow) : ApiResult ReserveReleaseOutcome :=
  let e := reserve_entry row in
  let audit := List.find (λ a, reserve_ledger_id a =? entry_id e) (operator_releases db) in
  _ ← bail_if (negb (amount_micro e =? - command_amount command)
      || negb (bool_decide (audit_reference row = Some (command_reference command)))
      || negb (String.eqb (row_entry_type e) (reserve_entry_type (command_purpose command)))
      || negb (bool_decide ((request_fingerprint <$> audit) = Some fingerprint))
      || negb (bool_decide (is_Some (audit_id <$> audit))))
    (conflict "idempotency_key_reused" "准备金幂等键已经用于不同释放请求");
  operator_audit_id ← or_internal (audit_id <$> audit);
  Ok (mkReleaseOutcome operator_audit_id (entry_id e) (command_purpose command)
    (command_amount command) (balance_before_micro e) (balance_after_micro e)
    (command_reference command) (entry_hash e) true).

(** The release of a new key. *)
Definition new_release (db : ReserveDb) (tx : Tx) (command : ReserveReleaseCommand)
    (fingerprint : string) (amount : MicroQuota) : ApiResult (ReserveReleaseOutcome * ReserveDb) :=
  let b := reserve_books db in
  let balance_before := reserve_balance_micro b in
  reserve_state ← load_reserve_state b;
  let release_id := now_v7 tx 0%nat in
  let created_at := now_utc tx 0%nat in
  release ← map_err release_error
    (release reserve_state release_id (command_purpose command) amount
       (command_reference command) created_at).1;
  let balance_after := as_i64 (balance_after release) in
  ledger ← map_err map_accounting_error
    (ledger_new uuid_to_string sha256_hex release_id RESERVE_ACCOUNT None (command_key command)
       KReserveRelease (- command_amount command) balance_before balance_after created_at
       (reserve_ledger_head_hash b) (release_metadata command));
  b ← insert_reserve b ledger (Some (command_reference command));
  let operator_audit_id := now_v7 tx 1%nat in
  let row := mkOperatorRow operator_audit_id release_id
    (reserve_entry_type (command_purpose command)) (operator_id command) (reason command)
    (command_amount command) (command_reference command) (command_key command) fingerprint
    (entry_hash ledger) in
  _ ← require_internal (operator_row_check (mkReserveDb b (operator_releases db)) row);
  Ok (mkReleaseOutcome operator_audit_id release_id (command_purpose command)
        (command_amount command) balance_before balance_after (command_reference command)
        (entry_hash ledger) false,
      mkReserveDb b (row :: operator_releases db)).

Definition release_reserve (db : ReserveDb) (tx : Tx) (command : ReserveReleaseCommand)
    : ApiResult (ReserveReleaseOutcome * ReserveDb) :=
  _ ← validate_reserve_release_command command;
  fingerprint ← reserve_release_request_fingerprint command;
  amount ← map_err map_accounting_error (MicroQuota.new (command_amount command));
  match List.find (λ r, String.eqb (idempotency_key (reserve_entry r)) (command_key command))
          (reserve_ledger (reserve_books db)) with
  | Some row =>
    outcome ← replay_release db command fingerprint row;
    Ok (outcome, db)
  | None => new_release db tx command fingerprint amount
  end.
End release.

(** ** Lemmas *)

Lemma reserve_sums rows :
  inflow_sum rows - outflow_sum rows = sum_amounts (reserve_entry <$> rows)
  ∧ 0 ≤ inflow_sum rows ∧ 0 ≤ outflow_sum rows.
Proof.
  induction rows as [|r rows IH]; [done|].
  rewrite fmap_cons. unfold inflow_sum, outflow_sum, sum_amounts in *. cbn [foldr] in *. lia.
Qed.

(** The rebuilt account is well formed and holds the stored balance. *)
Lemma load_reserve_state_Ok b s :
  books_ok b → load_reserve_state b = Ok s →
  reserve_wf s ∧ s = mkReserveState (mkMicroQuota (reserve_balance_micro b))
    (mkMicroQuota (inflow_sum (reserve_ledger b))) (mkMicroQuota (outflow_sum (reserve_ledger b))).
Proof.
  intros (_ & _ & _ & Hc) H. apply chain_ok_sum in Hc as (Hbal & _ & Hpos).
  destruct (reserve_sums (reserve_ledger b)) as (Hs & Hi & Ho). unfold load_reserve_state in H.
  apply bind_Ok in H as (i & Hri%or_internal_Ok & H). apply checked_Some in Hri as [Hri ->].
  apply bind_Ok in H as (o & Hro%or_internal_Ok & H). apply checked_Some in Hro as [Hro ->].
  apply bind_Ok in H as (m1 & [_ ->]%map_err_Ok%micro_new_Ok & H).
  apply bind_Ok in H as (m2 & [_ ->]%map_err_Ok%micro_new_Ok & H).
  apply bind_Ok in H as (m3 & [_ ->]%map_err_Ok%micro_new_Ok & [= <-]).
  split; [|done]. unfold reserve_wf, MicroQuota.wf. simpl. int_inv. split_and!; lia.
Qed.

Lemma load_reserve_state_total b :
  books_ok b → inflow_sum (reserve_ledger b) ≤ i64_max →
  load_reserve_state b = Ok (mkReserveState (mkMicroQuota (reserve_balance_micro b))
    (mkMicroQuota (inflow_sum (reserve_ledger b))) (mkMicroQuota (outflow_sum (reserve_ledger b)))).
Proof.
  intros (_ & _ & _ & Hc) Hmax. apply chain_ok_sum in Hc as (Hbal & _ & Hpos).
  destruct (reserve_sums (reserve_ledger b)) as (Hs & Hi & Ho). unfold load_reserve_state, i64_try_from.
  rewrite !checked_true by (unfold in_i64; rewrite in_range_true; unfold_int; lia). simpl.
  by rewrite !micro_new_nonneg by lia.
Qed.

Lemma validate_release_Ok cmd :
  validate_reserve_release_command cmd = Ok tt →
  1 ≤ command_amount cmd ≤ 1000000000000
  ∧ valid_audit_reference (command_reference cmd) = true
  ∧ trim (reason cmd) = reason cmd.
Proof.
  unfold validate_reserve_release_command. intros H.
  apply bind_Ok in H as ([] & Ha%bail_if_Ok%negb_false_iff & H). apply in_range_true in Ha.
  apply bind_Ok in H as ([] & _ & H). apply bind_Ok in H as ([] & _ & H).
  apply bind_Ok in H as ([] & Hr%bail_if_Ok & H). apply bail_if_Ok in H.
  rewrite !orb_false_iff, negb_false_iff, String.eqb_eq in Hr.
  rewrite !orb_false_iff, !negb_false_iff, String.eqb_eq in H.
  destruct Hr as (((He & Hl) & Ht) & Hc). split; [exact Ha|]. split; [|naive_solver].
  unfold valid_audit_reference, trim_is_empty. rewrite Ht, He, Hl, Hc. done.
Qed.

Lemma find_head {A} (p : A → bool) x l : p x = true → List.find p (x :: l) = Some x.
Proof. simpl. by intros ->. Qed.

Section effects.
Context `{SE : Serde, C : Crypto}.
Context (encode_release : ReserveReleaseCommand → option string).

Lemma entry_type_new uuid digest id acc req k kd amount before after t prev md e :
  ledger_new uuid digest id acc req k kd amount before after t prev md = Ok e →
  ∃ ty, entry_type kd md = Ok ty.
Proof.
  unfold ledger_new, recompute_hash. intros H. apply bind_Ok in H as ([] & _ & H).
  apply bind_Ok in H as (h & Hh & _). apply bind_Ok in Hh as ([] & _ & Hh).
  apply bind_Ok in Hh as (m & _ & Hh). apply bind_Ok in Hh as (ty & Hty & _). by exists ty.
Qed.

Lemma release_row_type cmd e :
  kind e = KReserveRelease → metadata e = release_metadata cmd →
  row_entry_type e = reserve_entry_type (command_purpose cmd).
Proof.
  intros Hk Hm. unfold row_entry_type. rewrite Hk, Hm. unfold release_metadata. simpl.
  by destruct (command_purpose cmd).
Qed.

Lemma reserve_entry_type_inj p q : reserve_entry_type p = reserve_entry_type q → p = q.
Proof. by destruct p, q. Qed.

(** What a new release did. *)
Lemma new_release_Ok db tx cmd fp amount o db' :
  new_release db tx cmd fp amount = Ok (o, db') →
  ∃ s rel e row,
    load_reserve_state (reserve_books db) = Ok s
    ∧ (release s (now_v7 tx 0%nat) (command_purpose cmd) amount (command_reference cmd)
         (now_utc tx 0%nat)).1 = Ok rel
    ∧ insert_reserve (reserve_books db) e (Some (command_reference cmd)) = Ok (reserve_books db')
    ∧ entry_id e = now_v7 tx 0%nat ∧ idempotency_key e = command_key cmd
    ∧ amount_micro e = - command_amount cmd
    ∧ balance_before_micro e = reserve_balance_micro (reserve_books db)
    ∧ balance_after_micro e = as_i64 (balance_after rel)
    ∧ row_entry_type e = reserve_entry_type (command_purpose cmd)
    ∧ operator_releases db' = row :: operator_releases db
    ∧ row = mkOperatorRow (now_v7 tx 1%nat) (now_v7 tx 0%nat)
        (reserve_entry_type (command_purpose cmd)) (operator_id cmd) (reason cmd)
        (command_amount cmd) (command_reference cmd) (command_key cmd) fp (entry_hash e)
    ∧ o = mkReleaseOutcome (now_v7 tx 1%nat) (now_v7 tx 0%nat) (command_purpose cmd)
        (command_amount cmd) (reserve_balance_micro (reserve_books db)) (as_i64 (balance_after rel))
        (command_reference cmd) (entry_hash e) false.
Proof.
  unfold new_release. intros H. apply bind_Ok in H as (s & Hs & H).
  apply bind_Ok in H as (rel & Hrel%map_err_Ok & H).
  apply bind_Ok in H as (e & He%map_err_Ok & H). apply bind_Ok in H as (b & Hb & H).
  apply bind_Ok in H as ([] & _ & [= <- <-]).
  apply ledger_new_entry in He as (? & _ & _ & ? & Hk & ? & ? & ? & _ & Hm & _).
  exists s, rel, e. eexists. simpl. split_and!; try done. by apply release_row_type.
Qed.

Lemma release_reserve_Ok db tx cmd o db' :
  release_reserve encode_release db tx cmd = Ok (o, db') →
  validate_reserve_release_command cmd = Ok tt
  ∧ ∃ fp, reserve_release_request_fingerprint encode_release cmd = Ok fp
  ∧ ((∃ row, List.find (λ r, String.eqb (idempotency_key (reserve_entry r)) (command_key cmd))
              (reserve_ledger (reserve_books db)) = Some row
        ∧ replay_release db cmd fp row = Ok o ∧ db' = db)
     ∨ (List.find (λ r, String.eqb (idempotency_key (reserve_entry r)) (command_key cmd))
              (reserve_ledger (reserve_books db)) = None
        ∧ new_release db tx cmd fp (mkMicroQuota (command_amount cmd)) = Ok (o, db'))).
Proof.
  unfold release_reserve. intros H. apply bind_Ok in H as ([] & Hv & H).
  apply bind_Ok in H as (fp & Hfp & H).
  apply bind_Ok in H as (m & [_ ->]%map_err_Ok%micro_new_Ok & H). split; [done|]. exists fp.
  split; [done|]. destruct (List.find _ _) as [row|].
  - left. apply bind_Ok in H as (o' & Ho & [= -> <-]). by exists row.
  - by right.
Qed.

Lemma replay_release_replay db cmd fp row o :
  replay_release db cmd fp row = Ok o → release_replay o = true.
Proof.
  unfold replay_release. intros H. apply bind_Ok in H as ([] & _ & H).
  by apply bind_Ok in H as (i & _ & [= <-]).
Qed.
End effects.

(** ** Properties *)

Section properties.
Context `{SE : Serde, C : Crypto}.
Context (encode_release : ReserveReleaseCommand → option string).

(** C25: an operator release takes exactly its amount from the reserve and leaves
    its audit trail. The transaction implements the in-memory reserve: the
    account rebuilt from the tables releases, and the account rebuilt afterwards
    is the one it left. The amount lies between 1 and the balance, only the
    reserve changes, one ledger row and one audit row that names it by
    identifier, hash, operator and reason are appended. *)
Theorem release_implements_reserve db tx cmd o db' :
  release_reserve encode_release db tx cmd = Ok (o, db') → release_replay o = false →
  books_ok (reserve_books db) →
  let b := reserve_books db in let b' := reserve_books db' in
  (∃ s s' rel, load_reserve_state b = Ok s
     ∧ release s (now_v7 tx 0%nat) (command_purpose cmd) (mkMicroQuota (command_amount cmd))
         (command_reference cmd) (now_utc tx 0%nat) = (Ok rel, s')
     ∧ load_reserve_state b' = Ok s')
  ∧ 1 ≤ command_amount cmd ≤ reserve_balance_micro b
  ∧ reserve_balance_micro b' = reserve_balance_micro b - command_amount cmd
  ∧ released_before o = reserve_balance_micro b ∧ released_after o = reserve_balance_micro b'
  ∧ accounts b' = accounts b ∧ quota_ledger b' = quota_ledger b
  ∧ contribution_ledger b' = contribution_ledger b
  ∧ (∃ e row, reserve_ledger b' = mkReserveRow e (Some (command_reference cmd)) :: reserve_ledger b
       ∧ amount_micro e = - command_amount cmd ∧ idempotency_key e = command_key cmd
       ∧ operator_releases db' = row :: operator_releases db
       ∧ reserve_ledger_id row = entry_id e ∧ reserve_ledger_entry_hash row = entry_hash e
       ∧ audit_operator row = operator_id cmd ∧ audit_reason row = reason cmd
       ∧ audit_amount row = command_amount cmd)
  ∧ books_ok b'.
Proof.
  intros H Hr Hok. apply release_reserve_Ok in H as (Hv & fp & _ & [(row & _ & Hrep & _)|[_ H]]).
  { apply replay_release_replay in Hrep. congruence. }
  apply validate_release_Ok in Hv as (Ha & _ & _).
  apply new_release_Ok in H as (s & rel & e & row & Hs & Hrel & Hi & Hid & Hkey & Ham & Hbe & Haf
    & _ & Hops & -> & ->).
  destruct (load_reserve_state_Ok _ _ Hok Hs) as [Hwf Es].
  destruct (release s _ _ _ _ _) as [r s'] eqn:E. simpl in Hrel. subst r.
  assert (MicroQuota.wf (mkMicroQuota (command_amount cmd))) as Hm.
  { unfold MicroQuota.wf, i64_max. simpl. lia. }
  pose proof (insert_reserve_ok _ _ _ _ Hok Hi) as Hok'.
  destruct (release_spec _ _ _ _ _ _ _ _ Hwf Hm E) as [(rel' & [= <-] & Hle & _ & -> & -> & _)|([x Hx] & _)]; [|done].
  rewrite Es in Hle, Haf. simpl in Hle, Haf.
  apply insert_reserve_Ok in Hi as (_ & _ & Hbal & Eb').
  rewrite Eb' in Hok' |- *. cbn [reserve_balance_micro accounts quota_ledger contribution_ledger reserve_ledger].
  split_and!; try done; try lia.
  - do 3 eexists. split; [exact Hs|]. split; [exact E|]. rewrite Es. cbn [balance total_inflow total_outflow as_i64].
    rewrite load_reserve_state_total; [|done|].
    + cbn [reserve_balance_micro reserve_ledger]. unfold inflow_sum, outflow_sum. simpl.
      rewrite Haf, Ham. f_equal. f_equal; f_equal; lia.
    + cbn [reserve_ledger]. destruct Hwf as (_ & (_ & Hin) & _). rewrite Es in Hin. simpl in Hin.
      unfold inflow_sum in *. simpl. rewrite Ham. lia.
  - cbn [released_after balance_after as_i64]. rewrite Es. simpl. lia.
  - exists e. eexists. split_and!; try done; simpl; congruence.
Qed.

(** Releasing is idempotent. Repeating a release that went through, in any
    later transaction, returns the same identifiers, balances and hash flagged as
    a replay and changes nothing; any other command with that key changes
    nothing either, and is answered only when amount, reference, purpose and
    request fingerprint are the same. *)
Theorem release_idempotent db tx cmd o db' :
  release_reserve encode_release db tx cmd = Ok (o, db') → release_replay o = false →
  (∀ tx', release_reserve encode_release db' tx' cmd
     = Ok (mkReleaseOutcome (operator_audit_id o) (released_id o) (released_purpose o)
             (released_amount o) (released_before o) (released_after o) (released_reference o)
             (released_hash o) true, db'))
  ∧ ∀ tx' cmd' o' db'', command_key cmd' = command_key cmd →
      release_reserve encode_release db' tx' cmd' = Ok (o', db'') →
      db'' = db' ∧ command_amount cmd' = command_amount cmd
      ∧ command_reference cmd' = command_reference cmd
      ∧ command_purpose cmd' = command_purpose cmd
      ∧ reserve_release_request_fingerprint encode_release cmd'
        = reserve_release_request_fingerprint encode_release cmd.
Proof.
  intros H Hr. apply release_reserve_Ok in H as (Hv & fp & Hfp & [(row & _ & Hrep & _)|[_ H]]).
  { apply replay_release_replay in Hrep. congruence. }
  apply new_release_Ok in H as (s & rel & e & row & _ & _ & Hi & Hid & Hkey & Ham & Hbe & Haf
    & Hty & Hops & Hrow & ->).
  apply insert_reserve_Ok in Hi as (_ & _ & _ & Eb').
  set (r := mkReserveRow e (Some (command_reference cmd))).
  assert (∀ k, k = command_key cmd →
    List.find (λ r, String.eqb (idempotency_key (reserve_entry r)) k) (reserve_ledger (reserve_books db'))
      = Some r) as Hfind.
  { intros k ->. rewrite Eb'. cbn [reserve_ledger]. apply find_head. simpl. rewrite Hkey.
    apply String.eqb_refl. }
  assert (List.find (λ a, reserve_ledger_id a =? entry_id e) (operator_releases db') = Some row) as Haudit.
  { rewrite Hops. apply find_head. rewrite Hrow. simpl. rewrite Hid. apply Z.eqb_refl. }
  split.
  - intros tx'. unfold release_reserve. rewrite Hv. simpl. rewrite Hfp. simpl.
    apply validate_release_Ok in Hv as (Ha & _). rewrite micro_new_nonneg by lia. simpl.
    rewrite (Hfind _ eq_refl). unfold replay_release. simpl. rewrite Haudit, Ham, Hty, Hrow. simpl.
    rewrite Z.eqb_refl, String.eqb_refl, !bool_decide_true by (done || by eexists). simpl.
    by rewrite Hbe, Haf, Hid.
  - intros tx' cmd' o' db'' Hk H'.
    apply release_reserve_Ok in H' as (_ & fp' & Hfp' & [(row' & Hf & Hrep & ->)|[Hn _]]).
    2: { rewrite (Hfind _ Hk) in Hn. done. }
    rewrite (Hfind _ Hk) in Hf. injection Hf as <-. unfold replay_release in Hrep.
    apply bind_Ok in Hrep as ([] & Hb%bail_if_Ok & _). simpl in Hb. rewrite Haudit, Hrow in Hb.
    rewrite !orb_false_iff, !negb_false_iff, !bool_decide_eq_true, Z.eqb_eq, String.eqb_eq, Ham, Hty in Hb.
    destruct Hb as ((((Hx1 & [= Hx2]) & Hx3) & [= Hx4]) & _). split_and!; try done; [lia| |congruence].
    by apply reserve_entry_type_inj.
Qed.

(** The reserve cannot be overdrawn. On consistent books a valid command
    with an unused key whose amount exceeds the balance is refused as
    insufficient, before any row is written. *)
Theorem release_overdraft_refused db tx cmd fp :
  books_ok (reserve_books db) → inflow_sum (reserve_ledger (reserve_books db)) ≤ i64_max →
  validate_reserve_release_command cmd = Ok tt →
  reserve_release_request_fingerprint encode_release cmd = Ok fp →
  (∀ r, r ∈ reserve_ledger (reserve_books db) → idempotency_key (reserve_entry r) ≠ command_key cmd) →
  reserve_balance_micro (reserve_books db) < command_amount cmd →
  release_reserve encode_release db tx cmd
    = Err (conflict "reserve_insufficient" "网络准备金余额不足").
Proof.
  intros Hok Hmax Hv Hfp Hnew Hlt. pose proof Hv as (Ha & Href & _)%validate_release_Ok.
  unfold release_reserve. rewrite Hv. simpl. rewrite Hfp. simpl.
  rewrite micro_new_nonneg by lia. simpl. destruct (List.find _ _) as [r|] eqn:Hf.
  { apply find_some in Hf as [Hin Heq%String.eqb_eq]. apply list_elem_of_In in Hin.
    by destruct (Hnew r Hin). }
  unfold new_release. rewrite load_reserve_state_total by done. simpl.
  unfold release. destruct (decide _) as [[= E]|_]; [lia|]. rewrite Href. simpl.
  unfold MicroQuota.checked_sub. simpl. by rewrite (proj2 (Z.ltb_lt _ _) Hlt).
Qed.
End properties.

(** ** Witnesses *)

Definition empty_books : Books := mkBooks ∅ [] [] 0 GENESIS_HASH 0 [].

Definition sample_inflow : LedgerEntry :=
  ok_default (sample_entry 0 0 0 "")
    (ledger_new uuid_to_string sha256_hex 200 RESERVE_ACCOUNT (Some 5) "job:5:reserve" ReserveInflow
       16560 0 16560 946684800000000000 GENESIS_HASH ∅).

Definition sample_reserve_books : Books :=
  ok_default empty_books (insert_reserve empty_books sample_inflow None).

Definition sample_reserve_db : ReserveDb := mkReserveDb sample_reserve_books [].

Lemma sample_reserve_ok : books_ok sample_reserve_books.
Proof.
  apply (insert_reserve_ok empty_books sample_inflow None); [|vm_cast_no_check (eq_refl (@Ok ApiError _ sample_reserve_books))].
  split_and!; [intros u a H; cbn in H; by rewrite lookup_empty in H|by intros e He%elem_of_nil..|constructor].
Qed.

Lemma sample_reserve_rows :
  idempotency_key ∘ reserve_entry <$> reserve_ledger sample_reserve_books = ["job:5:reserve"].
Proof. vm_cast_no_check (eq_refl ["job:5:reserve"]). Qed.

Definition sample_release_tx (n : Z) : Tx :=
  mkTx n (λ i, n + Z.of_nat i) (λ _, 946684800000000000 + n) "nonce-nonce-".

Definition sample_release (amount : Z) : ReserveReleaseCommand :=
  mkReleaseCommand FailedRetry amount "job-attempt-2" "release-1" "operator@example"
    "retry of a failed job".

Definition sample_encode (c : ReserveReleaseCommand) : option string :=
  Some (fields [reserve_entry_type (command_purpose c); dec (command_amount c);
    command_reference c; command_key c; operator_id c; reason c]).

Definition sample_released :=
  release_reserve sample_encode sample_reserve_db (sample_release_tx 1000) (sample_release 6000).
Definition sample_release_default : ReserveReleaseOutcome * ReserveDb :=
  (mkReleaseOutcome 0 0 FailedRetry 0 0 0 "" "" true, sample_reserve_db).
Definition sample_release_outcome : ReserveReleaseOutcome :=
  (ok_default sample_release_default sample_released).1.
Definition sample_release_db : ReserveDb := (ok_default sample_release_default sample_released).2.

Lemma sample_released_eq :
  release_reserve sample_encode sample_reserve_db (sample_release_tx 1000) (sample_release 6000)
    = Ok (sample_release_outcome, sample_release_db).
Proof. vm_cast_no_check (eq_refl sample_released). Qed.

Lemma sample_release_new : release_replay sample_release_outcome = false.
Proof. vm_cast_no_check (eq_refl false). Qed.

Lemma release_implements_reserve_witness :
  reserve_balance_micro (reserve_books sample_release_db) = 10560
  ∧ 1 ≤ 6000 ≤ reserve_balance_micro sample_reserve_books.
Proof.
  pose proof (release_implements_reserve sample_encode sample_reserve_db (sample_release_tx 1000)
    (sample_release 6000) sample_release_outcome sample_release_db sample_released_eq
    sample_release_new sample_reserve_ok) as (_ & Hr & Hb & _).
  split; [|exact Hr]. rewrite Hb. vm_compute. reflexivity.
Defined.

Lemma release_idempotent_witness :
  release_reserve sample_encode sample_release_db (sample_release_tx 2000) (sample_release 6000)
    = Ok (mkReleaseOutcome (operator_audit_id sample_release_outcome)
           (released_id sample_release_outcome) (released_purpose sample_release_outcome)
           (released_amount sample_release_outcome) (released_before sample_release_outcome)
           (released_after sample_release_outcome) (released_reference sample_release_outcome)
           (released_hash sample_release_outcome) true, sample_release_db).
Proof.
  exact (proj1 (release_idempotent sample_encode sample_reserve_db (sample_release_tx 1000)
    (sample_release 6000) sample_release_outcome sample_release_db sample_released_eq
    sample_release_new) (sample_release_tx 2000)).
Defined.

Lemma release_overdraft_refused_witness :
  release_reserve sample_encode sample_reserve_db (sample_release_tx 1000) (sample_release 16561)
    = Err (conflict "reserve_insufficient" "网络准备金余额不足").
Proof.
  refine (release_overdraft_refused sample_encode sample_reserve_db (sample_release_tx 1000)
    (sample_release 16561) (ok_default ""
      (reserve_release_request_fingerprint sample_encode (sample_release 16561)))
    sample_reserve_ok _ _ _ _ _).
  - vm_compute. discriminate.
  - vm_compute. reflexivity.
  - vm_compute. reflexivity.
  - intros r Hr. apply (list_elem_of_fmap_2 (idempotency_key ∘ reserve_entry)) in Hr.
    cbn [sample_reserve_db reserve_books] in Hr. rewrite sample_reserve_rows in Hr.
    apply list_elem_of_singleton in Hr. cbn [compose] in Hr. intros Heq. unfold compose in Hr.
    rewrite Heq in Hr. discriminate Hr.
  - vm_compute. reflexivity.
Defined.
