(* ===== verification/Files.v ===== *)
(** * Files: the part of [std::io] that model files are read with

    A file is the list of its bytes and a reader moves a position over it.
    [parses] says that a reader accepts exactly a format: what it consumed is
    of the format, and whatever is of the format is consumed.  The operating
    system is assumed to deliver the bytes; an interrupted or failed read can
    only refuse a file. *)
From S2P Require Import Prelude Text Net.
From Stdlib Require Import Ascii.

Local Open Scope string_scope.
Local Open Scope list_scope.
Local Open Scope Z_scope.

Definition len {A} (l : list A) : Z := Z.of_nat (length l).

(** ** Readers *)

Definition Reader (E A : Type) : Type := list Z → Z → result E (A * Z).

#[global] Instance reader_ret {E} : MRet (Reader E) := λ A a f p, Ok (a, p).
#[global] Instance reader_bind {E} : MBind (Reader E) := λ A B k m f p,
  match m f p with Ok (a, p') => k a f p' | Err e => Err e end.

Definition lift {E A} (r : result E A) : Reader E A := λ f p, a ← r; Ok (a, p).
Definition reader_map_err {E E' A} (g : E → E') (m : Reader E A) : Reader E' A := λ f p,
  map_err g (m f p).

(** [Read::read_exact] into a buffer of [n] bytes. *)
Definition read_exact (n : Z) : Reader string (list Z) := λ f p,
  let buffer := take (Z.to_nat n) (drop (Z.to_nat p) f) in
  if len buffer =? n then Ok (buffer, p + n) else Err "failed to fill whole buffer".

(** [Seek::seek] from the current position; offsets have 63 bits. *)
Definition seek_current (offset : Z) : Reader string () := λ f p,
  if in_range 0 i64_max (p + offset) then Ok (tt, p + offset)
  else Err "Invalid argument (os error 22)".

(** [from_le_bytes] of the next [n] bytes. *)
Definition read_uint (n : Z) : Reader string Z :=
  bytes ← read_exact n; mret (little_endian_to_Z 8 bytes).
Definition le_bytes (n v : Z) : list Z := Z_to_little_endian n 8 v.

(** The loop [for _ in 0..n]. *)
Fixpoint repeat_read {E S} (n : nat) (step : S → Reader E S) (s : S) : Reader E S :=
  match n with
  | O => mret s
  | Datatypes.S n' => s' ← step s; repeat_read n' step s'
  end.

(** ** [String::from_utf8]: where and how the text is not UTF-8 *)

Definition continuation (b : Z) : bool := in_range 128 191 b.
Definition second_of_three (b c : Z) : bool :=
  (b =? 224) && in_range 160 191 c || in_range 225 236 b && continuation c
  || (b =? 237) && in_range 128 159 c || in_range 238 239 b && continuation c.
Definition second_of_four (b c : Z) : bool :=
  (b =? 240) && in_range 144 191 c || in_range 241 243 b && continuation c
  || (b =? 244) && in_range 128 143 c.

Fixpoint utf8_error (i : Z) (l : list Z) : option (Z * option Z) :=
  match l with
  | [] => None
  | b :: l1 =>
    if b <? 128 then utf8_error (i + 1) l1
    else if in_range 194 223 b then
      match l1 with
      | [] => Some (i, None)
      | c :: l2 => if continuation c then utf8_error (i + 2) l2 else Some (i, Some 1)
      end
    else if in_range 224 239 b then
      match l1 with
      | [] => Some (i, None)
      | c :: l2 =>
        if negb (second_of_three b c) then Some (i, Some 1) else
        match l2 with
        | [] => Some (i, None)
        | d :: l3 => if continuation d then utf8_error (i + 3) l3 else Some (i, Some 2)
        end
      end
    else if in_range 240 244 b then
      match l1 with
      | [] => Some (i, None)
      | c :: l2 =>
        if negb (second_of_four b c) then Some (i, Some 1) else
        match l2 with
        | [] => Some (i, None)
        | d :: l3 =>
          if negb (continuation d) then Some (i, Some 2) else
          match l3 with
          | [] => Some (i, None)
          | e :: l4 => if continuation e then utf8_error (i + 4) l4 else Some (i, Some 3)
          end
        end
      end
    else Some (i, Some 1)
  end.

(** [Display] of the error. *)
Definition utf8_message (e : Z * option Z) : string :=
  match e with
  | (i, Some n) => "invalid utf-8 sequence of " +:+ dec n +:+ " bytes from index " +:+ dec i
  | (i, None) => "incomplete utf-8 byte sequence from index " +:+ dec i
  end.

Definition from_utf8 (l : list Z) : result string string :=
  match utf8_error 0 l with
  | None => Ok (string_of_bytes l)
  | Some e => Err (utf8_message e)
  end.

(** ** Bytes and their integers *)

Definition is_byte (b : Z) : Prop := 0 ≤ b < 256.
Definition file_ok (f : list Z) : Prop := Forall is_byte f ∧ len f ≤ i64_max.

Lemma file_ok_b f : forallb (in_range 0 255) f && (len f <=? i64_max) = true → file_ok f.
Proof.
  intros [H Hl%Z.leb_le]%andb_true_iff. split; [|done]. apply Forall_forall. intros b Hb.
  rewrite forallb_forall in H. apply list_elem_of_In in Hb.
  specialize (H b Hb). apply in_range_true in H. unfold is_byte. lia.
Qed.

Lemma len_nonneg {A} (l : list A) : 0 ≤ len l.
Proof. unfold len. lia. Qed.

Lemma len_app {A} (l1 l2 : list A) : len (l1 ++ l2) = len l1 + len l2.
Proof. unfold len. rewrite length_app. lia. Qed.

Lemma len_nil {A} (l : list A) : len l = 0 ↔ l = [].
Proof. unfold len. destruct l; simpl; split; (done || lia). Qed.

Lemma len_le_bytes n v : 0 ≤ n → len (le_bytes n v) = n.
Proof. apply length_Z_to_little_endian. Qed.

Lemma le_bytes_ok n v : 0 ≤ n → Forall is_byte (le_bytes n v).
Proof. intros. by apply (Z_to_little_endian_bound n 8). Qed.

Lemma le_bytes_value n v : 0 ≤ n → 0 ≤ v < 256 ^ n → little_endian_to_Z 8 (le_bytes n v) = v.
Proof.
  intros Hn Hv. unfold le_bytes. rewrite little_endian_to_Z_to_little_endian by lia.
  apply Z.mod_small. by rewrite Z.mul_comm, Z.pow_mul_r by lia.
Qed.

Lemma value_le_bytes n bytes :
  len bytes = n → Forall is_byte bytes →
  0 ≤ little_endian_to_Z 8 bytes < 256 ^ n ∧ le_bytes n (little_endian_to_Z 8 bytes) = bytes.
Proof.
  intros Hn Hb. split.
  - pose proof (little_endian_to_Z_bound 8 bytes ltac:(lia) Hb) as H.
    fold (len bytes) in H. rewrite Hn, Z.mul_comm, Z.pow_mul_r in H by (unfold len in Hn; lia). done.
  - apply Z_to_little_endian_to_Z; [done|lia|done].
Qed.

Lemma bytes_of_string_of_bytes l : Forall is_byte l → bytes_of (string_of_bytes l) = l.
Proof. induction 1 as [|b l Hb _ IH]; [done|]. simpl. by rewrite byte_val_of, IH. Qed.

Lemma byte_of_val a : byte_of (byte_val a) = a.
Proof. unfold byte_of, byte_val. by rewrite N2Z.id, ascii_N_embedding. Qed.

Lemma string_of_bytes_of s : string_of_bytes (bytes_of s) = s.
Proof. induction s as [|a s IH]; [done|]. simpl. by rewrite byte_of_val, IH. Qed.

Lemma bytes_of_ok s : Forall is_byte (bytes_of s).
Proof.
  induction s as [|a s IH]; constructor; [|done]. unfold is_byte, byte_val.
  pose proof (N_ascii_bounded a). lia.
Qed.

(** ** Formats *)

Definition slice (f : list Z) (p q : Z) : list Z := take (Z.to_nat (q - p)) (drop (Z.to_nat p) f).

Lemma len_slice f p q : 0 ≤ p ≤ q → q ≤ len f → len (slice f p q) = q - p.
Proof. unfold len, slice. intros. rewrite length_take, length_drop. lia. Qed.

Lemma slice_app f p q r : 0 ≤ p ≤ q → q ≤ r → slice f p r = slice f p q ++ slice f q r.
Proof.
  intros. unfold slice. replace (Z.to_nat (r - p)) with (Z.to_nat (q - p) + Z.to_nat (r - q))%nat by lia.
  rewrite <-take_take_drop, drop_drop. do 3 f_equal. lia.
Qed.

Lemma slice_nil f p : slice f p p = [].
Proof. unfold slice. by rewrite Z.sub_diag. Qed.

Lemma slice_ok f p q : Forall is_byte f → Forall is_byte (slice f p q).
Proof. intros. by apply Forall_take, Forall_drop. Qed.

Lemma slice_middle pre w rest : slice (pre ++ w ++ rest) (len pre) (len pre + len w) = w.
Proof.
  unfold slice, len. replace (Z.to_nat (Z.of_nat (length pre) + Z.of_nat (length w)
    - Z.of_nat (length pre))) with (length w) by lia.
  by rewrite Nat2Z.id, drop_app_length, take_app_length.
Qed.

(** [m] accepts exactly what [P] relates to its answer. *)
Record parses {E A} (m : Reader E A) (P : A → list Z → Prop) : Prop := mkParses {
  parses_sound f p a p' : file_ok f → 0 ≤ p → m f p = Ok (a, p') →
    p ≤ p' ∧ (p' ≤ len f → P a (slice f p p'));
  parses_complete pre w rest a : file_ok (pre ++ w ++ rest) → P a w →
    m (pre ++ w ++ rest) (len pre) = Ok (a, len pre + len w);
}.

Lemma parses_iff {E A} (m : Reader E A) P Q :
  (∀ a w, Forall is_byte w → P a w ↔ Q a w) → parses m P → parses m Q.
Proof.
  intros H [Hs Hc]. split.
  - intros f p a p' Hf Hp Hm. destruct (Hs f p a p' Hf Hp Hm) as [? HP]. split; [done|].
    intros Hl. apply H; [by apply slice_ok, Hf|auto].
  - intros pre w rest a Hf HQ. apply Hc; [done|]. apply H; [|done].
    destruct Hf as [Hf _]. by apply Forall_app in Hf as [_ [? _]%Forall_app].
Qed.

Lemma parses_ret {E A} (x : A) : parses (mret x : Reader E A) (λ a w, a = x ∧ w = []).
Proof.
  split.
  - intros f p a p' _ _ [= <- <-]. split; [lia|]. by rewrite slice_nil.
  - intros pre w rest a _ [-> ->]. unfold mret, reader_ret, len. simpl. by rewrite Z.add_0_r.
Qed.

Lemma parses_lift {E A} (r : result E A) : parses (lift r) (λ a w, r = Ok a ∧ w = []).
Proof.
  split.
  - intros f p a p' _ _ H. apply bind_Ok in H as (b & -> & [= <- <-]).
    split; [lia|]. by rewrite slice_nil.
  - intros pre w rest a _ [-> ->]. unfold lift, len. simpl. by rewrite Z.add_0_r.
Qed.

Lemma parses_map_err {E E' A} (g : E → E') (m : Reader E A) P :
  parses m P → parses (reader_map_err g m) P.
Proof.
  intros [Hs Hc]. split.
  - intros f p a p' Hf Hp H. apply map_err_Ok in H. eauto.
  - intros pre w rest a Hf HP. unfold reader_map_err. by rewrite (Hc pre w rest a Hf HP).
Qed.

Lemma parses_bind {E A B} (m : Reader E A) (k : A → Reader E B) P Q :
  parses m P → (∀ a, parses (k a) (Q a)) →
  parses (m ≫= k) (λ b w, ∃ a w1 w2, w = w1 ++ w2 ∧ P a w1 ∧ Q a b w2).
Proof.
  intros [Hs Hc] Hk. split.
  - intros f p b p2 Hf Hp H. unfold mbind, reader_bind in H.
    destruct (m f p) as [[a p1]|] eqn:Hm; [|done].
    destruct (Hs f p a p1 Hf Hp Hm) as [? HP].
    destruct (parses_sound _ _ (Hk a) f p1 b p2 Hf ltac:(lia) H) as [? HQ].
    split; [lia|]. intros Hl. exists a, (slice f p p1), (slice f p1 p2).
    rewrite <-slice_app by lia. split_and!; [done|apply HP; lia|by apply HQ].
  - intros pre w rest b Hf (a & w1 & w2 & -> & HP & HQ).
    assert (pre ++ (w1 ++ w2) ++ rest = pre ++ w1 ++ (w2 ++ rest)) as E1 by by rewrite !app_assoc.
    assert (pre ++ (w1 ++ w2) ++ rest = (pre ++ w1) ++ w2 ++ rest) as E2 by by rewrite !app_assoc.
    unfold mbind, reader_bind. rewrite E1, (Hc pre w1 (w2 ++ rest) a) by (by rewrite <-?E1).
    rewrite <-E1, E2, <-len_app, (parses_complete _ _ (Hk a) (pre ++ w1) w2 rest b)
      by (by rewrite <-?E2). rewrite !len_app. do 2 f_equal. lia.
Qed.

Lemma parses_exact n : parses (read_exact n) (λ a w, a = w ∧ len w = n).
Proof.
  split.
  - intros f p a p' Hf Hp H. unfold read_exact in H.
    destruct (_ =? n) eqn:E; [|done]. injection H as <- <-. apply Z.eqb_eq in E.
    split; [unfold len in E; lia|].
    intros Hl. unfold slice. replace (p + n - p) with n by lia. done.
  - intros pre w rest a Hf [-> Hw]. unfold read_exact.
    assert (take (Z.to_nat n) (drop (Z.to_nat (len pre)) (pre ++ w ++ rest)) = w) as ->.
    { replace n with (len pre + len w - len pre) by lia. apply slice_middle. }
    by rewrite Hw, Z.eqb_refl.
Qed.

Lemma parses_seek n : 0 ≤ n → parses (seek_current n) (λ _ w, len w = n).
Proof.
  intros Hn. split.
  - intros f p [] p' Hf Hp H. unfold seek_current in H. destruct (in_range _ _ _); [|done].
    injection H as <-. split; [lia|]. intros Hl. rewrite len_slice by lia. lia.
  - intros pre w rest [] [_ Hf] Hw. unfold seek_current.
    assert (in_range 0 i64_max (len pre + n) = true) as ->; [|by rewrite Hw].
    rewrite !len_app in Hf. apply in_range_true.
    pose proof (len_nonneg pre). pose proof (len_nonneg rest). lia.
Qed.

Lemma parses_uint n :
  0 ≤ n → parses (read_uint n) (λ v w, 0 ≤ v < 256 ^ n ∧ w = le_bytes n v).
Proof.
  intros Hn. eapply parses_iff; [|apply parses_bind; [apply parses_exact|intros; apply parses_ret]].
  intros v w Hw. cbn beta. split.
  - intros (a & w1 & w2 & -> & [-> Hl] & [-> ->]). rewrite app_nil_r in *.
    destruct (value_le_bytes n w1 Hl Hw) as [? ->]. done.
  - intros [Hv ->]. exists (le_bytes n v), (le_bytes n v), []. rewrite app_nil_r.
    by rewrite le_bytes_value, len_le_bytes.
Qed.

(** A loop over items that a step reads one of. *)
Fixpoint fold_option {S X} (next : S → X → option S) (s : S) (xs : list X) : option S :=
  match xs with
  | [] => Some s
  | x :: xs' => s' ← next s x; fold_option next s' xs'
  end.

Lemma fold_option_snoc {S X} (next : S → X → option S) s xs x :
  fold_option next s (xs ++ [x]) = s' ← fold_option next s xs; next s' x.
Proof.
  revert s. induction xs as [|y xs IH]; intros s; simpl; [by destruct (next s x)|].
  destruct (next s y); [apply IH|done].
Qed.

Lemma parses_repeat {E S X} (step : S → Reader E S) (next : S → X → option S) (ok : X → Prop)
    (encode : X → list Z) :
  (∀ s, parses (step s) (λ s' w, ∃ x, ok x ∧ w = encode x ∧ next s x = Some s')) →
  ∀ n s, parses (repeat_read n step s) (λ s' w, ∃ xs, length xs = n ∧ Forall ok xs
    ∧ w = mjoin (encode <$> xs) ∧ fold_option next s xs = Some s').
Proof.
  intros Hstep n. induction n as [|n IH]; intros s; cbn [repeat_read].
  - eapply parses_iff; [|apply parses_ret]. intros s' w _. split.
    + intros [-> ->]. by exists [].
    + intros (xs & Hl & _ & -> & Hf). apply nil_length_inv in Hl as ->. by injection Hf as ->.
  - eapply parses_iff; [|apply parses_bind; [apply Hstep|intros; apply IH]].
    intros s' w _. cbn beta. split.
    + intros (s1 & w1 & w2 & -> & (x & Hx & -> & Hn) & (xs & Hl & Hxs & -> & Hf)).
      exists (x :: xs). split_and!; [by simpl; rewrite Hl|by constructor|done|].
      simpl. by rewrite Hn.
    + intros ([|x xs] & Hl & Hxs & -> & Hf); [done|]. apply Forall_cons in Hxs as [? ?].
      apply bind_Some in Hf as (s1 & ? & ?). injection Hl as Hl.
      exists s1, (encode x), (mjoin (encode <$> xs)). split_and!; [done|by exists x|by exists xs].
Qed.

(** The next item has a format of its own. *)
Lemma parses_then {E A B} (m : Reader E A) (k : A → Reader E B) (ok : A → Prop)
    (encode : A → list Z) Q :
  parses m (λ a w, ok a ∧ w = encode a) → (∀ a, parses (k a) (Q a)) →
  parses (m ≫= k) (λ b w, ∃ a w', ok a ∧ w = encode a ++ w' ∧ Q a b w').
Proof.
  intros Hm Hk. eapply parses_iff; [|apply parses_bind; [exact Hm|exact Hk]].
  intros b w _. cbn beta. split.
  - intros (a & w1 & w2 & -> & [? ->] & ?). by exists a, w2.
  - intros (a & w2 & ? & -> & ?). by exists a, (encode a), w2.
Qed.

Lemma parses_fail {E A} (m : Reader E A) P :
  (∀ f p, is_ok (m f p) = false) → (∀ a w, ¬ P a w) → parses m P.
Proof.
  intros Hm HP. split.
  - intros f p a p' _ _ H. specialize (Hm f p). by rewrite H in Hm.
  - intros pre w rest a _ H. by destruct (HP a w).
Qed.

Lemma parses_lift_then {E A B} (r : result E A) (k : A → Reader E B) Q :
  (∀ a, r = Ok a → parses (k a) (Q a)) →
  parses (lift r ≫= k) (λ b w, ∃ a, r = Ok a ∧ Q a b w).
Proof.
  intros Hk. destruct r as [a|e].
  - apply (parses_iff (lift (Ok a) ≫= k) (Q a)); [|by apply Hk].
    intros b w _. split; [by exists a|]. by intros (? & [= ->] & ?).
  - apply parses_fail; [done|]. by intros b w (? & ? & _).
Qed.

Lemma parses_guard {E B} (c : bool) (e : E) (k : () → Reader E B) Q :
  (c = false → parses (k tt) Q) →
  parses (lift (bail_if c e) ≫= k) (λ b w, c = false ∧ Q b w).
Proof.
  intros Hk. destruct c.
  - apply parses_fail; [done|]. by intros b w [? _].
  - apply (parses_iff (k tt) Q); [|by apply Hk]. intros b w _. by split; [|intros [_ ?]].
Qed.

(** Readers that end with bytes that are there. *)
Definition ends_inside {E A} (m : Reader E A) : Prop :=
  ∀ f p a p', file_ok f → m f p = Ok (a, p') → p' ≤ len f.

Lemma ends_exact n : 0 < n → ends_inside (read_exact n).
Proof.
  intros Hn f p a p' _ H. unfold read_exact in H.
  destruct (_ =? n) eqn:E; [|done]. injection H as _ <-. apply Z.eqb_eq in E.
  unfold len in *. rewrite length_take, length_drop in E. lia.
Qed.

Lemma ends_map_err {E E' A} (g : E → E') (m : Reader E A) :
  ends_inside m → ends_inside (reader_map_err g m).
Proof. intros Hm f p a p' Hf H%map_err_Ok. by eapply Hm. Qed.

Lemma ends_bind {E A B} (m : Reader E A) (k : A → Reader E B) :
  (∀ a, ends_inside (k a)) → ends_inside (m ≫= k).
Proof.
  intros Hk f p b p' Hf H. unfold mbind, reader_bind in H. destruct (m f p) as [[a p1]|]; [|done].
  by eapply Hk.
Qed.

Lemma ends_bind_uint {E B} (g : string → E) n (k : Z → Reader E B) :
  (∀ v, 0 ≤ v → ends_inside (k v)) → ends_inside (reader_map_err g (read_uint n) ≫= k).
Proof.
  intros Hk f p b p' Hf H. unfold mbind, reader_bind in H.
  destruct (reader_map_err g (read_uint n) f p) as [[v p1]|] eqn:E1; [|done].
  apply map_err_Ok in E1. unfold read_uint, mbind, reader_bind, read_exact in E1.
  destruct (_ =? n); [|done]. injection E1 as <- <-. refine (Hk _ _ f _ b p' Hf H).
  apply (little_endian_to_Z_bound 8); [lia|]. apply Forall_take, Forall_drop, Hf.
Qed.

Lemma ends_guard {E B} (c : bool) (e : E) (k : () → Reader E B) :
  (c = false → ends_inside (k tt)) → ends_inside (lift (bail_if c e) ≫= k).
Proof. intros Hk f p b p' Hf H. destruct c; [done|]. exact (Hk eq_refl f p b p' Hf H). Qed.

Lemma ends_then {E A B} (m : Reader E A) (g : A → B) :
  ends_inside m → ends_inside (m ≫= λ a, mret (g a)).
Proof.
  intros Hm f p b p' Hf H. unfold mbind, reader_bind in H. destruct (m f p) as [[a p1]|] eqn:E1; [|done].
  injection H as _ <-. by eapply Hm.
Qed.

Lemma ends_uint n : 0 < n → ends_inside (read_uint n).
Proof. intros. by apply ends_then, ends_exact. Qed.

Lemma ends_repeat {E S} n (step : S → Reader E S) s :
  (0 < n)%nat → (∀ s, ends_inside (step s)) → ends_inside (repeat_read n step s).
Proof.
  intros Hn Hstep. revert s. induction n as [|n IH]; intros s; [lia|].
  destruct n as [|n].
  - apply (ends_then (step s) (λ s', s')), Hstep.
  - apply ends_bind. intros s'. apply IH. lia.
Qed.
