(* ===== verification/Paths.v ===== *)
(** * Paths: the part of [std::path] and [str] that model file names need

    A path is the bytes the operating system knows it by; its parts are those
    of [Path::components] on Unix. *)
From S2P Require Import Prelude Text Net StandardData Files.
From Stdlib Require Import Ascii.

Local Open Scope string_scope.
Local Open Scope list_scope.
Local Open Scope Z_scope.

(** ** [str] *)

(** [OsStr::to_str] *)
Definition to_str (s : string) : option string :=
  match utf8_error 0 (bytes_of s) with None => Some s | Some _ => None end.

(** [str::rsplit_once]: around the last match; no pattern here is empty. *)
Fixpoint rsplit_once (pattern s : string) : option (string * string) :=
  match s with
  | EmptyString => None
  | String a s' =>
    match rsplit_once pattern s' with
    | Some (before, after) => Some (String a before, after)
    | None => after ← strip_prefix pattern s; Some ("", after)
    end
  end.

(** [str::parse::<u16>] *)
Definition parse_u16 (s : string) : option Z :=
  let digits := match bytes_of s with 43 :: d => d | d => d end in
  let '(v, count, rest) := read_digits 10 0 0 digits in
  match rest with
  | [] => if (count =? 0)%nat || (65535 <? v) then None else Some v
  | _ => None
  end.

(** ** [std::path::Path] *)

Inductive Component : Type := RootDir | CurDir | ParentDir | Normal (name : string).

#[global] Instance Component_eq_dec : EqDecision Component.
Proof. solve_decision. Defined.

(** The pieces between slashes. *)
Fixpoint split_slash (s : string) : list string :=
  match s with
  | EmptyString => [""]
  | String a s' =>
    if Ascii.eqb a "/" then "" :: split_slash s'
    else match split_slash s' with
         | piece :: rest => String a piece :: rest
         | [] => [String a ""]
         end
  end.

(** Empty pieces and dots vanish, a leading dot and the root excepted. *)
Definition component (piece : string) : list Component :=
  if String.eqb piece "" || String.eqb piece "." then []
  else if String.eqb piece ".." then [ParentDir] else [Normal piece].

Definition components (path : string) : list Component :=
  let pieces := split_slash path in
  (if bool_decide (is_Some (strip_prefix "/" path)) then [RootDir]
   else if bool_decide (head pieces = Some ".") then [CurDir] else [])
  ++ flat_map component pieces.

Definition file_name (path : string) : option string :=
  match last (components path) with Some (Normal name) => Some name | _ => None end.

(** The components of [Path::parent]; paths are compared by components. *)
Definition parent (path : string) : option (list Component) :=
  match last (components path) with
  | Some RootDir | None => None
  | Some _ => Some (removelast (components path))
  end.

(** The part behind the last dot of a name, which is not its first byte. *)
Definition name_extension (name : string) : option string :=
  match rsplit_once "." name with
  | Some (before, after) => if str_is_empty before then None else Some after
  | None => None
  end.
Definition extension (path : string) : option string := file_name path ≫= name_extension.

(** ** Lemmas *)

Lemma rsplit_once_Some pattern s before after :
  rsplit_once pattern s = Some (before, after) → s = before +:+ pattern +:+ after.
Proof.
  revert before. induction s as [|a s IH]; intros before; [done|]. cbn [rsplit_once].
  destruct (rsplit_once pattern s) as [[b r]|].
  - intros [= <- <-]. rewrite (IH b eq_refl). done.
  - destruct (strip_prefix pattern (String a s)) as [r|] eqn:E; [|done]. intros [= <- <-].
    by apply strip_prefix_Some in E.
Qed.

(** The last match is found when nothing behind its first byte matches. *)
Lemma rsplit_once_last a pattern before after :
  rsplit_once (String a pattern) (pattern +:+ after) = None →
  rsplit_once (String a pattern) (before +:+ String a pattern +:+ after) = Some (before, after).
Proof.
  intros H. induction before as [|b before IH].
  - change ("" +:+ String a pattern +:+ after) with (String a (pattern +:+ after)).
    cbn [rsplit_once]. rewrite H.
    change (String a (pattern +:+ after)) with (String a pattern +:+ after).
    by rewrite strip_prefix_append.
  - change (String b before +:+ String a pattern +:+ after)
      with (String b (before +:+ String a pattern +:+ after)).
    cbn [rsplit_once]. by rewrite IH.
Qed.

Lemma rsplit_once_absent a pattern s :
  all_bytes (λ b, negb (b =? byte_val a)) s = true → rsplit_once (String a pattern) s = None.
Proof.
  intros Hs. induction s as [|b s IH]; [done|]. simpl in Hs. apply andb_true_iff in Hs as [Hb Hs].
  cbn [rsplit_once]. rewrite (IH Hs). simpl.
  destruct (Ascii.eqb_spec a b) as [->|]; [by rewrite Z.eqb_refl in Hb|done].
Qed.

Lemma all_bytes_impl (p q : Z → bool) s :
  (∀ b, p b = true → q b = true) → all_bytes p s = true → all_bytes q s = true.
Proof.
  intros H. induction s as [|a s IH]; simpl; [done|]. rewrite !andb_true_iff. intros [? ?]. eauto.
Qed.

Lemma rsplit_once_digits a pattern s :
  all_bytes is_ascii_digit s = true → is_ascii_digit (byte_val a) = false →
  rsplit_once (String a pattern) s = None.
Proof.
  intros Hs Ha. apply rsplit_once_absent. eapply all_bytes_impl; [|done]. intros b Hb.
  destruct (Z.eqb_spec b (byte_val a)) as [->|]; [congruence|done].
Qed.

Lemma strip_prefix_digits a pattern s :
  all_bytes is_ascii_digit s = true → is_ascii_digit (byte_val a) = false →
  strip_prefix (String a pattern) s = None.
Proof.
  intros Hs Ha. destruct s as [|b s]; [done|]. simpl in Hs |- *. apply andb_true_iff in Hs as [Hb _].
  destruct (Ascii.eqb_spec a b) as [->|]; [congruence|done].
Qed.

(** ** Five digits *)

Definition digit (v : Z) : ascii := byte_of (48 + v mod 10).

(** [format!("{v:05}")] of a number below 100000. *)
Definition pad5 (v : Z) : string :=
  String (digit (v / 10000)) (String (digit (v / 1000)) (String (digit (v / 100))
    (String (digit (v / 10)) (String (digit v) "")))).
#[global] Arguments pad5 : simpl never.

Lemma digit_of a v : v mod 10 = byte_val a - 48 → digit v = a.
Proof.
  intros H. unfold digit. rewrite H. replace (48 + (byte_val a - 48)) with (byte_val a) by lia.
  apply byte_of_val.
Qed.

Lemma byte_val_digit v : byte_val (digit v) = 48 + v mod 10.
Proof.
  unfold digit. pose proof (Z.mod_pos_bound v 10 ltac:(lia)). apply byte_val_of. lia.
Qed.

Lemma pad5_digits v : all_bytes is_ascii_digit (pad5 v) = true.
Proof.
  assert (∀ w, is_ascii_digit (byte_val (digit w)) = true) as H.
  { intros w. rewrite byte_val_digit. pose proof (Z.mod_pos_bound w 10 ltac:(lia)).
    apply in_range_true. lia. }
  unfold pad5. cbn [all_bytes]. by rewrite !H.
Qed.

Lemma to_digit_digit b : is_ascii_digit b = true → to_digit 10 b = Some (b - 48).
Proof.
  intros H. unfold to_digit. rewrite H. apply in_range_true in H. simpl.
  by rewrite (proj2 (Z.ltb_lt _ _)) by lia.
Qed.

Lemma parse_u16_five s v :
  str_len s = 5 → all_bytes is_ascii_digit s = true →
  parse_u16 s = Some v ↔ s = pad5 v ∧ 0 ≤ v ≤ 65535.
Proof.
  intros Hl Hs. destruct s as [|a [|b [|c [|d [|e [|]]]]]]; unfold str_len in Hl; simpl in Hl; try lia.
  cbn [all_bytes] in Hs. rewrite !andb_true_iff in Hs. destruct Hs as (Ha & Hb & Hc & Hd & He & _).
  set (w := ((((byte_val a - 48) * 10 + (byte_val b - 48)) * 10 + (byte_val c - 48)) * 10
    + (byte_val d - 48)) * 10 + (byte_val e - 48)).
  assert (parse_u16 (String a (String b (String c (String d (String e "")))))
    = if 65535 <? w then None else Some w) as ->.
  { unfold parse_u16. cbn [bytes_of].
    assert (∀ l : list Z, match byte_val a :: l with 43 :: x => x | x => x end = byte_val a :: l) as ->.
    { apply in_range_true in Ha. intros l. destruct (byte_val a) as [|p|p]; [lia| |lia].
      do 6 (try destruct p as [p|p|]); (done || lia). }
    cbn [read_digits]. rewrite !to_digit_digit by done. fold w. cbv beta iota. done. }
  apply in_range_true in Ha, Hb, Hc, Hd, He. split.
  - destruct (65535 <? w) eqn:E; [done|]. intros [= <-]. apply Z.ltb_ge in E. split; [|unfold w in *; lia].
    unfold pad5. rewrite (digit_of a), (digit_of b), (digit_of c), (digit_of d), (digit_of e); [done|..];
      unfold w; Z.div_mod_to_equations; lia.
  - intros [[= -> -> -> -> ->] Hv].
    assert (w = v) as -> by (unfold w; rewrite !byte_val_digit; Z.div_mod_to_equations; lia).
    by rewrite (proj2 (Z.ltb_ge _ _)) by lia.
Qed.
