(* ===== verification/Gguf.v ===== *)
(** * GGUF model files: mindone-engine, validation.rs

    A node accepts a model file only after its structure was checked.  A GGUF
    file is a header with metadata and tensor descriptions, padding, and the
    data of the tensors.  [repeat_read] is the loop [for _ in 0..n], and
    [skip_gguf_value] recurses over the levels that are left below
    [MAX_ARRAY_DEPTH]. *)
From S2P Require Import Prelude Text Net Files.

Local Open Scope string_scope.
Local Open Scope list_scope.
Local Open Scope Z_scope.

(** ** The types of validation.rs *)

Inductive ModelFormat : Type := Gguf | Safetensors.

#[global] Instance ModelFormat_eq_dec : EqDecision ModelFormat.
Proof. solve_decision. Defined.

(** The index counts from 0. *)
Record GgufSplitInfo : Type := mkSplitInfo { info_index : Z; info_count : Z }.

#[global] Instance GgufSplitInfo_eq_dec : EqDecision GgufSplitInfo.
Proof. solve_decision. Defined.

Inductive ValidationError : Type :=
| NotAFile (path : string)
| Symlink (path : string)
| UnsafeFormat (what : string)
| ExtensionMismatch
| InvalidSize (bytes : Z)
| InvalidGguf (why : string)
| InvalidSafetensors (why : string)
| ChecksumMismatch (expected actual : string)
| ConcurrentModification (path : string)
| Io (error : string).

Definition MAX_MODEL_BYTES : Z := 1099511627776.
Definition MAX_GGUF_COUNT : Z := 10000000.
Definition MAX_STRING_BYTES : Z := 16 * 1024 * 1024.
Definition MAX_SAFETENSORS_HEADER : Z := 100 * 1024 * 1024.
Definition MAX_ARRAY_DEPTH : nat := 4.

Record GgufTensor : Type := mkGgufTensor { offset : Z; elements : Z; tensor_kind : Z }.

(** ** Reading values *)

(** [.map_err(invalid_gguf_io)] *)
Definition invalid_gguf_io {A} (m : Reader string A) : Reader ValidationError A :=
  reader_map_err InvalidGguf m.
Definition gguf_error {A} (why : string) : result ValidationError A := Err (InvalidGguf why).
Definition read_u16 : Reader string Z := read_uint 2.
Definition read_u32 : Reader string Z := read_uint 4.
Definition read_u64 : Reader string Z := read_uint 8.

Definition read_gguf_string : Reader ValidationError string :=
  length ← invalid_gguf_io read_u64;
  _ ← lift (bail_if (MAX_STRING_BYTES <? length)
    (InvalidGguf ("字符串长度 " +:+ dec length +:+ " 超限")));
  value ← invalid_gguf_io (read_exact length);
  lift (map_err (λ e, InvalidGguf ("字符串不是 UTF-8：" +:+ e)) (from_utf8 value)).

Definition gguf_fixed_width (value_type : Z) : option Z :=
  match value_type with
  | 0 | 1 | 7 => Some 1
  | 2 | 3 => Some 2
  | 4 | 5 | 6 => Some 4
  | 10 | 11 | 12 => Some 8
  | _ => None
  end.

Definition seek_forward (bytes : Z) : Reader ValidationError () :=
  offset ← lift (ok_or (i64_try_from bytes) (InvalidGguf "跳过长度溢出"));
  invalid_gguf_io (seek_current offset).

(** The widths of the scalar types are those of [gguf_fixed_width]. *)
Fixpoint skip_gguf_value (levels : nat) (value_type : Z) : Reader ValidationError () :=
  match levels with
  | O => lift (gguf_error "元数据数组嵌套过深")
  | Datatypes.S deeper =>
    match gguf_fixed_width value_type with
    | Some width => seek_forward width
    | None =>
      if value_type =? 8 then _ ← read_gguf_string; mret tt
      else if value_type =? 9 then
        element_type ← invalid_gguf_io read_u32;
        count ← invalid_gguf_io read_u64;
        _ ← lift (bail_if (MAX_GGUF_COUNT <? count)
          (InvalidGguf ("元数据数组长度 " +:+ dec count +:+ " 超限")));
        match gguf_fixed_width element_type with
        | Some width =>
          bytes ← lift (ok_or (checked in_u64 (count * width)) (InvalidGguf "元数据数组大小溢出"));
          seek_forward bytes
        | None =>
          repeat_read (Z.to_nat count) (λ _, skip_gguf_value deeper element_type) tt
        end
      else lift (gguf_error ("未知元数据类型 " +:+ dec value_type))
    end
  end.

(** ** Metadata *)

Definition is_power_of_two (v : Z) : bool := (0 <? v) && (Z.land v (v - 1) =? 0).

(** What the loop over the metadata keeps. *)
Record Metadata : Type := mkMetadata {
  alignment : Z;
  split_no : option Z;
  split_total : option Z;
}.

Definition read_metadata (m : Metadata) : Reader ValidationError Metadata :=
  key ← read_gguf_string;
  value_type ← invalid_gguf_io read_u32;
  if String.eqb key "general.alignment" && (value_type =? 4) then
    value ← invalid_gguf_io read_u32;
    _ ← lift (bail_if ((value =? 0) || negb (is_power_of_two value) || (4096 <? value))
      (InvalidGguf "general.alignment 无效"));
    mret (mkMetadata value (split_no m) (split_total m))
  else if String.eqb key "split.no" then
    _ ← lift (bail_if (negb (value_type =? 2) || bool_decide (is_Some (split_no m)))
      (InvalidGguf "split.no 类型无效或重复"));
    value ← invalid_gguf_io read_u16;
    mret (mkMetadata (alignment m) (Some value) (split_total m))
  else if String.eqb key "split.count" then
    _ ← lift (bail_if (negb (value_type =? 2) || bool_decide (is_Some (split_total m)))
      (InvalidGguf "split.count 类型无效或重复"));
    value ← invalid_gguf_io read_u16;
    mret (mkMetadata (alignment m) (split_no m) (Some value))
  else
    _ ← skip_gguf_value (Datatypes.S MAX_ARRAY_DEPTH) value_type;
    mret m.

Definition split_info (m : Metadata) : result ValidationError (option GgufSplitInfo) :=
  match split_no m, split_total m with
  | None, None => Ok None
  | Some index, Some count =>
    if (index =? 0) && in_range 0 1 count then Ok None
    else if (1 <? count) && (index <? count) then Ok (Some (mkSplitInfo index count))
    else gguf_error "split.no/split.count 必须同时存在且编号有效"
  | _, _ => gguf_error "split.no/split.count 必须同时存在且编号有效"
  end.

(** ** Tensors *)

Definition read_dimension (product : Z) : Reader ValidationError Z :=
  dimension ← invalid_gguf_io read_u64;
  _ ← lift (bail_if (dimension =? 0) (InvalidGguf "张量维度不能为零"));
  lift (ok_or (checked in_u64 (product * dimension)) (InvalidGguf "张量元素数量溢出")).

Definition read_tensor (tensors : list GgufTensor) : Reader ValidationError (list GgufTensor) :=
  _ ← read_gguf_string;
  dimensions ← invalid_gguf_io read_u32;
  _ ← lift (bail_if (negb (in_range 1 4 dimensions))
    (InvalidGguf ("张量维度 " +:+ dec dimensions +:+ " 无效")));
  elements ← repeat_read (Z.to_nat dimensions) read_dimension 1;
  kind ← invalid_gguf_io read_u32;
  offset ← invalid_gguf_io read_u64;
  mret (tensors ++ [mkGgufTensor offset elements kind]).

Definition validate_tensor_alignment (offset alignment : Z) : result ValidationError () :=
  bail_if (negb (offset mod alignment =? 0))
    (InvalidGguf ("张量偏移 " +:+ dec offset +:+ " 未按 " +:+ dec alignment +:+ " 字节对齐")).

(** Elements and bytes of a block. *)
Definition ggml_block (kind : Z) : option (Z * Z) :=
  match kind with
  | 0 => Some (1, 4) | 1 => Some (1, 2) | 2 => Some (32, 18) | 3 => Some (32, 20)
  | 6 => Some (32, 22) | 7 => Some (32, 24) | 8 => Some (32, 34) | 9 => Some (32, 40)
  | 10 => Some (256, 84) | 11 => Some (256, 110) | 12 => Some (256, 144)
  | 13 => Some (256, 176) | 14 => Some (256, 210) | 15 => Some (256, 292)
  | 16 => Some (256, 66) | 17 => Some (256, 74) | 18 => Some (256, 98) | 19 => Some (256, 50)
  | 20 => Some (32, 18) | 21 => Some (256, 110) | 22 => Some (256, 82) | 23 => Some (256, 136)
  | 24 => Some (1, 1) | 25 => Some (1, 2) | 26 => Some (1, 4) | 27 => Some (1, 8)
  | 28 => Some (1, 8) | 29 => Some (256, 56) | 30 => Some (1, 2)
  | _ => None
  end.

Definition ggml_tensor_bytes (elements kind : Z) : result ValidationError Z :=
  '(block, bytes) ← ok_or (ggml_block kind)
    (InvalidGguf ("不支持的 GGML 张量类型 " +:+ dec kind));
  _ ← bail_if (negb (elements mod block =? 0))
    (InvalidGguf ("张量元素数 " +:+ dec elements +:+ " 不是量化块 " +:+ dec block +:+ " 的整数倍"));
  ok_or (checked in_u64 (elements / block * bytes)) (InvalidGguf "张量字节数溢出").

(** [!] on 64 bits. *)
Definition u64_not (v : Z) : Z := u64_max - v.

Definition align_up (value alignment : Z) : option Z :=
  mask ← checked in_u64 (alignment - 1);
  sum ← checked in_u64 (value + mask);
  Some (Z.land sum (u64_not mask)).

(** [slice::windows(2)] *)
Definition windows2 {A} (l : list A) : list (A * A) := zip l (tail l).

(** The range of a tensor in the data. *)
Definition tensor_range (alignment data_len : Z) (t : GgufTensor) : result ValidationError (Z * Z) :=
  _ ← validate_tensor_alignment (offset t) alignment;
  bytes ← ggml_tensor_bytes (elements t) (tensor_kind t);
  last ← ok_or (checked in_u64 (offset t + bytes)) (InvalidGguf "张量数据偏移溢出");
  _ ← bail_if (data_len <? last)
    (InvalidGguf ("张量数据越界：offset=" +:+ dec (offset t) +:+ " bytes=" +:+ dec bytes
       +:+ " data=" +:+ dec data_len));
  Ok (offset t, last).

Definition range_cmp : Z * Z → Z * Z → comparison :=
  cmp_then (cmp_on fst Z.compare) (cmp_on snd Z.compare).

Definition validate_ranges (alignment data_len : Z) (tensors : list GgufTensor)
    : result ValidationError () :=
  ranges ← fold_each (λ ranges t, r ← tensor_range alignment data_len t; Ok (ranges ++ [r]))
    [] tensors;
  for_each (λ p : (Z * Z) * (Z * Z), bail_if (p.2.1 <? p.1.2) (InvalidGguf "张量数据区重叠"))
    (windows2 (sort_by range_cmp ranges)).

(** The header up to the descriptions of the tensors. *)
Definition read_header : Reader ValidationError (Z * Metadata * option GgufSplitInfo * list GgufTensor) :=
  magic ← invalid_gguf_io (read_exact 4);
  _ ← lift (bail_if (negb (bool_decide (magic = bytes_of "GGUF"))) (InvalidGguf "magic 不匹配"));
  version ← invalid_gguf_io read_u32;
  _ ← lift (bail_if (negb (in_range 1 3 version)) (InvalidGguf ("不支持 GGUF v" +:+ dec version)));
  tensor_count ← invalid_gguf_io read_u64;
  metadata_count ← invalid_gguf_io read_u64;
  _ ← lift (bail_if ((tensor_count =? 0) || (MAX_GGUF_COUNT <? tensor_count))
    (InvalidGguf ("张量数量 " +:+ dec tensor_count +:+ " 无效")));
  _ ← lift (bail_if (MAX_GGUF_COUNT <? metadata_count)
    (InvalidGguf ("元数据数量 " +:+ dec metadata_count +:+ " 超限")));
  m ← repeat_read (Z.to_nat metadata_count) read_metadata (mkMetadata 32 None None);
  split ← lift (split_info m);
  tensors ← repeat_read (Z.to_nat tensor_count) read_tensor [];
  mret (tensor_count, m, split, tensors).

Definition validate_gguf (file : list Z) (file_size : Z)
    : result ValidationError (Z * option GgufSplitInfo) :=
  '(tensor_count, m, split, tensors, info_end) ← read_header file 0;
  data_start ← ok_or (align_up info_end (alignment m)) (InvalidGguf "数据区偏移溢出");
  _ ← bail_if (file_size <=? data_start) (InvalidGguf "GGUF 没有有效数据区");
  let data_len := file_size - data_start in
  _ ← validate_ranges (alignment m) data_len tensors;
  Ok (tensor_count, split).
