(* ===== verification/GgufSpec.v ===== *)
(** * What a GGUF file is

    The format as an encoder: metadata entries and tensor descriptions with
    their bytes, and the layout of the data.  [validate_gguf] accepts exactly
    the files of the format. *)
From S2P Require Import Prelude Text Net Files Gguf.
From Stdlib Require Import Sorting.Sorted.

Local Open Scope string_scope.
Local Open Scope list_scope.
Local Open Scope Z_scope.

(** ** The format *)

Inductive Value : Type :=
| Scalar (type : Z) (bytes : list Z)
| Text (s : string)
| Array (element : Z) (values : list Value).

Definition type_of (v : Value) : Z :=
  match v with Scalar type _ => type | Text _ => 8 | Array _ _ => 9 end.

Definition encode_string (s : string) : list Z := le_bytes 8 (str_len s) ++ bytes_of s.

Fixpoint encode_value (v : Value) : list Z :=
  match v with
  | Scalar _ bytes => bytes
  | Text s => encode_string s
  | Array element values =>
    le_bytes 4 element ++ le_bytes 8 (len values) ++ flat_map encode_value values
  end.

Definition text_ok (s : string) : Prop :=
  str_len s ≤ MAX_STRING_BYTES ∧ utf8_error 0 (bytes_of s) = None.

(** An array of scalars may stand one level deeper than one of texts or arrays. *)
Fixpoint value_ok (levels : nat) (v : Value) : Prop :=
  match levels with
  | O => False
  | Datatypes.S deeper =>
    match v with
    | Scalar type bytes => gguf_fixed_width type = Some (len bytes)
    | Text s => text_ok s
    | Array element values =>
      0 ≤ element < 2 ^ 32 ∧ len values ≤ MAX_GGUF_COUNT
      ∧ Forall (λ v, type_of v = element ∧
          match gguf_fixed_width element with
          | Some width => ∃ bytes, v = Scalar element bytes ∧ len bytes = width
          | None => value_ok deeper v
          end) values
    end
  end.

Abbreviation Entry := (string * Value)%type.
Definition encode_entry (e : Entry) : list Z :=
  encode_string e.1 ++ le_bytes 4 (type_of e.2) ++ encode_value e.2.
Definition entry_ok (e : Entry) : Prop :=
  text_ok e.1 ∧ value_ok (Datatypes.S MAX_ARRAY_DEPTH) e.2.

Record TensorInfo : Type := mkTensorInfo {
  tensor_name : string;
  dimensions : list Z;
  info_kind : Z;
  info_offset : Z;
}.

Definition element_count (t : TensorInfo) : Z := foldr Z.mul 1 (dimensions t).
Definition encode_tensor (t : TensorInfo) : list Z :=
  encode_string (tensor_name t) ++ le_bytes 4 (len (dimensions t))
  ++ mjoin (le_bytes 8 <$> dimensions t) ++ le_bytes 4 (info_kind t) ++ le_bytes 8 (info_offset t).
Definition tensor_ok (t : TensorInfo) : Prop :=
  text_ok (tensor_name t) ∧ 1 ≤ len (dimensions t) ≤ 4
  ∧ Forall (λ d, 0 < d < 2 ^ 64) (dimensions t) ∧ element_count t < 2 ^ 64
  ∧ 0 ≤ info_kind t < 2 ^ 32 ∧ 0 ≤ info_offset t < 2 ^ 64.

Record GgufFile : Type := mkGgufFile {
  version : Z;
  metadata : list Entry;
  tensors : list TensorInfo;
}.

Definition encode_gguf (g : GgufFile) : list Z :=
  bytes_of "GGUF" ++ le_bytes 4 (version g) ++ le_bytes 8 (len (tensors g))
  ++ le_bytes 8 (len (metadata g)) ++ mjoin (encode_entry <$> metadata g)
  ++ mjoin (encode_tensor <$> tensors g).

(** The alignments the metadata gives; the last one counts. *)
Definition alignments (l : list Entry) : list Z :=
  omap (λ e : Entry, if String.eqb e.1 "general.alignment" then
          match e.2 with
          | Scalar type bytes => if type =? 4 then Some (little_endian_to_Z 8 bytes) else None
          | _ => None
          end else None) l.
Definition alignment_of (l : list Entry) : Z := default 32 (last (alignments l)).
Definition alignment_ok (a : Z) : Prop := is_power_of_two a = true ∧ a ≤ 4096.

Definition named (key : string) (l : list Entry) : list Value :=
  snd <$> List.filter (λ e, String.eqb e.1 key) l.

(** A key that stands at most once, with a 16-bit number. *)
Definition one_u16 (key : string) (l : list Entry) (o : option Z) : Prop :=
  match named key l with
  | [] => o = None
  | [v] => ∃ bytes, v = Scalar 2 bytes ∧ o = Some (little_endian_to_Z 8 bytes)
  | _ => False
  end.

(** What the file says about the package it is a part of. *)
Definition split_of (l : list Entry) (split : option GgufSplitInfo) : Prop :=
  ∃ index count, one_u16 "split.no" l index ∧ one_u16 "split.count" l count ∧
    match index, count with
    | None, None => split = None
    | Some i, Some n =>
      i = 0 ∧ 0 ≤ n ≤ 1 ∧ split = None ∨ i < n ∧ 1 < n ∧ split = Some (mkSplitInfo i n)
    | _, _ => False
    end.

Definition gguf_ok (g : GgufFile) : Prop :=
  1 ≤ version g ≤ 3 ∧ 1 ≤ len (tensors g) ≤ MAX_GGUF_COUNT
  ∧ len (metadata g) ≤ MAX_GGUF_COUNT ∧ Forall entry_ok (metadata g)
  ∧ Forall alignment_ok (alignments (metadata g)) ∧ Forall tensor_ok (tensors g).

(** The data begins at the next multiple of the alignment. *)
Definition data_start (g : GgufFile) : Z :=
  let a := alignment_of (metadata g) in (len (encode_gguf g) + (a - 1)) / a * a.

(** The part of the data a tensor occupies. *)
Definition occupies (t : TensorInfo) (r : Z * Z) : Prop :=
  ∃ block bytes, ggml_block (info_kind t) = Some (block, bytes) ∧ (block | element_count t)
    ∧ r = (info_offset t, info_offset t + element_count t / block * bytes).
Definition disjoint_ranges (r r' : Z * Z) : Prop := r.2 ≤ r'.1 ∨ r'.2 ≤ r.1.

Definition layout_ok (g : GgufFile) (file_size : Z) : Prop :=
  data_start g < file_size
  ∧ ∃ ranges, Forall2 occupies (tensors g) ranges
      ∧ Forall (λ r, (alignment_of (metadata g) | r.1) ∧ r.2 ≤ file_size - data_start g) ranges
      ∧ StronglySorted disjoint_ranges ranges.

(** ** Values *)

Lemma utf8_text bytes s :
  Forall is_byte bytes →
  from_utf8 bytes = Ok s ↔ utf8_error 0 (bytes_of s) = None ∧ bytes = bytes_of s.
Proof.
  intros Hb. unfold from_utf8. split.
  - destruct (utf8_error 0 bytes) eqn:E; [done|]. intros [= <-].
    by rewrite bytes_of_string_of_bytes.
  - intros [H ->]. by rewrite H, string_of_bytes_of.
Qed.

Lemma len_bytes_of s : len (bytes_of s) = str_len s.
Proof. unfold len, str_len. f_equal. by induction s; simpl; congruence. Qed.

Lemma read_u16_parses : parses (invalid_gguf_io read_u16) (λ v w, 0 ≤ v < 2 ^ 16 ∧ w = le_bytes 2 v).
Proof. by apply parses_map_err, (parses_uint 2). Qed.
Lemma read_u32_parses : parses (invalid_gguf_io read_u32) (λ v w, 0 ≤ v < 2 ^ 32 ∧ w = le_bytes 4 v).
Proof. by apply parses_map_err, (parses_uint 4). Qed.
Lemma read_u64_parses : parses (invalid_gguf_io read_u64) (λ v w, 0 ≤ v < 2 ^ 64 ∧ w = le_bytes 8 v).
Proof. by apply parses_map_err, (parses_uint 8). Qed.

Lemma string_parses : parses read_gguf_string (λ s w, text_ok s ∧ w = encode_string s).
Proof.
  assert (∀ n, parses (value ← invalid_gguf_io (read_exact n);
      lift (map_err (λ e, InvalidGguf ("字符串不是 UTF-8：" +:+ e)) (from_utf8 value)))
    (λ s w, len w = n ∧ from_utf8 w = Ok s)) as Htext.
  { intros n. eapply parses_iff; [|apply parses_bind;
      [apply parses_map_err, parses_exact|intros; apply parses_lift]].
    intros s w _. cbn beta. split.
    - intros (a & w1 & w2 & -> & [-> ?] & [?%map_err_Ok ->]). by rewrite app_nil_r.
    - intros [Hl H]. exists w, w, []. rewrite app_nil_r, H. done. }
  unfold read_gguf_string. eapply parses_iff;
    [|eapply parses_then; [exact read_u64_parses|intros n; apply parses_guard; intros _; apply Htext]].
  intros s w Hw. cbn beta. setoid_rewrite Z.ltb_ge. split.
  - intros (n & w' & Hn & -> & Hmax & <- & H). apply Forall_app in Hw as [_ Hw].
    apply utf8_text in H as [? ->]; [|done]. rewrite len_bytes_of in *. done.
  - intros [[Hmax Hutf] ->]. exists (str_len s), (bytes_of s). rewrite len_bytes_of.
    unfold MAX_STRING_BYTES in *. split_and!; [unfold str_len; lia|lia|done|done|done|].
    by apply utf8_text; [apply bytes_of_ok|].
Qed.

Lemma seek_parses n :
  0 ≤ n ≤ i64_max → parses (seek_forward n) (λ _ w, len w = n).
Proof.
  intros Hn. unfold seek_forward. assert (i64_try_from n = Some n) as ->.
  { apply checked_true, in_range_true. unfold i64_min. lia. }
  apply (parses_map_err InvalidGguf (seek_current n)), parses_seek. lia.
Qed.

Lemma fixed_width_some type width :
  gguf_fixed_width type = Some width → 0 ≤ type ≤ 12 ∧ type ≠ 8 ∧ type ≠ 9 ∧ 1 ≤ width ≤ 8.
Proof.
  unfold gguf_fixed_width. intros H. destruct type as [|p|p]; [injection H; lia| |done].
  do 4 (try destruct p as [p|p|]); simplify_eq; lia.
Qed.

(** A run of bytes is cut into pieces of one width. *)
Lemma chop (n : nat) width (w : list Z) :
  0 ≤ width → len w = Z.of_nat n * width →
  ∃ pieces, length pieces = n ∧ Forall (λ b, len b = width) pieces ∧ mjoin pieces = w.
Proof.
  intros Hw. revert w. induction n as [|n IH]; intros w Hl.
  - exists []. apply len_nil in Hl as ->. done.
  - destruct (IH (drop (Z.to_nat width) w)) as (pieces & ? & ? & Hj).
    { unfold len in *. rewrite length_drop. lia. }
    exists (take (Z.to_nat width) w :: pieces). split_and!; [simpl; congruence|constructor; [|done]|].
    + unfold len in *. rewrite length_take. lia.
    + simpl. by rewrite Hj, take_drop.
Qed.

Lemma len_join_pieces {A} width (pieces : list (list A)) :
  Forall (λ b, len b = width) pieces → len (mjoin pieces) = len pieces * width.
Proof.
  induction 1 as [|b pieces Hb _ IH]; [done|]. simpl. rewrite len_app, IH, Hb. unfold len. simpl. lia.
Qed.

Lemma flat_map_join {X} (f : X → list Z) (l : list X) : flat_map f l = mjoin (f <$> l).
Proof. induction l as [|x l IH]; [done|]. simpl. by rewrite IH. Qed.

Lemma encode_scalars type pieces :
  flat_map encode_value (Scalar type <$> pieces) = mjoin pieces.
Proof. rewrite flat_map_join, <-list_fmap_compose. f_equal. by induction pieces; f_equal/=. Qed.

Lemma fold_unit {X} (xs : list X) : fold_option (λ (_ : ()) _, Some tt) tt xs = Some tt.
Proof. by induction xs. Qed.

(** The elements of an array, in both ways they are skipped. *)
Lemma scalars_parse element width n :
  gguf_fixed_width element = Some width → n ≤ MAX_GGUF_COUNT →
  parses (bytes ← lift (ok_or (checked in_u64 (n * width)) (InvalidGguf "元数据数组大小溢出"));
          seek_forward bytes)
    (λ _ w, ∃ values, len values = n
       ∧ Forall (λ v, ∃ bytes, v = Scalar element bytes ∧ len bytes = width) values
       ∧ w = flat_map encode_value values).
Proof.
  intros Hw Hn. apply fixed_width_some in Hw as (_ & _ & _ & Hw). unfold MAX_GGUF_COUNT in Hn.
  destruct (decide (0 ≤ n)) as [Hn0|Hn0].
  2:{ assert (checked in_u64 (n * width) = None) as ->.
      { apply checked_None, in_range_false. nia. }
      apply parses_fail; [done|]. intros _ w (values & Hl & _). unfold len in Hl. lia. }
  assert (checked in_u64 (n * width) = Some (n * width)) as ->.
  { apply checked_true, in_range_true. unfold u64_max. nia. }
  eapply (parses_iff (seek_forward (n * width)) (λ _ w, len w = n * width));
    [|apply seek_parses; unfold i64_max; nia].
  intros [] w _. split.
  - intros Hl. destruct (chop (Z.to_nat n) width w) as (pieces & Hp & Hlen & <-); [lia|lia|].
    exists (Scalar element <$> pieces). unfold len at 1. rewrite length_fmap, Hp, encode_scalars.
    split_and!; [lia| |done]. apply Forall_fmap. eapply Forall_impl; [done|]. simpl. eauto.
  - intros (values & Hl & Hv & ->).
    assert (∃ pieces, values = Scalar element <$> pieces ∧ Forall (λ b, len b = width) pieces)
      as (pieces & -> & Hp).
    { clear Hl. induction Hv as [|v values (b & -> & ?) _ (pieces & -> & ?)]; [by exists []|].
      exists (b :: pieces). by split; [|constructor]. }
    rewrite encode_scalars, (len_join_pieces _ _ Hp). unfold len in *. rewrite length_fmap in Hl. lia.
Qed.

Definition element_ok (deeper : nat) (element : Z) (v : Value) : Prop :=
  type_of v = element ∧
    match gguf_fixed_width element with
    | Some width => ∃ bytes, v = Scalar element bytes ∧ len bytes = width
    | None => value_ok deeper v
    end.

Lemma elements_parse deeper element n :
  (∀ type, parses (skip_gguf_value deeper type)
     (λ _ w, ∃ v, value_ok deeper v ∧ type_of v = type ∧ w = encode_value v)) →
  n ≤ MAX_GGUF_COUNT →
  parses (match gguf_fixed_width element with
      | Some width =>
        bytes ← lift (ok_or (checked in_u64 (n * width)) (InvalidGguf "元数据数组大小溢出"));
        seek_forward bytes
      | None => repeat_read (Z.to_nat n) (λ _, skip_gguf_value deeper element) tt
      end)
    (λ _ w, ∃ values, (len values = n ∨ n < 0 ∧ values = [] ∧ gguf_fixed_width element = None)
       ∧ Forall (element_ok deeper element) values ∧ w = flat_map encode_value values).
Proof.
  intros Hdeeper Hn. unfold element_ok.
  destruct (gguf_fixed_width element) as [width|] eqn:Hfixed.
  - eapply parses_iff; [|by apply scalars_parse]. intros [] w _. split.
    + intros (values & ? & Hv & ->). exists values. split_and!; [by left| |done].
      eapply Forall_impl; [done|]. intros v (b & -> & ?). simpl. eauto.
    + intros (values & [?|(_ & _ & ?)] & Hv & ->); [|done]. exists values. split_and!; [done| |done].
      eapply Forall_impl; [done|]. by intros v [_ ?].
  - eapply parses_iff; [|apply (parses_repeat _ (λ _ _, Some tt)
      (λ v, type_of v = element ∧ value_ok deeper v) encode_value)].
    + intros [] w _. cbn beta. setoid_rewrite flat_map_join. split.
      * intros (values & ? & ? & -> & _). exists values. split_and!; [|done..]. unfold len.
        destruct (decide (0 ≤ n)); [lia|]. right. split_and!; [lia| |done].
        apply nil_length_inv. lia.
      * intros (values & Hl & ? & ->). exists values. split_and!; [|done|done|apply fold_unit].
        unfold len in Hl. destruct Hl as [?|(? & -> & _)]; simpl; lia.
    + intros []. eapply parses_iff; [|apply Hdeeper]. intros [] w _. split.
      * intros (v & ? & ? & ?). by exists v.
      * intros (v & [? ?] & ? & _). by exists v.
Qed.

Lemma skip_parses levels type :
  parses (skip_gguf_value levels type)
    (λ _ w, ∃ v, value_ok levels v ∧ type_of v = type ∧ w = encode_value v).
Proof.
  revert type. induction levels as [|deeper IH]; intros type; cbn [skip_gguf_value].
  { apply parses_fail; [done|]. by intros [] w (v & ? & _). }
  destruct (gguf_fixed_width type) as [width|] eqn:Hfixed.
  { pose proof (fixed_width_some _ _ Hfixed) as (? & ? & ? & Hw).
    eapply parses_iff; [|apply (seek_parses width); unfold i64_max; lia]. intros [] w _. split.
    - intros <-. by exists (Scalar type w).
    - intros (v & Hv & <- & ->). destruct v; cbn in Hv, Hfixed |- *; simplify_eq; done. }
  destruct (type =? 8) eqn:H8; [apply Z.eqb_eq in H8 as ->|apply Z.eqb_neq in H8].
  { eapply parses_iff; [|eapply parses_then; [exact string_parses|intros s; apply parses_ret]].
    intros [] w _. cbn beta. split.
    - intros (s & w' & ? & -> & _ & ->). exists (Text s). by rewrite app_nil_r.
    - intros (v & Hv & Ht & ->). destruct v as [t b|s|]; cbn in Hv, Ht |- *; [congruence| |done].
      exists s, []. by rewrite app_nil_r. }
  destruct (type =? 9) eqn:H9; [apply Z.eqb_eq in H9 as ->|apply Z.eqb_neq in H9].
  2:{ apply parses_fail; [done|]. intros [] w (v & Hv & Ht & _). destruct v; cbn in Hv, Ht; congruence. }
  eapply parses_iff; [|eapply parses_then; [exact read_u32_parses|intros element;
    eapply parses_then; [exact read_u64_parses|intros count; apply parses_guard; intros Hc;
      apply elements_parse; [exact IH|by apply Z.ltb_ge in Hc]]]].
  intros [] w _. cbn beta. setoid_rewrite Z.ltb_ge. split.
  - intros (element & w1 & ? & -> & n & w2 & ? & -> & ? & values & Hl & ? & ->).
    exists (Array element values). destruct Hl as [<-|?]; [|lia]. done.
  - intros (v & Hv & Ht & ->). destruct v as [t b|s|element values]; cbn in Hv, Ht; [congruence|done|].
    destruct Hv as (? & ? & ?). unfold MAX_GGUF_COUNT in *.
    exists element, (le_bytes 8 (len values) ++ flat_map encode_value values).
    split_and!; [lia..|done|]. exists (len values), (flat_map encode_value values).
    pose proof (len_nonneg values). split_and!; [lia..|done|done|]. exists values. split_and!; [by left|done..].
Qed.

(** ** Metadata *)

(** What an entry does to the state of the loop. *)
Definition next_metadata (m : Metadata) (e : Entry) : option Metadata :=
  let bytes := match e.2 with Scalar _ bytes => bytes | _ => [] end in
  let value := little_endian_to_Z 8 bytes in
  if String.eqb e.1 "general.alignment" && (type_of e.2 =? 4) then
    if is_power_of_two value && (value <=? 4096)
    then Some (mkMetadata value (split_no m) (split_total m)) else None
  else if String.eqb e.1 "split.no" then
    if (type_of e.2 =? 2) && bool_decide (split_no m = None)
    then Some (mkMetadata (alignment m) (Some value) (split_total m)) else None
  else if String.eqb e.1 "split.count" then
    if (type_of e.2 =? 2) && bool_decide (split_total m = None)
    then Some (mkMetadata (alignment m) (split_no m) (Some value)) else None
  else Some m.

(** A value of a scalar type is its bytes. *)
Lemma scalar_value levels type width v :
  gguf_fixed_width type = Some width → value_ok levels v → type_of v = type →
  ∃ bytes, v = Scalar type bytes ∧ len bytes = width.
Proof.
  intros Hw Hv Ht. destruct levels as [|n]; [done|].
  destruct v as [t b|s|e l]; cbn in Hv, Ht; subst; [|done..]. exists b. split; [done|congruence].
Qed.

Lemma type_range levels v : value_ok levels v → 0 ≤ type_of v ≤ 12.
Proof.
  destruct levels as [|n]; [done|]. destruct v; cbn; [|lia..].
  intros H%fixed_width_some. lia.
Qed.

Definition scalar_of (v : Value) : Z :=
  little_endian_to_Z 8 (match v with Scalar _ bytes => bytes | _ => [] end).

Lemma scalar_parses {A} n type (k : Z → Reader ValidationError A) (R : Z → A → Prop) :
  0 ≤ n → gguf_fixed_width type = Some n → (∀ v, parses (k v) (λ a w, R v a ∧ w = [])) →
  parses (value ← invalid_gguf_io (read_uint n); k value)
    (λ a w, ∃ v, value_ok (Datatypes.S MAX_ARRAY_DEPTH) v ∧ type_of v = type ∧ w = encode_value v
       ∧ R (scalar_of v) a).
Proof.
  intros Hn Hw Hk. eapply parses_iff; [|eapply parses_then;
    [by apply parses_map_err, parses_uint|exact Hk]].
  intros a w Hbytes. cbn beta. split.
  - intros (v & w' & ? & -> & ? & ->). exists (Scalar type (le_bytes n v)). rewrite app_nil_r.
    unfold scalar_of. rewrite le_bytes_value by done.
    split_and!; [|done..]. cbn. by rewrite len_le_bytes.
  - intros (v & Hv & Ht & -> & ?).
    destruct (scalar_value _ _ _ _ Hw Hv Ht) as (bytes & -> & Hl). cbn in Hbytes |- *.
    destruct (value_le_bytes n bytes Hl Hbytes) as [? E].
    exists (little_endian_to_Z 8 bytes), []. by rewrite app_nil_r, E.
Qed.

(** A number of the package, which may stand once. *)
Lemma u16_parses {A} type (o : option Z) e (f : Z → A) :
  parses (_ ← lift (bail_if (negb (type =? 2) || bool_decide (is_Some o)) e);
          value ← invalid_gguf_io read_u16; mret (f value))
    (λ a w, ∃ v, value_ok (Datatypes.S MAX_ARRAY_DEPTH) v ∧ type_of v = type ∧ w = encode_value v
       ∧ (type =? 2) && bool_decide (o = None) = true ∧ a = f (scalar_of v)).
Proof.
  assert (negb (type =? 2) || bool_decide (is_Some o)
    = negb ((type =? 2) && bool_decide (o = None))) as ->.
  { rewrite negb_andb. f_equal. destruct o; [rewrite bool_decide_true by done|]; done. }
  destruct (type =? 2) eqn:Htype.
  2:{ apply parses_fail; [done|]. by intros ?? (? & _ & _ & _ & ? & _). }
  apply Z.eqb_eq in Htype as ->. eapply parses_iff; [|apply parses_guard; intros _;
    apply (scalar_parses 2 2 _ (λ value a, a = f value)); [done|done|intros; apply parses_ret]].
  intros a w _. cbn beta. rewrite negb_false_iff. naive_solver.
Qed.

(** One entry of the loop: the key, the type and what they call for. *)
Lemma metadata_parses m :
  parses (read_metadata m)
    (λ m' w, ∃ e, entry_ok e ∧ w = encode_entry e ∧ next_metadata m e = Some m').
Proof.
  assert (∀ key type, parses (
      if String.eqb key "general.alignment" && (type =? 4) then
        value ← invalid_gguf_io read_u32;
        _ ← lift (bail_if ((value =? 0) || negb (is_power_of_two value) || (4096 <? value))
          (InvalidGguf "general.alignment 无效"));
        mret (mkMetadata value (split_no m) (split_total m))
      else if String.eqb key "split.no" then
        _ ← lift (bail_if (negb (type =? 2) || bool_decide (is_Some (split_no m)))
          (InvalidGguf "split.no 类型无效或重复"));
        value ← invalid_gguf_io read_u16;
        mret (mkMetadata (alignment m) (Some value) (split_total m))
      else if String.eqb key "split.count" then
        _ ← lift (bail_if (negb (type =? 2) || bool_decide (is_Some (split_total m)))
          (InvalidGguf "split.count 类型无效或重复"));
        value ← invalid_gguf_io read_u16;
        mret (mkMetadata (alignment m) (split_no m) (Some value))
      else _ ← skip_gguf_value (Datatypes.S MAX_ARRAY_DEPTH) type; mret m)
    (λ m' w, ∃ v, value_ok (Datatypes.S MAX_ARRAY_DEPTH) v ∧ type_of v = type ∧ w = encode_value v
       ∧ next_metadata m (key, v) = Some m')) as Hbody.
  { intros key type. unfold next_metadata. cbn [fst snd].
    destruct (String.eqb key "general.alignment" && (type =? 4)) eqn:Hal;
      [|destruct (String.eqb key "split.no") eqn:Hno; [|destruct (String.eqb key "split.count") eqn:Hcount]].
    - apply andb_true_iff in Hal as [-> ->%Z.eqb_eq].
      eapply parses_iff; [|apply (scalar_parses 4 4 _ (λ value m',
        is_power_of_two value && (value <=? 4096) = true
        ∧ m' = mkMetadata value (split_no m) (split_total m))); [done|done|]].
      + intros m' w _. cbn beta. split.
        * intros (v & ? & Ht & ? & Hp & ->). exists v. rewrite Ht. cbn. 
          unfold scalar_of in Hp. by rewrite Hp.
        * intros (v & ? & Ht & ? & Hm'). exists v. rewrite Ht in Hm'. cbn in Hm'.
          unfold scalar_of. destruct (_ && _); [|done]. by injection Hm' as <-.
      + intros value. eapply parses_iff; [|apply parses_guard; intros _; apply parses_ret].
        intros m' w _. cbn beta. rewrite !orb_false_iff, negb_false_iff, andb_true_iff.
        rewrite Z.ltb_ge, Z.leb_le. unfold is_power_of_two.
        destruct (value =? 0) eqn:E; [apply Z.eqb_eq in E as ->; simpl; split; naive_solver|].
        naive_solver.
    - eapply parses_iff; [|apply u16_parses]. intros m' w _. cbn beta. split.
      + intros (v & ? & Ht & ? & Hg & ->). exists v. rewrite Ht, Hal, Hg. done.
      + intros (v & ? & Ht & ? & Hm'). exists v. rewrite Ht, Hal in Hm'.
        revert Hm'. destruct (_ && bool_decide _); intros [= <-]. done.
    - eapply parses_iff; [|apply u16_parses]. intros m' w _. cbn beta. split.
      + intros (v & ? & Ht & ? & Hg & ->). exists v. rewrite Ht, Hal, Hg. done.
      + intros (v & ? & Ht & ? & Hm'). exists v. rewrite Ht, Hal in Hm'.
        revert Hm'. destruct (_ && bool_decide _); intros [= <-]. done.
    - eapply parses_iff; [|apply parses_bind; [apply skip_parses|intros; apply parses_ret]].
      intros m' w _. cbn beta. split.
      + intros ([] & w1 & w2 & -> & (v & ? & Ht & ->) & -> & ->). exists v.
        by rewrite Ht, Hal, app_nil_r.
      + intros (v & ? & Ht & -> & Hm'). rewrite Ht, Hal in Hm'. injection Hm' as <-.
        exists tt, (encode_value v), []. rewrite app_nil_r. split_and!; [done|by exists v|done..]. }
  unfold read_metadata. eapply parses_iff; [|eapply parses_then; [exact string_parses|intros key;
    eapply parses_then; [exact read_u32_parses|intros type; apply Hbody]]].
  intros m' w _. cbn beta. split.
  - intros (key & w1 & ? & -> & type & w2 & ? & -> & v & ? & <- & -> & ?). by exists (key, v).
  - intros ([key v] & [? Hv] & -> & ?). exists key, (le_bytes 4 (type_of v) ++ encode_value v).
    split; [done|]. split; [done|]. exists (type_of v), (encode_value v).
    split; [|split; [done|by exists v]]. pose proof (type_range _ v Hv). lia.
Qed.

(** The entries of the loop are the keys it looks for, in any order. *)
Lemma named_snoc key l e :
  named key (l ++ [e]) = named key l ++ (if String.eqb e.1 key then [e.2] else []).
Proof. unfold named. rewrite List.filter_app, fmap_app. simpl. by destruct (String.eqb _ _). Qed.

Lemma alignments_snoc l e :
  alignments (l ++ [e]) = alignments l ++
    (if String.eqb e.1 "general.alignment" then
       match e.2 with
       | Scalar type bytes => if type =? 4 then [little_endian_to_Z 8 bytes] else []
       | _ => []
       end else []).
Proof.
  unfold alignments. rewrite omap_app. f_equal. simpl.
  destruct (String.eqb _ _), e.2 as [type bytes| |]; try done. by destruct (type =? 4).
Qed.

(** The state of the loop after the entries. *)
Record metadata_is (l : list Entry) (m : Metadata) : Prop := mkMetadataIs {
  is_alignment : alignment m = alignment_of l;
  is_alignments : Forall alignment_ok (alignments l);
  is_no : one_u16 "split.no" l (split_no m);
  is_total : one_u16 "split.count" l (split_total m);
}.

(** A key of its own leaves the other readings alone. *)
Lemma one_u16_other key l e o :
  String.eqb e.1 key = false → one_u16 key (l ++ [e]) o ↔ one_u16 key l o.
Proof. intros H. unfold one_u16. by rewrite named_snoc, H, app_nil_r. Qed.

Lemma one_u16_snoc key l e o :
  e.1 = key → value_ok (Datatypes.S MAX_ARRAY_DEPTH) e.2 →
  one_u16 key (l ++ [e]) o ↔
  one_u16 key l None ∧ type_of e.2 = 2 ∧ o = Some (scalar_of e.2).
Proof.
  intros <- Hv. unfold one_u16. rewrite named_snoc, String.eqb_refl.
  destruct (named e.1 l) as [|x [|y rest]]; simpl.
  - split.
    + intros (bytes & -> & ->). done.
    + intros (_ & Ht & ->).
      destruct (scalar_value _ 2 2 _ eq_refl Hv Ht) as (bytes & -> & _). by exists bytes.
  - split; [done|]. by intros ((? & _ & ?) & _).
  - split; [by destruct rest|]. by intros [].
Qed.

Lemma power_of_two_le v : is_power_of_two v && (v <=? 4096) = true ↔ alignment_ok v.
Proof. unfold alignment_ok. by rewrite andb_true_iff, Z.leb_le. Qed.

Lemma alignments_other l e :
  String.eqb e.1 "general.alignment" && (type_of e.2 =? 4) = false →
  alignments (l ++ [e]) = alignments l ∧ alignment_of (l ++ [e]) = alignment_of l.
Proof.
  intros H. assert (alignments (l ++ [e]) = alignments l) as E; [|unfold alignment_of; by rewrite E].
  rewrite alignments_snoc. destruct e as [key v]. cbn [fst snd] in *.
  destruct (String.eqb key _); [|by rewrite app_nil_r]. simpl in H.
  destruct v as [t bytes| |]; cbn in H; rewrite ?H; by rewrite app_nil_r.
Qed.

Lemma next_alignment l v m' :
  type_of v = 4 → value_ok (Datatypes.S MAX_ARRAY_DEPTH) v →
  metadata_is (l ++ [("general.alignment", v)]) m'
  ↔ ∃ m, metadata_is l m ∧ next_metadata m ("general.alignment", v) = Some m'.
Proof.
  intros Ht Hv. destruct (scalar_value _ 4 4 _ eq_refl Hv Ht) as (bytes & -> & _).
  assert (∀ m, next_metadata m ("general.alignment", Scalar 4 bytes)
    = if is_power_of_two (little_endian_to_Z 8 bytes) && (little_endian_to_Z 8 bytes <=? 4096)
      then Some (mkMetadata (little_endian_to_Z 8 bytes) (split_no m) (split_total m)) else None)
    as Hnext by done.
  setoid_rewrite Hnext. clear Hnext. pose proof (alignments_snoc l ("general.alignment", Scalar 4 bytes)) as Hal.
  cbn in Hal. split.
  - intros [Ha Hs Hno Htotal]. rewrite one_u16_other in Hno, Htotal by done.
    unfold alignment_of in Ha. rewrite Hal in Ha, Hs. rewrite last_snoc in Ha.
    apply Forall_app in Hs as [Hs [Hg _]%Forall_cons].
    exists (mkMetadata (alignment_of l) (split_no m') (split_total m')). split; [done|].
    apply power_of_two_le in Hg. rewrite Hg. destruct m'; simpl in *. congruence.
  - intros (m & [Ha Hs Hno Htotal] & Hm). destruct (_ && _) eqn:Hg; [|done]. injection Hm as <-.
    apply power_of_two_le in Hg. split; simpl; [|rewrite Hal|by rewrite one_u16_other..].
    + unfold alignment_of. by rewrite Hal, last_snoc.
    + apply Forall_app. by split; [|constructor].
Qed.

Lemma next_number l v m' :
  value_ok (Datatypes.S MAX_ARRAY_DEPTH) v →
  (metadata_is (l ++ [("split.no", v)]) m'
   ↔ ∃ m, metadata_is l m ∧ next_metadata m ("split.no", v) = Some m')
  ∧ (metadata_is (l ++ [("split.count", v)]) m'
     ↔ ∃ m, metadata_is l m ∧ next_metadata m ("split.count", v) = Some m').
Proof.
  intros Hv. unfold next_metadata. cbn [fst snd]. fold (scalar_of v). split; split.
  - intros [Ha Hs (Hno & Ht & Ho)%one_u16_snoc Htotal]; [|done..].
    rewrite one_u16_other in Htotal by done. pose proof (alignments_other l ("split.no", v) eq_refl) as [El Ea].
    rewrite El in Hs. rewrite Ea in Ha. exists (mkMetadata (alignment m') None (split_total m')).
    split; [done|]. simpl in *. rewrite Ht. simpl. rewrite <-Ho. by destruct m'.
  - intros (m & [Ha Hs Hno Htotal] & Hm). simpl in Hm.
    destruct (_ && bool_decide _) eqn:Hg; [|done]. injection Hm as <-.
    apply andb_true_iff in Hg as [Ht%Z.eqb_eq Ho%bool_decide_eq_true].
    pose proof (alignments_other l ("split.no", v) eq_refl) as [El Ea].
    split; simpl; [by rewrite Ea|by rewrite El| |by rewrite one_u16_other].
    rewrite one_u16_snoc by done. by rewrite <-Ho.
  - intros [Ha Hs Hno (Htotal & Ht & Ho)%one_u16_snoc]; [|done..].
    rewrite one_u16_other in Hno by done. pose proof (alignments_other l ("split.count", v) eq_refl) as [El Ea].
    rewrite El in Hs. rewrite Ea in Ha. exists (mkMetadata (alignment m') (split_no m') None).
    split; [done|]. simpl in *. rewrite Ht. simpl. rewrite <-Ho. by destruct m'.
  - intros (m & [Ha Hs Hno Htotal] & Hm). simpl in Hm.
    destruct (_ && bool_decide _) eqn:Hg; [|done]. injection Hm as <-.
    apply andb_true_iff in Hg as [Ht%Z.eqb_eq Ho%bool_decide_eq_true].
    pose proof (alignments_other l ("split.count", v) eq_refl) as [El Ea].
    split; simpl; [by rewrite Ea|by rewrite El|by rewrite one_u16_other|].
    rewrite one_u16_snoc by done. by rewrite <-Ho.
Qed.

Lemma metadata_next l e m' :
  entry_ok e → metadata_is (l ++ [e]) m' ↔ ∃ m, metadata_is l m ∧ next_metadata m e = Some m'.
Proof.
  intros [_ Hv]. destruct e as [key v]. cbn [fst snd] in Hv.
  destruct (String.eqb key "general.alignment" && (type_of v =? 4)) eqn:Ea.
  { apply andb_true_iff in Ea as [->%String.eqb_eq ?%Z.eqb_eq]. by apply next_alignment. }
  destruct (String.eqb key "split.no") eqn:Hn;
    [apply String.eqb_eq in Hn as ->; by apply next_number|].
  destruct (String.eqb key "split.count") eqn:Hc;
    [apply String.eqb_eq in Hc as ->; by apply next_number|].
  pose proof (alignments_other l (key, v) Ea) as [El E].
  unfold next_metadata. cbn [fst snd]. rewrite Ea, Hn, Hc. split.
  - intros [Ha Hs Hno Htotal]. rewrite one_u16_other in Hno, Htotal by done.
    rewrite El in Hs. rewrite E in Ha. by exists m'.
  - intros (m & [Ha Hs Hno Htotal] & [= <-]). split; [by rewrite E|by rewrite El|..];
      by rewrite one_u16_other.
Qed.

Lemma metadata_fold l m :
  Forall entry_ok l →
  fold_option next_metadata (mkMetadata 32 None None) l = Some m ↔ metadata_is l m.
Proof.
  revert m. induction l as [|e l IH] using rev_ind; intros m Hok.
  - split; [by intros [= <-]|]. intros [Ha _ Hn Ht]. cbn in *. destruct m; simpl in *. congruence.
  - apply Forall_app in Hok as [Hl [He _]%Forall_cons].
    rewrite fold_option_snoc, bind_Some, metadata_next by done. setoid_rewrite IH; [done|done].
Qed.

Lemma one_u16_unique key l o o' : one_u16 key l o → one_u16 key l o' → o = o'.
Proof.
  unfold one_u16. destruct (named key l) as [|v [|]]; [congruence| |done].
  intros (b & -> & ->) (b' & [= ->] & ->). done.
Qed.

Lemma split_info_of l m split :
  metadata_is l m → split_info m = Ok split ↔ split_of l split.
Proof.
  intros [_ _ Hno Htotal]. unfold split_info, split_of, gguf_error. split.
  - intros H. exists (split_no m), (split_total m). split_and!; [done..|].
    destruct (split_no m) as [i|], (split_total m) as [n|]; try done; [|by injection H as <-].
    destruct ((i =? 0) && in_range 0 1 n) eqn:E1.
    { injection H as <-. apply andb_true_iff in E1 as [?%Z.eqb_eq ?%in_range_true]. by left. }
    destruct ((1 <? n) && (i <? n)) eqn:E2; [|done]. injection H as <-.
    apply andb_true_iff in E2 as [?%Z.ltb_lt ?%Z.ltb_lt]. by right.
  - intros (index & count & Hi & Hc & H).
    rewrite (one_u16_unique _ _ _ _ Hno Hi), (one_u16_unique _ _ _ _ Htotal Hc).
    destruct index as [i|], count as [n|]; try done; [|by rewrite H].
    destruct H as [(-> & Hn & ->)|(Hi' & Hn & ->)].
    + by rewrite (proj2 (in_range_true 0 1 n) Hn).
    + assert (in_range 0 1 n = false) as -> by (apply in_range_false; lia). rewrite andb_false_r.
      by rewrite (proj2 (Z.ltb_lt 1 n) Hn), (proj2 (Z.ltb_lt i n) Hi').
Qed.

(** ** Tensors *)

Lemma dimension_parses product :
  parses (read_dimension product) (λ p w, ∃ d, 0 < d < 2 ^ 64 ∧ w = le_bytes 8 d
    ∧ checked in_u64 (product * d) = Some p).
Proof.
  unfold read_dimension. eapply parses_iff; [|eapply parses_then; [exact read_u64_parses|
    intros d; apply parses_guard; intros _; apply parses_lift]].
  intros p w _. cbn beta. split.
  - intros (d & w' & ? & -> & ?%Z.eqb_neq & ?%ok_or_Ok & ->). exists d. rewrite app_nil_r.
    split_and!; [lia..|done|done].
  - intros (d & Hd & -> & Hp). exists d, []. rewrite app_nil_r, Hp.
    split_and!; [lia..|done|apply Z.eqb_neq; lia|done|done].
Qed.

Lemma product_fold dims start p :
  0 < start ≤ u64_max → Forall (λ d, 0 < d < 2 ^ 64) dims →
  fold_option (λ s d, checked in_u64 (s * d)) start dims = Some p
  ↔ p = start * foldr Z.mul 1 dims ∧ p < 2 ^ 64.
Proof.
  intros Hstart Hdims. revert start Hstart. unfold u64_max.
  induction Hdims as [|d dims Hd Hdims IH]; intros start Hstart; cbn [fold_option foldr].
  { rewrite Z.mul_1_r. split; [intros [= <-]; lia|by intros [-> _]]. }
  assert (0 < foldr Z.mul 1 dims) as Hpos by (clear IH; induction Hdims; simpl; lia).
  rewrite bind_Some. setoid_rewrite checked_Some. split.
  - intros (s & [Hr%in_range_true ->] & Hs). unfold u64_max in *. apply IH in Hs; [|nia].
    rewrite Z.mul_assoc. done.
  - intros [-> Hp]. exists (start * d). unfold u64_max in *. split.
    + split; [|done]. apply in_range_true. unfold u64_max. nia.
    + apply IH; [nia|]. rewrite <-Z.mul_assoc. done.
Qed.

Definition described (t : TensorInfo) : GgufTensor :=
  mkGgufTensor (info_offset t) (element_count t) (info_kind t).

Lemma tensor_parses ts :
  parses (read_tensor ts) (λ ts' w, ∃ t, tensor_ok t ∧ w = encode_tensor t
    ∧ Some (ts ++ [described t]) = Some ts').
Proof.
  unfold read_tensor. eapply parses_iff; [|eapply parses_then; [exact string_parses|intros name;
    eapply parses_then; [exact read_u32_parses|intros n; apply parses_guard; intros Hn;
    eapply parses_bind; [apply (parses_repeat _ _ _ _ dimension_parses)|intros count;
    eapply parses_then; [exact read_u32_parses|intros kind;
    eapply parses_then; [exact read_u64_parses|intros off; apply parses_ret]]]]]].
  intros ts' w _. cbn beta. split.
  - intros (name & w1 & ? & -> & n & w2 & ? & -> & Hn & count & w3 & w4 & -> & Hdims
      & kind & w5 & ? & -> & off & w6 & ? & -> & -> & ->).
    apply negb_false_iff, in_range_true in Hn. destruct Hdims as (dims & Hl & Hd & -> & Hp).
    apply product_fold in Hp as [-> Hp]; [|done|done]. rewrite Z.mul_1_l in *.
    exists (mkTensorInfo name dims kind off). rewrite app_nil_r.
    assert (len dims = n) as <- by (unfold len; lia). split; [|done].
    unfold tensor_ok, element_count. done.
  - intros ([name dims kind off] & (? & ? & ? & ? & ? & ?) & -> & [= <-]).
    unfold element_count, encode_tensor in *. cbn [tensor_name dimensions info_kind info_offset] in *.
    eexists name, _. split; [done|]. split; [done|]. eexists (len dims), _.
    split; [lia|]. split; [done|]. split; [by apply negb_false_iff, in_range_true|].
    eexists (foldr Z.mul 1 dims), (mjoin (le_bytes 8 <$> dims)), _. split; [done|]. split.
    { exists dims. split; [unfold len; lia|]. split; [done|]. split; [done|].
      apply product_fold; [done|done|]. rewrite Z.mul_1_l. done. }
    eexists kind, _. split; [done|]. split; [done|]. exists off, []. by rewrite app_nil_r.
Qed.

Lemma fold_described ts start :
  fold_option (λ l t, Some (l ++ [described t])) start ts = Some (start ++ (described <$> ts)).
Proof.
  revert start. induction ts as [|t ts IH]; intros start; simpl; [by rewrite app_nil_r|].
  by rewrite IH, <-app_assoc.
Qed.

(** ** The file *)

Definition header_of (g : GgufFile) (h : Z * Metadata * option GgufSplitInfo * list GgufTensor) : Prop :=
  h.1.1.1 = len (tensors g) ∧ metadata_is (metadata g) h.1.1.2 ∧ split_of (metadata g) h.1.2
  ∧ h.2 = described <$> tensors g.

Lemma header_parses :
  parses read_header (λ h w, ∃ g, gguf_ok g ∧ w = encode_gguf g ∧ header_of g h).
Proof.
  assert (parses (invalid_gguf_io (read_exact 4)) (λ a w, len a = 4 ∧ w = a)) as Hmagic.
  { eapply parses_iff; [|apply parses_map_err, parses_exact]. intros a w _. split; [by intros [-> ?]|by intros [? ->]]. }
  unfold read_header. eapply parses_iff; [|
    eapply parses_then; [exact Hmagic|intros magic; apply parses_guard; intros _;
    eapply parses_then; [exact read_u32_parses|intros v; apply parses_guard; intros _;
    eapply parses_then; [exact read_u64_parses|intros n;
    eapply parses_then; [exact read_u64_parses|intros k; apply parses_guard; intros _;
    apply parses_guard; intros _;
    eapply parses_bind; [apply (parses_repeat _ _ _ _ metadata_parses)|intros m;
    apply parses_lift_then; intros split _;
    eapply parses_bind; [apply (parses_repeat _ _ _ _ tensor_parses)|intros ts; apply parses_ret]]]]]]].
  intros h w _. cbn beta. split.
  - intros (magic & w1 & _ & -> & Hm & v & w2 & _ & -> & Hv & n & w3 & Hn64 & -> & k & w4 & Hk64 & ->
      & Hn & Hk & m & w5 & w6 & -> & (md & Hmd & Hmdok & -> & Hfold) & split & Hsplit
      & ts' & w7 & w8 & -> & (ts & Hts & Htsok & -> & Htfold) & -> & ->).
    apply negb_false_iff, bool_decide_eq_true in Hm as ->.
    apply negb_false_iff, in_range_true in Hv. apply orb_false_iff in Hn as [Hn0%Z.eqb_neq Hn%Z.ltb_ge].
    apply Z.ltb_ge in Hk. apply metadata_fold in Hfold; [|done].
    rewrite fold_described in Htfold. injection Htfold as <-.
    exists (mkGgufFile v md ts).
    assert (len ts = n ∧ len md = k) as [<- <-] by (unfold len in *; lia).
    rewrite app_nil_r. split_and!; [|done|].
    + pose proof (is_alignments _ _ Hfold). unfold gguf_ok. simpl. split_and!; (done || lia).
    + unfold header_of. simpl. split_and!; [done..|by eapply split_info_of|done].
  - intros ([v md ts] & (Hv & Hn & Hk & Hmd & Hal & Hts) & -> & Hcount & Hm & Hsplit & Hd).
    destruct h as [[[n m] split] l]. cbn in *. subst n l.
    unfold MAX_GGUF_COUNT in *. pose proof (len_nonneg md).
    eexists (bytes_of "GGUF"), _. split; [done|]. split; [done|].
    split; [by rewrite bool_decide_true|]. eexists v, _. split; [lia|]. split; [done|].
    split; [by apply negb_false_iff, in_range_true|].
    eexists (len ts), _. split; [lia|]. split; [done|]. eexists (len md), _. split; [lia|].
    split; [done|]. split; [apply orb_false_iff; rewrite Z.eqb_neq, Z.ltb_ge; lia|].
    split; [apply Z.ltb_ge; lia|].
    eexists m, (mjoin (encode_entry <$> md)), _. split; [done|]. split.
    { exists md. split_and!; [unfold len; lia|done|done|]. by apply metadata_fold. }
    exists split. split; [by eapply split_info_of|].
    eexists (described <$> ts), (mjoin (encode_tensor <$> ts)), []. rewrite app_nil_r.
    split; [done|]. split; [|done]. exists ts. split_and!; [unfold len; lia|done|done|].
    apply fold_described.
Qed.

(** ** The layout *)

Lemma powers_of_two :
  forallb (λ a, negb (is_power_of_two a) || (a =? 2 ^ Z.log2 a)) (seqZ 1 4096) = true.
Proof. vm_compute. reflexivity. Qed.

Lemma alignment_pos a : alignment_ok a → 0 < a ≤ 4096.
Proof. by intros [[?%Z.ltb_lt _]%andb_true_iff ?]. Qed.

Lemma power_of_two_log a : alignment_ok a → ∃ k, 0 ≤ k ≤ 12 ∧ a = 2 ^ k.
Proof.
  intros Hok. pose proof (alignment_pos _ Hok). destruct Hok as [Hp Ha].
  pose proof powers_of_two as Hall. rewrite forallb_forall in Hall.
  specialize (Hall a). rewrite <-list_elem_of_In, elem_of_seqZ in Hall. specialize (Hall ltac:(lia)).
  rewrite Hp in Hall. exists (Z.log2 a). split; [|by apply Z.eqb_eq].
  split; [apply Z.log2_nonneg|]. change 12 with (Z.log2 4096). by apply Z.log2_le_mono.
Qed.

Lemma align_up_spec v a :
  alignment_ok a → 0 ≤ v → v + (a - 1) ≤ u64_max →
  align_up v a = Some ((v + (a - 1)) / a * a).
Proof.
  intros Hok Hv Hmax. destruct (power_of_two_log a Hok) as (k & Hk & ->).
  assert (0 < 2 ^ k) by (apply Z.pow_pos_nonneg; lia).
  unfold align_up, checked. unfold u64_max in *.
  assert (in_u64 (2 ^ k - 1) = true) as -> by (apply in_range_true; unfold u64_max; lia).
  simpl. assert (in_u64 (v + (2 ^ k - 1)) = true) as -> by (apply in_range_true; unfold u64_max; lia).
  simpl. f_equal. unfold u64_not, u64_max. set (s := v + (2 ^ k - 1)).
  assert (18446744073709551615 - (2 ^ k - 1) = Z.ldiff (Z.ones 64) (Z.ones k)) as ->.
  { rewrite <-Z.sub_nocarry_ldiff; [by rewrite !Z.ones_equiv|]. apply Z.bits_inj'. intros n Hn.
    rewrite Z.ldiff_spec, Z.bits_0, !Z.testbit_ones_nonneg by lia.
    destruct (n <? k) eqn:E1; [|done]. apply Z.ltb_lt in E1. by rewrite (proj2 (Z.ltb_lt n 64)) by lia. }
  transitivity (Z.ldiff s (Z.ones k)).
  - apply Z.bits_inj'. intros n Hn. rewrite Z.land_spec, !Z.ldiff_spec.
    rewrite (Z.testbit_ones_nonneg 64 n) by lia. destruct (n <? 64) eqn:E; [done|].
    apply Z.ltb_ge in E. rewrite (Z.bits_above_log2 s n); [done|unfold s; lia|].
    apply (Z.le_lt_trans _ 63); [|lia]. change 63 with (Z.log2 18446744073709551615).
    apply Z.log2_le_mono. unfold s. lia.
  - rewrite Z.ldiff_ones_r, Z.shiftr_div_pow2, Z.shiftl_mul_pow2 by lia. done.
Qed.

(** Adjacent ranges of a list. *)
Lemma windows2_Sorted {A} (R : A → A → Prop) (l : list A) :
  (∀ p, In p (windows2 l) → R p.1 p.2) ↔ Sorted R l.
Proof.
  induction l as [|x [|y l] IH].
  - split; [constructor|done].
  - split; [by repeat constructor|done].
  - change (windows2 (x :: y :: l)) with ((x, y) :: windows2 (y :: l)). split.
    + intros H. constructor; [apply IH; intros p Hp; apply H; by right|].
      constructor. apply (H (x, y)). by left.
    + intros [Hs Hh]%Sorted_inv p [<-|Hp]; [by inversion Hh|]. by apply IH.
Qed.

Lemma StronglySorted_perm {A} (R : A → A → Prop) (l l' : list A) :
  (∀ x y, R x y → R y x) → l ≡ₚ l' → StronglySorted R l → StronglySorted R l'.
Proof.
  intros HR. induction 1 as [|x l l' Hp IH|x y l|l1 l2 l3 _ IH1 _ IH2]; intros Hs; [done| | |auto].
  - apply StronglySorted_inv in Hs as [Hs Hx]. constructor; [auto|]. by rewrite <-Hp.
  - apply StronglySorted_inv in Hs as [[Hs Hy]%StronglySorted_inv [Hxy Hx]%Forall_cons].
    constructor; [by constructor|]. constructor; [by apply HR|done].
Qed.

#[global] Instance range_cmp_total : TotalCmp range_cmp := _.

Lemma range_cmp_le r r' : cmp_le range_cmp r r' → r.1 ≤ r'.1.
Proof.
  unfold cmp_le, range_cmp, cmp_then, cmp_on. destruct (Z.compare_spec r.1 r'.1); simpl; lia || done.
Qed.

(** No two ranges overlap exactly when neighbours in the sorted list do not. *)
Lemma sorted_disjoint (l : list (Z * Z)) :
  Forall (λ r, r.1 < r.2) l →
  Sorted (λ r r', r.2 ≤ r'.1) (sort_by range_cmp l) ↔ StronglySorted disjoint_ranges l.
Proof.
  intros Hl. assert (∀ x y, disjoint_ranges x y → disjoint_ranges y x) as Hsym
    by (unfold disjoint_ranges; naive_solver).
  pose proof (sort_by_perm range_cmp l) as Hp. pose proof (sort_by_sorted range_cmp l) as Hs.
  rewrite <-Hp in Hl.
  assert (StronglySorted disjoint_ranges l ↔ StronglySorted disjoint_ranges (sort_by range_cmp l)) as ->
    by (split; apply StronglySorted_perm; done).
  clear Hp. induction Hs as [|r s Hs IH Hr]; [by split; constructor|].
  apply Forall_cons in Hl as [Hne Hl]. specialize (IH Hl). split.
  - intros [Hsorted Hhd]%Sorted_inv. constructor; [by apply IH|].
    destruct s as [|r' s]; [constructor|]. apply HdRel_inv in Hhd.
    apply StronglySorted_inv in Hs as [_ Hr']. apply Forall_cons in Hl as [Hne' _].
    constructor; [by left|]. eapply Forall_impl; [exact Hr'|].
    intros x Hx%range_cmp_le. left. lia.
  - intros [Hd Hrd]%StronglySorted_inv. constructor; [by apply IH|].
    destruct s as [|r' s]; [constructor|]. constructor.
    apply Forall_cons in Hrd as [[?|?] _]; [done|]. apply Forall_cons in Hr as [?%range_cmp_le _].
    apply Forall_cons in Hl as [? _]. lia.
Qed.

Lemma ggml_block_some kind block bytes :
  ggml_block kind = Some (block, bytes) → 1 ≤ block ≤ 256 ∧ 1 ≤ bytes ≤ 292.
Proof.
  unfold ggml_block. intros H. destruct kind as [|p|p]; [injection H as <- <-; lia| |done].
  do 5 (try destruct p as [p|p|]); simplify_eq; lia.
Qed.

Lemma element_count_pos t : tensor_ok t → 0 < element_count t.
Proof.
  intros (_ & _ & Hd & _). unfold element_count. induction Hd; simpl; lia.
Qed.

Lemma occupies_nonempty t r : tensor_ok t → occupies t r → r.1 < r.2.
Proof.
  intros Ht%element_count_pos (block & bytes & Hb%ggml_block_some & [q Hq] & ->). simpl.
  rewrite Hq in *. rewrite Z.div_mul by lia. nia.
Qed.

Lemma tensor_range_spec a data_len t r :
  tensor_ok t → alignment_ok a → data_len ≤ u64_max →
  tensor_range a data_len (described t) = Ok r
  ↔ occupies t r ∧ (a | r.1) ∧ r.2 ≤ data_len.
Proof.
  intros Ht Ha Hmax. pose proof (element_count_pos _ Ht).
  pose proof (alignment_pos _ Ha) as Ha0.
  assert (0 ≤ info_offset t < 2 ^ 64) as Hoff by apply Ht.
  unfold tensor_range, validate_tensor_alignment, ggml_tensor_bytes, occupies. cbn [described offset elements tensor_kind].
  split.
  - intros H0. apply bind_Ok in H0 as ([] & Hal%bail_if_Ok & H0).
    apply bind_Ok in H0 as (n & Hn & H0). apply bind_Ok in Hn as ([block bytes] & Hb%ok_or_Ok & Hn).
    apply bind_Ok in Hn as ([] & Hmod%bail_if_Ok & Hn). apply ok_or_Ok, checked_Some in Hn as [_ ->].
    apply bind_Ok in H0 as (last & Hlast & H0). apply ok_or_Ok, checked_Some in Hlast as [_ ->].
    apply bind_Ok in H0 as ([] & Hfit%bail_if_Ok & [= <-]).
    apply negb_false_iff, Z.eqb_eq in Hal. apply negb_false_iff, Z.eqb_eq in Hmod.
    apply Z.ltb_ge in Hfit. pose proof (ggml_block_some _ _ _ Hb).
    split_and!; [|apply Z.mod_divide; [lia|done]|done].
    exists block, bytes. split_and!; [done|apply Z.mod_divide; [lia|done]|done].
  - intros ((block & bytes & Hb & Hdiv & ->) & Hal & Hfit). cbn [fst snd] in *.
    pose proof (ggml_block_some _ _ _ Hb).
    apply Z.mod_divide in Hal; [|lia]. apply Z.mod_divide in Hdiv; [|lia].
    rewrite Hal, Hb. simpl. rewrite Hdiv. simpl.
    assert (0 ≤ element_count t / block * bytes) by (apply Z.mul_nonneg_nonneg; [apply Z.div_pos; lia|lia]).
    assert (checked in_u64 (element_count t / block * bytes) = Some (element_count t / block * bytes)) as ->
      by (apply checked_true, in_range_true; lia).
    simpl. assert (∀ n, 0 ≤ n ≤ data_len → checked in_u64 n = Some n) as Hchecked
      by (intros; apply checked_true, in_range_true; lia).
    rewrite Hchecked by lia. simpl. rewrite (proj2 (Z.ltb_ge _ _) Hfit). done.
Qed.

Lemma validate_ranges_spec a data_len ts :
  Forall tensor_ok ts → alignment_ok a → data_len ≤ u64_max →
  validate_ranges a data_len (described <$> ts) = Ok tt
  ↔ ∃ ranges, Forall2 occupies ts ranges
      ∧ Forall (λ r, (a | r.1) ∧ r.2 ≤ data_len) ranges ∧ StronglySorted disjoint_ranges ranges.
Proof.
  intros Hts Ha Hmax.
  assert (∀ ranges, Forall2 (λ t r, tensor_range a data_len t = Ok r) (described <$> ts) ranges
    ↔ Forall2 occupies ts ranges ∧ Forall (λ r, (a | r.1) ∧ r.2 ≤ data_len) ranges) as Hranges.
  { intros ranges. rewrite Forall2_fmap_l. split.
    - intros H. induction H as [|t r ts ranges H _ IH]; [done|]. apply Forall_cons in Hts as [Ht Hts].
      apply tensor_range_spec in H as (? & ?); [|done..]. destruct (IH Hts). split; by constructor.
    - intros [H Hall]. induction H as [|t r ts ranges H _ IH]; [done|].
      apply Forall_cons in Hts as [Ht Hts]. apply Forall_cons in Hall as [? ?].
      constructor; [by apply tensor_range_spec|auto]. }
  assert (∀ ranges, Forall2 occupies ts ranges → Forall (λ r, r.1 < r.2) ranges) as Hne.
  { intros ranges H. clear Hranges. induction H as [|t r ts ranges H _ IH]; [done|].
    apply Forall_cons in Hts as [Ht Hts]. constructor; [by eapply occupies_nonempty|auto]. }
  assert (∀ ranges, for_each (λ p : (Z * Z) * (Z * Z), bail_if (p.2.1 <? p.1.2) (InvalidGguf "张量数据区重叠"))
      (windows2 (sort_by range_cmp ranges)) = Ok tt
    ↔ Sorted (λ r r', r.2 ≤ r'.1) (sort_by range_cmp ranges)) as Hwin.
  { intros ranges. rewrite for_each_Ok, <-windows2_Sorted, Forall_forall.
    setoid_rewrite bail_if_Ok. setoid_rewrite Z.ltb_ge. by setoid_rewrite list_elem_of_In. }
  unfold validate_ranges. rewrite bind_Ok. setoid_rewrite fold_each_collect. split.
  - intros (ranges & (rs & [Hocc Hin]%Hranges & ->) & H%Hwin). simpl in H.
    exists rs. split_and!; [done..|]. apply sorted_disjoint; [by apply Hne|done].
  - intros (ranges & Hocc & Hin & Hd). exists ranges. split; [exists ranges; split; [by apply Hranges|done]|].
    apply Hwin, sorted_disjoint; [by apply Hne|done].
Qed.

Lemma alignment_of_ok l : Forall alignment_ok (alignments l) → alignment_ok (alignment_of l).
Proof.
  intros H. unfold alignment_of. destruct (last (alignments l)) eqn:E; [|split; [reflexivity|simpl; lia]].
  apply last_Some in E as (l' & E). rewrite E in H. by apply Forall_app in H as [_ [? _]%Forall_cons].
Qed.

Lemma align_up_Some v a d :
  alignment_ok a → 0 ≤ v → align_up v a = Some d → d = (v + (a - 1)) / a * a ∧ v ≤ d.
Proof.
  intros Ha Hv H. pose proof (alignment_pos _ Ha).
  assert (v + (a - 1) ≤ u64_max) as Hmax.
  { apply bind_Some in H as (m & [_ ->]%checked_Some & H).
    apply bind_Some in H as (s & [Hs _]%checked_Some & _). apply in_range_true in Hs. lia. }
  rewrite align_up_spec in H by done. injection H as <-. split; [done|].
  pose proof (Z.div_mod (v + (a - 1)) a ltac:(lia)). pose proof (Z.mod_pos_bound (v + (a - 1)) a ltac:(lia)). lia.
Qed.

Lemma header_inside file h p : file_ok file → read_header file 0 = Ok (h, p) → p ≤ len file.
Proof.
  assert (∀ ts, ends_inside (read_tensor ts)) as Htensor.
  { intros ts. unfold read_tensor. do 5 (apply ends_bind; intros).
    apply ends_then. by apply ends_map_err, (ends_uint 8). }
  assert (ends_inside read_header) as H; [|apply H].
  unfold read_header. do 4 (apply ends_bind; intros). apply ends_bind_uint; intros n Hn0.
  apply ends_bind; intros. apply ends_guard; intros Hn.
  do 3 (apply ends_bind; intros). apply ends_then.
  apply orb_false_iff in Hn as [Hn%Z.eqb_neq _]. apply ends_repeat; [lia|done].
Qed.

(** C29: GGUF validation accepts exactly the files of the format: a file is
    accepted with a tensor count and a package position if and only if it is the
    encoding of metadata and tensor descriptions that are well formed, nested
    and counted within the limits, followed by data in which every tensor lies
    at an aligned offset inside the file and no two tensors overlap. *)
Theorem gguf_accepts_exactly file n split :
  file_ok file →
  validate_gguf file (len file) = Ok (n, split)
  ↔ ∃ g data, gguf_ok g ∧ file = encode_gguf g ++ data ∧ layout_ok g (len file)
      ∧ n = len (tensors g) ∧ split_of (metadata g) split.
Proof.
  intros Hf. pose proof header_parses as [Hsound Hcomplete]. unfold validate_gguf. split.
  - intros H. apply bind_Ok in H as ([[[[n' m] s] ts] p] & Hh & H).
    apply bind_Ok in H as (ds & Hds%ok_or_Ok & H). apply bind_Ok in H as ([] & Hsize%bail_if_Ok & H).
    apply Z.leb_gt in Hsize. apply bind_Ok in H as ([] & Hranges & [= -> ->]).
    pose proof (header_inside _ _ _ Hf Hh) as Hin.
    destruct (Hsound file 0 _ p Hf ltac:(lia) Hh) as [Hp HP].
    destruct (HP Hin) as (g & Hg & Hw & Hn & Hm & Hsplit & Hts). cbn in Hn, Hm, Hsplit, Hts. subst n ts.
    pose proof (is_alignment _ _ Hm) as Ea. pose proof (alignment_of_ok (metadata g) ltac:(apply Hg)) as Ha.
    rewrite Ea in Hds, Hranges. apply align_up_Some in Hds as [-> _]; [|done|done].
    assert (len (encode_gguf g) = p) as Hlen by (rewrite <-Hw, len_slice by lia; lia).
    assert (len file - (p + (alignment_of (metadata g) - 1)) / alignment_of (metadata g)
      * alignment_of (metadata g) ≤ u64_max) as Hmax.
    { destruct Hf as [_ Hf]. unfold i64_max, u64_max in *. pose proof (alignment_pos _ Ha).
      assert (0 ≤ (p + (alignment_of (metadata g) - 1)) / alignment_of (metadata g));
        [apply Z.div_pos; lia|nia]. }
    exists g, (drop (Z.to_nat p) file). split_and!; [done| | |done|done].
    + rewrite <-Hw. unfold slice. rewrite Z.sub_0_r. cbn. by rewrite take_drop.
    + unfold layout_ok, data_start. rewrite Hlen. split; [done|].
      apply validate_ranges_spec in Hranges; [done|apply Hg|done|apply Hmax].
  - intros (g & data & Hg & -> & [Hstart Hlay] & -> & Hsplit).
    pose proof Hsplit as (index & count & Hi & Hc & _).
    pose proof (alignment_of_ok (metadata g) ltac:(apply Hg)) as Ha. pose proof (alignment_pos _ Ha).
    assert (metadata_is (metadata g) (mkMetadata (alignment_of (metadata g)) index count)) as Hm
      by (split; [done|apply Hg|done|done]).
    unfold data_start in *. remember (encode_gguf g) as e eqn:Ee.
    pose proof (len_nonneg e). pose proof (len_nonneg data).
    pose proof (Hcomplete [] e data
      (len (tensors g), mkMetadata (alignment_of (metadata g)) index count, split, described <$> tensors g)
      Hf ltac:(by exists g)) as Hread.
    rewrite app_nil_l in Hread. change (len (@nil Z)) with 0 in Hread. rewrite Z.add_0_l in Hread.
    rewrite Hread. destruct Hf as [_ Hmax]. rewrite len_app in *. unfold i64_max in Hmax. simpl.
    rewrite align_up_spec by (done || (unfold u64_max; lia)). simpl.
    rewrite (proj2 (Z.leb_gt _ _)) by done. simpl.
    apply validate_ranges_spec in Hlay; [by rewrite Hlay|apply Hg|done|]. unfold u64_max.
    assert (0 ≤ (len e + (alignment_of (metadata g) - 1)) / alignment_of (metadata g));
      [apply Z.div_pos; lia|nia].
Qed.

(** The first of three parts, with one tensor of one number. *)
Definition sample_header : list Z :=
  bytes_of "GGUF" ++ le_bytes 4 3 ++ le_bytes 8 1 ++ le_bytes 8 2
  ++ encode_string "split.no" ++ le_bytes 4 2 ++ le_bytes 2 0
  ++ encode_string "split.count" ++ le_bytes 4 2 ++ le_bytes 2 3
  ++ encode_string "x" ++ le_bytes 4 1 ++ le_bytes 8 1 ++ le_bytes 4 0 ++ le_bytes 8 0.
Definition sample_gguf : list Z :=
  sample_header ++ replicate (Z.to_nat (- len sample_header mod 32)) 0 ++ [0; 0; 0; 0].

Lemma sample_gguf_ok : file_ok sample_gguf.
Proof. apply file_ok_b. vm_compute. reflexivity. Qed.

Lemma gguf_accepts_exactly_witness :
  ∃ g data, sample_gguf = encode_gguf g ++ data ∧ split_of (metadata g) (Some (mkSplitInfo 0 3)).
Proof.
  assert (validate_gguf sample_gguf (len sample_gguf) = Ok (1, Some (mkSplitInfo 0 3))) as H
    by (vm_compute; reflexivity).
  destruct (proj1 (gguf_accepts_exactly sample_gguf 1 (Some (mkSplitInfo 0 3)) sample_gguf_ok) H)
    as (g & data & _ & H1 & _ & _ & H2).
  exists g, data. exact (conj H1 H2).
Defined.
