(* ===== verification/Safetensors.v ===== *)
(** * Safetensors model files: mindone-engine, validation.rs

    The header is a JSON object that gives each tensor a type, a shape and a
    range of the data buffer.  serde_json drives the visitor of the code, which
    refuses repeated keys; what the visitor is shown is the tree of [Event]s,
    and [HeaderJson] stands for serde_json: the events of a text, and the text
    of the error when the text or the visitor fails. *)
From S2P Require Import Prelude Text Net Float64 Files Gguf.

Local Open Scope string_scope.
Local Open Scope list_scope.
Local Open Scope Z_scope.

(** ** JSON *)

Inductive Number : Type := PosInt (n : Z) | NegInt (n : Z) | Float (f : f64).

(** An object is its entries in the order of their keys, as a [BTreeMap] has them. *)
Inductive JsonValue : Type :=
| JNull | JBool (b : bool) | JNumber (n : Number) | JString (s : string)
| JArray (values : list JsonValue)
| JObject (fields : list (string * JsonValue)).

Inductive Event : Type :=
| EUnit | EBool (b : bool) | EI64 (n : Z) | EU64 (n : Z) | EF64 (f : f64) | EStr (s : string)
| ESeq (elements : list Event)
| EMap (entries : list (string * Event)).

Class HeaderJson : Type := {
  parse_events : list Z → option Event;
  json_error : list Z → string;
}.

(** [UniqueJsonVisitor] *)
Fixpoint unique_json (e : Event) : option JsonValue :=
  match e with
  | EUnit => Some JNull
  | EBool b => Some (JBool b)
  | EI64 n => Some (JNumber (if n <? 0 then NegInt n else PosInt n))
  | EU64 n => Some (JNumber (PosInt n))
  | EF64 f => if is_finite f then Some (JNumber (Float f)) else None
  | EStr s => Some (JString s)
  | ESeq elements =>
    JArray <$> (fix visit_seq (l : list Event) : option (list JsonValue) :=
      match l with
      | [] => Some []
      | e :: l' => v ← unique_json e; rest ← visit_seq l'; Some (v :: rest)
      end) elements
  | EMap entries =>
    JObject ∘ sort_by (cmp_on fst str_cmp)
    <$> (fix visit_map (seen : list string) (l : list (string * Event))
          : option (list (string * JsonValue)) :=
      match l with
      | [] => Some []
      | (key, e) :: l' =>
        if existsb (String.eqb key) seen then None else
        v ← unique_json e; rest ← visit_map (key :: seen) l'; Some ((key, v) :: rest)
      end) [] entries
  end.

Definition as_object (v : JsonValue) : option (list (string * JsonValue)) :=
  match v with JObject fields => Some fields | _ => None end.
Definition as_array (v : JsonValue) : option (list JsonValue) :=
  match v with JArray values => Some values | _ => None end.
Definition as_str (v : JsonValue) : option string :=
  match v with JString s => Some s | _ => None end.
(** The number of [PosInt] is a [u64]. *)
Definition as_u64 (v : JsonValue) : option Z :=
  match v with JNumber (PosInt n) => checked in_u64 n | _ => None end.
Definition json_get (fields : list (string * JsonValue)) (key : string) : option JsonValue :=
  snd <$> List.find (λ p, String.eqb p.1 key) fields.

Section safetensors.
Context `{HJ : HeaderJson}.

Definition parse_unique_json (bytes : list Z) : result string JsonValue :=
  ok_or (e ← parse_events bytes; unique_json e) (json_error bytes).

(** ** The header *)

Definition dtype_size (dtype : string) : option Z :=
  if existsb (String.eqb dtype) ["BOOL"; "U8"; "I8"; "F8_E4M3"; "F8_E5M2"] then Some 1
  else if existsb (String.eqb dtype) ["U16"; "I16"; "F16"; "BF16"] then Some 2
  else if existsb (String.eqb dtype) ["U32"; "I32"; "F32"] then Some 4
  else if existsb (String.eqb dtype) ["U64"; "I64"; "F64"] then Some 8
  else None.

Definition tensor_error (name what : string) : ValidationError :=
  InvalidSafetensors ("张量 " +:+ name +:+ what).

Definition shape_elements (name : string) (shape : list JsonValue) : result ValidationError Z :=
  fold_each (λ product dimension,
    value ← ok_or (as_u64 dimension) (tensor_error name " shape 无效");
    ok_or (checked in_u64 (product * value)) (tensor_error name " 元素数溢出")) 1 shape.

(** The range of a tensor in the data buffer. *)
Definition safetensor_range (data_len : Z) (name : string) (tensor : JsonValue)
    : result ValidationError (Z * Z) :=
  _ ← bail_if (str_is_empty name || (4096 <? str_len name))
    (InvalidSafetensors "张量名称为空或过长");
  object ← ok_or (as_object tensor) (tensor_error name " 描述不是对象");
  dtype ← ok_or (json_get object "dtype" ≫= as_str) (tensor_error name " 缺少 dtype");
  element_size ← ok_or (dtype_size dtype) (tensor_error name (" 使用未知 dtype " +:+ dtype));
  shape ← ok_or (json_get object "shape" ≫= as_array) (tensor_error name " 缺少 shape");
  _ ← bail_if (32 <? len shape) (tensor_error name " 维度过多");
  elements ← shape_elements name shape;
  offsets ← ok_or (offsets ← json_get object "data_offsets" ≫= as_array;
                   if len offsets =? 2 then Some offsets else None)
    (tensor_error name " data_offsets 无效");
  start ← ok_or (offsets !! 0%nat ≫= as_u64) (tensor_error name " 起始偏移无效");
  last ← ok_or (offsets !! 1%nat ≫= as_u64) (tensor_error name " 结束偏移无效");
  _ ← bail_if ((last <? start) || (data_len <? last)) (tensor_error name " 偏移越界");
  wanted ← ok_or (checked in_u64 (elements * element_size)) (tensor_error name " 字节数溢出");
  _ ← bail_if (negb (last - start =? wanted)) (tensor_error name " 字节数与 shape/dtype 不一致");
  Ok (start, last).

Definition string_map (v : JsonValue) : bool :=
  match as_object v with
  | Some metadata => forallb (λ p, bool_decide (is_Some (as_str p.2))) metadata
  | None => false
  end.

(** The body of the loop over the header: the ranges and the number of tensors. *)
Definition header_entry (data_len : Z) (acc : list (Z * Z * string) * Z) (entry : string * JsonValue)
    : result ValidationError (list (Z * Z * string) * Z) :=
  let '(name, tensor) := entry in
  if String.eqb name "__metadata__" then
    _ ← bail_if (negb (string_map tensor))
      (InvalidSafetensors "__metadata__ 必须是字符串到字符串的对象");
    Ok acc
  else
    range ← safetensor_range data_len name tensor;
    count ← ok_or (checked in_u64 (acc.2 + 1)) (InvalidSafetensors "张量数量溢出");
    Ok (acc.1 ++ [(range, name)], count).

Definition ranges_cmp : Z * Z * string → Z * Z * string → comparison :=
  cmp_then (cmp_on (fst ∘ fst) Z.compare) (cmp_on (snd ∘ fst) Z.compare).

(** Neighbours of the sorted ranges meet. *)
Definition check_neighbours (pair : (Z * Z * string) * (Z * Z * string))
    : result ValidationError () :=
  let '((_, last, name), (start, _, name')) := pair in
  _ ← bail_if (start <? last)
    (InvalidSafetensors ("张量 " +:+ name +:+ " 与 " +:+ name' +:+ " 数据区重叠"));
  bail_if (last <? start)
    (InvalidSafetensors ("张量 " +:+ name +:+ " 与 " +:+ name' +:+ " 之间存在未索引数据空洞")).

Definition check_tiling (data_len : Z) (ranges : list (Z * Z * string)) : result ValidationError () :=
  let ranges := sort_by ranges_cmp ranges in
  _ ← bail_if (match head ranges with Some r => negb (r.1.1 =? 0) | None => true end)
    (InvalidSafetensors "张量数据没有从 data buffer 起点连续覆盖");
  _ ← for_each check_neighbours (windows2 ranges);
  bail_if (match last ranges with Some r => negb (r.1.2 =? data_len) | None => true end)
    (InvalidSafetensors "data buffer 尾部存在未索引字节").

Definition check_header (header : list Z) (data_len : Z) : result ValidationError Z :=
  value ← map_err InvalidSafetensors (parse_unique_json header);
  tensors ← ok_or (as_object value) (InvalidSafetensors "header 顶层必须是 JSON 对象");
  '(ranges, tensor_count) ← fold_each (header_entry data_len) ([], 0) tensors;
  _ ← bail_if (tensor_count =? 0) (InvalidSafetensors "文件没有张量");
  _ ← check_tiling data_len ranges;
  Ok tensor_count.

(** A [usize] has 64 bits. *)
Definition read_safetensors_header (file_size : Z) : Reader ValidationError (list Z * Z) :=
  header_len ← reader_map_err InvalidSafetensors read_u64;
  _ ← lift (bail_if ((header_len =? 0) || (MAX_SAFETENSORS_HEADER <? header_len))
    (InvalidSafetensors ("header 长度 " +:+ dec header_len +:+ " 超出安全范围")));
  data_start ← lift (ok_or (checked in_u64 (8 + header_len)) (InvalidSafetensors "header 长度溢出"));
  _ ← lift (bail_if (file_size <? data_start) (InvalidSafetensors "header 超出文件边界"));
  header ← reader_map_err InvalidSafetensors (read_exact header_len);
  mret (header, data_start).

Definition validate_safetensors (file : list Z) (file_size : Z) : result ValidationError Z :=
  '(header, data_start, _) ← read_safetensors_header file_size file 0;
  check_header header (file_size - data_start).
End safetensors.
