(* ===== verification/SafetensorsSpec.v ===== *)
(** * What a safetensors file is

    The tensors of an accepted file tile its data buffer: in some order each
    begins where the one before it ended, from the first byte to the last. *)
From S2P Require Import Prelude Text Net Float64 Files Gguf GgufSpec Safetensors.
From Stdlib Require Import Sorting.Sorted.

Local Open Scope string_scope.
Local Open Scope list_scope.
Local Open Scope Z_scope.

(** ** Tilings *)

(** The ranges follow each other from [a] to [b]. *)
Fixpoint covers (a b : Z) (l : list (Z * Z)) : Prop :=
  match l with
  | [] => a = b
  | r :: l' => r.1 = a ∧ r.1 ≤ r.2 ∧ covers r.2 b l'
  end.

Definition tiles (ranges : list (Z * Z)) (size : Z) : Prop :=
  ∃ order, order ≡ₚ ranges ∧ covers 0 size order.

Lemma covers_le a b l : covers a b l → a ≤ b.
Proof.
  revert a. induction l as [|r l IH]; intros a; simpl; [lia|]. intros (? & ? & ?%IH). lia.
Qed.

(** Every number is in exactly one of the ranges. *)
Lemma covers_once a b l i :
  covers a b l → a ≤ i < b → length (filter (λ r, r.1 ≤ i < r.2) l) = 1%nat.
Proof.
  assert (∀ a' l', covers a' b l' → i < a' → filter (λ r, r.1 ≤ i < r.2) l' = []) as Hnone.
  { intros a' l'. revert a'. induction l' as [|r l' IH]; intros a'; simpl; [done|].
    intros (? & ? & Hc) Hi. rewrite filter_cons_False by lia. apply (IH r.2); [done|lia]. }
  revert a. induction l as [|r l IH]; intros a; simpl; [lia|]. intros (<- & Hr & Hc) Hi.
  destruct (decide (i < r.2)).
  - rewrite filter_cons_True by lia. simpl. by rewrite (Hnone _ _ Hc).
  - rewrite filter_cons_False by lia. apply (IH r.2); [done|lia].
Qed.

Lemma tiles_once ranges size i :
  tiles ranges size → 0 ≤ i < size → length (filter (λ r, r.1 ≤ i < r.2) ranges) = 1%nat.
Proof. intros (order & Hp & Hc) Hi. rewrite <-Hp. by eapply covers_once. Qed.

(** What the code checks of neighbours, on ranges that are not inverted. *)
Lemma covers_sorted a b l :
  l ≠ [] →
  covers a b l ↔ (fst <$> head l) = Some a ∧ (snd <$> last l) = Some b
    ∧ Sorted (λ r r', r.2 = r'.1) l ∧ Forall (λ r, r.1 ≤ r.2) l.
Proof.
  revert a. induction l as [|r l IH]; intros a Hne; [done|]. destruct l as [|r' l].
  - simpl. split.
    + intros (<- & ? & <-). split_and!; [done..|by repeat constructor|by constructor].
    + intros ([= <-] & [= <-] & _ & [? _]%Forall_cons). done.
  - cbn [covers]. specialize (IH r.2 ltac:(done)). cbn [covers] in IH. rewrite IH, last_cons_cons. simpl. split.
    + intros (<- & Hr & [= Hm] & Hl & Hs & Hf). split_and!; [done..| |by constructor].
      constructor; [done|]. by constructor.
    + intros ([= <-] & Hl & [Hs Hh]%Sorted_inv & [Hr Hf]%Forall_cons). apply HdRel_inv in Hh.
      split_and!; [done..|by rewrite Hh|done|done|done].
Qed.

#[global] Instance range_cmp_strict : StrictCmp range_cmp.
Proof.
  split; [apply _|]. intros [a b] [a' b']. unfold range_cmp, cmp_then, cmp_on. simpl.
  destruct (Z.compare_spec a a'); simpl; [|done..]. intros ?%Z.compare_eq. congruence.
Qed.

Lemma covers_range_sorted a b l : covers a b l → StronglySorted (cmp_le range_cmp) l.
Proof.
  assert (∀ a' l', covers a' b l' → ∀ r, r.1 ≤ r.2 → r.2 ≤ a' → Forall (cmp_le range_cmp r) l') as Hle.
  { intros a' l'. revert a'. induction l' as [|r' l' IH]; intros a'; simpl; [by constructor|].
    intros (<- & ? & Hc) r Hr Hra. constructor; [|apply (IH r'.2); [done..|lia]].
    unfold cmp_le, range_cmp, cmp_then, cmp_on.
    destruct (Z.compare_spec r.1 r'.1); simpl; [|done|lia].
    destruct (Z.compare_spec r.2 r'.2); simpl; [done|done|lia]. }
  revert a. induction l as [|r l IH]; intros a; simpl; [constructor|]. intros (<- & ? & Hc).
  constructor; [by eapply IH|]. by apply (Hle r.2).
Qed.

Lemma sort_unique l order :
  order ≡ₚ l → StronglySorted (cmp_le range_cmp) order → sort_by range_cmp l = order.
Proof.
  intros Hp Hs. assert (AntiSymm (=) (cmp_le range_cmp)) as Hanti.
  { intros x y. unfold cmp_le. intros Hxy Hyx. apply (cmp_eq range_cmp).
    pose proof (cmp_antisym range_cmp x y) as E. destruct (range_cmp x y); [done| |done].
    simpl in E. by rewrite E in Hyx. }
  assert (Transitive (cmp_le range_cmp)) by (intros x y z; apply (cmp_trans range_cmp)).
  apply (StronglySorted_unique (cmp_le range_cmp)); [apply (sort_by_sorted range_cmp)|done|].
  by rewrite (sort_by_perm range_cmp), Hp.
Qed.

Lemma tiles_sorted ranges size :
  ranges ≠ [] → Forall (λ r, r.1 ≤ r.2) ranges →
  tiles ranges size ↔ (fst <$> head (sort_by range_cmp ranges)) = Some 0
    ∧ (snd <$> last (sort_by range_cmp ranges)) = Some size
    ∧ Sorted (λ r r', r.2 = r'.1) (sort_by range_cmp ranges).
Proof.
  intros Hne Hr. assert (sort_by range_cmp ranges ≠ []) as Hne'
    by (intros ?%sort_by_nil_inv; done).
  assert (Forall (λ r, r.1 ≤ r.2) (sort_by range_cmp ranges)) as Hr' by by rewrite (sort_by_perm range_cmp).
  split.
  - intros (order & Hp & Hc). rewrite (sort_unique ranges order); [|done|by eapply covers_range_sorted].
    apply covers_sorted in Hc; [naive_solver|]. intros ->. by apply Permutation_nil_l in Hp.
  - intros (? & ? & ?). exists (sort_by range_cmp ranges). split; [apply (sort_by_perm range_cmp)|].
    by apply covers_sorted.
Qed.

(** ** JSON without repeated keys *)

(** The value a tree of events stands for.  An object has no key twice, at any
    depth, and its entries are the events' in the order of their keys. *)
Inductive stands_for : Event → JsonValue → Prop :=
| stands_null : stands_for EUnit JNull
| stands_bool b : stands_for (EBool b) (JBool b)
| stands_negative n : n < 0 → stands_for (EI64 n) (JNumber (NegInt n))
| stands_nonnegative n : 0 ≤ n → stands_for (EI64 n) (JNumber (PosInt n))
| stands_unsigned n : stands_for (EU64 n) (JNumber (PosInt n))
| stands_float f : is_finite f = true → stands_for (EF64 f) (JNumber (Float f))
| stands_string s : stands_for (EStr s) (JString s)
| stands_array elements values :
    Forall2 stands_for elements values → stands_for (ESeq elements) (JArray values)
| stands_object entries values fields :
    NoDup entries.*1 → Forall2 stands_for entries.*2 values →
    fields ≡ₚ zip entries.*1 values →
    StronglySorted (λ p q, cmp_le str_cmp p.1 q.1) fields →
    stands_for (EMap entries) (JObject fields).

(** Induction that reaches the elements. *)
Lemma event_ind' (P : Event → Prop) :
  P EUnit → (∀ b, P (EBool b)) → (∀ n, P (EI64 n)) → (∀ n, P (EU64 n)) → (∀ f, P (EF64 f)) →
  (∀ s, P (EStr s)) → (∀ l, Forall P l → P (ESeq l)) →
  (∀ l, Forall P l.*2 → P (EMap l)) → ∀ e, P e.
Proof.
  intros H1 H2 H3 H4 H5 H6 H7 H8. fix IH 1. intros [| | | | | |l|l]; [done|auto..| |].
  - apply H7. induction l as [|e l IHl]; constructor; [apply IH|exact IHl].
  - apply H8. induction l as [|[k e] l IHl]; constructor; [apply IH|exact IHl].
Qed.

(** The two loops of the visitor. *)
Definition visit_seq : list Event → option (list JsonValue) :=
  fix visit_seq l := match l with
    | [] => Some []
    | e :: l' => v ← unique_json e; rest ← visit_seq l'; Some (v :: rest)
    end.
Definition visit_map : list string → list (string * Event) → option (list (string * JsonValue)) :=
  fix visit_map seen l := match l with
    | [] => Some []
    | (key, e) :: l' =>
      if existsb (String.eqb key) seen then None else
      v ← unique_json e; rest ← visit_map (key :: seen) l'; Some ((key, v) :: rest)
    end.

Lemma unique_json_seq l : unique_json (ESeq l) = JArray <$> visit_seq l.
Proof. done. Qed.
Lemma unique_json_map l :
  unique_json (EMap l) = JObject ∘ sort_by (cmp_on fst str_cmp) <$> visit_map [] l.
Proof. done. Qed.

Lemma existsb_key key seen : existsb (String.eqb key) seen = true ↔ key ∈ seen.
Proof.
  rewrite existsb_exists. setoid_rewrite String.eqb_eq. setoid_rewrite <-list_elem_of_In. naive_solver.
Qed.

Lemma visit_seq_iff l values :
  Forall (λ e, ∀ v, unique_json e = Some v ↔ stands_for e v) l →
  visit_seq l = Some values ↔ Forall2 stands_for l values.
Proof.
  intros H. revert values. induction H as [|e l He _ IH]; intros values; simpl.
  - split; [by intros [= <-]|by intros ->%Forall2_nil_inv_l].
  - rewrite bind_Some. setoid_rewrite bind_Some. split.
    + intros (v & Hv%He & rest & Hr%IH & [= <-]). by constructor.
    + intros (v & rest & Hv & Hr & ->)%Forall2_cons_inv_l. exists v. split; [by apply He|].
      exists rest. split; [by apply IH|done].
Qed.

Lemma visit_map_iff seen l fields :
  Forall (λ e, ∀ v, unique_json e = Some v ↔ stands_for e v) l.*2 →
  visit_map seen l = Some fields
  ↔ NoDup l.*1 ∧ (∀ key, key ∈ l.*1 → key ∉ seen)
    ∧ ∃ values, Forall2 stands_for l.*2 values ∧ fields = zip l.*1 values.
Proof.
  revert seen fields. induction l as [|[key e] l IH]; intros seen fields Hl; simpl in Hl |- *.
  - split.
    + intros [= <-]. split; [constructor|]. split; [by intros ? ?%elem_of_nil|]. by exists [].
    + by intros (_ & _ & values & ->%Forall2_nil_inv_l & ->).
  - apply Forall_cons in Hl as [He Hl]. specialize (IH (key :: seen)). rewrite NoDup_cons.
    destruct (existsb (String.eqb key) seen) eqn:Ek.
    { apply existsb_key in Ek. split; [done|]. intros (_ & Hk & _). destruct (Hk key); [by left|done]. }
    assert (key ∉ seen) as Hkey by (by intros ?%existsb_key; congruence).
    rewrite bind_Some. setoid_rewrite bind_Some. split.
    + intros (v & Hv%He & rest & (Hnd & Hk & values & H2 & ->)%IH & [= <-]); [|done]. split.
      { split; [|done]. intros Hin%Hk. apply Hin. by left. }
      split.
      { intros k [->|Hin%Hk]%elem_of_cons; [done|]. intros ?. apply Hin. by right. }
      exists (v :: values). split; [by constructor|done].
    + intros ([Hnin Hnd] & Hk & values & (v & values' & Hv & H2 & ->)%Forall2_cons_inv_l & ->).
      exists v. split; [by apply He|]. exists (zip l.*1 values'). split; [|done]. apply IH; [done|].
      split; [done|]. split; [|by exists values'].
      intros k Hin [->|Hs]%elem_of_cons; [done|]. apply (Hk k); [by right|done].
Qed.

(** Sorting by the key is the only order the keys allow. *)
Lemma sorted_fields (l fields : list (string * JsonValue)) :
  NoDup l.*1 → fields = sort_by (cmp_on fst str_cmp) l
  ↔ fields ≡ₚ l ∧ StronglySorted (λ p q, cmp_le str_cmp p.1 q.1) fields.
Proof.
  intros Hnd. pose proof (sort_by_sorted (cmp_on fst str_cmp) l) as Hs.
  pose proof (sort_by_perm (cmp_on fst str_cmp) l) as Hp. split; [by intros ->|].
  intros [Hp' Hs']. apply (StronglySorted_unique_strong (λ p q, cmp_le str_cmp p.1 q.1)); [|done|done|by rewrite Hp'].
  intros [k v] [k' v'] Hin Hin' H1 H2. simpl in *.
  assert (k = k') as <-.
  { apply (cmp_eq str_cmp). pose proof (cmp_antisym str_cmp k k') as E. unfold cmp_le in H1, H2.
    rewrite E in H2. by destruct (str_cmp k k'). }
  rewrite Hp' in Hin. rewrite Hp in Hin'.
  apply list_elem_of_lookup in Hin as [i Hi]. apply list_elem_of_lookup in Hin' as [j Hj].
  assert (i = j) as <-.
  { eapply NoDup_lookup; [exact Hnd|by rewrite list_lookup_fmap, Hi|by rewrite list_lookup_fmap, Hj]. }
  congruence.
Qed.

Lemma unique_json_iff e v : unique_json e = Some v ↔ stands_for e v.
Proof.
  revert v. induction e as [|b|n|n|f|s|l IH|l IH] using event_ind'; intros v.
  - split; [intros [= <-]; constructor|by inversion 1].
  - split; [intros [= <-]; constructor|by inversion 1].
  - simpl. destruct (Z.ltb_spec n 0); (split; [intros [= <-]; by constructor|inversion 1; subst; (done || lia)]).
  - split; [intros [= <-]; constructor|by inversion 1].
  - simpl. destruct (is_finite f) eqn:Hf; (split; [|inversion 1; subst; congruence]); [|done].
    intros [= <-]. by constructor.
  - split; [intros [= <-]; constructor|by inversion 1].
  - rewrite unique_json_seq, fmap_Some. setoid_rewrite (visit_seq_iff l _ IH). split.
    + intros (values & H & ->). by constructor.
    + inversion 1; subst. by eexists.
  - rewrite unique_json_map, fmap_Some. setoid_rewrite (visit_map_iff [] l _ IH). simpl. split.
    + intros (fields & (Hnd & _ & values & H2 & ->) & ->).
      assert (NoDup (zip l.*1 values).*1) as Hz
        by (rewrite fst_zip; [done|]; rewrite <-(Forall2_length _ _ _ H2), !length_fmap; lia).
      destruct (proj1 (sorted_fields _ _ Hz) eq_refl) as [Hp Hs]. by eapply stands_object.
    + inversion 1 as [| | | | | | | |? values fields Hnd H2 Hp Hs]; subst.
      assert (NoDup (zip l.*1 values).*1) as Hz
        by (rewrite fst_zip; [done|]; rewrite <-(Forall2_length _ _ _ H2), !length_fmap; lia).
      exists (zip l.*1 values). split.
      * split; [done|]. split; [by intros ? _ ?%elem_of_nil|]. by exists values.
      * f_equal. by apply sorted_fields.
Qed.

(** ** Tensors *)

Section format.
Context `{HJ : HeaderJson}.

Definition product (dims : list Z) : Z := foldr Z.mul 1 dims.

(** What the header says of a tensor whose bytes are the range of the buffer. *)
Definition describes (data_len : Z) (entry : string * JsonValue) (r : Z * Z) : Prop :=
  ∃ object dtype size shape dims offsets,
    entry.1 ≠ "" ∧ str_len entry.1 ≤ 4096 ∧ entry.2 = JObject object
    ∧ json_get object "dtype" = Some (JString dtype) ∧ dtype_size dtype = Some size
    ∧ json_get object "shape" = Some (JArray shape) ∧ len shape ≤ 32
    ∧ mapM as_u64 shape = Some dims ∧ (∀ k, product (take k dims) ≤ u64_max)
    ∧ json_get object "data_offsets" = Some (JArray offsets)
    ∧ mapM as_u64 offsets = Some [r.1; r.2]
    ∧ r.1 ≤ r.2 ≤ data_len ∧ r.2 - r.1 = product dims * size.

Definition is_tensor (entry : string * JsonValue) : bool :=
  negb (String.eqb entry.1 "__metadata__").
Definition metadata_ok (entry : string * JsonValue) : Prop :=
  is_tensor entry = false → ∃ metadata, entry.2 = JObject metadata
    ∧ Forall (λ p, ∃ s, p.2 = JString s) metadata.

Lemma as_u64_range v n : as_u64 v = Some n → 0 ≤ n ≤ u64_max.
Proof.
  destruct v as [| |[n'| |]| | |]; try done. simpl. by intros [?%in_range_true ->]%checked_Some.
Qed.

Lemma mapM_u64_range vs ns : mapM as_u64 vs = Some ns → Forall (λ n, 0 ≤ n ≤ u64_max) ns.
Proof.
  intros H%mapM_Some. induction H; constructor; [by eapply as_u64_range|done].
Qed.

Lemma product_app l1 l2 : product (l1 ++ l2) = product l1 * product l2.
Proof. induction l1 as [|d l IH]; simpl; [by destruct (product l2)|]. rewrite IH. lia. Qed.

Lemma product_nonneg dims : Forall (λ n, 0 ≤ n ≤ u64_max) dims → 0 ≤ product dims.
Proof. induction 1; simpl; [lia|nia]. Qed.

Lemma shape_fold name start shape p :
  0 ≤ start ≤ u64_max →
  fold_each (λ product dimension,
    value ← ok_or (as_u64 dimension) (tensor_error name " shape 无效");
    ok_or (checked in_u64 (product * value)) (tensor_error name " 元素数溢出")) start shape = Ok p
  ↔ ∃ dims, mapM as_u64 shape = Some dims ∧ (∀ k, start * product (take k dims) ≤ u64_max)
      ∧ p = start * product dims.
Proof.
  revert start. induction shape as [|v shape IH]; intros start Hs.
  { split; [intros [= <-]|intros (dims & [= <-] & _ & ->)]; [|simpl; f_equal; lia].
    exists []. split_and!; [done| |simpl; lia]. intros k. rewrite take_nil. simpl. lia. }
  rewrite fold_each_cons, bind_Ok. setoid_rewrite bind_Ok. setoid_rewrite ok_or_Ok. split.
  - intros (s & (d & Hd & [Hin ->]%checked_Some) & H). apply in_range_true in Hin.
    apply IH in H as (dims & Hdims & Hk & ->); [|done].
    exists (d :: dims). split_and!; [simpl; by rewrite Hd, Hdims| |simpl; lia].
    intros [|k]; simpl; [lia|]. specialize (Hk k). lia.
  - intros (dims & Hdims & Hk & ->). simpl in Hdims. apply bind_Some in Hdims as (d & Hd & Hdims).
    apply bind_Some in Hdims as (dims' & Hdims & [= <-]).
    pose proof (as_u64_range _ _ Hd) as Hd0. pose proof (Hk 1%nat) as Hk1. simpl in Hk1.
    assert (0 ≤ start * d ≤ u64_max) as Hsd by (split; [apply Z.mul_nonneg_nonneg; lia|lia]).
    exists (start * d). split.
    + exists d. split; [done|]. by apply checked_true, in_range_true.
    + apply IH; [done|]. exists dims'. split_and!; [done| |simpl; lia].
      intros k. specialize (Hk (Datatypes.S k)). simpl in Hk. lia.
Qed.

Lemma shape_elements_Ok name shape p :
  shape_elements name shape = Ok p
  ↔ ∃ dims, mapM as_u64 shape = Some dims ∧ (∀ k, product (take k dims) ≤ u64_max) ∧ p = product dims.
Proof.
  unfold shape_elements. rewrite shape_fold by (unfold u64_max; lia).
  by setoid_rewrite Z.mul_1_l.
Qed.

Lemma dtype_size_some dtype size : dtype_size dtype = Some size → 1 ≤ size ≤ 8.
Proof. unfold dtype_size. intros H. repeat (case_if; simplify_eq; try lia). Qed.

(** The two numbers of a range. *)
Lemma offsets_two (o : option JsonValue) l x y :
  (o ≫= as_array = Some l ∧ len l = 2 ∧ l !! 0%nat ≫= as_u64 = Some x ∧ l !! 1%nat ≫= as_u64 = Some y)
  ↔ o = Some (JArray l) ∧ mapM as_u64 l = Some [x; y].
Proof.
  split.
  - intros (Ho & Hl & Hx & Hy). apply bind_Some in Ho as (v & -> & Hv).
    destruct v; try done. injection Hv as ->. split; [done|].
    destruct l as [|a [|b [|? ?]]]; unfold len in Hl; simpl in *; try lia. by rewrite Hx, Hy.
  - intros [-> Hl]. pose proof (length_mapM _ _ _ Hl) as Hlen.
    destruct l as [|a [|b [|]]]; try done. simpl in Hl |- *.
    destruct (as_u64 a) as [x'|]; [|done]. simpl in Hl. destruct (as_u64 b) as [y'|]; [|done].
    cbn in Hl |- *. by injection Hl as -> ->.
Qed.

Lemma object_of (v : JsonValue) o : as_object v = Some o ↔ v = JObject o.
Proof. destruct v; simpl; naive_solver. Qed.

Lemma str_of (o : option JsonValue) s : o ≫= as_str = Some s ↔ o = Some (JString s).
Proof. destruct o as [[]|]; simpl; naive_solver. Qed.

Lemma array_of (o : option JsonValue) l : o ≫= as_array = Some l ↔ o = Some (JArray l).
Proof. destruct o as [[]|]; simpl; naive_solver. Qed.

Lemma safetensor_range_Ok data_len name v r :
  data_len ≤ u64_max → safetensor_range data_len name v = Ok r ↔ describes data_len (name, v) r.
Proof.
  intros Hmax. unfold safetensor_range, describes. cbn [fst snd]. split.
  - intros H. apply bind_Ok in H as ([] & Hname%bail_if_Ok & H).
    apply orb_false_iff in Hname as [Hne%String.eqb_neq Hlen%Z.ltb_ge].
    apply bind_Ok in H as (object & ->%ok_or_Ok%object_of & H).
    apply bind_Ok in H as (dtype & Hd%ok_or_Ok%str_of & H).
    apply bind_Ok in H as (size & Hsize%ok_or_Ok & H).
    apply bind_Ok in H as (shape & Hshape%ok_or_Ok%array_of & H).
    apply bind_Ok in H as ([] & Hdims%bail_if_Ok%Z.ltb_ge & H).
    apply bind_Ok in H as (elements & (dims & Hm & Hk & ->)%shape_elements_Ok & H).
    apply bind_Ok in H as (l & Hl%ok_or_Ok & H). apply bind_Some in Hl as (l' & Hl & Htwo).
    destruct (_ =? 2) eqn:E; [|done]. injection Htwo as ->. apply Z.eqb_eq in E.
    apply bind_Ok in H as (x & Hx%ok_or_Ok & H). apply bind_Ok in H as (y & Hy%ok_or_Ok & H).
    apply bind_Ok in H as ([] & Hin%bail_if_Ok & H).
    apply orb_false_iff in Hin as [Hxy%Z.ltb_ge Hy'%Z.ltb_ge].
    apply bind_Ok in H as (wanted & [_ ->]%ok_or_Ok%checked_Some & H).
    apply bind_Ok in H as ([] & Hw%bail_if_Ok & [= <-]). apply negb_false_iff, Z.eqb_eq in Hw.
    pose proof (proj1 (offsets_two _ _ _ _) (conj Hl (conj E (conj Hx Hy)))) as [Ho Hxyl].
    exists object, dtype, size, shape, dims, l. simpl. split_and!; try done.
  - intros (object & dtype & size & shape & dims & l & Hne & Hlen & -> & Hd & Hsize & Hshape & Hdims
      & Hm & Hk & Ho & Hl & [Hxy Hy] & Hw). destruct r as [x y]. cbn [fst snd] in *.
    destruct (proj2 (offsets_two _ l x y) (conj Ho Hl)) as (Ha & Htwo & Hx & Hy').
    unfold str_is_empty. rewrite (proj2 (String.eqb_neq _ _) Hne), (proj2 (Z.ltb_ge _ _) Hlen). simpl.
    rewrite Hd. simpl. rewrite Hsize. simpl. rewrite Hshape. simpl.
    rewrite (proj2 (Z.ltb_ge _ _) Hdims). simpl.
    rewrite (proj2 (shape_elements_Ok name shape (product dims))) by eauto. simpl.
    rewrite Ha. simpl. rewrite Htwo. simpl. rewrite Hx. simpl. rewrite Hy'. simpl.
    rewrite (proj2 (Z.ltb_ge _ _) Hxy), (proj2 (Z.ltb_ge _ _) Hy). simpl. rewrite <-Hw.
    assert (0 ≤ x) as Hx0.
    { apply mapM_u64_range, Forall_cons in Hl as [? _]. lia. }
    rewrite checked_true by (apply in_range_true; lia). simpl. by rewrite Z.eqb_refl.
Qed.

Lemma string_map_ok v :
  string_map v = true ↔ ∃ metadata, v = JObject metadata ∧ Forall (λ p, ∃ s, p.2 = JString s) metadata.
Proof.
  unfold string_map. split.
  - destruct (as_object v) as [m|] eqn:E; [|done]. apply object_of in E as ->.
    intros H. exists m. split; [done|]. apply Forall_forall. intros p Hp.
    rewrite forallb_forall in H. specialize (H p (proj1 (list_elem_of_In _ _) Hp)).
    apply bool_decide_eq_true in H as [s Hs]. exists s. destruct p as [k []]; try done. simpl in *. congruence.
  - intros (m & -> & H). simpl. apply forallb_forall. intros p Hp%list_elem_of_In.
    rewrite Forall_forall in H. destruct (H p Hp) as [s ->]. by apply bool_decide_eq_true.
Qed.

(** The loop over the header. *)
Lemma header_fold data_len fields acc n res :
  data_len ≤ u64_max → 0 ≤ n ≤ u64_max →
  fold_each (header_entry data_len) (acc, n) fields = Ok res
  ↔ Forall metadata_ok fields ∧ ∃ ranges,
      Forall2 (describes data_len) (List.filter is_tensor fields) ranges ∧ n + len ranges ≤ u64_max
      ∧ res = (acc ++ zip ranges (List.filter is_tensor fields).*1, n + len ranges).
Proof.
  intros Hmax. revert acc n. induction fields as [|[name v] fields IH]; intros acc n Hn.
  { split.
    - intros [= <-]. split; [done|]. exists []. unfold len. simpl. rewrite app_nil_r, Z.add_0_r.
      split_and!; [done|lia|done].
    - intros (_ & ranges & ->%Forall2_nil_inv_l & _ & ->). by rewrite app_nil_r, Z.add_0_r. }
  rewrite fold_each_cons, Forall_cons, bind_Ok.
  unfold metadata_ok at 1, is_tensor. cbn [fst snd header_entry List.filter].
  destruct (String.eqb name "__metadata__"); simpl negb; cbv iota.
  - rewrite <-string_map_ok. split.
    + intros (s & H & Hf). apply bind_Ok in H as ([] & Hm%bail_if_Ok%negb_false_iff & [= <-]).
      by apply IH in Hf as [? ?].
    + intros [[Hm Hall] Hr]. exists (acc, n). rewrite Hm by done. split; [done|]. by apply IH.
  - cbn [fst snd fmap list_fmap]. split.
    + intros (s & H & Hf). apply bind_Ok in H as (r & Hr & H).
      apply bind_Ok in H as (c & [Hc ->]%ok_or_Ok%checked_Some & [= <-]). apply safetensor_range_Ok in Hr; [|done].
      apply in_range_true in Hc. apply IH in Hf as (Hall & ranges & H2 & ? & ->); [|done].
      split; [done|]. exists (r :: ranges). split; [by constructor|]. unfold len in *. simpl in *.
      rewrite <-app_assoc. split; [lia|]. simpl. f_equal. lia.
    + intros [[_ Hall] (ranges & H2 & Hl & ->)]. apply Forall2_cons_inv_l in H2 as (r & ranges' & Hr & H2 & ->).
      unfold len in *. simpl in Hl. exists (acc ++ [(r, name)], n + 1). split.
      * rewrite (proj2 (safetensor_range_Ok _ _ _ _ Hmax) Hr). simpl.
        by rewrite checked_true by (apply in_range_true; lia).
      * apply IH; [lia|]. split; [done|]. exists ranges'. split; [done|]. simpl.
        rewrite <-app_assoc. split; [lia|]. simpl. f_equal. lia.
Qed.

Lemma describes_forall data_len fields ranges :
  Forall2 (describes data_len) fields ranges → Forall (λ r, r.1 ≤ r.2) ranges.
Proof.
  induction 1 as [|e r fields ranges H _ IH]; constructor; [|done].
  destruct H as (? & ? & ? & ? & ? & ? & H). naive_solver.
Qed.

Lemma check_neighbours_Ok pair : check_neighbours pair = Ok tt ↔ pair.1.1.2 = pair.2.1.1.
Proof.
  destruct pair as [[[x y] s] [[x' y'] s']]. simpl. split.
  - intros H. apply bind_Ok in H as ([] & ?%bail_if_Ok%Z.ltb_ge & ?%bail_if_Ok%Z.ltb_ge). lia.
  - intros ->. by rewrite Z.ltb_irrefl.
Qed.

Lemma check_tiling_Ok data_len (ranges : list (Z * Z * string)) :
  ranges ≠ [] → Forall (λ r, r.1 ≤ r.2) ranges.*1 →
  check_tiling data_len ranges = Ok tt ↔ tiles ranges.*1 data_len.
Proof.
  intros Hne Hr. rewrite tiles_sorted by (done || (by destruct ranges)).
  assert (sort_by range_cmp ranges.*1 = (sort_by ranges_cmp ranges).*1) as -> by by apply sort_by_fmap.
  assert (sort_by ranges_cmp ranges ≠ []) as Hne' by (intros ?%sort_by_nil_inv; done).
  unfold check_tiling. set (l := sort_by ranges_cmp ranges) in *. clearbody l.
  assert (for_each check_neighbours (windows2 l) = Ok tt ↔ Sorted (λ r r', r.2 = r'.1) l.*1) as Hw.
  { rewrite for_each_Ok, Forall_forall. setoid_rewrite check_neighbours_Ok.
    setoid_rewrite list_elem_of_In. rewrite (windows2_Sorted (λ r r' : Z * Z * string, r.1.2 = r'.1.1)).
    clear. split.
    - induction 1 as [|r l Hs IH Hh]; simpl; constructor; [done|]. by destruct Hh; constructor.
    - induction l as [|r l IH]; [done|]. simpl. intros [Hs Hh]%Sorted_inv. constructor; [auto|].
      destruct l; constructor. by apply HdRel_inv in Hh. }
  destruct l as [|r l]; [done|]. rewrite fmap_last. cbn [head fmap list_fmap].
  destruct (last (r :: l)) as [z|] eqn:El; [|by apply last_None in El]. simpl. split.
  - intros H. apply bind_Ok in H as ([] & H1%bail_if_Ok%negb_false_iff%Z.eqb_eq & H).
    apply bind_Ok in H as ([] & H2%Hw & H3%bail_if_Ok%negb_false_iff%Z.eqb_eq).
    by rewrite H1, H3.
  - intros ([= Hhd] & [= Hlast] & Hs). rewrite Hhd. simpl. apply Hw in Hs. rewrite Hs. simpl.
    by rewrite Hlast, Z.eqb_refl.
Qed.

Lemma header_parse size :
  parses (read_safetensors_header size) (λ h w, 1 ≤ len h.1 ≤ MAX_SAFETENSORS_HEADER
    ∧ h.2 = 8 + len h.1 ∧ h.2 ≤ size ∧ w = le_bytes 8 (len h.1) ++ h.1).
Proof.
  assert (∀ n, parses (reader_map_err InvalidSafetensors (read_exact n)) (λ a w, len a = n ∧ w = a))
    as Hexact.
  { intros n. eapply parses_iff; [|apply parses_map_err, parses_exact].
    intros a w _. split; [by intros [-> ?]|by intros [? ->]]. }
  unfold read_safetensors_header. eapply parses_iff; [|
    eapply parses_then; [exact (parses_map_err InvalidSafetensors _ _ (parses_uint 8 ltac:(lia)))|
    intros n; apply parses_guard; intros _; apply parses_lift_then; intros ds _;
    apply parses_guard; intros _; eapply parses_then; [apply Hexact|intros h; apply parses_ret]]].
  unfold MAX_SAFETENSORS_HEADER. intros h w _. cbn beta. split.
  - intros (n & w1 & ? & -> & Hn & ds & [_ ->]%ok_or_Ok%checked_Some & ?%Z.ltb_ge
      & header & w2 & <- & -> & -> & ->). apply orb_false_iff in Hn as [?%Z.eqb_neq ?%Z.ltb_ge].
    rewrite app_nil_r. simpl. split_and!; (done || lia).
  - destruct h as [header ds]. simpl. intros (Hlen & -> & Hs & ->).
    exists (len header), header. split; [lia|]. split; [done|].
    split; [apply orb_false_iff; rewrite Z.eqb_neq, Z.ltb_ge; lia|]. exists (8 + len header).
    split; [apply ok_or_Ok, checked_true, in_range_true; unfold u64_max; lia|].
    split; [by apply Z.ltb_ge|]. exists header, []. by rewrite app_nil_r.
Qed.

Lemma header_read_inside file size h p :
  file_ok file → read_safetensors_header size file 0 = Ok (h, p) → p ≤ len file.
Proof.
  intros Hf. assert (ends_inside (read_safetensors_header size)) as H; [|by apply H].
  unfold read_safetensors_header. apply ends_bind_uint; intros n Hn.
  apply ends_guard; intros Hg. do 2 (apply ends_bind; intros). apply ends_then, ends_map_err, ends_exact.
  apply orb_false_iff in Hg as [?%Z.eqb_neq _]. lia.
Qed.

Lemma zip_ranges data_len fields ranges :
  Forall2 (describes data_len) (List.filter is_tensor fields) ranges →
  (zip ranges (List.filter is_tensor fields).*1).*1 = ranges.
Proof. intros H. apply fst_zip. rewrite length_fmap. by rewrite (Forall2_length _ _ _ H). Qed.

Lemma tiling_of_tensors data_len fields ranges :
  Forall2 (describes data_len) (List.filter is_tensor fields) ranges → ranges ≠ [] →
  check_tiling data_len (zip ranges (List.filter is_tensor fields).*1) = Ok tt ↔ tiles ranges data_len.
Proof.
  intros Hd Hne. pose proof (zip_ranges _ _ _ Hd) as Hzip. rewrite check_tiling_Ok, Hzip.
  - done.
  - intros E. apply Hne. by rewrite <-Hzip, E.
  - rewrite Hzip. by eapply describes_forall.
Qed.

Lemma parse_unique_json_Ok header v :
  parse_unique_json header = Ok v ↔ ∃ event, parse_events header = Some event ∧ stands_for event v.
Proof.
  unfold parse_unique_json. rewrite ok_or_Ok, bind_Some. by setoid_rewrite unique_json_iff.
Qed.

(** The checks on a header are what it must say. *)
Lemma check_header_Ok header data_len n :
  0 ≤ data_len ≤ i64_max →
  check_header header data_len = Ok n
  ↔ ∃ event fields ranges, parse_events header = Some event ∧ stands_for event (JObject fields)
      ∧ Forall metadata_ok fields
      ∧ Forall2 (describes data_len) (List.filter is_tensor fields) ranges
      ∧ 0 < len ranges ≤ u64_max ∧ tiles ranges data_len ∧ n = len ranges.
Proof.
  unfold i64_max, check_header. intros Hmax.
  assert (data_len ≤ u64_max ∧ 0 ≤ 0 ≤ u64_max) as [Hmax' H0] by (unfold u64_max; lia).
  pose proof (λ fields res, header_fold data_len fields [] 0 res Hmax' H0) as Hfold. split.
  - intros H. apply bind_Ok in H as (v & Hv%map_err_Ok & H). apply bind_Ok in H as (fields & Ho%ok_or_Ok%object_of & H).
    subst v. apply bind_Ok in H as ([l c] & (Hmeta & ranges & Hd & Hl & [= -> ->])%Hfold & H).
    apply bind_Ok in H as ([] & Hc%bail_if_Ok%Z.eqb_neq & H). apply bind_Ok in H as ([] & Ht & [= <-]).
    simpl in Ht. rewrite Z.add_0_l in *. pose proof (len_nonneg ranges).
    apply parse_unique_json_Ok in Hv as (event & Hev & Hst).
    apply tiling_of_tensors in Ht; [|done|by intros ->]. exists event, fields, ranges. split_and!; (done || lia).
  - intros (event & fields & ranges & Hev & Hst & Hmeta & Hd & Hl & Ht & ->).
    rewrite (proj2 (parse_unique_json_Ok header (JObject fields))) by (by exists event). simpl.
    rewrite (proj2 (Hfold fields (zip ranges (List.filter is_tensor fields).*1, 0 + len ranges)))
      by (split; [done|exists ranges; split_and!; (done || lia)]).
    simpl. rewrite Z.add_0_l, (proj2 (Z.eqb_neq _ _)) by lia. simpl.
    assert (ranges ≠ []) as Hne by (intros ->; unfold len in Hl; simpl in Hl; lia).
    by rewrite (proj2 (tiling_of_tensors data_len fields ranges Hd Hne) Ht).
Qed.

(** A file with this header, these tensor ranges and this data. *)
Record safetensors_file (file header : list Z) (fields : list (string * JsonValue))
    (ranges : list (Z * Z)) (data : list Z) : Prop := mkSafetensorsFile {
  file_bytes : file = le_bytes 8 (len header) ++ header ++ data;
  file_header : 1 ≤ len header ≤ MAX_SAFETENSORS_HEADER;
  file_json : ∃ event, parse_events header = Some event ∧ stands_for event (JObject fields);
  file_metadata : Forall metadata_ok fields;
  file_tensors : Forall2 (describes (len data)) (List.filter is_tensor fields) ranges;
  file_count : 0 < len ranges ≤ u64_max;
  file_tiled : tiles ranges (len data);
}.

(** C30: safetensors validation accepts exactly the files of the format: a header
    of a bounded length whose JSON object, without repeated keys at any depth, gives every
    tensor a range that its type and shape fill, in such a way that the ranges
    tile the data; the answer is the number of tensors. Of an accepted file,
    every byte of the data belongs to exactly one tensor. *)
Theorem safetensors_accepts_exactly file n :
  file_ok file →
  (validate_safetensors file (len file) = Ok n
   ↔ ∃ header fields ranges data, safetensors_file file header fields ranges data ∧ n = len ranges)
  ∧ ∀ header fields ranges data i, safetensors_file file header fields ranges data →
      0 ≤ i < len data → length (filter (λ r, r.1 ≤ i < r.2) ranges) = 1%nat.
Proof.
  intros Hf. pose proof (header_parse (len file)) as [Hsound Hcomplete].
  split; [|intros ????? [] ?; by eapply tiles_once]. unfold validate_safetensors. split.
  - intros H. apply bind_Ok in H as ([[header ds] p] & Hh & H).
    pose proof (header_read_inside _ _ _ _ Hf Hh) as Hin.
    destruct (Hsound file 0 _ p Hf ltac:(lia) Hh) as [Hp HP].
    destruct (HP Hin) as (Hlen & Hds & Hsize & Hw). cbn [fst snd] in *. clear HP. subst ds.
    assert (file = le_bytes 8 (len header) ++ header ++ drop (Z.to_nat p) file) as Hfile.
    { rewrite app_assoc, <-Hw. unfold slice. rewrite Z.sub_0_r. cbn. by rewrite take_drop. }
    assert (p = 8 + len header) as Hp8.
    { apply (f_equal len) in Hw. rewrite len_slice, len_app, len_le_bytes in Hw by lia. lia. }
    assert (len (drop (Z.to_nat p) file) = len file - (8 + len header)) as Hdata
      by (unfold len in *; rewrite length_drop; lia).
    destruct Hf as [_ Hmax]. apply check_header_Ok in H as (event & fields & ranges & ? & ? & ? & ? & ? & ? & ->); [|lia].
    exists header, fields, ranges, (drop (Z.to_nat p) file). split; [|done].
    split; rewrite ?Hdata; try done. by exists event.
  - intros (header & fields & ranges & data & [Hfile Hlen (event & Hev & Hst) Hm Hd Hc Ht] & ->).
    assert (len file = 8 + len header + len data) as Hsize
      by (rewrite Hfile, !len_app, len_le_bytes by lia; lia).
    pose proof (len_nonneg data). destruct Hf as [Hb Hmax].
    pose proof (Hcomplete [] (le_bytes 8 (len header) ++ header) data (header, 8 + len header)) as Hread.
    rewrite app_nil_l, <-app_assoc, <-Hfile in Hread. change (len (@nil Z)) with 0 in Hread.
    rewrite Hread; [|done|simpl; split_and!; (done || lia)]. simpl.
    apply check_header_Ok; [lia|]. exists event, fields, ranges.
    replace (len file - (8 + len header)) with (len data) by lia. done.
Qed.
End format.

(** Two tensors, the second one first in the buffer. *)
Definition sample_json_header : list Z := bytes_of "{...}".
Definition sample_tensor (dtype : string) (start last : Z) : Event :=
  EMap [("dtype", EStr dtype); ("shape", ESeq [EU64 2]); ("data_offsets", ESeq [EU64 start; EU64 last])].
#[local] Instance sample_header_json : HeaderJson := {
  parse_events bytes := if bool_decide (bytes = sample_json_header) then
    Some (EMap [("a", sample_tensor "F32" 4 12); ("b", sample_tensor "F16" 0 4)]) else None;
  json_error _ := "error";
}.
Definition sample_safetensors : list Z := le_bytes 8 5 ++ sample_json_header ++ replicate 12 0.

Lemma sample_safetensors_ok : file_ok sample_safetensors.
Proof. apply file_ok_b. vm_compute. reflexivity. Qed.

Lemma safetensors_accepts_exactly_witness :
  ∃ header fields ranges data, safetensors_file sample_safetensors header fields ranges data
    ∧ 2 = len ranges.
Proof.
  assert (validate_safetensors sample_safetensors (len sample_safetensors) = Ok 2) as H
    by (vm_compute; reflexivity).
  exact (proj1 (proj1 (safetensors_accepts_exactly sample_safetensors 2 sample_safetensors_ok)) H).
Defined.
