(* ===== verification/ModelFiles.v ===== *)
(** * Validating model files: mindone-engine, validation.rs

    [validate_model] checks one file; a model split over several GGUF files is
    accepted when names, directory and the metadata of the files agree.  What
    the operating system answers to the calls of [validate_model], in their
    order, is the record [Answers]. *)
From S2P Require Import Prelude Text Net Files Paths Gguf Safetensors SafetensorsSpec.
From Stdlib Require Import Ascii.

Local Open Scope string_scope.
Local Open Scope list_scope.
Local Open Scope Z_scope.

(** ** Reports *)

Definition compatible_engines (self : ModelFormat) : list string :=
  match self with Gguf => ["llama.cpp"] | Safetensors => [] end.

Record ValidationReport : Type := mkReport {
  report_path : string;
  format : ModelFormat;
  size_bytes : Z;
  sha256_hex : string;
  modified_unix : Z;
  tensor_count : Z;
  engines : list string;
  verified_at_unix : Z;
  gguf_split : option GgufSplitInfo;
}.

(** ** Split packages *)

(** The index counts from 1. *)
Record GgufSplitFileName : Type := mkSplitName { prefix : string; name_index : Z; name_count : Z }.

(** The extension is ASCII, so cutting it off leaves whole characters. *)
Definition parse_gguf_split_filename (path : string) : option GgufSplitFileName :=
  file_name ← file_name path ≫= to_str;
  extension ← name_extension file_name;
  if negb (String.eqb (to_ascii_lowercase extension) "gguf") then None else
  let stem := String.substring 0 (String.length file_name - 5) file_name in
  '(with_index, count_raw) ← rsplit_once "-of-" stem;
  '(prefix, index_raw) ← rsplit_once "-" with_index;
  if str_is_empty prefix || negb (str_len index_raw =? 5) || negb (str_len count_raw =? 5)
     || negb (all_bytes is_ascii_digit index_raw) || negb (all_bytes is_ascii_digit count_raw)
  then None else
  index ← parse_u16 index_raw;
  count ← parse_u16 count_raw;
  if negb (in_range 2 256 count) || (index =? 0) || (count <? index) then None else
  Some (mkSplitName prefix index count).

(** What the loop over the reports keeps: the prefix and the names so far. *)
Definition check_part (dir : list Component) (expected_count : Z)
    (acc : Z * option string * list string) (report : ValidationReport)
    : result ValidationError (Z * option string * list string) :=
  let '(position, prefix_seen, names) := acc in
  _ ← bail_if (negb (bool_decide (format report = Gguf))
      || negb (bool_decide (parent (report_path report) = Some dir)))
    (InvalidGguf "模型包必须由同一目录内的 GGUF 分片组成");
  parsed ← ok_or (parse_gguf_split_filename (report_path report))
    (InvalidGguf ("模型包分片文件名不符合规范：" +:+ report_path report));
  metadata ← ok_or (gguf_split report)
    (InvalidGguf ("模型包分片缺少 GGUF split 元数据：" +:+ report_path report));
  expected_index ← ok_or (u16_try_from (position + 1)) (InvalidGguf "模型包分片编号溢出");
  _ ← bail_if (negb (name_count parsed =? expected_count) || negb (name_index parsed =? expected_index)
      || negb (info_count metadata =? expected_count)
      || negb (info_index metadata =? expected_index - 1))
    (InvalidGguf ("分片编号、文件名与 GGUF 元数据不一致：" +:+ report_path report));
  _ ← bail_if (match prefix_seen with Some p => negb (String.eqb p (prefix parsed)) | None => false end)
    (InvalidGguf "模型包包含不同前缀的分片");
  name ← ok_or (file_name (report_path report)) (InvalidGguf "模型包分片缺少文件名");
  _ ← bail_if (existsb (String.eqb name) names) (InvalidGguf "模型包包含重复分片文件名");
  Ok (position + 1, Some (default (prefix parsed) prefix_seen), name :: names).

Definition validate_gguf_split_reports (reports : list ValidationReport)
    : result ValidationError () :=
  _ ← bail_if (negb (in_range 2 256 (len reports)))
    (InvalidGguf ("模型包分片数量无效：" +:+ dec (len reports)));
  dir ← ok_or (first ← head reports; parent (report_path first))
    (InvalidGguf "模型包路径缺少父目录");
  expected_count ← ok_or (u16_try_from (len reports)) (InvalidGguf "模型包分片数量溢出");
  _ ← fold_each (check_part dir expected_count) (0, None, []) reports;
  Ok tt.

(** ** One file *)

Definition lower_extension (path : string) : option string :=
  to_ascii_lowercase <$> (extension path ≫= to_str).

Definition reject_unsafe_extension (path : string) : result ValidationError () :=
  let extension := default "" (lower_extension path) in
  bail_if (existsb (String.eqb extension) ["pkl"; "pickle"; "pt"; "pth"; "bin"; "ckpt"; "joblib"])
    (UnsafeFormat ("." +:+ extension +:+ " 可能依赖任意代码反序列化")).

Definition validate_extension_matches (path : string) (format : ModelFormat)
    : result ValidationError () :=
  bail_if (negb match format, lower_extension path with
                | Gguf, Some e => String.eqb e "gguf"
                | Safetensors, Some e => String.eqb e "safetensors"
                | _, None => false
                end) ExtensionMismatch.

Definition normalize_sha256 (value : string) : option string :=
  let normalized := to_ascii_lowercase (trim value) in
  if (str_len normalized =? 64) && all_bytes is_ascii_hexdigit normalized
  then Some normalized else None.

Definition safetensors_magic_plausible (magic : list Z) (file_size : Z) : bool :=
  let header_len := little_endian_to_Z 8 magic in
  (1 <? header_len) && (header_len <=? MAX_SAFETENSORS_HEADER)
  && match checked in_u64 (header_len + 8) with Some last => last <=? file_size | None => false end.

(** The part of [std::fs::Metadata] that is read; times are in nanoseconds. *)
Record Metadata : Type := mkMetadata {
  is_symlink : bool;
  is_file : bool;
  dev : Z;
  ino : Z;
  length : Z;
  modified : option Z;
  mtime_nsec : Z;
  ctime : Z;
  ctime_nsec : Z;
}.

Definition same_file_identity (left right : Metadata) : bool :=
  (dev left =? dev right) && (ino left =? ino right).

Definition metadata_snapshot_unchanged (before after : Metadata) : bool :=
  if negb (same_file_identity before after) || negb (length before =? length after)
     || negb (bool_decide (modified before = modified after))
  then false
  else (mtime_nsec before =? mtime_nsec after) && (ctime before =? ctime after)
       && (ctime_nsec before =? ctime_nsec after).

(** [modified] in whole seconds from the epoch. *)
Definition modified_seconds (m : Metadata) : Z :=
  default 0 (t ← modified m; if t <? 0 then None else i64_try_from (t / 1000000000)).

(** The bytes are read twice: for the structure, and again for the digest. *)
Record Answers : Type := mkAnswers {
  canonical_before : option string;
  symlink_metadata : option Metadata;
  opened : result string Metadata;
  structure_bytes : list Z;
  digest_bytes : result string (list Z);
  after_read : result string Metadata;
  canonical_after : option string;
  path_metadata : option Metadata;
  now_unix : Z;
}.

Section validation.
Context `{HJ : HeaderJson} (sha256 : list Z → string).

(** The format by the first bytes, and what its validation found. *)
Definition validate_structure (file : list Z) (size : Z)
    : result ValidationError (ModelFormat * Z * option GgufSplitInfo) :=
  '(magic, _) ← map_err Io (read_exact 8 file 0);
  if bool_decide (take 4 magic = bytes_of "GGUF") then
    '(tensor_count, split) ← validate_gguf file size;
    Ok (Gguf, tensor_count, split)
  else if safetensors_magic_plausible magic size then
    tensor_count ← validate_safetensors file size;
    Ok (Safetensors, tensor_count, None)
  else Err (UnsafeFormat "文件头既不是 GGUF，也不是 safetensors").

Definition check_sha256 (expected_sha256 : option string) (actual : string)
    : result ValidationError () :=
  match expected_sha256 with
  | None => Ok tt
  | Some expected =>
    normalized ← ok_or (normalize_sha256 expected) (ChecksumMismatch expected actual);
    bail_if (negb (String.eqb normalized actual)) (ChecksumMismatch normalized actual)
  end.

Definition validate_model (os : Answers) (path : string) (expected_sha256 : option string)
    : result ValidationError ValidationReport :=
  canonical ← ok_or (canonical_before os) (NotAFile path);
  symlink_meta ← ok_or (symlink_metadata os) (NotAFile path);
  _ ← bail_if (is_symlink symlink_meta) (Symlink path);
  _ ← bail_if (negb (is_file symlink_meta)) (NotAFile path);
  _ ← reject_unsafe_extension path;
  opened_meta ← map_err Io (opened os);
  _ ← bail_if (negb (is_file opened_meta) || negb (same_file_identity symlink_meta opened_meta))
    (ConcurrentModification path);
  let size := length opened_meta in
  _ ← bail_if (negb (in_range 16 MAX_MODEL_BYTES size)) (InvalidSize size);
  '(format, tensor_count, gguf_split) ← validate_structure (structure_bytes os) size;
  _ ← validate_extension_matches path format;
  bytes ← map_err Io (digest_bytes os);
  let actual := hex_encode (sha256 bytes) in
  _ ← check_sha256 expected_sha256 actual;
  after_read_meta ← map_err Io (after_read os);
  _ ← bail_if (negb (metadata_snapshot_unchanged opened_meta after_read_meta))
    (ConcurrentModification path);
  canonical' ← ok_or (canonical_after os) (ConcurrentModification path);
  path_meta ← ok_or (path_metadata os) (ConcurrentModification path);
  _ ← bail_if (negb (bool_decide (components canonical = components canonical'))
      || negb (same_file_identity opened_meta path_meta)) (ConcurrentModification path);
  Ok (mkReport canonical' format size actual (modified_seconds opened_meta) tensor_count
        (compatible_engines format) (now_unix os) gguf_split).
End validation.

(** ** The names of the parts *)

(** The name of part [i] of [n], counted from 1, with the extension as it is spelled. *)
Definition part_name (pre : string) (i n : Z) (ext : string) : string :=
  (pre +:+ "-" +:+ pad5 i +:+ "-of-" +:+ pad5 n) +:+ "." +:+ ext.

Lemma lowercase_absent c s :
  is_ascii_uppercase c = false →
  all_bytes (λ b, negb (b =? c)) (to_ascii_lowercase s) = true →
  all_bytes (λ b, negb (b =? c)) s = true.
Proof.
  intros Hc. induction s as [|a s IH]; [done|]. cbn [all_bytes to_ascii_lowercase].
  rewrite !andb_true_iff. intros [Ha Hs]. split; [|auto].
  destruct (Z.eqb_spec (byte_val a) c) as [E|]; [|done].
  rewrite E, Hc, E, Z.eqb_refl in Ha. done.
Qed.

Lemma lowercase_length s : String.length (to_ascii_lowercase s) = String.length s.
Proof. induction s as [|a s IH]; [done|]. simpl. by rewrite IH. Qed.

Lemma substring_append s t : String.substring 0 (String.length s) (s +:+ t) = s.
Proof.
  induction s as [|a s IH]; [by destruct t|].
  change (String.String a s +:+ t) with (String.String a (s +:+ t)). simpl. by rewrite IH.
Qed.

Lemma strip_extension b ext :
  String.length ext = 4%nat →
  String.substring 0 (String.length (b +:+ "." +:+ ext) - 5) (b +:+ "." +:+ ext) = b.
Proof.
  intros Hlen. assert (String.length (b +:+ "." +:+ ext) - 5 = String.length b)%nat as ->;
    [|apply substring_append].
  pose proof (str_len_append b ("." +:+ ext)) as Hl. pose proof (str_len_append "." ext) as Hl'.
  unfold str_len in Hl, Hl'. rewrite Hlen in Hl'. change (String.length ".") with 1%nat in Hl'. lia.
Qed.

Lemma gguf_extension_length ext :
  to_ascii_lowercase ext = "gguf" → String.length ext = 4%nat ∧ rsplit_once "." ext = None.
Proof.
  intros H. split; [by rewrite <-lowercase_length, H|].
  apply rsplit_once_absent, lowercase_absent; [done|]. by rewrite H.
Qed.

Lemma str_len_pad5 v : str_len (pad5 v) = 5.
Proof. done. Qed.

(** A name is split where it was put together, and only then. *)
Lemma split_stem pre index_raw count_raw stem :
  all_bytes is_ascii_digit index_raw = true → all_bytes is_ascii_digit count_raw = true →
  ('(with_index, c) ← rsplit_once "-of-" stem; '(p, i) ← rsplit_once "-" with_index; Some (p, i, c))
    = Some (pre, index_raw, count_raw)
  ↔ stem = pre +:+ "-" +:+ index_raw +:+ "-of-" +:+ count_raw.
Proof.
  intros Hi Hc. split.
  - intros H. apply bind_Some in H as ([w c] & ->%rsplit_once_Some & H).
    apply bind_Some in H as ([p i] & ->%rsplit_once_Some & [= -> -> ->]). by rewrite !append_assoc.
  - intros ->. replace (pre +:+ "-" +:+ index_raw +:+ "-of-" +:+ count_raw)
      with ((pre +:+ "-" +:+ index_raw) +:+ "-of-" +:+ count_raw) by by rewrite !append_assoc.
    rewrite (rsplit_once_last "-"%char "of-"); [simpl; rewrite (rsplit_once_last "-"%char ""); [done|]|].
    + by apply rsplit_once_digits.
    + change ("of-" +:+ count_raw)
        with (String.String "o" (String.String "f" (String.String "-" count_raw))).
      cbn [rsplit_once]. rewrite (rsplit_once_digits "-"%char "of-") by done.
      change (StandardData.strip_prefix "-of-" (String.String "-" count_raw))
        with (StandardData.strip_prefix "of-" count_raw).
      by rewrite (strip_prefix_digits "o"%char "f-") by done.
Qed.

(** A file name is read as a part exactly when it is the name of one. *)
Lemma parse_split_name path pre i n :
  parse_gguf_split_filename path = Some (mkSplitName pre i n)
  ↔ ∃ ext name, file_name path = Some name ∧ to_str name = Some name ∧ name = part_name pre i n ext
      ∧ to_ascii_lowercase ext = "gguf" ∧ pre ≠ "" ∧ 1 ≤ i ≤ n ∧ 2 ≤ n ≤ 256.
Proof.
  unfold parse_gguf_split_filename, name_extension, part_name. split.
  - intros H. apply bind_Some in H as (name & Hname & H). apply bind_Some in Hname as (name' & Hf & Hs).
    assert (name' = name) as -> by (unfold to_str in Hs; destruct (utf8_error _ _); congruence).
    apply bind_Some in H as (ext & Hext & H).
    destruct (rsplit_once "." name) as [[b e]|] eqn:Edot; [|done].
    destruct (str_is_empty b); [done|]. injection Hext as ->. apply rsplit_once_Some in Edot.
    destruct (String.eqb_spec (to_ascii_lowercase ext) "gguf") as [Hlow|]; [|done]. simpl in H.
    destruct (gguf_extension_length _ Hlow) as [Hlen _].
    assert (String.substring 0 (String.length name - 5) name = b) as Hstem.
    { subst name. by apply strip_extension. }
    rewrite Hstem in H. apply bind_Some in H as ([w c] & Hw & H). apply bind_Some in H as ([p ix] & Hp & H).
    destruct (_ || _) eqn:Hg; [done|]. rewrite !orb_false_iff, !negb_false_iff, !Z.eqb_eq in Hg.
    destruct Hg as ((((Hpre & Hix) & Hc) & Hixd) & Hcd).
    apply bind_Some in H as (i' & Hi & H). apply bind_Some in H as (n' & Hn & H).
    apply parse_u16_five in Hi as [-> Hi]; [|done..]. apply parse_u16_five in Hn as [-> Hn]; [|done..].
    destruct (_ || _) eqn:Hg; [done|]. injection H as -> -> ->.
    rewrite !orb_false_iff, negb_false_iff, in_range_true, Z.eqb_neq, Z.ltb_ge in Hg.
    exists ext, name. split_and!; [done|done| |done|by apply String.eqb_neq|lia..].
    rewrite Edot. f_equal. apply split_stem; [apply pad5_digits..|].
    rewrite Hw. simpl. by rewrite Hp.
  - intros (ext & name & Hf & Hs & Hname & Hlow & Hpre & Hi & Hn). rewrite Hf. simpl. rewrite Hs. simpl.
    destruct (gguf_extension_length _ Hlow) as [Hlen Hdot].
    set (b := pre +:+ "-" +:+ pad5 i +:+ "-of-" +:+ pad5 n) in *.
    assert (rsplit_once "." name = Some (b, ext)) as ->
      by (rewrite Hname; by apply (rsplit_once_last "."%char "")).
    assert (str_is_empty b = false) as -> by (destruct pre; done). simpl. rewrite Hlow. simpl.
    assert (String.substring 0 (String.length name - 5) name = b) as ->.
    { rewrite Hname. by apply strip_extension. }
    pose proof (proj2 (split_stem pre (pad5 i) (pad5 n) b (pad5_digits i) (pad5_digits n)) eq_refl) as Hsplit.
    apply bind_Some in Hsplit as ([w c] & Hw & Hsplit). apply bind_Some in Hsplit as ([p ix] & Hp & [= -> -> ->]).
    rewrite Hw. cbn [mbind option_bind]. rewrite Hp. cbn [mbind option_bind].
    unfold str_is_empty. rewrite (proj2 (String.eqb_neq _ _) Hpre), !str_len_pad5, !pad5_digits. simpl.
    rewrite (proj2 (parse_u16_five (pad5 i) i (str_len_pad5 i) (pad5_digits i)))
      by (split; [done|lia]). cbn [mbind option_bind].
    rewrite (proj2 (parse_u16_five (pad5 n) n (str_len_pad5 n) (pad5_digits n)))
      by (split; [done|lia]). cbn [mbind option_bind].
    rewrite (proj2 (in_range_true _ _ _) Hn), (proj2 (Z.eqb_neq i 0)), (proj2 (Z.ltb_ge n i)) by lia. done.
Qed.

(** ** Packages *)

(** Part [i] of [n] of the model [pre] in a directory, counted from 0. *)
Definition part_of (dir : list Component) (pre : string) (n i : Z) (r : ValidationReport) : Prop :=
  format r = Gguf ∧ parent (report_path r) = Some dir ∧ gguf_split r = Some (mkSplitInfo i n)
  ∧ ∃ ext name, file_name (report_path r) = Some name ∧ to_str name = Some name
      ∧ name = part_name pre (i + 1) n ext ∧ to_ascii_lowercase ext = "gguf".

Lemma pad5_inj i j : 0 ≤ i ≤ 65535 → 0 ≤ j ≤ 65535 → pad5 i = pad5 j → i = j.
Proof.
  intros Hi Hj H. pose proof (parse_u16_five (pad5 i) i (str_len_pad5 i) (pad5_digits i)) as Ei.
  pose proof (parse_u16_five (pad5 i) j (str_len_pad5 i) (pad5_digits i)) as Ej.
  rewrite (proj2 Ei) in Ej by (split; [done|lia]). by injection (proj2 Ej (conj H Hj)).
Qed.

(** A name says which part it is. *)
Lemma part_name_inj pre i j n ext ext' :
  0 ≤ i ≤ 65535 → 0 ≤ j ≤ 65535 → part_name pre i n ext = part_name pre j n ext' → i = j.
Proof.
  intros Hi Hj. unfold part_name. rewrite !append_assoc. intros H.
  apply append_same_length_inj in H as [_ H]; [|done]. apply append_same_length_inj in H as [_ H]; [|done].
  apply append_same_length_inj in H as [H _]; [|done]. by apply pad5_inj.
Qed.

(** The names before position [k]. *)
Definition names_before (pre : string) (n k : Z) (names : list string) : Prop :=
  ∀ name, In name names → ∃ j ext, 1 ≤ j ≤ k ∧ name = part_name pre j n ext.

Lemma check_part_inv dir n k seen names r res :
  check_part dir n (k, seen, names) r = Ok res →
  ∃ pre name, part_of dir pre n k r ∧ pre ≠ "" ∧ (seen = None ∨ seen = Some pre)
    ∧ k + 1 ≤ n ∧ res = (k + 1, Some pre, name :: names).
Proof.
  unfold check_part. intros H. apply bind_Ok in H as ([] & Hd%bail_if_Ok & H).
  rewrite orb_false_iff, !negb_false_iff, !bool_decide_eq_true in Hd. destruct Hd as [Hfmt Hdir].
  apply bind_Ok in H as ([pre i m] & Hp%ok_or_Ok & H).
  apply bind_Ok in H as ([si sn] & Hs%ok_or_Ok & H). apply bind_Ok in H as (e & [_ ->]%ok_or_Ok%checked_Some & H).
  apply bind_Ok in H as ([] & Hn%bail_if_Ok & H). cbn in Hn.
  rewrite !orb_false_iff, !negb_false_iff, !Z.eqb_eq in Hn. destruct Hn as (((-> & ->) & ->) & ->).
  apply bind_Ok in H as ([] & Hseen%bail_if_Ok & H). apply bind_Ok in H as (name & Hname%ok_or_Ok & H).
  apply bind_Ok in H as ([] & _ & [= <-]).
  apply parse_split_name in Hp as (ext & name' & Hf & Hto & Hpart & Hlow & Hpre & Hi & Hm).
  exists pre, name. replace (k + 1 - 1) with k in Hs by lia. cbn in Hseen |- *. split_and!; [|done| |lia|].
  - split_and!; [done..|]. by exists ext, name'.
  - destruct seen as [p|]; [right|by left]. apply negb_false_iff, String.eqb_eq in Hseen. congruence.
  - destruct seen as [p|]; [|done]. apply negb_false_iff, String.eqb_eq in Hseen. by subst p.
Qed.

Lemma check_part_accepts dir pre n k seen names r :
  pre ≠ "" → 2 ≤ n ≤ 256 → 0 ≤ k < n → (seen = None ∨ seen = Some pre) →
  names_before pre n k names → part_of dir pre n k r →
  ∃ name, check_part dir n (k, seen, names) r = Ok (k + 1, Some pre, name :: names)
    ∧ names_before pre n (k + 1) (name :: names).
Proof.
  intros Hpre Hn Hk Hseen Hnames (Hfmt & Hdir & Hsplit & ext & name & Hf & Hto & Hname & Hlow).
  exists name. assert (existsb (String.eqb name) names = false) as Hnew.
  { apply not_true_iff_false. intros (x & Hx & ->%String.eqb_eq)%existsb_exists.
    destruct (Hnames x Hx) as (j & ext' & Hj & Hx'). rewrite Hname in Hx'.
    apply part_name_inj in Hx'; lia. }
  split.
  - unfold check_part. rewrite !bool_decide_true by done. simpl.
    rewrite (proj2 (parse_split_name (report_path r) pre (k + 1) n));
      [|exists ext, name; split_and!; (done || lia)].
    simpl. rewrite Hsplit. simpl. unfold u16_try_from. rewrite checked_true by (apply in_range_true; lia).
    simpl. rewrite !Z.eqb_refl. simpl. replace (k =? k + 1 - 1) with true by (symmetry; apply Z.eqb_eq; lia).
    simpl. destruct Hseen as [->| ->]; simpl; rewrite ?String.eqb_refl; simpl; by rewrite Hf; simpl; rewrite Hnew.
  - intros x [<-|Hx]; [exists (k + 1), ext; split; [lia|done]|].
    destruct (Hnames x Hx) as (j & e & Hj & ?). exists j, e. split; [lia|done].
Qed.

Lemma check_parts_inv dir n k pre names rs res :
  fold_each (check_part dir n) (k, Some pre, names) rs = Ok res →
  ∀ i r, rs !! i = Some r → part_of dir pre n (k + Z.of_nat i) r.
Proof.
  revert k names. induction rs as [|r rs IH]; intros k names; [done|].
  rewrite fold_each_cons. intros H i x Hx. apply bind_Ok in H as (s & Hs & H).
  apply check_part_inv in Hs as (p & name & Hp & _ & [?|[= ->]] & _ & ->); [done|].
  destruct i as [|i]; simpl in Hx; [injection Hx as <-; by rewrite Z.add_0_r|].
  specialize (IH _ _ H i x Hx). by replace (k + Z.of_nat (Datatypes.S i)) with (k + 1 + Z.of_nat i) by lia.
Qed.

Lemma check_parts_accept dir pre n k seen names rs :
  pre ≠ "" → 2 ≤ n ≤ 256 → 0 ≤ k → k + len rs ≤ n → (seen = None ∨ seen = Some pre) →
  names_before pre n k names →
  (∀ i r, rs !! i = Some r → part_of dir pre n (k + Z.of_nat i) r) →
  is_ok (fold_each (check_part dir n) (k, seen, names) rs) = true.
Proof.
  intros Hpre Hn. revert k seen names. induction rs as [|r rs IH]; intros k seen names Hk Hlen Hseen Hnames Hrs; [done|].
  unfold len in Hlen. simpl in Hlen. pose proof (Hrs 0%nat r eq_refl) as Hr. rewrite Z.add_0_r in Hr.
  destruct (check_part_accepts dir pre n k seen names r) as (name & E & Hnames'); [done..|lia|done|done|done|].
  rewrite fold_each_cons, E. simpl. apply IH; [lia|unfold len; lia|by right|done|].
  intros i x Hx. replace (k + 1 + Z.of_nat i) with (k + Z.of_nat (Datatypes.S i)) by lia. by apply Hrs.
Qed.

(** C31: a split model is accepted exactly when it is complete. The reports pass
    if and only if they are, in order, all the parts of one model: between 2 and
    256 files of the same directory, the i-th of n named as the i-th of n parts
    of the same prefix, and marked as such in its own metadata. *)
Theorem package_accepted_iff reports :
  validate_gguf_split_reports reports = Ok tt
  ↔ 2 ≤ len reports ≤ 256 ∧ ∃ dir pre, pre ≠ "" ∧
      ∀ i r, reports !! i = Some r → part_of dir pre (len reports) (Z.of_nat i) r.
Proof.
  unfold validate_gguf_split_reports. split.
  - intros H. apply bind_Ok in H as ([] & Hlen%bail_if_Ok%negb_false_iff%in_range_true & H).
    split; [done|]. apply bind_Ok in H as (dir & _ & H).
    apply bind_Ok in H as (n & [_ ->]%ok_or_Ok%checked_Some & H). apply bind_Ok in H as (res & H & _).
    exists dir. destruct reports as [|r rs]; [unfold len in Hlen; simpl in Hlen; lia|].
    rewrite fold_each_cons in H. apply bind_Ok in H as (s & Hs & H).
    apply check_part_inv in Hs as (pre & name & Hr & Hpre & _ & _ & ->). exists pre. split; [done|].
    intros [|i] x Hx; simpl in Hx; [by injection Hx as <-|].
    pose proof (check_parts_inv _ _ _ _ _ _ _ H i x Hx) as Hi.
    by replace (Z.of_nat (Datatypes.S i)) with (0 + 1 + Z.of_nat i) by lia.
  - intros (Hlen & dir & pre & Hpre & Hrs). rewrite (proj2 (in_range_true _ _ _) Hlen). simpl.
    destruct reports as [|r rs] eqn:Er; [unfold len in Hlen; simpl in Hlen; lia|]. rewrite <-Er in *.
    destruct (Hrs 0%nat r) as (_ & Hdir & _); [by rewrite Er|].
    replace (head reports) with (Some r) by by rewrite Er. simpl. rewrite Hdir. simpl.
    unfold u16_try_from. rewrite checked_true by (apply in_range_true; lia). simpl.
    pose proof (check_parts_accept dir pre (len reports) 0 None [] reports) as Hok.
    rewrite (is_ok_Ok (0, None, []) _ (Hok Hpre Hlen ltac:(lia) ltac:(lia) ltac:(by left)
      ltac:(by intros ? []) Hrs)). done.
Qed.

(** ** Reports *)

Definition extension_of (f : ModelFormat) : string :=
  match f with Gguf => "gguf" | Safetensors => "safetensors" end.

Lemma extension_matches path f :
  validate_extension_matches path f = Ok tt ↔ lower_extension path = Some (extension_of f).
Proof.
  unfold validate_extension_matches. rewrite bail_if_Ok, negb_false_iff.
  destruct f, (lower_extension path) as [e|]; simpl; rewrite ?String.eqb_eq; (done || naive_solver).
Qed.

Lemma check_sha256_Ok expected actual :
  check_sha256 expected actual = Ok tt
  ↔ ∀ e, expected = Some e → normalize_sha256 e = Some actual.
Proof.
  destruct expected as [e|]; simpl; [|naive_solver]. split.
  - intros H e' [= <-]. apply bind_Ok in H as (n & Hn%ok_or_Ok & H%bail_if_Ok).
    apply negb_false_iff, String.eqb_eq in H. congruence.
  - intros H. rewrite (H e eq_refl). simpl. by rewrite String.eqb_refl.
Qed.

Lemma snapshot_same before after :
  metadata_snapshot_unchanged before after = true ↔
  same_file_identity before after = true ∧ length before = length after
  ∧ modified before = modified after ∧ mtime_nsec before = mtime_nsec after
  ∧ ctime before = ctime after ∧ ctime_nsec before = ctime_nsec after.
Proof.
  unfold metadata_snapshot_unchanged.
  destruct (_ || _) eqn:E; rewrite ?andb_true_iff, ?Z.eqb_eq.
  - split; [done|]. intros (H1 & H2 & H3 & _). rewrite H1, H2, H3, Z.eqb_refl, bool_decide_true in E by done. done.
  - rewrite !orb_false_iff, !negb_false_iff, Z.eqb_eq, bool_decide_eq_true in E. naive_solver.
Qed.

Lemma snapshot_unchanged before after :
  metadata_snapshot_unchanged before after = true →
  dev before = dev after ∧ ino before = ino after ∧ length before = length after
  ∧ modified before = modified after ∧ mtime_nsec before = mtime_nsec after
  ∧ ctime before = ctime after ∧ ctime_nsec before = ctime_nsec after.
Proof.
  unfold metadata_snapshot_unchanged, same_file_identity.
  destruct (_ || _) eqn:Hg; [done|].
  rewrite !orb_false_iff, !negb_false_iff, !andb_true_iff, !Z.eqb_eq, bool_decide_eq_true in Hg.
  rewrite !andb_true_iff, !Z.eqb_eq. tauto.
Qed.

(** C32: a report is true of the file. When a model file is accepted, its format
    is the one its structure was validated as, within the size limits, and the
    one its extension names, which is none that may carry code; the digest is
    that of the bytes read, and the expected one if one was expected; and the
    file that was opened was a regular file, the one the path named before and
    names after, whose length, modification and change times stood still. *)
Theorem report_is_true `{HJ : HeaderJson} (sha256 : list Z → string) os path expected report :
  validate_model sha256 os path expected = Ok report →
  validate_structure (structure_bytes os) (size_bytes report)
    = Ok (format report, tensor_count report, gguf_split report)
  ∧ 16 ≤ size_bytes report ≤ MAX_MODEL_BYTES
  ∧ lower_extension path = Some (extension_of (format report))
  ∧ engines report = compatible_engines (format report)
  ∧ (∃ bytes, digest_bytes os = Ok bytes ∧ sha256_hex report = hex_encode (sha256 bytes)
      ∧ ∀ e, expected = Some e → normalize_sha256 e = Some (sha256_hex report))
  ∧ ∃ named during after named', symlink_metadata os = Some named ∧ opened os = Ok during
      ∧ after_read os = Ok after ∧ path_metadata os = Some named'
      ∧ is_symlink named = false ∧ is_file during = true ∧ length during = size_bytes report
      ∧ same_file_identity named during = true ∧ same_file_identity during named' = true
      ∧ dev after = dev during ∧ ino after = ino during ∧ length after = length during
      ∧ modified after = modified during ∧ mtime_nsec after = mtime_nsec during
      ∧ ctime after = ctime during ∧ ctime_nsec after = ctime_nsec during
      ∧ (components <$> canonical_before os) = Some (components (report_path report)).
Proof.
  unfold validate_model. intros H. apply bind_Ok in H as (c & Hc%ok_or_Ok & H).
  apply bind_Ok in H as (named & Hnamed%ok_or_Ok & H). apply bind_Ok in H as ([] & Hlink%bail_if_Ok & H).
  apply bind_Ok in H as ([] & _ & H). apply bind_Ok in H as ([] & _ & H).
  apply bind_Ok in H as (during & Hduring%map_err_Ok & H).
  apply bind_Ok in H as ([] & [Hfile%negb_false_iff Hid%negb_false_iff]%bail_if_Ok%orb_false_iff & H).
  apply bind_Ok in H as ([] & Hsize%bail_if_Ok%negb_false_iff%in_range_true & H).
  apply bind_Ok in H as ([[f n] split] & Hstructure & H). apply bind_Ok in H as ([] & Hext%extension_matches & H).
  apply bind_Ok in H as (bytes & Hbytes%map_err_Ok & H). apply bind_Ok in H as ([] & Hsha & H).
  apply bind_Ok in H as (after & Hafter%map_err_Ok & H).
  apply bind_Ok in H as ([] & Hsnap%bail_if_Ok%negb_false_iff%snapshot_unchanged & H).
  apply bind_Ok in H as (c' & Hc'%ok_or_Ok & H). apply bind_Ok in H as (named' & Hnamed'%ok_or_Ok & H).
  apply bind_Ok in H as ([] & Hend%bail_if_Ok & [= <-]).
  apply orb_false_iff in Hend as [Hcan%negb_false_iff%bool_decide_eq_true Hid'%negb_false_iff].
  simpl. split_and!; [done|lia|lia|done|done| |].
  - exists bytes. split_and!; [done|done|]. by apply check_sha256_Ok.
  - exists named, during, after, named'. split_and!; try done. 1-7: symmetry; apply Hsnap.
    rewrite Hc. simpl. by rewrite Hcan.
Qed.

(** A file that the answers of the operating system describe. *)
Definition sample_metadata : Metadata := mkMetadata false true 1 2 (len sample_safetensors) (Some 5) 5 6 7.
Definition sample_answers : Answers :=
  mkAnswers (Some "/models/a.safetensors") (Some sample_metadata) (Ok sample_metadata) sample_safetensors
    (Ok sample_safetensors) (Ok sample_metadata) (Some "/models/a.safetensors") (Some sample_metadata) 9.
Definition sample_report : ValidationReport :=
  ok_default (mkReport "" Gguf 0 "" 0 0 [] 0 None)
    (validate_model (HJ := sample_header_json) (λ _, "digest") sample_answers "/models/a.safetensors" None).

Lemma report_is_true_witness : lower_extension "/models/a.safetensors" = Some "safetensors".
Proof.
  refine (proj1 (proj2 (proj2 (report_is_true (HJ := sample_header_json) (λ _, "digest") sample_answers
    "/models/a.safetensors" None sample_report _)))).
  apply is_ok_Ok. vm_compute. reflexivity.
Defined.
